(* ===== verification/_CoqProject ===== *)
-Q . S2P
Prelude.v
Decimal.v
PyString.v
DecText.v
PyValue.v
PyTime.v
Identifiers.v
StateDescriptor.v
Store.v
OrderReducer.v
PositionReducer.v
Sha256.v
Commands.v
ExecutionJobs.v
Freshness.v
OrderPolicies.v
Risk.v
Reservations.v
Allocation.v
External.v
Exits.v
OrderPlans.v
Trailing.v
Protection.v
Recovery.v
Ledger.v
OwnershipLedger.v
Binary64.v
EntryBatch.v
Watchdog.v
Planner.v
ZoneLadder.v
Routing.v
Reconciliation.v
Governor.v
Gateway.v
Alerts.v
MarketData.v
NodeLimits.v
Json.v
JsonText.v
TimeText.v
Inbox.v
Spool.v
NodeCommands.v
CloseAll.v
PositionRevision.v
OperatorCommands.v
Claims.v
SignalQueue.v
SignalHandoff.v
Publisher.v
SignalOperator.v
SettingsSchema.v
Security.v
Settings.v
