(* ===== verification/Prelude.v ===== *)
(** * trader-bot: a verification library for the trading control plane

    ** The program

    A signal becomes an order in five steps.  (1) A Hermes worker claims a
    message, asks the model and writes a decision.  One path turns it into an
    operator request: the task of the account freezes the request, and the
    control plane accepts it under the worker's claim.  On the other, the
    decision gateway of the control plane takes the oldest decision without an
    outcome, asks the risk governor, and records an approval or a rejection.
    (2) An approval becomes a trade intent and, in the same transaction, a
    durable execution job, a risk reservation and an outbox event.  (3) The
    execution node takes the intent into its inbox, plans it as one entry
    order, a management plan or a denial, guarded by the reference price, the
    order limits and the reconciled state of its books, and records the
    dispatch before it submits.  (4) What the exchange reports is spooled on
    the node until acknowledged and comes back as execution events, which the
    reducers project into orders, positions and accounts and the ledgers read
    as evidence.
    (5) Protection, break-even, trailing, exits, recovery, the watchdog and
    reconciliation look after what is open, and operator commands, settings,
    permissions, freshness, alerts and routing govern the whole.  Outbox
    events are delivered by a publisher.

    ** The files

    Below, order_management/, risk/, decision_gateway/, risk_state/, api/,
    commands/, outbox/, settings/, security/ and audit/ are directories of
    src/services/control-plane, nautilus-node/ is src/services/nautilus-node,
    hermes-worker/ is src/services/hermes-worker, and execution_domain/ is
    src/packages/execution-domain/execution_domain.

    Foundations.
    - Prelude: exceptions, [result], the state-and-error monad [M] (a raised
      exception keeps the state written before it), association lists, sorting.
    - Decimal, DecText: decimal.Decimal in its default context, its printers
      and its constructor.  Binary64: float of a decimal and float arithmetic.
    - PyString, PyValue, PyTime, TimeText: str methods, JSON values and
      dictionaries, datetimes and their ISO texts.  Json, JsonText: what
      json.dumps writes and what json.loads reads of a text that may be cut.
    - Store: the tables of db/migrations and the connection with its
      transactions, order_management/db_helpers.py, risk_state/risk_state.py.
    - External: how a service runs on an outside party and a connection.
    - Sha256: SHA-256, UUIDs and the modules that derive identifiers from
      them (execution_domain/idempotency.py, outbox and trace context); SHA-1
      is with its only use, in Settings.
    - Identifiers, StateDescriptor: canonical identifiers; the lifecycles and
      permissions of packages/contracts/v1/order_state.v1.json.

    From a message to a request.
    - Claims (hermes-worker/queue/claims.py), SignalQueue
      (hermes-worker/queue/signal_queue.py), SignalOperator
      (hermes-worker/signal_operator.py), SignalHandoff
      (api/signal_handoff.py), PositionRevision (api/position_revision.py).

    From a decision to a job.
    - Governor (risk/governor.py, policy.py), Gateway
      (decision_gateway/gateway.py), ZoneLadder
      (decision_gateway/zone_ladder.py), ExecutionJobs
      (order_management/execution_jobs.py, intent_status.py, recovery.py),
      Risk and Reservations (risk/risk_config.py, account_budget.py,
      position_sizing.py, exchange_filters.py, exposure.py, reservations.py,
      loss_limits.py).

    The node.
    - OrderPlans (nautilus-node/strategy/protection.py, take_profit.py,
      trailing_stop.py and the shared part of intent_execution_planner.py),
      Planner (the rest of intent_execution_planner.py), MarketData
      (market_data/price_feed.py, strategy/price_guard.py), NodeLimits
      (risk/config.py, risk/limits.py, strategy/retry_policy.py), Routing
      (routing/multi_account.py), EntryBatch (execution_domain/entry_batch.py).
    - Inbox (runtime/intent_execution_inbox.py), Spool (projection/spool.py),
      NodeCommands (commands/handler.py), CloseAll
      (commands/position_identity.py, close_all.py, cancel_all.py).

    Evidence and projections.
    - OrderReducer, PositionReducer (order_management/order_reducer.py,
      position_reducer.py, account_reducer.py), Ledger
      (execution_domain/order_ownership.py, account_execution_ledger.py),
      OwnershipLedger (execution_domain/ownership_ledger.py), Reconciliation
      (order_management/reconciliation.py).

    Looking after positions.
    - Allocation and Exits (order_management/exits.py), Protection
      (protection_manager.py, breakeven.py), Trailing (trailing_stop.py),
      Recovery (protection_recovery.py), Watchdog (protection_watchdog.py),
      OrderPolicies (drift_policy.py, unfilled_manager.py, partial_fill.py).

    Governing.
    - Commands (order_management/commands.py), Freshness (freshness.py), Alerts
      (alerts.py), OperatorCommands (commands/commands.py and the writer fence,
      poll and acknowledgement endpoints of api/read_api.py), Publisher
      (outbox/publisher.py).
    - SettingsSchema (settings/schema.py and the descriptor file it loads),
      Settings (the rest of settings/, audit/settings_audit.py and
      nautilus-node/runtime/settings_consumer.py), Security
      (security/permissions.py, audit.py, dangerous_ops.py).

    A definition has the name of the function it translates.  A function over
    the database is a value of [M], with the state it leaves; one that only
    computes returns its value, or a [result] when it can raise.

    ** What the theorems show

    - Admission.  An intent exists only under an approval of the governor, an
      approval only within the limits of the policy, and a decision gets one
      outcome however often it is polled; a plan of the node opens a position
      only with fresh evidence and carries its approved notional, which a
      priced entry keeps to (a market entry is not bounded by the planner);
      its management orders are reduce-only, on the closing side and, except a
      moved stop, which rounds half up, at most the position; the
      orders of a zone stay within its limits; sizes lose at most the approved
      risk at the stop, and reservations together at most the budget.
    - Handoff.  No two tasks of an account are claimed at once; a request is
      accepted once, unchanged, under the claim that registered it, and only
      if no close of its book came between; the stable id of a request names
      its source and its action; a claim loop ends; a task or run that has
      ended stays ended.
    - The node.  An intent is dispatched once, and a receipt is never lost; a
      spooled event survives restarts and cut writes until it is acknowledged;
      a command runs at most once; a completed close_all has seen the account
      flat, as the code reads quantities.
    - Projection.  A run of the reducers follows the lifecycles, redelivered
      events change nothing, and fills are counted once each.  The ledgers
      are refined by what their evidence sums to.
    - Durability.  Jobs, commands, reservations and limits move only along
      their lifecycles, are created once, claimed by one worker at a time, and
      retried boundedly.  An outbox event that is published was applied once
      by its sink, when the sink applies a key once, except those another
      writer marks.
    - Protection.  Installing a stop has its outcome stated on every branch,
      raised ones included, as has a recovery with duplicates at the venue;
      closing, break-even, trailing and the watchdog keep the protection
      within the position; a trailing stop never loosens.
    - Governing.  The gates deny what stale data, a dead feed or a stale mark
      must deny; alerts repeat only after their cooldown; routes share no
      spool file and no key; reconciliation passes exactly when what it
      compares agrees.  The status of an operator command is a rollup of its
      nodes' acknowledgements, superseded writers are refused, no update of
      the settings is lost, the effective settings are those of the most
      specific scope, and no dangerous operation passes without its
      permission and its audit row.
    - Round trips and algorithms: client order ids, texts of decimals and
      times, JSON documents, float printing, SHA-256 on known vectors.

    Where the code does less than it promises, a lemma beside the component
    shows it on a concrete input, and the comment of the theorem names it.

    ** Bounds and fuel

    Loops over lists and rows are structural.  The shortest digits of a float
    are sought among one to seventeen, which always suffice for binary64.
    The rounds of ZoneLadder that pack a price run on a fuel computed from the
    tranche count, and [rounds_enough] shows it is never exhausted.  Powers,
    digits and quotients are on unbounded integers.  SHA-256 words are
    integers reduced modulo 2^32 at every sum and shift.  The claim loop of
    SignalQueue has one round more than there are tasks, which
    [claim_terminates] shows to be enough; a JSON text is read, and a text
    redacted, with one step more than its length; retries and waits of the
    flattening commands run on the counts the settings give.

    ** What is simplified

    - The database.  Unique keys and the checks the code relies on are
      modelled where a statement meets them; foreign keys are not.  Advisory
      and row locks are represented by running each transaction alone.  Text
      is ordered bytewise.  now() and datetime.now read one clock, uuid4 draws
      from a supply of fresh values.  Rows that tie on created_at come latest
      inserted first.  A numeric column is finite or NaN; jsonb keeps numbers
      as they were written.
    - Numbers.  A decimal has no sign of zero and no bound on its exponent;
      a float is carried by the decimal its repr denotes; prices of the
      planner are finite decimals.  total_seconds is compared in microseconds.
    - Texts are ASCII, texts shown by repr hold no quotes; ISO datetimes are
      in the extended format; a UUID is canonical text or its digits.
    - Processes die where the code provides for it: Publisher and NodeCommands
      have the death between an effect and its record as a step, Spool has
      the write cut at any byte.  Elsewhere an operation runs to its end.
    - Exchanges, submitters, repairers, alert and event sinks, the engine and
      the venue of a node, the JSON-schema validator, the model and random
      fractions are parameters; where a theorem relies on what one of them
      promises, a class states it and an instance shows it can hold.

    ** What is not modelled

    The callbacks of nautilus-node/strategy/intent_execution_strategy.py and
    app/, which drive an engine outside the repository; the projection actor
    and the mapping of engine events, redis leases and sessions; of
    projection/contracts.py and execution_domain/control_plane.py all but the
    event envelope and the commands; files that cannot be written.  Of the
    HTTP API and its read models, all but the endpoints named above: parsing,
    authentication and serialisation; settings/router.py and the tracker of
    apply_plan.py.  Of the Hermes worker, its loop, its media and its calls of
    the language model.  Schema checks of live databases, metrics and log
    writers; the vendored freqtrade engine and its bridge; operational
    scripts, mirrored copies and research notebooks. *)

From Stdlib Require Import ZArith Lia.
From stdpp Require Export base gmap strings list sorting.

(** Exceptions a modelled function can raise.  The constructor is the Python
    class; the string is the first argument where a caller can tell two of
    them apart. *)
Inductive exn :=
  | ValueError (msg : string)
  | KeyError (key : string)
  | TypeError (msg : string)
  | InvalidOperation
  | DivisionByZero
  | RuntimeError (cls msg : string).

#[global] Instance exn_eq_dec : EqDecision exn.
Proof. solve_decision. Defined.

(** Pure fallible code returns a [result]. *)
Inductive result (A : Type) :=
  | Ok (a : A)
  | Raise (e : exn).
Arguments Ok {A} _.
Arguments Raise {A} _.

#[global] Instance result_ret : MRet result := fun A a => Ok a.
#[global] Instance result_bind : MBind result :=
  fun A B k r => match r with Ok a => k a | Raise e => Raise e end.

#[global] Instance result_fmap : FMap result :=
  fun A B f r => match r with Ok a => Ok (f a) | Raise e => Raise e end.

Lemma ok_inj {A} (a b : A) : Ok a = Ok b -> a = b.
Proof. congruence. Qed.

Definition is_ok {A} (r : result A) : bool :=
  match r with Ok _ => true | Raise _ => false end.

(** Stateful code: a state that survives an exception, as Python's does. *)
Definition M (S A : Type) : Type := S -> result A * S.

#[global] Instance M_ret {S} : MRet (M S) := fun A a s => (Ok a, s).
#[global] Instance M_bind {S} : MBind (M S) :=
  fun A B k m s =>
    match m s with
    | (Ok a, s') => k a s'
    | (Raise e, s') => (Raise e, s')
    end.

Section monad_ops.
Context {S : Type}.

Definition mget : M S S := fun s => (Ok s, s).
Definition mput (s : S) : M S unit := fun _ => (Ok tt, s).
Definition mmodify (f : S -> S) : M S unit := fun s => (Ok tt, f s).
Definition mraise {A} (e : exn) : M S A := fun s => (Raise e, s).
Definition mlift {A} (r : result A) : M S A := fun s => (r, s).

(** [for x in xs: body(x)], stopping at the first exception. *)
Fixpoint mfor {A} (xs : list A) (body : A -> M S unit) : M S unit :=
  match xs with
  | [] => mret tt
  | x :: xs => body x ≫= fun _ => mfor xs body
  end.

(** [[body(x) for x in xs]] *)
Fixpoint mmapM {A B} (body : A -> M S B) (xs : list A) : M S (list B) :=
  match xs with
  | [] => mret []
  | x :: xs => body x ≫= fun y => mmapM body xs ≫= fun ys => mret (y :: ys)
  end.

Lemma mbind_ok {A B} (m : M S A) (k : A -> M S B) s a s' :
  m s = (Ok a, s') -> (m ≫= k) s = k a s'.
Proof. intros H. unfold mbind, M_bind. by rewrite H. Qed.

Lemma mbind_raise {A B} (m : M S A) (k : A -> M S B) s e s' :
  m s = (Raise e, s') -> (m ≫= k) s = (Raise e, s').
Proof. intros H. unfold mbind, M_bind. by rewrite H. Qed.

Lemma mbind_inv_ok {A B} (m : M S A) (k : A -> M S B) s b s'' :
  (m ≫= k) s = (Ok b, s'') ->
  exists a s', m s = (Ok a, s') /\ k a s' = (Ok b, s'').
Proof.
  unfold mbind, M_bind. destruct (m s) as [[a|e] s'] eqn:E; [eauto | done].
Qed.

Lemma mbind_inv_raise {A B} (m : M S A) (k : A -> M S B) s e s'' :
  (m ≫= k) s = (Raise e, s'') -> m s = (Raise e, s'') \/ exists a s', m s = (Ok a, s') /\ k a s' = (Raise e, s'').
Proof. unfold mbind, M_bind. destruct (m s) as [[a|x] s'] eqn:E; [by eauto|]. intros [= -> ->]. by left. Qed.
End monad_ops.

(** A left fold that can raise. *)
Fixpoint foldR {A B} (f : B -> A -> result B) (acc : B) (xs : list A) : result B :=
  match xs with
  | [] => Ok acc
  | x :: xs => f acc x ≫= fun acc => foldR f acc xs
  end.

Fixpoint mapR {A B} (f : A -> result B) (xs : list A) : result (list B) :=
  match xs with
  | [] => Ok []
  | x :: xs => f x ≫= fun y => mapR f xs ≫= fun ys => Ok (y :: ys)
  end.

(** ** Generic lemmas on lists and options *)

(** Python's [a or b] on an optional value. *)
Definition or_else {A} (a b : option A) : option A :=
  match a with Some x => Some x | None => b end.

(** SQL's COALESCE(a, b). *)
Abbreviation coalesce := or_else.

(** Membership of a string in a literal set of strings. *)
Definition str_in (s : string) (l : list string) : bool :=
  existsb (String.eqb s) l.

#[global] Arguments str_in : simpl never.

Lemma str_in_spec s l : str_in s l = true <-> s ∈ l.
Proof.
  unfold str_in. rewrite existsb_exists. split.
  - intros (x & Hx & E). apply String.eqb_eq in E as ->. by apply list_elem_of_In.
  - intros H. exists s. split; [by apply list_elem_of_In | apply String.eqb_refl].
Qed.

Lemma str_in_false s l : str_in s l = false <-> s ∉ l.
Proof. rewrite <- str_in_spec. destruct (str_in s l); naive_solver. Qed.

(** ** Ordered dictionaries with text keys *)

Section assoc.
Context {A : Type}.

(** [d.get(k)] and [d[k] = v] on an ordered dictionary. *)
Fixpoint aget (k : string) (d : list (string * A)) : option A :=
  match d with
  | [] => None
  | (k', v) :: d => if String.eqb k k' then Some v else aget k d
  end.

Fixpoint aset (k : string) (v : A) (d : list (string * A)) : list (string * A) :=
  match d with
  | [] => [(k, v)]
  | (k', v') :: d => if String.eqb k k' then (k, v) :: d else (k', v') :: aset k v d
  end.

Lemma aget_aset_eq k v d : aget k (aset k v d) = Some v.
Proof.
  induction d as [|[k' v'] d IH]; cbn; [by rewrite String.eqb_refl|].
  destruct (String.eqb k k') eqn:E; cbn; [by rewrite String.eqb_refl | by rewrite E].
Qed.

Lemma aget_aset_ne k k' v d : k <> k' -> aget k (aset k' v d) = aget k d.
Proof.
  intros N. apply String.eqb_neq in N. induction d as [|[k'' v''] d IH]; cbn; [by rewrite N|].
  destruct (String.eqb k' k'') eqn:E; cbn; [apply String.eqb_eq in E as ->; by rewrite N | by rewrite IH].
Qed.

Lemma aset_same k v d : aget k d = Some v -> aset k v d = d.
Proof.
  induction d as [|[k' v'] d IH]; cbn; [done|].
  destruct (String.eqb_spec k k') as [->|N]; intros H; [by simplify_eq | by rewrite IH].
Qed.

Lemma aset_aset k v v' d : aset k v (aset k v' d) = aset k v d.
Proof.
  induction d as [|[k' x] d IH]; cbn; [by rewrite String.eqb_refl|].
  destruct (String.eqb k k') eqn:E; cbn; [by rewrite String.eqb_refl | by rewrite E, IH].
Qed.

Lemma aget_aset k k' v d : aget k (aset k' v d) = if String.eqb k k' then Some v else aget k d.
Proof.
  destruct (String.eqb_spec k k') as [->|N]; [apply aget_aset_eq | by apply aget_aset_ne].
Qed.

Lemma aget_unlisted k d v : aget k d = None -> (k, v) ∉ d.
Proof.
  induction d as [|[k' v'] d IH]; cbn; intros H I; [by inversion I|].
  destruct (String.eqb_spec k k') as [|N]; [done|]. apply elem_of_cons in I as [[= -> ->]|I]; [done | by apply IH].
Qed.

Lemma aget_elem k v d : aget k d = Some v -> (k, v) ∈ d.
Proof.
  induction d as [|[k' v'] d IH]; cbn; [done|]. destruct (String.eqb_spec k k') as [->|N]; intros H.
  - simplify_eq. left.
  - right. by apply IH.
Qed.

Lemma elem_aget k v d : NoDup (map fst d) -> (k, v) ∈ d -> aget k d = Some v.
Proof.
  induction d as [|[k' v'] d IH]; cbn; intros N I; [by inversion I|]. inversion N as [|? ? Nk N']; subst.
  apply elem_of_cons in I as [[= -> ->]|I]; [by rewrite String.eqb_refl|].
  destruct (String.eqb_spec k k') as [->|]; [|by apply IH]. exfalso. apply Nk.
  apply list_elem_of_In, in_map_iff. exists (k', v). split; [done | by apply list_elem_of_In].
Qed.

Lemma aset_keys k v d : map fst (aset k v d) = if bool_decide (k ∈ map fst d) then map fst d else (map fst d ++ [k])%list.
Proof.
  induction d as [|[k' v'] d IH]; cbn; [done|]. destruct (String.eqb_spec k k') as [->|N]; cbn.
  - by rewrite bool_decide_eq_true_2 by left.
  - rewrite IH. destruct (decide (k ∈ map fst d)) as [I|I].
    + rewrite !bool_decide_eq_true_2; [done | by right | done].
    + rewrite !bool_decide_eq_false_2; [done | | done]. intros [|]%elem_of_cons; done.
Qed.

Lemma aset_nodup k v d : NoDup (map fst d) -> NoDup (map fst (aset k v d)).
Proof.
  intros N. rewrite aset_keys. destruct (decide (k ∈ map fst d)) as [I|I].
  - by rewrite bool_decide_eq_true_2.
  - rewrite bool_decide_eq_false_2 by done. apply NoDup_app. split_and!; [done | | by apply NoDup_singleton].
    intros x Hx ->%list_elem_of_singleton. done.
Qed.

(** [d.pop(k, None)] *)
Definition apop (k : string) (d : list (string * A)) : list (string * A) :=
  List.filter (fun p => negb (String.eqb k (fst p))) d.

Lemma aget_apop k k' d : aget k (apop k' d) = if String.eqb k k' then None else aget k d.
Proof.
  unfold apop. induction d as [|[k'' v] d IH]; cbn [List.filter aget fst]; [by destruct (String.eqb k k')|].
  destruct (String.eqb_spec k' k'') as [->|N]; cbn [negb aget]; rewrite IH.
  - by destruct (String.eqb k k'').
  - destruct (String.eqb_spec k k''), (String.eqb_spec k k'); congruence.
Qed.

End assoc.

(** ** Proof automation *)

Create HintDb trader discriminated.
Create Rewrite HintDb trader.
#[export] Hint Rewrite @lookup_insert_eq @lookup_delete_eq @lookup_empty : trader.

(** Turn boolean hypotheses into propositions. *)
Ltac bprop :=
  repeat match goal with
  | H : _ && _ = true |- _ => apply andb_true_iff in H as [? ?]
  | H : _ || _ = false |- _ => apply orb_false_iff in H as [? ?]
  | H : negb _ = true |- _ => apply negb_true_iff in H
  | H : negb _ = false |- _ => apply negb_false_iff in H
  | H : (_ =? _)%Z = true |- _ => apply Z.eqb_eq in H
  | H : (_ =? _)%Z = false |- _ => apply Z.eqb_neq in H
  | H : (_ <? _)%Z = true |- _ => apply Z.ltb_lt in H
  | H : (_ <? _)%Z = false |- _ => apply Z.ltb_ge in H
  | H : (_ <=? _)%Z = true |- _ => apply Z.leb_le in H
  | H : (_ <=? _)%Z = false |- _ => apply Z.leb_gt in H
  | H : String.eqb _ _ = true |- _ => apply String.eqb_eq in H
  | H : String.eqb _ _ = false |- _ => apply String.eqb_neq in H
  | H : bool_decide _ = true |- _ => apply bool_decide_eq_true in H
  | H : bool_decide _ = false |- _ => apply bool_decide_eq_false in H
  | H : str_in _ _ = true |- _ => apply str_in_spec in H
  | H : str_in _ _ = false |- _ => apply str_in_false in H
  end.

(** Split every [match] and [if] of the goal or of a hypothesis, keeping the
    equations, and discard the branches that contradict each other. *)
Ltac split_match :=
  match goal with
  | |- context [match ?x with _ => _ end] =>
      lazymatch x with
      | context [match _ with _ => _ end] => fail
      | _ => destruct x eqn:?
      end
  end.

Ltac split_match_in H :=
  match type of H with
  | context [match ?x with _ => _ end] =>
      lazymatch x with
      | context [match _ with _ => _ end] => fail
      | _ => destruct x eqn:?
      end
  end.

Ltac branches := repeat (split_match; simplify_eq/=; try done).
Ltac branches_in H := repeat (split_match_in H; simplify_eq/=; try done).

(** Case analysis on the membership of a value in a literal list. *)
Ltac elim_in H :=
  rewrite ?elem_of_cons in H; destruct_or! H; try (by inversion H); try subst.

(** [sorted(l, key=...)] and ORDER BY, for a total preorder given as a test. *)
Definition sort_by {A} (le : A -> A -> bool) (l : list A) : list A :=
  @merge_sort A (fun a b => le a b = true) (fun a b => bool_eq_dec (le a b) true) l.

Lemma sort_by_perm {A} (le : A -> A -> bool) (l : list A) : sort_by le l ≡ₚ l.
Proof. apply merge_sort_Permutation. Qed.

(** The first of the sorted list is least. *)
Lemma sort_by_hd {A} (le : A -> A -> bool) l x :
  (forall a b, le a b = true \/ le b a = true) -> Transitive (fun a b => le a b = true) ->
  hd_error (sort_by le l) = Some x -> x ∈ l /\ forall y, y ∈ l -> le x y = true.
Proof.
  intros T Tr H. assert (S : StronglySorted (fun a b => le a b = true) (sort_by le l))
    by (unfold sort_by; apply StronglySorted_merge_sort; [exact Tr | intros a b; destruct (T a b); auto]).
  pose proof (sort_by_perm le l) as P. destruct (sort_by le l) as [|z zs] eqn:E; [discriminate H|]. injection H as ->.
  split; [rewrite <- P; left|]. intros y I. rewrite <- P in I. apply elem_of_cons in I as [->|I].
  - destruct (T x x); auto.
  - inversion S as [|? ? _ F]; subst. rewrite List.Forall_forall in F. apply F. by apply list_elem_of_In.
Qed.
