(* ===== verification/Decimal.v ===== *)
(** * Decimal: Python's [decimal] arithmetic

    The arithmetic of [decimal.Decimal] in the default context, as the code
    uses it: a finite decimal is an integer coefficient and an exponent, every
    arithmetic operation rounds its exact result to 28 significant digits,
    half to even, and [quantize] raises when the result does not fit.  The
    sign of a zero and the bounds of the exponent (+-999999) are not
    represented.  The value of a decimal is a rational, [dval]; numeric
    equality of decimals, coarser than equality of their representations, is
    the setoid equality of the type. *)

From Stdlib Require Import ZArith Lia QArith Qabs Qpower Qminmax Lqa.
From S2P Require Import Prelude.
Open Scope Z_scope.

Record dec := Dec { coef : Z; dexp : Z }.

#[global] Instance dec_eq_dec : EqDecision dec.
Proof. solve_decision. Defined.

(** The precision of the default context. *)
Definition prec : Z := 28.

Definition dec_of_int (n : Z) : dec := Dec n 0.
Definition dzero : dec := Dec 0 0.
Definition dec_one : dec := Dec 1 0.

(** ** Rounding *)

Inductive rounding := ROUND_HALF_EVEN | ROUND_HALF_UP | ROUND_FLOOR | ROUND_CEILING | ROUND_DOWN.

(** [c / m] rounded to an integer, for a positive [m]. *)
Definition rdiv (mode : rounding) (c m : Z) : Z :=
  match mode with
  | ROUND_FLOOR => c / m
  | ROUND_CEILING => - ((- c) / m)
  | ROUND_DOWN => Z.quot c m
  | ROUND_HALF_UP => Z.sgn c * ((2 * Z.abs c + m) / (2 * m))
  | ROUND_HALF_EVEN =>
      let q := c / m in
      let r := c mod m in
      match 2 * r ?= m with
      | Lt => q
      | Gt => q + 1
      | Eq => if Z.even q then q else q + 1
      end
  end.

(** The number of decimal digits of [|n|]; 1 for zero, as [len(str(0))]. *)
Fixpoint ndig (fuel : nat) (n : Z) : Z :=
  match fuel with
  | O => 1
  | S fuel => if n <? 10 then 1 else 1 + ndig fuel (n / 10)
  end.

Definition ndigits (n : Z) : Z := ndig (S (Z.to_nat (Z.log2 (Z.abs n)))) (Z.abs n).

(** [Decimal._fix]: round to the precision of the context. *)
Definition fix28 (d : dec) : dec :=
  let nd := ndigits (coef d) in
  if nd <=? prec then d
  else
    let k := nd - prec in
    let q := rdiv ROUND_HALF_EVEN (coef d) (10 ^ k) in
    if prec <? ndigits q then Dec (Z.quot q 10) (dexp d + k + 1)
    else Dec q (dexp d + k).

(** ** Operations *)

Definition shift_to (e : Z) (d : dec) : Z := coef d * 10 ^ (dexp d - e).

Definition dadd (a b : dec) : dec :=
  let e := Z.min (dexp a) (dexp b) in
  fix28 (Dec (shift_to e a + shift_to e b) e).

Definition dopp (a : dec) : dec := fix28 (Dec (- coef a) (dexp a)).

Definition dsub (a b : dec) : dec :=
  let e := Z.min (dexp a) (dexp b) in
  fix28 (Dec (shift_to e a - shift_to e b) e).

Definition dmul (a b : dec) : dec := fix28 (Dec (coef a * coef b) (dexp a + dexp b)).

Definition dabs (a : dec) : dec := fix28 (Dec (Z.abs (coef a)) (dexp a)).

Fixpoint strip_zeros (fuel : nat) (c e ideal : Z) : dec :=
  match fuel with
  | O => Dec c e
  | S fuel =>
      if (e <? ideal) && (c mod 10 =? 0) then strip_zeros fuel (c / 10) (e + 1) ideal
      else Dec c e
  end.

(** Division of the coefficients' absolute values, with a sticky digit when
    the quotient is inexact and with the exponent brought back towards the
    ideal one when it is exact. *)
Definition div_shift (a b : dec) : Z := ndigits (coef b) - ndigits (coef a) + prec + 1.
Definition div_num (a b : dec) : Z :=
  if 0 <=? div_shift a b then Z.abs (coef a) * 10 ^ div_shift a b else Z.abs (coef a).
Definition div_den (a b : dec) : Z :=
  if 0 <=? div_shift a b then Z.abs (coef b) else Z.abs (coef b) * 10 ^ (- div_shift a b).

Definition div_abs (a b : dec) : dec :=
  let e := dexp a - dexp b - div_shift a b in
  let q := div_num a b / div_den a b in
  let r := div_num a b mod div_den a b in
  if r =? 0 then strip_zeros (Z.to_nat (dexp a - dexp b - e)) q e (dexp a - dexp b)
  else Dec (if q mod 5 =? 0 then q + 1 else q) e.

Definition ddiv (a b : dec) : result dec :=
  if coef b =? 0 then
    if coef a =? 0 then Raise InvalidOperation else Raise DivisionByZero
  else if coef a =? 0 then Ok (Dec 0 (dexp a - dexp b))
  else
    let q := div_abs a b in
    Ok (fix28 (Dec (Z.sgn (coef a) * Z.sgn (coef b) * coef q) (dexp q))).

(** [d.normalize()]: rounded, without trailing zeros; zero is [0]. *)
Definition dnormalize (d : dec) : dec :=
  let d := fix28 d in
  if coef d =? 0 then dzero
  else strip_zeros (Z.to_nat (ndigits (coef d))) (coef d) (dexp d) (dexp d + ndigits (coef d)).

(** [a % b]: the remainder of the truncated division. *)
Definition drem (a b : dec) : result dec :=
  if coef b =? 0 then Raise InvalidOperation
  else
    let e := Z.min (dexp a) (dexp b) in
    let x := shift_to e a in
    let y := shift_to e b in
    if 10 ^ prec <=? Z.abs (Z.quot x y) then Raise InvalidOperation
    else Ok (fix28 (Dec (Z.rem x y) e)).

Definition rescale (mode : rounding) (d : dec) (e : Z) : Z :=
  if e <=? dexp d then coef d * 10 ^ (dexp d - e)
  else rdiv mode (coef d) (10 ^ (e - dexp d)).

Definition quantize (mode : rounding) (d q : dec) : result dec :=
  let c := rescale mode d (dexp q) in
  if prec <? ndigits c then Raise InvalidOperation else Ok (Dec c (dexp q)).

Definition to_integral (mode : rounding) (d : dec) : dec :=
  if 0 <=? dexp d then d else Dec (rescale mode d 0) 0.

(** [int(d)] truncates towards zero. *)
Definition dec_to_int (d : dec) : Z := rescale ROUND_DOWN d 0.

(** ** Comparison *)

Definition dcompare (a b : dec) : comparison :=
  let e := Z.min (dexp a) (dexp b) in
  shift_to e a ?= shift_to e b.

Definition dltb (a b : dec) : bool := match dcompare a b with Lt => true | _ => false end.
Definition dleb (a b : dec) : bool := match dcompare a b with Gt => false | _ => true end.
Definition deqb (a b : dec) : bool := match dcompare a b with Eq => true | _ => false end.

(** The builtins [max] and [min] keep the first of two equal arguments. *)
Definition dmax (a b : dec) : dec := if dltb a b then b else a.
Definition dmin (a b : dec) : dec := if dltb b a then b else a.

(** [sum(xs)], from the integer 0. *)
Definition dsum (xs : list dec) : dec := fold_left dadd xs dzero.

(** [not d] *)
Definition dis_zero (d : dec) : bool := coef d =? 0.

Declare Scope dec_scope.
Delimit Scope dec_scope with dec.
Bind Scope dec_scope with dec.
Infix "+" := dadd : dec_scope.
Infix "-" := dsub : dec_scope.
Infix "*" := dmul : dec_scope.
Infix "<=?" := dleb : dec_scope.
Infix "<?" := dltb : dec_scope.
Infix "=?" := deqb : dec_scope.

(** ** Values *)

Definition pow10 (e : Z) : Q := Qpower (10 # 1) e.
Definition dval (d : dec) : Q := (inject_Z (coef d) * pow10 (dexp d))%Q.

(** Numeric equality: [Decimal("1.0") == Decimal("1.00")]. *)
#[global] Instance dec_equiv : Equiv dec := fun a b => (dval a == dval b)%Q.

#[global] Instance dec_equivalence : Equivalence (≡@{dec}).
Proof.
  split; unfold equiv, dec_equiv.
  - intros a. reflexivity.
  - intros a b H. by symmetry.
  - intros a b c H1 H2. by etransitivity.
Qed.

#[global] Instance dval_proper : Proper ((≡) ==> Qeq) dval.
Proof. by intros a b H. Qed.

Lemma pow10_pos e : (0 < pow10 e)%Q.
Proof. apply Qpower_0_lt. reflexivity. Qed.

Lemma pow10_add a b : (pow10 (a + b) == pow10 a * pow10 b)%Q.
Proof. unfold pow10. apply Qpower_plus. discriminate. Qed.

Lemma pow10_Z n : 0 <= n -> (inject_Z (10 ^ n) == pow10 n)%Q.
Proof. intros H. unfold pow10. by rewrite Zpower_Qpower. Qed.

Lemma shift_to_val e d :
  e <= dexp d -> (inject_Z (shift_to e d) * pow10 e == dval d)%Q.
Proof.
  intros H. unfold shift_to, dval. rewrite inject_Z_mult, pow10_Z by lia.
  rewrite <- Qmult_assoc, <- pow10_add. by replace (dexp d - e + e) with (dexp d) by lia.
Qed.

Lemma Qcompare_scale x y k : (0 < k)%Q -> (x * k ?= y * k)%Q = (x ?= y)%Q.
Proof.
  intros H. destruct (Qcompare_spec x y) as [E|E|E].
  - apply Qeq_alt. by rewrite E.
  - apply Qlt_alt. by apply Qmult_lt_compat_r.
  - apply Qgt_alt. by apply Qmult_lt_compat_r.
Qed.

Lemma dcompare_val a b : dcompare a b = (dval a ?= dval b)%Q.
Proof.
  unfold dcompare. set (e := Z.min (dexp a) (dexp b)).
  rewrite <- (shift_to_val e a), <- (shift_to_val e b) by lia.
  rewrite Qcompare_scale by apply pow10_pos.
  unfold Qcompare, inject_Z. simpl. by rewrite !Z.mul_1_r.
Qed.

Lemma dltb_lt a b : dltb a b = true <-> (dval a < dval b)%Q.
Proof. unfold dltb. rewrite dcompare_val, Qlt_alt. by destruct (dval a ?= dval b)%Q. Qed.

Lemma dltb_ge a b : dltb a b = false <-> (dval b <= dval a)%Q.
Proof.
  rewrite <- not_true_iff_false, dltb_lt. split; [apply Qnot_lt_le | apply Qle_not_lt].
Qed.

Lemma dleb_le a b : dleb a b = true <-> (dval a <= dval b)%Q.
Proof.
  unfold dleb. rewrite dcompare_val, Qle_alt. destruct (dval a ?= dval b)%Q; split; congruence.
Qed.

Lemma dleb_gt a b : dleb a b = false <-> (dval b < dval a)%Q.
Proof. unfold dleb. rewrite dcompare_val, Qgt_alt. by destruct (dval a ?= dval b)%Q. Qed.

Lemma deqb_eq a b : deqb a b = true <-> a ≡ b.
Proof.
  unfold deqb, equiv, dec_equiv. rewrite dcompare_val, Qeq_alt.
  by destruct (dval a ?= dval b)%Q.
Qed.

Lemma deqb_neq a b : deqb a b = false <-> ~ (dval a == dval b)%Q.
Proof.
  rewrite <- not_true_iff_false. by rewrite deqb_eq.
Qed.

#[global] Instance dltb_proper : Proper ((≡) ==> (≡) ==> eq) dltb.
Proof. intros a a' Ha b b' Hb. unfold dltb. by rewrite !dcompare_val, Ha, Hb. Qed.
#[global] Instance dleb_proper : Proper ((≡) ==> (≡) ==> eq) dleb.
Proof. intros a a' Ha b b' Hb. unfold dleb. by rewrite !dcompare_val, Ha, Hb. Qed.
#[global] Instance deqb_proper : Proper ((≡) ==> (≡) ==> eq) deqb.
Proof. intros a a' Ha b b' Hb. unfold deqb. by rewrite !dcompare_val, Ha, Hb. Qed.

Lemma dmax_val a b : (dval (dmax a b) == Qminmax.Qmax (dval a) (dval b))%Q.
Proof.
  unfold dmax. destruct (dltb a b) eqn:E.
  - apply dltb_lt in E. symmetry. apply Qminmax.Q.max_r. lra.
  - apply dltb_ge in E. symmetry. by apply Qminmax.Q.max_l.
Qed.

Lemma dmin_val a b : (dval (dmin a b) == Qminmax.Qmin (dval a) (dval b))%Q.
Proof.
  unfold dmin. destruct (dltb b a) eqn:E.
  - apply dltb_lt in E. symmetry. apply Qminmax.Q.min_r. lra.
  - apply dltb_ge in E. symmetry. by apply Qminmax.Q.min_l.
Qed.

Lemma dmax_ub a b : (dval a <= dval (dmax a b))%Q /\ (dval b <= dval (dmax a b))%Q.
Proof. unfold dmax. destruct (dltb a b) eqn:E; [apply dltb_lt in E | apply dltb_ge in E]; lra. Qed.

Lemma dmin_lb a b : (dval (dmin a b) <= dval a)%Q /\ (dval (dmin a b) <= dval b)%Q.
Proof. unfold dmin. destruct (dltb b a) eqn:E; [apply dltb_lt in E | apply dltb_ge in E]; lra. Qed.

Lemma dmin_glb x a b : (x <= dval a)%Q -> (x <= dval b)%Q -> (x <= dval (dmin a b))%Q.
Proof. unfold dmin. by destruct (dltb b a). Qed.

(** ** Digits *)

Lemma ndig_pos fuel n : 1 <= ndig fuel n.
Proof. revert n. induction fuel; intros n; simpl; [lia|]. case_match; [lia|]. specialize (IHfuel (n / 10)). lia. Qed.

Lemma ndig_spec fuel n :
  0 < n -> n < 10 ^ Z.of_nat fuel -> 10 ^ (ndig fuel n - 1) <= n < 10 ^ ndig fuel n.
Proof.
  revert n. induction fuel as [|fuel IH]; intros n Hn Hf; [simpl in *; lia|].
  cbn [ndig]. destruct (n <? 10) eqn:E; bprop; [simpl; lia|].
  rewrite Nat2Z.inj_succ, Z.pow_succ_r in Hf by lia.
  assert (Hq : 0 < n / 10) by (apply Z.div_str_pos; lia).
  destruct (IH (n / 10)) as [L U]; [lia | apply Z.div_lt_upper_bound; lia |].
  pose proof (ndig_pos fuel (n / 10)) as P.
  replace (1 + ndig fuel (n / 10)) with (Z.succ (ndig fuel (n / 10))) by lia.
  rewrite (Z.pow_succ_r _ (ndig _ _)) by lia.
  replace (Z.succ (ndig fuel (n / 10)) - 1) with (Z.succ (ndig fuel (n / 10) - 1)) by lia.
  rewrite Z.pow_succ_r by lia.
  pose proof (Z.mul_div_le n 10). pose proof (Z.mod_pos_bound n 10).
  pose proof (Z.div_mod n 10). lia.
Qed.

Lemma ndigits_pos n : 1 <= ndigits n.
Proof. apply ndig_pos. Qed.

Lemma ndigits_spec n :
  n <> 0 -> 10 ^ (ndigits n - 1) <= Z.abs n < 10 ^ ndigits n.
Proof.
  intros H. apply ndig_spec; [lia|].
  pose proof (Z.log2_spec (Z.abs n) ltac:(lia)) as [_ U].
  pose proof (Z.log2_nonneg (Z.abs n)) as L.
  rewrite Nat2Z.inj_succ, Z2Nat.id by lia.
  eapply Z.lt_le_trans; [exact U|]. apply Z.pow_le_mono_l. lia.
Qed.

Lemma ndigits_le n k : Z.abs n < 10 ^ k -> 1 <= k -> ndigits n <= k.
Proof.
  intros H K. destruct (decide (n = 0)) as [->|N]; [by change (ndigits 0) with 1|].
  pose proof (ndigits_spec n N) as [L _].
  destruct (Z_le_gt_dec (ndigits n) k); [done|].
  assert (10 ^ k <= 10 ^ (ndigits n - 1)) by (apply Z.pow_le_mono_r; lia). lia.
Qed.

(** ** Rounding error *)

Lemma rdiv_half_even_err c m :
  0 < m -> 2 * Z.abs (rdiv ROUND_HALF_EVEN c m * m - c) <= m.
Proof.
  intros Hm. simpl. pose proof (Z.div_mod c m ltac:(lia)) as E.
  pose proof (Z.mod_pos_bound c m Hm) as B.
  destruct (Z.compare_spec (2 * (c mod m)) m); [case_match|..]; nia.
Qed.

Lemma rdiv_floor_spec c m :
  0 < m -> rdiv ROUND_FLOOR c m * m <= c < (rdiv ROUND_FLOOR c m + 1) * m.
Proof.
  intros Hm. simpl. pose proof (Z.div_mod c m ltac:(lia)).
  pose proof (Z.mod_pos_bound c m Hm). nia.
Qed.

Lemma rdiv_ceiling_spec c m :
  0 < m -> (rdiv ROUND_CEILING c m - 1) * m < c <= rdiv ROUND_CEILING c m * m.
Proof.
  intros Hm. simpl. pose proof (Z.div_mod (- c) m ltac:(lia)).
  pose proof (Z.mod_pos_bound (- c) m Hm). nia.
Qed.

Lemma rdiv_half_up_err c m :
  0 < m -> 2 * Z.abs (rdiv ROUND_HALF_UP c m * m - c) <= m.
Proof.
  intros Hm. simpl. set (q := (2 * Z.abs c + m) / (2 * m)).
  pose proof (Z.div_mod (2 * Z.abs c + m) (2 * m) ltac:(lia)) as E.
  pose proof (Z.mod_pos_bound (2 * Z.abs c + m) (2 * m) ltac:(lia)). fold q in E.
  destruct (Z.sgn_spec c) as [[? ->]|[[? ->]|[? ->]]]; nia.
Qed.

Lemma rdiv_nonneg mode c m : 0 < m -> 0 <= c -> 0 <= rdiv mode c m.
Proof.
  intros Hm Hc. pose proof (Z.div_pos c m Hc Hm). destruct mode; simpl.
  - repeat case_match; lia.
  - pose proof (Z.div_pos (2 * Z.abs c + m) (2 * m) ltac:(lia) ltac:(lia)).
    apply Z.mul_nonneg_nonneg; lia.
  - done.
  - pose proof (rdiv_ceiling_spec c m Hm) as S. simpl in S. nia.
  - apply Z.quot_pos; lia.
Qed.

(** What [fix28] leaves in the coefficient: a multiple of a power of ten
    within half a unit of the 28th digit, of the same sign. *)
Lemma fix28_repr d :
  exists n, (dval (fix28 d) == inject_Z n * pow10 (dexp d))%Q
            /\ 2 * 10 ^ 27 * Z.abs (n - coef d) <= Z.abs (coef d).
Proof.
  destruct d as [c e]. unfold fix28. simpl coef. simpl dexp.
  destruct (ndigits c <=? prec) eqn:E; bprop.
  { exists c. split; [done | lia]. }
  unfold prec in *. set (k := ndigits c - 28). set (q := rdiv ROUND_HALF_EVEN c (10 ^ k)).
  assert (Hk : 0 < 10 ^ k) by (apply Z.pow_pos_nonneg; lia).
  pose proof (rdiv_half_even_err c (10 ^ k) Hk) as Err. fold q in Err.
  assert (N : c <> 0) by (intros ->; by compute in E).
  pose proof (ndigits_spec c N) as [L U].
  replace (ndigits c - 1) with (27 + k) in L by lia.
  replace (ndigits c) with (28 + k) in U by lia.
  rewrite Z.pow_add_r in L, U by lia.
  exists (q * 10 ^ k). split; [|nia].
  rewrite inject_Z_mult, pow10_Z, <- Qmult_assoc, <- pow10_add by lia.
  destruct (28 <? ndigits q) eqn:E2; bprop; unfold dval; simpl coef; simpl dexp;
    [|by replace (e + k) with (k + e) by lia].
  assert (Hq : q <> 0) by (intros ->; by compute in E2).
  pose proof (ndigits_spec q Hq) as [L2 _].
  assert (10 ^ 28 <= 10 ^ (ndigits q - 1)) by (apply Z.pow_le_mono_r; lia).
  assert (Z.abs q = 10 ^ 28) by nia.
  assert (Z.quot q 10 * 10 = q) as Hquot.
  { destruct (Z.abs_eq_or_opp q) as [Ha|Ha]; rewrite Ha in *.
    - by rewrite H0.
    - replace q with (- 10 ^ 28) by lia. reflexivity. }
  rewrite <- Hquot at 2. rewrite inject_Z_mult.
  replace (e + k + 1) with (1 + (k + e)) by lia. rewrite (pow10_add 1).
  change (pow10 1) with (10 # 1). change (inject_Z 10) with (10 # 1). ring.
Qed.

(** The relative error of one rounding, with room for the sticky digit of
    the division. *)
Definition eps : Q := 1 # (10 ^ 27).

Definition approx (x y : Q) : Prop := (Qabs (x - y) <= eps * Qabs y)%Q.

#[global] Instance approx_proper : Proper (Qeq ==> Qeq ==> iff) approx.
Proof. intros x x' Hx y y' Hy. unfold approx. by rewrite Hx, Hy. Qed.

Lemma Qabs_inject z : (Qabs (inject_Z z) == inject_Z (Z.abs z))%Q.
Proof. reflexivity. Qed.

(** An integer bound on coefficients is a relative bound on values. *)
Lemma scaled_err n c e (K : positive) :
  Zpos K * Z.abs (n - c) <= Z.abs c ->
  (Qabs (inject_Z n * pow10 e - inject_Z c * pow10 e) <= (1 # K) * Qabs (inject_Z c * pow10 e))%Q.
Proof.
  intros H. pose proof (pow10_pos e) as P.
  setoid_replace (inject_Z n * pow10 e - inject_Z c * pow10 e)%Q
    with (inject_Z (n - c) * pow10 e)%Q using relation Qeq
    by (unfold Zminus; rewrite inject_Z_plus, inject_Z_opp; ring).
  rewrite !Qabs_Qmult, !Qabs_inject, (Qabs_pos (pow10 e)) by lra.
  rewrite Qmult_assoc. apply Qmult_le_compat_r; [|lra].
  unfold Qle, Qmult, inject_Z. simpl. lia.
Qed.

Lemma fix28_err d : (Qabs (dval (fix28 d) - dval d) <= (1 # (2 * 10 ^ 27)) * Qabs (dval d))%Q.
Proof.
  destruct (fix28_repr d) as (n & -> & H). unfold dval. by apply scaled_err.
Qed.

Lemma fix28_approx d : approx (dval (fix28 d)) (dval d).
Proof.
  unfold approx. eapply Qle_trans; [apply fix28_err|].
  apply Qmult_le_compat_r; [by compute | apply Qabs_nonneg].
Qed.

Lemma approx_bounds x y :
  approx x y -> (0 <= y)%Q -> ((1 - eps) * y <= x <= (1 + eps) * y)%Q.
Proof.
  unfold approx. intros H Hy. rewrite (Qabs_pos y Hy) in H.
  apply Qabs_Qle_condition in H. lra.
Qed.

Lemma approx_le x y : approx x y -> (0 <= y)%Q -> (x <= (1 + eps) * y)%Q.
Proof. intros H Hy. by apply approx_bounds. Qed.

Lemma eps_small : (0 < eps)%Q /\ (eps < 1 # 1000)%Q.
Proof. by split; compute. Qed.

Lemma approx_ge x y : approx x y -> (0 <= y)%Q -> (y <= (1 + 2 * eps) * x)%Q.
Proof.
  intros A Y. apply approx_bounds in A as [A _]; [|done]. pose proof eps_small as [E1 E2].
  assert (0 <= eps * y)%Q by (apply Qmult_le_0_compat; lra).
  assert ((1 + 2 * eps) * ((1 - eps) * y) <= (1 + 2 * eps) * x)%Q by (apply Qmult_le_l; lra).
  assert (eps * (eps * y) <= (1 # 1000) * (eps * y))%Q by (apply Qmult_le_compat_r; lra).
  eapply Qle_trans; [|exact H0]. setoid_replace ((1 + 2 * eps) * ((1 - eps) * y))%Q
    with (y + eps * y - 2 * (eps * (eps * y)))%Q using relation Qeq by ring. lra.
Qed.

(** Rounding keeps the sign, and zero. *)
Lemma fix28_sgn d : Qcompare (dval (fix28 d)) 0 = Z.compare (coef d) 0.
Proof.
  destruct (fix28_repr d) as (n & -> & H).
  setoid_replace 0%Q with (0 * pow10 (dexp d))%Q using relation Qeq by ring.
  rewrite Qcompare_scale by apply pow10_pos.
  unfold Qcompare. simpl Qnum. simpl Qden. rewrite !Z.mul_1_r.
  change (2 * 10 ^ 27) with 2000000000000000000000000000 in H.
  destruct (Z.compare_spec (coef d) 0), (Z.compare_spec n 0); try done; lia.
Qed.

Lemma dval_sgn d : Qcompare (dval d) 0 = Z.compare (coef d) 0.
Proof.
  unfold dval. setoid_replace 0%Q with (0 * pow10 (dexp d))%Q using relation Qeq by ring.
  rewrite Qcompare_scale by apply pow10_pos.
  unfold Qcompare. simpl. by rewrite Z.mul_1_r.
Qed.

(** Linear arithmetic whose hypotheses may be over Z or over Q. *)
Ltac qz_arith := first [lia | lra | exfalso; lia | exfalso; lra].

Lemma dval_nonneg d : (0 <= dval d)%Q <-> 0 <= coef d.
Proof.
  pose proof (dval_sgn d) as S. destruct (Z.compare_spec (coef d) 0) as [C|C|C].
  - apply Qeq_alt in S. split; intros; qz_arith.
  - apply Qlt_alt in S. split; intros; qz_arith.
  - apply Qgt_alt in S. split; intros; qz_arith.
Qed.

Lemma dval_pos d : (0 < dval d)%Q <-> 0 < coef d.
Proof.
  pose proof (dval_sgn d) as S. destruct (Z.compare_spec (coef d) 0) as [C|C|C].
  - apply Qeq_alt in S. split; intros; qz_arith.
  - apply Qlt_alt in S. split; intros; qz_arith.
  - apply Qgt_alt in S. split; intros; qz_arith.
Qed.

Lemma dval_zero d : (dval d == 0)%Q <-> coef d = 0.
Proof. rewrite Qeq_alt, dval_sgn. by rewrite Z.compare_eq_iff. Qed.

Lemma fix28_nonneg d : (0 <= dval d)%Q -> (0 <= dval (fix28 d))%Q.
Proof.
  rewrite dval_nonneg. intros H. pose proof (fix28_sgn d) as S.
  destruct (Z.compare_spec (coef d) 0); [apply Qeq_alt in S | lia | apply Qgt_alt in S]; lra.
Qed.

Lemma fix28_pos d : (0 < dval d)%Q -> (0 < dval (fix28 d))%Q.
Proof.
  rewrite dval_pos. intros H. pose proof (fix28_sgn d) as S.
  destruct (Z.compare_spec (coef d) 0); [lia.. | apply Qgt_alt in S]; lra.
Qed.

(** A result that fits the precision is exact. *)
Definition fits (d : dec) : Prop := ndigits (coef d) <= prec.

Lemma fix28_fits d : fits d -> fix28 d = d.
Proof. unfold fits, fix28. intros H. by apply Z.leb_le in H as ->. Qed.

(** ** The operations against the rationals *)

Lemma add_exact a b :
  let e := Z.min (dexp a) (dexp b) in
  (dval (Dec (shift_to e a + shift_to e b) e) == dval a + dval b)%Q.
Proof.
  intros e. unfold dval at 1. simpl.
  rewrite inject_Z_plus, Qmult_plus_distr_l, !shift_to_val by lia. reflexivity.
Qed.

Lemma sub_exact a b :
  let e := Z.min (dexp a) (dexp b) in
  (dval (Dec (shift_to e a - shift_to e b) e) == dval a - dval b)%Q.
Proof.
  intros e. unfold dval at 1. simpl. unfold Zminus.
  rewrite inject_Z_plus, inject_Z_opp, Qmult_plus_distr_l.
  setoid_replace (- inject_Z (shift_to e b) * pow10 e)%Q
    with (- (inject_Z (shift_to e b) * pow10 e))%Q using relation Qeq by ring.
  rewrite !shift_to_val by lia. reflexivity.
Qed.

Lemma mul_exact a b :
  (dval (Dec (coef a * coef b) (dexp a + dexp b)) == dval a * dval b)%Q.
Proof. unfold dval. simpl. rewrite inject_Z_mult, pow10_add. ring. Qed.

Lemma opp_exact a : (dval (Dec (- coef a) (dexp a)) == - dval a)%Q.
Proof. unfold dval. simpl. rewrite inject_Z_opp. ring. Qed.

Lemma abs_exact a : (dval (Dec (Z.abs (coef a)) (dexp a)) == Qabs (dval a))%Q.
Proof.
  unfold dval. cbn [coef dexp]. rewrite Qabs_Qmult, Qabs_inject.
  pose proof (pow10_pos (dexp a)). by rewrite (Qabs_pos (pow10 _)) by lra.
Qed.

Lemma dadd_approx a b : approx (dval (a + b)%dec) (dval a + dval b).
Proof. unfold dadd. rewrite <- add_exact. apply fix28_approx. Qed.
Lemma dsub_approx a b : approx (dval (a - b)%dec) (dval a - dval b).
Proof. unfold dsub. rewrite <- sub_exact. apply fix28_approx. Qed.
Lemma dmul_approx a b : approx (dval (a * b)%dec) (dval a * dval b).
Proof. unfold dmul. rewrite <- mul_exact. apply fix28_approx. Qed.
Lemma dopp_approx a : approx (dval (dopp a)) (- dval a).
Proof. unfold dopp. rewrite <- opp_exact. apply fix28_approx. Qed.
Lemma dabs_approx a : approx (dval (dabs a)) (Qabs (dval a)).
Proof. unfold dabs. rewrite <- abs_exact. apply fix28_approx. Qed.

Lemma dadd_nonneg a b : (0 <= dval a -> 0 <= dval b -> 0 <= dval (a + b)%dec)%Q.
Proof. intros. apply fix28_nonneg. rewrite add_exact. lra. Qed.
Lemma dmul_nonneg a b : (0 <= dval a -> 0 <= dval b -> 0 <= dval (a * b)%dec)%Q.
Proof. intros. apply fix28_nonneg. rewrite mul_exact. by apply Qmult_le_0_compat. Qed.
Lemma dmul_pos a b : (0 < dval a -> 0 < dval b -> 0 < dval (a * b)%dec)%Q.
Proof. intros. apply fix28_pos. rewrite mul_exact. by apply Qmult_lt_0_compat. Qed.
Lemma dabs_nonneg a : (0 <= dval (dabs a))%Q.
Proof. apply fix28_nonneg. rewrite abs_exact. apply Qabs_nonneg. Qed.
Lemma dabs_pos a : (~ dval a == 0)%Q -> (0 < dval (dabs a))%Q.
Proof.
  intros H. apply fix28_pos. rewrite abs_exact. rewrite dval_zero in H.
  destruct (Qlt_le_dec 0 (Qabs (dval a))) as [L|L]; [done|].
  apply Qle_antisym in L; [|apply Qabs_nonneg]. rewrite <- abs_exact in L.
  symmetry in L. apply dval_zero in L. simpl in L. lia.
Qed.
Lemma dsub_sign_nonneg a b : (dval b <= dval a -> 0 <= dval (a - b)%dec)%Q.
Proof. intros. apply fix28_nonneg. rewrite sub_exact. lra. Qed.
Lemma dsub_pos a b : (dval b < dval a -> 0 < dval (a - b)%dec)%Q.
Proof. intros. apply fix28_pos. rewrite sub_exact. lra. Qed.
Lemma dsub_zero a b : (dval a == dval b -> dval (a - b)%dec == 0)%Q.
Proof.
  intros H. assert (E := sub_exact a b). simpl in E. rewrite H in E.
  unfold dsub. apply Qeq_alt. rewrite fix28_sgn, <- dval_sgn. apply Qeq_alt. rewrite E. ring.
Qed.

(** ** Division *)

Lemma strip_zeros_val fuel c e ideal : (dval (strip_zeros fuel c e ideal) == dval (Dec c e))%Q.
Proof.
  revert c e. induction fuel as [|fuel IH]; intros c e; simpl; [done|].
  case_match eqn:E; [|done]. bprop. rewrite IH. unfold dval. simpl.
  pose proof (Z.div_mod c 10 ltac:(lia)) as D.
  rewrite D at 2. rewrite H0, Z.add_0_r, Z.mul_comm, inject_Z_mult, Z.add_comm, pow10_add.
  change (pow10 1) with (10 # 1). change (inject_Z 10) with (10 # 1). ring.
Qed.

Lemma strip_zeros_sgn fuel c e ideal : 0 < c -> 0 < coef (strip_zeros fuel c e ideal).
Proof.
  revert c e. induction fuel as [|fuel IH]; intros c e H; simpl; [done|].
  case_match eqn:E; [|done]. bprop. apply IH. pose proof (Z.div_mod c 10 ltac:(lia)). lia.
Qed.

Section division.
Variables (a b : dec).
Hypothesis (Ha : coef a <> 0) (Hb : coef b <> 0).

Lemma div_den_pos : 0 < div_den a b.
Proof.
  unfold div_den. case_match; [lia|]. apply Z.mul_pos_pos; [lia|].
  apply Z.pow_pos_nonneg; bprop; lia.
Qed.

(** The quotient has at least 29 digits. *)
Lemma div_quot_large : 10 ^ 28 * div_den a b <= div_num a b.
Proof.
  pose proof (ndigits_spec _ Ha) as [La Ua]. pose proof (ndigits_spec _ Hb) as [Lb Ub].
  pose proof (ndigits_pos (coef a)) as Pa. pose proof (ndigits_pos (coef b)) as Pb.
  unfold div_num, div_den. destruct (0 <=? div_shift a b) eqn:E; bprop; unfold div_shift, prec in *.
  - etransitivity; [apply Z.mul_le_mono_nonneg_l; [lia | apply Z.lt_le_incl, Ub]|].
    rewrite <- Z.pow_add_r by lia.
    replace (28 + ndigits (coef b))
      with (ndigits (coef a) - 1 + (ndigits (coef b) - ndigits (coef a) + 28 + 1)) by lia.
    rewrite Z.pow_add_r by lia. apply Z.mul_le_mono_nonneg_r; [apply Z.pow_nonneg; lia | done].
  - etransitivity; [|exact La].
    replace (ndigits (coef a) - 1)
      with (28 + (ndigits (coef b) + - (ndigits (coef b) - ndigits (coef a) + 28 + 1))) by lia.
    rewrite !Z.pow_add_r by lia. apply Z.mul_le_mono_nonneg_l; [lia|].
    apply Z.mul_le_mono_nonneg_r; [apply Z.pow_nonneg; lia | lia].
Qed.

Lemma pow10_nz e : ~ (pow10 e == 0)%Q.
Proof. pose proof (pow10_pos e). intros H0. rewrite H0 in H. lra. Qed.

Lemma inject_Z_nz z : z <> 0 -> ~ (inject_Z z == 0)%Q.
Proof. intros H E. apply H. unfold Qeq in E. simpl in E. lia. Qed.

(** Numerator and denominator have the value of the operands. *)
Lemma div_ratio :
  (Qabs (dval a) / Qabs (dval b)
     == inject_Z (div_num a b) / inject_Z (div_den a b) * pow10 (dexp a - dexp b - div_shift a b))%Q.
Proof.
  rewrite <- (abs_exact a), <- (abs_exact b). unfold dval. cbn [coef dexp].
  pose proof (inject_Z_nz (Z.abs (coef b)) ltac:(lia)) as Qb.
  pose proof (pow10_nz (dexp b)) as Pb.
  replace (dexp a) with (dexp a - dexp b - div_shift a b + (div_shift a b + dexp b)) at 1 by lia.
  rewrite !pow10_add. unfold div_num, div_den. destruct (0 <=? div_shift a b) eqn:E; bprop.
  - rewrite inject_Z_mult, (pow10_Z (div_shift a b)) by lia. field. auto.
  - rewrite inject_Z_mult, (pow10_Z (- div_shift a b)) by lia.
    pose proof (pow10_nz (- div_shift a b)) as Ps.
    setoid_replace (pow10 (div_shift a b))%Q
      with (1 / pow10 (- div_shift a b))%Q using relation Qeq.
    + field. auto.
    + assert (pow10 (div_shift a b) * pow10 (- div_shift a b) == 1)%Q as I
        by (rewrite <- pow10_add; by replace (div_shift a b + - div_shift a b) with 0 by lia).
      rewrite <- I. by field.
Qed.

(** Any integer within one of the exact ratio is relatively close to it. *)
Lemma div_close z :
  Z.abs (z * div_den a b - div_num a b) <= div_den a b ->
  (Qabs (dval (Dec z (dexp a - dexp b - div_shift a b)) - Qabs (dval a) / Qabs (dval b))
     <= (1 # (10 ^ 28)) * (Qabs (dval a) / Qabs (dval b)))%Q.
Proof.
  intros Hz. rewrite div_ratio. unfold dval. cbn [coef dexp].
  set (e := dexp a - dexp b - div_shift a b) in *. pose proof (pow10_pos e) as P.
  pose proof div_den_pos as Hd. pose proof div_quot_large as Hq.
  assert (Hden : (0 < inject_Z (div_den a b))%Q) by (unfold Qlt, inject_Z; simpl; lia).
  assert (Hnz : ~ (inject_Z (div_den a b) == 0)%Q) by (apply inject_Z_nz; lia).
  setoid_replace (inject_Z z * pow10 e - inject_Z (div_num a b) / inject_Z (div_den a b) * pow10 e)%Q
    with (inject_Z (z * div_den a b - div_num a b) * (pow10 e / inject_Z (div_den a b)))%Q
    using relation Qeq
    by (unfold Zminus; rewrite inject_Z_plus, inject_Z_opp, inject_Z_mult; by field).
  assert (P3 : (0 < pow10 e / inject_Z (div_den a b))%Q)
    by (apply Qlt_shift_div_l; [done | by rewrite Qmult_0_l]).
  rewrite Qabs_Qmult, Qabs_inject, (Qabs_pos (pow10 e / inject_Z (div_den a b))) by lra.
  setoid_replace ((1 # 10 ^ 28) * (inject_Z (div_num a b) / inject_Z (div_den a b) * pow10 e))%Q
    with ((1 # 10 ^ 28) * inject_Z (div_num a b) * (pow10 e / inject_Z (div_den a b)))%Q
    using relation Qeq by (by field).
  apply Qmult_le_compat_r; [|lra]. unfold Qle, Qmult, inject_Z. simpl Qnum. simpl Qden.
  change (Z.pos (10 ^ 28 * 1)) with (10 ^ 28). lia.
Qed.

Lemma div_abs_quot :
  (Qabs (dval (div_abs a b) - Qabs (dval a) / Qabs (dval b))
     <= (1 # (10 ^ 28)) * (Qabs (dval a) / Qabs (dval b)))%Q
  /\ 0 < coef (div_abs a b).
Proof.
  pose proof div_den_pos as Hd. pose proof div_quot_large as Hq. unfold div_abs.
  pose proof (Z.div_mod (div_num a b) (div_den a b) ltac:(lia)) as D.
  pose proof (Z.mod_pos_bound (div_num a b) (div_den a b) Hd) as B.
  assert (10 ^ 28 <= div_num a b / div_den a b) by (apply Z.div_le_lower_bound; lia).
  destruct (_ =? 0) eqn:E; bprop.
  - split; [rewrite strip_zeros_val; apply div_close; lia | apply strip_zeros_sgn; lia].
  - split; [apply div_close | simpl]; case_match; lia.
Qed.
End division.

Lemma coef_nz d : coef d <> 0 <-> ~ (dval d == 0)%Q.
Proof. by rewrite dval_zero. Qed.

Lemma ddiv_total a b : ~ (dval b == 0)%Q -> exists q, ddiv a b = Ok q.
Proof.
  rewrite <- coef_nz. intros H. unfold ddiv. apply Z.eqb_neq in H as ->.
  destruct (coef a =? 0); eauto.
Qed.

Lemma ddiv_zero_divisor a b q : ddiv a b = Ok q -> ~ (dval b == 0)%Q.
Proof. rewrite <- coef_nz. unfold ddiv. destruct (coef b =? 0) eqn:E; bprop; [by case_match | done]. Qed.

Lemma sgn_Qabs d : (inject_Z (Z.sgn (coef d)) * Qabs (dval d) == dval d)%Q.
Proof.
  rewrite <- abs_exact. unfold dval. cbn [coef dexp].
  rewrite Qmult_assoc, <- inject_Z_mult, Z.mul_comm, Z.abs_sgn. reflexivity.
Qed.

Lemma approx_combine x y z K :
  (Qabs (x - y) <= (1 # (2 * 10 ^ 27)) * Qabs y)%Q -> (Qabs (y - z) <= K * Qabs z)%Q ->
  (K <= 1 # (10 ^ 28))%Q -> approx x z.
Proof.
  intros H1 H2 HK. unfold approx, eps.
  pose proof (Qabs_nonneg z) as Nz.
  assert (H3 : (Qabs (y - z) <= (1 # 10 ^ 28) * Qabs z)%Q)
    by (eapply Qle_trans; [apply H2 | by apply Qmult_le_compat_r]).
  assert (Hy : (Qabs y <= Qabs (y - z) + Qabs z)%Q).
  { setoid_replace y with (y - z + z)%Q using relation Qeq at 1 by ring. apply Qabs_triangle. }
  setoid_replace (x - z)%Q with ((x - y) + (y - z))%Q using relation Qeq by ring.
  eapply Qle_trans; [apply Qabs_triangle|].
  change (1 # 2 * 10 ^ 27)%Q with (1 # 2000000000000000000000000000)%Q in H1.
  change (1 # 10 ^ 28)%Q with (1 # 10000000000000000000000000000)%Q in H3.
  change (1 # 10 ^ 27)%Q with (1 # 1000000000000000000000000000)%Q.
  lra.
Qed.

Lemma sgn_div_Qabs a b :
  coef b <> 0 ->
  (dval a / dval b
     == inject_Z (Z.sgn (coef a) * Z.sgn (coef b)) * (Qabs (dval a) / Qabs (dval b)))%Q.
Proof.
  intros Hb. pose proof (sgn_Qabs a) as Ea. pose proof (sgn_Qabs b) as Eb.
  assert (N1 : ~ (Qabs (dval b) == 0)%Q) by (rewrite <- abs_exact; rewrite dval_zero; simpl; lia).
  set (A := Qabs (dval a)) in *. set (B := Qabs (dval b)) in *.
  rewrite <- Ea, <- Eb, inject_Z_mult.
  destruct (Z.sgn_spec (coef b)) as [[_ ->]|[[? _]|[_ ->]]]; [..|lia|];
    change (inject_Z 1) with 1%Q; change (inject_Z (- (1))) with (- (1))%Q; by field.
Qed.

Lemma ddiv_zero_dividend a b : coef a = 0 -> approx (dval (Dec 0 (dexp a - dexp b))) (dval a / dval b).
Proof.
  intros Ha. apply dval_zero in Ha. rewrite Ha.
  setoid_replace (0 / dval b)%Q with 0%Q using relation Qeq by (unfold Qdiv; ring).
  assert (E : (dval (Dec 0 (dexp a - dexp b)) == 0)%Q) by by apply dval_zero.
  rewrite E. by compute.
Qed.

Lemma ddiv_approx a b q : ddiv a b = Ok q -> approx (dval q) (dval a / dval b).
Proof.
  intros H. pose proof (ddiv_zero_divisor _ _ _ H) as Hb. rewrite <- coef_nz in Hb.
  unfold ddiv in H. apply Z.eqb_neq in Hb as E. rewrite E in H.
  destruct (coef a =? 0) eqn:Ea; bprop; simplify_eq; [by apply ddiv_zero_dividend|].
  destruct (div_abs_quot a b Ea Hb) as [Q _].
  eapply (approx_combine _ _ _ (1 # 10 ^ 28)); [apply fix28_err | | apply Qle_refl].
  rewrite (sgn_div_Qabs a b Hb). set (s := Z.sgn (coef a) * Z.sgn (coef b)).
  assert (Hs : Z.abs s = 1) by (unfold s; rewrite Z.abs_mul; lia).
  assert (Hv : (dval (Dec (s * coef (div_abs a b)) (dexp (div_abs a b)))
                == inject_Z s * dval (div_abs a b))%Q)
    by (unfold dval; cbn [coef dexp]; rewrite inject_Z_mult; ring).
  rewrite Hv.
  setoid_replace (inject_Z s * dval (div_abs a b) - inject_Z s * (Qabs (dval a) / Qabs (dval b)))%Q
    with (inject_Z s * (dval (div_abs a b) - Qabs (dval a) / Qabs (dval b)))%Q using relation Qeq by ring.
  rewrite !Qabs_Qmult, Qabs_inject, Hs, !Qmult_1_l.
  eapply Qle_trans; [exact Q|]. apply Qmult_le_l; [done | apply Qle_Qabs].
Qed.

Lemma ddiv_nonneg a b q : ddiv a b = Ok q -> (0 <= dval a -> 0 < dval b -> 0 <= dval q)%Q.
Proof.
  unfold ddiv. rewrite dval_nonneg, dval_pos. intros H Ha Hb.
  destruct (coef b =? 0) eqn:Eb; [by case_match|]. destruct (coef a =? 0) eqn:Ea; simplify_eq; bprop.
  - by rewrite dval_nonneg.
  - apply fix28_nonneg, dval_nonneg. cbn [coef].
    destruct (div_abs_quot a b) as [_ P]; [lia..|]. rewrite !Z.sgn_pos by lia. lia.
Qed.

Lemma ddiv_pos a b q : ddiv a b = Ok q -> (0 < dval a -> 0 < dval b -> 0 < dval q)%Q.
Proof.
  unfold ddiv. rewrite !dval_pos. intros H Ha Hb.
  destruct (coef b =? 0) eqn:Eb; [by case_match|]. destruct (coef a =? 0) eqn:Ea; simplify_eq; bprop; [lia|].
  apply dval_pos, fix28_pos, dval_pos. cbn [coef].
  destruct (div_abs_quot a b) as [_ P]; [lia..|]. rewrite !Z.sgn_pos by lia. lia.
Qed.

(** ** Rescaling *)

Lemma rescale_exact mode d e : e <= dexp d -> (dval (Dec (rescale mode d e) e) == dval d)%Q.
Proof.
  intros H. unfold rescale. apply Z.leb_le in H as E. rewrite E. by apply (shift_to_val e d).
Qed.

Lemma rescale_floor d e :
  (dval (Dec (rescale ROUND_FLOOR d e) e) <= dval d < dval (Dec (rescale ROUND_FLOOR d e) e) + pow10 e)%Q.
Proof.
  pose proof (pow10_pos e). destruct (Z_le_gt_dec e (dexp d)) as [L|G].
  { rewrite rescale_exact by done. lra. }
  unfold rescale. replace (e <=? dexp d) with false by (symmetry; apply Z.leb_gt; lia).
  assert (Hm : 0 < 10 ^ (e - dexp d)) by (apply Z.pow_pos_nonneg; lia).
  destruct (rdiv_floor_spec (coef d) _ Hm) as [L U]. set (q := rdiv _ _ _) in *.
  unfold dval. cbn [coef dexp].
  assert (P : (pow10 e == inject_Z (10 ^ (e - dexp d)) * pow10 (dexp d))%Q)
    by (rewrite pow10_Z, <- pow10_add by lia; by replace (e - dexp d + dexp d) with e by lia).
  pose proof (pow10_pos (dexp d)) as Pd. rewrite P.
  assert (L' : (inject_Z (q * 10 ^ (e - dexp d)) <= inject_Z (coef d))%Q) by by rewrite <- Zle_Qle.
  assert (U' : (inject_Z (coef d) < inject_Z ((q + 1) * 10 ^ (e - dexp d)))%Q) by by rewrite <- Zlt_Qlt.
  rewrite Z.mul_add_distr_r, inject_Z_plus in U'. rewrite !inject_Z_mult in *.
  split.
  - rewrite Qmult_assoc. apply Qmult_le_compat_r; lra.
  - setoid_replace (inject_Z q * (inject_Z (10 ^ (e - dexp d)) * pow10 (dexp d))
      + inject_Z (10 ^ (e - dexp d)) * pow10 (dexp d))%Q
      with ((inject_Z q * inject_Z (10 ^ (e - dexp d)) + inject_Z 1 * inject_Z (10 ^ (e - dexp d)))
            * pow10 (dexp d))%Q using relation Qeq by (change (inject_Z 1) with 1%Q; ring).
    apply Qmult_lt_compat_r; lra.
Qed.

Lemma to_integral_floor d :
  (dval (to_integral ROUND_FLOOR d) <= dval d < dval (to_integral ROUND_FLOOR d) + 1)%Q.
Proof.
  unfold to_integral. case_match eqn:E; bprop; [lra|].
  pose proof (rescale_floor d 0) as H1. change (pow10 0) with 1%Q in H1. exact H1.
Qed.

(** The value of a decimal with a non-negative exponent is an integer. *)
Lemma to_integral_int mode d : exists n, (dval (to_integral mode d) == inject_Z n)%Q.
Proof.
  unfold to_integral. case_match eqn:E; bprop.
  - exists (coef d * 10 ^ dexp d). unfold dval. by rewrite inject_Z_mult, pow10_Z by lia.
  - exists (rescale mode d 0). unfold dval. simpl. change (pow10 0) with 1%Q. ring.
Qed.

Lemma to_integral_floor_nonneg d :
  (0 <= dval d -> 0 <= dval (to_integral ROUND_FLOOR d))%Q.
Proof.
  intros H. destruct (to_integral_int ROUND_FLOOR d) as [n E]. destruct (to_integral_floor d) as [_ U].
  rewrite E in *. rewrite <- (Zle_Qle 0). assert (0 < n + 1); [|lia].
  rewrite Zlt_Qlt, inject_Z_plus. change (inject_Z 0) with 0%Q. change (inject_Z 1) with 1%Q. lra.
Qed.

Lemma quantize_exp mode d q r : quantize mode d q = Ok r -> dexp r = dexp q.
Proof. unfold quantize. case_match; by intros; simplify_eq. Qed.

(** A coefficient of more than 28 digits is cut to one of 28 digits, at a
    larger exponent. *)
Lemma fix28_wide d :
  prec < ndigits (coef d) -> dexp d < dexp (fix28 d) /\ 10 ^ 27 <= Z.abs (coef (fix28 d)).
Proof.
  destruct d as [c e]. unfold fix28. cbn [coef dexp]. intros H.
  replace (ndigits c <=? prec) with false by (symmetry; apply Z.leb_gt; lia).
  unfold prec in *. set (k := ndigits c - 28). set (q := rdiv ROUND_HALF_EVEN c (10 ^ k)).
  assert (Hk : 0 < 10 ^ k) by (apply Z.pow_pos_nonneg; lia).
  pose proof (rdiv_half_even_err c (10 ^ k) Hk) as Err. fold q in Err.
  assert (N : c <> 0) by (intros ->; by compute in H).
  destruct (ndigits_spec c N) as [L U].
  replace (ndigits c - 1) with (27 + k) in L by lia. rewrite Z.pow_add_r in L by lia.
  assert (Hq : 10 ^ 27 <= Z.abs q) by nia.
  destruct (28 <? ndigits q) eqn:E; bprop; cbn [coef dexp]; split; try lia.
  destruct (ndigits_spec q ltac:(lia)) as [L2 _].
  assert (10 ^ 28 <= 10 ^ (ndigits q - 1)) by (apply Z.pow_le_mono_r; lia).
  rewrite <- Z.quot_abs by done. change (Z.abs 10) with 10.
  apply Z.quot_le_lower_bound; lia.
Qed.

(** Quantizing a rounded result back to its exact exponent succeeds only when
    nothing was rounded. *)
Lemma quantize_fix28 mode d q r : quantize mode (fix28 d) q = Ok r -> dexp d = dexp q -> r = d.
Proof.
  unfold quantize. intros H E. destruct (Z_lt_ge_dec prec (ndigits (coef d))) as [W|F].
  - exfalso. destruct (fix28_wide d W) as [X C]. destruct (prec <? _) eqn:P; [done|]. bprop.
    unfold rescale in P. replace (dexp q <=? dexp (fix28 d)) with true in P by (symmetry; apply Z.leb_le; lia).
    set (k := dexp (fix28 d) - dexp q) in *. assert (1 <= k) by lia.
    assert (Hk : 10 <= 10 ^ k) by (change 10 with (10 ^ 1) at 1; apply Z.pow_le_mono_r; lia).
    assert (NZ : coef (fix28 d) * 10 ^ k <> 0) by (intros Z; apply Z.mul_eq_0 in Z; lia).
    destruct (ndigits_spec _ NZ) as [_ U]. rewrite Z.abs_mul in U.
    assert (10 ^ ndigits (coef (fix28 d) * 10 ^ k) <= 10 ^ 28) by (apply Z.pow_le_mono_r; unfold prec in *; lia).
    rewrite (Z.abs_eq (10 ^ k)) in U by lia. nia.
  - rewrite fix28_fits in H by (unfold fits; lia). destruct d as [c e]. cbn in E. subst e.
    unfold rescale in H. cbn [coef dexp] in H. rewrite Z.leb_refl, Z.sub_diag, Z.mul_1_r in H.
    case_match; by simplify_eq.
Qed.

Lemma quantize_half_err mode d q r :
  mode = ROUND_HALF_UP \/ mode = ROUND_HALF_EVEN -> quantize mode d q = Ok r -> (Qabs (dval r - dval d) <= (1 # 2) * pow10 (dexp q))%Q.
Proof.
  intros Mode. unfold quantize. case_match; intros; simplify_eq. pose proof (pow10_pos (dexp q)) as P0.
  destruct (Z_le_gt_dec (dexp q) (dexp d)) as [L|G].
  { rewrite rescale_exact by done. setoid_replace (dval d - dval d)%Q with 0%Q using relation Qeq by ring.
    apply Qmult_le_0_compat; [by compute | lra]. }
  unfold rescale. replace (dexp q <=? dexp d) with false by (symmetry; apply Z.leb_gt; lia).
  set (m := 10 ^ (dexp q - dexp d)). assert (Hm : 0 < m) by (apply Z.pow_pos_nonneg; lia).
  assert (R : 2 * Z.abs (rdiv mode (coef d) m * m - coef d) <= m)
    by (destruct Mode as [-> | ->]; [by apply rdiv_half_up_err | by apply rdiv_half_even_err]).
  set (n := rdiv _ _ _) in *.
  unfold dval. cbn [coef dexp].
  assert (P : (pow10 (dexp q) == inject_Z m * pow10 (dexp d))%Q)
    by (unfold m; rewrite pow10_Z, <- pow10_add by lia; by replace (dexp q - dexp d + dexp d) with (dexp q) by lia).
  rewrite P. pose proof (pow10_pos (dexp d)) as Pd.
  setoid_replace (inject_Z n * (inject_Z m * pow10 (dexp d)) - inject_Z (coef d) * pow10 (dexp d))%Q
    with (inject_Z (n * m - coef d) * pow10 (dexp d))%Q using relation Qeq
    by (unfold Zminus; rewrite inject_Z_plus, inject_Z_opp, inject_Z_mult; ring).
  rewrite Qabs_Qmult, Qabs_inject, (Qabs_pos (pow10 (dexp d))) by lra.
  rewrite Qmult_assoc. apply Qmult_le_compat_r; [|lra].
  apply (Qmult_le_l _ _ 2); [by compute|].
  setoid_replace (2 * ((1 # 2) * inject_Z m))%Q with (inject_Z m) using relation Qeq by ring.
  change 2%Q with (inject_Z 2). rewrite <- inject_Z_mult, <- Zle_Qle. lia.
Qed.

Lemma quantize_half_up_err d q r :
  quantize ROUND_HALF_UP d q = Ok r -> (Qabs (dval r - dval d) <= (1 # 2) * pow10 (dexp q))%Q.
Proof. apply quantize_half_err. by left. Qed.

(** Rounding a non-negative value down loses less than one unit. *)
Lemma quantize_down d q r :
  quantize ROUND_DOWN d q = Ok r -> (0 <= dval d)%Q -> (dval r <= dval d < dval r + pow10 (dexp q))%Q.
Proof.
  intros H N. apply dval_nonneg in N. unfold quantize in H. case_match; simplify_eq.
  pose proof (rescale_floor d (dexp q)) as F.
  replace (rescale ROUND_DOWN d (dexp q)) with (rescale ROUND_FLOOR d (dexp q)); [done|].
  unfold rescale. case_match; [done|]. cbn [rdiv]. symmetry. apply Z.quot_div_nonneg; [done|].
  apply Z.pow_pos_nonneg; bprop; lia.
Qed.

#[global] Arguments dadd : simpl never.
#[global] Arguments dsub : simpl never.
#[global] Arguments dmul : simpl never.
#[global] Arguments dabs : simpl never.
#[global] Arguments dopp : simpl never.
#[global] Arguments ddiv : simpl never.
#[global] Arguments drem : simpl never.
#[global] Arguments dmax : simpl never.
#[global] Arguments dmin : simpl never.
#[global] Arguments dltb : simpl never.
#[global] Arguments dleb : simpl never.
#[global] Arguments deqb : simpl never.
#[global] Arguments quantize : simpl never.
#[global] Arguments to_integral : simpl never.
#[global] Arguments dval : simpl never.
