(* ===== verification/PyString.v ===== *)
(** * PyString: the string methods the code calls

    [str.strip], [upper], [lower], [partition], [split(sep, 1)[0]],
    [replace] of a character, [startswith] and the substring test, on byte
    strings.  The source's identifiers are ASCII; case mapping and white space
    are those of ASCII. *)

From Stdlib Require Import ZArith Lia Ascii.
From S2P Require Import Prelude.
Open Scope string_scope.

Definition is_space (c : ascii) : bool :=
  let n := nat_of_ascii c in
  (n =? 32)%nat || ((9 <=? n)%nat && (n <=? 13)%nat) || ((28 <=? n)%nat && (n <=? 31)%nat).

Definition is_digit (c : ascii) : bool :=
  let n := nat_of_ascii c in (48 <=? n)%nat && (n <=? 57)%nat.

Definition upper_char (c : ascii) : ascii :=
  let n := nat_of_ascii c in
  if (97 <=? n)%nat && (n <=? 122)%nat then ascii_of_nat (n - 32) else c.

Definition lower_char (c : ascii) : ascii :=
  let n := nat_of_ascii c in
  if (65 <=? n)%nat && (n <=? 90)%nat then ascii_of_nat (n + 32) else c.

Fixpoint smap (f : ascii -> ascii) (s : string) : string :=
  match s with EmptyString => EmptyString | String c s => String (f c) (smap f s) end.

Definition upper : string -> string := smap upper_char.
Definition lower : string -> string := smap lower_char.

Fixpoint sforall (p : ascii -> bool) (s : string) : bool :=
  match s with EmptyString => true | String c s => p c && sforall p s end.

Fixpoint sfilter (p : ascii -> bool) (s : string) : string :=
  match s with
  | EmptyString => EmptyString
  | String c s => if p c then String c (sfilter p s) else sfilter p s
  end.

Fixpoint lstrip (s : string) : string :=
  match s with
  | EmptyString => EmptyString
  | String c s' => if is_space c then lstrip s' else s
  end.

(** Drop the trailing white space. *)
Fixpoint rstrip (s : string) : string :=
  match s with
  | EmptyString => EmptyString
  | String c s' =>
      match rstrip s' with
      | EmptyString => if is_space c then EmptyString else String c EmptyString
      | r => String c r
      end
  end.

Definition strip (s : string) : string := rstrip (lstrip s).

(** [s.split(sep, 1)[0]]: what precedes the first [sep]. *)
Fixpoint before (sep : ascii) (s : string) : string :=
  match s with
  | EmptyString => EmptyString
  | String c s => if Ascii.eqb c sep then EmptyString else String c (before sep s)
  end.

(** [s.partition(sep)]: what precedes, whether [sep] occurs, what follows. *)
Fixpoint partition (sep : ascii) (s : string) : string * bool * string :=
  match s with
  | EmptyString => (EmptyString, false, EmptyString)
  | String c s =>
      if Ascii.eqb c sep then (EmptyString, true, s)
      else let '(b, found, a) := partition sep s in (String c b, found, a)
  end.

(** [s.replace(a, b)] for single characters. *)
Definition replace_char (a b : ascii) : string -> string :=
  smap (fun c => if Ascii.eqb c a then b else c).

Fixpoint starts_with (p s : string) : bool :=
  match p, s with
  | EmptyString, _ => true
  | String a p, String b s => Ascii.eqb a b && starts_with p s
  | _, _ => false
  end.

(** [p in s] *)
Fixpoint contains (p s : string) : bool :=
  starts_with p s || match s with EmptyString => false | String _ s => contains p s end.

Definition ends_with (p s : string) : bool :=
  String.eqb p (String.substring (String.length s - String.length p) (String.length p) s)
  && (String.length p <=? String.length s)%nat.

Definition is_empty (s : string) : bool :=
  match s with EmptyString => true | _ => false end.

(** [sep.join(parts)] *)
Fixpoint join (sep : string) (parts : list string) : string :=
  match parts with
  | [] => ""
  | [p] => p
  | p :: ps => p +:+ sep +:+ join sep ps
  end.

(** ** Lemmas *)

Lemma sapp_cons c (s t : string) : String c s +:+ t = String c (s +:+ t).
Proof. done. Qed.

Lemma sapp_nil_l (s : string) : "" +:+ s = s.
Proof. done. Qed.

Lemma sapp_nil_r (s : string) : s +:+ "" = s.
Proof. induction s; [done | by rewrite sapp_cons, IHs]. Qed.

Lemma sapp_assoc (a b c : string) : (a +:+ b) +:+ c = a +:+ (b +:+ c).
Proof. induction a; [done | by rewrite !sapp_cons, IHa]. Qed.

Lemma slength_app (a b : string) : String.length (a +:+ b) = (String.length a + String.length b)%nat.
Proof. induction a; [done | rewrite sapp_cons; simpl; by rewrite IHa]. Qed.

Lemma smap_smap f g s : smap f (smap g s) = smap (fun c => f (g c)) s.
Proof. induction s; simpl; [done | by f_equal]. Qed.

Lemma smap_ext f g s : (forall c, f c = g c) -> smap f s = smap g s.
Proof. intros H. induction s; simpl; [done | by rewrite H, IHs]. Qed.

Lemma sforall_app p a b : sforall p (a +:+ b) = sforall p a && sforall p b.
Proof. induction a; [done | rewrite sapp_cons; simpl; by rewrite IHa, andb_assoc]. Qed.

Lemma sforall_impl (p q : ascii -> bool) s :
  (forall c, p c = true -> q c = true) -> sforall p s = true -> sforall q s = true.
Proof.
  intros H. induction s; simpl; [done|]. intros E. bprop. apply andb_true_iff. auto.
Qed.

Lemma sfilter_all p s : sforall p s = true -> sfilter p s = s.
Proof. induction s; simpl; [done|]. intros E. bprop. rewrite H. by rewrite IHs. Qed.

Lemma rstrip_id s : sforall (fun c => negb (is_space c)) s = true -> rstrip s = s.
Proof.
  induction s as [|c s IH]; simpl; [done|]. intros E. bprop.
  rewrite IH by done. rewrite H. by destruct s.
Qed.

Lemma strip_id s : sforall (fun c => negb (is_space c)) s = true -> strip s = s.
Proof.
  intros H. unfold strip. destruct s as [|c s]; [done|].
  simpl in H. bprop. cbn [lstrip]. rewrite H. apply rstrip_id. simpl. by rewrite H, H0.
Qed.

Definition trimmed_left (s : string) : bool :=
  match s with EmptyString => true | String c _ => negb (is_space c) end.

Lemma lstrip_trimmed s : trimmed_left (lstrip s) = true.
Proof. induction s as [|c s IH]; simpl; [done|]. destruct (is_space c) eqn:E; [done|]. simpl. by rewrite E. Qed.

Lemma lstrip_id s : trimmed_left s = true -> lstrip s = s.
Proof. destruct s as [|c s]; simpl; [done|]. intros E. bprop. by rewrite E. Qed.

Lemma rstrip_trimmed s : trimmed_left s = true -> trimmed_left (rstrip s) = true.
Proof.
  destruct s as [|c s]; simpl; [done|]. intros E. bprop. rewrite E.
  by destruct (rstrip s); simpl; rewrite E.
Qed.

Lemma rstrip_idem s : rstrip (rstrip s) = rstrip s.
Proof.
  induction s as [|c s IH]; simpl; [done|].
  destruct (rstrip s) as [|d r] eqn:E.
  - destruct (is_space c) eqn:S; simpl; [done | by rewrite S].
  - change (rstrip (String c (String d r))) with
      (match rstrip (String d r) with
       | EmptyString => if is_space c then EmptyString else String c EmptyString
       | r => String c r
       end).
    by rewrite IH.
Qed.

Lemma strip_idem s : strip (strip s) = strip s.
Proof.
  unfold strip. rewrite (lstrip_id (rstrip _)); [apply rstrip_idem|].
  apply rstrip_trimmed, lstrip_trimmed.
Qed.

Lemma upper_char_idem c : upper_char (upper_char c) = upper_char c.
Proof. by destruct c as [[] [] [] [] [] [] [] []]. Qed.

Lemma upper_idem s : upper (upper s) = upper s.
Proof. unfold upper. rewrite smap_smap. apply smap_ext, upper_char_idem. Qed.

(** A character that is neither a letter nor the image of one. *)
Definition caseless (d : ascii) : Prop := forall c, Ascii.eqb (upper_char c) d = Ascii.eqb c d.

Lemma caseless_dot : caseless ".".
Proof. by intros [[] [] [] [] [] [] [] []]. Qed.

Lemma caseless_dash : caseless "-".
Proof. by intros [[] [] [] [] [] [] [] []]. Qed.

Lemma before_upper d s : caseless d -> before d (upper s) = upper (before d s).
Proof.
  intros H. induction s as [|c s IH]; [done|].
  change (upper (String c s)) with (String (upper_char c) (upper s)). simpl.
  rewrite H. destruct (Ascii.eqb c d); [done|]. by rewrite IH.
Qed.

Lemma before_idem d s : before d (before d s) = before d s.
Proof. induction s as [|c s IH]; simpl; [done|]. destruct (Ascii.eqb c d) eqn:E; simpl; [done|]. by rewrite E, IH. Qed.
