(* ===== verification/DecText.v ===== *)
(** * DecText: [str], [format(_, "f")] and the constructor of [Decimal]

    Quantities and prices live as strings in JSON payloads and in the fill
    ledgers; the code writes them with [str] or [format(_, "f")] and reads
    them back with [Decimal(text)].  This file models the printers and the
    parser of the standard library and proves the round trips. *)

From Stdlib Require Import ZArith Lia Ascii QArith.
From S2P Require Import Prelude Decimal PyString.
Open Scope string_scope.
Open Scope Z_scope.

(** What the constructor returns: a finite decimal, an infinity or a NaN. *)
Inductive xdec :=
  | XFin (d : dec)
  | XInf (negative : bool)
  | XNaN.

#[global] Instance xdec_eq_dec : EqDecision xdec.
Proof. solve_decision. Defined.

Definition is_finite (x : xdec) : option dec :=
  match x with XFin d => Some d | _ => None end.

(** ** Digits *)

Definition digit_char (d : Z) : ascii := ascii_of_nat (48 + Z.to_nat d).
Definition digit_val (c : ascii) : Z := Z.of_nat (nat_of_ascii c) - 48.

Fixpoint digs (fuel : nat) (n : Z) (acc : string) : string :=
  match fuel with
  | O => acc
  | S fuel =>
      let acc := String (digit_char (n mod 10)) acc in
      if n <? 10 then acc else digs fuel (n / 10) acc
  end.

(** [str(n)] for a natural number [n]. *)
Definition digits_of (n : Z) : string := digs (S (Z.to_nat (Z.log2 n))) n "".

Fixpoint num_of (acc : Z) (s : string) : Z :=
  match s with
  | EmptyString => acc
  | String c s => num_of (acc * 10 + digit_val c) s
  end.

Fixpoint zeros (n : nat) : string :=
  match n with O => "" | S n => String "0" (zeros n) end.

(** [str(n)] for an integer. *)
Definition int_str (n : Z) : string := (if n <? 0 then "-" else "") +:+ digits_of (Z.abs n).

(** ** Printing *)

(** [str(d)]: scientific when the exponent is positive or the number small. *)
Definition dec_str (d : dec) : string :=
  let ds := digits_of (Z.abs (coef d)) in
  let len := Z.of_nat (String.length ds) in
  let left := dexp d + len in
  let dot := if (dexp d <=? 0) && (-6 <? left) then left else 1 in
  let body :=
    if dot <=? 0 then "0." +:+ zeros (Z.to_nat (- dot)) +:+ ds
    else if len <=? dot then ds +:+ zeros (Z.to_nat (dot - len))
    else String.substring 0 (Z.to_nat dot) ds
         +:+ "." +:+ String.substring (Z.to_nat dot) (Z.to_nat (len - dot)) ds in
  let ex := if left =? dot then ""
            else "E" +:+ (if left - dot <? 0 then "-" else "+") +:+ digits_of (Z.abs (left - dot)) in
  (if coef d <? 0 then "-" else "") +:+ body +:+ ex.

(** [format(d, "f")]: never scientific. *)
Definition format_f (d : dec) : string :=
  let d := if (coef d =? 0) && (0 <? dexp d) then Dec 0 0 else d in
  let ds := digits_of (Z.abs (coef d)) in
  let len := Z.of_nat (String.length ds) in
  let dot := dexp d + len in
  let body :=
    if dot <=? 0 then "0." +:+ zeros (Z.to_nat (- dot)) +:+ ds
    else if len <=? dot then ds +:+ zeros (Z.to_nat (dot - len))
    else String.substring 0 (Z.to_nat dot) ds
         +:+ "." +:+ String.substring (Z.to_nat dot) (Z.to_nat (len - dot)) ds in
  (if coef d <? 0 then "-" else "") +:+ body.

(** ** Parsing *)

Fixpoint span_digits (s : string) : string * string :=
  match s with
  | EmptyString => ("", "")
  | String c s' =>
      if is_digit c then let '(a, b) := span_digits s' in (String c a, b) else ("", s)
  end.

Definition split_sign (s : string) : bool * string :=
  match s with
  | String "-" s => (true, s)
  | String "+" s => (false, s)
  | _ => (false, s)
  end.

(** The optional exponent: [None] when the text is not one. *)
Definition parse_exponent (s : string) : option Z :=
  match s with
  | EmptyString => Some 0
  | String c s =>
      if Ascii.eqb (lower_char c) "e" then
        let '(neg, s) := split_sign s in
        let '(ds, rest) := span_digits s in
        if is_empty ds || negb (is_empty rest) then None
        else Some (if neg : bool then - num_of 0 ds else num_of 0 ds)
      else None
  end.

Definition parse_finite (s : string) : option (Z * Z) :=
  let '(ip, r) := span_digits s in
  let '(fp, r) :=
    match r with
    | String "." r => span_digits r
    | _ => ("", r)
    end in
  if is_empty ip && is_empty fp then None
  else ex ← parse_exponent r;
       Some (num_of 0 (ip +:+ fp), ex - Z.of_nat (String.length fp)).

(** [Decimal(s)]; [None] is [InvalidOperation]. *)
Definition parse_dec (s : string) : option xdec :=
  let s := sfilter (fun c => negb (Ascii.eqb c "_")) (strip s) in
  let '(neg, s) := split_sign s in
  match parse_finite s with
  | Some (c, e) => Some (XFin (Dec (if neg : bool then - c else c) e))
  | None =>
      let l := lower s in
      if String.eqb l "inf" || String.eqb l "infinity" then Some (XInf neg)
      else
        let tail := if starts_with "snan" l then Some (String.substring 4 (String.length l - 4) l)
                    else if starts_with "nan" l then Some (String.substring 3 (String.length l - 3) l)
                    else None in
        match tail with
        | Some t => if sforall is_digit t then Some XNaN else None
        | None => None
        end
  end.

(** ** Digits, lemmas *)

Lemma num_of_app a s t : num_of a (s +:+ t) = num_of (num_of a s) t.
Proof. revert a. induction s; intros; [done|]. rewrite sapp_cons. simpl. apply IHs. Qed.

Lemma digit_char_val d : 0 <= d < 10 -> digit_val (digit_char d) = d.
Proof.
  intros H. unfold digit_val, digit_char. rewrite nat_ascii_embedding by lia. lia.
Qed.

Lemma digit_char_digit d : 0 <= d < 10 -> is_digit (digit_char d) = true.
Proof.
  intros H. unfold is_digit, digit_char. rewrite nat_ascii_embedding by lia.
  apply andb_true_iff. rewrite !Nat.leb_le. lia.
Qed.

Lemma digs_num fuel n acc :
  0 <= n < 10 ^ Z.of_nat fuel -> num_of 0 (digs fuel n acc) = num_of n acc.
Proof.
  revert n acc. induction fuel as [|fuel IH]; intros n acc H.
  { simpl in *. by replace n with 0 by lia. }
  rewrite Nat2Z.inj_succ, Z.pow_succ_r in H by lia. cbn [digs].
  pose proof (Z.mod_pos_bound n 10). pose proof (Z.div_mod n 10).
  destruct (n <? 10) eqn:E; bprop; cbn [num_of].
  - rewrite digit_char_val by lia. f_equal. rewrite Z.mod_small by lia. lia.
  - rewrite IH by (split; [apply Z.div_pos; lia | apply Z.div_lt_upper_bound; lia]).
    cbn [num_of]. rewrite digit_char_val by lia. f_equal. lia.
Qed.

Lemma digs_digits fuel n acc :
  0 <= n -> sforall is_digit acc = true -> sforall is_digit (digs fuel n acc) = true.
Proof.
  revert n acc. induction fuel as [|fuel IH]; intros n acc H A; [done|]. cbn [digs].
  assert (sforall is_digit (String (digit_char (n mod 10)) acc) = true).
  { cbn [sforall]. rewrite digit_char_digit by (apply Z.mod_pos_bound; lia). by rewrite A. }
  destruct (n <? 10); [done|]. apply IH; [apply Z.div_pos; lia | done].
Qed.

Lemma digs_nonempty fuel n acc : is_empty acc = false -> is_empty (digs fuel n acc) = false.
Proof. revert n acc. induction fuel; intros n acc H; simpl; [done|]. case_match; [done | by apply IHfuel]. Qed.

Lemma digits_of_num n : 0 <= n -> num_of 0 (digits_of n) = n.
Proof.
  intros H. unfold digits_of. rewrite digs_num; [done|]. split; [done|].
  rewrite Nat2Z.inj_succ, Z2Nat.id by apply Z.log2_nonneg.
  destruct (decide (n = 0)) as [->|]; [by compute|].
  pose proof (Z.log2_spec n ltac:(lia)) as [_ U].
  eapply Z.lt_le_trans; [exact U|]. apply Z.pow_le_mono_l. lia.
Qed.

Lemma digits_of_digits n : 0 <= n -> sforall is_digit (digits_of n) = true.
Proof. intros. by apply digs_digits. Qed.

Lemma digits_of_nonempty n : is_empty (digits_of n) = false.
Proof. unfold digits_of. simpl. case_match; [done|]. by apply digs_nonempty. Qed.

Lemma zeros_digits k : sforall is_digit (zeros k) = true.
Proof. induction k; [done | by rewrite <- IHk]. Qed.

Lemma num_of_zeros a k : num_of a (zeros k) = a * 10 ^ Z.of_nat k.
Proof.
  revert a. induction k as [|k IH]; intros a; [simpl; lia|].
  cbn [zeros num_of]. rewrite IH, Nat2Z.inj_succ, Z.pow_succ_r by lia.
  change (digit_val "0") with 0. lia.
Qed.

Lemma zeros_length k : String.length (zeros k) = k.
Proof. induction k; simpl; [done | by f_equal]. Qed.

Lemma substring_split k s :
  (k <= String.length s)%nat ->
  String.substring 0 k s +:+ String.substring k (String.length s - k) s = s.
Proof.
  revert s. induction k as [|k IH]; intros s H.
  - simpl. rewrite Nat.sub_0_r. destruct s; [done|].
    change (String.substring 0 0 (String a s)) with "". rewrite sapp_nil_l.
    clear H. revert a. induction s; intros; [done|]. cbn [String.length String.substring].
    f_equal. apply IHs.
  - destruct s as [|c s]; [simpl in H; lia|]. simpl in *. rewrite sapp_cons. f_equal. apply IH. lia.
Qed.

Lemma substring_digits i k s : sforall is_digit s = true -> sforall is_digit (String.substring i k s) = true.
Proof.
  revert i k. induction s as [|c s IH]; intros [|i] [|k] H; try done; simpl in *; bprop; try by apply IH.
  rewrite H. by apply IH.
Qed.

Lemma substring_length k i s :
  (i + k <= String.length s)%nat -> String.length (String.substring i k s) = k.
Proof.
  revert i k. induction s as [|c s IH]; intros [|i] [|k] H; simpl in *; try done; try lia.
  - f_equal. apply IH. lia.
  - apply IH. lia.
  - apply IH. lia.
Qed.

(** ** The parser on the printed forms *)

Definition no_digit_head (s : string) : Prop :=
  match s with String c _ => is_digit c = false | EmptyString => True end.

Lemma span_digits_app a b :
  sforall is_digit a = true -> no_digit_head b -> span_digits (a +:+ b) = (a, b).
Proof.
  induction a as [|c a IH]; intros Ha Hb.
  - rewrite sapp_nil_l. destruct b as [|c b]; [done|]. simpl in *. by rewrite Hb.
  - rewrite sapp_cons. simpl in *. bprop. rewrite H. by rewrite IH.
Qed.

(** An exponent text: empty, or introduced by "E", of value [v]. *)
Definition exponent_text (s : string) (v : Z) : Prop :=
  parse_exponent s = Some v /\
  match s with String c _ => c = "E"%char | EmptyString => True end.

Lemma exponent_text_head s v : exponent_text s v -> no_digit_head s.
Proof. intros [_ H]. destruct s; [done|]. by subst. Qed.

Lemma exponent_text_empty : exponent_text "" 0.
Proof. done. Qed.

Lemma exponent_text_E (neg : bool) n :
  0 <= n ->
  exponent_text ("E" +:+ (if neg then "-" else "+") +:+ digits_of n) (if neg then - n else n).
Proof.
  intros H. split; [|done].
  rewrite sapp_cons, sapp_nil_l. cbn [parse_exponent].
  change (Ascii.eqb (lower_char "E") "e") with true. cbn iota.
  assert (S : split_sign ((if neg then "-" else "+") +:+ digits_of n) = (neg, digits_of n))
    by (destruct neg; done).
  rewrite S. rewrite <- (sapp_nil_r (digits_of n)), span_digits_app by (done || by apply digits_of_digits).
  rewrite digits_of_nonempty. simpl. rewrite digits_of_num by done. done.
Qed.

Lemma parse_finite_int ip ex v :
  sforall is_digit ip = true -> is_empty ip = false -> exponent_text ex v ->
  parse_finite (ip +:+ ex) = Some (num_of 0 ip, v).
Proof.
  intros Hd He Hx. unfold parse_finite.
  rewrite span_digits_app by (done || by eapply exponent_text_head).
  destruct Hx as [Hp Hh]. rewrite He. simpl.
  destruct ex as [|c ex]; [|subst c; simpl in Hp |- *].
  - simpl in Hp. simplify_eq. simpl. rewrite sapp_nil_r. do 2 f_equal. 
  - rewrite Hp. simpl. rewrite sapp_nil_r. do 2 f_equal. lia.
Qed.

Lemma parse_finite_frac ip fp ex v :
  sforall is_digit ip = true -> is_empty ip = false -> sforall is_digit fp = true ->
  exponent_text ex v ->
  parse_finite (ip +:+ "." +:+ fp +:+ ex) = Some (num_of 0 (ip +:+ fp), v - Z.of_nat (String.length fp)).
Proof.
  intros Hd He Hf Hx. unfold parse_finite.
  rewrite span_digits_app by done. rewrite (sapp_cons "."), sapp_nil_l. cbn iota.
  rewrite span_digits_app by (done || by eapply exponent_text_head).
  destruct Hx as [Hp _]. rewrite He. simpl. by rewrite Hp.
Qed.

(** ** Round trips *)

(** Text with nothing for [strip] or the removal of underscores to do. *)
Definition plain (s : string) : bool :=
  sforall (fun c => negb (is_space c) && negb (Ascii.eqb c "_")) s.

Lemma plain_app a b : plain (a +:+ b) = plain a && plain b.
Proof. apply sforall_app. Qed.

Lemma plain_digits s : sforall is_digit s = true -> plain s = true.
Proof. apply sforall_impl. by intros [[] [] [] [] [] [] [] []]. Qed.

Lemma plain_clean s : plain s = true -> sfilter (fun c => negb (Ascii.eqb c "_")) (strip s) = s.
Proof.
  intros H. rewrite strip_id, sfilter_all; [done|..];
    (eapply sforall_impl; [|exact H]); intros c E;
      apply andb_true_iff in E; tauto.
Qed.

Definition digit_head (s : string) : Prop :=
  match s with String c _ => is_digit c = true | EmptyString => False end.

Lemma split_sign_digit s : digit_head s -> split_sign s = (false, s).
Proof. destruct s as [|c s]; [done|]. simpl. by destruct c as [[] [] [] [] [] [] [] []]. Qed.

Lemma digit_head_app a b : digit_head a -> digit_head (a +:+ b).
Proof. by destruct a. Qed.

Lemma digit_head_digits s : sforall is_digit s = true -> is_empty s = false -> digit_head s.
Proof. destruct s; [done|]. simpl. intros H _. by bprop. Qed.

Lemma parse_dec_signed (neg : bool) body c e :
  plain body = true -> digit_head body -> parse_finite body = Some (c, e) ->
  parse_dec ((if neg then "-" else "") +:+ body) = Some (XFin (Dec (if neg then - c else c) e)).
Proof.
  intros Hp Hh Hf. unfold parse_dec. rewrite plain_clean by (rewrite plain_app, Hp; by destruct neg).
  assert (S : split_sign ((if neg then "-" else "") +:+ body) = (neg, body))
    by (destruct neg; [done | by rewrite sapp_nil_l, split_sign_digit]).
  by rewrite S, Hf.
Qed.

(** The digits of a coefficient laid out around a decimal point at [dot]. *)
Definition layout (ds : string) (dot : Z) : string :=
  let len := Z.of_nat (String.length ds) in
  if dot <=? 0 then "0." +:+ zeros (Z.to_nat (- dot)) +:+ ds
  else if len <=? dot then ds +:+ zeros (Z.to_nat (dot - len))
  else String.substring 0 (Z.to_nat dot) ds
       +:+ "." +:+ String.substring (Z.to_nat dot) (Z.to_nat (len - dot)) ds.

Lemma is_empty_length s : is_empty s = false <-> (0 < String.length s)%nat.
Proof. destruct s; simpl; split; (done || lia). Qed.

(** The layout parses to the coefficient, scaled when zeros were appended. *)
Lemma layout_parse ds dot ex v :
  sforall is_digit ds = true -> is_empty ds = false -> exponent_text ex v ->
  let len := Z.of_nat (String.length ds) in
  parse_finite (layout ds dot +:+ ex) =
    Some (if len <=? dot then num_of 0 ds * 10 ^ (dot - len) else num_of 0 ds,
          if len <=? dot then v else v + dot - len).
Proof.
  intros Hd He Hx len. pose proof (proj1 (is_empty_length _) He) as Hl. unfold layout. fold len.
  destruct (dot <=? 0) eqn:E0; bprop.
  { replace (len <=? dot) with false by (symmetry; apply Z.leb_gt; lia).
    rewrite !sapp_assoc. change ("0." +:+ ?x) with ("0" +:+ "." +:+ x).
    rewrite <- (sapp_assoc (zeros _)), (parse_finite_frac "0" (zeros _ +:+ ds) ex v) by
      (done || (rewrite sforall_app, zeros_digits; done)).
    rewrite !num_of_app, num_of_zeros. change (num_of 0 "0") with 0. rewrite Z.mul_0_l.
    rewrite slength_app, zeros_length. do 2 f_equal. unfold len. lia. }
  destruct (len <=? dot) eqn:E1; bprop.
  { rewrite (parse_finite_int _ ex v).
    - rewrite num_of_app, num_of_zeros, Z2Nat.id by lia. done.
    - by rewrite sforall_app, zeros_digits, Hd.
    - apply is_empty_length. rewrite slength_app. lia.
    - done. }
  rewrite !sapp_assoc. rewrite (parse_finite_frac _ _ ex v).
  - replace (Z.to_nat (len - dot)) with (String.length ds - Z.to_nat dot)%nat by (unfold len; lia).
    rewrite substring_split by (unfold len in *; lia).
    rewrite substring_length by (unfold len in *; lia). do 2 f_equal. unfold len in *. lia.
  - by apply substring_digits.
  - apply is_empty_length. rewrite substring_length; unfold len in *; lia.
  - by apply substring_digits.
  - done.
Qed.

Lemma layout_plain ds dot : sforall is_digit ds = true -> plain (layout ds dot) = true.
Proof.
  intros H. unfold layout.
  repeat case_match; rewrite ?plain_app, ?(plain_digits (zeros _)), ?(plain_digits ds) by
    (done || apply zeros_digits); [done..|].
  rewrite !(plain_digits (String.substring _ _ _)) by by apply substring_digits. done.
Qed.

Lemma layout_head ds dot : sforall is_digit ds = true -> is_empty ds = false -> digit_head (layout ds dot).
Proof.
  intros H He. pose proof (proj1 (is_empty_length _) He) as Hl. unfold layout.
  repeat case_match; bprop; [done | by apply digit_head_app, digit_head_digits|].
  apply digit_head_app, digit_head_digits; [by apply substring_digits|].
  apply is_empty_length. rewrite substring_length; lia.
Qed.

Lemma dec_str_layout d :
  let ds := digits_of (Z.abs (coef d)) in
  let left := dexp d + Z.of_nat (String.length ds) in
  let dot := if (dexp d <=? 0) && (-6 <? left) then left else 1 in
  dec_str d = (if coef d <? 0 then "-" else "") +:+ layout ds dot +:+
              (if left =? dot then ""
               else "E" +:+ (if left - dot <? 0 then "-" else "+") +:+ digits_of (Z.abs (left - dot))).
Proof. done. Qed.

Lemma sgn_coef d : (if coef d <? 0 then - Z.abs (coef d) else Z.abs (coef d)) = coef d.
Proof. case_match; bprop; lia. Qed.

(** [Decimal(str(d)) == d], with the same coefficient and exponent. *)
Lemma parse_dec_str d : parse_dec (dec_str d) = Some (XFin d).
Proof.
  rewrite dec_str_layout. cbv zeta. set (ds := digits_of (Z.abs (coef d))).
  set (left := dexp d + Z.of_nat (String.length ds)).
  set (dot := if (dexp d <=? 0) && (-6 <? left) then left else 1).
  set (ex := if left =? dot then "" else _).
  assert (Hd : sforall is_digit ds = true) by (apply digits_of_digits; lia).
  assert (He : is_empty ds = false) by apply digits_of_nonempty.
  assert (Hl : 0 < Z.of_nat (String.length ds)) by (apply is_empty_length in He; lia).
  assert (Hx : exponent_text ex (left - dot)).
  { unfold ex. destruct (left =? dot) eqn:E; bprop; [replace (left - dot) with 0 by lia; apply exponent_text_empty|].
    pose proof (exponent_text_E (left - dot <? 0) (Z.abs (left - dot)) ltac:(lia)) as X.
    by replace (if left - dot <? 0 then - Z.abs (left - dot) else Z.abs (left - dot))
      with (left - dot) in X by (case_match; bprop; lia). }
  assert (Hpx : plain ex = true).
  { unfold ex. case_match; [done|]. rewrite !plain_app, (plain_digits (digits_of _)) by
      (apply digits_of_digits; lia). by case_match. }
  rewrite (parse_dec_signed _ _ (Z.abs (coef d)) (dexp d)).
  - rewrite sgn_coef. by destruct d.
  - by rewrite plain_app, layout_plain, Hpx.
  - by apply digit_head_app, layout_head.
  - rewrite layout_parse with (v := left - dot) by done.
    assert (Hn : num_of 0 ds = Z.abs (coef d)) by (apply digits_of_num; lia). rewrite Hn.
    assert (Hdot : (Z.of_nat (String.length ds) <=? dot) = true ->
                   dot = Z.of_nat (String.length ds) /\ left - dot = dexp d).
    { unfold dot, left. case_match; intros; bprop; lia. }
    case_match eqn:E.
    + destruct (Hdot eq_refl) as [E1 E2]. do 2 f_equal; [|lia].
      replace (dot - Z.of_nat (String.length ds)) with 0 by lia. lia.
    + do 2 f_equal. unfold left. lia.
Qed.

Lemma digs_acc fuel n acc : digs fuel n acc = digs fuel n "" +:+ acc.
Proof.
  revert n acc. induction fuel as [|fuel IH]; intros n acc; [done|]. cbn [digs].
  destruct (n <? 10); [done|]. rewrite IH, (IH _ (String _ "")), sapp_assoc. done.
Qed.

Lemma digs_fuel f f' n acc :
  0 <= n < 10 ^ Z.of_nat f -> (0 < f <= f')%nat -> digs f n acc = digs f' n acc.
Proof.
  revert f' n acc. induction f as [|f IH]; intros [|f'] n acc H F; try lia. cbn [digs].
  destruct (n <? 10) eqn:E; [done|]. bprop. rewrite Nat2Z.inj_succ, Z.pow_succ_r in H by lia.
  assert (1 <= n / 10 < 10 ^ Z.of_nat f) by (split; [apply Z.div_le_lower_bound | apply Z.div_lt_upper_bound]; lia).
  apply IH; [lia|]. destruct f; [cbn in *|]; lia.
Qed.

Lemma log2_digits n : 0 < n -> n < 10 ^ Z.of_nat (S (Z.to_nat (Z.log2 n))).
Proof.
  intros H. rewrite Nat2Z.inj_succ, Z2Nat.id by apply Z.log2_nonneg.
  eapply Z.lt_le_trans; [apply Z.log2_spec, H|]. apply Z.pow_le_mono_l. lia.
Qed.

(** Appending zeros multiplies by a power of ten. *)
Lemma digits_of_scale n k : 0 < n -> digits_of (n * 10 ^ Z.of_nat k) = digits_of n +:+ zeros k.
Proof.
  intros H. induction k as [|k IH]; [by rewrite Z.mul_1_r, sapp_nil_r|].
  assert (Z : zeros (S k) = zeros k +:+ "0") by (clear; induction k as [|k IH]; [done | exact (f_equal (String "0") IH)]).
  rewrite Z, <- sapp_assoc, <- IH, Nat2Z.inj_succ, Z.pow_succ_r by lia. clear IH Z.
  pose proof (Z.pow_pos_nonneg 10 (Z.of_nat k) ltac:(lia) ltac:(lia)) as P.
  replace (n * (10 * 10 ^ Z.of_nat k)) with (10 * (n * 10 ^ Z.of_nat k)) by lia.
  assert (0 < n * 10 ^ Z.of_nat k) as Q by nia. revert Q. generalize (n * 10 ^ Z.of_nat k) as x. intros x Q.
  unfold digits_of at 1. cbn [digs]. replace (10 * x <? 10) with false by (symmetry; apply Z.ltb_ge; lia).
  replace (10 * x / 10) with x by (symmetry; rewrite Z.mul_comm; by apply Z.div_mul).
  replace (10 * x mod 10) with 0 by (symmetry; rewrite Z.mul_comm; by apply Z.mod_mul).
  rewrite digs_acc. change (String (digit_char 0) "") with "0". f_equal. symmetry. apply digs_fuel.
  - split; [lia | by apply log2_digits].
  - split; [lia|]. assert (Z.log2 x + 1 <= Z.log2 (10 * x)); [|pose proof (Z.log2_nonneg x); lia].
    replace (Z.log2 x + 1) with (Z.log2 (2 * x)) by (rewrite Z.log2_double; lia). apply Z.log2_le_mono. lia.
Qed.

(** What [format(d, "f")] reads back as: no positive exponent. *)
Definition plain_form (d : dec) : dec :=
  if dexp d <=? 0 then d else Dec (coef d * 10 ^ dexp d) 0.

Lemma plain_form_equiv d : plain_form d ≡ d.
Proof.
  unfold plain_form. case_match eqn:E; [done|]. bprop. unfold equiv, dec_equiv, dval. cbn [coef dexp].
  change (pow10 0) with 1%Q. by rewrite Qmult_1_r, <- pow10_Z, <- inject_Z_mult by lia.
Qed.

Lemma parse_format_f_plain d : parse_dec (format_f d) = Some (XFin (plain_form d)).
Proof.
  set (d0 := if (coef d =? 0) && (0 <? dexp d) then Dec 0 0 else d).
  set (ds := digits_of (Z.abs (coef d0))). set (dot := dexp d0 + Z.of_nat (String.length ds)).
  assert (F : format_f d = (if coef d0 <? 0 then "-" else "") +:+ layout ds dot) by done.
  assert (Hd : sforall is_digit ds = true) by (apply digits_of_digits; lia).
  assert (He : is_empty ds = false) by apply digits_of_nonempty.
  pose proof (layout_parse ds dot "" 0 Hd He exponent_text_empty) as P. simpl in P.
  rewrite sapp_nil_r in P.
  assert (Hn : num_of 0 ds = Z.abs (coef d0)) by (apply digits_of_num; lia). rewrite Hn in P.
  setoid_rewrite F. erewrite parse_dec_signed by (done || by apply layout_plain || by apply layout_head).
  do 2 f_equal. clear P F.
  replace (Z.of_nat (String.length ds) <=? dot) with (0 <=? dexp d0) by (unfold dot; lia).
  replace (0 + dot - Z.of_nat (String.length ds)) with (dexp d0) by (unfold dot; lia).
  replace (dot - Z.of_nat (String.length ds)) with (dexp d0) by (unfold dot; lia).
  unfold plain_form, d0. destruct d as [c e]. cbn [coef dexp].
  destruct ((c =? 0) && (0 <? e)) eqn:E; bprop; cbn [coef dexp].
  - subst. by replace (e <=? 0) with false by lia.
  - destruct (e <=? 0) eqn:N; bprop.
    + destruct (0 <=? e) eqn:?; bprop; [replace e with 0 by lia; cbn; f_equal; case_match; bprop; lia|].
      f_equal. case_match; bprop; lia.
    + replace (0 <=? e) with true by lia. f_equal. case_match; bprop; nia.
Qed.

(** [Decimal(format(d, "f")) == d] numerically. *)
Lemma parse_format_f d : exists d', parse_dec (format_f d) = Some (XFin d') /\ d' ≡ d.
Proof. exists (plain_form d). split; [apply parse_format_f_plain | apply plain_form_equiv]. Qed.

(** Formatting what was read back changes nothing. *)
Lemma format_f_plain_form d : format_f (plain_form d) = format_f d.
Proof.
  unfold plain_form. destruct d as [c e]. cbn [coef dexp]. destruct (e <=? 0) eqn:E; [done|]. bprop.
  unfold format_f. cbn [coef dexp]. replace (0 <? e) with true by lia. rewrite andb_true_r.
  pose proof (Z.pow_pos_nonneg 10 e ltac:(lia) ltac:(lia)) as P.
  destruct (c =? 0) eqn:Z0; bprop; [subst; done|].
  replace ((c * 10 ^ e =? 0) && (0 <? 0)) with false by lia. cbn [coef dexp].
  replace (c * 10 ^ e <? 0) with (c <? 0) by (apply eq_true_iff_eq; rewrite !Z.ltb_lt; nia). f_equal.
  replace (Z.abs (c * 10 ^ e)) with (Z.abs c * 10 ^ Z.of_nat (Z.to_nat e)) by (rewrite Z2Nat.id by lia; lia).
  rewrite digits_of_scale by lia. pose proof (proj1 (is_empty_length _) (digits_of_nonempty (Z.abs c))) as L.
  rewrite slength_app, zeros_length.
  repeat (case_match; bprop; try lia).
  match goal with |- _ +:+ zeros ?k = _ => replace k with 0%nat by lia end.
  rewrite sapp_nil_r. do 2 f_equal. lia.
Qed.

(** ** Ordering of parsed values

    [Decimal] orders the infinities around the finite values and raises
    [InvalidOperation] when an ordering comparison meets a NaN. *)
Definition xcompare (a b : xdec) : option comparison :=
  match a, b with
  | XNaN, _ | _, XNaN => None
  | XFin a, XFin b => Some (dcompare a b)
  | XInf true, XInf true | XInf false, XInf false => Some Eq
  | XInf true, _ | _, XInf false => Some Lt
  | XInf false, _ | _, XInf true => Some Gt
  end.

Definition xltb (a b : xdec) : result bool :=
  match xcompare a b with
  | None => Raise InvalidOperation
  | Some Lt => Ok true
  | Some _ => Ok false
  end.

Definition xleb (a b : xdec) : result bool :=
  match xcompare a b with
  | None => Raise InvalidOperation
  | Some Gt => Ok false
  | Some _ => Ok true
  end.

Definition xabs (a : xdec) : xdec :=
  match a with
  | XFin d => XFin (dabs d)
  | XInf _ => XInf false
  | XNaN => XNaN
  end.

Lemma xltb_fin a b : xltb (XFin a) (XFin b) = Ok (dltb a b).
Proof. unfold xltb, dltb. simpl. by destruct (dcompare a b). Qed.

Lemma xleb_fin a b : xleb (XFin a) (XFin b) = Ok (dleb a b).
Proof. unfold xleb, dleb. simpl. by destruct (dcompare a b). Qed.

(** ** Arithmetic on parsed values

    Quiet NaNs propagate; the indeterminate forms raise [InvalidOperation]. *)
Definition xadd (a b : xdec) : result xdec :=
  match a, b with
  | XNaN, _ | _, XNaN => Ok XNaN
  | XFin a, XFin b => Ok (XFin (dadd a b))
  | XInf s, XInf s' => if Bool.eqb s s' then Ok (XInf s) else Raise InvalidOperation
  | XInf s, XFin _ | XFin _, XInf s => Ok (XInf s)
  end.

Definition xopp (a : xdec) : xdec :=
  match a with XFin d => XFin (dopp d) | XInf s => XInf (negb s) | XNaN => XNaN end.

Definition xsub (a b : xdec) : result xdec :=
  match a, b with
  | XFin a, XFin b => Ok (XFin (dsub a b))
  | _, _ => xadd a (xopp b)
  end.

Definition xneg (a : xdec) : bool :=
  match a with XFin d => coef d <? 0 | XInf s => s | XNaN => false end.

Definition xmul (a b : xdec) : result xdec :=
  match a, b with
  | XNaN, _ | _, XNaN => Ok XNaN
  | XFin a, XFin b => Ok (XFin (dmul a b))
  | XInf s, XInf s' => Ok (XInf (xorb s s'))
  | XInf s, XFin d | XFin d, XInf s =>
      if dis_zero d then Raise InvalidOperation else Ok (XInf (xorb s (coef d <? 0)))
  end.

Definition xdiv (a b : xdec) : result xdec :=
  match a, b with
  | XNaN, _ | _, XNaN => Ok XNaN
  | XFin a, XFin b => XFin <$> ddiv a b
  | XInf _, XInf _ => Raise InvalidOperation
  | XInf s, XFin d => Ok (XInf (xorb s (coef d <? 0)))
  | XFin _, XInf _ => Ok (XFin (Dec 0 (-1000026)))
  end.

(** [max(a, b)] and [min(a, b)], which keep the first of two equal values. *)
Definition xmax (a b : xdec) : result xdec :=
  match xltb a b with Ok c => Ok (if c : bool then b else a) | Raise e => Raise e end.

Definition xmin (a b : xdec) : result xdec :=
  match xltb b a with Ok c => Ok (if c : bool then b else a) | Raise e => Raise e end.

(** [a == b]: false, without an exception, when either is NaN. *)
Definition xeqb (a b : xdec) : bool :=
  match xcompare a b with Some Eq => true | _ => false end.

(** [bool(a)] *)
Definition xtrue (a : xdec) : bool :=
  match a with XFin d => negb (dis_zero d) | _ => true end.

Lemma xmax_fin a b : xmax (XFin a) (XFin b) = Ok (XFin (dmax a b)).
Proof. unfold xmax, dmax. rewrite xltb_fin. by destruct (dltb a b). Qed.

Lemma xmin_fin a b : xmin (XFin a) (XFin b) = Ok (XFin (dmin a b)).
Proof. unfold xmin, dmin. rewrite xltb_fin. by destruct (dltb b a). Qed.

(** [format(x, "f")] *)
Definition xformat_f (x : xdec) : string :=
  match x with
  | XFin d => format_f d
  | XInf neg => if neg : bool then "-Infinity" else "Infinity"
  | XNaN => "NaN"
  end.

Definition xnormalize (x : xdec) : xdec :=
  match x with XFin d => XFin (dnormalize d) | _ => x end.

(** ** Numeric columns

    psycopg2 sends a non-finite [Decimal] as ['NaN'::numeric]; PostgreSQL
    expands positive exponents, and orders NaN above every number. *)
Definition pg_numeric (x : xdec) : xdec :=
  match x with
  | XFin d => XFin (if 0 <? dexp d then Dec (coef d * 10 ^ dexp d) 0 else d)
  | _ => XNaN
  end.

Definition pg_leb (a b : xdec) : bool :=
  match xcompare a b with
  | Some Gt => false
  | Some _ => true
  | None => match b with XNaN => true | _ => false end
  end.

Definition pg_greatest (a b : xdec) : xdec := if pg_leb b a then a else b.
Definition pg_least (a b : xdec) : xdec := if pg_leb a b then a else b.

Lemma pg_leb_fin a b : pg_leb (XFin a) (XFin b) = dleb a b.
Proof. unfold pg_leb, dleb. simpl. by destruct (dcompare a b). Qed.

Lemma pg_numeric_fin d : exists d', pg_numeric (XFin d) = XFin d' /\ d' ≡ d.
Proof.
  unfold pg_numeric. destruct (0 <? dexp d) eqn:E; bprop; eexists; (split; [done|]); [|done].
  unfold equiv, dec_equiv, dval. cbn [coef dexp]. rewrite inject_Z_mult, pow10_Z by lia.
  change (pow10 0) with 1%Q. ring.
Qed.

Lemma pg_leb_refl a : pg_leb a a = true.
Proof.
  destruct a as [d|[]|]; [|done..]. rewrite pg_leb_fin. apply dleb_le, Qle_refl.
Qed.

Lemma pg_leb_total a b : pg_leb a b = false -> pg_leb b a = true.
Proof.
  destruct a as [a|[]|], b as [b|[]|]; try done. rewrite !pg_leb_fin. intros H%dleb_gt.
  by apply dleb_le, Qlt_le_weak.
Qed.

Lemma pg_leb_trans a b c : pg_leb a b = true -> pg_leb b c = true -> pg_leb a c = true.
Proof.
  destruct a as [a|[]|], b as [b|[]|], c as [c|[]|]; try done. rewrite !pg_leb_fin, !dleb_le.
  apply Qle_trans.
Qed.

Lemma pg_greatest_ub a b : pg_leb a (pg_greatest a b) = true /\ pg_leb b (pg_greatest a b) = true.
Proof.
  unfold pg_greatest. destruct (pg_leb b a) eqn:E; split; auto using pg_leb_refl, pg_leb_total.
Qed.
