(* ===== verification/PyValue.v ===== *)
(** * PyValue: JSON-like values, dictionaries and times

    Event payloads, order plans and settings are dictionaries of JSON values.
    [pyval] has one constructor per Python type the code receives; a
    dictionary is an association list in insertion order, updated in place as
    [dict] does.  A float is carried by the decimal its [repr] denotes (JSON
    has no NaN), which is what [Decimal(str(x))] reads.  Times are UTC
    instants in microseconds since the epoch; a [datetime] also knows whether
    it carries an offset. *)

From Stdlib Require Import ZArith Lia Ascii.
From S2P Require Import Prelude Decimal PyString DecText.
Open Scope string_scope.
Open Scope Z_scope.

#[warnings="-register-all"]
Inductive pyval :=
  | PNone
  | PBool (b : bool)
  | PInt (z : Z)
  | PFloat (d : dec)
  | PDec (x : xdec)
  | PStr (s : string)
  | PList (l : list pyval)
  | PDict (m : list (string * pyval)).

Abbreviation dict := (list (string * pyval)).

(** [bool(v)] *)
Definition truthy (v : pyval) : bool :=
  match v with
  | PNone => false
  | PBool b => b
  | PInt z => negb (z =? 0)
  | PFloat d => negb (dis_zero d)
  | PDec (XFin d) => negb (dis_zero d)
  | PDec _ => true
  | PStr s => negb (is_empty s)
  | PList l => match l with [] => false | _ => true end
  | PDict m => match m with [] => false | _ => true end
  end.

(** [a or b] *)
Definition py_or (a b : pyval) : pyval := if truthy a then a else b.

Definition is_none (v : pyval) : bool := match v with PNone => true | _ => false end.

(** [repr] of a float: fixed notation for exponents from -4 to 15. *)
Definition float_repr (d : dec) : string :=
  let ds := digits_of (Z.abs (coef d)) in
  let dot := dexp d + Z.of_nat (String.length ds) in
  (if coef d <? 0 then "-" else "") +:+
  if (-4 <? dot) && (dot <=? 16) then
    layout ds dot +:+ (if 0 <=? dexp d then ".0" else "")
  else
    String.substring 0 1 ds
    +:+ (if (1 <? String.length ds)%nat then "." +:+ String.substring 1 (String.length ds - 1) ds else "")
    +:+ "e" +:+ (if dot - 1 <? 0 then "-" else "+")
    +:+ (if Z.abs (dot - 1) <? 10 then "0" else "") +:+ digits_of (Z.abs (dot - 1)).

Definition xdec_str (x : xdec) : string :=
  match x with
  | XFin d => dec_str d
  | XInf neg => if neg : bool then "-Infinity" else "Infinity"
  | XNaN => "NaN"
  end.

Fixpoint py_repr (v : pyval) : string :=
  match v with
  | PNone => "None"
  | PBool b => if b then "True" else "False"
  | PInt z => int_str z
  | PFloat d => float_repr d
  | PDec x => "Decimal('" +:+ xdec_str x +:+ "')"
  | PStr s => "'" +:+ s +:+ "'"
  | PList l => "[" +:+ join ", " (map py_repr l) +:+ "]"
  | PDict m => "{" +:+ join ", " (map (fun p => "'" +:+ fst p +:+ "': " +:+ py_repr (snd p)) m) +:+ "}"
  end.

(** [str(v)] *)
Definition py_str (v : pyval) : string :=
  match v with
  | PStr s => s
  | PDec x => xdec_str x
  | _ => py_repr v
  end.

(** ** Dictionaries *)

(** [d.get(k)], [None] when the key is missing. *)
Fixpoint dlookup (k : string) (d : dict) : option pyval :=
  match d with
  | [] => None
  | (k', v) :: d => if String.eqb k k' then Some v else dlookup k d
  end.

Definition dget (k : string) (d : dict) : pyval := default PNone (dlookup k d).

Definition dmem (k : string) (d : dict) : bool :=
  match dlookup k d with Some _ => true | None => false end.

(** [d[k] = v] *)
Fixpoint dset (k : string) (v : pyval) (d : dict) : dict :=
  match d with
  | [] => [(k, v)]
  | (k', v') :: d => if String.eqb k k' then (k, v) :: d else (k', v') :: dset k v d
  end.

(** [d.pop(k, None)] *)
Definition dpop (k : string) (d : dict) : dict :=
  List.filter (fun p => negb (String.eqb k (fst p))) d.

(** [{**d1, **d2}], [d1.update(d2)] and SQL's [jsonb || jsonb]. *)
Definition dupdate (d1 d2 : dict) : dict :=
  fold_left (fun d p => dset (fst p) (snd p) d) d2 d1.

(** [dict(v or {})]: the mapping a payload value denotes. *)
Definition as_dict (v : pyval) : dict := match v with PDict m => m | _ => [] end.

Definition is_dict (v : pyval) : bool := match v with PDict _ => true | _ => false end.

Lemma dlookup_dset_eq k v d : dlookup k (dset k v d) = Some v.
Proof.
  induction d as [|[k' v'] d IH]; simpl; [by rewrite String.eqb_refl|].
  destruct (String.eqb k k') eqn:E; simpl; [by rewrite String.eqb_refl | by rewrite E].
Qed.

Lemma dlookup_dset_ne k k' v d : k <> k' -> dlookup k (dset k' v d) = dlookup k d.
Proof.
  intros N. apply String.eqb_neq in N. induction d as [|[k'' v''] d IH]; simpl; [by rewrite N|].
  destruct (String.eqb k' k'') eqn:E; simpl.
  - apply String.eqb_eq in E as ->. by rewrite N.
  - by rewrite IH.
Qed.

Lemma dget_dset_eq k v d : dget k (dset k v d) = v.
Proof. unfold dget. by rewrite dlookup_dset_eq. Qed.

Lemma dget_dset_ne k k' v d : k <> k' -> dget k (dset k' v d) = dget k d.
Proof. intros. unfold dget. by rewrite dlookup_dset_ne. Qed.

Lemma dlookup_dupdate k d1 d2 :
  NoDup (map fst d2) -> dlookup k (dupdate d1 d2) = coalesce (dlookup k d2) (dlookup k d1).
Proof.
  unfold dupdate. revert d1. induction d2 as [|[k' v'] d2 IH]; intros d1 H; simpl; [done|].
  inversion H as [|? ? Hn Hd]; subst. rewrite IH by done. destruct (String.eqb k k') eqn:E; bprop.
  - subst. rewrite dlookup_dset_eq. replace (dlookup k' d2) with (@None pyval); [done|].
    symmetry. clear -Hn. induction d2 as [|[k v] d2 IH]; simpl in *; [done|].
    apply not_elem_of_cons in Hn as [N Hn]. apply String.eqb_neq in N. rewrite N. auto.
  - by rewrite dlookup_dset_ne by done.
Qed.

#[export] Hint Rewrite dlookup_dset_eq dget_dset_eq : trader.

(** [Decimal(str(v))]; [None] is [InvalidOperation]. *)
Definition to_xdec (v : pyval) : option xdec := parse_dec (py_str v).

Lemma to_xdec_dec_str d : to_xdec (PStr (dec_str d)) = Some (XFin d).
Proof. apply parse_dec_str. Qed.

(** ** Times *)

(** A [datetime]: wall-clock microseconds, and the UTC offset if it has one. *)
Record datetime := DateTime { wall_us : Z; utc_offset_us : option Z }.

#[global] Instance datetime_eq_dec : EqDecision datetime.
Proof. solve_decision. Defined.

(** [seconds] as a timedelta. *)
Definition seconds (s : Z) : Z := s * 1000000.

(** Year, month and day of a day count since 1970-01-01, for years from 0. *)
Definition civil_from_days (z : Z) : Z * Z * Z :=
  let z := z + 719468 in
  let era := z / 146097 in
  let doe := z - era * 146097 in
  let yoe := (doe - doe / 1460 + doe / 36524 - doe / 146096) / 365 in
  let y := yoe + era * 400 in
  let doy := doe - (365 * yoe + yoe / 4 - yoe / 100) in
  let mp := (5 * doy + 2) / 153 in
  let d := doy - (153 * mp + 2) / 5 + 1 in
  let m := if mp <? 10 then mp + 3 else mp - 9 in
  (if m <=? 2 then y + 1 else y, m, d).

Definition pad (w : nat) (n : Z) : string :=
  let s := digits_of n in zeros (w - String.length s) +:+ s.

(** [t.date().isoformat()] in UTC. *)
Definition date_iso (t : Z) : string :=
  let '(y, m, d) := civil_from_days (t / 86400000000) in
  pad 4 y +:+ "-" +:+ pad 2 m +:+ "-" +:+ pad 2 d.

(** [t.isoformat()] of an instant in UTC. *)
Definition isoformat (t : Z) : string :=
  let us := t mod 86400000000 in
  let s := us / 1000000 in
  date_iso t +:+ "T" +:+ pad 2 (s / 3600) +:+ ":" +:+ pad 2 (s / 60 mod 60) +:+ ":" +:+ pad 2 (s mod 60)
  +:+ (if us mod 1000000 =? 0 then "" else "." +:+ pad 6 (us mod 1000000)) +:+ "+00:00".

(** ** Integers *)

(** [int(s)] on text: an optional sign and digits, surrounded by spaces. *)
Definition parse_int (s : string) : option Z :=
  let s := strip s in
  let '(neg, s) := split_sign s in
  let '(ds, rest) := span_digits s in
  if is_empty ds || negb (is_empty rest) then None
  else Some (if neg : bool then - num_of 0 ds else num_of 0 ds).

(** [int(v)] *)
Definition py_int (v : pyval) : result Z :=
  match v with
  | PInt z => Ok z
  | PBool b => Ok (if b then 1 else 0)
  | PFloat d | PDec (XFin d) => Ok (dec_to_int d)
  | PDec XNaN => Raise (ValueError "cannot convert NaN to integer")
  | PDec (XInf _) => Raise (RuntimeError "OverflowError" "cannot convert Infinity to integer")
  | PStr s => match parse_int s with
              | Some z => Ok z
              | None => Raise (ValueError "invalid literal for int() with base 10")
              end
  | _ => Raise (TypeError "int() argument must be a string or a real number")
  end.
