(* ===== verification/PyTime.v ===== *)
(** * PyTime: reading datetimes

    [datetime.fromisoformat] on the extended ISO format (the only one the
    services exchange), and the [ensure_aware] and [_aware] helpers that almost
    every module of order_management defines: they turn a [datetime] or its
    text into a UTC instant in microseconds. *)

From Stdlib Require Import ZArith Lia Ascii.
From S2P Require Import Prelude Decimal PyString DecText PyValue.
Open Scope string_scope.
Open Scope Z_scope.

(** ** Parsing *)

(** Exactly [n] digits. *)
Fixpoint take_digits (n : nat) (acc : Z) (s : string) : option (Z * string) :=
  match n with
  | O => Some (acc, s)
  | S n =>
      match s with
      | String c s =>
          if is_digit c then take_digits n (10 * acc + (Z.of_nat (nat_of_ascii c) - 48)) s else None
      | EmptyString => None
      end
  end.

(** As many digits as there are, at most [n] of them significant, padded to [n]. *)
Fixpoint take_fraction (n : nat) (acc : Z) (s : string) : Z * string :=
  match s with
  | String c s' =>
      if is_digit c then
        match n with
        | O => take_fraction O acc s'
        | S n => take_fraction n (10 * acc + (Z.of_nat (nat_of_ascii c) - 48)) s'
        end
      else (acc * 10 ^ Z.of_nat n, s)
  | EmptyString => (acc * 10 ^ Z.of_nat n, s)
  end.

Definition take_char (c : ascii) (s : string) : option string :=
  match s with
  | String c' s => if Ascii.eqb c c' then Some s else None
  | EmptyString => None
  end.

(** [HH[:MM[:SS[.f+]]]] in microseconds, and what follows. *)
Definition take_clock (s : string) : option (Z * string) :=
  '(h, s) ← take_digits 2 0 s;
  if negb (h <? 24) then None else
  match take_char ":" s with
  | None => Some (h * 3600000000, s)
  | Some s =>
      '(m, s) ← take_digits 2 0 s;
      if negb (m <? 60) then None else
      match take_char ":" s with
      | None => Some ((h * 60 + m) * 60000000, s)
      | Some s =>
          '(sec, s) ← take_digits 2 0 s;
          if negb (sec <? 60) then None else
          let whole := ((h * 60 + m) * 60 + sec) * 1000000 in
          match take_char "." s with
          | None => Some (whole, s)
          | Some (String c _ as s) =>
              if is_digit c then let '(f, s) := take_fraction 6 0 s in Some (whole + f, s) else None
          | Some EmptyString => None
          end
      end
  end.

Definition leap (y : Z) : bool :=
  (y mod 4 =? 0) && (negb (y mod 100 =? 0) || (y mod 400 =? 0)).

Definition days_in_month (y m : Z) : Z :=
  if m =? 2 then if leap y then 29 else 28
  else if (m =? 4) || (m =? 6) || (m =? 9) || (m =? 11) then 30 else 31.

(** Days since 1970-01-01, the inverse of [civil_from_days]. *)
Definition days_from_civil (y m d : Z) : Z :=
  let y := if m <=? 2 then y - 1 else y in
  let era := y / 400 in
  let yoe := y - era * 400 in
  let mp := if 2 <? m then m - 3 else m + 9 in
  let doy := (153 * mp + 2) / 5 + d - 1 in
  let doe := yoe * 365 + yoe / 4 - yoe / 100 + doy in
  era * 146097 + doe - 719468.

(** [YYYY-MM-DD] as a day count. *)
Definition take_date (s : string) : option (Z * string) :=
  '(y, s) ← take_digits 4 0 s;
  s ← take_char "-" s;
  '(m, s) ← take_digits 2 0 s;
  s ← take_char "-" s;
  '(d, s) ← take_digits 2 0 s;
  if (1 <=? y) && (1 <=? m) && (m <=? 12) && (1 <=? d) && (d <=? days_in_month y m)
  then Some (days_from_civil y m d, s) else None.

(** The UTC offset, [None] for a naive datetime. *)
Definition take_offset (s : string) : option (option Z) :=
  match s with
  | EmptyString => Some None
  | String c s =>
      if Ascii.eqb c "Z" then if is_empty s then Some (Some 0) else None
      else if Ascii.eqb c "+" || Ascii.eqb c "-" then
        '(off, rest) ← take_clock s;
        if is_empty rest then Some (Some (if Ascii.eqb c "-" then - off else off)) else None
      else None
  end.

(** [datetime.fromisoformat(s)] *)
Definition fromisoformat (s : string) : result datetime :=
  let parsed :=
    '(days, s) ← take_date s;
    match s with
    | EmptyString => Some {| wall_us := days * 86400000000; utc_offset_us := None |}
    | String _ s =>
        '(clock, s) ← take_clock s;
        off ← take_offset s;
        Some {| wall_us := days * 86400000000 + clock; utc_offset_us := off |}
    end in
  match parsed with
  | Some t => Ok t
  | None => Raise (ValueError "Invalid isoformat string")
  end.

(** ** Awareness *)

(** [_aware(value)]: a naive datetime is read as UTC. *)
Definition aware (t : datetime) : Z := wall_us t - default 0 (utc_offset_us t).

(** A timestamp argument: [None], a [datetime] or its text. *)
Inductive timestamp := TsNone | TsTime (t : datetime) | TsText (s : string).

(** [s.replace("Z", "+00:00")] *)
Fixpoint replace_Z (s : string) : string :=
  match s with
  | EmptyString => EmptyString
  | String c s => if Ascii.eqb c "Z" then "+00:00" +:+ replace_Z s else String c (replace_Z s)
  end.

(** [ensure_aware(value)], with the clock read when there is no value. *)
Definition ensure_aware (now : Z) (value : timestamp) : result Z :=
  match value with
  | TsNone => Ok now
  | TsTime t => Ok (aware t)
  | TsText s => aware <$> fromisoformat (replace_Z s)
  end.

Definition utc (t : Z) : datetime := {| wall_us := t; utc_offset_us := Some 0 |}.

Lemma aware_utc t : aware (utc t) = t.
Proof. unfold aware. simpl. lia. Qed.
