(* ===== verification/Identifiers.v ===== *)
(** * Identifiers: canonical account, instrument and position identifiers

    Models packages/execution-domain/execution_domain/identifiers.py (which
    order_management/identifiers.py re-exports) and the two other symbol
    normalisers of the package, [canonical_symbol] of ownership_ledger.py and
    [venue_symbol_for_instrument] of account_execution_ledger.py. *)

From Stdlib Require Import ZArith Lia Ascii.
From S2P Require Import Prelude PyString.
Open Scope string_scope.

(** ** Definitions *)

Definition venue_symbol (x : string) : string :=
  let raw := strip x in
  let before_venue := before "." raw in
  let before_product := before "-" before_venue in
  upper (strip before_product).

Record CanonicalInstrument := {
  ci_raw : string;
  ci_venue_symbol : string;
  ci_venue : option string;
  ci_product : option string }.

Definition parse_instrument (x : string) : CanonicalInstrument :=
  let raw := strip x in
  let '(before_venue, sep, after_venue) := partition "." raw in
  let '(before_product, product_sep, product) := partition "-" before_venue in
  {| ci_raw := raw;
     ci_venue_symbol := venue_symbol before_product;
     ci_venue := if sep && negb (is_empty (strip after_venue))
                 then Some (upper (strip after_venue)) else None;
     ci_product := if product_sep && negb (is_empty (strip product))
                   then Some (upper (strip product)) else None |}.

Definition canonical_instrument_key (x : string) : string := venue_symbol x.

Definition instruments_match (a b : option string) : bool :=
  match a, b with
  | Some a, Some b =>
      let left := canonical_instrument_key a in
      let right := canonical_instrument_key b in
      negb (is_empty left) && negb (is_empty right) && String.eqb left right
  | _, _ => false
  end.

Definition canonical_account_id (x : option string) : result string :=
  match x with
  | None => Raise (ValueError "account_id must not be empty")
  | Some x =>
      let account_id := strip x in
      if is_empty account_id then Raise (ValueError "account_id must not be empty")
      else Ok account_id
  end.

Record PositionKey := {
  pk_account_id : string;
  pk_venue_symbol : string;
  pk_side : option string }.

(** [PositionKey.key] *)
Definition position_key (k : PositionKey) : result string :=
  account_id ← canonical_account_id (Some (pk_account_id k));
  let symbol := canonical_instrument_key (pk_venue_symbol k) in
  if is_empty symbol then Raise (ValueError "venue_symbol must not be empty")
  else
    match pk_side k with
    | None => Ok (account_id +:+ ":" +:+ symbol)
    | Some side =>
        let side := lower (strip side) in
        if str_in side ["long"; "short"] then Ok (account_id +:+ ":" +:+ symbol +:+ ":" +:+ side)
        else Raise (ValueError "side must be 'long' or 'short'")
    end.

Definition canonical_position_key (account_id instrument : string) (side : option string) : result string :=
  position_key {| pk_account_id := account_id; pk_venue_symbol := instrument; pk_side := side |}.

(** [ownership_ledger.canonical_symbol]; [None] is Python's [None] or "". *)
Definition canonical_symbol (value : option string) : string :=
  let text := upper (strip (default "" value)) in
  if is_empty text then "" else before "." (before "-" text).

(** [account_execution_ledger.venue_symbol_for_instrument] *)
Definition venue_symbol_for_instrument (instrument_id : option string) : string :=
  let text := upper (strip (default "" instrument_id)) in
  if is_empty text then "" else before "." (before "-" text).

(** ** Lemmas *)

Definition lacks (d : ascii) : string -> bool := sforall (fun c => negb (Ascii.eqb c d)).

Lemma before_lacks d s : lacks d (before d s) = true.
Proof.
  unfold lacks. induction s as [|c s IH]; simpl; [done|].
  destruct (Ascii.eqb c d) eqn:E; simpl; [done|]. by rewrite E, IH.
Qed.

Lemma before_id d s : lacks d s = true -> before d s = s.
Proof. unfold lacks. induction s as [|c s IH]; simpl; [done|]. intros H. bprop. rewrite H. by rewrite IH. Qed.

Lemma sforall_before p d s : sforall p s = true -> sforall p (before d s) = true.
Proof. induction s as [|c s IH]; simpl; [done|]. intros H. bprop. destruct (Ascii.eqb c d); simpl; [done|]. by rewrite H, IH. Qed.

Lemma sforall_lstrip p s : sforall p s = true -> sforall p (lstrip s) = true.
Proof. induction s as [|c s IH]; simpl; [done|]. intros H. bprop. destruct (is_space c); [auto|]. simpl. by rewrite H. Qed.

Lemma sforall_rstrip p s : sforall p s = true -> sforall p (rstrip s) = true.
Proof.
  induction s as [|c s IH]; simpl; [done|]. intros H. bprop. specialize (IH H0).
  destruct (rstrip s) eqn:E; [destruct (is_space c); simpl; by rewrite ?H|]. cbn [sforall] in *. by rewrite H.
Qed.

Lemma sforall_strip p s : sforall p s = true -> sforall p (strip s) = true.
Proof. intros. by apply sforall_rstrip, sforall_lstrip. Qed.

Lemma is_space_upper c : is_space (upper_char c) = is_space c.
Proof. by destruct c as [[] [] [] [] [] [] [] []]. Qed.

Lemma strip_upper s : strip (upper s) = upper (strip s).
Proof.
  unfold strip. assert (L : lstrip (upper s) = upper (lstrip s)).
  { induction s as [|c s IH]; [done|]. unfold upper in *. simpl. rewrite is_space_upper.
    by destruct (is_space c). }
  rewrite L. generalize (lstrip s). clear. intros s. induction s as [|c s IH]; [done|].
  unfold upper in *. simpl. rewrite IH, is_space_upper.
  destruct (rstrip s); simpl; [by destruct (is_space c) | done].
Qed.

Lemma lacks_upper d s : caseless d -> lacks d s = true -> lacks d (upper s) = true.
Proof. intros H. unfold lacks, upper. induction s as [|c s IH]; [done|]. simpl. rewrite H. intros E. bprop. by rewrite H0, IH. Qed.

Lemma lacks_before d d' s : lacks d s = true -> lacks d (before d' s) = true.
Proof. apply sforall_before. Qed.

Lemma lacks_strip d s : lacks d s = true -> lacks d (strip s) = true.
Proof. apply sforall_strip. Qed.

(** The canonical form has no venue or product part and is already stripped. *)
Lemma venue_symbol_lacks x :
  lacks "." (venue_symbol x) = true /\ lacks "-" (venue_symbol x) = true.
Proof.
  unfold venue_symbol. split; apply lacks_upper;
    auto using caseless_dot, caseless_dash, lacks_strip, lacks_before, before_lacks.
Qed.

Lemma venue_symbol_fixed s :
  lacks "." s = true -> lacks "-" s = true -> strip s = s -> upper s = s -> venue_symbol s = s.
Proof.
  intros H1 H2 H3 H4. unfold venue_symbol. rewrite H3, (before_id "."), (before_id "-") by done.
  by rewrite H3.
Qed.

Lemma strip_venue_symbol x : strip (venue_symbol x) = venue_symbol x.
Proof. unfold venue_symbol. by rewrite strip_upper, strip_idem. Qed.

Lemma venue_symbol_idem x : venue_symbol (venue_symbol x) = venue_symbol x.
Proof.
  destruct (venue_symbol_lacks x). apply venue_symbol_fixed; try done.
  - apply strip_venue_symbol.
  - apply upper_idem.
Qed.

Lemma canonical_account_id_idem x a :
  canonical_account_id x = Ok a -> canonical_account_id (Some a) = Ok a.
Proof.
  unfold canonical_account_id. destruct x as [x|]; [|done]. intros H.
  destruct (is_empty (strip x)) eqn:E; simplify_eq. by rewrite strip_idem, E.
Qed.

Lemma instruments_match_spec a b :
  instruments_match a b = true <->
  exists x y, a = Some x /\ b = Some y /\ venue_symbol x = venue_symbol y /\ venue_symbol x <> "".
Proof.
  unfold instruments_match, canonical_instrument_key. destruct a as [x|], b as [y|];
    try (split; [done | intros (? & ? & ? & ? & _); done]).
  split.
  - intros H. bprop. exists x, y. split_and!; try done. intros E. by rewrite E in *.
  - intros (? & ? & ? & ? & E & N). simplify_eq. rewrite <- E, String.eqb_refl.
    by destruct (venue_symbol _).
Qed.

(** ** Properties *)

(** Instrument identity: the venue symbol is a fixed point of the
    normalisation, so matching is an equivalence on the instruments that have
    one (reflexive, symmetric and transitive), and matching instruments with
    the same account and side share one position key. *)
Theorem instruments_match_equivalence a b c :
  venue_symbol (venue_symbol a) = venue_symbol a
  /\ (venue_symbol a <> "" -> instruments_match (Some a) (Some a) = true)
  /\ instruments_match (Some a) (Some b) = instruments_match (Some b) (Some a)
  /\ (instruments_match (Some a) (Some b) = true -> instruments_match (Some b) (Some c) = true ->
      instruments_match (Some a) (Some c) = true)
  /\ (instruments_match (Some a) (Some b) = true ->
      forall account side, canonical_position_key account a side = canonical_position_key account b side).
Proof.
  split_and!.
  - apply venue_symbol_idem.
  - intros N. apply instruments_match_spec. by exists a, a.
  - apply eq_true_iff_eq. rewrite !instruments_match_spec.
    split; intros (x & y & ? & ? & E & N); exists y, x; simplify_eq; rewrite E in *; auto.
  - rewrite !instruments_match_spec. intros (x & y & ? & ? & E & N) (y' & z & ? & ? & E' & N').
    simplify_eq. exists x, z. rewrite E. auto.
  - rewrite instruments_match_spec. intros (x & y & ? & ? & E & N) account side. simplify_eq.
    unfold canonical_position_key, position_key, canonical_instrument_key. simpl. by rewrite E.
Qed.

Lemma sapp_inj_tail s t u : s +:+ t = s +:+ u -> t = u.
Proof. induction s as [|c s IH]; [done|]. rewrite !sapp_cons. intros H. injection H as H. auto. Qed.

(** Hedge mode keeps the two sides of an account and symbol apart: their
    keys both exist, differ from each other, and a side in any spelling of
    case and surrounding spaces gives the same key. *)
Theorem hedge_keys_distinct account instrument kl ks :
  canonical_position_key account instrument (Some "long") = Ok kl ->
  canonical_position_key account instrument (Some "short") = Ok ks ->
  kl <> ks
  /\ forall side, lower (strip side) = "long" -> canonical_position_key account instrument (Some side) = Ok kl.
Proof.
  unfold canonical_position_key, position_key. cbn [pk_account_id pk_venue_symbol pk_side].
  destruct (canonical_account_id (Some account)) as [acc|]; [|done]. unfold mbind, result_bind.
  destruct (is_empty (canonical_instrument_key instrument)); [done|].
  change (lower (strip "long")) with "long". change (lower (strip "short")) with "short".
  intros H1 H2. cbn in H1, H2. injection H1 as <-. injection H2 as <-. split.
  - intros E. by repeat apply sapp_inj_tail in E.
  - intros side ->. reflexivity.
Qed.

Lemma hedge_keys_distinct_witness :
  canonical_position_key "a" "btcusdt-perp.binance" (Some " LONG ") = Ok "a:BTCUSDT:long".
Proof. apply (hedge_keys_distinct "a" "btcusdt-perp.binance" "a:BTCUSDT:long" "a:BTCUSDT:short"); reflexivity. Defined.
