(* ===== verification/StateDescriptor.v ===== *)
(** * StateDescriptor: the order-management state machines

    Models order_management/state_descriptor.py together with the reference
    data it loads, packages/contracts/v1/order_state.v1.json: the intent,
    order, position and command lifecycles and the HALTED/REDUCING permission
    matrix.  A domain name is always a literal in the code, so it is an
    enumeration here; states, events and triggers stay strings. *)

From Stdlib Require Import ZArith Lia Ascii.
From S2P Require Import Prelude Decimal PyString DecText PyValue.
Open Scope string_scope.
Open Scope Z_scope.

(** ** The descriptor *)

Inductive domain_name := Intent | Order | Position | Command.

Record edge := Edge { e_from : string; e_to : string; e_trigger : string }.

Record descriptor := Descriptor {
  d_initial : string;
  d_states : list (string * bool);          (* state, terminal *)
  d_transitions : list edge;
  d_any_state_to : list string;
  d_event_state_map : list (string * string) }.

Definition intent_descriptor : descriptor := {|
  d_initial := "approved";
  d_states := [("approved", false); ("dispatched", false); ("node_accepted", false);
    ("executing", false); ("completed", true); ("rejected", true); ("denied", true);
    ("failed", true); ("expired", true); ("cancelled", true); ("needs_review", false)];
  d_transitions := [
    Edge "approved" "dispatched" "execution_job_dispatched";
    Edge "dispatched" "node_accepted" "node_accepted_intent";
    Edge "node_accepted" "executing" "first_order_working_or_fill";
    Edge "executing" "completed" "terminal_execution_result";
    Edge "needs_review" "dispatched" "operator_resume";
    Edge "needs_review" "cancelled" "operator_cancel"];
  d_any_state_to := ["rejected"; "denied"; "failed"; "expired"; "cancelled"; "needs_review"];
  d_event_state_map := [] |}.

Definition order_descriptor : descriptor := {|
  d_initial := "planned";
  d_states := [("planned", false); ("pending_submit", false); ("submitted", false);
    ("accepted", false); ("working", false); ("partially_filled", false); ("filled", true);
    ("rejected", true); ("denied", true); ("pending_cancel", false); ("cancelled", true);
    ("expired", true); ("failed", true); ("lost", false)];
  d_transitions := [
    Edge "planned" "pending_submit" "plan_committed";
    Edge "planned" "denied" "risk_denied_pre_submit";
    Edge "planned" "denied" "OrderDenied";
    Edge "pending_submit" "submitted" "OrderSubmitted";
    Edge "pending_submit" "failed" "submit_failed_terminal";
    Edge "pending_submit" "denied" "OrderDenied";
    Edge "submitted" "accepted" "OrderAccepted";
    Edge "submitted" "rejected" "OrderRejected";
    Edge "submitted" "denied" "OrderDenied";
    Edge "accepted" "working" "order_live_on_book";
    Edge "accepted" "partially_filled" "OrderFilled_partial";
    Edge "accepted" "filled" "OrderFilled_full";
    Edge "working" "partially_filled" "OrderFilled_partial";
    Edge "working" "filled" "OrderFilled_full";
    Edge "partially_filled" "partially_filled" "OrderFilled_partial";
    Edge "partially_filled" "filled" "OrderFilled_full";
    Edge "accepted" "pending_cancel" "OrderPendingCancel";
    Edge "working" "pending_cancel" "OrderPendingCancel";
    Edge "partially_filled" "pending_cancel" "OrderPendingCancel";
    Edge "pending_cancel" "cancelled" "OrderCanceled";
    Edge "accepted" "cancelled" "OrderCanceled";
    Edge "working" "cancelled" "OrderCanceled";
    Edge "partially_filled" "cancelled" "OrderCanceled";
    Edge "working" "expired" "OrderExpired";
    Edge "accepted" "expired" "OrderExpired";
    Edge "lost" "working" "reconciliation_resolved_live";
    Edge "lost" "filled" "reconciliation_resolved_filled";
    Edge "lost" "cancelled" "reconciliation_resolved_cancelled"];
  d_any_state_to := ["lost"];
  d_event_state_map := [
    ("OrderSubmitted", "submitted"); ("OrderAccepted", "accepted"); ("OrderFilled", "derive");
    ("OrderCanceled", "cancelled"); ("OrderRejected", "rejected"); ("OrderDenied", "denied");
    ("OrderExpired", "expired"); ("OrderUpdated", "self"); ("OrderPendingUpdate", "self");
    ("OrderPendingCancel", "pending_cancel")] |}.

Definition position_descriptor : descriptor := {|
  d_initial := "opening";
  d_states := [("opening", false); ("open", false); ("reducing", false); ("closed", true);
    ("external", false); ("reconciliation_required", false)];
  d_transitions := [
    Edge "opening" "open" "PositionOpened";
    Edge "open" "reducing" "PositionChanged_reduce";
    Edge "reducing" "reducing" "PositionChanged_reduce";
    Edge "reducing" "open" "PositionChanged_increase";
    Edge "open" "closed" "PositionClosed";
    Edge "reducing" "closed" "PositionClosed";
    Edge "external" "open" "reconciliation_adopt_external";
    Edge "external" "closed" "reconciliation_close_external";
    Edge "reconciliation_required" "open" "reconciliation_resolved_open";
    Edge "reconciliation_required" "closed" "reconciliation_resolved_closed"];
  d_any_state_to := ["reconciliation_required"];
  d_event_state_map := [("PositionOpened", "open"); ("PositionChanged", "derive");
    ("PositionClosed", "closed")] |}.

Definition command_descriptor : descriptor := {|
  d_initial := "requested";
  d_states := [("requested", false); ("accepted", false); ("running", false);
    ("verifying", false); ("completed", true); ("partial", true); ("failed", true);
    ("timed_out", true)];
  d_transitions := [
    Edge "requested" "accepted" "orchestrator_accept";
    Edge "accepted" "running" "dispatched_to_nodes";
    Edge "running" "verifying" "all_nodes_acked";
    Edge "verifying" "completed" "venue_final_verified";
    Edge "verifying" "partial" "venue_residual_found";
    Edge "running" "partial" "some_nodes_failed";
    Edge "running" "failed" "all_nodes_failed";
    Edge "running" "timed_out" "ack_timeout";
    Edge "verifying" "timed_out" "verify_timeout"];
  d_any_state_to := [];
  d_event_state_map := [] |}.

Definition domain_descriptor (n : domain_name) : descriptor :=
  match n with
  | Intent => intent_descriptor
  | Order => order_descriptor
  | Position => position_descriptor
  | Command => command_descriptor
  end.

(** [halted_semantics]: the opening actions, the reduce-only actions and the
    permission matrix. *)
Definition opening_actions : list string := ["open_position"; "add_position"].
Definition reduce_only_actions : list string :=
  ["partial_close"; "close_position"; "cancel"; "cancel_all"; "close_all"].

Definition halted_row : list (string * bool) :=
  [("open_position", false); ("add_position", false); ("partial_close", true);
   ("close_position", true); ("move_stop_loss", true); ("move_stop_to_entry", true);
   ("replace_take_profits", true); ("cancel", true); ("cancel_all", true); ("close_all", true)].

Definition permission_matrix : list (string * list (string * bool)) :=
  [("ACTIVE", map (fun p => (fst p, true)) halted_row);
   ("REDUCING", halted_row); ("HALTED", halted_row)].

(** ** Operations *)

Fixpoint alookup {A} (k : string) (l : list (string * A)) : option A :=
  match l with
  | [] => None
  | (k', v) :: l => if String.eqb k k' then Some v else alookup k l
  end.

Definition state_is_terminal (d : descriptor) (state : string) : bool :=
  default false (alookup state (d_states d)).

Definition _decimal (v : pyval) : option xdec :=
  match v with PNone => None | v => to_xdec v end.

Definition quantity_of (payload : dict) : pyval :=
  py_or (dget "quantity" payload) (dget "qty" payload).

Definition derive_order_fill_state (payload : dict) : result string :=
  let quantity := _decimal (quantity_of payload) in
  let filled := _decimal (dget "filled_qty" payload) in
  let leaves := _decimal (dget "leaves_qty" payload) in
  no_leaves ← match leaves with Some l => xleb l (XFin dzero) | None => Ok false end;
  if no_leaves : bool then Ok "filled" else
  all_filled ← match quantity, filled with Some q, Some f => xleb q f | _, _ => Ok false end;
  Ok (if all_filled : bool then "filled" else "partially_filled").

Definition derive_position_changed_state (payload : dict) (current_quantity : option xdec)
  : result string :=
  match _decimal (quantity_of payload), current_quantity with
  | Some q, Some c =>
      smaller ← xltb (xabs q) (xabs c);
      Ok (if smaller : bool then "reducing" else "open")
  | _, _ => Ok "open"
  end.

Definition event_target (n : domain_name) (event_type : string) (payload : dict)
    (current_quantity : option xdec) : result (option string) :=
  match alookup event_type (d_event_state_map (domain_descriptor n)) with
  | None => Ok None
  | Some mapped =>
      if negb (String.eqb mapped "derive") then Ok (Some mapped)
      else match n with
           | Order =>
               if String.eqb event_type "OrderFilled"
               then Some <$> derive_order_fill_state payload
               else Raise (ValueError "no derive rule")
           | Position =>
               if String.eqb event_type "PositionChanged"
               then Some <$> derive_position_changed_state payload current_quantity
               else Raise (ValueError "no derive rule")
           | _ => Raise (ValueError "no derive rule")
           end
  end.

Definition legal_in (d : descriptor) (current target : string) : bool :=
  if String.eqb current target then true
  else if state_is_terminal d current then false
  else existsb (fun e => String.eqb (e_from e) current && String.eqb (e_to e) target)
         (d_transitions d)
       || str_in target (d_any_state_to d).

Definition legal_transition (n : domain_name) (current target : string) : bool :=
  legal_in (domain_descriptor n) current target.

Definition transition_target (n : domain_name) (current : option string) (trigger : string)
  : option string :=
  let edges := d_transitions (domain_descriptor n) in
  let matches := omap (fun e =>
      if negb (String.eqb (e_trigger e) trigger) then None
      else match current with
           | Some c => if negb (String.eqb (e_from e) c) then None else Some (e_to e)
           | None => Some (e_to e)
           end) edges in
  match remove_dups matches with
  | [_] => head matches
  | _ =>
      match current, matches with
      | None, [] =>
          match remove_dups (omap (fun e =>
                  if String.eqb (e_trigger e) trigger then Some (e_to e) else None) edges) with
          | [t] => Some t
          | _ => None
          end
      | _, _ => None
      end
  end.

(** Breadth-first ranks.  Every state enters the queue at most once, so as
    many rounds as there are states and transitions empty it. *)
Definition successors (d : descriptor) (node : string) : list string :=
  map e_to (List.filter (fun e => String.eqb (e_from e) node) (d_transitions d)).

Definition visit (rank : Z) (acc : list (string * Z) * list string) (nxt : string) :=
  let '(ranks, queue) := acc in
  match alookup nxt ranks with
  | Some _ => (ranks, queue)
  | None => ((ranks ++ [(nxt, rank + 1)])%list, (queue ++ [nxt])%list)
  end.

Fixpoint bfs (fuel : nat) (d : descriptor) (ranks : list (string * Z)) (queue : list string)
  : list (string * Z) * list string :=
  match fuel, queue with
  | S fuel, node :: queue =>
      let rank := default 0 (alookup node ranks) in
      let '(ranks, queue) := fold_left (visit rank) (successors d node) (ranks, queue) in
      bfs fuel d ranks queue
  | _, _ => (ranks, queue)
  end.

Definition bfs_fuel (d : descriptor) : nat := length (d_states d).

Definition state_ranks (d : descriptor) : list (string * Z) :=
  let ranks := fst (bfs (bfs_fuel d) d [(d_initial d, 0)] [d_initial d]) in
  fold_left (fun rs t => match alookup t rs with Some _ => rs | None => (rs ++ [(t, 10000)])%list end)
    (d_any_state_to d) ranks.

Definition state_rank (n : domain_name) (state : option string) : Z :=
  match state with
  | None => -1
  | Some s => default 10000 (alookup s (state_ranks (domain_descriptor n)))
  end.

Definition halted_action_allowed (action mode : string) : result bool :=
  match alookup (upper mode) permission_matrix with
  | None => Raise (KeyError (upper mode))
  | Some row => match alookup action row with
                | None => Raise (KeyError action)
                | Some b => Ok b
                end
  end.

(** ** Lifecycles *)

(** A lifecycle moves through legal transitions only. *)
Inductive lifecycle (n : domain_name) : string -> string -> Prop :=
  | lifecycle_refl s : lifecycle n s s
  | lifecycle_step s t u :
      lifecycle n s t -> legal_transition n t u = true -> lifecycle n s u.

Definition is_state (n : domain_name) (s : string) : Prop :=
  is_Some (alookup s (d_states (domain_descriptor n))).

Definition terminal (n : domain_name) (s : string) : bool :=
  state_is_terminal (domain_descriptor n) s.

(** A path of explicit edges from the initial state. *)
Inductive path (n : domain_name) : nat -> string -> Prop :=
  | path_nil : path n 0 (d_initial (domain_descriptor n))
  | path_edge k e :
      path n k (e_from e) -> e ∈ d_transitions (domain_descriptor n) -> path n (S k) (e_to e).

(** ** Lemmas *)

Lemma alookup_in {A} k (l : list (string * A)) v : alookup k l = Some v -> (k, v) ∈ l.
Proof.
  induction l as [|[k' v'] l IH]; simpl; [done|].
  destruct (String.eqb k k') eqn:E; intros H; bprop; simplify_eq; [left | right; auto].
Qed.

Lemma alookup_key {A} k (l : list (string * A)) : is_Some (alookup k l) <-> k ∈ map fst l.
Proof.
  induction l as [|[k' v'] l IH]; simpl.
  - split; [intros [? ?]; done | intros H; inversion H].
  - destruct (String.eqb k k') eqn:E; bprop; subst; rewrite elem_of_cons.
    + split; [by left | by eexists].
    + rewrite IH. split; [by right | by intros [?|?]].
Qed.

Lemma legal_refl n s : legal_transition n s s = true.
Proof. unfold legal_transition, legal_in. by rewrite String.eqb_refl. Qed.

Lemma lifecycle_trans n a b c : lifecycle n a b -> lifecycle n b c -> lifecycle n a c.
Proof.
  intros H1 H2. revert H1. induction H2 as [|x y z _ IH L]; intros; [done|].
  eapply lifecycle_step; [by apply IH | done].
Qed.

Lemma lifecycle_one n a b : legal_transition n a b = true -> lifecycle n a b.
Proof. intros. eapply lifecycle_step; [constructor | done]. Qed.

Lemma legal_terminal n s t : legal_transition n s t = true -> terminal n s = true -> t = s.
Proof.
  unfold legal_transition, legal_in, terminal. intros H T. rewrite T in H.
  destruct (String.eqb s t) eqn:E; bprop; [done | done].
Qed.

Definition descriptor_closed (d : descriptor) : bool :=
  forallb (fun e => str_in (e_from e) (map fst (d_states d)) && str_in (e_to e) (map fst (d_states d))
                    && negb (state_is_terminal d (e_from e))) (d_transitions d)
  && forallb (fun t => str_in t (map fst (d_states d))) (d_any_state_to d)
  && forallb (fun p => str_in (snd p) ("self" :: "derive" :: map fst (d_states d))) (d_event_state_map d).

Lemma domain_closed n : descriptor_closed (domain_descriptor n) = true.
Proof. by destruct n. Qed.

Lemma legal_target n s t : is_state n s -> legal_transition n s t = true -> is_state n t.
Proof.
  unfold is_state. rewrite !alookup_key. intros Hs. unfold legal_transition, legal_in.
  pose proof (domain_closed n) as C. unfold descriptor_closed in C.
  apply andb_true_iff in C as [C _]. apply andb_true_iff in C as [C1 C2].
  rewrite forallb_forall in C1, C2.
  destruct (String.eqb s t) eqn:E; bprop; [by subst|]. destruct (state_is_terminal _ _); [done|].
  intros [X|X]%orb_true_iff.
  - apply existsb_exists in X as (e & He & X). bprop.
    specialize (C1 _ He). by bprop; subst.
  - bprop. rewrite list_elem_of_In in X. specialize (C2 _ X). by bprop.
Qed.

(** Every listed edge leads from a ranked state to one at most one further. *)
Lemma edge_ranks n e : e ∈ d_transitions (domain_descriptor n) ->
  state_rank n (Some (e_to e)) <= state_rank n (Some (e_from e)) + 1.
Proof.
  assert (F : forallb (fun e => state_rank n (Some (e_to e)) <=? state_rank n (Some (e_from e)) + 1)
                (d_transitions (domain_descriptor n)) = true)
    by (destruct n; vm_compute; reflexivity).
  intros H%list_elem_of_In. rewrite forallb_forall in F. apply Z.leb_le. by apply F.
Qed.

(** A ranked state is the initial one or has a listed predecessor ranked one less. *)
Definition rank_witness (n : domain_name) (p : string * Z) : bool :=
  (10000 <=? snd p)
  || (String.eqb (fst p) (d_initial (domain_descriptor n)) && (snd p =? 0))
  || existsb (fun e => String.eqb (e_to e) (fst p) && (state_rank n (Some (e_from e)) =? snd p - 1)
                       && (0 <=? snd p - 1))
       (d_transitions (domain_descriptor n)).

Lemma ranks_witnessed n : forallb (rank_witness n) (state_ranks (domain_descriptor n)) = true.
Proof. destruct n; vm_compute; reflexivity. Qed.

Lemma rank_pred n s r : state_rank n (Some s) = r -> r < 10000 ->
  (s = d_initial (domain_descriptor n) /\ r = 0) \/
  exists e, e ∈ d_transitions (domain_descriptor n) /\ e_to e = s
            /\ state_rank n (Some (e_from e)) = r - 1 /\ 0 <= r - 1.
Proof.
  intros H L. pose proof (ranks_witnessed n) as W. rewrite forallb_forall in W.
  unfold state_rank in H. destruct (alookup s _) as [r'|] eqn:E; simpl in H; [|lia]. subst r'.
  apply alookup_in, list_elem_of_In, W in E. unfold rank_witness in E. simpl in E.
  apply orb_true_iff in E as [E|E]; [apply orb_true_iff in E as [E|E]|].
  - bprop. lia.
  - bprop. by left.
  - apply existsb_exists in E as (e & He & E). bprop. right. exists e. by rewrite list_elem_of_In.
Qed.

(** A lifecycle that starts in a state of its descriptor stays inside the
    descriptor, and once it is in a terminal state it never leaves it, whatever
    sequence of transitions [legal_transition] accepts. *)
Theorem lifecycle_sound n s t :
  is_state n s -> lifecycle n s t -> is_state n t /\ (terminal n s = true -> t = s).
Proof.
  intros Hs H. induction H as [|s t u H IH L]; [done|]. destruct (IH Hs) as [Ht T]. split.
  - by eapply legal_target.
  - intros Z. rewrite (T Z) in L. by apply (legal_terminal n).
Qed.

Lemma lifecycle_sound_witness :
  lifecycle Order "accepted" "filled" /\ is_state Order "filled"
  /\ (terminal Order "filled" = true -> forall t, lifecycle Order "filled" t -> t = "filled").
Proof.
  assert (L : lifecycle Order "accepted" "filled").
  { eapply lifecycle_step; [apply lifecycle_refl | reflexivity]. }
  split_and!; [done | |].
  - apply (lifecycle_sound Order "accepted" "filled"); [by eexists | done].
  - intros T t H. apply (lifecycle_sound Order "filled" t); [by eexists | done | done].
Defined.

(** [state_rank] is the breadth-first distance from the initial state: no
    path of explicit edges reaches a state in fewer steps than its rank, and
    every rank below the interrupt rank 10000 is the length of such a path. *)
Theorem state_rank_shortest n s k :
  (path n k s -> state_rank n (Some s) <= Z.of_nat k) /\
  (state_rank n (Some s) = Z.of_nat k -> Z.of_nat k < 10000 -> path n k s).
Proof.
  split.
  - induction 1 as [|k e H IH He]; [by destruct n|]. pose proof (edge_ranks _ _ He). lia.
  - revert s. induction k as [|k IH]; intros s H L;
      destruct (rank_pred _ _ _ H L) as [[-> ?]|(e & He & <- & R & ?)]; try lia; [apply path_nil|].
    apply path_edge; [|done]. apply IH; lia.
Qed.

Lemma state_rank_shortest_witness :
  path Order 4 "filled" /\ ~ path Order 3 "filled".
Proof.
  split.
  - apply state_rank_shortest; [reflexivity | lia].
  - intros H. apply state_rank_shortest in H. vm_compute in H. by apply H.
Defined.

(** The HALTED and REDUCING rows of the permission matrix close every
    opening action and leave the whole reduce-only channel open, in any
    spelling of the mode's case; ACTIVE permits both. *)
Theorem halted_matrix action mode :
  (action ∈ reduce_only_actions -> upper mode ∈ ["ACTIVE"; "REDUCING"; "HALTED"] ->
   halted_action_allowed action mode = Ok true) /\
  (action ∈ opening_actions ->
   halted_action_allowed action mode = Ok true <-> upper mode = "ACTIVE").
Proof.
  unfold halted_action_allowed, reduce_only_actions, opening_actions.
  generalize (upper mode) as m. intros m. split.
  - intros Ha Hm. elim_in Hm; by elim_in Ha.
  - intros Ha. split; [|intros ->; by elim_in Ha].
    unfold permission_matrix, alookup. branches; bprop; elim_in Ha; subst; simplify_eq/=.
Qed.

Lemma halted_matrix_witness :
  halted_action_allowed "close_all" "Halted" = Ok true
  /\ ~ halted_action_allowed "open_position" "reducing" = Ok true.
Proof.
  split; [apply (proj1 (halted_matrix "close_all" "Halted")); by apply str_in_spec |].
  intros H. apply (halted_matrix "open_position" "reducing") in H; [by vm_compute in H | left].
Defined.

Lemma derive_fill q f leaves payload :
  _decimal (quantity_of payload) = Some (XFin q) ->
  _decimal (dget "filled_qty" payload) = Some (XFin f) ->
  _decimal (dget "leaves_qty" payload) = XFin <$> leaves ->
  derive_order_fill_state payload =
    Ok (if from_option (fun l => dleb l dzero) false leaves || dleb q f
        then "filled" else "partially_filled").
Proof.
  unfold derive_order_fill_state. intros -> -> ->.
  destruct leaves as [l|]; cbn [fmap option_fmap option_map from_option]; rewrite ?xleb_fin.
  - unfold mbind, result_bind. by destruct (dleb l dzero), (dleb q f).
  - unfold mbind, result_bind. by destruct (dleb q f).
Qed.
