(* ===== verification/Store.v ===== *)
(** * Store: the PostgreSQL tables and the connection

    The tables the modelled components read and write, one row type per table
    of db/migrations/0001, 0005 and 0011: a finite map where the table has a unique
    key the code looks rows up by, a list in insertion order otherwise.  A
    connection (db/connection.py) is the committed database, the database as
    the open transaction sees it, the supply of [uuid4] values and the clock
    that [now()] and [datetime.now] read.  [transaction] is the context
    manager of db/connection.py.  order_management/db_helpers.py and
    risk_state/risk_state.py are modelled here too, since every reducer
    writes through them. *)

From Stdlib Require Import ZArith Lia Ascii.
From S2P Require Import Prelude Decimal PyString DecText PyValue PyTime.
Open Scope string_scope.
Open Scope Z_scope.

(** ** Rows *)

Record event_row := {
  er_event_id : string;
  er_schema_version : string;
  er_node_id : string;
  er_account_id : string;
  er_intent_id : option string;
  er_client_order_id : option string;
  er_venue_order_id : option string;
  er_trade_id : option string;
  er_event_type : string;
  er_ts_event : Z;
  er_ts_ingest : Z;
  er_payload : dict;
  er_created_at : Z }.

Record order_row := {
  or_order_projection_id : string;
  or_instrument_id : string;
  or_venue_symbol : string;
  or_intent_id : option string;
  or_venue_order_id : option string;
  or_status : string;
  or_side : option string;
  or_order_type : option string;
  or_quantity : option xdec;
  or_filled_quantity : xdec;
  or_price : option xdec;
  or_average_fill_price : option xdec;
  or_lifecycle_role : option string;
  or_updated_from_event_id : string;
  or_ts_event : option Z;
  or_updated_at : Z;
  or_payload : dict }.

Record order_event_row := {
  oe_execution_job_id : option string;
  oe_account_id : string;
  oe_order_projection_id : option string;
  oe_client_order_id : option string;
  oe_venue_order_id : option string;
  oe_event_type : string;
  oe_lifecycle_role : option string;
  oe_position_key : option string;
  oe_ts_event : Z;
  oe_payload : dict }.

Record position_row := {
  po_instrument_id : string;
  po_side : string;
  po_quantity : xdec;
  po_avg_entry_price : option xdec;
  po_mark_price : option xdec;
  po_unrealized_pnl : option xdec;
  po_status : string;
  po_updated_from_event_id : string;
  po_ts_event : option Z;
  po_updated_at : Z;
  po_payload : dict }.

Record protective_row := {
  pr_id : string;
  pr_account_id : string;
  pr_position_key : string;
  pr_venue_symbol : string;
  pr_lifecycle_role : string;
  pr_client_order_id : option string;
  pr_venue_order_id : option string;
  pr_status : string;
  pr_active : bool;
  pr_quantity : option xdec;
  pr_price : option xdec;
  pr_trigger_price : option xdec;
  pr_updated_at : Z;
  pr_payload : dict }.

Record account_row := {
  ac_currency : string;
  ac_equity : xdec;
  ac_margin : xdec;
  ac_available_balance : option xdec;
  ac_last_execution_event_at : option Z;
  ac_projection_lag_ms : Z;
  ac_updated_from_event_id : string;
  ac_updated_at : Z;
  ac_payload : dict }.

Record run_row := {
  rr_id : string;
  rr_account_id : option string;
  rr_status : string;
  rr_reason : string;
  rr_completed_at : option Z;
  rr_payload : dict }.

Record finding_row := {
  fi_id : string;
  fi_run_id : string;
  fi_account_id : string;
  fi_finding_type : string;
  fi_severity : string;
  fi_status : string;
  fi_position_key : option string;
  fi_order_projection_id : option string;
  fi_payload : dict }.

Record command_run_row := {
  cr_id : string;
  cr_command_id : option string;
  cr_node_id : string;
  cr_command_type : string;
  cr_request_id : string;
  cr_idempotency_key : string;
  cr_status : string;
  cr_payload : dict;
  cr_started_at : Z;
  cr_completed_at : option Z;
  cr_created_at : Z }.

Record risk_state_row := {
  rs_exposure_notional : xdec;
  rs_open_risk_fraction : xdec;
  rs_state : dict;
  rs_version : Z;
  rs_updated_at : Z }.

Record intent_row := {
  ti_hermes_decision_id : string;
  ti_risk_decision_id : string;
  ti_account_id : string;
  ti_instrument_id : string;
  ti_action : string;
  ti_status : string;
  ti_order_plan : dict;
  ti_risk_budget : dict;
  ti_target_position_id : option string;
  ti_valid_until : Z;
  ti_idempotency_key : string;
  ti_approved_at : option Z;
  ti_updated_at : Z }.

Record job_row := {
  ej_id : string;
  ej_intent_id : option string;
  ej_account_id : string;
  ej_instrument_id : string;
  ej_venue_symbol : string;
  ej_action : string;
  ej_status : string;
  ej_request_id : option string;
  ej_idempotency_key : string;
  ej_payload : dict;
  ej_created_at : Z;
  ej_updated_at : Z;
  ej_started_at : option Z;
  ej_completed_at : option Z }.

Record reservation_row := {
  rv_id : string;
  rv_execution_job_id : option string;
  rv_account_id : string;
  rv_position_key : option string;
  rv_venue_symbol : string;
  rv_idempotency_key : string;
  rv_status : string;
  rv_notional : xdec;
  rv_risk_amount : xdec;
  rv_margin_amount : xdec;
  rv_expires_at : option Z;
  rv_released_at : option Z;
  rv_payload : dict;
  rv_created_at : Z;
  rv_updated_at : Z }.

Record audit_row := {
  au_event_type : string;
  au_aggregate_type : string;
  au_aggregate_id : string;
  au_actor : option string;
  au_trace_id : option string;
  au_raw_message_id : option string;
  au_intent_id : option string;
  au_payload : dict;
  au_created_at : Z }.

Record outbox_row := {
  ob_id : string;
  ob_status : string;
  ob_aggregate_type : string;
  ob_aggregate_id : string;
  ob_event_type : string;
  ob_payload : dict;
  ob_trace_id : option string;
  ob_attempts : Z;
  ob_next_attempt_at : option Z;
  ob_published_at : option Z;
  ob_failed_at : option Z;
  ob_error : option string;
  ob_created_at : Z }.

Record link_row := {
  ol_id : string;
  ol_account_id : string;
  ol_parent : string;
  ol_child : string;
  ol_link_type : string;
  ol_lifecycle_role : option string;
  ol_position_key : option string;
  ol_payload : dict }.

Record hermes_row := {
  hm_raw_message_id : string;
  hm_processing_run_id : string;
  hm_context_snapshot_id : string;
  hm_schema_version : string;
  hm_message_type : string;
  hm_action : string;
  hm_ambiguous : bool;
  hm_ambiguity_reasons : pyval;
  hm_account_scope : string;
  hm_target_account_id : option string;
  hm_target_position_id : option string;
  hm_instrument_symbol : option string;
  hm_side : option string;
  hm_entry_type : string;
  hm_entry_price : option xdec;
  hm_entry_price_min : option xdec;
  hm_entry_price_max : option xdec;
  hm_stop_loss : option xdec;
  hm_take_profits : list pyval;
  hm_leverage : option xdec;
  hm_valid_until : option Z;
  hm_evidence : pyval;
  hm_model_provider : string;
  hm_model_version : string;
  hm_prompt_version : string;
  hm_temperature : xdec;
  hm_confidence : option xdec;
  hm_created_at : Z }.

Record risk_decision_row := {
  rk_id : string;
  rk_hermes_decision_id : string;
  rk_status : string;
  rk_account_id : string;
  rk_instrument_id : option string;
  rk_risk_budget : dict;
  rk_checks : list pyval;
  rk_reason : string }.

Record raw_message_row := {
  rm_source : string;
  rm_channel_id : string;
  rm_source_message_id : string;
  rm_author_id : option string }.

Record rollout_row := { ro_release_id : string; ro_phase : string; ro_phase_version : Z; ro_created_at : Z }.

(** Keyed by account, venue symbol and source. *)
Record price_feed_row := {
  pf_mark_price : option xdec;
  pf_last_price : option xdec;
  pf_bid_price : option xdec;
  pf_ask_price : option xdec;
  pf_last_event_at : option Z;
  pf_stale : bool;
  pf_payload : dict;
  pf_updated_at : Z }.

(** *** The operator's tables (db/migrations/0003 and 0022) *)

Record operator_command_row := {
  oc_command_type : string;
  oc_scope : dict;
  oc_status : string;
  oc_requested_by : string;
  oc_reason : string;
  oc_idempotency_key : string;
  oc_created_at : Z;
  oc_completed_at : option Z }.

(** Keyed by command and node. *)
Record ack_row := {
  na_status : string;
  na_detail : option string;
  na_result : dict;
  na_ack_at : option Z;
  na_expires_at : option Z;
  na_created_at : Z }.

(** The writer columns of node_heartbeats, keyed by node and account. *)
Record writer_row := {
  wr_redis_fencing_epoch : option string;
  wr_runtime_generation : option string;
  wr_lease_fencing_token : option Z }.

(** Keyed by account, instrument and position side. *)
Record revision_row := { pv_revision : Z; pv_updated_at : Z }.

(** Keyed by account and operation. *)
Record invalidation_row := { iv_instrument_id : string; iv_position_side : string; iv_created_at : Z }.

(** *** The signal queue's tables (db/migrations/0002, 0020 and 0021) *)

(** The source identity of a task: its unique key. *)
Record source_identity := {
  si_source_platform : string;
  si_channel_id : string;
  si_source_message_id : string;
  si_edit_version : string;
  si_account_id : string }.

(** The columns an insert fixes. *)
Record task_origin := {
  to_source : source_identity;
  to_identity_key : string;
  to_action : string;
  to_raw_message_id : string;
  to_related_task_id : option string;
  to_expires_at : option Z;
  to_processing_purpose : string;
  to_created_at : Z }.

(** The columns of the current claim. *)
Record task_claim := {
  tc_processing_run_id : option string;
  tc_attempt : Z;
  tc_claim_token : option string;
  tc_worker_id : option string;
  tc_lease_expires_at : option Z }.

Record task_outcome := {
  tu_status : string;
  tu_disposition : option string;
  tu_disposition_reason : option string;
  tu_shadow_result : dict }.

(** The columns that carry a task to an operator. *)
Record task_execution := {
  te_request : option dict;
  te_context : option dict;
  te_operator_intent_id : option string }.

(** A row of signal_dispatch_tasks, keyed by its task id. *)
Record task_row := {
  st_origin : task_origin;
  st_claim : task_claim;
  st_outcome : task_outcome;
  st_execution : task_execution;
  st_updated_at : Z }.

(** A row of message_processing_runs, keyed by its run id. *)
Record processing_run_row := {
  mr_raw_message_id : string;
  mr_worker_id : option string;
  mr_status : string;
  mr_lease_expires_at : option Z;
  mr_started_at : Z;
  mr_finished_at : option Z;
  mr_error : option string;
  mr_attempt : Z;
  mr_claim_token : option string;
  mr_account_id : option string;
  mr_processing_purpose : string }.

(** A row of order_management_settings. *)
Record settings_row := {
  os_settings : dict;
  os_created_by : string;
  os_reason : string;
  os_request_id : string;
  os_created_at : Z }.

(** A row of order_management_setting_versions. *)
Record setting_version_row := {
  sv_previous_version : option Z;
  sv_settings : dict;
  sv_changed_by : string;
  sv_reason : string;
  sv_request_id : string;
  sv_created_at : Z }.

(** The tables of operator commands, of the signal queue and of settings.
    [active_fencing_epoch] is the active row of redis_fencing_epochs, which a
    unique index makes the only one; [raw_payloads] is the raw_payload column
    of raw_messages, keyed by message id.  The tables of settings are keyed by
    scope, scope key and version, their unique key. *)
Record Desk := {
  operator_commands : gmap string operator_command_row;
  command_node_acks : gmap (string * string) ack_row;
  position_revisions : gmap (string * string * string) revision_row;
  position_revision_invalidations : gmap (string * string) invalidation_row;
  signal_dispatch_tasks : gmap string task_row;
  message_processing_runs : gmap string processing_run_row;
  active_fencing_epoch : option string;
  node_writers : gmap (string * string) writer_row;
  raw_payloads : gmap string dict;
  order_management_settings : gmap (string * string * Z) settings_row;
  order_management_setting_versions : gmap (string * string * Z) setting_version_row }.

Definition empty_desk : Desk := {|
  operator_commands := ∅;
  command_node_acks := ∅;
  position_revisions := ∅;
  position_revision_invalidations := ∅;
  signal_dispatch_tasks := ∅;
  message_processing_runs := ∅;
  active_fencing_epoch := None;
  node_writers := ∅;
  raw_payloads := ∅;
  order_management_settings := ∅;
  order_management_setting_versions := ∅ |}.

(** ** The database *)

Record Db := {
  execution_events : gmap string event_row;
  orders_projection : gmap (string * string) order_row;
  order_events : gmap string order_event_row;
  positions_projection : gmap (string * string) position_row;
  protective_orders : list protective_row;
  accounts_projection : gmap string account_row;
  reconciliation_runs : list run_row;
  reconciliation_findings : list finding_row;
  node_command_runs : list command_run_row;
  risk_state : gmap (string * string) risk_state_row;
  trade_intents : gmap string intent_row;
  execution_jobs : list job_row;
  risk_reservations : list reservation_row;
  audit_events : list audit_row;
  order_links : list link_row;
  outbox_events : list outbox_row;
  hermes_decisions : gmap string hermes_row;
  risk_decisions : list risk_decision_row;
  raw_messages : gmap string raw_message_row;
  reviewed_release_rollouts : list rollout_row;
  node_heartbeats : gmap string Z;
  price_feed_status : gmap (string * string * string) price_feed_row;
  desk : Desk }.

Definition empty_db : Db := {|
  execution_events := ∅;
  orders_projection := ∅;
  order_events := ∅;
  positions_projection := ∅;
  protective_orders := [];
  accounts_projection := ∅;
  reconciliation_runs := [];
  reconciliation_findings := [];
  node_command_runs := [];
  risk_state := ∅;
  trade_intents := ∅;
  execution_jobs := [];
  risk_reservations := [];
  audit_events := [];
  order_links := [];
  outbox_events := [];
  hermes_decisions := ∅;
  risk_decisions := [];
  raw_messages := ∅;
  reviewed_release_rollouts := [];
  node_heartbeats := ∅;
  price_feed_status := ∅;
  desk := empty_desk |}.

(** One setter per table. *)

Definition set_execution_events (f : gmap string event_row -> gmap string event_row) (d : Db) : Db := {|
  execution_events := f (execution_events d);
  orders_projection := orders_projection d;
  order_events := order_events d;
  positions_projection := positions_projection d;
  protective_orders := protective_orders d;
  accounts_projection := accounts_projection d;
  reconciliation_runs := reconciliation_runs d;
  reconciliation_findings := reconciliation_findings d;
  node_command_runs := node_command_runs d;
  risk_state := risk_state d;
  trade_intents := trade_intents d;
  execution_jobs := execution_jobs d;
  risk_reservations := risk_reservations d;
  audit_events := audit_events d;
  order_links := order_links d;
  outbox_events := outbox_events d;
  hermes_decisions := hermes_decisions d;
  risk_decisions := risk_decisions d;
  raw_messages := raw_messages d;
  reviewed_release_rollouts := reviewed_release_rollouts d;
  node_heartbeats := node_heartbeats d;
  price_feed_status := price_feed_status d;
  desk := desk d |}.

Definition set_orders_projection (f : gmap (string * string) order_row -> gmap (string * string) order_row) (d : Db) : Db := {|
  execution_events := execution_events d;
  orders_projection := f (orders_projection d);
  order_events := order_events d;
  positions_projection := positions_projection d;
  protective_orders := protective_orders d;
  accounts_projection := accounts_projection d;
  reconciliation_runs := reconciliation_runs d;
  reconciliation_findings := reconciliation_findings d;
  node_command_runs := node_command_runs d;
  risk_state := risk_state d;
  trade_intents := trade_intents d;
  execution_jobs := execution_jobs d;
  risk_reservations := risk_reservations d;
  audit_events := audit_events d;
  order_links := order_links d;
  outbox_events := outbox_events d;
  hermes_decisions := hermes_decisions d;
  risk_decisions := risk_decisions d;
  raw_messages := raw_messages d;
  reviewed_release_rollouts := reviewed_release_rollouts d;
  node_heartbeats := node_heartbeats d;
  price_feed_status := price_feed_status d;
  desk := desk d |}.

Definition set_order_events (f : gmap string order_event_row -> gmap string order_event_row) (d : Db) : Db := {|
  execution_events := execution_events d;
  orders_projection := orders_projection d;
  order_events := f (order_events d);
  positions_projection := positions_projection d;
  protective_orders := protective_orders d;
  accounts_projection := accounts_projection d;
  reconciliation_runs := reconciliation_runs d;
  reconciliation_findings := reconciliation_findings d;
  node_command_runs := node_command_runs d;
  risk_state := risk_state d;
  trade_intents := trade_intents d;
  execution_jobs := execution_jobs d;
  risk_reservations := risk_reservations d;
  audit_events := audit_events d;
  order_links := order_links d;
  outbox_events := outbox_events d;
  hermes_decisions := hermes_decisions d;
  risk_decisions := risk_decisions d;
  raw_messages := raw_messages d;
  reviewed_release_rollouts := reviewed_release_rollouts d;
  node_heartbeats := node_heartbeats d;
  price_feed_status := price_feed_status d;
  desk := desk d |}.

Definition set_positions_projection (f : gmap (string * string) position_row -> gmap (string * string) position_row) (d : Db) : Db := {|
  execution_events := execution_events d;
  orders_projection := orders_projection d;
  order_events := order_events d;
  positions_projection := f (positions_projection d);
  protective_orders := protective_orders d;
  accounts_projection := accounts_projection d;
  reconciliation_runs := reconciliation_runs d;
  reconciliation_findings := reconciliation_findings d;
  node_command_runs := node_command_runs d;
  risk_state := risk_state d;
  trade_intents := trade_intents d;
  execution_jobs := execution_jobs d;
  risk_reservations := risk_reservations d;
  audit_events := audit_events d;
  order_links := order_links d;
  outbox_events := outbox_events d;
  hermes_decisions := hermes_decisions d;
  risk_decisions := risk_decisions d;
  raw_messages := raw_messages d;
  reviewed_release_rollouts := reviewed_release_rollouts d;
  node_heartbeats := node_heartbeats d;
  price_feed_status := price_feed_status d;
  desk := desk d |}.

Definition set_protective_orders (f : list protective_row -> list protective_row) (d : Db) : Db := {|
  execution_events := execution_events d;
  orders_projection := orders_projection d;
  order_events := order_events d;
  positions_projection := positions_projection d;
  protective_orders := f (protective_orders d);
  accounts_projection := accounts_projection d;
  reconciliation_runs := reconciliation_runs d;
  reconciliation_findings := reconciliation_findings d;
  node_command_runs := node_command_runs d;
  risk_state := risk_state d;
  trade_intents := trade_intents d;
  execution_jobs := execution_jobs d;
  risk_reservations := risk_reservations d;
  audit_events := audit_events d;
  order_links := order_links d;
  outbox_events := outbox_events d;
  hermes_decisions := hermes_decisions d;
  risk_decisions := risk_decisions d;
  raw_messages := raw_messages d;
  reviewed_release_rollouts := reviewed_release_rollouts d;
  node_heartbeats := node_heartbeats d;
  price_feed_status := price_feed_status d;
  desk := desk d |}.

Definition set_accounts_projection (f : gmap string account_row -> gmap string account_row) (d : Db) : Db := {|
  execution_events := execution_events d;
  orders_projection := orders_projection d;
  order_events := order_events d;
  positions_projection := positions_projection d;
  protective_orders := protective_orders d;
  accounts_projection := f (accounts_projection d);
  reconciliation_runs := reconciliation_runs d;
  reconciliation_findings := reconciliation_findings d;
  node_command_runs := node_command_runs d;
  risk_state := risk_state d;
  trade_intents := trade_intents d;
  execution_jobs := execution_jobs d;
  risk_reservations := risk_reservations d;
  audit_events := audit_events d;
  order_links := order_links d;
  outbox_events := outbox_events d;
  hermes_decisions := hermes_decisions d;
  risk_decisions := risk_decisions d;
  raw_messages := raw_messages d;
  reviewed_release_rollouts := reviewed_release_rollouts d;
  node_heartbeats := node_heartbeats d;
  price_feed_status := price_feed_status d;
  desk := desk d |}.

Definition set_reconciliation_runs (f : list run_row -> list run_row) (d : Db) : Db := {|
  execution_events := execution_events d;
  orders_projection := orders_projection d;
  order_events := order_events d;
  positions_projection := positions_projection d;
  protective_orders := protective_orders d;
  accounts_projection := accounts_projection d;
  reconciliation_runs := f (reconciliation_runs d);
  reconciliation_findings := reconciliation_findings d;
  node_command_runs := node_command_runs d;
  risk_state := risk_state d;
  trade_intents := trade_intents d;
  execution_jobs := execution_jobs d;
  risk_reservations := risk_reservations d;
  audit_events := audit_events d;
  order_links := order_links d;
  outbox_events := outbox_events d;
  hermes_decisions := hermes_decisions d;
  risk_decisions := risk_decisions d;
  raw_messages := raw_messages d;
  reviewed_release_rollouts := reviewed_release_rollouts d;
  node_heartbeats := node_heartbeats d;
  price_feed_status := price_feed_status d;
  desk := desk d |}.

Definition set_reconciliation_findings (f : list finding_row -> list finding_row) (d : Db) : Db := {|
  execution_events := execution_events d;
  orders_projection := orders_projection d;
  order_events := order_events d;
  positions_projection := positions_projection d;
  protective_orders := protective_orders d;
  accounts_projection := accounts_projection d;
  reconciliation_runs := reconciliation_runs d;
  reconciliation_findings := f (reconciliation_findings d);
  node_command_runs := node_command_runs d;
  risk_state := risk_state d;
  trade_intents := trade_intents d;
  execution_jobs := execution_jobs d;
  risk_reservations := risk_reservations d;
  audit_events := audit_events d;
  order_links := order_links d;
  outbox_events := outbox_events d;
  hermes_decisions := hermes_decisions d;
  risk_decisions := risk_decisions d;
  raw_messages := raw_messages d;
  reviewed_release_rollouts := reviewed_release_rollouts d;
  node_heartbeats := node_heartbeats d;
  price_feed_status := price_feed_status d;
  desk := desk d |}.

Definition set_node_command_runs (f : list command_run_row -> list command_run_row) (d : Db) : Db := {|
  execution_events := execution_events d;
  orders_projection := orders_projection d;
  order_events := order_events d;
  positions_projection := positions_projection d;
  protective_orders := protective_orders d;
  accounts_projection := accounts_projection d;
  reconciliation_runs := reconciliation_runs d;
  reconciliation_findings := reconciliation_findings d;
  node_command_runs := f (node_command_runs d);
  risk_state := risk_state d;
  trade_intents := trade_intents d;
  execution_jobs := execution_jobs d;
  risk_reservations := risk_reservations d;
  audit_events := audit_events d;
  order_links := order_links d;
  outbox_events := outbox_events d;
  hermes_decisions := hermes_decisions d;
  risk_decisions := risk_decisions d;
  raw_messages := raw_messages d;
  reviewed_release_rollouts := reviewed_release_rollouts d;
  node_heartbeats := node_heartbeats d;
  price_feed_status := price_feed_status d;
  desk := desk d |}.

Definition set_risk_state (f : gmap (string * string) risk_state_row -> gmap (string * string) risk_state_row) (d : Db) : Db := {|
  execution_events := execution_events d;
  orders_projection := orders_projection d;
  order_events := order_events d;
  positions_projection := positions_projection d;
  protective_orders := protective_orders d;
  accounts_projection := accounts_projection d;
  reconciliation_runs := reconciliation_runs d;
  reconciliation_findings := reconciliation_findings d;
  node_command_runs := node_command_runs d;
  risk_state := f (risk_state d);
  trade_intents := trade_intents d;
  execution_jobs := execution_jobs d;
  risk_reservations := risk_reservations d;
  audit_events := audit_events d;
  order_links := order_links d;
  outbox_events := outbox_events d;
  hermes_decisions := hermes_decisions d;
  risk_decisions := risk_decisions d;
  raw_messages := raw_messages d;
  reviewed_release_rollouts := reviewed_release_rollouts d;
  node_heartbeats := node_heartbeats d;
  price_feed_status := price_feed_status d;
  desk := desk d |}.

Definition set_trade_intents (f : gmap string intent_row -> gmap string intent_row) (d : Db) : Db := {|
  execution_events := execution_events d;
  orders_projection := orders_projection d;
  order_events := order_events d;
  positions_projection := positions_projection d;
  protective_orders := protective_orders d;
  accounts_projection := accounts_projection d;
  reconciliation_runs := reconciliation_runs d;
  reconciliation_findings := reconciliation_findings d;
  node_command_runs := node_command_runs d;
  risk_state := risk_state d;
  trade_intents := f (trade_intents d);
  execution_jobs := execution_jobs d;
  risk_reservations := risk_reservations d;
  audit_events := audit_events d;
  order_links := order_links d;
  outbox_events := outbox_events d;
  hermes_decisions := hermes_decisions d;
  risk_decisions := risk_decisions d;
  raw_messages := raw_messages d;
  reviewed_release_rollouts := reviewed_release_rollouts d;
  node_heartbeats := node_heartbeats d;
  price_feed_status := price_feed_status d;
  desk := desk d |}.

Definition set_execution_jobs (f : list job_row -> list job_row) (d : Db) : Db := {|
  execution_events := execution_events d;
  orders_projection := orders_projection d;
  order_events := order_events d;
  positions_projection := positions_projection d;
  protective_orders := protective_orders d;
  accounts_projection := accounts_projection d;
  reconciliation_runs := reconciliation_runs d;
  reconciliation_findings := reconciliation_findings d;
  node_command_runs := node_command_runs d;
  risk_state := risk_state d;
  trade_intents := trade_intents d;
  execution_jobs := f (execution_jobs d);
  risk_reservations := risk_reservations d;
  audit_events := audit_events d;
  order_links := order_links d;
  outbox_events := outbox_events d;
  hermes_decisions := hermes_decisions d;
  risk_decisions := risk_decisions d;
  raw_messages := raw_messages d;
  reviewed_release_rollouts := reviewed_release_rollouts d;
  node_heartbeats := node_heartbeats d;
  price_feed_status := price_feed_status d;
  desk := desk d |}.

Definition set_risk_reservations (f : list reservation_row -> list reservation_row) (d : Db) : Db := {|
  execution_events := execution_events d;
  orders_projection := orders_projection d;
  order_events := order_events d;
  positions_projection := positions_projection d;
  protective_orders := protective_orders d;
  accounts_projection := accounts_projection d;
  reconciliation_runs := reconciliation_runs d;
  reconciliation_findings := reconciliation_findings d;
  node_command_runs := node_command_runs d;
  risk_state := risk_state d;
  trade_intents := trade_intents d;
  execution_jobs := execution_jobs d;
  risk_reservations := f (risk_reservations d);
  audit_events := audit_events d;
  order_links := order_links d;
  outbox_events := outbox_events d;
  hermes_decisions := hermes_decisions d;
  risk_decisions := risk_decisions d;
  raw_messages := raw_messages d;
  reviewed_release_rollouts := reviewed_release_rollouts d;
  node_heartbeats := node_heartbeats d;
  price_feed_status := price_feed_status d;
  desk := desk d |}.

Definition set_audit_events (f : list audit_row -> list audit_row) (d : Db) : Db := {|
  execution_events := execution_events d;
  orders_projection := orders_projection d;
  order_events := order_events d;
  positions_projection := positions_projection d;
  protective_orders := protective_orders d;
  accounts_projection := accounts_projection d;
  reconciliation_runs := reconciliation_runs d;
  reconciliation_findings := reconciliation_findings d;
  node_command_runs := node_command_runs d;
  risk_state := risk_state d;
  trade_intents := trade_intents d;
  execution_jobs := execution_jobs d;
  risk_reservations := risk_reservations d;
  audit_events := f (audit_events d);
  order_links := order_links d;
  outbox_events := outbox_events d;
  hermes_decisions := hermes_decisions d;
  risk_decisions := risk_decisions d;
  raw_messages := raw_messages d;
  reviewed_release_rollouts := reviewed_release_rollouts d;
  node_heartbeats := node_heartbeats d;
  price_feed_status := price_feed_status d;
  desk := desk d |}.

Definition set_order_links (f : list link_row -> list link_row) (d : Db) : Db := {|
  execution_events := execution_events d;
  orders_projection := orders_projection d;
  order_events := order_events d;
  positions_projection := positions_projection d;
  protective_orders := protective_orders d;
  accounts_projection := accounts_projection d;
  reconciliation_runs := reconciliation_runs d;
  reconciliation_findings := reconciliation_findings d;
  node_command_runs := node_command_runs d;
  risk_state := risk_state d;
  trade_intents := trade_intents d;
  execution_jobs := execution_jobs d;
  risk_reservations := risk_reservations d;
  audit_events := audit_events d;
  order_links := f (order_links d);
  outbox_events := outbox_events d;
  hermes_decisions := hermes_decisions d;
  risk_decisions := risk_decisions d;
  raw_messages := raw_messages d;
  reviewed_release_rollouts := reviewed_release_rollouts d;
  node_heartbeats := node_heartbeats d;
  price_feed_status := price_feed_status d;
  desk := desk d |}.

Definition set_outbox_events (f : list outbox_row -> list outbox_row) (d : Db) : Db := {|
  execution_events := execution_events d;
  orders_projection := orders_projection d;
  order_events := order_events d;
  positions_projection := positions_projection d;
  protective_orders := protective_orders d;
  accounts_projection := accounts_projection d;
  reconciliation_runs := reconciliation_runs d;
  reconciliation_findings := reconciliation_findings d;
  node_command_runs := node_command_runs d;
  risk_state := risk_state d;
  trade_intents := trade_intents d;
  execution_jobs := execution_jobs d;
  risk_reservations := risk_reservations d;
  audit_events := audit_events d;
  order_links := order_links d;
  outbox_events := f (outbox_events d);
  hermes_decisions := hermes_decisions d;
  risk_decisions := risk_decisions d;
  raw_messages := raw_messages d;
  reviewed_release_rollouts := reviewed_release_rollouts d;
  node_heartbeats := node_heartbeats d;
  price_feed_status := price_feed_status d;
  desk := desk d |}.

Definition set_hermes_decisions (f : gmap string hermes_row -> gmap string hermes_row) (d : Db) : Db := {|
  execution_events := execution_events d;
  orders_projection := orders_projection d;
  order_events := order_events d;
  positions_projection := positions_projection d;
  protective_orders := protective_orders d;
  accounts_projection := accounts_projection d;
  reconciliation_runs := reconciliation_runs d;
  reconciliation_findings := reconciliation_findings d;
  node_command_runs := node_command_runs d;
  risk_state := risk_state d;
  trade_intents := trade_intents d;
  execution_jobs := execution_jobs d;
  risk_reservations := risk_reservations d;
  audit_events := audit_events d;
  order_links := order_links d;
  outbox_events := outbox_events d;
  hermes_decisions := f (hermes_decisions d);
  risk_decisions := risk_decisions d;
  raw_messages := raw_messages d;
  reviewed_release_rollouts := reviewed_release_rollouts d;
  node_heartbeats := node_heartbeats d;
  price_feed_status := price_feed_status d;
  desk := desk d |}.

Definition set_risk_decisions (f : list risk_decision_row -> list risk_decision_row) (d : Db) : Db := {|
  execution_events := execution_events d;
  orders_projection := orders_projection d;
  order_events := order_events d;
  positions_projection := positions_projection d;
  protective_orders := protective_orders d;
  accounts_projection := accounts_projection d;
  reconciliation_runs := reconciliation_runs d;
  reconciliation_findings := reconciliation_findings d;
  node_command_runs := node_command_runs d;
  risk_state := risk_state d;
  trade_intents := trade_intents d;
  execution_jobs := execution_jobs d;
  risk_reservations := risk_reservations d;
  audit_events := audit_events d;
  order_links := order_links d;
  outbox_events := outbox_events d;
  hermes_decisions := hermes_decisions d;
  risk_decisions := f (risk_decisions d);
  raw_messages := raw_messages d;
  reviewed_release_rollouts := reviewed_release_rollouts d;
  node_heartbeats := node_heartbeats d;
  price_feed_status := price_feed_status d;
  desk := desk d |}.

Definition set_raw_messages (f : gmap string raw_message_row -> gmap string raw_message_row) (d : Db) : Db := {|
  execution_events := execution_events d;
  orders_projection := orders_projection d;
  order_events := order_events d;
  positions_projection := positions_projection d;
  protective_orders := protective_orders d;
  accounts_projection := accounts_projection d;
  reconciliation_runs := reconciliation_runs d;
  reconciliation_findings := reconciliation_findings d;
  node_command_runs := node_command_runs d;
  risk_state := risk_state d;
  trade_intents := trade_intents d;
  execution_jobs := execution_jobs d;
  risk_reservations := risk_reservations d;
  audit_events := audit_events d;
  order_links := order_links d;
  outbox_events := outbox_events d;
  hermes_decisions := hermes_decisions d;
  risk_decisions := risk_decisions d;
  raw_messages := f (raw_messages d);
  reviewed_release_rollouts := reviewed_release_rollouts d;
  node_heartbeats := node_heartbeats d;
  price_feed_status := price_feed_status d;
  desk := desk d |}.

Definition set_reviewed_release_rollouts (f : list rollout_row -> list rollout_row) (d : Db) : Db := {|
  execution_events := execution_events d;
  orders_projection := orders_projection d;
  order_events := order_events d;
  positions_projection := positions_projection d;
  protective_orders := protective_orders d;
  accounts_projection := accounts_projection d;
  reconciliation_runs := reconciliation_runs d;
  reconciliation_findings := reconciliation_findings d;
  node_command_runs := node_command_runs d;
  risk_state := risk_state d;
  trade_intents := trade_intents d;
  execution_jobs := execution_jobs d;
  risk_reservations := risk_reservations d;
  audit_events := audit_events d;
  order_links := order_links d;
  outbox_events := outbox_events d;
  hermes_decisions := hermes_decisions d;
  risk_decisions := risk_decisions d;
  raw_messages := raw_messages d;
  reviewed_release_rollouts := f (reviewed_release_rollouts d);
  node_heartbeats := node_heartbeats d;
  price_feed_status := price_feed_status d;
  desk := desk d |}.

Definition set_node_heartbeats (f : gmap string Z -> gmap string Z) (d : Db) : Db := {|
  execution_events := execution_events d;
  orders_projection := orders_projection d;
  order_events := order_events d;
  positions_projection := positions_projection d;
  protective_orders := protective_orders d;
  accounts_projection := accounts_projection d;
  reconciliation_runs := reconciliation_runs d;
  reconciliation_findings := reconciliation_findings d;
  node_command_runs := node_command_runs d;
  risk_state := risk_state d;
  trade_intents := trade_intents d;
  execution_jobs := execution_jobs d;
  risk_reservations := risk_reservations d;
  audit_events := audit_events d;
  order_links := order_links d;
  outbox_events := outbox_events d;
  hermes_decisions := hermes_decisions d;
  risk_decisions := risk_decisions d;
  raw_messages := raw_messages d;
  reviewed_release_rollouts := reviewed_release_rollouts d;
  node_heartbeats := f (node_heartbeats d);
  price_feed_status := price_feed_status d;
  desk := desk d |}.

Definition set_price_feed_status (f : gmap (string * string * string) price_feed_row -> gmap (string * string * string) price_feed_row) (d : Db) : Db := {|
  execution_events := execution_events d;
  orders_projection := orders_projection d;
  order_events := order_events d;
  positions_projection := positions_projection d;
  protective_orders := protective_orders d;
  accounts_projection := accounts_projection d;
  reconciliation_runs := reconciliation_runs d;
  reconciliation_findings := reconciliation_findings d;
  node_command_runs := node_command_runs d;
  risk_state := risk_state d;
  trade_intents := trade_intents d;
  execution_jobs := execution_jobs d;
  risk_reservations := risk_reservations d;
  audit_events := audit_events d;
  order_links := order_links d;
  outbox_events := outbox_events d;
  hermes_decisions := hermes_decisions d;
  risk_decisions := risk_decisions d;
  raw_messages := raw_messages d;
  reviewed_release_rollouts := reviewed_release_rollouts d;
  node_heartbeats := node_heartbeats d;
  price_feed_status := f (price_feed_status d);
  desk := desk d |}.

Definition set_desk (f : Desk -> Desk) (d : Db) : Db := {|
  execution_events := execution_events d;
  orders_projection := orders_projection d;
  order_events := order_events d;
  positions_projection := positions_projection d;
  protective_orders := protective_orders d;
  accounts_projection := accounts_projection d;
  reconciliation_runs := reconciliation_runs d;
  reconciliation_findings := reconciliation_findings d;
  node_command_runs := node_command_runs d;
  risk_state := risk_state d;
  trade_intents := trade_intents d;
  execution_jobs := execution_jobs d;
  risk_reservations := risk_reservations d;
  audit_events := audit_events d;
  order_links := order_links d;
  outbox_events := outbox_events d;
  hermes_decisions := hermes_decisions d;
  risk_decisions := risk_decisions d;
  raw_messages := raw_messages d;
  reviewed_release_rollouts := reviewed_release_rollouts d;
  node_heartbeats := node_heartbeats d;
  price_feed_status := price_feed_status d;
  desk := f (desk d) |}.

Definition set_operator_commands (f : gmap string operator_command_row -> gmap string operator_command_row) : Db -> Db := set_desk (fun k => {|
  operator_commands := f (operator_commands k);
  command_node_acks := command_node_acks k;
  position_revisions := position_revisions k;
  position_revision_invalidations := position_revision_invalidations k;
  signal_dispatch_tasks := signal_dispatch_tasks k;
  message_processing_runs := message_processing_runs k;
  active_fencing_epoch := active_fencing_epoch k;
  node_writers := node_writers k;
  raw_payloads := raw_payloads k;
  order_management_settings := order_management_settings k;
  order_management_setting_versions := order_management_setting_versions k |}).

Definition set_command_node_acks (f : gmap (string * string) ack_row -> gmap (string * string) ack_row) : Db -> Db := set_desk (fun k => {|
  operator_commands := operator_commands k;
  command_node_acks := f (command_node_acks k);
  position_revisions := position_revisions k;
  position_revision_invalidations := position_revision_invalidations k;
  signal_dispatch_tasks := signal_dispatch_tasks k;
  message_processing_runs := message_processing_runs k;
  active_fencing_epoch := active_fencing_epoch k;
  node_writers := node_writers k;
  raw_payloads := raw_payloads k;
  order_management_settings := order_management_settings k;
  order_management_setting_versions := order_management_setting_versions k |}).

Definition set_position_revisions (f : gmap (string * string * string) revision_row -> gmap (string * string * string) revision_row) : Db -> Db := set_desk (fun k => {|
  operator_commands := operator_commands k;
  command_node_acks := command_node_acks k;
  position_revisions := f (position_revisions k);
  position_revision_invalidations := position_revision_invalidations k;
  signal_dispatch_tasks := signal_dispatch_tasks k;
  message_processing_runs := message_processing_runs k;
  active_fencing_epoch := active_fencing_epoch k;
  node_writers := node_writers k;
  raw_payloads := raw_payloads k;
  order_management_settings := order_management_settings k;
  order_management_setting_versions := order_management_setting_versions k |}).

Definition set_position_revision_invalidations (f : gmap (string * string) invalidation_row -> gmap (string * string) invalidation_row) : Db -> Db := set_desk (fun k => {|
  operator_commands := operator_commands k;
  command_node_acks := command_node_acks k;
  position_revisions := position_revisions k;
  position_revision_invalidations := f (position_revision_invalidations k);
  signal_dispatch_tasks := signal_dispatch_tasks k;
  message_processing_runs := message_processing_runs k;
  active_fencing_epoch := active_fencing_epoch k;
  node_writers := node_writers k;
  raw_payloads := raw_payloads k;
  order_management_settings := order_management_settings k;
  order_management_setting_versions := order_management_setting_versions k |}).

Definition set_signal_dispatch_tasks (f : gmap string task_row -> gmap string task_row) : Db -> Db := set_desk (fun k => {|
  operator_commands := operator_commands k;
  command_node_acks := command_node_acks k;
  position_revisions := position_revisions k;
  position_revision_invalidations := position_revision_invalidations k;
  signal_dispatch_tasks := f (signal_dispatch_tasks k);
  message_processing_runs := message_processing_runs k;
  active_fencing_epoch := active_fencing_epoch k;
  node_writers := node_writers k;
  raw_payloads := raw_payloads k;
  order_management_settings := order_management_settings k;
  order_management_setting_versions := order_management_setting_versions k |}).

Definition set_message_processing_runs (f : gmap string processing_run_row -> gmap string processing_run_row) : Db -> Db := set_desk (fun k => {|
  operator_commands := operator_commands k;
  command_node_acks := command_node_acks k;
  position_revisions := position_revisions k;
  position_revision_invalidations := position_revision_invalidations k;
  signal_dispatch_tasks := signal_dispatch_tasks k;
  message_processing_runs := f (message_processing_runs k);
  active_fencing_epoch := active_fencing_epoch k;
  node_writers := node_writers k;
  raw_payloads := raw_payloads k;
  order_management_settings := order_management_settings k;
  order_management_setting_versions := order_management_setting_versions k |}).

Definition set_order_management_settings (f : gmap (string * string * Z) settings_row -> gmap (string * string * Z) settings_row) : Db -> Db := set_desk (fun k => {|
  operator_commands := operator_commands k;
  command_node_acks := command_node_acks k;
  position_revisions := position_revisions k;
  position_revision_invalidations := position_revision_invalidations k;
  signal_dispatch_tasks := signal_dispatch_tasks k;
  message_processing_runs := message_processing_runs k;
  active_fencing_epoch := active_fencing_epoch k;
  node_writers := node_writers k;
  raw_payloads := raw_payloads k;
  order_management_settings := f (order_management_settings k);
  order_management_setting_versions := order_management_setting_versions k |}).

Definition set_order_management_setting_versions (f : gmap (string * string * Z) setting_version_row -> gmap (string * string * Z) setting_version_row) : Db -> Db := set_desk (fun k => {|
  operator_commands := operator_commands k;
  command_node_acks := command_node_acks k;
  position_revisions := position_revisions k;
  position_revision_invalidations := position_revision_invalidations k;
  signal_dispatch_tasks := signal_dispatch_tasks k;
  message_processing_runs := message_processing_runs k;
  active_fencing_epoch := active_fencing_epoch k;
  node_writers := node_writers k;
  raw_payloads := raw_payloads k;
  order_management_settings := order_management_settings k;
  order_management_setting_versions := f (order_management_setting_versions k) |}).


(** ** The connection *)

Record Conn := { committed : Db; current : Db; uuids : Z; clock : Z }.

Definition connect (d : Db) (now : Z) : Conn :=
  {| committed := d; current := d; uuids := 0; clock := now |}.

Definition commit (s : Conn) : Conn :=
  {| committed := current s; current := current s; uuids := uuids s; clock := clock s |}.

Definition rollback (s : Conn) : Conn :=
  {| committed := committed s; current := committed s; uuids := uuids s; clock := clock s |}.

(** [with transaction(conn): m] *)
Definition transaction {A} (m : M Conn A) : M Conn A := fun s =>
  match m s with
  | (Ok a, s') => (Ok a, commit s')
  | (Raise e, s') => (Raise e, rollback s')
  end.

(** [transaction(conn) if manage_transaction else nullcontext(conn)] *)
Definition tx_scope {A} (manage_transaction : bool) (m : M Conn A) : M Conn A :=
  if manage_transaction then transaction m else m.

Definition select {A} (f : Db -> A) : M Conn A := fun s => (Ok (f (current s)), s).

Definition execute (f : Db -> Db) : M Conn unit := fun s =>
  (Ok tt, {| committed := committed s; current := f (current s); uuids := uuids s; clock := clock s |}).

Definition get_now : M Conn Z := fun s => (Ok (clock s), s).

(** [str(uuid4())]: a value never drawn before. *)
Definition uuid4 : M Conn string := fun s =>
  (Ok ("uuid-" +:+ int_str (uuids s)),
   {| committed := committed s; current := current s; uuids := uuids s + 1; clock := clock s |}).

(** A violated CHECK constraint. *)
Definition check_violation (name : string) : exn := RuntimeError "CheckViolation" name.

Definition check (b : bool) (name : string) : M Conn unit :=
  if b then mret tt else mraise (check_violation name).

(** ** order_management/db_helpers.py *)

Definition decimal_or_none (v : pyval) : option xdec :=
  match v with
  | PNone => None
  | PStr "" => None
  | v => to_xdec v
  end.

Definition str_or (a b : option string) : option string :=
  match a with
  | Some s => if is_empty s then b else Some s
  | None => b
  end.

(** The JSON envelope of an execution event. *)
Record event := {
  ev_event_id : string;
  ev_event_type : string;
  ev_schema_version : option string;
  ev_node_id : option string;
  ev_account_id : option string;
  ev_intent_id : option string;
  ev_execution_job_id : option string;
  ev_client_order_id : option string;
  ev_venue_order_id : option string;
  ev_trade_id : option string;
  ev_instrument_id : option string;
  ev_ts_event : timestamp;
  ev_ts_ingest : timestamp;
  ev_payload : dict }.

(** [INSERT ... ON CONFLICT (event_id) DO NOTHING], the event's account
    already canonical. *)
Definition ensure_execution_event (ev : event) (account_id : string) : M Conn unit :=
  _ ← uuid4;
  now ← get_now;
  ts_event ← mlift (ensure_aware now (ev_ts_event ev));
  ts_ingest ← mlift (ensure_aware now (ev_ts_ingest ev));
  let row := {|
    er_event_id := ev_event_id ev;
    er_schema_version := default "1.0" (ev_schema_version ev);
    er_node_id := default "unknown" (ev_node_id ev);
    er_account_id := account_id;
    er_intent_id := ev_intent_id ev;
    er_client_order_id := ev_client_order_id ev;
    er_venue_order_id := ev_venue_order_id ev;
    er_trade_id := ev_trade_id ev;
    er_event_type := ev_event_type ev;
    er_ts_event := ts_event;
    er_ts_ingest := ts_ingest;
    er_payload := ev_payload ev;
    er_created_at := now |} in
  _ ← check (String.eqb (er_schema_version row) "1.0") "ck_execution_events_schema_version";
  execute (set_execution_events (fun t =>
    match t !! ev_event_id ev with Some _ => t | None => <[ev_event_id ev := row]> t end)).

Definition create_reconciliation_run (account_id : option string) (status reason : string)
    (payload : dict) (completed : bool) : M Conn string :=
  run_id ← uuid4;
  now ← get_now;
  _ ← execute (set_reconciliation_runs (fun t => (t ++ [{|
        rr_id := run_id; rr_account_id := account_id; rr_status := status; rr_reason := reason;
        rr_completed_at := if completed then Some now else None; rr_payload := payload |}])%list));
  mret run_id.

Definition update_reconciliation_run (run_id status : string) (payload : dict) : M Conn unit :=
  now ← get_now;
  execute (set_reconciliation_runs (map (fun r =>
    if String.eqb (rr_id r) run_id then
      {| rr_id := rr_id r; rr_account_id := rr_account_id r; rr_status := status;
         rr_reason := rr_reason r; rr_completed_at := Some now;
         rr_payload := dupdate (rr_payload r) payload |}
    else r))).

(** The finding's [status] column is the literal 'open'. *)
Definition record_reconciliation_finding (account_id finding_type severity : string)
    (payload : dict) (position_key order_projection_id reconciliation_run_id : option string)
    (run_reason : string) : M Conn finding_row :=
  run_id ← match str_or reconciliation_run_id None with
           | Some run_id => mret run_id
           | None => create_reconciliation_run (Some account_id) "failed" run_reason
                       [("source", PStr finding_type)] true
           end;
  finding_id ← uuid4;
  let finding := {|
    fi_id := finding_id; fi_run_id := run_id; fi_account_id := account_id;
    fi_finding_type := finding_type; fi_severity := severity; fi_status := "open";
    fi_position_key := position_key; fi_order_projection_id := order_projection_id;
    fi_payload := payload |} in
  _ ← execute (set_reconciliation_findings (fun t => (t ++ [finding])%list));
  mret finding.

(** ** risk_state/risk_state.py *)

Definition VALID_MODES : list string := ["ACTIVE"; "REDUCING"; "HALTED"].

Definition set_mode (account_id instrument_id mode : string) : M Conn unit :=
  if negb (str_in mode VALID_MODES) then mraise (ValueError "invalid risk mode")
  else
    _ ← uuid4;
    now ← get_now;
    execute (set_risk_state (fun t =>
      <[(account_id, instrument_id) :=
          match t !! (account_id, instrument_id) with
          | None => {| rs_exposure_notional := XFin dzero; rs_open_risk_fraction := XFin dzero;
                       rs_state := [("mode", PStr mode)]; rs_version := 1; rs_updated_at := now |}
          | Some r => {| rs_exposure_notional := rs_exposure_notional r; rs_open_risk_fraction := rs_open_risk_fraction r;
                         rs_state := dset "mode" (PStr mode) (rs_state r);
                         rs_version := rs_version r + 1; rs_updated_at := now |}
          end]> t)).

(** The mode a database holds: [row[0] if row and row[0] else "ACTIVE"]. *)
Definition mode_in (d : Db) (account_id instrument_id : string) : string :=
  match risk_state d !! (account_id, instrument_id) with
  | Some r => match dget "mode" (rs_state r) with
              | PStr m => if is_empty m then "ACTIVE" else m
              | PNone => "ACTIVE"
              | v => py_str v
              end
  | None => "ACTIVE"
  end.

Definition get_mode (account_id instrument_id : string) : M Conn string :=
  select (fun d => mode_in d account_id instrument_id).

(** ** Lemmas *)

Lemma transaction_ok {A} (m : M Conn A) s a s' :
  m s = (Ok a, s') -> transaction m s = (Ok a, commit s').
Proof. unfold transaction. by intros ->. Qed.

Lemma transaction_raise {A} (m : M Conn A) s e s' :
  m s = (Raise e, s') -> transaction m s = (Raise e, rollback s').
Proof. unfold transaction. by intros ->. Qed.

Lemma transaction_inv_ok {A} (m : M Conn A) s a s'' :
  transaction m s = (Ok a, s'') -> exists s', m s = (Ok a, s') /\ s'' = commit s'.
Proof. unfold transaction. destruct (m s) as [[b|e] s'] eqn:E; intros; simplify_eq. eauto. Qed.

(** Nothing but [commit] and [rollback] changes the committed database. *)
Definition keeps_committed {A} (m : M Conn A) : Prop :=
  forall s, committed (snd (m s)) = committed s.

Lemma keeps_ret {A} (a : A) : keeps_committed (mret a).
Proof. done. Qed.
Lemma keeps_raise {A} e : keeps_committed (@mraise _ A e).
Proof. done. Qed.
Lemma keeps_lift {A} (r : result A) : keeps_committed (mlift r).
Proof. done. Qed.
Lemma keeps_select {A} (f : Db -> A) : keeps_committed (select f).
Proof. done. Qed.
Lemma keeps_execute f : keeps_committed (execute f).
Proof. done. Qed.
Lemma keeps_now : keeps_committed get_now.
Proof. done. Qed.
Lemma keeps_uuid4 : keeps_committed uuid4.
Proof. done. Qed.
Lemma keeps_check b n : keeps_committed (check b n).
Proof. by destruct b. Qed.

Lemma keeps_bind {A B} (m : M Conn A) (k : A -> M Conn B) :
  keeps_committed m -> (forall a, keeps_committed (k a)) -> keeps_committed (m ≫= k).
Proof.
  intros Hm Hk s. unfold mbind, M_bind. specialize (Hm s).
  destruct (m s) as [[a|e] s'] eqn:E; simpl in *; [|done]. by rewrite Hk.
Qed.

Lemma keeps_mfor {A} (xs : list A) body :
  (forall x, keeps_committed (body x)) -> keeps_committed (mfor xs body).
Proof. intros H. induction xs as [|x xs IH]; simpl; [apply keeps_ret | by apply keeps_bind]. Qed.

Create HintDb keeps discriminated.
#[export] Hint Resolve keeps_ret keeps_raise keeps_lift keeps_select keeps_execute keeps_now
  keeps_uuid4 keeps_check keeps_bind keeps_mfor : keeps.

(** Prove [keeps_committed] of a composed operation. *)
Ltac keeps :=
  repeat first
    [ match goal with |- forall _, _ => intro end
    | match goal with |- keeps_committed (_ ≫= _) => apply keeps_bind end
    | solve [auto with keeps]
    | match goal with |- keeps_committed (mfor _ _) => apply keeps_mfor end
    | progress cbn beta
    | case_match ].

Lemma keeps_ensure_execution_event ev a : keeps_committed (ensure_execution_event ev a).
Proof. unfold ensure_execution_event. keeps. Qed.

Lemma keeps_record_finding a t sv p pk op rr reason :
  keeps_committed (record_reconciliation_finding a t sv p pk op rr reason).
Proof. unfold record_reconciliation_finding, create_reconciliation_run. keeps. Qed.

Lemma keeps_set_mode a i m : keeps_committed (set_mode a i m).
Proof. unfold set_mode. keeps. Qed.

#[export] Hint Resolve keeps_ensure_execution_event keeps_record_finding keeps_set_mode : keeps.

(** A preorder that every step of an operation respects, the operation
    respects: frames and monotone quantities. *)
Definition within {S A} (R : S -> S -> Prop) (m : M S A) : Prop := forall s, R s (snd (m s)).

Section within.
Context {S : Type} (R : S -> S -> Prop) `{!PreOrder R}.

Lemma within_ret {A} (a : A) : within R (mret a).
Proof. intros s. reflexivity. Qed.
Lemma within_raise {A} e : within R (@mraise S A e).
Proof. intros s. reflexivity. Qed.
Lemma within_lift {A} (r : result A) : within R (mlift r).
Proof. intros s. reflexivity. Qed.
Lemma within_bind {A B} (m : M S A) (k : A -> M S B) :
  within R m -> (forall a, within R (k a)) -> within R (m ≫= k).
Proof.
  intros Hm Hk s. unfold mbind, M_bind. specialize (Hm s). destruct (m s) as [[a|e] s'] eqn:E; simpl in *; [|done].
  etransitivity; [exact Hm | apply Hk].
Qed.
Lemma within_mfor {A} (xs : list A) body : (forall x, within R (body x)) -> within R (mfor xs body).
Proof. intros H. induction xs as [|x xs IH]; [apply within_ret | by apply within_bind]. Qed.
Lemma within_ok {A} (m : M S A) s a s' : within R m -> m s = (Ok a, s') -> R s s'.
Proof. intros H E. specialize (H s). by rewrite E in H. Qed.
End within.

Section within_conn.
Context (R : Conn -> Conn -> Prop) `{!PreOrder R}.

Lemma within_select {A} (f : Db -> A) : within R (select f).
Proof. intros s. reflexivity. Qed.
Lemma within_now : within R get_now.
Proof. intros s. reflexivity. Qed.
Lemma within_check b n : within R (check b n).
Proof. intros s. by destruct b. Qed.
End within_conn.

#[export] Hint Resolve within_ret within_raise within_lift within_select within_now within_check : keeps.

(** Prove [within] of a composed operation, up to its writes. *)
Ltac within :=
  repeat first
    [ match goal with |- forall _, _ => intro end
    | match goal with |- within _ (_ ≫= _) => apply within_bind; [apply _|..] end
    | match goal with |- within _ (mfor _ _) => apply within_mfor; [apply _|] end
    | solve [auto with keeps typeclass_instances]
    | progress cbn beta
    | case_match ].

Lemma int_str_inj a b : int_str a = int_str b -> a = b.
Proof.
  assert (N : forall x y, 0 <= y -> "-" +:+ digits_of x = digits_of y -> False).
  { intros x y Hy E. pose proof (digits_of_digits y Hy) as D. by rewrite <- E in D. }
  unfold int_str. destruct (Z.ltb_spec a 0) as [A|A], (Z.ltb_spec b 0) as [B|B]; intros E.
  - injection E as E. change (digits_of (Z.abs a) = digits_of (Z.abs b)) in E. apply (f_equal (num_of 0)) in E. rewrite !digits_of_num in E by lia. lia.
  - exfalso. apply (N (Z.abs a) (Z.abs b)); [lia | exact E].
  - exfalso. apply (N (Z.abs b) (Z.abs a)); [lia | by symmetry].
  - rewrite !sapp_nil_l in E. apply (f_equal (num_of 0)) in E. rewrite !digits_of_num in E by lia. lia.
Qed.

Lemma uuid_inj a b : "uuid-" +:+ int_str a = "uuid-" +:+ int_str b -> a = b.
Proof. intros E. injection E as E. by apply int_str_inj. Qed.

(** Ids are only drawn, and nothing is committed. *)
Definition aged (s s' : Conn) : Prop := committed s' = committed s /\ uuids s <= uuids s'.

#[export] Instance aged_preorder : PreOrder aged.
Proof. split; [intros s; split; [done | lia]|]. intros s s1 s2 [A B] [C D]. split; [congruence | lia]. Qed.

Lemma aged_execute f : within aged (execute f).
Proof. intros s. split; [done | cbn; lia]. Qed.
Lemma aged_uuid4 : within aged uuid4.
Proof. intros s. split; [done | cbn; lia]. Qed.

#[export] Hint Resolve aged_execute aged_uuid4 : keeps.

(** Outside a transaction the connection sees what is committed. *)
Definition idle (c : Conn) : Prop := current c = committed c.

Lemma transaction_idle {A} (m : M Conn A) c : idle (snd (transaction m c)).
Proof. unfold transaction. by destruct (m c) as [[?|?] ?]. Qed.

Lemma transaction_undone {A} (m : M Conn A) c e c' :
  within aged m -> idle c -> transaction m c = (Raise e, c') -> current c' = current c /\ uuids c <= uuids c'.
Proof.
  intros W I. unfold transaction. specialize (W c). destruct (m c) as [[a|e'] s] eqn:E; [done|].
  intros [= -> <-]. destruct W as [C U]. cbn. split; [|done]. by rewrite I, <- C.
Qed.

(** An operation inside one transaction is all or nothing: when it raises, the
    committed database is what it was, and so is what the connection sees. *)
Lemma transaction_atomic {A} (m : M Conn A) s e s' :
  keeps_committed m -> transaction m s = (Raise e, s') ->
  committed s' = committed s /\ current s' = committed s.
Proof.
  intros K. unfold transaction. specialize (K s). destruct (m s) as [[a|e'] s1]; intros; simplify_eq/=.
  by rewrite K.
Qed.

Lemma set_mode_get a i m s :
  str_in m VALID_MODES = true ->
  exists s', set_mode a i m s = (Ok tt, s') /\ mode_in (current s') a i = m
             /\ (forall a' i', (a', i') <> (a, i) -> mode_in (current s') a' i' = mode_in (current s) a' i').
Proof.
  intros V. unfold set_mode. rewrite V. cbn. eexists. split; [done|]. unfold mode_in. cbn.
  rewrite lookup_insert_eq. split.
  - assert (E : m <> "") by (intros ->; done).
    destruct (risk_state (current s) !! (a, i)) as [r|]; cbn [rs_state];
      rewrite ?dget_dset_eq; cbn; (destruct m; [done | done]).
  - intros a' i' N. by rewrite lookup_insert_ne by congruence.
Qed.

(** ** Inverting a run that returned *)

Lemma rbind_inv_ok {A B} (m : result A) (k : A -> result B) b :
  (m ≫= k) = Ok b -> exists a, m = Ok a /\ k a = Ok b.
Proof. destruct m as [a|e]; [eauto | done]. Qed.

Lemma mlift_inv {S A} (r : result A) (s : S) a s' :
  mlift r s = (Ok a, s') -> r = Ok a /\ s' = s.
Proof. unfold mlift. intros H. by simplify_eq. Qed.

Lemma select_inv {A} (f : Db -> A) s a s' : select f s = (Ok a, s') -> a = f (current s) /\ s' = s.
Proof. unfold select. intros H. by simplify_eq. Qed.

Lemma get_now_inv s a s' : get_now s = (Ok a, s') -> a = clock s /\ s' = s.
Proof. unfold get_now. intros H. by simplify_eq. Qed.

Lemma check_inv b n s u s' : check b n s = (Ok u, s') -> b = true /\ s' = s.
Proof. unfold check. destruct b; intros H; inversion H; by subst. Qed.

Lemma execute_inv f s u s' : execute f s = (Ok u, s') -> current s' = f (current s) /\ clock s' = clock s.
Proof. unfold execute. intros H. by simplify_eq. Qed.

Lemma uuid4_inv s a s' : uuid4 s = (Ok a, s') -> current s' = current s /\ clock s' = clock s.
Proof. unfold uuid4. intros H. by simplify_eq. Qed.

Lemma mret_inv {S A} (a b : A) (s s' : S) : (mret a : M S A) s = (Ok b, s') -> a = b /\ s = s'.
Proof. intros H. by inversion H. Qed.

(** Take a run apart into the runs of its steps. *)
Ltac run_inv :=
  repeat match goal with
  | H : (_ ≫= _) _ = (Ok _, _) |- _ =>
      let x := fresh "x" in let s := fresh "s" in let Hm := fresh "Hm" in
      apply mbind_inv_ok in H as (x & s & Hm & H)
  | H : (_ ≫= _) = Ok _ |- _ =>
      let x := fresh "x" in let Hr := fresh "Hr" in
      apply rbind_inv_ok in H as (x & Hr & H)
  | H : mlift _ _ = (Ok _, _) |- _ => apply mlift_inv in H as [H ->]
  | H : select _ _ = (Ok _, _) |- _ => apply select_inv in H as [-> ->]
  | H : get_now _ = (Ok _, _) |- _ => apply get_now_inv in H as [-> ->]
  | H : check _ _ _ = (Ok _, _) |- _ => apply check_inv in H as [H ->]
  | H : execute _ _ = (Ok _, _) |- _ =>
      let Hc := fresh "Hcur" in let Ht := fresh "Hclk" in apply execute_inv in H as [Hc Ht]
  | H : uuid4 _ = (Ok _, _) |- _ =>
      let Hc := fresh "Hcur" in let Ht := fresh "Hclk" in apply uuid4_inv in H as [Hc Ht]
  | H : mret _ _ = (Ok _, _) |- _ => apply mret_inv in H as [? ?]; subst
  | H : Ok _ = Ok _ |- _ => apply ok_inj in H; subst
  | H : Raise _ = Ok _ |- _ => discriminate H
  | H : mraise _ _ = (Ok _, _) |- _ => discriminate H
  | H : (let '(_, _) := ?p in _) _ = (Ok _, _) |- _ => destruct p
  | H : (_, _) = (_, _) |- _ => injection H as ? ?; subst
  end.

(** Rewrite the databases of a run back to the one it started from. *)
Ltac run_frame :=
  repeat (match goal with H : current ?s = _ |- context [current ?s] => rewrite H end; cbn).
