(* ===== verification/OrderReducer.v ===== *)
(** * OrderReducer: the orders projection

    Models order_management/order_reducer.py: how one execution event updates
    the projected order it belongs to, how fills accumulate over redelivered
    and out-of-order events, and which transitions are refused. *)

From Stdlib Require Import ZArith Lia Ascii QArith.
From S2P Require Import Prelude Decimal PyString DecText PyValue PyTime Store Identifiers StateDescriptor.
Open Scope string_scope.
Open Scope Z_scope.

(** ** Definitions *)

(** [OrderApplyResult] *)
Record OrderApplyResult := {
  oar_event_id : string;
  oar_status : option string;
  oar_applied : bool;
  oar_duplicate : bool;
  oar_anomaly : option finding_row }.

(** An event after [_normalize_event]. *)
Record normalized_event := {
  ne_event : event;
  ne_account_id : string;
  ne_client_order_id : string;
  ne_ts_event : Z }.

Definition ne_payload (n : normalized_event) : dict := ev_payload (ne_event n).
Definition ne_event_id (n : normalized_event) : string := ev_event_id (ne_event n).
Definition ne_event_type (n : normalized_event) : string := ev_event_type (ne_event n).

Definition with_payload (p : dict) (ev : event) : event := {|
  ev_event_id := ev_event_id ev; ev_event_type := ev_event_type ev;
  ev_schema_version := ev_schema_version ev; ev_node_id := ev_node_id ev;
  ev_account_id := ev_account_id ev; ev_intent_id := ev_intent_id ev;
  ev_execution_job_id := ev_execution_job_id ev;
  ev_client_order_id := ev_client_order_id ev; ev_venue_order_id := ev_venue_order_id ev;
  ev_trade_id := ev_trade_id ev; ev_instrument_id := ev_instrument_id ev;
  ev_ts_event := ev_ts_event ev; ev_ts_ingest := ev_ts_ingest ev; ev_payload := p |}.

Definition with_order_id (id : string) (t : Z) (ev : event) : event := {|
  ev_event_id := ev_event_id ev; ev_event_type := ev_event_type ev;
  ev_schema_version := ev_schema_version ev; ev_node_id := ev_node_id ev;
  ev_account_id := ev_account_id ev; ev_intent_id := ev_intent_id ev;
  ev_execution_job_id := ev_execution_job_id ev;
  ev_client_order_id := Some id; ev_venue_order_id := ev_venue_order_id ev;
  ev_trade_id := ev_trade_id ev; ev_instrument_id := ev_instrument_id ev;
  ev_ts_event := TsTime (utc t); ev_ts_ingest := ev_ts_ingest ev; ev_payload := ev_payload ev |}.

Definition ne_with_payload (p : dict) (n : normalized_event) : normalized_event := {|
  ne_event := with_payload p (ne_event n); ne_account_id := ne_account_id n;
  ne_client_order_id := ne_client_order_id n; ne_ts_event := ne_ts_event n |}.

(** [x or default] on optional text. *)
Definition str_default (a : option string) (d : string) : string :=
  match a with Some s => if is_empty s then d else s | None => d end.

Definition nonempty (a : option string) : option string :=
  match a with Some s => if is_empty s then None else Some s | None => None end.

Definition event_client_order_id (ev : event) (payload : dict) : string :=
  match nonempty (ev_client_order_id ev) with
  | Some id => id
  | None =>
      if truthy (dget "client_order_id" payload) then py_str (dget "client_order_id" payload)
      else match nonempty (ev_venue_order_id ev) with
           | Some v => "venue:" +:+ v
           | None => "event:" +:+ ev_event_id ev
           end
  end.

Definition event_payload (ev : event) : dict :=
  match nonempty (ev_instrument_id ev) with
  | Some i => if dmem "instrument_id" (ev_payload ev) then ev_payload ev
              else dset "instrument_id" (PStr i) (ev_payload ev)
  | None => ev_payload ev
  end.

(** [_normalize_event] *)
Definition normalize_event (now : Z) (ev : event) : result normalized_event :=
  account_id ← canonical_account_id (ev_account_id ev);
  let payload := event_payload ev in
  let client_order_id := event_client_order_id ev (ev_payload ev) in
  ts_event ← ensure_aware now (ev_ts_event ev);
  Ok {| ne_event := with_payload payload (with_order_id client_order_id ts_event ev);
        ne_account_id := account_id;
        ne_client_order_id := client_order_id;
        ne_ts_event := ts_event |}.

Definition order_event_seen (event_id : string) : M Conn bool :=
  select (fun d => match order_events d !! event_id with Some _ => true | None => false end).

Definition fetch_order (account_id client_order_id : string) : M Conn (option order_row) :=
  select (fun d => orders_projection d !! (account_id, client_order_id)).

(** [_side] *)
Definition side_of (payload : dict) : option string :=
  let raw := lower (py_str (py_or (py_or (dget "side" payload) (dget "order_side" payload)) (PStr ""))) in
  if str_in raw ["buy"; "long"] then Some "long"
  else if str_in raw ["sell"; "short"] then Some "short"
  else None.

(** [_explicit_target] *)
Definition explicit_target (payload : dict) : option string :=
  match dget "target_status" payload with
  | PNone => None
  | v => let target := py_str v in
         if str_in target (map fst (d_states (domain_descriptor Order))) then Some target else None
  end.

(** *** Fills *)

Definition fill_leb (a b : event_row) : bool :=
  (er_ts_event a <? er_ts_event b)
  || ((er_ts_event a =? er_ts_event b) && String.leb (er_event_id a) (er_event_id b)).

Fixpoint insert_fill (r : event_row) (l : list event_row) : list event_row :=
  match l with
  | [] => [r]
  | r' :: l' => if fill_leb r r' then r :: l else r' :: insert_fill r l'
  end.

(** The rows of the [SELECT ... ORDER BY ts_event, event_id]. *)
Definition fill_events (d : Db) (account_id client_order_id : string) : list event_row :=
  foldr insert_fill []
    (List.filter (fun r =>
        String.eqb (er_account_id r) account_id
        && (match er_client_order_id r with Some c => String.eqb c client_order_id | None => false end)
        && String.eqb (er_event_type r) "OrderFilled")
      (map snd (map_to_list (execution_events d)))).

(** The loop variables of [_fill_payload]. *)
Record fills := {
  f_total : dec;
  f_delta_total : dec;
  f_value_total : dec;
  f_priced_total : dec;
  f_seen : list (string * string);
  f_group_time : option Z;
  f_anchor : dec;
  f_averages : list (dec * dec) }.

Definition fills0 : fills := {|
  f_total := dzero; f_delta_total := dzero; f_value_total := dzero; f_priced_total := dzero;
  f_seen := []; f_group_time := None; f_anchor := dzero; f_averages := [] |}.

(** The check of one of [cumulative], [delta], [price]. *)
Definition fill_number (x : option xdec) : result (option dec) :=
  match x with
  | None => Ok None
  | Some (XFin d) =>
      if dltb d dzero
      then Raise (ValueError "venue fill quantities and prices must be finite and nonnegative")
      else Ok (Some d)
  | Some _ => Raise (ValueError "venue fill quantities and prices must be finite and nonnegative")
  end.

Definition fill_fields (raw : dict) : dict :=
  match dget "order" raw with
  | PDict o => dupdate raw o
  | _ => raw
  end.

Definition pair_in (p : string * string) (l : list (string * string)) : bool :=
  existsb (fun q => String.eqb (fst p) (fst q) && String.eqb (snd p) (snd q)) l.

Definition average_of (payload : dict) : option dec :=
  match decimal_or_none (py_or (dget "avg_px" payload) (dget "average_fill_price" payload)) with
  | Some (XFin a) => if dleb dzero a then Some a else None
  | _ => None
  end.

Definition fill_step (f : fills) (r : event_row) : result fills :=
  let fresh_group := negb (bool_decide (f_group_time f = Some (er_ts_event r))) in
  let total := if fresh_group then dmax (f_total f) (f_anchor f) else f_total f in
  let anchor := if fresh_group then dzero else f_anchor f in
  let payload := fill_fields (er_payload r) in
  cumulative ← fill_number (decimal_or_none (dget "filled_qty" payload));
  delta ← fill_number (decimal_or_none (dget "last_qty" payload));
  price ← fill_number (decimal_or_none (dget "last_px" payload));
  let identity := match nonempty (er_trade_id r) with
                  | Some t => ("trade", t)
                  | None => ("event", er_event_id r)
                  end in
  let duplicate := pair_in identity (f_seen f) in
  let has_cumulative := from_option (fun c => dltb dzero c) false cumulative in
  let cum := default dzero cumulative in
  let counted := negb duplicate && (match delta with Some _ => true | None => false end) in
  let dl := default dzero delta in
  let priced := counted && (match price with Some _ => true | None => false end) in
  Ok {|
    f_total := if has_cumulative then total
               else if counted then dadd total dl else total;
    f_delta_total := if counted then dadd (f_delta_total f) dl else f_delta_total f;
    f_value_total := if priced then dadd (f_value_total f) (dmul dl (default dzero price))
                     else f_value_total f;
    f_priced_total := if priced then dadd (f_priced_total f) dl else f_priced_total f;
    f_seen := identity :: f_seen f;
    f_group_time := Some (er_ts_event r);
    f_anchor := if has_cumulative then dmax anchor cum else anchor;
    f_averages := match (if has_cumulative then average_of payload else None) with
                  | Some a => (f_averages f ++ [(cum, a)])%list
                  | None => f_averages f
                  end |}.

(** The fill total and the average price the events of one order justify. *)
Definition fill_total (f : fills) : dec := dmax (f_total f) (f_anchor f).

(** What [_fill_payload] does once the rows are read. *)
Definition fill_payload_of (rows : list event_row) (payload : dict) (cur : option order_row)
  : result dict :=
  f ← foldR fill_step fills0 rows;
  total ← match cur with
          | Some row => xmax (XFin (fill_total f)) (or_filled_quantity row)
          | None => Ok (XFin (fill_total f))
          end;
  let payload :=
    match cur with
    | Some row =>
        if is_none (dget "quantity" payload) && is_none (dget "qty" payload) then
          match or_quantity row with
          | Some q => dset "quantity" (PStr (xdec_str q)) payload
          | None => payload
          end
        else payload
    | None => payload
    end in
  let payload := dset "filled_qty" (PStr (xdec_str total)) payload in
  let payload := dset "avg_px" PNone payload in
  let payload := fold_left (fun p ca =>
      if xeqb (XFin (fst ca)) total then dset "avg_px" (PStr (dec_str (snd ca))) p else p)
      (f_averages f) payload in
  positive ← xltb (XFin dzero) total;
  if (positive : bool) && deqb (f_priced_total f) (f_delta_total f)
     && xeqb (XFin (f_delta_total f)) total
  then
    match total with
    | XFin t => a ← ddiv (f_value_total f) t; Ok (dset "avg_px" (PStr (dec_str a)) payload)
    | _ => Ok payload
    end
  else Ok payload.

Definition fill_payload (n : normalized_event) (cur : option order_row) : M Conn dict :=
  rows ← select (fun d => fill_events d (ne_account_id n) (ne_client_order_id n));
  mlift (fill_payload_of rows (ne_payload n) cur).

(** *** Writing the projection *)

(** A text parameter bound to a column. *)
Definition text_col (v : pyval) : result (option string) :=
  match v with
  | PNone => Ok None
  | PBool b => Ok (Some (if b then "true" else "false"))
  | PList _ => Raise (RuntimeError "DatatypeMismatch" "text[]")
  | PDict _ => Raise (RuntimeError "ProgrammingError" "can't adapt type 'dict'")
  | v => Ok (Some (py_str v))
  end.

Definition num_col (v : pyval) : option xdec := pg_numeric <$> decimal_or_none v.

Definition xor_else (a : option xdec) (b : xdec) : xdec :=
  match a with Some x => if xtrue x then x else b | None => b end.

(** The row the INSERT proposes (EXCLUDED). *)
Definition proposed_row (n : normalized_event) (id status : string) (cur : option order_row)
    (now : Z) : result order_row :=
  let payload := ne_payload n in
  let instrument_id := py_str (py_or (dget "instrument_id" payload) (PStr "UNKNOWN")) in
  let known := from_option or_filled_quantity (XFin dzero) cur in
  order_type ← text_col (dget "order_type" payload);
  lifecycle_role ← text_col (dget "lifecycle_role" payload);
  Ok {|
    or_order_projection_id := id;
    or_instrument_id := instrument_id;
    or_venue_symbol := canonical_instrument_key instrument_id;
    or_intent_id := ev_intent_id (ne_event n);
    or_venue_order_id := ev_venue_order_id (ne_event n);
    or_status := status;
    or_side := side_of payload;
    or_order_type := order_type;
    or_quantity := num_col (quantity_of payload);
    or_filled_quantity :=
      pg_numeric (xor_else (decimal_or_none (dget "filled_qty" payload))
                           (if xtrue known then known else XFin dzero));
    or_price := num_col (dget "price" payload);
    or_average_fill_price :=
      num_col (py_or (dget "avg_px" payload) (dget "average_fill_price" payload));
    or_lifecycle_role := lifecycle_role;
    or_updated_from_event_id := ne_event_id n;
    or_ts_event := Some (ne_ts_event n);
    or_updated_at := now;
    or_payload := payload |}.

Definition zgreatest (a b : option Z) : option Z :=
  match a, b with
  | Some x, Some y => Some (Z.max x y)
  | Some x, None | None, Some x => Some x
  | None, None => None
  end.

(** DO UPDATE SET ... *)
Definition merge_row (old ex : order_row) (has_avg : bool) : order_row := {|
  or_order_projection_id := or_order_projection_id old;
  or_instrument_id := or_instrument_id ex;
  or_venue_symbol := or_venue_symbol ex;
  or_intent_id := coalesce (or_intent_id ex) (or_intent_id old);
  or_venue_order_id := coalesce (or_venue_order_id ex) (or_venue_order_id old);
  or_status := or_status ex;
  or_side := coalesce (or_side ex) (or_side old);
  or_order_type := coalesce (or_order_type ex) (or_order_type old);
  or_quantity := coalesce (or_quantity ex) (or_quantity old);
  or_filled_quantity := pg_greatest (or_filled_quantity ex) (or_filled_quantity old);
  or_price := coalesce (or_price ex) (or_price old);
  or_average_fill_price := if has_avg then or_average_fill_price ex
                           else coalesce (or_average_fill_price ex) (or_average_fill_price old);
  or_lifecycle_role := coalesce (or_lifecycle_role ex) (or_lifecycle_role old);
  or_updated_from_event_id := or_updated_from_event_id ex;
  or_ts_event := zgreatest (or_ts_event ex) (or_ts_event old);
  or_updated_at := or_updated_at ex;
  or_payload := dupdate (or_payload old) (or_payload ex) |}.

(** The CHECK constraints of orders_projection. *)
Definition order_checks (r : order_row) : bool :=
  from_option (pg_leb (XFin dzero)) true (or_quantity r) && pg_leb (XFin dzero) (or_filled_quantity r).

Definition upsert_order_projection (n : normalized_event) (id status : string)
    (cur : option order_row) : M Conn string :=
  now ← get_now;
  ex ← mlift (proposed_row n id status cur now);
  let key := (ne_account_id n, ne_client_order_id n) in
  _ ← check (order_checks ex) "ck_orders_projection";
  conflict ← select (fun d => orders_projection d !! key);
  let row := match conflict with
             | Some old => merge_row old ex (dmem "avg_px" (ne_payload n))
             | None => ex
             end in
  _ ← check (order_checks row) "ck_orders_projection";
  _ ← execute (set_orders_projection (<[key := row]>));
  mret (or_order_projection_id row).

Definition insert_order_event (n : normalized_event) (order_projection_id : option string)
  : M Conn unit :=
  _ ← uuid4;
  lifecycle_role ← mlift (text_col (dget "lifecycle_role" (ne_payload n)));
  position_key ← mlift (text_col (dget "position_key" (ne_payload n)));
  let row := {|
    oe_execution_job_id := ev_execution_job_id (ne_event n);
    oe_account_id := ne_account_id n;
    oe_order_projection_id := order_projection_id;
    oe_client_order_id := Some (ne_client_order_id n);
    oe_venue_order_id := ev_venue_order_id (ne_event n);
    oe_event_type := ne_event_type n;
    oe_lifecycle_role := lifecycle_role;
    oe_position_key := position_key;
    oe_ts_event := ne_ts_event n;
    oe_payload := ne_payload n |} in
  execute (set_order_events (fun t =>
    match t !! ne_event_id n with Some _ => t | None => <[ne_event_id n := row]> t end)).

(** *** The handler *)

(** The state the event asks for, before the stale and legality checks. *)
Definition requested_target (n : normalized_event) (cur : option order_row) (has_fills : bool)
  : result string :=
  let current_status := or_status <$> cur in
  mapped ← event_target Order (ne_event_type n) (ne_payload n) None;
  let target :=
    match mapped with
    | Some t => t
    | None =>
        match transition_target Order current_status (ne_event_type n) with
        | Some t => t
        | None => str_default (explicit_target (ne_payload n)) "lost"
        end
    end in
  let target := if String.eqb target "self" then default "submitted" current_status else target in
  if has_fills : bool then
    fill_state ← event_target Order "OrderFilled" (ne_payload n) None;
    Ok (if bool_decide (fill_state = Some "filled")
           && from_option (fun s => legal_transition Order s "filled") true current_status
        then "filled" else target)
  else Ok target.

(** What becomes of the event once its target is known: write the projection
    with a status, ignore it as a stale backfill, or record an anomaly. *)
Inductive verdict := Write (status : string) | Stale | Illegal.

Definition judge (n : normalized_event) (cur : option order_row) (has_fills : bool) (target : string)
  : verdict :=
  match cur with
  | None => Write target
  | Some row =>
      let status := or_status row in
      if String.eqb target status then Write target
      else
        let stale_backfill :=
          (match or_ts_event row with Some ts => ne_ts_event n <? ts | None => false end)
          && (state_rank Order (Some target) <=? state_rank Order (Some status))
          && negb (has_fills && String.eqb target "filled") in
        if stale_backfill && negb has_fills then Stale
        else
          let target := if stale_backfill then status else target in
          if legal_transition Order status target then Write target
          else if has_fills then Write status else Illegal
  end.

Definition result_of (n : normalized_event) (status : option string) (applied : bool)
    (duplicate : bool) (anomaly : option finding_row) : OrderApplyResult :=
  {| oar_event_id := ne_event_id n; oar_status := status; oar_applied := applied;
     oar_duplicate := duplicate; oar_anomaly := anomaly |}.

Definition apply_body (n : normalized_event) : M Conn OrderApplyResult :=
  seen ← order_event_seen (ne_event_id n);
  if seen : bool then
    cur ← fetch_order (ne_account_id n) (ne_client_order_id n);
    mret (result_of n (or_status <$> cur) false true None)
  else
    _ ← ensure_execution_event (ne_event n) (ne_account_id n);
    cur ← fetch_order (ne_account_id n) (ne_client_order_id n);
    let has_fills := String.eqb (ne_event_type n) "OrderFilled"
                     || from_option (fun r => xtrue (or_filled_quantity r)) false cur in
    n ← (if has_fills : bool
         then payload ← fill_payload n cur; mret (ne_with_payload payload n)
         else mret n);
    target ← mlift (requested_target n cur has_fills);
    match judge n cur has_fills target with
    | Stale =>
        _ ← insert_order_event n (or_order_projection_id <$> cur);
        mret (result_of n (or_status <$> cur) false false None)
    | Illegal =>
        let current_status := default "" (or_status <$> cur) in
        finding ← record_reconciliation_finding (ne_account_id n) "illegal_order_transition" "error"
          [("event_id", PStr (ne_event_id n)); ("event_type", PStr (ne_event_type n));
           ("from_status", PStr current_status); ("to_status", PStr target);
           ("client_order_id", PStr (ne_client_order_id n))]
          None (or_order_projection_id <$> cur) None "projection_anomaly";
        _ ← insert_order_event n (or_order_projection_id <$> cur);
        mret (result_of n (or_status <$> cur) false false (Some finding))
    | Write status =>
        candidate ← match cur with
                    | Some row => mret (or_order_projection_id row)
                    | None => uuid4
                    end;
        id ← upsert_order_projection n candidate status cur;
        _ ← insert_order_event n (Some id);
        mret (result_of n (Some status) true false None)
    end.

(** [OrderProjectionReducer.apply_event] *)
Definition apply_event (ev : event) (manage_transaction : bool) : M Conn OrderApplyResult :=
  now ← get_now;
  n ← mlift (normalize_event now ev);
  tx_scope manage_transaction (apply_body n).

(** ** Lemmas *)

Lemma ensure_event_frame ev a s u s' :
  ensure_execution_event ev a s = (Ok u, s') ->
  orders_projection (current s') = orders_projection (current s)
  /\ order_events (current s') = order_events (current s).
Proof.
  unfold ensure_execution_event. intros H. run_inv. by run_frame.
Qed.

Lemma record_finding_frame a t sv p pk op rr reason s f s' :
  record_reconciliation_finding a t sv p pk op rr reason s = (Ok f, s') ->
  orders_projection (current s') = orders_projection (current s)
  /\ order_events (current s') = order_events (current s).
Proof.
  unfold record_reconciliation_finding, create_reconciliation_run. intros H. run_inv.
  destruct (str_or rr None); run_inv; by run_frame.
Qed.

Lemma insert_order_event_frame n id s u s' :
  insert_order_event n id s = (Ok u, s') ->
  orders_projection (current s') = orders_projection (current s)
  /\ is_Some (order_events (current s') !! ne_event_id n)
  /\ (forall e, is_Some (order_events (current s) !! e) -> is_Some (order_events (current s') !! e)).
Proof.
  unfold insert_order_event. intros H. run_inv. run_frame.
  destruct (order_events (current s) !! ne_event_id n) as [r|] eqn:E; split_and!; try done.
  - rewrite lookup_insert_eq. by eexists.
  - intros e He. destruct (decide (e = ne_event_id n)) as [->|N].
    + rewrite lookup_insert_eq. by eexists.
    + by rewrite lookup_insert_ne by done.
Qed.

Lemma upsert_inv n id status cur s i s' :
  upsert_order_projection n id status cur s = (Ok i, s') ->
  exists row, orders_projection (current s')
      = <[(ne_account_id n, ne_client_order_id n) := row]> (orders_projection (current s))
    /\ order_events (current s') = order_events (current s)
    /\ or_status row = status
    /\ (exists ex, proposed_row n id status cur (clock s) = Ok ex
          /\ pg_leb (or_filled_quantity ex) (or_filled_quantity row) = true)
    /\ forall old, orders_projection (current s) !! (ne_account_id n, ne_client_order_id n) = Some old ->
         pg_leb (or_filled_quantity old) (or_filled_quantity row) = true
         /\ or_order_projection_id row = or_order_projection_id old.
Proof.
  unfold upsert_order_projection. intros H. run_inv. eexists. run_frame.
  split_and!; [reflexivity | done | | |].
  - unfold proposed_row in Hm0. run_inv. by destruct (_ !! _).
  - exists x0. split; [done|]. destruct (_ !! _); cbn; [apply pg_greatest_ub | apply pg_leb_refl].
  - intros old ->. cbn. split; [apply pg_greatest_ub | done].
Qed.

Lemma judge_write n cur has_fills target status row :
  judge n cur has_fills target = Write status -> cur = Some row ->
  legal_transition Order (or_status row) status = true.
Proof.
  unfold judge. intros H ->. destruct (String.eqb target (or_status row)) eqn:E.
  - injection H as <-. apply String.eqb_eq in E as ->. apply legal_refl.
  - match type of H with (if ?b && _ then _ else _) = _ => generalize b H; clear H E end.
    intros stale H. destruct (stale && negb has_fills); [discriminate H|].
    destruct (legal_transition _ _ _) eqn:L; [by injection H as <-|].
    destruct has_fills; [injection H as <-; apply legal_refl | discriminate H].
Qed.

(** What one application does to the projection and to the event log. *)
Definition order_step (n : normalized_event) (d d' : Db) (r : OrderApplyResult) : Prop :=
  let key := (ne_account_id n, ne_client_order_id n) in
  (oar_duplicate r = true /\ d' = d /\ is_Some (order_events d !! ne_event_id n))
  \/ (oar_duplicate r = false /\ order_events d !! ne_event_id n = None
      /\ is_Some (order_events d' !! ne_event_id n)
      /\ (forall k, k <> key -> orders_projection d' !! k = orders_projection d !! k)
      /\ (orders_projection d' !! key = orders_projection d !! key /\ oar_applied r = false
          \/ exists row, orders_projection d' !! key = Some row /\ oar_applied r = true
             /\ oar_status r = Some (or_status row)
             /\ forall old, orders_projection d !! key = Some old ->
                  legal_transition Order (or_status old) (or_status row) = true
                  /\ pg_leb (or_filled_quantity old) (or_filled_quantity row) = true
                  /\ or_order_projection_id row = or_order_projection_id old)).

Lemma apply_body_step n s r s' :
  apply_body n s = (Ok r, s') -> order_step n (current s) (current s') r.
Proof.
  unfold apply_body, order_event_seen, fetch_order, order_step. intros H. run_inv.
  destruct (order_events (current s) !! ne_event_id n) as [o|] eqn:Seen; run_inv.
  { left. split_and!; [done..| by eexists]. }
  right. apply ensure_event_frame in Hm as [F1 F2]. rewrite F1 in *.
  set (key := (ne_account_id n, ne_client_order_id n)) in *.
  set (cur := orders_projection (current s) !! key) in *.
  lazymatch goal with
  | H1 : (if ?b then _ else mret n) _ = (Ok ?m, ?t) |- _ =>
      rename m into n';
      assert (N : ne_account_id n' = ne_account_id n /\ ne_client_order_id n' = ne_client_order_id n
                  /\ ne_event_id n' = ne_event_id n /\ current t = current s0)
        by (clear -H1; destruct b; unfold fill_payload in *; run_inv; done)
  end.
  destruct N as (N1 & N2 & N3 & O).
  destruct (judge n' cur _ _) as [status| |] eqn:J; run_inv.
  - match goal with H : match cur with Some _ => _ | None => _ end _ = (Ok _, ?t') |- _ =>
      assert (C : current t' = current s0) by (destruct cur; run_inv; congruence) end.
    match goal with H : upsert_order_projection _ _ _ _ _ = _ |- _ =>
      apply upsert_inv in H as (row & U1 & U2 & <- & _ & U3) end.
    match goal with H : insert_order_event _ _ _ = _ |- _ =>
      apply insert_order_event_frame in H as (I1 & I2 & _) end.
    rewrite N1, N2, C, F1 in *. rewrite N3 in *. fold key in U1, U3.
    split_and!; [done..| by intros; rewrite I1, U1, lookup_insert_ne by congruence |].
    right. exists row. rewrite I1, U1, lookup_insert_eq. split_and!; [done..|].
    intros old Hold. split; [by eapply judge_write | by apply U3].
  - match goal with H : insert_order_event _ _ _ = _ |- _ =>
      apply insert_order_event_frame in H as (I1 & I2 & _) end.
    rewrite N3 in *. split_and!; [done..| by intros; rewrite I1, O, F1|]. left. by rewrite I1, O, F1.
  - match goal with H : record_reconciliation_finding _ _ _ _ _ _ _ _ _ = _ |- _ =>
      apply record_finding_frame in H as [R1 R2] end.
    match goal with H : insert_order_event _ _ _ = _ |- _ =>
      apply insert_order_event_frame in H as (I1 & I2 & _) end.
    rewrite N3 in *. split_and!; [done..| by intros; rewrite I1, R1, O, F1|].
    left. by rewrite I1, R1, O, F1.
Qed.

Lemma normalize_event_id now ev n : normalize_event now ev = Ok n -> ne_event_id n = ev_event_id ev.
Proof. unfold normalize_event. intros H. by run_inv. Qed.

Lemma normalize_any_clock now now' ev n :
  normalize_event now ev = Ok n -> exists n', normalize_event now' ev = Ok n'.
Proof.
  unfold normalize_event. intros H. run_inv. rewrite Hr.
  unfold ensure_aware in *. destruct (ev_ts_event ev); [eauto..|].
  destruct (fromisoformat _); [eexists; reflexivity | discriminate].
Qed.

Lemma tx_scope_ok {A} b (m : M Conn A) s a s' :
  tx_scope b m s = (Ok a, s') -> exists s1, m s = (Ok a, s1) /\ current s' = current s1.
Proof.
  destruct b; simpl; [|eauto]. intros (s1 & H & ->)%transaction_inv_ok. by exists s1.
Qed.

Lemma apply_event_step ev b s r s' :
  apply_event ev b s = (Ok r, s') ->
  exists n, normalize_event (clock s) ev = Ok n /\ order_step n (current s) (current s') r.
Proof.
  unfold apply_event. intros H. run_inv. apply tx_scope_ok in H as (s1 & H & ->).
  eexists. split; [done|]. by apply apply_body_step.
Qed.

Lemma order_step_seen n d d' r : order_step n d d' r -> is_Some (order_events d' !! ne_event_id n).
Proof. intros [(_ & -> & H)|(_ & _ & H & _)]; done. Qed.

(** One successful application advances every order already projected. *)
Lemma order_step_rows n d d' r key old :
  order_step n d d' r -> orders_projection d !! key = Some old ->
  exists row, orders_projection d' !! key = Some row
    /\ legal_transition Order (or_status old) (or_status row) = true
    /\ pg_leb (or_filled_quantity old) (or_filled_quantity row) = true.
Proof.
  intros [(_ & -> & _)|(_ & _ & _ & F & C)] Hk.
  { exists old. split_and!; [done | apply legal_refl | apply pg_leb_refl]. }
  destruct (decide (key = (ne_account_id n, ne_client_order_id n))) as [->|N].
  - destruct C as [[E _]|(row & E & _ & _ & C)].
    + exists old. rewrite E. split_and!; [done | apply legal_refl | apply pg_leb_refl].
    + exists row. destruct (C _ Hk) as (? & ? & _). done.
  - exists old. rewrite (F _ N). split_and!; [done | apply legal_refl | apply pg_leb_refl].
Qed.

Lemma keeps_apply_body n : keeps_committed (apply_body n).
Proof.
  unfold apply_body, order_event_seen, fetch_order, fill_payload, upsert_order_projection,
    insert_order_event. keeps.
Qed.

(** A delivery: the outcome is dropped, the exception too (the ingest loop
    records it and goes on). *)
Definition deliver (s : Conn) (ev : event) : Conn := snd (apply_event ev true s).

Lemma deliver_committed s ev :
  committed s = current s -> committed (deliver s ev) = current (deliver s ev).
Proof.
  intros E. unfold deliver, apply_event, mbind, M_bind, get_now, mlift. cbn.
  destruct (normalize_event (clock s) ev) as [n|e]; [|done].
  unfold tx_scope, transaction. by destruct (apply_body n s) as [[?|?] ?].
Qed.

Lemma deliver_rows s ev key old :
  committed s = current s -> orders_projection (current s) !! key = Some old ->
  exists row, orders_projection (current (deliver s ev)) !! key = Some row
    /\ legal_transition Order (or_status old) (or_status row) = true
    /\ pg_leb (or_filled_quantity old) (or_filled_quantity row) = true.
Proof.
  intros E H. unfold deliver. destruct (apply_event ev true s) as [[r|e] s'] eqn:A; simpl.
  - apply apply_event_step in A as (n & _ & St). by eapply order_step_rows.
  - assert (current s' = current s) as ->.
    { revert A. unfold apply_event, mbind, M_bind, get_now, mlift. cbn.
      destruct (normalize_event (clock s) ev) as [n|e']; [|by intros; simplify_eq].
      intros A. apply transaction_atomic in A as [_ ->]; [done | apply keeps_apply_body]. }
    exists old. split_and!; [done | apply legal_refl | apply pg_leb_refl].
Qed.

(** C21. Redelivery is harmless: once [apply_event] has returned for an event,
    applying the same event again, at any later clock and whatever its payload
    would do, reports a duplicate and leaves the database as it is. *)
Theorem redelivery_is_idempotent ev b s r s' t :
  apply_event ev b s = (Ok r, s') -> current t = current s' ->
  exists r' t', apply_event ev b t = (Ok r', t')
    /\ oar_duplicate r' = true /\ oar_applied r' = false /\ current t' = current s'.
Proof.
  intros H Ht. apply apply_event_step in H as (n & N & St). apply order_step_seen in St as [row Seen].
  destruct (normalize_any_clock _ (clock t) _ _ N) as [n' N'].
  rewrite (normalize_event_id _ _ _ N), <- (normalize_event_id _ _ _ N'), <- Ht in Seen.
  unfold apply_event, mbind, M_bind, get_now, mlift. rewrite N'.
  unfold tx_scope, transaction, apply_body, order_event_seen, fetch_order, select, mbind, M_bind.
  destruct b; cbv beta iota; rewrite Seen; do 2 eexists; (split; [reflexivity | done]).
Qed.

(** C15. Over any history of deliveries, failed ones included, no projected
    order disappears, its status moves only along legal transitions of the
    order state machine, and its filled quantity never decreases. *)
Theorem order_history s evs key old :
  committed s = current s -> orders_projection (current s) !! key = Some old ->
  exists row, orders_projection (current (fold_left deliver evs s)) !! key = Some row
    /\ lifecycle Order (or_status old) (or_status row)
    /\ pg_leb (or_filled_quantity old) (or_filled_quantity row) = true.
Proof.
  revert s old. induction evs as [|ev evs IH]; intros s old E H; simpl.
  { exists old. split_and!; [done | constructor | apply pg_leb_refl]. }
  destruct (deliver_rows s ev key old E H) as (mid & M & L & F).
  destruct (IH _ _ (deliver_committed s ev E) M) as (row & R & L' & F').
  exists row. split_and!; [done | | by eapply pg_leb_trans].
  eapply lifecycle_trans; [by apply lifecycle_one | done].
Qed.

(** *** Fill accounting *)

(** The fill identities in order of arrival, each with its first delta. *)
Definition fill_identity (r : event_row) : string * string :=
  match nonempty (er_trade_id r) with
  | Some t => ("trade", t)
  | None => ("event", er_event_id r)
  end.

Definition row_delta (r : event_row) : option xdec :=
  decimal_or_none (dget "last_qty" (fill_fields (er_payload r))).

(** A fill reported as a delta: a quantity and a price, no running total. *)
Definition delta_row (r : event_row) : Prop :=
  decimal_or_none (dget "filled_qty" (fill_fields (er_payload r))) = None
  /\ (exists d, row_delta r = Some (XFin d) /\ (0 <= dval d)%Q)
  /\ (exists p, fill_number (decimal_or_none (dget "last_px" (fill_fields (er_payload r)))) = Ok p).

(** The sum the venue's fills add up to, each trade counted once. *)
Fixpoint distinct_sum (seen : list (string * string)) (acc : dec) (rows : list event_row) : dec :=
  match rows with
  | [] => acc
  | r :: rows =>
      let acc' := match row_delta r with
                  | Some (XFin d) => if pair_in (fill_identity r) seen then acc else dadd acc d
                  | _ => acc
                  end in
      distinct_sum (fill_identity r :: seen) acc' rows
  end.

Lemma dmax_zero a : (0 <= dval a)%Q -> dmax a dzero = a.
Proof. intros H. unfold dmax. by rewrite (proj2 (dltb_ge a dzero)). Qed.

Lemma fill_number_ok d : (0 <= dval d)%Q -> fill_number (Some (XFin d)) = Ok (Some d).
Proof. intros H. unfold fill_number. by rewrite (proj2 (dltb_ge d dzero)). Qed.

Lemma delta_step f r :
  delta_row r -> f_anchor f = dzero -> (0 <= dval (f_total f))%Q ->
  exists f' d, fill_step f r = Ok f' /\ row_delta r = Some (XFin d) /\ f_anchor f' = dzero
    /\ f_seen f' = fill_identity r :: f_seen f
    /\ f_total f' = (if pair_in (fill_identity r) (f_seen f) then f_total f else dadd (f_total f) d)
    /\ (0 <= dval (f_total f'))%Q.
Proof.
  intros (C & (d & D & Hd) & (p & P)) A T. unfold fill_step. unfold row_delta in *.
  rewrite C, D, P, fill_number_ok, A by done. cbn. eexists _, d. split; [reflexivity|].
  fold (fill_identity r). rewrite dmax_zero by done. split_and!; [done | | done | |];
    destruct (negb (bool_decide _)); try done;
    destruct (pair_in _ _); cbn; auto using dadd_nonneg.
Qed.

Lemma delta_rows_total rows f :
  Forall delta_row rows -> f_anchor f = dzero -> (0 <= dval (f_total f))%Q ->
  exists f', foldR fill_step f rows = Ok f'
    /\ fill_total f' = distinct_sum (f_seen f) (f_total f) rows.
Proof.
  intros H. revert f. induction H as [|r rows Hr Hrs IH]; intros f A T.
  - exists f. split; [done|]. unfold fill_total. by rewrite A, dmax_zero.
  - destruct (delta_step f r Hr A T) as (f' & d & E & D & A' & S' & T' & N').
    destruct (IH f' A' N') as (f'' & E' & T''). exists f''. cbn [foldR]. rewrite E. split; [done|].
    rewrite T'', S', T'. cbn [distinct_sum]. by rewrite D.
Qed.

(** When the venue reports fills as deltas, the reducer's filled quantity
    is the sum of the deltas of the distinct trades, in the order of their
    timestamps: a trade the venue repeats is counted once. *)
Theorem fill_total_distinct rows :
  Forall delta_row rows ->
  exists f, foldR fill_step fills0 rows = Ok f /\ fill_total f = distinct_sum [] dzero rows.
Proof. intros H. by apply delta_rows_total. Qed.

(** ** Witnesses *)

Definition sample_event (id ty trade : string) (payload : dict) (ts : Z) : event := {|
  ev_event_id := id; ev_event_type := ty; ev_schema_version := None; ev_node_id := Some "node-1";
  ev_account_id := Some " acct "; ev_intent_id := None; ev_execution_job_id := None;
  ev_client_order_id := Some "c-1"; ev_venue_order_id := None; ev_trade_id := Some trade;
  ev_instrument_id := Some "BTCUSDT-PERP.BINANCE"; ev_ts_event := TsTime (utc ts);
  ev_ts_ingest := TsNone; ev_payload := payload |}.

Definition sample_fill (id trade qty : string) (ts : Z) : event :=
  sample_event id "OrderFilled" trade
    [("quantity", PStr "2"); ("last_qty", PStr qty); ("last_px", PStr "100.5")] ts.

Definition sample_start : Conn :=
  deliver (connect empty_db 1000)
    (sample_event "e1" "OrderAccepted" "" [("quantity", PStr "2"); ("side", PStr "BUY")] 10).

Definition sample_history : list event :=
  [sample_fill "e2" "t1" "0.5" 20; sample_fill "e3" "t1" "0.5" 21; sample_fill "e4" "t2" "1.5" 22;
   sample_event "e5" "OrderCanceled" "" [] 30].

Definition sample_order (s : Conn) : option (string * xdec * option xdec) :=
  (fun r => (or_status r, or_filled_quantity r, or_average_fill_price r))
    <$> orders_projection (current s) !! ("acct", "c-1").

Example sample_runs :
  (sample_order sample_start, sample_order (fold_left deliver sample_history sample_start))
  = (Some ("accepted", XFin (Dec 0 0), None),
     Some ("filled", XFin (Dec 20 (-1)), Some (XFin (Dec 1005 (-1))))).
Proof. vm_compute. reflexivity. Qed.

Lemma order_history_witness :
  exists row, orders_projection (current (fold_left deliver sample_history sample_start))
                !! ("acct", "c-1") = Some row
    /\ lifecycle Order "accepted" (or_status row)
    /\ pg_leb (XFin (Dec 0 0)) (or_filled_quantity row) = true.
Proof.
  destruct (orders_projection (current sample_start) !! ("acct", "c-1")) as [old|] eqn:E;
    [|vm_compute in E; discriminate E].
  assert (S : sample_order sample_start = Some (or_status old, or_filled_quantity old, or_average_fill_price old))
    by (unfold sample_order; rewrite E; reflexivity).
  vm_compute in S. injection S as S1 S2 _. rewrite S1, S2.
  apply order_history; [vm_compute; reflexivity | exact E].
Defined.

Lemma redelivery_is_idempotent_witness :
  exists r' t', apply_event (sample_fill "e2" "t1" "0.5" 20) true
      (deliver sample_start (sample_fill "e2" "t1" "0.5" 20)) = (Ok r', t')
    /\ oar_duplicate r' = true /\ oar_applied r' = false
    /\ current t' = current (deliver sample_start (sample_fill "e2" "t1" "0.5" 20)).
Proof.
  unfold deliver at 1 2. destruct (apply_event _ true sample_start) as [[r|e] s'] eqn:E.
  - exact (redelivery_is_idempotent _ _ _ _ _ s' E eq_refl).
  - vm_compute in E. discriminate E.
Defined.

Definition sample_row (id trade qty : string) (ts : Z) : event_row := {|
  er_event_id := id; er_schema_version := "1.0"; er_node_id := "n"; er_account_id := "acct";
  er_intent_id := None; er_client_order_id := Some "c-1"; er_venue_order_id := None;
  er_trade_id := Some trade; er_event_type := "OrderFilled"; er_ts_event := ts; er_ts_ingest := ts;
  er_payload := [("last_qty", PStr qty); ("last_px", PStr "100.5")];
  er_created_at := ts |}.

Lemma fill_total_distinct_witness :
  exists f, foldR fill_step fills0
      [sample_row "e2" "t1" "0.5" 20; sample_row "e3" "t1" "0.5" 21; sample_row "e4" "t2" "1.5" 22] = Ok f
    /\ fill_total f = Dec 20 (-1).
Proof.
  apply fill_total_distinct.
  repeat apply Forall_cons_2; [..|apply Forall_nil_2];
    (split; [reflexivity|]; split; eexists; [split; [reflexivity | by vm_compute] | reflexivity]).
Defined.
