(* ===== verification/PositionReducer.v ===== *)
(** * PositionReducer: the positions and accounts projections

    Models order_management/position_reducer.py and
    order_management/account_reducer.py. *)

From Stdlib Require Import ZArith Lia Ascii QArith.
From S2P Require Import Prelude Decimal PyString DecText PyValue PyTime Store Identifiers StateDescriptor OrderReducer.
Open Scope string_scope.
Open Scope Z_scope.

(** ** Positions *)

Record PositionApplyResult := {
  par_event_id : string;
  par_position_key : string;
  par_status : string }.

(** An event after the module's own [_normalize_event]. *)
Record position_event := {
  pe_event : event;
  pe_account_id : string;
  pe_position_key : string;
  pe_instrument_id : string;
  pe_ts_event : Z }.

Definition pe_payload (n : position_event) : dict := ev_payload (pe_event n).

(** [str(payload.get(a) or payload.get(b) or "")] *)
Definition text_of (a b : string) (payload : dict) : string :=
  py_str (py_or (py_or (dget a payload) (dget b payload)) (PStr "")).

Definition key_side (payload : dict) : option string :=
  let mode := upper (py_str (py_or (dget "position_mode" payload) (PStr ""))) in
  let raw_side := lower (text_of "position_side" "side" payload) in
  if String.eqb mode "HEDGE" && str_in raw_side ["long"; "short"] then Some raw_side else None.

Definition normalize_position_event (now : Z) (ev : event) : result position_event :=
  let payload := ev_payload ev in
  account_id ← canonical_account_id (ev_account_id ev);
  let instrument_id :=
    if truthy (dget "instrument_id" payload) then py_str (dget "instrument_id" payload)
    else str_default (ev_instrument_id ev) "UNKNOWN" in
  let venue_symbol := canonical_instrument_key instrument_id in
  key ← position_key {| pk_account_id := account_id; pk_venue_symbol := venue_symbol;
                        pk_side := key_side payload |};
  ts_event ← ensure_aware now (ev_ts_event ev);
  Ok {| pe_event := with_payload (dset "instrument_id" (PStr instrument_id) payload)
          {| ev_event_id := ev_event_id ev; ev_event_type := ev_event_type ev;
             ev_schema_version := ev_schema_version ev; ev_node_id := ev_node_id ev;
             ev_account_id := Some account_id; ev_intent_id := ev_intent_id ev;
             ev_execution_job_id := ev_execution_job_id ev;
             ev_client_order_id := ev_client_order_id ev;
             ev_venue_order_id := ev_venue_order_id ev; ev_trade_id := ev_trade_id ev;
             ev_instrument_id := ev_instrument_id ev; ev_ts_event := TsTime (utc ts_event);
             ev_ts_ingest := ev_ts_ingest ev; ev_payload := payload |};
        pe_account_id := account_id; pe_position_key := key;
        pe_instrument_id := instrument_id; pe_ts_event := ts_event |}.

Definition is_external (payload : dict) : bool :=
  String.eqb (upper (text_of "ownership" "source" payload)) "EXTERNAL".

Definition event_quantity (payload : dict) : xdec :=
  match decimal_or_none (quantity_of payload) with
  | Some q => if xtrue q then xabs q else XFin dzero
  | None => XFin dzero
  end.

Definition current_quantity (account_id position_key : string) : M Conn (option xdec) :=
  select (fun d => po_quantity <$> positions_projection d !! (account_id, position_key)).

(** [_position_side] *)
Definition position_side (payload : dict) : result string :=
  let raw := lower (text_of "side" "position_side" payload) in
  if str_in raw ["short"; "sell"] then Ok "short"
  else match decimal_or_none (quantity_of payload) with
       | Some q => negative ← xltb q (XFin dzero); Ok (if negative : bool then "short" else "long")
       | None => Ok "long"
       end.

Definition merge_position (old ex : position_row) : position_row := {|
  po_instrument_id := po_instrument_id ex;
  po_side := po_side ex;
  po_quantity := po_quantity ex;
  po_avg_entry_price := coalesce (po_avg_entry_price ex) (po_avg_entry_price old);
  po_mark_price := coalesce (po_mark_price ex) (po_mark_price old);
  po_unrealized_pnl := coalesce (po_unrealized_pnl ex) (po_unrealized_pnl old);
  po_status := po_status ex;
  po_updated_from_event_id := po_updated_from_event_id ex;
  po_ts_event := po_ts_event ex;
  po_updated_at := po_updated_at ex;
  po_payload := dupdate (po_payload old) (po_payload ex) |}.

Definition upsert_position (n : position_event) (status : string) (quantity : xdec) : M Conn unit :=
  let payload := pe_payload n in
  now ← get_now;
  side ← mlift (position_side payload);
  let ex := {|
    po_instrument_id := pe_instrument_id n;
    po_side := side;
    po_quantity := pg_numeric quantity;
    po_avg_entry_price := num_col (dget "avg_entry_price" payload);
    po_mark_price := num_col (dget "mark_price" payload);
    po_unrealized_pnl := num_col (dget "unrealized_pnl" payload);
    po_status := status;
    po_updated_from_event_id := ev_event_id (pe_event n);
    po_ts_event := Some (pe_ts_event n);
    po_updated_at := now;
    po_payload := payload |} in
  _ ← check (pg_leb (XFin dzero) (po_quantity ex)) "ck_positions_projection_quantity";
  let key := (pe_account_id n, pe_position_key n) in
  execute (set_positions_projection (fun t =>
    <[key := match t !! key with Some old => merge_position old ex | None => ex end]> t)).

(** [UPDATE protective_orders_projection SET active=false, status=... WHERE ... AND active] *)
Definition deactivate (status : string) (now : Z) (r : protective_row) : protective_row := {|
  pr_id := pr_id r; pr_account_id := pr_account_id r; pr_position_key := pr_position_key r;
  pr_venue_symbol := pr_venue_symbol r; pr_lifecycle_role := pr_lifecycle_role r;
  pr_client_order_id := pr_client_order_id r; pr_venue_order_id := pr_venue_order_id r;
  pr_status := status; pr_active := false; pr_quantity := pr_quantity r; pr_price := pr_price r;
  pr_trigger_price := pr_trigger_price r; pr_updated_at := now; pr_payload := pr_payload r |}.

(** The active protective orders of a position, with a condition on the role. *)
Definition protects (account_id position_key : string) (roles : string -> bool) (r : protective_row)
  : bool :=
  String.eqb (pr_account_id r) account_id && String.eqb (pr_position_key r) position_key
  && roles (pr_lifecycle_role r) && pr_active r.

Definition deactivate_protection (account_id position_key : string) (roles : string -> bool)
    (status : string) : M Conn unit :=
  now ← get_now;
  execute (set_protective_orders (map (fun r =>
    if protects account_id position_key roles r then deactivate status now r else r))).

(** [_clear_protective_orders] *)
Definition clear_protective_orders (account_id position_key : string) : M Conn unit :=
  deactivate_protection account_id position_key (fun _ => true) "cleared".

Definition position_body (n : position_event) : M Conn PositionApplyResult :=
  _ ← ensure_execution_event (pe_event n) (pe_account_id n);
  cur ← current_quantity (pe_account_id n) (pe_position_key n);
  target ← mlift (event_target Position (ev_event_type (pe_event n)) (pe_payload n) cur);
  let target := if is_external (pe_payload n) then Some "external" else target in
  let target := match target with
                | None => "open"
                | Some t => if String.eqb t "self" then "open" else t
                end in
  let quantity := if String.eqb target "closed" then XFin dzero else event_quantity (pe_payload n) in
  _ ← upsert_position n target quantity;
  _ ← (if String.eqb target "closed"
       then clear_protective_orders (pe_account_id n) (pe_position_key n)
       else mret tt);
  mret {| par_event_id := ev_event_id (pe_event n); par_position_key := pe_position_key n;
          par_status := target |}.

(** [PositionProjectionReducer.apply_event] *)
Definition apply_position_event (ev : event) : M Conn PositionApplyResult :=
  now ← get_now;
  n ← mlift (normalize_position_event now ev);
  transaction (position_body n).

(** ** Accounts *)

Fixpoint first_decimal (payload : dict) (names : list string) : option xdec :=
  match names with
  | [] => None
  | name :: names =>
      match decimal_or_none (dget name payload) with
      | Some x => Some x
      | None => first_decimal payload names
      end
  end.

Definition account_checks (r : account_row) : bool :=
  pg_leb (XFin dzero) (ac_equity r) && pg_leb (XFin dzero) (ac_margin r)
  && from_option (pg_leb (XFin dzero)) true (ac_available_balance r).

(** [AccountProjectionReducer.apply_event]; the returned record is the pair of
    the event id and the canonical account. *)
Definition apply_account_event (ev : event) : M Conn (string * string) :=
  account_id ← mlift (canonical_account_id (ev_account_id ev));
  now ← get_now;
  ts_event ← mlift (ensure_aware now (ev_ts_event ev));
  let payload := ev_payload ev in
  transaction (
    _ ← ensure_execution_event ev account_id;
    let equity := xor_else (first_decimal payload ["equity"; "balance"; "total"]) (XFin dzero) in
    let free := first_decimal payload ["free"; "available_balance"] in
    let margin := xor_else (first_decimal payload ["margin"; "margin_balance"; "locked"]) (XFin dzero) in
    currency ← mlift (text_col (default (PStr "USDT") (dlookup "currency" payload)));
    now ← get_now;
    _ ← check (match currency with Some _ => true | None => false end) "accounts_projection.currency";
    let ex := {|
      ac_currency := default "" currency;
      ac_equity := pg_numeric equity;
      ac_margin := pg_numeric margin;
      ac_available_balance := pg_numeric <$> free;
      ac_last_execution_event_at := Some ts_event;
      ac_projection_lag_ms := 0;
      ac_updated_from_event_id := ev_event_id ev;
      ac_updated_at := now;
      ac_payload := payload |} in
    _ ← check (account_checks ex) "ck_accounts_projection";
    _ ← execute (set_accounts_projection (fun t =>
          <[account_id := match t !! account_id with
                          | Some old => {|
                              ac_currency := ac_currency ex; ac_equity := ac_equity ex;
                              ac_margin := ac_margin ex;
                              ac_available_balance := ac_available_balance ex;
                              ac_last_execution_event_at := ac_last_execution_event_at ex;
                              ac_projection_lag_ms := ac_projection_lag_ms old;
                              ac_updated_from_event_id := ac_updated_from_event_id ex;
                              ac_updated_at := now;
                              ac_payload := dupdate (ac_payload old) payload |}
                          | None => ex
                          end]> t));
    mret (ev_event_id ev, account_id)).

Record account_balance := {
  ab_account_id : string; ab_currency : string; ab_equity : xdec; ab_free : option xdec;
  ab_margin : xdec; ab_balance : xdec }.

Definition get_account_balance (account_id : option string) : M Conn (option account_balance) :=
  account_id ← mlift (canonical_account_id account_id);
  row ← select (fun d => accounts_projection d !! account_id);
  mret ((fun r => {|
    ab_account_id := account_id; ab_currency := ac_currency r; ab_equity := ac_equity r;
    ab_free := ac_available_balance r; ab_margin := ac_margin r;
    ab_balance := xor_else (decimal_or_none (dget "balance" (ac_payload r))) (ac_equity r) |}) <$> row).

(** ** Lemmas *)

Lemma deactivate_none a k roles st s u s' :
  deactivate_protection a k roles st s = (Ok u, s') ->
  existsb (protects a k roles) (protective_orders (current s')) = false
  /\ positions_projection (current s') = positions_projection (current s).
Proof.
  unfold deactivate_protection. intros H. run_inv. run_frame. split; [|done].
  induction (protective_orders (current s)) as [|r l IH]; [done|]. simpl. rewrite IH, orb_false_r.
  destruct (protects a k roles r) eqn:E; [|done]. unfold protects. simpl. by rewrite andb_false_r.
Qed.

Lemma position_body_row n s r s' :
  position_body n s = (Ok r, s') ->
  par_position_key r = pe_position_key n /\ par_event_id r = ev_event_id (pe_event n) /\
  exists row, positions_projection (current s') !! (pe_account_id n, pe_position_key n) = Some row
    /\ po_status row = par_status r
    /\ po_quantity row = pg_numeric (if String.eqb (par_status r) "closed" then XFin dzero
                                     else event_quantity (pe_payload n))
    /\ (par_status r = "closed" ->
        existsb (protects (pe_account_id n) (pe_position_key n) (fun _ => true))
                (protective_orders (current s')) = false).
Proof.
  unfold position_body. intros H. run_inv. split_and!; [done..|]. cbn [par_status].
  set (t := match (if is_external _ then _ else _) with Some _ => _ | None => _ end) in *.
  unfold upsert_position in *. run_inv.
  destruct (String.eqb t "closed") eqn:E; run_inv.
  - match goal with H : clear_protective_orders _ _ _ = _ |- _ => apply deactivate_none in H as [D P] end.
    rewrite P. run_frame. rewrite lookup_insert_eq. eexists. split; [done|].
    split_and!; [by case_match | by case_match | done].
  - run_frame. rewrite lookup_insert_eq. eexists. split; [done|].
    apply String.eqb_neq in E. split_and!; [by case_match | by case_match | done].
Qed.

(** C33. A position event either raises and leaves the database untouched, or
    returns with the position's row in the state it reports; a row reported
    closed has quantity zero and no protective order of the position stays
    active. *)
Theorem position_event_outcome ev s :
  committed s = current s ->
  match apply_position_event ev s with
  | (Raise _, s') => current s' = current s /\ committed s' = committed s
  | (Ok r, s') => exists account row,
      positions_projection (committed s') !! (account, par_position_key r) = Some row
      /\ committed s' = current s'
      /\ canonical_account_id (ev_account_id ev) = Ok account
      /\ po_status row = par_status r
      /\ (par_status r = "closed" ->
          po_quantity row = XFin dzero
          /\ existsb (protects account (par_position_key r) (fun _ => true))
                     (protective_orders (committed s')) = false)
  end.
Proof.
  intros E. unfold apply_position_event, mbind at 1, M_bind at 1, get_now. cbn.
  unfold mlift, mbind at 1, M_bind at 1.
  destruct (normalize_position_event (clock s) ev) as [n|e] eqn:N; [|done].
  destruct (transaction (position_body n) s) as [[r|e] s'] eqn:T.
  - apply transaction_inv_ok in T as (s1 & B & ->). cbn.
    apply position_body_row in B as (-> & _ & row & R & S & Q & C). exists (pe_account_id n), row.
    split_and!; [done | done | | done |].
    + unfold normalize_position_event in N. by run_inv.
    + intros Z. rewrite Q, Z. split; [done | by apply C].
  - apply transaction_atomic in T as [T1 T2]; [by rewrite T1, T2, E|].
    unfold position_body, current_quantity, upsert_position, clear_protective_orders, deactivate_protection.
    keeps.
Qed.

Lemma position_event_outcome_witness :
  let ev := sample_event "p1" "PositionClosed" "" [("position_mode", PStr "hedge"); ("side", PStr "SHORT")] 5 in
  exists account row, positions_projection (committed (snd (apply_position_event ev (connect empty_db 9))))
      !! (account, "acct:BTCUSDT:short") = Some row /\ po_quantity row = XFin dzero.
Proof.
  intros ev. pose proof (position_event_outcome ev (connect empty_db 9) eq_refl) as H.
  destruct (apply_position_event ev (connect empty_db 9)) as [[r|e] s'] eqn:E; [|by vm_compute in E].
  destruct H as (account & row & R & _ & _ & _ & C). exists account, row.
  assert (K : par_position_key r = "acct:BTCUSDT:short" /\ par_status r = "closed")
    by (vm_compute in E; injection E as <- _; done).
  destruct K as [K1 K2]. rewrite K1 in R. split; [exact R | by apply C].
Defined.
