(* ===== verification/Sha256.v ===== *)
(** * Sha256: hashlib.sha256, UUIDs and the deterministic identifiers

    SHA-256 on byte strings with its 32-bit words as [Z] and the wrap-around
    written out, the UUID text format, and the modules that build identifiers
    from them: packages/execution-domain/execution_domain/idempotency.py,
    the outbox and execution-job ids, and the trace context of
    services/nautilus-node/observability/_shared.py. *)

From Stdlib Require Import ZArith Lia Ascii.
From S2P Require Import Prelude PyString Decimal DecText PyValue Store.
Open Scope string_scope.
Open Scope Z_scope.

(** ** SHA-256 *)

Definition w32 (x : Z) : Z := x mod 2 ^ 32.
Definition rotr (n x : Z) : Z := Z.lor (Z.shiftr x n) (w32 (Z.shiftl x (32 - n))).

(** The constants are, as the standard defines them, the first 32 bits of the
    fractional parts of the cube roots of the first sixty-four primes and of
    the square roots of the first eight. *)
Fixpoint primes_from (fuel : nat) (n : Z) (seen : list Z) (count : nat) : list Z :=
  match fuel, count with
  | S fuel, S count' =>
      if forallb (fun q => negb (n mod q =? 0)) seen
      then n :: primes_from fuel (n + 1) (n :: seen) count'
      else primes_from fuel (n + 1) seen count
  | _, _ => []
  end.
Definition primes (count : nat) : list Z := primes_from 400 2 [] count.

(** The greatest [r] with [r ^ 3 <= n], bit by bit from [2 ^ bits]. *)
Fixpoint cube_root (bits : nat) (r n : Z) : Z :=
  match bits with
  | O => r
  | S b =>
      let r' := r + 2 ^ Z.of_nat b in
      cube_root b (if r' ^ 3 <=? n then r' else r) n
  end.

Definition K256 : list Z :=
  Eval vm_compute in map (fun p => w32 (cube_root 40 0 (p * 2 ^ 96))) (primes 64).

Definition H256 : list Z :=
  Eval vm_compute in map (fun p => w32 (Z.sqrt (p * 2 ^ 64))) (primes 8).

(** The sixteen words of a block extended to the sixty-four of the schedule;
    the window holds the last sixteen, oldest first. *)
Fixpoint schedule (n : nat) (w : list Z) : list Z :=
  match n with
  | O => []
  | S n =>
      let w0 := nth 0 w 0 in
      let w1 := nth 1 w 0 in
      let w9 := nth 9 w 0 in
      let w14 := nth 14 w 0 in
      let s0 := Z.lxor (Z.lxor (rotr 7 w1) (rotr 18 w1)) (Z.shiftr w1 3) in
      let s1 := Z.lxor (Z.lxor (rotr 17 w14) (rotr 19 w14)) (Z.shiftr w14 10) in
      w0 :: schedule n (tl w ++ [w32 (w0 + s0 + w9 + s1)])%list
  end.

Definition sha_round (h : list Z) (kw : Z * Z) : list Z :=
  match h with
  | [a; b; c; d; e; f; g; hh] =>
      let s1 := Z.lxor (Z.lxor (rotr 6 e) (rotr 11 e)) (rotr 25 e) in
      let ch := Z.lxor (Z.land e f) (Z.land (w32 (Z.lnot e)) g) in
      let t1 := w32 (hh + s1 + ch + fst kw + snd kw) in
      let s0 := Z.lxor (Z.lxor (rotr 2 a) (rotr 13 a)) (rotr 22 a) in
      let maj := Z.lxor (Z.lxor (Z.land a b) (Z.land a c)) (Z.land b c) in
      [w32 (t1 + w32 (s0 + maj)); a; b; c; w32 (d + t1); e; f; g]
  | _ => h
  end.

Definition compress (h block : list Z) : list Z :=
  zip_with (fun x y => w32 (x + y)) h
    (fold_left sha_round (zip K256 (schedule 64 block)) h).

Definition bytes_of (s : string) : list Z :=
  map (fun c => Z.of_nat (nat_of_ascii c)) (String.list_ascii_of_string s).

Definition pad_message (m : list Z) : list Z :=
  let len := Z.of_nat (length m) in
  let zeros := (55 - len) mod 64 in
  (m ++ [128] ++ repeat 0 (Z.to_nat zeros)
     ++ map (fun i => Z.land (Z.shiftr (8 * len) (8 * (7 - i))) 255) [0; 1; 2; 3; 4; 5; 6; 7])%list.

Fixpoint words (m : list Z) : list Z :=
  match m with
  | a :: b :: c :: d :: m => (((a * 256 + b) * 256 + c) * 256 + d) :: words m
  | _ => []
  end.

(** One block per sixteen words; the fuel is the number of words. *)
Fixpoint digest (fuel : nat) (h w : list Z) : list Z :=
  match fuel, w with
  | S fuel, _ :: _ => digest fuel (compress h (take 16 w)) (drop 16 w)
  | _, _ => h
  end.

Definition hex_digit (n : Z) : ascii :=
  ascii_of_nat (Z.to_nat (if n <? 10 then n + 48 else n + 87)).

Definition hex_word (w : Z) : string :=
  String.string_of_list_ascii (map (fun i => hex_digit (Z.land (Z.shiftr w (4 * (7 - i))) 15)) [0; 1; 2; 3; 4; 5; 6; 7]).

(** [hashlib.sha256(s.encode("utf-8")).hexdigest()] *)
Definition sha256_hex (s : string) : string :=
  let w := words (pad_message (bytes_of s)) in
  String.concat "" (map hex_word (digest (length w) H256 w)).

(** ** UUIDs *)

(** [str(UUID(hex=h))] of thirty-two lowercase hex digits. *)
Definition uuid_text (h : string) : string :=
  String.substring 0 8 h +:+ "-" +:+ String.substring 8 4 h +:+ "-" +:+ String.substring 12 4 h +:+ "-"
  +:+ String.substring 16 4 h +:+ "-" +:+ String.substring 20 12 h.

(** [str(UUID(hex=sha256(s).hexdigest()[:32]))] *)
Definition sha256_uuid (s : string) : string := uuid_text (String.substring 0 32 (sha256_hex s)).

Definition is_hex (c : ascii) : bool :=
  is_digit c || ((97 <=? Z.of_nat (nat_of_ascii c)) && (Z.of_nat (nat_of_ascii c) <=? 102)).

(** [s.replace(p, "")] for a nonempty [p]; [skip] characters of a match remain. *)
Fixpoint remove_sub (p : string) (skip : nat) (s : string) : string :=
  match s with
  | EmptyString => EmptyString
  | String c s' =>
      match skip with
      | S k => remove_sub p k s'
      | O => if starts_with p s then remove_sub p (String.length p - 1) s'
             else String c (remove_sub p 0 s')
      end
  end.

(** [s.lstrip(chars)] and [s.rstrip(chars)]. *)
Fixpoint lstrip_by (p : ascii -> bool) (s : string) : string :=
  match s with
  | EmptyString => s
  | String c s' => if p c then lstrip_by p s' else s
  end.

Fixpoint rstrip_by (p : ascii -> bool) (s : string) : string :=
  match s with
  | EmptyString => EmptyString
  | String c s' => let r := rstrip_by p s' in if is_empty r && p c then EmptyString else String c r
  end.

Definition is_brace (c : ascii) : bool := Ascii.eqb c "{" || Ascii.eqb c "}".

(** The thirty-two digits of [UUID(value)], [None] for a malformed value.
    (Digit separators and signs, which [int(_, 16)] would let through, are not
    accepted here.) *)
Definition uuid_hex (value : string) : option string :=
  let h := remove_sub "uuid:" 0 (remove_sub "urn:" 0 value) in
  let h := lower (sfilter (fun c => negb (Ascii.eqb c "-")) (rstrip_by is_brace (lstrip_by is_brace h))) in
  if (String.length h =? 32)%nat && sforall is_hex h then Some h else None.

(** [_uuidish] *)
Definition uuidish (value : string) : string :=
  match uuid_hex value with
  | Some h => uuid_text h
  | None => sha256_uuid value
  end.

(** ** idempotency.py *)

(** [_material]: [None] contributes the empty string. *)
Definition material (parts : list (option string)) : string :=
  join "|" (map (default "") parts).

Definition _sha256_hex (parts : list (option string)) : string := sha256_hex (material parts).

Definition intent_idempotency_key (decision_id action : string) (instrument account : option string) : string :=
  _sha256_hex [Some decision_id; Some action; instrument; account].

Definition execution_job_key (intent_id action : string) (instrument account : option string) : string :=
  _sha256_hex [Some "execution_job"; Some intent_id; Some action; instrument; account].

(** [str(RequestId.from_value(value))] *)
Definition request_id_from_value (value : string) : result string :=
  let v := strip value in
  if is_empty v then Raise (ValueError "request_id must not be empty") else Ok v.

(** [str(RequestId.for_material(parts))] *)
Definition request_id_for_material (parts : list (option string)) : result string :=
  request_id_from_value ("req_" +:+ String.substring 0 32 (_sha256_hex parts)).

Definition deterministic_execution_job_id (idempotency_key : string) : string :=
  sha256_uuid idempotency_key.

Definition deterministic_outbox_event_id (aggregate_type aggregate_id event_type idempotency_key : string)
  : string :=
  sha256_uuid (join "|" [aggregate_type; aggregate_id; event_type; idempotency_key]).

(** ** The trace context *)

(** The identifiers a trace can be derived from, [PNone] when absent. *)
Record trace_sources := {
  ts_trace_id : pyval;
  ts_request_id : pyval;
  ts_idempotency_key : pyval;
  ts_intent_id : pyval;
  ts_execution_job_id : pyval;
  ts_order_id : pyval;
  ts_command_id : pyval }.

Definition no_sources : trace_sources := {|
  ts_trace_id := PNone; ts_request_id := PNone; ts_idempotency_key := PNone;
  ts_intent_id := PNone; ts_execution_job_id := PNone; ts_order_id := PNone;
  ts_command_id := PNone |}.

(** [_clean_optional] *)
Definition clean_optional (v : pyval) : option string :=
  if is_none v then None
  else let t := strip (py_str v) in if is_empty t then None else Some t.

Definition opt_str (o : option string) : pyval := from_option PStr PNone o.

Fixpoint first_material (sources : list (string * pyval)) : option string :=
  match sources with
  | [] => None
  | (name, v) :: sources =>
      match clean_optional v with
      | Some t => Some (name +:+ "=" +:+ t)
      | None => first_material sources
      end
  end.

Definition derive_trace_id (t : trace_sources) : M Conn string :=
  match clean_optional (ts_trace_id t) with
  | Some id => mret (uuidish id)
  | None =>
      match first_material [
          ("request_id", ts_request_id t); ("idempotency_key", ts_idempotency_key t);
          ("intent_id", ts_intent_id t); ("execution_job_id", ts_execution_job_id t);
          ("order_id", ts_order_id t); ("command_id", ts_command_id t)] with
      | Some m => mret (sha256_uuid m)
      | None => uuid4
      end
  end.

(** [trace_context]: the trace id and the cleaned request id. *)
Definition trace_context (t : trace_sources) : M Conn (string * option string) :=
  let req := clean_optional (ts_request_id t) in
  trace ← derive_trace_id {|
    ts_trace_id := ts_trace_id t; ts_request_id := opt_str req;
    ts_idempotency_key := ts_idempotency_key t; ts_intent_id := ts_intent_id t;
    ts_execution_job_id := ts_execution_job_id t; ts_order_id := ts_order_id t;
    ts_command_id := ts_command_id t |};
  mret (trace, req).

(** [d.setdefault(k, v)] *)
Definition dsetdefault (k : string) (v : pyval) (d : dict) : dict :=
  if dmem k d then d else dset k v d.

Definition inject_trace_context (payload : dict) (t : trace_sources) : M Conn dict :=
  let request_value :=
    match clean_optional (ts_request_id t) with
    | Some r => Some r
    | None => clean_optional (dget "request_id" payload)
    end in
  '(trace, req) ← trace_context {|
    ts_trace_id := py_or (ts_trace_id t) (dget "trace_id" payload);
    ts_request_id := opt_str request_value;
    ts_idempotency_key := py_or (ts_idempotency_key t) (dget "idempotency_key" payload);
    ts_intent_id := py_or (ts_intent_id t) (dget "intent_id" payload);
    ts_execution_job_id := py_or (ts_execution_job_id t) (dget "execution_job_id" payload);
    ts_order_id := py_or (py_or (ts_order_id t) (dget "order_id" payload)) (dget "client_order_id" payload);
    ts_command_id := py_or (ts_command_id t) (dget "command_id" payload) |};
  let payload := match req with
                 | Some r => dsetdefault "request_id" (PStr r) payload
                 | None => payload
                 end in
  mret (dsetdefault "trace_id" (PStr trace) payload).

(** ** order_management/outbox.py *)

Definition validate_event_type (event_type : string) : result unit :=
  if String.eqb event_type "settings.changed" then Ok tt
  else if starts_with "command." event_type || starts_with "order." event_type then Ok tt
  else Raise (ValueError "order-management outbox event_type must be settings.changed, command.*, or order.*").

Definition enqueue_order_management_event (aggregate_type aggregate_id event_type idempotency_key : string)
    (payload : dict) (request_id : option string) : M Conn string :=
  _ ← mlift (validate_event_type event_type);
  let event_id := deterministic_outbox_event_id aggregate_type aggregate_id event_type idempotency_key in
  let only t := if String.eqb aggregate_type t then PStr aggregate_id else PNone in
  event_payload ← inject_trace_context payload {|
    ts_trace_id := PNone; ts_request_id := opt_str request_id;
    ts_idempotency_key := PStr idempotency_key; ts_intent_id := PNone;
    ts_execution_job_id := only "execution_job"; ts_order_id := only "order";
    ts_command_id := only "command" |};
  event_payload ← match request_id with
                  | Some r =>
                      r ← mlift (request_id_from_value r);
                      mret (dsetdefault "request_id" (PStr r) event_payload)
                  | None => mret event_payload
                  end;
  now ← get_now;
  _ ← execute (set_outbox_events (fun t =>
        if existsb (fun r => String.eqb (ob_id r) event_id) t then t
        else (t ++ [{|
          ob_id := event_id; ob_status := "pending"; ob_aggregate_type := aggregate_type;
          ob_aggregate_id := aggregate_id; ob_event_type := event_type;
          ob_payload := event_payload; ob_trace_id := Some (py_str (dget "trace_id" event_payload));
          ob_attempts := 0; ob_next_attempt_at := None; ob_published_at := None;
          ob_failed_at := None; ob_error := None; ob_created_at := now |}])%list));
  mret event_id.

Definition TERMINAL_COMMAND_EVENTS : list string :=
  ["command.completed"; "command.partial"; "command.failed"; "command.timed_out"].

(** ORDER BY created_at DESC, outbox_event_id DESC LIMIT 1 *)
Definition later_outbox (a b : outbox_row) : bool :=
  (ob_created_at b <? ob_created_at a)
  || ((ob_created_at a =? ob_created_at b) && negb (String.leb (ob_id a) (ob_id b))).

Definition latest_outbox (rows : list outbox_row) : option outbox_row :=
  fold_left (fun best r => match best with
                           | Some b => if later_outbox r b then Some r else best
                           | None => Some r
                           end) rows None.

Definition fetch_command_result_by_request_id (request_id : string) : M Conn (option outbox_row) :=
  request_id_value ← mlift (request_id_from_value request_id);
  select (fun d => latest_outbox (List.filter (fun r =>
    (match dget "request_id" (ob_payload r) with PStr q => String.eqb q request_id_value | _ => false end)
    && str_in (ob_event_type r) TERMINAL_COMMAND_EVENTS) (outbox_events d))).

(** ** Lemmas *)

Lemma keeps_inject_trace_context p t : keeps_committed (inject_trace_context p t).
Proof. unfold inject_trace_context, trace_context, derive_trace_id. keeps. Qed.

#[export] Hint Resolve keeps_inject_trace_context : keeps.

Lemma keeps_enqueue a b c d p r : keeps_committed (enqueue_order_management_event a b c d p r).
Proof. unfold enqueue_order_management_event. keeps. Qed.

#[export] Hint Resolve keeps_enqueue : keeps.

Lemma inject_trace_frame p t s d s' :
  inject_trace_context p t s = (Ok d, s') -> current s' = current s /\ clock s' = clock s.
Proof.
  unfold inject_trace_context, trace_context, derive_trace_id. intros H. run_inv.
  repeat match goal with H : match ?x with _ => _ end _ = _ |- _ => destruct x end; run_inv; done.
Qed.

(** Injecting a trace keeps every other entry of the payload. *)
Lemma inject_trace_lookup p t s d s' k :
  inject_trace_context p t s = (Ok d, s') -> k <> "trace_id" -> k <> "request_id" ->
  dlookup k d = dlookup k p.
Proof.
  unfold inject_trace_context. intros H N1 N2. run_inv.
  unfold dsetdefault. repeat case_match; rewrite ?dlookup_dset_ne; done.
Qed.

(** What preserves a relation through publishing an event. *)
Section within_publishing.
Context (R : Conn -> Conn -> Prop) `{!PreOrder R} (draws : within R uuid4) (outbox : forall f, within R (execute (set_outbox_events f))).

Lemma within_inject p t : within R (inject_trace_context p t).
Proof.
  apply within_bind; [apply _| |intros [? ?]; apply within_ret, _]. apply within_bind; [apply _| |intros ?; apply within_ret, _].
  unfold derive_trace_id. destruct (clean_optional _); [apply within_ret, _|]. by destruct (first_material _); [apply within_ret, _|].
Qed.

Lemma within_enqueue a b c d p rid : within R (enqueue_order_management_event a b c d p rid).
Proof.
  apply within_bind; [apply _|apply within_lift, _|intros _]. apply within_bind; [apply _|apply within_inject|intros q].
  apply within_bind; [apply _| |intros q2].
  - destruct rid; [|apply within_ret, _]. apply within_bind; [apply _|apply within_lift, _|intros ?; apply within_ret, _].
  - apply within_bind; [apply _|apply within_now, _|intros now]. apply within_bind; [apply _|apply outbox|intros ?; apply within_ret, _].
Qed.
End within_publishing.
