(* ===== verification/Commands.v ===== *)
(** * Commands: durable node command runs

    Models order_management/commands.py: the per-node command runs of
    [node_command_runs], created idempotently and moved along the command
    lifecycle of the state descriptor. *)

From Stdlib Require Import ZArith Lia Ascii.
From S2P Require Import Prelude Decimal PyString DecText PyValue PyTime Store StateDescriptor Sha256.
Open Scope string_scope.
Open Scope Z_scope.

(** ** Definitions *)

Definition TERMINAL_STATUSES : list string := ["completed"; "partial"; "failed"; "timed_out"].

Definition command_run_error : exn := RuntimeError "CommandRunError" "unknown command request_id".
Definition transition_error : exn := RuntimeError "CommandRunTransitionError" "illegal command transition".

(** [_require(name, value)], the trimmed text. *)
Definition require (value : option string) : result string :=
  let text := strip (default "" value) in
  if is_empty text then Raise (ValueError "must not be empty") else Ok text.

(** What [_row_to_dict] returns is the row itself; ["completed"] is derived. *)
Definition run_completed (r : command_run_row) : bool := str_in (cr_status r) TERMINAL_STATUSES.

(** ORDER BY created_at DESC LIMIT 1; of rows created together, the one
    inserted last. *)
Definition latest_run (request_id : string) (rows : list command_run_row) : option command_run_row :=
  fold_left (fun best r =>
    if String.eqb (cr_request_id r) request_id then
      match best with
      | Some b => if cr_created_at b <=? cr_created_at r then Some r else best
      | None => Some r
      end
    else best) rows None.

Definition command_sources (request_id idem : string) (command_id : option string) : trace_sources := {|
  ts_trace_id := PNone; ts_request_id := PStr request_id; ts_idempotency_key := PStr idem;
  ts_intent_id := PNone; ts_execution_job_id := PNone; ts_order_id := PNone;
  ts_command_id := opt_str command_id |}.

(** The row and whether it was a replay. *)
Definition request_command_run (node_id command_type request_id : option string) (payload : dict)
    (command_id idempotency_key : option string) : M Conn (command_run_row * bool) :=
  _ ← mlift (require node_id);
  _ ← mlift (require command_type);
  request_id ← mlift (require request_id);
  let node := default "" node_id in
  let idem := match str_or idempotency_key None with Some k => k | None => request_id end in
  run_payload ← inject_trace_context payload (command_sources request_id idem command_id);
  transaction (
    existing ← select (fun d => List.find (fun r =>
        String.eqb (cr_node_id r) node && String.eqb (cr_idempotency_key r) idem) (node_command_runs d));
    match existing with
    | Some row => mret (row, true)
    | None =>
        run_id ← uuid4;
        now ← get_now;
        taken ← select (fun d => existsb (fun r => String.eqb (cr_id r) run_id) (node_command_runs d));
        _ ← check (negb taken) "node_command_runs_pkey";
        let row := {|
          cr_id := run_id; cr_command_id := command_id; cr_node_id := node;
          cr_command_type := default "" command_type; cr_request_id := request_id;
          cr_idempotency_key := idem; cr_status := "accepted"; cr_payload := run_payload;
          cr_started_at := now; cr_completed_at := None; cr_created_at := now |} in
        _ ← execute (set_node_command_runs (fun t => (t ++ [row])%list));
        mret (row, false)
    end).

Definition get_command_run (request_id : string) : M Conn command_run_row :=
  row ← select (fun d => latest_run request_id (node_command_runs d));
  match row with
  | None => mraise command_run_error
  | Some row => mret row
  end.

(** The row after the UPDATE. *)
Definition moved_run (row : command_run_row) (status : string) (payload : dict) (now : Z)
  : command_run_row := {|
  cr_id := cr_id row; cr_command_id := cr_command_id row; cr_node_id := cr_node_id row;
  cr_command_type := cr_command_type row; cr_request_id := cr_request_id row;
  cr_idempotency_key := cr_idempotency_key row; cr_status := status; cr_payload := payload;
  cr_started_at := cr_started_at row;
  cr_completed_at := if str_in status TERMINAL_STATUSES then coalesce (cr_completed_at row) (Some now)
                     else cr_completed_at row;
  cr_created_at := cr_created_at row |}.

(** [_transition] *)
Definition transition (request_id : option string) (status : string) (result : option dict)
    (error : option string) : M Conn command_run_row :=
  request_id ← mlift (require request_id);
  transaction (
    row ← select (fun d => latest_run request_id (node_command_runs d));
    match row with
    | None => mraise command_run_error
    | Some row =>
        let current := cr_status row in
        if String.eqb current status || str_in current TERMINAL_STATUSES then mret row
        else if negb (legal_transition Command current status) then mraise transition_error
        else
          payload ← inject_trace_context (cr_payload row)
                      (command_sources request_id (cr_idempotency_key row) (cr_command_id row));
          let payload := match result with Some r => dset "result" (PDict r) payload | None => payload end in
          let payload := match error with Some e => dset "error" (PStr e) payload | None => payload end in
          let payload := dset "last_status" (PStr status) payload in
          now ← get_now;
          _ ← execute (set_node_command_runs (map (fun r =>
                if String.eqb (cr_id r) (cr_id row) then moved_run r status payload now else r)));
          mret (moved_run row status payload now)
    end).

Definition mark_running (request_id : option string) (result : option dict) : M Conn command_run_row :=
  transition request_id "running" result None.

Definition mark_verifying (request_id : option string) (result : option dict) : M Conn command_run_row :=
  transition request_id "verifying" result None.

Definition mark_terminal (request_id : option string) (status : string) (result : option dict)
    (error : option string) : M Conn command_run_row :=
  if negb (str_in status TERMINAL_STATUSES)
  then mraise (ValueError "terminal command status expected")
  else transition request_id status result error.

(** ** Histories *)

Inductive command_op :=
  | Request (node_id command_type request_id : option string) (payload : dict)
            (command_id idempotency_key : option string)
  | MarkRunning (request_id : option string) (result : option dict)
  | MarkVerifying (request_id : option string) (result : option dict)
  | MarkTerminal (request_id : option string) (status : string) (result : option dict)
                 (error : option string).

(** A call whose outcome, value or exception, goes to the caller. *)
Definition run_command_op (s : Conn) (op : command_op) : Conn :=
  match op with
  | Request n t r p c i => snd (request_command_run n t r p c i s)
  | MarkRunning r res => snd (mark_running r res s)
  | MarkVerifying r res => snd (mark_verifying r res s)
  | MarkTerminal r st res e => snd (mark_terminal r st res e s)
  end.

(** A later version of a run: the same request, further along, and exactly the
    same row once it was terminal. *)
Definition run_advances (r r' : command_run_row) : Prop :=
  cr_id r' = cr_id r /\ cr_node_id r' = cr_node_id r /\ cr_request_id r' = cr_request_id r
  /\ cr_idempotency_key r' = cr_idempotency_key r
  /\ lifecycle Command (cr_status r) (cr_status r')
  /\ (str_in (cr_status r) TERMINAL_STATUSES = true -> r' = r).

Definition unique_runs (d : Db) : Prop :=
  NoDup (map cr_id (node_command_runs d))
  /\ NoDup (map (fun r => (cr_node_id r, cr_idempotency_key r)) (node_command_runs d)).

(** ** Lemmas *)

Lemma run_advances_refl r : run_advances r r.
Proof. repeat split; constructor. Qed.

Lemma advances_all rows : Forall2 run_advances rows rows.
Proof. induction rows; constructor; auto using run_advances_refl. Qed.

Lemma run_advances_trans a b c : run_advances a b -> run_advances b c -> run_advances a c.
Proof.
  intros (E1 & E2 & E3 & E4 & L & T) (F1 & F2 & F3 & F4 & L' & T').
  split_and!; [congruence.. | by eapply lifecycle_trans |].
  intros Z. specialize (T Z). subst b. auto.
Qed.

Lemma latest_run_in q rows r : latest_run q rows = Some r -> r ∈ rows /\ cr_request_id r = q.
Proof.
  unfold latest_run.
  assert (G : forall best, (forall b, best = Some b -> b ∈ rows /\ cr_request_id b = q) ->
    forall rest, (forall x, x ∈ rest -> x ∈ rows) ->
    fold_left (fun best r => if String.eqb (cr_request_id r) q then
      match best with
      | Some b => if cr_created_at b <=? cr_created_at r then Some r else best
      | None => Some r end else best) rest best = Some r -> r ∈ rows /\ cr_request_id r = q).
  { intros best Hb rest. revert best Hb. induction rest as [|x rest IH]; intros best Hb Hr; simpl; [auto|].
    apply IH; [|by intros; apply Hr; right]. intros b.
    destruct (String.eqb (cr_request_id x) q) eqn:E; [|auto]. bprop.
    destruct best as [b'|]; [case_match|]; intros; simplify_eq; auto; (split; [apply Hr; left | done]). }
  apply G; [done | auto].
Qed.

(** The table after an UPDATE of the row with one id. *)
Lemma update_run rows row f :
  NoDup (map cr_id rows) -> row ∈ rows ->
  (forall r, cr_id (f r) = cr_id r) -> run_advances row (f row) ->
  Forall2 run_advances rows (map (fun r => if String.eqb (cr_id r) (cr_id row) then f r else r) rows).
Proof.
  intros N Hin _ A. induction rows as [|r rows IH]; [constructor|]. inversion N as [|? ? Hn N']; subst.
  simpl. apply elem_of_cons in Hin as [->|Hin].
  - rewrite String.eqb_refl. constructor; [done|]. clear -Hn.
    induction rows as [|x rows IH]; [constructor|]. simpl in *. apply not_elem_of_cons in Hn as [N Hn].
    destruct (String.eqb (cr_id x) (cr_id r)) eqn:E; bprop; [by rewrite E in N|].
    constructor; [apply run_advances_refl | auto].
  - destruct (String.eqb (cr_id r) (cr_id row)) eqn:E; bprop.
    + exfalso. apply Hn. rewrite E. by apply list_elem_of_fmap_2.
    + constructor; [apply run_advances_refl | auto].
Qed.

Lemma advances_keys rows rows' :
  Forall2 run_advances rows rows' ->
  map cr_id rows' = map cr_id rows
  /\ map (fun r => (cr_node_id r, cr_idempotency_key r)) rows'
     = map (fun r => (cr_node_id r, cr_idempotency_key r)) rows.
Proof.
  induction 1 as [|r r' rows rows' (E1 & E2 & _ & E4 & _) _ [IH1 IH2]]; [done|]. simpl. by rewrite IH1, IH2, E1, E2, E4.
Qed.

(** Any transition call leaves every run in place or advances it. *)
Lemma transition_advances q st res err s :
  committed s = current s -> NoDup (map cr_id (node_command_runs (current s))) ->
  let s' := snd (transition q st res err s) in
  committed s' = current s'
  /\ Forall2 run_advances (node_command_runs (current s)) (node_command_runs (current s')).
Proof.
  intros E N. pose proof advances_all as R.
  destruct (transition q st res err s) as [o s'] eqn:T. cbn [snd].
  unfold transition, mlift, mbind at 1, M_bind at 1 in T. cbv beta iota in T.
  destruct (require q) as [rid|e]; [|simplify_eq; by split].
  destruct o as [r|e].
  - apply transaction_inv_ok in T as (s1 & B & ->). split; [done|]. cbn [commit current]. run_inv.
    destruct (latest_run rid (node_command_runs (current s))) as [row|] eqn:L; [|run_inv].
    apply latest_run_in in L as [Hin _].
    destruct (String.eqb (cr_status row) st || str_in (cr_status row) TERMINAL_STATUSES) eqn:D; [by run_inv|].
    destruct (legal_transition Command (cr_status row) st) eqn:G; cbn [negb] in B; run_inv.
    match goal with H : inject_trace_context _ _ _ = _ |- _ => apply inject_trace_frame in H as [I _] end.
    run_frame. apply update_run; [done..|]. apply orb_false_iff in D as [_ D].
    split_and!; [done..| |]; cbn.
    + by apply lifecycle_one.
    + intros X. congruence.
  - apply transaction_atomic in T as [T1 T2]; [rewrite T1, T2, E; auto|]. keeps.
Qed.

Lemma request_advances n t q p c i s :
  committed s = current s -> unique_runs (current s) ->
  let s' := snd (request_command_run n t q p c i s) in
  committed s' = current s' /\ unique_runs (current s')
  /\ exists new, Forall2 run_advances (node_command_runs (current s)) (take (length (node_command_runs (current s))) (node_command_runs (current s')))
     /\ node_command_runs (current s') = (node_command_runs (current s) ++ new)%list
     /\ Forall (fun r => cr_status r = "accepted") new.
Proof.
  intros E U. pose proof advances_all as R.
  assert (Same : forall d, d = current s -> unique_runs d /\ exists new,
      Forall2 run_advances (node_command_runs (current s))
        (take (length (node_command_runs (current s))) (node_command_runs d))
      /\ node_command_runs d = (node_command_runs (current s) ++ new)%list
      /\ Forall (fun r => cr_status r = "accepted") new).
  { intros d ->. split; [done|]. exists []. rewrite app_nil_r, firstn_all. auto. }
  destruct (request_command_run n t q p c i s) as [o s'] eqn:T. cbn [snd].
  unfold request_command_run, mlift, mbind at 1 2 3, M_bind at 1 2 3 in T.
  destruct (require n); [|simplify_eq; by split; [|apply Same]].
  destruct (require t); [|simplify_eq; by split; [|apply Same]].
  destruct (require q) as [rid|]; [|simplify_eq; by split; [|apply Same]].
  unfold mbind at 1, M_bind at 1 in T.
  destruct (inject_trace_context _ _ s) as [[d|e] s1] eqn:I.
  2: { exfalso. revert I. unfold inject_trace_context, trace_context, derive_trace_id, mbind, M_bind.
       cbn. intros. repeat case_match; simplify_eq. }
  assert (C1 : committed s1 = committed s) by (pose proof (keeps_inject_trace_context p
    (command_sources rid (match str_or i None with Some k => k | None => rid end) c) s) as K; by rewrite I in K).
  apply inject_trace_frame in I as [I _].
  destruct o as [r|e].
  2: { apply transaction_atomic in T as [T1 T2]; [|keeps]. rewrite T1, T2, C1, E. split; [done|]. by apply Same. }
  apply transaction_inv_ok in T as (s2 & B & ->). split; [done|]. cbn [commit current]. run_inv.
  destruct (List.find _ _) as [row|] eqn:F; run_inv; [by apply Same|].
  match goal with H : negb (existsb _ _) = true |- _ => apply negb_true_iff in H; rename H into Fresh end.
  run_frame. rewrite I in *. match goal with |- context [(_ ++ [?r])%list] => set (row := r) end.
  destruct U as [U1 U2]. split; [split|].
  - cbn. rewrite map_app. apply NoDup_app. split_and!; [done| |apply NoDup_singleton].
    intros z Hz ->%list_elem_of_singleton. apply list_elem_of_fmap_1 in Hz as (y & E1 & Hy).
    assert (existsb (fun r => String.eqb (cr_id r) (cr_id row)) (node_command_runs (current s)) = true); [|cbn in *; congruence].
    apply existsb_exists. exists y. split; [by apply list_elem_of_In | apply String.eqb_eq; by rewrite E1].
  - cbn. rewrite map_app. apply NoDup_app. split_and!; [done| |apply NoDup_singleton].
    intros z Hz ->%list_elem_of_singleton. apply list_elem_of_fmap_1 in Hz as (y & E1 & Hy).
    apply list_elem_of_In in Hy. pose proof (List.find_none _ _ F _ Hy) as G. cbn in G, E1.
    injection E1 as E1 E2. by rewrite E1, E2, !String.eqb_refl in G.
  - exists [row]. cbn. rewrite take_app_length. split_and!; [apply R | done | by repeat constructor].
Qed.

Lemma mark_terminal_advances q st res err s :
  committed s = current s -> NoDup (map cr_id (node_command_runs (current s))) ->
  let s' := snd (mark_terminal q st res err s) in
  committed s' = current s'
  /\ Forall2 run_advances (node_command_runs (current s)) (node_command_runs (current s')).
Proof.
  intros E N. unfold mark_terminal. destruct (negb _); [|by apply transition_advances].
  cbn [snd mraise]. split; [done|]. apply advances_all.
Qed.

(** One call: the prefix of the old rows has advanced, new rows are accepted. *)
Lemma command_op_step op s :
  committed s = current s -> unique_runs (current s) ->
  let s' := run_command_op s op in
  committed s' = current s' /\ unique_runs (current s')
  /\ exists old new, node_command_runs (current s') = (old ++ new)%list
     /\ Forall2 run_advances (node_command_runs (current s)) old
     /\ Forall (fun r => cr_status r = "accepted") new.
Proof.
  intros E U s'.
  assert (T : forall u, committed u = current u
      /\ Forall2 run_advances (node_command_runs (current s)) (node_command_runs (current u)) ->
      committed u = current u /\ unique_runs (current u)
      /\ exists old new, node_command_runs (current u) = (old ++ new)%list
         /\ Forall2 run_advances (node_command_runs (current s)) old
         /\ Forall (fun r => cr_status r = "accepted") new).
  { intros u [Eu F]. split; [done|]. destruct (advances_keys _ _ F) as [K1 K2]. split.
    - unfold unique_runs. by rewrite K1, K2.
    - exists (node_command_runs (current u)), []. by rewrite app_nil_r. }
  destruct U as [U1 U2]. destruct op; subst s'; unfold run_command_op, mark_running, mark_verifying.
  - destruct (request_advances node_id command_type request_id payload command_id idempotency_key s E (conj U1 U2))
      as (A & B & new & F & P & N). split; [done|]. split; [done|].
    eexists _, new. split; [exact P|]. split; [|done]. by rewrite P, take_app_length in F.
  - by apply T, transition_advances.
  - by apply T, transition_advances.
  - by apply T, mark_terminal_advances.
Qed.

(** C31. Over any history of request, running, verifying and terminal calls,
    failed ones included, a command run is never lost or duplicated, keeps its
    node, request and idempotency key, follows the command lifecycle, and
    once terminal is never written again. *)
Theorem command_history s ops r :
  committed s = current s -> unique_runs (current s) -> r ∈ node_command_runs (current s) ->
  let s' := fold_left run_command_op ops s in
  unique_runs (current s') /\ exists r', r' ∈ node_command_runs (current s') /\ run_advances r r'.
Proof.
  revert s r. induction ops as [|op ops IH]; intros s r E U Hr; cbn [fold_left].
  { split; [done|]. exists r. split; [done | apply run_advances_refl]. }
  destruct (command_op_step op s E U) as (E' & U' & old & new & P & F & _).
  apply list_elem_of_lookup in Hr as [i Hi]. apply (Forall2_lookup_l _ _ _ _ _ F) in Hi as (m & Hm & A).
  destruct (IH _ m E' U') as (U'' & r' & Hr' & A').
  { rewrite P. apply elem_of_app. left. by eapply list_elem_of_lookup_2. }
  split; [done|]. exists r'. split; [done | by eapply run_advances_trans].
Qed.

Definition sample_runs : Conn :=
  run_command_op (connect empty_db 7) (Request (Some "node-1") (Some "cancel_all") (Some " r1 ") [] None None).

Definition sample_ops : list command_op :=
  [MarkVerifying (Some "r1") None; MarkRunning (Some "r1") None; MarkVerifying (Some "r1") None;
   MarkTerminal (Some "r1") "completed" (Some [("cancelled", PInt 3)]) None;
   MarkTerminal (Some "r1") "failed" None (Some "late");
   Request (Some "node-1") (Some "cancel_all") (Some "r1") [] None None].

Example sample_runs_status :
  map cr_status (node_command_runs (current (fold_left run_command_op sample_ops sample_runs))) = ["completed"].
Proof. vm_compute. reflexivity. Qed.

Lemma command_history_witness :
  unique_runs (current (fold_left run_command_op sample_ops sample_runs))
  /\ exists r r', r ∈ node_command_runs (current sample_runs)
       /\ r' ∈ node_command_runs (current (fold_left run_command_op sample_ops sample_runs))
       /\ run_advances r r'.
Proof.
  destruct (node_command_runs (current sample_runs)) as [|r l] eqn:E; [vm_compute in E; discriminate E|].
  assert (Hr : r ∈ node_command_runs (current sample_runs)) by (rewrite E; left).
  destruct (command_history sample_runs sample_ops r) as (U & r' & Hr' & A);
    [reflexivity | | exact Hr | split; [exact U | exists r, r'; split_and!; [left | exact Hr' | exact A]]].
  split; vm_compute; repeat constructor; intros H; inversion H.
Defined.

(** A replayed request returns the existing run, in whatever state it has
    reached, and writes nothing. *)
Theorem request_replay s node ty q p c i row payload :
  require (Some node) = Ok payload -> is_ok (require (Some ty)) = true -> require (Some q) = Ok q ->
  List.find (fun r => String.eqb (cr_node_id r) node && String.eqb (cr_idempotency_key r) q)
    (node_command_runs (current s)) = Some row ->
  i = None ->
  exists s', request_command_run (Some node) (Some ty) (Some q) p c i s = (Ok (row, true), s')
    /\ current s' = current s.
Proof.
  intros H1 H2 H3 F ->. unfold request_command_run. rewrite H1, H3.
  destruct (require (Some ty)) as [t|]; [|done]. unfold mlift, mbind, M_bind. cbv zeta. cbn [str_or default from_option id].
  destruct (inject_trace_context _ _ s) as [[d|e] s1] eqn:I.
  2: { exfalso. revert I. unfold inject_trace_context, trace_context, derive_trace_id, mbind, M_bind.
       cbn. intros. repeat case_match; simplify_eq. }
  apply inject_trace_frame in I as [I _]. unfold transaction, select.
  rewrite I, F. eexists. split; [reflexivity|]. done.
Qed.

Lemma request_replay_witness :
  exists row s', request_command_run (Some "node-1") (Some "x") (Some "r1") [] None None sample_runs
    = (Ok (row, true), s') /\ current s' = current sample_runs.
Proof.
  destruct (List.find (fun r => String.eqb (cr_node_id r) "node-1" && String.eqb (cr_idempotency_key r) "r1")
    (node_command_runs (current sample_runs))) as [row|] eqn:F; [|vm_compute in F; discriminate F].
  exists row. apply (request_replay _ _ _ _ _ _ _ _ "node-1"); try reflexivity. exact F.
Defined.
