(* ===== verification/ExecutionJobs.v ===== *)
(** * ExecutionJobs: the durable job of an approved intent

    Models order_management/execution_jobs.py (creation with its risk
    reservation and outbox event, claiming, retries, termination),
    order_management/intent_status.py (the intent timeline) and
    order_management/recovery.py. *)

From Stdlib Require Import ZArith Lia Ascii.
From S2P Require Import Prelude Decimal PyString DecText PyValue PyTime Store Sha256.
Open Scope string_scope.
Open Scope Z_scope.

(** ** Requests *)

Definition PENDING_STATUSES : list string := ["pending"; "retry_scheduled"].
Definition TERMINAL_STATUSES : list string :=
  ["completed"; "denied"; "rejected"; "failed"; "cancelled"; "expired"].

Record ExecutionJobRequest := {
  jr_execution_job_id : string;
  jr_intent_id : string;
  jr_account_id : string;
  jr_instrument_id : string;
  jr_venue_symbol : string;
  jr_action : string;
  jr_status : string;
  jr_request_id : string;
  jr_idempotency_key : string;
  jr_payload : dict }.

(** [_decimal(value)]: anything unreadable is zero. *)
Definition job_decimal (v : pyval) : xdec := default (XFin dzero) (to_xdec v).

Definition fmt (x : xdec) : string :=
  if xtrue x then xformat_f (xnormalize x) else "0".

Definition reservation_payload (risk_budget order_plan : dict) : result dict :=
  let max_notional := job_decimal
    (py_or (py_or (py_or (dget "notional" risk_budget) (dget "max_notional" risk_budget))
                  (dget "notional" order_plan)) (PStr "0")) in
  let explicit := py_or (dget "risk_amount" risk_budget) (dget "max_risk" risk_budget) in
  risk_amount ← (if truthy explicit then Ok (job_decimal explicit)
                 else xmul max_notional
                        (job_decimal (py_or (dget "risk_fraction" risk_budget) (PStr "0"))));
  let leverage := job_decimal (py_or (dget "max_leverage" risk_budget) (PStr "0")) in
  unlevered ← xleb leverage (XFin dzero);
  margin ← (if unlevered : bool then Ok (XFin dzero) else xdiv max_notional leverage);
  Ok [("notional", PStr (fmt max_notional)); ("risk_amount", PStr (fmt risk_amount));
      ("margin_amount", PStr (fmt margin)); ("expires_at", PNone)].

(** [build_execution_job_request(intent_row, now=now, request_id=request_id)] *)
Definition build_execution_job_request (intent_id : string) (row : intent_row) (now : Z)
    (request_id : option string) : M Conn ExecutionJobRequest :=
  let account_id := ti_account_id row in
  let instrument_id := ti_instrument_id row in
  let action := ti_action row in
  let key := execution_job_key intent_id action (Some instrument_id) (Some account_id) in
  request_id ← mlift (match str_or request_id None with
                      | Some r => Ok r
                      | None => request_id_for_material [Some "execution_job"; Some intent_id; Some key]
                      end);
  reservation ← mlift (reservation_payload (ti_risk_budget row) (ti_order_plan row));
  let intent := [
    ("intent_id", PStr intent_id); ("account_id", PStr account_id);
    ("instrument_id", PStr instrument_id); ("action", PStr action);
    ("idempotency_key", PStr (ti_idempotency_key row));
    ("valid_until", PStr (isoformat (ti_valid_until row)));
    ("order_plan", PDict (ti_order_plan row)); ("risk_budget", PDict (ti_risk_budget row))] in
  let payload := [
    ("schema_version", PStr "1.0"); ("created_by", PStr "order_management.execution_jobs");
    ("created_at", PStr (isoformat now)); ("attempts", PInt 0);
    ("intent", PDict intent); ("reservation", PDict reservation)] in
  let sources trace := {|
    ts_trace_id := trace; ts_request_id := PStr request_id; ts_idempotency_key := PStr key;
    ts_intent_id := PStr intent_id; ts_execution_job_id := PNone; ts_order_id := PNone;
    ts_command_id := PNone |} in
  payload ← inject_trace_context payload (sources PNone);
  intent ← inject_trace_context (as_dict (dget "intent" payload)) (sources (dget "trace_id" payload));
  mret {|
    jr_execution_job_id := deterministic_execution_job_id key;
    jr_intent_id := intent_id; jr_account_id := account_id; jr_instrument_id := instrument_id;
    jr_venue_symbol := instrument_id; jr_action := action; jr_status := "pending";
    jr_request_id := request_id; jr_idempotency_key := key;
    jr_payload := dset "intent" (PDict intent) payload |}.

(** ** Writing *)

Definition same_job (account_id key : string) (r : job_row) : bool :=
  String.eqb (ej_account_id r) account_id && String.eqb (ej_idempotency_key r) key.

Definition update_job (f : job_row -> job_row) (p : job_row -> bool) : list job_row -> list job_row :=
  map (fun r => if p r then f r else r).

(** The columns a job update writes. *)
Definition job_with (status : string) (payload : dict) (started completed : option Z)
    (request_id : option string) (now : Z) (r : job_row) : job_row := {|
  ej_id := ej_id r; ej_intent_id := ej_intent_id r; ej_account_id := ej_account_id r;
  ej_instrument_id := ej_instrument_id r; ej_venue_symbol := ej_venue_symbol r;
  ej_action := ej_action r; ej_status := status; ej_request_id := request_id;
  ej_idempotency_key := ej_idempotency_key r; ej_payload := payload;
  ej_created_at := ej_created_at r; ej_updated_at := now; ej_started_at := started;
  ej_completed_at := completed |}.

Definition insert_execution_job (request : ExecutionJobRequest) : M Conn unit :=
  now ← get_now;
  let key := same_job (jr_account_id request) (jr_idempotency_key request) in
  jobs ← select execution_jobs;
  if existsb key jobs then
    execute (set_execution_jobs (update_job (fun r =>
      job_with (ej_status r) (dupdate (ej_payload r) (jr_payload request)) (ej_started_at r)
        (ej_completed_at r) (coalesce (ej_request_id r) (Some (jr_request_id request))) now r) key))
  else
    _ ← check (negb (existsb (fun r => String.eqb (ej_id r) (jr_execution_job_id request)) jobs))
          "execution_jobs_pkey";
    execute (set_execution_jobs (fun t => (t ++ [{|
      ej_id := jr_execution_job_id request; ej_intent_id := Some (jr_intent_id request);
      ej_account_id := jr_account_id request; ej_instrument_id := jr_instrument_id request;
      ej_venue_symbol := jr_venue_symbol request; ej_action := jr_action request;
      ej_status := jr_status request; ej_request_id := Some (jr_request_id request);
      ej_idempotency_key := jr_idempotency_key request; ej_payload := jr_payload request;
      ej_created_at := now; ej_updated_at := now; ej_started_at := None;
      ej_completed_at := None |}])%list)).

Definition same_reservation (account_id key : string) (r : reservation_row) : bool :=
  String.eqb (rv_account_id r) account_id && String.eqb (rv_idempotency_key r) key.

(** A string parameter of a numeric column. *)
Definition numeric_text (v : pyval) : result xdec :=
  match v with
  | PStr s => match parse_dec s with
              | Some x => Ok (pg_numeric x)
              | None => Raise (RuntimeError "InvalidTextRepresentation" "numeric")
              end
  | _ => Raise (RuntimeError "NotNullViolation" "numeric")
  end.

Definition risk_key (request : ExecutionJobRequest) : string :=
  sha256_hex (jr_idempotency_key request +:+ "|risk").

Definition reservation_checks (r : reservation_row) : bool :=
  pg_leb (XFin dzero) (rv_notional r) && pg_leb (XFin dzero) (rv_risk_amount r)
  && pg_leb (XFin dzero) (rv_margin_amount r).

Definition ensure_risk_reservation (request : ExecutionJobRequest) : M Conn unit :=
  let reservation := as_dict (dget "reservation" (jr_payload request)) in
  let key := risk_key request in
  let column k := numeric_text (default (PStr "0") (dlookup k reservation)) in
  id ← uuid4;
  now ← get_now;
  notional ← mlift (column "notional");
  risk_amount ← mlift (column "risk_amount");
  margin_amount ← mlift (column "margin_amount");
  let payload := [("intent_id", PStr (jr_intent_id request));
                  ("execution_job_id", PStr (jr_execution_job_id request))] in
  let row := {|
    rv_id := id; rv_execution_job_id := Some (jr_execution_job_id request);
    rv_account_id := jr_account_id request; rv_position_key := None;
    rv_venue_symbol := jr_venue_symbol request; rv_idempotency_key := key;
    rv_status := "held"; rv_notional := notional; rv_risk_amount := risk_amount;
    rv_margin_amount := margin_amount; rv_expires_at := None; rv_released_at := None;
    rv_payload := payload; rv_created_at := now; rv_updated_at := now |} in
  _ ← check (reservation_checks row) "ck_risk_reservations";
  let conflict := same_reservation (jr_account_id request) key in
  execute (set_risk_reservations (fun t =>
    if existsb conflict t then
      map (fun r => if conflict r then {|
        rv_id := rv_id r;
        rv_execution_job_id := coalesce (rv_execution_job_id r) (Some (jr_execution_job_id request));
        rv_account_id := rv_account_id r; rv_position_key := rv_position_key r;
        rv_venue_symbol := rv_venue_symbol r; rv_idempotency_key := rv_idempotency_key r;
        rv_status := rv_status r; rv_notional := rv_notional r; rv_risk_amount := rv_risk_amount r;
        rv_margin_amount := rv_margin_amount r; rv_expires_at := rv_expires_at r;
        rv_released_at := rv_released_at r; rv_payload := dupdate (rv_payload r) payload;
        rv_created_at := rv_created_at r; rv_updated_at := now |} else r) t
    else (t ++ [row])%list)).

Definition create_work (intent_id : string) (now : option datetime) (request_id : option string)
    (reserve : bool) : M Conn ExecutionJobRequest :=
  row ← select (fun d => trade_intents d !! intent_id);
  match row with
  | None => mraise (ValueError ("approved intent not found: " +:+ intent_id))
  | Some row =>
      if negb (String.eqb (ti_status row) "approved")
      then mraise (ValueError ("intent is not approved: " +:+ intent_id))
      else
        clk ← get_now;
        request ← build_execution_job_request intent_id row (from_option aware clk now) request_id;
        _ ← insert_execution_job request;
        _ ← (if reserve then ensure_risk_reservation request else mret tt);
        _ ← enqueue_order_management_event "execution_job" (jr_execution_job_id request)
              "order.execution_job.created" (jr_idempotency_key request)
              [("execution_job_id", PStr (jr_execution_job_id request));
               ("intent_id", PStr (jr_intent_id request));
               ("account_id", PStr (jr_account_id request));
               ("venue_symbol", PStr (jr_venue_symbol request))]
              (Some (jr_request_id request));
        mret request
  end.

Definition create_execution_job_for_approved_intent (intent_id : string) (now : option datetime)
    (request_id : option string) (reserve manage_transaction : bool) : M Conn ExecutionJobRequest :=
  tx_scope manage_transaction (create_work intent_id now request_id reserve).

(** ** Claiming *)

(** The WHERE clause; the cast of the stored text can fail. *)
Definition claimable (now : Z) (r : job_row) : result bool :=
  if negb (str_in (ej_status r) PENDING_STATUSES) then Ok false
  else if negb (String.eqb (ej_status r) "retry_scheduled") then Ok true
  else match dget "next_attempt_at" (as_dict (dget "retry" (ej_payload r))) with
       | PNone => Ok true
       | PStr s => match fromisoformat s with
                   | Ok t => Ok (aware t <=? now)
                   | Raise _ => Raise (RuntimeError "InvalidDatetimeFormat" s)
                   end
       | v => Raise (RuntimeError "InvalidDatetimeFormat" (py_str v))
       end.

Definition earlier_job (a b : job_row) : bool :=
  (ej_created_at a <? ej_created_at b)
  || ((ej_created_at a =? ej_created_at b) && String.leb (ej_id a) (ej_id b)).

(** ORDER BY created_at, execution_job_id LIMIT 1 over the claimable jobs. *)
Fixpoint next_claimable (now : Z) (jobs : list job_row) : result (option job_row) :=
  match jobs with
  | [] => Ok None
  | r :: jobs =>
      c ← claimable now r;
      rest ← next_claimable now jobs;
      Ok (if c : bool then
            match rest with
            | Some b => if earlier_job r b then Some r else rest
            | None => Some r
            end
          else rest)
  end.

Definition claimed_payload (worker_id : string) (now : Z) (payload : dict) : result dict :=
  attempts ← py_int (py_or (dget "attempts" payload) (PInt 0));
  let payload := dset "claimed_by" (PStr worker_id) payload in
  let payload := dset "claimed_at" (PStr (isoformat now)) payload in
  Ok (dset "attempts" (PInt attempts) payload).

Definition claim_work (worker_id : string) (now : Z) : M Conn (option job_row) :=
  jobs ← select execution_jobs;
  row ← mlift (next_claimable now jobs);
  match row with
  | None => mret None
  | Some row =>
      payload ← mlift (claimed_payload worker_id now (ej_payload row));
      clk ← get_now;
      let claimed := job_with "claimed" payload (coalesce (ej_started_at row) (Some now))
                       (ej_completed_at row) (ej_request_id row) clk row in
      _ ← execute (set_execution_jobs (update_job (fun r =>
            job_with "claimed" payload (coalesce (ej_started_at r) (Some now))
              (ej_completed_at r) (ej_request_id r) clk r)
            (fun r => String.eqb (ej_id r) (ej_id row))));
      mret (Some claimed)
  end.

(** The claimed row stands for [ClaimedExecutionJob], which projects it. *)
Definition claim_next_execution_job (worker_id : string) (now : option datetime)
    (manage_transaction : bool) : M Conn (option job_row) :=
  clk ← get_now;
  tx_scope manage_transaction (claim_work worker_id (from_option aware clk now)).

(** ** Retries and termination *)

(** [retry_payload]: the next status and payload. *)
Definition retry_payload (payload : dict) (reason : string) (delay_seconds max_attempts now : Z)
  : result (string * dict) :=
  attempts ← py_int (py_or (dget "attempts" payload) (PInt 0));
  let attempts := attempts + 1 in
  let payload := dset "attempts" (PInt attempts) payload in
  if max_attempts <? attempts then
    Ok ("failed", dset "terminal" (PDict [("reason", PStr "max_attempts_exceeded");
           ("last_error", PStr reason); ("at", PStr (isoformat now))]) payload)
  else
    Ok ("retry_scheduled", dset "retry" (PDict [("reason", PStr reason);
           ("next_attempt_at", PStr (isoformat (now + seconds delay_seconds)))]) payload).

Definition job_by_id (id : string) (r : job_row) : bool := String.eqb (ej_id r) id.

Definition schedule_job_retry (id reason : string) (delay_seconds max_attempts : Z)
    (now : option datetime) : M Conn (string * dict) :=
  clk ← get_now;
  let now := from_option aware clk now in
  transaction (
    row ← select (fun d => List.find (job_by_id id) (execution_jobs d));
    match row with
    | None => mraise (ValueError ("execution job not found: " +:+ id))
    | Some row =>
        '(status, payload) ← mlift (retry_payload (ej_payload row) reason delay_seconds max_attempts now);
        let completed := if str_in status TERMINAL_STATUSES then Some now else None in
        _ ← execute (set_execution_jobs (update_job (fun r =>
              job_with status payload (ej_started_at r) (coalesce completed (ej_completed_at r))
                (ej_request_id r) clk r) (job_by_id id)));
        mret (status, payload)
    end).

Definition mark_job_terminal (id status reason : string) (now : option datetime) (detail : dict)
  : M Conn unit :=
  if negb (str_in status TERMINAL_STATUSES)
  then mraise (ValueError ("not a terminal execution job status: " +:+ status))
  else
    clk ← get_now;
    let now := from_option aware clk now in
    transaction (
      row ← select (fun d => List.find (job_by_id id) (execution_jobs d));
      match row with
      | None => mraise (ValueError ("execution job not found: " +:+ id))
      | Some row =>
          let terminal := dupdate [("status", PStr status); ("reason", PStr reason);
                                   ("at", PStr (isoformat now))] detail in
          let payload := dset "terminal" (PDict terminal) (ej_payload row) in
          execute (set_execution_jobs (update_job (fun r =>
            job_with status payload (ej_started_at r) (Some now) (ej_request_id r) clk r)
            (job_by_id id)))
      end).

(** ** order_management/intent_status.py *)

Record IntentStatusUpdate := {
  isu_intent_status : string;
  isu_job_status : string;
  isu_reason : string }.

Definition classify_intent_outcome (event_type : string) (payload : dict) : IntentStatusUpdate :=
  let reason := py_str (py_or (py_or (dget "reason" payload) (dget "error" payload)) (PStr "")) in
  let or_reason d := if is_empty reason then d else reason in
  let update a b c := {| isu_intent_status := a; isu_job_status := b; isu_reason := c |} in
  if str_in event_type ["OrderDenied"; "IntentDenied"] then update "denied" "denied" (or_reason "denied")
  else if str_in event_type ["OrderRejected"; "IntentRejected"]
       then update "rejected" "rejected" (or_reason "rejected")
  else if str_in event_type ["OrderSubmitFailed"; "ExecutionFailed"]
       then update "failed" "failed" (or_reason "failed")
  else if str_in event_type ["OrderFilled"; "IntentCompleted"] then update "completed" "completed" "filled"
  else if String.eqb event_type "NodeAcceptedIntent"
       then update "node_accepted" "claimed" "node_accepted"
  else if str_in event_type ["OrderWorking"; "OrderAccepted"]
       then update "executing" "executing" "executing"
  else update "needs_review" "needs_review" (or_reason "unmapped_event").

Definition build_timeline_item (intent_id : string) (execution_job_id : option string)
    (u : IntentStatusUpdate) (event_id : option string) (event_type : string) (observed_at : Z)
    (payload : dict) : dict := [
  ("intent_id", PStr intent_id); ("execution_job_id", opt_str execution_job_id);
  ("intent_status", PStr (isu_intent_status u)); ("job_status", PStr (isu_job_status u));
  ("reason", PStr (isu_reason u)); ("event_id", opt_str event_id);
  ("event_type", PStr event_type); ("observed_at", PStr (isoformat observed_at));
  ("payload", PDict payload)].

(** [_db_intent_status]; [labels] are the labels of the enum type
    trade_intent_status in the database's catalogue. *)
Definition db_intent_status (labels : list string) (desired : string) : option string :=
  if str_in desired labels then Some desired
  else
    let fallback :=
      if str_in desired ["denied"; "failed"] then Some "rejected"
      else if str_in desired ["needs_review"; "node_accepted"; "executing"] then Some "approved"
      else if String.eqb desired "completed" then None
      else Some desired in
    match fallback with
    | Some f => if str_in f labels then Some f else None
    | None => None
    end.

Definition insert_audit_timeline (intent_id : string) (item : dict) : M Conn unit :=
  _ ← uuid4;
  now ← get_now;
  execute (set_audit_events (fun t => (t ++ [{|
    au_event_type := "intent.timeline"; au_aggregate_type := "trade_intent";
    au_aggregate_id := intent_id; au_actor := None; au_trace_id := None; au_raw_message_id := None;
    au_intent_id := Some intent_id; au_payload := item;
    au_created_at := now |}])%list)).

Definition with_intent_status (status : string) (now : Z) (r : intent_row) : intent_row := {|
  ti_hermes_decision_id := ti_hermes_decision_id r; ti_risk_decision_id := ti_risk_decision_id r;
  ti_target_position_id := ti_target_position_id r; ti_approved_at := ti_approved_at r;
  ti_account_id := ti_account_id r; ti_instrument_id := ti_instrument_id r;
  ti_action := ti_action r; ti_status := status; ti_order_plan := ti_order_plan r;
  ti_risk_budget := ti_risk_budget r; ti_valid_until := ti_valid_until r;
  ti_idempotency_key := ti_idempotency_key r; ti_updated_at := now |}.

(** [persist_intent_status]; an event carries its id, type and payload. *)
Definition persist_intent_status (labels : list string) (intent_id : string)
    (execution_job_id : option string) (event_id : option string) (event_type : string)
    (payload : dict) (observed_at : option datetime) : M Conn dict :=
  clk ← get_now;
  let observed_at := from_option aware clk observed_at in
  let u := classify_intent_outcome event_type payload in
  let item := build_timeline_item intent_id execution_job_id u event_id event_type observed_at payload in
  transaction (
    _ ← match db_intent_status labels (isu_intent_status u) with
        | Some st => execute (set_trade_intents (alter (with_intent_status st clk) intent_id))
        | None => mret tt
        end;
    _ ← match execution_job_id with
        | Some job => execute (set_execution_jobs (update_job (fun r =>
              job_with (isu_job_status u) (dset "intent_timeline_last" (PDict item) (ej_payload r))
                (ej_started_at r)
                (if str_in (isu_job_status u) TERMINAL_STATUSES
                 then coalesce (ej_completed_at r) (Some observed_at) else ej_completed_at r)
                (ej_request_id r) clk r) (job_by_id job)))
        | None => mret tt
        end;
    _ ← insert_audit_timeline intent_id item;
    mret item).

(** ** order_management/recovery.py *)

Definition ACTIVE_ORDER_STATUSES : list string := ["accepted"; "working"; "partially_filled"; "submitted"].

Record RecoveryDecision := {
  rd_action : string;
  rd_reason : string;
  rd_next_status : option string }.

Definition decide_recovery_action (client_order_id : option string) (payload : dict)
    (local_orders : list dict) (reconciliation_clean : option bool) : RecoveryDecision :=
  let accepted := existsb (fun order =>
    match client_order_id with
    | Some c => String.eqb (py_str (dget "client_order_id" order)) c
                && str_in (py_str (dget "status" order)) ACTIVE_ORDER_STATUSES
    | None => false
    end) local_orders in
  if accepted then {| rd_action := "do_not_resubmit"; rd_reason := "accepted_order_exists";
                      rd_next_status := Some "executing" |}
  else match reconciliation_clean with
       | None => {| rd_action := "reconcile_first"; rd_reason := "unknown_submit_state";
                    rd_next_status := Some "needs_review" |}
       | Some false => {| rd_action := "needs_review"; rd_reason := "reconciliation_failed";
                          rd_next_status := Some "needs_review" |}
       | Some true =>
           if String.eqb (py_str (dget "state" (as_dict (dget "submit" payload)))) "unknown"
           then {| rd_action := "needs_review"; rd_reason := "network_uncertain_after_clean_reconcile";
                   rd_next_status := Some "needs_review" |}
           else {| rd_action := "resume"; rd_reason := "safe_to_resume"; rd_next_status := Some "pending" |}
       end.

(** ** Lemmas *)

Lemma length_update_job f p l : length (update_job f p l) = length l.
Proof. unfold update_job. apply length_map. Qed.

Lemma update_job_id f p l : (forall r, ej_id (f r) = ej_id r) -> map ej_id (update_job f p l) = map ej_id l.
Proof. intros H. unfold update_job. rewrite map_map. apply map_ext. intros r. by destruct (p r). Qed.

(** *** Retries *)

(** The payload after [k] consecutive retries. *)
Fixpoint retry_n (k : nat) (payload : dict) (reason : string) (delay max_attempts now : Z)
  : result (string * dict) :=
  match k with
  | O => Ok ("retry_scheduled", payload)
  | S k =>
      '(_, payload) ← retry_n k payload reason delay max_attempts now;
      retry_payload payload reason delay max_attempts now
  end.

Lemma retry_step payload reason delay mx now a :
  py_int (py_or (dget "attempts" payload) (PInt 0)) = Ok a ->
  exists st p, retry_payload payload reason delay mx now = Ok (st, p)
    /\ st = (if mx <? a + 1 then "failed" else "retry_scheduled")
    /\ dget "attempts" p = PInt (a + 1).
Proof.
  intros H. unfold retry_payload. rewrite H. unfold mbind, result_bind.
  destruct (mx <? a + 1); eexists _, _; (split; [reflexivity|]); (split; [done|]);
    rewrite dget_dset_ne by done; apply dget_dset_eq.
Qed.

(** A job is retried at most [max_attempts] times: the k-th consecutive
    retry always returns, counts k attempts, and reschedules the job exactly
    when k is within the budget; one more fails it. *)
Theorem retry_attempts_bounded k payload reason delay mx now :
  py_int (py_or (dget "attempts" payload) (PInt 0)) = Ok 0 ->
  exists st p, retry_n (S k) payload reason delay mx now = Ok (st, p)
    /\ st = (if mx <? Z.of_nat (S k) then "failed" else "retry_scheduled")
    /\ dget "attempts" p = PInt (Z.of_nat (S k)).
Proof.
  intros H0. induction k as [|k (st & p & E & _ & A)].
  - destruct (retry_step payload reason delay mx now 0 H0) as (st & p & E & S & A).
    exists st, p. split; [exact E | done].
  - cbn [retry_n] in *. rewrite E. unfold mbind, result_bind.
    destruct (retry_step p reason delay mx now (Z.of_nat (S k))) as (st' & p' & E' & S' & A').
    { rewrite A. unfold py_or, truthy. destruct (negb _) eqn:Z; [done|]. bprop. lia. }
    exists st', p'. rewrite E'. split; [done|].
    replace (Z.of_nat (S (S k))) with (Z.of_nat (S k) + 1) by lia. done.
Qed.

Lemma retry_attempts_bounded_witness :
  exists st p, retry_n 4 [("attempts", PInt 0)] "timeout" 30 3 0 = Ok (st, p)
    /\ st = "failed" /\ dget "attempts" p = PInt 4.
Proof. apply (retry_attempts_bounded 3). reflexivity. Defined.

(** *** Claims *)

Lemma next_claimable_in now jobs r :
  next_claimable now jobs = Ok (Some r) -> r ∈ jobs /\ claimable now r = Ok true.
Proof.
  revert r. induction jobs as [|j jobs IH]; intros r H; cbn [next_claimable] in H; [by run_inv|].
  run_inv. destruct x; [|subst; destruct (IH _ Hr0); split; [by right | done]].
  destruct x0 as [b|].
  - destruct (earlier_job j b); simplify_eq; [split; [left | done]|].
    destruct (IH _ Hr0). split; [by right | done].
  - simplify_eq. split; [left | done].
Qed.

Lemma claimable_status now r : claimable now r = Ok true -> str_in (ej_status r) PENDING_STATUSES = true.
Proof. unfold claimable. by destruct (str_in _ _). Qed.

(** What a claim that returns a job did. *)
Lemma claim_work_inv w now s j s' :
  claim_work w now s = (Ok (Some j), s') ->
  exists row, row ∈ execution_jobs (current s) /\ claimable now row = Ok true
    /\ ej_id j = ej_id row /\ ej_status j = "claimed"
    /\ (forall r, r ∈ execution_jobs (current s') -> ej_id r = ej_id row -> ej_status r = "claimed").
Proof.
  unfold claim_work. intros H. run_inv. destruct x0 as [row|]; run_inv; [|discriminate].
  match goal with H : Some _ = Some _ |- _ => injection H as <- end.
  match goal with H : next_claimable _ _ = _ |- _ => apply next_claimable_in in H as [Hin C] end.
  exists row. split_and!; try done. intros r Hr E. run_frame. revert Hr. run_frame. intros Hr.
  unfold update_job in Hr. apply list_elem_of_fmap_1 in Hr as (r0 & -> & Hr0).
  destruct (String.eqb (ej_id r0) (ej_id row)) eqn:Z; [done|]. bprop. by rewrite E in Z.
Qed.

(** A claimed job is not handed out again: after a claim returned a job,
    any later claim by any worker at any time that returns a job returns a
    different one. *)
Theorem claim_exclusive w w' now now' b b' s s1 s2 j j' :
  claim_next_execution_job w now b s = (Ok (Some j), s1) ->
  claim_next_execution_job w' now' b' s1 = (Ok (Some j'), s2) ->
  ej_id j' <> ej_id j.
Proof.
  assert (T : forall w now b s j s', claim_next_execution_job w now b s = (Ok (Some j), s') ->
     exists n t, claim_work w n s = (Ok (Some j), t) /\ current s' = current t).
  { intros ? ? b0 ? ? ? H. unfold claim_next_execution_job in H. run_inv.
    destruct b0; [apply transaction_inv_ok in H as (t & H & ->)|]; eauto. }
  intros H1 H2. apply T in H1 as (n1 & t1 & H1 & C1), H2 as (n2 & t2 & H2 & _).
  apply claim_work_inv in H1 as (r1 & _ & _ & -> & _ & A1), H2 as (r2 & Hin & C2 & -> & _).
  rewrite C1 in Hin. intros E. apply A1 in Hin; [|done].
  apply claimable_status in C2. by rewrite Hin in C2.
Qed.

(** *** Creation *)

Definition sample_intent : intent_row := {|
  ti_hermes_decision_id := "d-1"; ti_risk_decision_id := "rd-1"; ti_target_position_id := None; ti_approved_at := Some 0;
  ti_account_id := "acct"; ti_instrument_id := "BTCUSDT-PERP.BINANCE"; ti_action := "open_position";
  ti_status := "approved"; ti_order_plan := []; ti_valid_until := 1700000000000000;
  ti_risk_budget := [("max_notional", PInt 500); ("risk_fraction", PFloat (Dec 2 (-2))); ("max_leverage", PInt 5)];
  ti_idempotency_key := "k"; ti_updated_at := 0 |}.

Definition sample_jobs : Conn :=
  snd (create_execution_job_for_approved_intent "i-1" None None true true
    (connect (set_trade_intents (<["i-1" := sample_intent]>)
               (set_trade_intents (<["i-2" := sample_intent]>) empty_db)) 1000)).

Definition sample_claim : result (option job_row) * Conn :=
  claim_next_execution_job "w1" None true
    (snd (create_execution_job_for_approved_intent "i-2" None None true true sample_jobs)).

Definition claimed_some (c : result (option job_row) * Conn) : bool :=
  match c with (Ok (Some _), _) => true | _ => false end.

Lemma claimed_some_inv c : claimed_some c = true -> exists j s, c = (Ok (Some j), s).
Proof. destruct c as [[[j|]|e] s]; [eauto | done | done]. Qed.

Example sample_jobs_held :
  map (fun r => (rv_status r, rv_risk_amount r, rv_margin_amount r))
    (risk_reservations (current sample_jobs)) = [("held", XFin (Dec 10 0), XFin (Dec 100 0))].
Proof. vm_compute. reflexivity. Qed.

Lemma claim_exclusive_witness :
  exists j j' s2, fst sample_claim = Ok (Some j)
    /\ claim_next_execution_job "w2" None true (snd sample_claim) = (Ok (Some j'), s2)
    /\ ej_id j' <> ej_id j.
Proof.
  assert (T : claimed_some sample_claim
    && claimed_some (claim_next_execution_job "w2" None true (snd sample_claim)) = true)
    by (vm_compute; reflexivity).
  apply andb_true_iff in T as [T1 T2].
  destruct (claimed_some_inv _ T1) as (j & s1 & E1). destruct (claimed_some_inv _ T2) as (j' & s2 & E2).
  exists j, j', s2. rewrite E1 in *. split; [reflexivity|]. split; [exact E2|].
  exact (claim_exclusive _ _ _ _ _ _ _ _ _ _ _ E1 E2).
Defined.

(** What the three tables hold for one request. *)
Definition has_job (r : ExecutionJobRequest) (d : Db) : bool :=
  existsb (same_job (jr_account_id r) (jr_idempotency_key r)) (execution_jobs d).
Definition has_reservation (r : ExecutionJobRequest) (d : Db) : bool :=
  existsb (same_reservation (jr_account_id r) (risk_key r)) (risk_reservations d).
Definition outbox_id (r : ExecutionJobRequest) : string :=
  deterministic_outbox_event_id "execution_job" (jr_execution_job_id r) "order.execution_job.created"
    (jr_idempotency_key r).
Definition has_outbox (r : ExecutionJobRequest) (d : Db) : bool :=
  existsb (fun o => String.eqb (ob_id o) (outbox_id r)) (outbox_events d).

Definition table_sizes (d : Db) : nat * nat * nat :=
  (length (execution_jobs d), length (risk_reservations d), length (outbox_events d)).

Lemma existsb_map_keep {A} (p q : A -> bool) (f : A -> A) l :
  (forall x, p (f x) = p x) -> existsb p (map (fun x => if q x then f x else x) l) = existsb p l.
Proof.
  intros H. induction l as [|x l IH]; [done|]. simpl. rewrite IH. destruct (q x); by rewrite ?H.
Qed.

Lemma existsb_snoc {A} (p : A -> bool) l x : p x = true -> existsb p (l ++ [x])%list = true.
Proof. intros H. rewrite existsb_app. simpl. by rewrite H, orb_true_r. Qed.

Lemma insert_job_inv r s u s' :
  insert_execution_job r s = (Ok u, s') ->
  has_job r (current s') = true
  /\ risk_reservations (current s') = risk_reservations (current s)
  /\ outbox_events (current s') = outbox_events (current s)
  /\ trade_intents (current s') = trade_intents (current s)
  /\ (has_job r (current s) = true ->
      length (execution_jobs (current s')) = length (execution_jobs (current s))).
Proof.
  unfold insert_execution_job. intros H. run_inv. fold (has_job r (current s)) in H.
  destruct (has_job r (current s)) eqn:E; run_inv; unfold has_job in *; run_frame.
  - rewrite length_update_job. split_and!; try done. unfold update_job. by rewrite existsb_map_keep.
  - split_and!; try done. apply existsb_snoc. unfold same_job. cbn. by rewrite !String.eqb_refl.
Qed.

Lemma ensure_reservation_inv r s u s' :
  ensure_risk_reservation r s = (Ok u, s') ->
  has_reservation r (current s') = true
  /\ execution_jobs (current s') = execution_jobs (current s)
  /\ outbox_events (current s') = outbox_events (current s)
  /\ trade_intents (current s') = trade_intents (current s)
  /\ (has_reservation r (current s) = true ->
      length (risk_reservations (current s')) = length (risk_reservations (current s))).
Proof.
  unfold ensure_risk_reservation, has_reservation. intros H. run_inv. run_frame.
  destruct (existsb _ (risk_reservations (current s))) eqn:E.
  - split_and!; try done; [by rewrite existsb_map_keep | by rewrite length_map].
  - split_and!; try done. apply existsb_snoc. unfold same_reservation. cbn. by rewrite !String.eqb_refl.
Qed.

Lemma enqueue_inv a b c d p q s u s' :
  enqueue_order_management_event a b c d p q s = (Ok u, s') ->
  let has db := existsb (fun o => String.eqb (ob_id o) (deterministic_outbox_event_id a b c d)) (outbox_events db) in
  has (current s') = true
  /\ execution_jobs (current s') = execution_jobs (current s)
  /\ risk_reservations (current s') = risk_reservations (current s)
  /\ trade_intents (current s') = trade_intents (current s)
  /\ (has (current s) = true ->
      length (outbox_events (current s')) = length (outbox_events (current s))).
Proof.
  unfold enqueue_order_management_event. intros H. run_inv.
  match goal with H : inject_trace_context _ _ _ = _ |- _ => apply inject_trace_frame in H as [I _] end.
  match goal with H : match q with Some _ => _ | None => _ end ?t = (Ok _, ?t') |- _ =>
    assert (J : current t' = current t) by (destruct q; run_inv; done); clear H end.
  cbv zeta. run_frame.
  destruct (existsb _ (outbox_events (current s))) eqn:E; [done|].
  split_and!; try done. apply existsb_snoc. cbn. apply String.eqb_refl.
Qed.

Lemma build_request_inv i row now q s r s' :
  build_execution_job_request i row now q s = (Ok r, s') ->
  current s' = current s
  /\ jr_idempotency_key r = execution_job_key i (ti_action row) (Some (ti_instrument_id row)) (Some (ti_account_id row))
  /\ jr_execution_job_id r = deterministic_execution_job_id (jr_idempotency_key r)
  /\ jr_account_id r = ti_account_id row.
Proof.
  unfold build_execution_job_request. intros H. run_inv.
  repeat match goal with H : inject_trace_context _ _ _ = _ |- _ => apply inject_trace_frame in H as [? _] end.
  split_and!; try done. congruence.
Qed.

Lemma create_work_inv i now q b s r s' :
  create_work i now q b s = (Ok r, s') ->
  exists row, trade_intents (current s) !! i = Some row
    /\ jr_idempotency_key r = execution_job_key i (ti_action row) (Some (ti_instrument_id row)) (Some (ti_account_id row))
    /\ jr_execution_job_id r = deterministic_execution_job_id (jr_idempotency_key r)
    /\ jr_account_id r = ti_account_id row
    /\ trade_intents (current s') = trade_intents (current s)
    /\ has_job r (current s') = true /\ has_outbox r (current s') = true
    /\ (b = true -> has_reservation r (current s') = true)
    /\ (has_job r (current s) = true -> has_outbox r (current s) = true ->
        (b = true -> has_reservation r (current s) = true) ->
        table_sizes (current s') = table_sizes (current s)).
Proof.
  unfold create_work. intros H. run_inv. destruct (trade_intents (current s) !! i) as [row|] eqn:L; run_inv.
  destruct (negb _); run_inv. exists row. split; [done|].
  match goal with H : build_execution_job_request _ _ _ _ _ = _ |- _ =>
    apply build_request_inv in H as (B1 & B2 & B3 & B4) end.
  match goal with H : insert_execution_job _ _ = _ |- _ =>
    apply insert_job_inv in H as (J1 & J2 & J3 & J4 & J5) end.
  match goal with H : enqueue_order_management_event _ _ _ _ _ _ _ = _ |- _ =>
    apply enqueue_inv in H as (O1 & O2 & O3 & O4 & O5) end.
  rewrite B1 in *. unfold table_sizes, has_job, has_outbox, has_reservation in *.
  destruct b; run_inv.
  - match goal with H : ensure_risk_reservation _ _ = _ |- _ =>
      apply ensure_reservation_inv in H as (R1 & R2 & R3 & R4 & R5) end.
    unfold has_reservation in *. rewrite ?O2, ?O3, ?O4, ?R2, ?R3, ?R4, ?J2, ?J3, ?J4 in *.
    split_and!; try done. intros X1 X2 X3. by rewrite J5, R5, O5 by auto.
  - rewrite ?O2, ?O3, ?O4, ?J2, ?J3, ?J4 in *.
    split_and!; try done. intros X1 X2 X3. by rewrite J5, O5 by auto.
Qed.

(** C32. Creating the execution job of an intent is idempotent: a second call,
    at another time, for another request id and whatever happened to the
    first response, names the same job and adds no job, no risk reservation
    and no outbox event. *)
Theorem create_job_idempotent i now now' q q' b m s r s1 r' s2 :
  create_execution_job_for_approved_intent i now q b m s = (Ok r, s1) ->
  create_execution_job_for_approved_intent i now' q' b m s1 = (Ok r', s2) ->
  jr_execution_job_id r' = jr_execution_job_id r
  /\ jr_idempotency_key r' = jr_idempotency_key r
  /\ table_sizes (current s2) = table_sizes (current s1)
  /\ has_job r (current s2) = true.
Proof.
  unfold create_execution_job_for_approved_intent. intros H1 H2.
  assert (T : forall A (w : M Conn A) t a t', tx_scope m w t = (Ok a, t') ->
            exists t1, w t = (Ok a, t1) /\ current t' = current t1).
  { intros ? w t a t' H. destruct m; [apply transaction_inv_ok in H as (t1 & H & ->)|]; eauto. }
  apply T in H1 as (t1 & H1 & C1), H2 as (t2 & H2 & C2). rewrite C1, C2.
  apply create_work_inv in H1 as (row & L & K & I & A & U & J & O & R & _).
  apply create_work_inv in H2 as (row' & L' & K' & I' & A' & U' & J' & O' & R' & S).
  rewrite C1, U, L in L'. injection L' as <-. rewrite <- K in K'. rewrite <- A in A'.
  rewrite K', <- I in I'. rewrite C1 in S. unfold has_job, has_outbox, has_reservation, outbox_id, risk_key in *.
  rewrite K', A', ?I' in *. auto.
Qed.

Definition request_key (x : result ExecutionJobRequest * Conn) : string :=
  match x with (Ok r, _) => jr_idempotency_key r | _ => "" end.

Lemma create_job_idempotent_witness :
  exists r' s2, create_execution_job_for_approved_intent "i-1" (Some (utc 9)) (Some "again") true true sample_jobs
      = (Ok r', s2)
    /\ table_sizes (current s2) = (1, 1, 1)%nat.
Proof.
  set (s0 := connect (set_trade_intents (<["i-1" := sample_intent]>)
               (set_trade_intents (<["i-2" := sample_intent]>) empty_db)) 1000).
  destruct (create_execution_job_for_approved_intent "i-1" None None true true s0) as [[r|e] s1] eqn:E1.
  2: { exfalso. assert (is_ok (fst (create_execution_job_for_approved_intent "i-1" None None true true s0)) = true)
         by (vm_compute; reflexivity). by rewrite E1 in *. }
  assert (E : s1 = sample_jobs) by (unfold sample_jobs; fold s0; by rewrite E1).
  destruct (create_execution_job_for_approved_intent "i-1" (Some (utc 9)) (Some "again") true true sample_jobs)
    as [[r'|e] s2] eqn:E2.
  2: { exfalso. assert (is_ok (fst (create_execution_job_for_approved_intent "i-1" (Some (utc 9)) (Some "again") true true sample_jobs)) = true)
         by (vm_compute; reflexivity). by rewrite E2 in *. }
  exists r', s2. split; [reflexivity|]. rewrite <- E in E2.
  destruct (create_job_idempotent _ _ _ _ _ _ _ _ _ _ _ _ E1 E2) as (_ & _ & -> & _).
  rewrite E. vm_compute. reflexivity.
Defined.

(** *** Amounts as text *)

Lemma dnormalize_val d : dnormalize d ≡ fix28 d.
Proof.
  unfold dnormalize. destruct (coef (fix28 d) =? 0) eqn:E; bprop.
  - symmetry. apply dval_zero. by rewrite E.
  - unfold equiv, dec_equiv. rewrite strip_zeros_val. by destruct (fix28 d).
Qed.

(** Amounts survive their text form: what the reservation payload writes
    with [_fmt] is read back by the numeric column as the same number, rounded
    to the 28 digits of the context. *)
Theorem reservation_amount_roundtrip d :
  exists d', numeric_text (PStr (fmt (XFin d))) = Ok (XFin d') /\ d' ≡ fix28 d.
Proof.
  unfold fmt, numeric_text. cbn [xtrue]. unfold dis_zero. destruct (coef d =? 0) eqn:E; cbn [negb].
  - bprop. eexists. split; [vm_compute; reflexivity|]. symmetry. apply dval_zero.
    unfold fix28. rewrite E. change (ndigits 0 <=? prec) with true. exact E.
  - cbn [xnormalize xformat_f]. destruct (parse_format_f (dnormalize d)) as (d1 & -> & E1).
    destruct (pg_numeric_fin d1) as (d2 & -> & E2). exists d2. split; [done|].
    rewrite E2, E1. apply dnormalize_val.
Qed.
