(* ===== verification/Freshness.v ===== *)
(** * Freshness: stale data closes the opening channel

    Models order_management/freshness.py.  [total_seconds()] is a float of a
    microsecond count; its comparisons with whole seconds and milliseconds
    are written on the microseconds. *)

From Stdlib Require Import ZArith Lia Ascii.
From S2P Require Import Prelude PyString PyValue PyTime StateDescriptor.
Open Scope string_scope.
Open Scope Z_scope.

(** ** Definitions *)

Record FreshnessConfig := {
  market_data_stale_seconds : Z;
  account_data_stale_seconds : Z;
  execution_event_stale_seconds : Z;
  projection_lag_threshold_ms : Z;
  reconciliation_stale_seconds : Z;
  price_deviation_bps : Z;
  evaluation_interval_seconds : Z;
  protection_watchdog_interval_seconds : Z;
  disconnect_action : string }.

Definition default_freshness : FreshnessConfig := {|
  market_data_stale_seconds := 10; account_data_stale_seconds := 15;
  execution_event_stale_seconds := 30; projection_lag_threshold_ms := 5000;
  reconciliation_stale_seconds := 300; price_deviation_bps := 200;
  evaluation_interval_seconds := 5; protection_watchdog_interval_seconds := 10;
  disconnect_action := "halt" |}.

Record FreshnessState := {
  fs_config : FreshnessConfig;
  market_data_last_seen_at : option datetime;
  account_data_last_seen_at : option datetime;
  execution_event_last_seen_at : option datetime;
  projection_applied_at : option datetime;
  reconciliation_verified_at : option datetime }.

(** The five feeds a heartbeat or a record call can refresh. *)
Inductive feed := MarketData | AccountData | ExecutionEvent | ProjectionApplied | ReconciliationVerified.

Definition feed_key (f : feed) : string :=
  match f with
  | MarketData => "market_data" | AccountData => "account_data"
  | ExecutionEvent => "execution_event" | ProjectionApplied => "projection_applied"
  | ReconciliationVerified => "reconciliation_verified"
  end.

Definition last_seen (f : feed) (s : FreshnessState) : option datetime :=
  match f with
  | MarketData => market_data_last_seen_at s | AccountData => account_data_last_seen_at s
  | ExecutionEvent => execution_event_last_seen_at s | ProjectionApplied => projection_applied_at s
  | ReconciliationVerified => reconciliation_verified_at s
  end.

Definition touch (f : feed) (t : datetime) (s : FreshnessState) : FreshnessState :=
  let seen g old := match f, g with
                    | MarketData, MarketData | AccountData, AccountData
                    | ExecutionEvent, ExecutionEvent | ProjectionApplied, ProjectionApplied
                    | ReconciliationVerified, ReconciliationVerified => Some (utc (aware t))
                    | _, _ => old
                    end in
  {| fs_config := fs_config s;
     market_data_last_seen_at := seen MarketData (market_data_last_seen_at s);
     account_data_last_seen_at := seen AccountData (account_data_last_seen_at s);
     execution_event_last_seen_at := seen ExecutionEvent (execution_event_last_seen_at s);
     projection_applied_at := seen ProjectionApplied (projection_applied_at s);
     reconciliation_verified_at := seen ReconciliationVerified (reconciliation_verified_at s) |}.

Definition all_feeds : list feed :=
  [MarketData; AccountData; ExecutionEvent; ProjectionApplied; ReconciliationVerified].

Definition record_heartbeat (payload : dict) (observed_at : datetime) (s : FreshnessState)
  : FreshnessState :=
  fold_left (fun s f => if truthy (dget (feed_key f) payload) then touch f observed_at s else s)
    all_feeds s.

(** [record_market_data] and its four siblings: a payload that is given but
    empty does not count as an observation. *)
Definition record_feed (f : feed) (observed_at : datetime) (payload : option dict)
    (s : FreshnessState) : FreshnessState :=
  match payload with
  | Some [] => s
  | _ => touch f observed_at s
  end.

Definition too_old (now : Z) (t : option datetime) (seconds_ : Z) : bool :=
  match t with
  | None => true
  | Some t => seconds seconds_ <? now - aware t
  end.

Definition stale_reasons (s : FreshnessState) (now : datetime) : list string :=
  let now := aware now in
  let c := fs_config s in
  let stale name t secs := if too_old now t secs then [name] else [] in
  (stale "market_data" (market_data_last_seen_at s) (market_data_stale_seconds c)
   ++ stale "account_data" (account_data_last_seen_at s) (account_data_stale_seconds c)
   ++ stale "execution_event" (execution_event_last_seen_at s) (execution_event_stale_seconds c)
   ++ stale "reconciliation" (reconciliation_verified_at s) (reconciliation_stale_seconds c)
   ++ match projection_applied_at s with
      | None => ["projection"]
      | Some t => if projection_lag_threshold_ms c * 1000 <? now - aware t then ["projection"] else []
      end)%list.

Definition is_stale (s : FreshnessState) (now : datetime) : bool :=
  match stale_reasons s now with [] => false | _ => true end.

Definition max_new_risk_notional {A} (zero requested : A) (s : FreshnessState) (now : datetime) : A :=
  if is_stale s now then zero else requested.

Definition is_action_allowed (s : FreshnessState) (action : string) (now : datetime) (mode : string)
  : result bool :=
  if is_stale s now then halted_action_allowed action "HALTED"
  else if str_in action opening_actions then Ok (String.eqb (upper mode) "ACTIVE")
  else halted_action_allowed action mode.

(** ** Properties *)

(** The age in microseconds a feed may reach. *)
Definition age_limit (c : FreshnessConfig) (f : feed) : Z :=
  match f with
  | MarketData => seconds (market_data_stale_seconds c)
  | AccountData => seconds (account_data_stale_seconds c)
  | ExecutionEvent => seconds (execution_event_stale_seconds c)
  | ReconciliationVerified => seconds (reconciliation_stale_seconds c)
  | ProjectionApplied => projection_lag_threshold_ms c * 1000
  end.

Definition feed_fresh (s : FreshnessState) (now : datetime) (f : feed) : Prop :=
  exists t, last_seen f s = Some t /\ aware now - aware t <= age_limit (fs_config s) f.

Lemma too_old_spec now t secs :
  too_old now t secs = false <-> exists d, t = Some d /\ now - aware d <= seconds secs.
Proof.
  destruct t as [d|]; simpl.
  - rewrite Z.ltb_ge. split; [eauto | intros (d' & E & H); by simplify_eq].
  - split; [done | intros (d & E & _); done].
Qed.

Lemma is_stale_fresh s now : is_stale s now = false <-> forall f, feed_fresh s now f.
Proof.
  unfold is_stale, stale_reasons. split.
  - intros H.
    destruct (too_old _ (market_data_last_seen_at s) _) eqn:E1; [done|].
    destruct (too_old _ (account_data_last_seen_at s) _) eqn:E2; [done|].
    destruct (too_old _ (execution_event_last_seen_at s) _) eqn:E3; [done|].
    destruct (too_old _ (reconciliation_verified_at s) _) eqn:E4; [done|].
    apply too_old_spec in E1, E2, E3, E4.
    intros []; unfold feed_fresh; simpl; [done..| |done].
    destruct (projection_applied_at s) as [t|]; [|done].
    destruct (_ <? _) eqn:E; [done|]. bprop. eauto.
  - intros H. pose proof (H MarketData) as H1. pose proof (H AccountData) as H2.
    pose proof (H ExecutionEvent) as H3. pose proof (H ReconciliationVerified) as H4.
    destruct (H ProjectionApplied) as (t & E & L). unfold feed_fresh in *. simpl in *.
    apply too_old_spec in H1 as ->, H2 as ->, H3 as ->, H4 as ->. rewrite E.
    apply Z.ltb_ge in L. by rewrite L.
Qed.

Lemma touch_seen f t s :
  last_seen f (touch f t s) = Some (utc (aware t))
  /\ (forall g, g <> f -> last_seen g (touch f t s) = last_seen g s)
  /\ fs_config (touch f t s) = fs_config s.
Proof. destruct f; (split; [done|]; split; [by intros [] N|done]). Qed.

Lemma halted_opening a : a ∈ opening_actions -> halted_action_allowed a "HALTED" = Ok false.
Proof. unfold opening_actions. intros H. by elim_in H. Qed.

Lemma halted_reducing a m :
  a ∈ reduce_only_actions -> upper m ∈ ["ACTIVE"; "REDUCING"; "HALTED"] -> halted_action_allowed a m = Ok true.
Proof.
  unfold halted_action_allowed, reduce_only_actions. generalize (upper m) as u. intros u Ha Hu.
  elim_in Hu; by elim_in Ha.
Qed.

(** Freshness gates new risk and nothing else: in a valid risk mode, an
    opening action is allowed exactly when all five feeds are within their age
    limits and the mode is ACTIVE, while every reduce-only action is allowed
    however stale the data is. *)
Theorem freshness_gate s action now mode :
  upper mode ∈ ["ACTIVE"; "REDUCING"; "HALTED"] ->
  (action ∈ opening_actions ->
     is_action_allowed s action now mode = Ok true
     <-> (forall f, feed_fresh s now f) /\ upper mode = "ACTIVE")
  /\ (action ∈ reduce_only_actions -> is_action_allowed s action now mode = Ok true).
Proof.
  intros Hm. rewrite <- is_stale_fresh. unfold is_action_allowed. split.
  - intros Ha. destruct (is_stale s now).
    + rewrite halted_opening by done. by split; [|intros [? ?]].
    + rewrite (proj2 (str_in_spec _ _) Ha). split.
      * intros E. split; [done|]. apply String.eqb_eq. by injection E.
      * intros [_ E]. by rewrite E.
  - intros Ha. destruct (is_stale s now); [apply halted_reducing; [done | by apply str_in_spec]|].
    destruct (str_in action opening_actions) eqn:E; [|by apply halted_reducing].
    apply str_in_spec in E. unfold opening_actions, reduce_only_actions in *. by elim_in E; elim_in Ha.
Qed.

Definition never_seen : FreshnessState := {|
  fs_config := default_freshness; market_data_last_seen_at := None; account_data_last_seen_at := None;
  execution_event_last_seen_at := None; projection_applied_at := None;
  reconciliation_verified_at := None |}.

Lemma freshness_gate_witness :
  is_action_allowed never_seen "close_all" (utc 0) "active" = Ok true
  /\ is_action_allowed never_seen "open_position" (utc 0) "active" <> Ok true.
Proof.
  assert (M : upper "active" ∈ ["ACTIVE"; "REDUCING"; "HALTED"]) by (by apply str_in_spec).
  split.
  - apply (freshness_gate never_seen "close_all" (utc 0) "active" M). by apply str_in_spec.
  - intros H. apply (freshness_gate never_seen "open_position" (utc 0) "active" M) in H as [H _];
      [|by apply str_in_spec].
    destruct (H MarketData) as (t & E & _). discriminate E.
Defined.

(** One heartbeat that reports all five feeds makes the state fresh for as
    long as the tightest limit, from any earlier state. *)
Theorem heartbeat_refreshes s payload t now :
  (forall f, truthy (dget (feed_key f) payload) = true) ->
  (forall f, aware now - aware t <= age_limit (fs_config s) f) ->
  is_stale (record_heartbeat payload t s) now = false.
Proof.
  intros Hp Ha. apply is_stale_fresh. unfold record_heartbeat, all_feeds. cbn [fold_left].
  rewrite !Hp. intros f. exists (utc (aware t)). rewrite aware_utc. split; [by destruct f | apply Ha].
Qed.

Lemma heartbeat_refreshes_witness :
  is_stale (record_heartbeat (map (fun f => (feed_key f, PBool true)) all_feeds) (utc 1000000) never_seen)
    (utc 6000000) = false.
Proof. apply heartbeat_refreshes; intros []; by vm_compute. Defined.
