(* ===== verification/OrderPolicies.v ===== *)
(** * OrderPolicies: drift, unfilled orders and partial fills

    Models order_management/drift_policy.py, unfilled_manager.py and
    partial_fill.py: what is done about an order or a position the system
    does not recognise, an order that does not fill, and one that fills in
    part. *)

From Stdlib Require Import ZArith Lia Ascii QArith Lqa.
From S2P Require Import Prelude Decimal PyString DecText PyValue PyTime Store Sha256.
Open Scope string_scope.
Open Scope Z_scope.

(** ** Drift *)

Record DriftDecision := {
  dd_action : string; dd_next_state : string; dd_mode : string; dd_reason : string;
  dd_payload : dict }.

Record DriftPolicyEngine := {
  dp_policy : string;
  dp_safe_adopt_lifecycle_roles : list string }.

(** The constructor's check. *)
Definition drift_policy_engine (policy : string) (safe_roles : list string) : result DriftPolicyEngine :=
  if str_in policy ["adopt"; "cancel"; "review"; "halt"]
  then Ok {| dp_policy := policy; dp_safe_adopt_lifecycle_roles := safe_roles |}
  else Raise (ValueError "drift policy must be adopt, cancel, review, or halt").

Definition order_identity_resolvable (order : dict) : bool :=
  truthy (dget "venue_symbol" order)
  && (truthy (dget "client_order_id" order) || truthy (dget "venue_order_id" order)).

Definition position_identity_resolvable (position : dict) : bool :=
  truthy (dget "position_key" position) || truthy (dget "venue_symbol" position).

Definition drift a n m r p : DriftDecision :=
  {| dd_action := a; dd_next_state := n; dd_mode := m; dd_reason := r; dd_payload := p |}.

Definition drift_needs_review (payload : dict) (reason : string) : DriftDecision :=
  drift "review" "needs_review" "HALTED" reason payload.

Definition handle_orphan_order (e : DriftPolicyEngine) (order : dict) : DriftDecision :=
  if negb (order_identity_resolvable order) then drift_needs_review order "unresolvable_order_identity"
  else if String.eqb (dp_policy e) "adopt" then
    let role := py_str (py_or (dget "lifecycle_role" order) (PStr "")) in
    if str_in role (dp_safe_adopt_lifecycle_roles e)
    then drift "adopt" "adopted" "ACTIVE" "safe_whitelist" order
    else drift_needs_review order "adopt_not_whitelisted"
  else if String.eqb (dp_policy e) "cancel"
  then drift "cancel" "cancel_requested" "REDUCING" "policy_cancel" order
  else if String.eqb (dp_policy e) "halt" then drift "halt" "HALTED" "HALTED" "policy_halt" order
  else drift_needs_review order "policy_review".

Definition handle_external_position (e : DriftPolicyEngine) (position : dict) : DriftDecision :=
  if negb (position_identity_resolvable position)
  then drift_needs_review position "unresolvable_position_identity"
  else if String.eqb (dp_policy e) "adopt" then
    let role := py_str (py_or (dget "lifecycle_role" position) (PStr "external_position")) in
    if str_in role (dp_safe_adopt_lifecycle_roles e)
    then drift "adopt" "adopted" "ACTIVE" "safe_whitelist" position
    else drift_needs_review position "adopt_not_whitelisted"
  else if String.eqb (dp_policy e) "cancel"
  then drift "cancel" "close_requested" "REDUCING" "policy_cancel" position
  else if String.eqb (dp_policy e) "halt" then drift "halt" "HALTED" "HALTED" "policy_halt" position
  else drift_needs_review position "policy_review".

(** ** Unfilled orders *)

Definition TERMINAL_ORDER_STATUSES : list string :=
  ["filled"; "rejected"; "denied"; "cancelled"; "expired"; "failed"; "lost"].

Record UnfilledSettings := {
  unfilled_timeout_seconds : Z;
  reprice_interval_seconds : Z;
  max_reprices : Z }.

Record UnfilledOrder := {
  uo_order_projection_id : string;
  uo_client_order_id : string;
  uo_status : string;
  uo_submitted_at : datetime;
  uo_cancel_requested_at : option datetime;
  uo_reprice_count : Z }.

Record UnfilledDecision := {
  ud_action : string;
  ud_reason : string;
  ud_next_status : option string;
  ud_reprice_count : option Z }.

Definition decide_unfilled_action (order : UnfilledOrder) (settings : UnfilledSettings) (now : Z)
  : UnfilledDecision :=
  let decision a r n c :=
    {| ud_action := a; ud_reason := r; ud_next_status := n; ud_reprice_count := c |} in
  let timed_out :=
    seconds (unfilled_timeout_seconds settings) <=? now - aware (uo_submitted_at order) in
  let status := uo_status order in
  if String.eqb status "pending_cancel" then
    decision "wait_for_cancel_terminal" "cancel_not_terminal" None None
  else if negb timed_out && negb (str_in status TERMINAL_ORDER_STATUSES) then
    decision "wait" "timeout_not_reached" None None
  else if negb (str_in status TERMINAL_ORDER_STATUSES) then
    decision "request_cancel" "unfilled_timeout" (Some "pending_cancel") None
  else if str_in status ["filled"; "rejected"; "denied"; "failed"; "lost"] then
    decision "terminal" ("order_" +:+ status) (Some status) None
  else if max_reprices settings <=? uo_reprice_count order then
    decision "terminal" "max_reprices_exceeded" (Some "expired") None
  else decision "reprice" "cancel_terminal_confirmed" None (Some (uo_reprice_count order + 1)).

Definition build_reprice_link_payload (parent child : string) (reprice_count : Z) : dict :=
  [("parent_client_order_id", PStr parent); ("child_client_order_id", PStr child);
   ("reprice_count", PInt reprice_count)].

Definition same_link (parent child : string) (l : link_row) : bool :=
  String.eqb (ol_parent l) parent && String.eqb (ol_child l) child && String.eqb (ol_link_type l) "reprice".

Definition record_reprice_link (account_id parent child lifecycle_role : string)
    (position_key : option string) (payload : dict) : M Conn string :=
  link_id ← uuid4;
  transaction (
    links ← select order_links;
    match List.find (same_link parent child) links with
    | Some l =>
        _ ← execute (set_order_links (map (fun x =>
              if same_link parent child x then {|
                ol_id := ol_id x; ol_account_id := ol_account_id x; ol_parent := ol_parent x;
                ol_child := ol_child x; ol_link_type := ol_link_type x;
                ol_lifecycle_role := ol_lifecycle_role x; ol_position_key := ol_position_key x;
                ol_payload := dupdate (ol_payload x) payload |} else x)));
        mret (ol_id l)
    | None =>
        _ ← execute (set_order_links (fun t => (t ++ [{|
              ol_id := link_id; ol_account_id := account_id; ol_parent := parent; ol_child := child;
              ol_link_type := "reprice"; ol_lifecycle_role := Some lifecycle_role;
              ol_position_key := position_key; ol_payload := payload |}])%list));
        mret link_id
    end).

(** ** Partial fills *)

Definition POLICIES : list string :=
  ["keep_remainder"; "cancel_remainder"; "convert_remainder_to_market"; "abort_and_reduce_filled"].

Record PartialFillRequest := {
  pf_policy : string;
  pf_original_quantity : dec;
  pf_filled_quantity : dec;
  pf_quantity_increment : dec;
  pf_minimum_fill_ratio : dec;
  pf_market_conversion_max_slippage_bps : option dec }.

Record PartialFillDecision := {
  pd_action : string;
  pd_reason : string;
  pd_remainder_quantity : dec;
  pd_reduce_quantity : dec;
  pd_market_conversion_max_slippage_bps : option dec }.

(** partial_fill's [_floor_to_increment] *)
Definition floor_quantized (value increment : dec) : result dec :=
  if dleb value dzero then Ok dzero
  else if dleb increment dzero then Ok value
  else
    q ← ddiv value increment;
    quantize ROUND_HALF_EVEN (dmul (to_integral ROUND_FLOOR q) increment) increment.

Definition handle_partial_fill (request : PartialFillRequest) : result PartialFillDecision :=
  let decision a r rem red slip :=
    {| pd_action := a; pd_reason := r; pd_remainder_quantity := rem; pd_reduce_quantity := red;
       pd_market_conversion_max_slippage_bps := slip |} in
  if negb (str_in (pf_policy request) POLICIES)
  then Ok (decision "needs_review" "unknown_partial_fill_policy" dzero dzero None)
  else
    remainder ← floor_quantized (dsub (pf_original_quantity request) (pf_filled_quantity request))
                  (pf_quantity_increment request);
    filled ← floor_quantized (pf_filled_quantity request) (pf_quantity_increment request);
    if dleb (pf_original_quantity request) dzero
    then Ok (decision "needs_review" "invalid_original_quantity" dzero dzero None)
    else
      fill_ratio ← ddiv (pf_filled_quantity request) (pf_original_quantity request);
      if dltb fill_ratio (pf_minimum_fill_ratio request)
      then Ok (decision "needs_review" "minimum_fill_ratio_not_met" remainder dzero None)
      else if String.eqb (pf_policy request) "keep_remainder"
      then Ok (decision "keep_remainder" "policy_keep" remainder dzero None)
      else if String.eqb (pf_policy request) "cancel_remainder"
      then Ok (decision "cancel_remainder" "policy_cancel" remainder dzero None)
      else if String.eqb (pf_policy request) "convert_remainder_to_market" then
        match pf_market_conversion_max_slippage_bps request with
        | None => Ok (decision "needs_review" "market_conversion_slippage_required" remainder dzero None)
        | Some slip => Ok (decision "convert_remainder_to_market" "policy_market_conversion" remainder dzero (Some slip))
        end
      else Ok (decision "abort_and_reduce_filled" "policy_abort_reduce_filled" remainder filled None).

(** ** Properties *)

(** Drift is only ever adopted from the whitelist: under any policy, an
    orphan order or external position leaves the risk mode ACTIVE exactly when
    the policy is adopt, its identity is resolvable and its lifecycle role is
    whitelisted; every other outcome reduces or halts. *)
Theorem drift_active_iff_whitelisted e order position :
  (dd_mode (handle_orphan_order e order) = "ACTIVE" <->
     (dp_policy e = "adopt") /\ order_identity_resolvable order = true
     /\ py_str (py_or (dget "lifecycle_role" order) (PStr "")) ∈ dp_safe_adopt_lifecycle_roles e)
  /\ (dd_mode (handle_external_position e position) = "ACTIVE" <->
     (dp_policy e = "adopt") /\ position_identity_resolvable position = true
     /\ py_str (py_or (dget "lifecycle_role" position) (PStr "external_position"))
          ∈ dp_safe_adopt_lifecycle_roles e).
Proof.
  unfold handle_orphan_order, handle_external_position. rewrite <- !str_in_spec. split.
  - destruct (order_identity_resolvable order); simpl; [|by split; [|intros (_ & ? & _)]].
    destruct (String.eqb (dp_policy e) "adopt") eqn:E.
    + apply String.eqb_eq in E. destruct (str_in _ _); simpl; [done|]. by split; [|intros (_ & _ & ?)].
    + apply String.eqb_neq in E. split; [|by intros (? & _)]. by repeat case_match.
  - destruct (position_identity_resolvable position); simpl; [|by split; [|intros (_ & ? & _)]].
    destruct (String.eqb (dp_policy e) "adopt") eqn:E.
    + apply String.eqb_eq in E. destruct (str_in _ _); simpl; [done|]. by split; [|intros (_ & _ & ?)].
    + apply String.eqb_neq in E. split; [|by intros (? & _)]. by repeat case_match.
Qed.

Lemma reprice_statuses s :
  s ∈ TERMINAL_ORDER_STATUSES -> s ∉ ["filled"; "rejected"; "denied"; "failed"; "lost"] ->
  s ∈ ["cancelled"; "expired"].
Proof.
  unfold TERMINAL_ORDER_STATUSES. rewrite <- str_in_false. intros H N. by elim_in H; apply str_in_spec.
Qed.

(** An unfilled order is repriced only after its cancel is confirmed
    terminal and at most [max_reprices] times: the decision is "reprice" only
    for a cancelled or expired order with budget left, and then counts one
    more reprice, within the budget; a live order is cancelled only once its
    timeout has passed. *)
Theorem unfilled_decision_sound order settings now :
  let d := decide_unfilled_action order settings now in
  (ud_action d = "reprice" ->
     (uo_status order ∈ ["cancelled"; "expired"])
     /\ ud_reprice_count d = Some (uo_reprice_count order + 1)
     /\ uo_reprice_count order + 1 <= max_reprices settings)
  /\ (ud_action d = "request_cancel" ->
     (uo_status order ∉ TERMINAL_ORDER_STATUSES) /\ uo_status order <> "pending_cancel"
     /\ seconds (unfilled_timeout_seconds settings) <= now - aware (uo_submitted_at order)).
Proof.
  cbv zeta. unfold decide_unfilled_action.
  destruct (String.eqb (uo_status order) "pending_cancel") eqn:P; [done|].
  destruct (str_in (uo_status order) TERMINAL_ORDER_STATUSES) eqn:S;
    destruct (_ <=? now - _) eqn:T; cbn [negb andb]; try done.
  1, 2: destruct (str_in (uo_status order) ["filled"; _; _; _; _]) eqn:F; [done|];
    destruct (_ <=? uo_reprice_count order) eqn:B; [done|];
    split; [|done]; intros _; bprop; split; [by apply reprice_statuses | cbn; split; [done | lia]].
  split; [done|]. intros _. by bprop.
Qed.
