(* ===== verification/Risk.v ===== *)
(** * Risk: configuration, account budget, sizing, filters and exposure

    Models services/control-plane/risk/risk_config.py, account_budget.py,
    position_sizing.py, exchange_filters.py and exposure.py.  A field the
    code types [Decimal] holds a finite decimal; a numeric column is a finite
    decimal or NaN ([None] below), which raises in the comparisons that meet
    it. *)

From Stdlib Require Import ZArith Lia Ascii QArith Qabs Lqa.
From S2P Require Import Prelude Decimal PyString DecText PyValue PyTime Store Identifiers Freshness.
Open Scope string_scope.
Open Scope Z_scope.

(** ** risk_config.py *)

Record RiskConfig := {
  risk_per_trade_pct : dec;
  max_total_open_risk_pct : dec;
  max_notional_per_order : dec;
  max_leverage : dec;
  max_instrument_exposure : dec;
  max_correlated_exposure : dec;
  min_free_margin : dec;
  reserve_balance : dec;
  daily_loss_limit : dec;
  max_drawdown_pct : dec;
  loss_cooldown_seconds : Z }.

Definition default_risk_config : RiskConfig := {|
  risk_per_trade_pct := Dec 15 (-3); max_total_open_risk_pct := Dec 10 (-2);
  max_notional_per_order := Dec 50000 0; max_leverage := Dec 10 0;
  max_instrument_exposure := Dec 100000 0; max_correlated_exposure := Dec 150000 0;
  min_free_margin := Dec 0 0; reserve_balance := Dec 0 0; daily_loss_limit := Dec 0 0;
  max_drawdown_pct := Dec 0 0; loss_cooldown_seconds := 0 |}.

(** [decimal_value(value)]; the default is [Decimal("0")] at every call. *)
Definition decimal_value (v : pyval) : result xdec :=
  match v with
  | PNone => Ok (XFin dzero)
  | PDec x => Ok x
  | v => match to_xdec v with Some x => Ok x | None => Raise InvalidOperation end
  end.

(** A numeric column as the code reads it; [None] is NaN. *)
Definition column (x : xdec) : option dec := is_finite x.

(** An ordering comparison that meets NaN. *)
Definition ordered {A} (x : option A) : result A :=
  match x with Some a => Ok a | None => Raise InvalidOperation end.

(** ** account_budget.py *)

Record AccountBudget := {
  bu_account_id : string;
  bu_currency : string;
  bu_equity : dec;
  bu_margin : option dec;
  bu_free_margin : option dec;
  bu_margin_ratio : option dec;
  bu_updated_at : option Z;
  bu_stale_reasons : list string }.

Definition is_fresh (b : AccountBudget) : bool :=
  match bu_stale_reasons b with [] => true | _ => false end.

Definition can_take_new_risk (b : AccountBudget) : result bool :=
  if negb (is_fresh b) then Ok false
  else if negb (dltb dzero (bu_equity b)) then Ok false
  else f ← ordered (bu_free_margin b); Ok (dltb dzero f).

Definition account_stale_reasons (updated_at last_execution_event_at projection_lag_ms now : Z)
    (freshness : FreshnessConfig) : list string :=
  let state := {|
    fs_config := freshness;
    market_data_last_seen_at := Some (utc now);
    account_data_last_seen_at := Some (utc last_execution_event_at);
    execution_event_last_seen_at := Some (utc now);
    projection_applied_at := Some (utc updated_at);
    reconciliation_verified_at := Some (utc now) |} in
  let reasons := stale_reasons state (utc now) in
  if (projection_lag_threshold_ms freshness <? projection_lag_ms)
     && negb (str_in "projection_lag" reasons)
  then (reasons ++ ["projection_lag"])%list else reasons.

Definition missing_budget (account_id : string) : AccountBudget := {|
  bu_account_id := account_id; bu_currency := ""; bu_equity := dzero; bu_margin := Some dzero;
  bu_free_margin := Some dzero; bu_margin_ratio := Some dzero; bu_updated_at := None;
  bu_stale_reasons := ["account_missing"] |}.

(** The budget one accounts_projection row gives. *)
Definition budget_of_row (account_id : string) (row : account_row) (now : Z)
    (freshness : FreshnessConfig) : result AccountBudget :=
  let margin := column (ac_margin row) in
  free_margin ← match ac_available_balance row with
                | Some a => Ok (column a)
                | None =>
                    e ← ordered (column (ac_equity row));
                    m ← ordered margin;
                    Ok (Some (dmax (dsub e m) dzero))
                end;
  equity ← ordered (column (ac_equity row));
  margin_ratio ← (if dltb dzero equity then
                    match margin with
                    | Some m => Some <$> ddiv m equity
                    | None => Ok None
                    end
                  else Ok (Some dzero));
  Ok {|
    bu_account_id := account_id; bu_currency := ac_currency row; bu_equity := equity;
    bu_margin := margin; bu_free_margin := free_margin; bu_margin_ratio := margin_ratio;
    bu_updated_at := Some (ac_updated_at row);
    bu_stale_reasons := account_stale_reasons (ac_updated_at row)
      (default (ac_updated_at row) (ac_last_execution_event_at row)) (ac_projection_lag_ms row)
      now freshness |}.

Definition load_account_budget (account_id : option string) (now : option datetime)
    (freshness : FreshnessConfig) : M Conn AccountBudget :=
  clk ← get_now;
  let now := from_option aware clk now in
  account_id ← mlift (canonical_account_id account_id);
  row ← select (fun d => accounts_projection d !! account_id);
  match row with
  | None => mret (missing_budget account_id)
  | Some row => mlift (budget_of_row account_id row now freshness)
  end.

(** ** position_sizing.py *)

Record SizingRequest := {
  sz_account_id : string;
  sz_instrument_id : string;
  sz_side : string;
  sz_entry_price : dec;
  sz_stop_price : option dec;
  sz_quantity_step : dec;
  sz_min_quantity : dec;
  sz_min_notional : dec;
  sz_remaining_daily_budget : option dec;
  sz_existing_total_open_risk : dec;
  sz_remaining_instrument_exposure : option dec;
  sz_remaining_correlated_exposure : option dec;
  sz_leverage : option dec }.

(** One entry of [checks]; [None] stands for an entry without a value. *)
Record size_check := { ck_name : string; ck_passed : bool; ck_value : option dec }.

Record SizingResult := {
  sr_status : string;
  sr_reason : string;
  sr_quantity : dec;
  sr_notional : dec;
  sr_risk_amount : dec;
  sr_stop_distance_pct : dec;
  sr_raw_notional : dec;
  sr_allowed_notional : dec;
  sr_headroom : list (string * dec);
  sr_checks : list size_check }.

Definition blocked (status reason : string) (checks : list size_check) : SizingResult := {|
  sr_status := status; sr_reason := reason; sr_quantity := dzero; sr_notional := dzero;
  sr_risk_amount := dzero; sr_stop_distance_pct := dzero; sr_raw_notional := dzero;
  sr_allowed_notional := dzero; sr_headroom := []; sr_checks := checks |}.

Definition floor_to_increment (value increment : dec) : result dec :=
  if dleb increment dzero then Ok value
  else
    q ← ddiv value increment;
    Ok (dmul (to_integral ROUND_FLOOR q) increment).

(** [min(a, b, ...)] keeps the first of equal values. *)
Definition dmin_list (x : dec) (xs : list dec) : dec := fold_left dmin xs x.

(** The part after the guards, with a usable stop and free margin. *)
Definition size_with (budget : AccountBudget) (free_margin stop : dec) (request : SizingRequest)
    (config : RiskConfig) : result SizingResult :=
  let entry := sz_entry_price request in
  stop_distance_pct ← ddiv (dabs (dsub entry stop)) entry;
  let checks := [{| ck_name := "stop_distance"; ck_passed := true; ck_value := Some stop_distance_pct |}] in
  let per_trade := dmul (bu_equity budget) (risk_per_trade_pct config) in
  let remaining_daily := default per_trade (sz_remaining_daily_budget request) in
  let total_budget := dmul (bu_equity budget) (max_total_open_risk_pct config) in
  let remaining_total := dmax (dsub total_budget (sz_existing_total_open_risk request)) dzero in
  let risk_amount := dmin_list per_trade [remaining_daily; remaining_total] in
  if dleb risk_amount dzero then Ok (blocked "rejected" "no remaining risk budget" checks)
  else
    raw_notional ← ddiv risk_amount stop_distance_pct;
    let remaining_instrument := default (max_instrument_exposure config) (sz_remaining_instrument_exposure request) in
    let remaining_correlated := default (max_correlated_exposure config) (sz_remaining_correlated_exposure request) in
    let leverage := default (max_leverage config) (sz_leverage request) in
    let available_margin := dmax (dsub (dsub free_margin (min_free_margin config)) (reserve_balance config)) dzero in
    let available_margin_adjusted := dmul available_margin leverage in
    let headroom := [
      ("risk_per_trade", per_trade); ("daily", remaining_daily); ("total", remaining_total);
      ("raw_notional", raw_notional); ("max_notional_per_order", max_notional_per_order config);
      ("instrument", remaining_instrument); ("correlated", remaining_correlated);
      ("available_margin_adjusted", available_margin_adjusted)] in
    let allowed_notional := dmin_list raw_notional [
      max_notional_per_order config; remaining_instrument; remaining_correlated;
      available_margin_adjusted] in
    v ← ddiv allowed_notional entry;
    quantity ← floor_to_increment v (sz_quantity_step request);
    let notional := dmul quantity entry in
    let result st rs qty ntl chk := {|
      sr_status := st; sr_reason := rs; sr_quantity := qty; sr_notional := ntl;
      sr_risk_amount := risk_amount; sr_stop_distance_pct := stop_distance_pct;
      sr_raw_notional := raw_notional; sr_allowed_notional := allowed_notional;
      sr_headroom := headroom; sr_checks := chk |} in
    if dltb quantity (sz_min_quantity request) || dltb notional (sz_min_notional request)
    then Ok (result "rejected" "quantity below exchange minimum" dzero dzero
               (checks ++ [{| ck_name := "exchange_minimum"; ck_passed := false; ck_value := None |}])%list)
    else Ok (result "approved" "fixed risk size approved" quantity notional checks).

Definition fixed_risk_size (budget : AccountBudget) (request : SizingRequest) (config : RiskConfig)
  : result SizingResult :=
  can ← can_take_new_risk budget;
  if negb can then Ok (blocked "needs_review" "account budget stale or unavailable" [])
  else
    let entry := sz_entry_price request in
    let no_stop := Ok (blocked "needs_review" "no verifiable stop distance" []) in
    match sz_stop_price request with
    | None => no_stop
    | Some stop =>
        if dleb entry dzero || dleb stop dzero || deqb stop entry then no_stop
        else
          free_margin ← ordered (bu_free_margin budget);
          size_with budget free_margin stop request config
    end.

(** ** exchange_filters.py *)

Record InstrumentMetadata := {
  im_instrument_id : string;
  im_min_notional : dec;
  im_min_quantity : dec;
  im_quantity_step : dec;
  im_price_tick : dec;
  im_min_price : option dec;
  im_max_price : option dec;
  im_max_leverage : option dec;
  im_allowed_margin_modes : list string }.

Record OrderFilterRequest := {
  of_instrument_id : string;
  of_quantity : dec;
  of_price : dec;
  of_leverage : option dec;
  of_margin_mode : option string }.

Record filter_check := { fc_name : string; fc_passed : bool; fc_value : pyval; fc_limit : pyval }.

Record FilterResult := {
  fr_status : string;
  fr_reason : string;
  fr_checks : list filter_check;
  fr_metadata : InstrumentMetadata }.

Definition aligned (value increment : dec) : result bool :=
  if dleb increment dzero then Ok true
  else r ← drem value increment; Ok (deqb r dzero).

Fixpoint insert_sorted (x : string) (l : list string) : list string :=
  match l with
  | [] => [x]
  | y :: l' => if String.leb x y then x :: l else y :: insert_sorted x l'
  end.

(** [sorted(l)] on strings *)
Definition sorted_strings (l : list string) : list string := foldr insert_sorted [] l.

(** [metadata] is what the metadata source returns for the instrument. *)
Definition validate_exchange_filters (request : OrderFilterRequest) (metadata : InstrumentMetadata)
    (config : RiskConfig) : result FilterResult :=
  let notional := dmul (of_quantity request) (of_price request) in
  let chk n b v l := {| fc_name := n; fc_passed := b; fc_value := PDec (XFin v); fc_limit := PDec (XFin l) |} in
  let qty := of_quantity request in
  let price := of_price request in
  step ← aligned qty (im_quantity_step metadata);
  tick ← aligned price (im_price_tick metadata);
  let checks := ([
      chk "min_quantity" (dleb (im_min_quantity metadata) qty) qty (im_min_quantity metadata);
      chk "quantity_step" step qty (im_quantity_step metadata);
      chk "min_notional" (dleb (im_min_notional metadata) notional) notional (im_min_notional metadata);
      chk "price_tick" tick price (im_price_tick metadata)]
    ++ match im_min_price metadata with
       | Some p => [chk "min_price" (dleb p price) price p] | None => [] end
    ++ match im_max_price metadata with
       | Some p => [chk "max_price" (dleb price p) price p] | None => [] end
    ++ match of_leverage request with
       | Some l =>
           let own := match im_max_leverage metadata with
                      | Some m => if dis_zero m then max_leverage config else m
                      | None => max_leverage config
                      end in
           let max_lev := dmin (max_leverage config) own in
           [chk "leverage" (dleb l max_lev) l max_lev]
       | None => [] end
    ++ match im_allowed_margin_modes metadata, of_margin_mode request with
       | (_ :: _) as modes, Some m =>
           [{| fc_name := "margin_mode"; fc_passed := str_in m modes; fc_value := PStr m;
               fc_limit := PList (map PStr (sorted_strings modes)) |}]
       | _, _ => [] end)%list in
  let failed := List.filter (fun c => negb (fc_passed c)) checks in
  Ok {| fr_status := match failed with [] => "approved" | _ => "rejected" end;
        fr_reason := match failed with [] => "filters passed" | c :: _ => fc_name c end;
        fr_checks := checks; fr_metadata := metadata |}.

(** ** exposure.py *)

Definition DEFAULT_CORRELATED_GROUPS : list (string * list string) :=
  [("majors", ["BTCUSDT"; "ETHUSDT"])].

Record ExposureSnapshot := {
  ex_account_id : option string;
  ex_instrument_notional : list (string * xdec);
  ex_total_notional : xdec;
  ex_total_risk_amount : xdec }.

Record ProposedExposure := {
  px_account_id : string;
  px_instrument_id : string;
  px_notional : dec;
  px_risk_amount : dec }.

(** The constructor's normalisation. *)
Definition proposed_exposure (account_id instrument_id : string) (notional risk_amount : dec)
  : result ProposedExposure :=
  a ← canonical_account_id (Some account_id);
  Ok {| px_account_id := a; px_instrument_id := canonical_instrument_key instrument_id;
        px_notional := notional; px_risk_amount := risk_amount |}.

Fixpoint xlookup (k : string) (l : list (string * xdec)) : option xdec :=
  match l with
  | [] => None
  | (k', v) :: l => if String.eqb k k' then Some v else xlookup k l
  end.

Fixpoint xset (k : string) (v : xdec) (l : list (string * xdec)) : list (string * xdec) :=
  match l with
  | [] => [(k, v)]
  | (k', v') :: l => if String.eqb k k' then (k, v) :: l else (k', v') :: xset k v l
  end.

Definition position_notional (position : dict) : result xdec :=
  if negb (is_none (dget "notional" position)) then
    n ← decimal_value (dget "notional" position); Ok (xabs n)
  else
    q ← decimal_value (dget "quantity" position);
    p ← decimal_value (py_or (dget "avg_entry_price" position) (dget "mark_price" position));
    xmul (xabs q) p.

Definition account_of (v : pyval) : option string := if is_none v then None else Some (py_str v).

Definition add_position (account : option string) (s : ExposureSnapshot) (position : dict)
  : result ExposureSnapshot :=
  mine ← match account with
         | None => Ok true
         | Some a => p ← canonical_account_id (account_of (dget "account_id" position)); Ok (String.eqb p a)
         end;
  if negb mine then Ok s
  else if negb (str_in (lower (py_str (py_or (dget "status" position) (PStr "open")))) ["open"; "external"])
  then Ok s
  else
    let key := canonical_instrument_key
      (py_str (py_or (dget "instrument_id" position) (dget "venue_symbol" position))) in
    notional ← position_notional position;
    here ← xadd (default (XFin dzero) (xlookup key (ex_instrument_notional s))) notional;
    total ← xadd (ex_total_notional s) notional;
    let payload := as_dict (dget "payload" position) in
    risk ← decimal_value (py_or (dget "risk_amount" position) (dget "risk_amount" payload));
    total_risk ← xadd (ex_total_risk_amount s) risk;
    Ok {| ex_account_id := ex_account_id s;
          ex_instrument_notional := xset key here (ex_instrument_notional s);
          ex_total_notional := total; ex_total_risk_amount := total_risk |}.

Definition exposure_from_positions (positions : list dict) (account_id : option string)
  : result ExposureSnapshot :=
  account ← match account_id with
            | Some a => Some <$> canonical_account_id (Some a)
            | None => Ok None
            end;
  foldR (add_position account)
    {| ex_account_id := account; ex_instrument_notional := []; ex_total_notional := XFin dzero;
       ex_total_risk_amount := XFin dzero |} positions.

Fixpoint xsum (acc : xdec) (l : list xdec) : result xdec :=
  match l with
  | [] => Ok acc
  | x :: l => acc ← xadd acc x; xsum acc l
  end.

Fixpoint correlated_existing (s : ExposureSnapshot) (key : string) (groups : list (string * list string))
  : result (option string * xdec) :=
  match groups with
  | [] => Ok (None, default (XFin dzero) (xlookup key (ex_instrument_notional s)))
  | (name, members) :: groups =>
      let canonical_members := map canonical_instrument_key members in
      if str_in key canonical_members then
        n ← xsum (XFin dzero) (map snd (List.filter (fun p =>
              str_in (canonical_instrument_key (fst p)) canonical_members) (ex_instrument_notional s)));
        Ok (Some name, n)
      else correlated_existing s key groups
  end.

Record ExposureCheckResult := {
  xr_status : string;
  xr_reason : string;
  xr_projected_instrument_exposure : xdec;
  xr_projected_correlated_exposure : xdec;
  xr_projected_total_risk : xdec;
  xr_headroom : list (string * xdec);
  xr_correlated_group : option string;
  xr_checks : list filter_check }.

Definition check_exposure (snapshot : ExposureSnapshot) (proposed : ProposedExposure)
    (config : RiskConfig) (groups : list (string * list string)) : result ExposureCheckResult :=
  let groups := match groups with [] => DEFAULT_CORRELATED_GROUPS | g => g end in
  let key := canonical_instrument_key (px_instrument_id proposed) in
  let existing := default (XFin dzero) (xlookup key (ex_instrument_notional snapshot)) in
  '(group_name, group_existing) ← correlated_existing snapshot key groups;
  projected_instrument ← xadd existing (XFin (px_notional proposed));
  projected_correlated ← xadd group_existing (XFin (px_notional proposed));
  projected_total_risk ← xadd (ex_total_risk_amount snapshot) (XFin (px_risk_amount proposed));
  free_i ← xsub (XFin (max_instrument_exposure config)) existing;
  free_i ← xmax free_i (XFin dzero);
  free_c ← xsub (XFin (max_correlated_exposure config)) group_existing;
  free_c ← xmax free_c (XFin dzero);
  ok_i ← xleb projected_instrument (XFin (max_instrument_exposure config));
  ok_c ← xleb projected_correlated (XFin (max_correlated_exposure config));
  let chk n b v l := {| fc_name := n; fc_passed := b; fc_value := PDec v; fc_limit := PDec (XFin l) |} in
  let checks := [
    chk "instrument_exposure" ok_i projected_instrument (max_instrument_exposure config);
    chk "correlated_exposure" ok_c projected_correlated (max_correlated_exposure config)] in
  let result st rs := {|
    xr_status := st; xr_reason := rs;
    xr_projected_instrument_exposure := projected_instrument;
    xr_projected_correlated_exposure := projected_correlated;
    xr_projected_total_risk := projected_total_risk;
    xr_headroom := [("instrument", free_i); ("correlated", free_c)];
    xr_correlated_group := group_name; xr_checks := checks |} in
  Ok (match List.filter (fun c => negb (fc_passed c)) checks with
      | c :: _ => result "rejected" (fc_name c +:+ " cap exceeded")
      | [] => result "approved" "exposure within caps"
      end).

(** ** Lemmas *)

(** Accumulated rounding: [n] operations. *)
Fixpoint grow (n : nat) : Q := match n with O => 1 | S n => (1 + eps) * grow n end.

Lemma eps_nonneg : (0 <= eps)%Q.
Proof. by compute. Qed.

Lemma grow_ge_1 n : (1 <= grow n)%Q.
Proof.
  pose proof eps_nonneg as E. induction n as [|n IH]; simpl; [lra|].
  assert (0 <= eps * grow n)%Q by (apply Qmult_le_0_compat; lra). lra.
Qed.

Lemma grow_add n m : (grow (n + m) == grow n * grow m)%Q.
Proof. induction n as [|n IH]; simpl; [ring | rewrite IH; ring]. Qed.

Definition within (n : nat) (x y : Q) : Prop := (x <= grow n * y)%Q.

#[global] Instance within_proper n : Proper (Qeq ==> Qeq ==> iff) (within n).
Proof. intros x x' Hx y y' Hy. unfold within. by rewrite Hx, Hy. Qed.

Lemma within_trans n m x y z : within n x y -> within m y z -> within (n + m) x z.
Proof.
  unfold within. intros H1 H2. rewrite grow_add. eapply Qle_trans; [exact H1|].
  rewrite <- Qmult_assoc. apply Qmult_le_l; [|done]. pose proof (grow_ge_1 n). lra.
Qed.

Lemma within_step x y : approx x y -> (0 <= y)%Q -> within 1 x y.
Proof.
  intros H Hy. unfold within. simpl. rewrite Qmult_1_r. by apply approx_le.
Qed.

Lemma within_le x y : (x <= y)%Q -> within 0 x y.
Proof. unfold within. simpl. lra. Qed.

Lemma within_more n m x y : (0 <= y)%Q -> (n <= m)%nat -> within n x y -> within m x y.
Proof.
  intros Hy L. unfold within. intros H. eapply Qle_trans; [exact H|].
  replace m with (n + (m - n))%nat by lia. rewrite grow_add.
  pose proof (grow_ge_1 n). pose proof (grow_ge_1 (m - n)).
  assert (0 <= (grow (m - n) - 1) * (grow n * y))%Q
    by (apply Qmult_le_0_compat; [lra | apply Qmult_le_0_compat; lra]). lra.
Qed.

Lemma within_mult n x y k : (0 <= k)%Q -> within n x y -> within n (x * k) (y * k).
Proof.
  unfold within. intros Hk H. rewrite Qmult_assoc. by apply Qmult_le_compat_r.
Qed.

Lemma dmin_list_le x xs y :
  y ∈ x :: xs -> (dval (dmin_list x xs) <= dval y)%Q.
Proof.
  unfold dmin_list. revert x y. induction xs as [|z xs IH]; intros x y H; simpl.
  - apply list_elem_of_singleton in H as ->. lra.
  - rewrite !elem_of_cons in H. destruct (dmin_lb x z).
    assert (dval (fold_left dmin xs (dmin x z)) <= dval (dmin x z))%Q by (apply IH; left).
    destruct H as [->|[->|H]]; [lra..|]. apply IH. by right.
Qed.

Lemma dmin_list_glb x xs q :
  (q <= dval x)%Q -> Forall (fun y => q <= dval y)%Q xs -> (q <= dval (dmin_list x xs))%Q.
Proof.
  unfold dmin_list. intros Hx H. revert x Hx. induction H as [|z xs Hz _ IH]; intros x Hx; simpl; [done|].
  apply IH. by apply dmin_glb.
Qed.

(** Rounding a nonnegative value down to a positive step never gains more than
    two roundings, and leaves a whole number of steps. *)
Lemma floor_to_increment_le v step q :
  floor_to_increment v step = Ok q -> (0 < dval step)%Q -> (0 <= dval v)%Q ->
  within 2 (dval q) (dval v) /\ (0 <= dval q)%Q
  /\ exists n, approx (dval q) (inject_Z n * dval step).
Proof.
  unfold floor_to_increment. intros H Hs Hv.
  rewrite (proj2 (dleb_gt step dzero)) in H by done. run_inv.
  assert (Hx : (0 <= dval x)%Q) by by eapply ddiv_nonneg.
  pose proof (to_integral_floor_nonneg x Hx) as Hu. destruct (to_integral_floor x) as [Hf _].
  destruct (to_integral_int ROUND_FLOOR x) as [n En]. split_and!.
  - change 2%nat with (1 + 1)%nat. eapply within_trans.
    + apply within_step; [apply dmul_approx|]. apply Qmult_le_0_compat; lra.
    + setoid_replace (dval v) with (dval v / dval step * dval step)%Q using relation Qeq
        by (field; lra).
      apply within_mult; [lra|]. change 1%nat with (0 + 1)%nat.
      eapply within_trans; [by apply within_le|]. apply within_step; [by apply ddiv_approx|].
      apply Qle_shift_div_l; lra.
  - by apply dmul_nonneg; [|lra].
  - exists n. rewrite <- En. apply dmul_approx.
Qed.

(** A quotient of nonnegative numbers, back times the divisor. *)
Lemma ddiv_within a b q :
  ddiv a b = Ok q -> (0 <= dval a)%Q -> (0 < dval b)%Q -> within 1 (dval q * dval b) (dval a).
Proof.
  intros H Ha Hb. setoid_replace (dval a) with (dval a / dval b * dval b)%Q using relation Qeq
    by (field; lra).
  apply within_mult; [lra|]. apply within_step; [by apply ddiv_approx|].
  apply Qle_shift_div_l; lra.
Qed.

(** The other way round: the exact value is close to the rounded one. *)
Lemma approx_rev x y : approx x y -> (0 <= y)%Q -> within 2 y x.
Proof.
  intros A Hy. destruct (approx_bounds _ _ A Hy) as [L _]. unfold within. simpl.
  assert (K : (1 <= (1 + eps) * (1 + eps) * (1 - eps))%Q) by by compute.
  assert (K2 : ((1 + eps) * (1 + eps) * ((1 - eps) * y) <= (1 + eps) * (1 + eps) * x)%Q)
    by (apply Qmult_le_l; [by compute | done]).
  assert (K3 : (1 * y <= (1 + eps) * (1 + eps) * (1 - eps) * y)%Q) by by apply Qmult_le_compat_r.
  lra.
Qed.

Lemma approx_abs x y : approx x y -> approx (Qabs x) (Qabs y).
Proof.
  unfold approx. intros H. rewrite (Qabs_pos (Qabs y)) by apply Qabs_nonneg. eapply Qle_trans; [|exact H].
  apply Qabs_Qle_condition. pose proof (Qabs_triangle_reverse x y) as T1.
  pose proof (Qabs_triangle_reverse y x) as T2.
  assert (E : (Qabs (y - x) == Qabs (x - y))%Q).
  { rewrite <- Qabs_opp. by setoid_replace (- (y - x))%Q with (x - y)%Q using relation Qeq by ring. }
  rewrite E in T2. split; lra.
Qed.

Lemma approx_sign x y : approx x y -> (0 <= x)%Q -> (0 <= y)%Q.
Proof.
  unfold approx. intros H Hx. apply Qnot_lt_le. intros N.
  rewrite (Qabs_neg y) in H by lra. apply Qabs_Qle_condition in H.
  assert (eps * - y <= (1 # 2) * - y)%Q by (apply Qmult_le_compat_r; [by compute | lra]). lra.
Qed.

Lemma ddiv_within_rev a b q :
  ddiv a b = Ok q -> (0 <= dval a)%Q -> (0 < dval b)%Q -> within 2 (dval a) (dval q * dval b).
Proof.
  intros H Ha Hb. setoid_replace (dval a) with (dval a / dval b * dval b)%Q using relation Qeq
    by (field; lra).
  apply within_mult; [lra|]. apply approx_rev; [by apply ddiv_approx | apply Qle_shift_div_l; lra].
Qed.

Lemma dsub_dabs_rev a b : within 4 (Qabs (dval a - dval b)) (dval (dabs (dsub a b))).
Proof.
  change 4%nat with (2 + 2)%nat. eapply within_trans.
  - apply approx_rev; [|apply Qabs_nonneg]. apply approx_abs, dsub_approx.
  - apply approx_rev; [apply dabs_approx | apply Qabs_nonneg].
Qed.

(** A floor that is not negative comes from a value that is not negative. *)
Lemma floor_to_increment_sign v step q :
  floor_to_increment v step = Ok q -> (0 < dval step)%Q -> (0 <= dval q)%Q -> (0 <= dval v)%Q.
Proof.
  unfold floor_to_increment. intros H Hs Hq.
  rewrite (proj2 (dleb_gt step dzero)) in H by done. run_inv.
  apply (approx_sign _ _ (dmul_approx _ _)) in Hq. destruct (to_integral_floor x) as [Hf _].
  assert (Hu : (0 <= dval (to_integral ROUND_FLOOR x))%Q).
  { apply Qnot_lt_le. intros N. assert (0 < - dval (to_integral ROUND_FLOOR x) * dval step)%Q
      by (apply Qmult_lt_0_compat; lra). lra. }
  assert (Hx : (0 <= dval x)%Q) by lra. apply (approx_sign _ _ (ddiv_approx _ _ _ Hr)) in Hx.
  setoid_replace (dval v) with (dval v / dval step * dval step)%Q using relation Qeq by (field; lra).
  apply Qmult_le_0_compat; lra.
Qed.

Lemma ddiv_sign a b q : ddiv a b = Ok q -> (0 < dval b)%Q -> (0 <= dval q)%Q -> (0 <= dval a)%Q.
Proof.
  intros H Hb Hq. apply (approx_sign _ _ (ddiv_approx _ _ _ H)) in Hq.
  setoid_replace (dval a) with (dval a / dval b * dval b)%Q using relation Qeq by (field; lra).
  apply Qmult_le_0_compat; lra.
Qed.

(** ** Sizing *)

(** What an approved size is made of. *)
Lemma size_with_approved b f stop req cfg r :
  size_with b f stop req cfg = Ok r -> sr_status r = "approved" ->
  exists v,
    ddiv (dabs (dsub (sz_entry_price req) stop)) (sz_entry_price req) = Ok (sr_stop_distance_pct r)
    /\ ddiv (sr_risk_amount r) (sr_stop_distance_pct r) = Ok (sr_raw_notional r)
    /\ (0 < dval (sr_risk_amount r))%Q
    /\ sr_risk_amount r = dmin_list (dmul (bu_equity b) (risk_per_trade_pct cfg))
         [default (dmul (bu_equity b) (risk_per_trade_pct cfg)) (sz_remaining_daily_budget req);
          dmax (dsub (dmul (bu_equity b) (max_total_open_risk_pct cfg)) (sz_existing_total_open_risk req)) dzero]
    /\ sr_allowed_notional r = dmin_list (sr_raw_notional r)
         [max_notional_per_order cfg;
          default (max_instrument_exposure cfg) (sz_remaining_instrument_exposure req);
          default (max_correlated_exposure cfg) (sz_remaining_correlated_exposure req);
          dmul (dmax (dsub (dsub f (min_free_margin cfg)) (reserve_balance cfg)) dzero)
               (default (max_leverage cfg) (sz_leverage req))]
    /\ ddiv (sr_allowed_notional r) (sz_entry_price req) = Ok v
    /\ floor_to_increment v (sz_quantity_step req) = Ok (sr_quantity r)
    /\ sr_notional r = dmul (sr_quantity r) (sz_entry_price req)
    /\ (dval (sz_min_quantity req) <= dval (sr_quantity r))%Q
    /\ (dval (sz_min_notional req) <= dval (sr_notional r))%Q.
Proof.
  unfold size_with. intros H S. run_inv. cbv zeta in H.
  destruct (dleb _ dzero) eqn:R in H; [apply ok_inj in H; subst r; discriminate S|]. run_inv.
  destruct (dltb x2 _ || _) eqn:M in H; apply ok_inj in H; subst r; [discriminate S|].
  cbn [sr_status sr_quantity sr_notional sr_risk_amount sr_stop_distance_pct sr_raw_notional sr_allowed_notional].
  apply orb_false_iff in M as [M1 M2]. apply dltb_ge in M1, M2. apply dleb_gt in R.
  exists x1. split_and!; done.
Qed.

Lemma fixed_risk_size_approved b req cfg r :
  fixed_risk_size b req cfg = Ok r -> sr_status r = "approved" ->
  exists f stop, bu_free_margin b = Some f /\ sz_stop_price req = Some stop
    /\ (0 < dval (sz_entry_price req))%Q /\ size_with b f stop req cfg = Ok r.
Proof.
  unfold fixed_risk_size. intros H S. run_inv. destruct x; cbn in H; [|injection H as <-; discriminate S].
  destruct (sz_stop_price req) as [stop|]; [|injection H as <-; discriminate S].
  destruct (dleb _ dzero || _ || _) eqn:G in H; [injection H as <-; discriminate S|].
  run_inv. apply orb_false_iff in G as [G _]. apply orb_false_iff in G as [G _]. apply dleb_gt in G.
  unfold ordered in Hr0. destruct (bu_free_margin b) as [f|]; [|discriminate Hr0].
  injection Hr0 as <-. by exists f, stop.
Qed.

Definition slack : Q := 1 + (1 # 10 ^ 25).

Lemma grow_slack n : (n <= 10)%nat -> (grow n <= slack)%Q.
Proof.
  intros H. eapply Qle_trans; [|by instantiate (1 := grow 10); compute].
  replace 10%nat with (n + (10 - n))%nat by lia. rewrite grow_add.
  pose proof (grow_ge_1 n). pose proof (grow_ge_1 (10 - n)).
  setoid_replace (grow n) with (grow n * 1)%Q using relation Qeq at 1 by ring.
  apply Qmult_le_l; lra.
Qed.

Lemma within_slack n x y : (0 <= y)%Q -> (n <= 10)%nat -> within n x y -> (x <= slack * y)%Q.
Proof.
  unfold within. intros Hy L H. eapply Qle_trans; [exact H|]. apply Qmult_le_compat_r; [|done].
  by apply grow_slack.
Qed.

(** C22. Risk at the stop: whatever the budget, a size that is approved loses
    at the stop price at most the risk amount, up to the rounding of the
    28-digit context (less than one part in 10^25), and that risk amount is
    within the per-trade, daily and total budgets. *)
Theorem approved_risk_at_stop b req cfg r :
  fixed_risk_size b req cfg = Ok r -> sr_status r = "approved" ->
  (0 < dval (sz_quantity_step req))%Q -> (0 <= dval (sz_min_quantity req))%Q ->
  exists stop, sz_stop_price req = Some stop
    /\ (dval (sr_quantity r) * Qabs (dval (sz_entry_price req) - dval stop)
        <= slack * dval (sr_risk_amount r))%Q
    /\ (dval (sr_risk_amount r) <= dval (dmul (bu_equity b) (risk_per_trade_pct cfg)))%Q
    /\ (forall d, sz_remaining_daily_budget req = Some d -> dval (sr_risk_amount r) <= dval d)%Q
    /\ (dval (sr_risk_amount r) <=
        dval (dmax (dsub (dmul (bu_equity b) (max_total_open_risk_pct cfg)) (sz_existing_total_open_risk req)) dzero))%Q.
Proof.
  intros H S Hstep Hmin. apply fixed_risk_size_approved in H as (f & stop & _ & -> & He & H); [|done].
  apply size_with_approved in H as (v & D & R & Rp & Rm & A & V & Q & N & Mq & _); [|done].
  exists stop. split; [done|]. split.
  2: { rewrite Rm. split_and!.
       - apply dmin_list_le. left.
       - intros d Hd. apply dmin_list_le. rewrite Hd. right. left.
       - apply dmin_list_le. do 2 right. left. }
  assert (Hq : (0 <= dval (sr_quantity r))%Q) by lra.
  assert (Hv : (0 <= dval v)%Q) by by eapply floor_to_increment_sign.
  assert (Ha : (0 <= dval (sr_allowed_notional r))%Q) by by eapply ddiv_sign.
  assert (Hs : (0 <= dval (sr_stop_distance_pct r))%Q) by (eapply ddiv_nonneg; [done | apply dabs_nonneg | done]).
  assert (Hs' : (0 < dval (sr_stop_distance_pct r))%Q).
  { pose proof (ddiv_zero_divisor _ _ _ R) as Z. destruct (Qle_lt_or_eq _ _ Hs) as [|E]; [done|].
    exfalso. apply Z. by rewrite <- E. }
  assert (Hl : (dval (sr_allowed_notional r) <= dval (sr_raw_notional r))%Q)
    by (rewrite A; apply dmin_list_le; left).
  destruct (floor_to_increment_le _ _ _ Q Hstep Hv) as [W _].
  apply (within_slack 10); [lra | done|].
  set (q := dval (sr_quantity r)) in *. set (e := dval (sz_entry_price req)) in *.
  set (p := dval (sr_stop_distance_pct r)) in *.
  assert (W1 : within 6 (q * Qabs (e - dval stop)) (q * e * p)).
  { setoid_replace (q * Qabs (e - dval stop))%Q with (Qabs (e - dval stop) * q)%Q using relation Qeq by ring.
    setoid_replace (q * e * p)%Q with (p * e * q)%Q using relation Qeq by ring.
    apply within_mult; [done|]. change 6%nat with (4 + 2)%nat.
    eapply within_trans; [apply dsub_dabs_rev|]. apply ddiv_within_rev; [done | apply dabs_nonneg | done]. }
  change 10%nat with (6 + (3 + 1))%nat. eapply within_trans; [exact W1|].
  eapply within_trans; [|by apply ddiv_within; [exact R | lra | done]].
  apply within_mult; [done|]. change 3%nat with (2 + (1 + 0))%nat.
  eapply within_trans; [apply within_mult; [lra | exact W]|].
  eapply within_trans; [by apply ddiv_within | by apply within_le].
Qed.

Definition sample_budget : AccountBudget := {|
  bu_account_id := "acct"; bu_currency := "USDT"; bu_equity := Dec 10000 0; bu_margin := Some dzero;
  bu_free_margin := Some (Dec 9000 0); bu_margin_ratio := Some dzero; bu_updated_at := Some 0;
  bu_stale_reasons := [] |}.

Definition sample_sizing : SizingRequest := {|
  sz_account_id := "acct"; sz_instrument_id := "BTCUSDT"; sz_side := "long";
  sz_entry_price := Dec 601235 (-1); sz_stop_price := Some (Dec 590001 (-1));
  sz_quantity_step := Dec 1 (-3); sz_min_quantity := Dec 1 (-3); sz_min_notional := Dec 5 0;
  sz_remaining_daily_budget := None; sz_existing_total_open_risk := dzero;
  sz_remaining_instrument_exposure := None; sz_remaining_correlated_exposure := None;
  sz_leverage := None |}.

Definition size_of (r : result SizingResult) : SizingResult :=
  match r with Ok s => s | Raise _ => blocked "" "" [] end.

Example sample_size :
  (fun r => (sr_status r, sr_quantity r, sr_notional r))
    (size_of (fixed_risk_size sample_budget sample_sizing default_risk_config))
  = ("approved", Dec 133 (-3), Dec 79964255 (-4)).
Proof. vm_compute. reflexivity. Qed.

Lemma approved_risk_at_stop_witness :
  exists r stop, fixed_risk_size sample_budget sample_sizing default_risk_config = Ok r
    /\ sz_stop_price sample_sizing = Some stop
    /\ (dval (sr_quantity r) * Qabs (dval (sz_entry_price sample_sizing) - dval stop)
        <= slack * dval (sr_risk_amount r))%Q.
Proof.
  destruct (fixed_risk_size sample_budget sample_sizing default_risk_config) as [r|] eqn:E;
    [|vm_compute in E; discriminate E].
  destruct (approved_risk_at_stop _ _ _ _ E) as (stop & S & L & _).
  - vm_compute in E. injection E as <-. reflexivity.
  - reflexivity.
  - by compute.
  - exists r, stop. auto.
Defined.

(** Caps: an approved size is at least the exchange minimum, and its
    notional stays below every cap (per order, instrument, correlated group,
    leveraged free margin), up to the rounding of the context. *)
Theorem approved_size_within_caps b req cfg r cap :
  fixed_risk_size b req cfg = Ok r -> sr_status r = "approved" ->
  (0 < dval (sz_quantity_step req))%Q -> (0 <= dval (sz_min_quantity req))%Q ->
  cap ∈ [max_notional_per_order cfg;
         default (max_instrument_exposure cfg) (sz_remaining_instrument_exposure req);
         default (max_correlated_exposure cfg) (sz_remaining_correlated_exposure req);
         dmul (dmax (dsub (dsub (default dzero (bu_free_margin b)) (min_free_margin cfg)) (reserve_balance cfg)) dzero)
              (default (max_leverage cfg) (sz_leverage req))] ->
  (dval (sr_notional r) <= slack * dval cap)%Q
  /\ (dval (sz_min_quantity req) <= dval (sr_quantity r))%Q
  /\ (dval (sz_min_notional req) <= dval (sr_notional r))%Q.
Proof.
  intros H S Hstep Hmin Hcap. apply fixed_risk_size_approved in H as (f & stop & Hf & _ & He & H); [|done].
  rewrite Hf in Hcap.
  apply size_with_approved in H as (v & D & R & Rp & Rm & A & V & Q & N & Mq & Mn); [|done].
  split; [|done].
  assert (Hq : (0 <= dval (sr_quantity r))%Q) by lra.
  assert (Hv : (0 <= dval v)%Q) by by eapply floor_to_increment_sign.
  assert (Ha : (0 <= dval (sr_allowed_notional r))%Q) by by eapply ddiv_sign.
  assert (Hc : (dval (sr_allowed_notional r) <= dval cap)%Q)
    by (rewrite A; apply dmin_list_le; right; exact Hcap).
  destruct (floor_to_increment_le _ _ _ Q Hstep Hv) as [W _].
  apply (within_slack 4); [lra | lia|]. rewrite N.
  change 4%nat with (1 + (2 + (1 + 0)))%nat.
  eapply within_trans; [apply within_step; [apply dmul_approx | apply Qmult_le_0_compat; lra]|].
  eapply within_trans; [apply within_mult; [lra | exact W]|].
  eapply within_trans; [by apply ddiv_within | by apply within_le].
Qed.

Lemma approved_size_within_caps_witness :
  exists r, fixed_risk_size sample_budget sample_sizing default_risk_config = Ok r
    /\ (dval (sr_notional r) <= slack * dval (Dec 50000 0))%Q.
Proof.
  destruct (fixed_risk_size sample_budget sample_sizing default_risk_config) as [r|] eqn:E;
    [|vm_compute in E; discriminate E].
  exists r. split; [reflexivity|].
  apply (approved_size_within_caps sample_budget sample_sizing default_risk_config r (Dec 50000 0) E).
  - vm_compute in E. injection E as <-. reflexivity.
  - by compute.
  - by compute.
  - left.
Defined.

(** ** Filters *)

(** The remainder of a division is zero exactly at the multiples. *)
Lemma drem_zero a b r :
  drem a b = Ok r -> deqb r dzero = true -> exists n, (dval a == inject_Z n * dval b)%Q.
Proof.
  unfold drem. destruct (coef b =? 0) eqn:B; [done|]. bprop.
  set (e := Z.min (dexp a) (dexp b)).
  destruct (10 ^ prec <=? _); [done|]. intros H E. apply ok_inj in H. subst r.
  exists (Z.quot (shift_to e a) (shift_to e b)).
  apply deqb_eq in E. change (dval (fix28 (Dec (Z.rem (shift_to e a) (shift_to e b)) e)) == 0)%Q in E.
  apply Qeq_alt in E. rewrite fix28_sgn in E. cbn [coef] in E. apply Z.compare_eq in E.
  rewrite <- (shift_to_val e a), <- (shift_to_val e b) by (unfold e; lia).
  assert (Hb : shift_to e b <> 0) by (unfold shift_to; apply Z.neq_mul_0; split; [done|]; apply Z.pow_nonzero; lia).
  pose proof (Z.quot_rem (shift_to e a) (shift_to e b) Hb) as Q. rewrite E, Z.add_0_r in Q.
  unfold dval. cbn [coef dexp]. rewrite Q at 1. rewrite inject_Z_mult. ring.
Qed.

(** Exchange filters: an order is approved only when its quantity and its
    price are whole multiples of a positive step and tick, and the quantity,
    notional, price range and leverage meet the instrument's limits. *)
Theorem filters_approved req md cfg r :
  validate_exchange_filters req md cfg = Ok r -> fr_status r = "approved" ->
  ((0 < dval (im_quantity_step md))%Q -> exists n, (dval (of_quantity req) == inject_Z n * dval (im_quantity_step md))%Q)
  /\ ((0 < dval (im_price_tick md))%Q -> exists n, (dval (of_price req) == inject_Z n * dval (im_price_tick md))%Q)
  /\ (dval (im_min_quantity md) <= dval (of_quantity req))%Q
  /\ (dval (im_min_notional md) <= dval (dmul (of_quantity req) (of_price req)))%Q
  /\ (forall p, im_min_price md = Some p -> dval p <= dval (of_price req))%Q
  /\ (forall p, im_max_price md = Some p -> dval (of_price req) <= dval p)%Q
  /\ (forall l, of_leverage req = Some l -> dval l <= dval (max_leverage cfg))%Q.
Proof.
  unfold validate_exchange_filters. intros H S. run_inv. rename x into step, x0 into tick.
  match type of S with context [List.filter ?p ?l] => set (checks := l) in *; set (bad := p) in * end.
  assert (All : forall c, In c checks -> fc_passed c = true).
  { cbn [fr_status] in S. destruct (List.filter bad checks) as [|c0 l0] eqn:F; [|discriminate S].
    intros c Hc. destruct (fc_passed c) eqn:P; [done|]. exfalso.
    assert (X : In c (List.filter bad checks)) by (apply filter_In; unfold bad; by rewrite P).
    by rewrite F in X. }
  unfold checks in All.
  assert (Mult : forall v i b, aligned v i = Ok b -> b = true -> (0 < dval i)%Q ->
                 exists n, (dval v == inject_Z n * dval i)%Q).
  { intros v i b Hb -> Hi. unfold aligned in Hb. rewrite (proj2 (dleb_gt i dzero)) in Hb by done.
    run_inv. by eapply drem_zero. }
  pose proof (All _ (or_introl eq_refl)) as A1. pose proof (All _ (or_intror (or_introl eq_refl))) as A2.
  pose proof (All _ (or_intror (or_intror (or_introl eq_refl)))) as A3.
  pose proof (All _ (or_intror (or_intror (or_intror (or_introl eq_refl))))) as A4.
  cbn [fc_passed] in A1, A2, A3, A4.
  split_and!.
  - by apply Mult with step.
  - by apply Mult with tick.
  - by apply dleb_le.
  - by apply dleb_le.
  - intros p Hp. apply dleb_le. refine (All {| fc_name := "min_price"; fc_passed := _; fc_value := _; fc_limit := _ |} _).
    rewrite Hp. apply in_or_app; right. apply in_or_app; left. by left.
  - intros p Hp. apply dleb_le. refine (All {| fc_name := "max_price"; fc_passed := _; fc_value := _; fc_limit := _ |} _).
    rewrite Hp. apply in_or_app; right. apply in_or_app; right. apply in_or_app; left. by left.
  - intros l Hl. rewrite Hl in All.
    match type of All with context [{| fc_name := "leverage"; fc_passed := ?b; fc_value := ?v; fc_limit := ?m |}] =>
      assert (L : fc_passed {| fc_name := "leverage"; fc_passed := b; fc_value := v; fc_limit := m |} = true) end.
    { apply All. do 3 (apply in_or_app; right). apply in_or_app; left. by left. }
    cbn [fc_passed] in L. apply dleb_le in L. eapply Qle_trans; [exact L|]. apply dmin_lb.
Qed.

Definition sample_metadata : InstrumentMetadata := {|
  im_instrument_id := "BTCUSDT"; im_min_notional := Dec 5 0; im_min_quantity := Dec 1 (-3);
  im_quantity_step := Dec 1 (-3); im_price_tick := Dec 1 (-1); im_min_price := Some (Dec 1 0);
  im_max_price := None; im_max_leverage := Some (Dec 20 0); im_allowed_margin_modes := ["isolated"] |}.

Lemma filters_approved_witness :
  exists n, (dval (Dec 133 (-3)) == inject_Z n * dval (im_quantity_step sample_metadata))%Q.
Proof.
  destruct (validate_exchange_filters {| of_instrument_id := "BTCUSDT"; of_quantity := Dec 133 (-3);
      of_price := Dec 601235 (-1); of_leverage := Some (Dec 5 0); of_margin_mode := Some "isolated" |}
      sample_metadata default_risk_config) as [r|] eqn:E; [|vm_compute in E; discriminate E].
  refine (proj1 (filters_approved _ _ _ _ E _) _).
  - vm_compute in E. injection E as <-. reflexivity.
  - by compute.
Defined.

(** ** Exposure *)

(** Exposure: a proposal is approved exactly when both projected
    exposures, the instrument's own and its correlated group's, are at most
    their caps; otherwise it is rejected naming the first cap exceeded. *)
Theorem exposure_approved_iff s p cfg groups r :
  check_exposure s p cfg groups = Ok r ->
  (xr_status r = "approved" <->
     xleb (xr_projected_instrument_exposure r) (XFin (max_instrument_exposure cfg)) = Ok true
     /\ xleb (xr_projected_correlated_exposure r) (XFin (max_correlated_exposure cfg)) = Ok true)
  /\ (xr_status r <> "approved" ->
      xr_status r = "rejected"
      /\ xr_reason r ∈ ["instrument_exposure cap exceeded"; "correlated_exposure cap exceeded"]).
Proof.
  unfold check_exposure. intros H. run_inv. destruct x. run_inv.
  match goal with H : xleb _ (XFin (max_instrument_exposure cfg)) = Ok ?b |- _ => rename b into oi, H into Hi end.
  match goal with H : xleb _ (XFin (max_correlated_exposure cfg)) = Ok ?b |- _ => rename b into oc, H into Hc end.
  destruct oi, oc; cbn; rewrite ?Hi, ?Hc; (split; [split; intros; [done|] | intros; try done]); try done.
  all: try (match goal with H : _ /\ _ |- _ => destruct H; congruence end).
  all: split; [done|]; apply str_in_spec; reflexivity.
Qed.

Lemma exposure_approved_iff_witness :
  exists s r,
    exposure_from_positions
      [[("account_id", PStr "a"); ("instrument_id", PStr "BTCUSDT-PERP"); ("notional", PInt (-99000))]] (Some "a") = Ok s
    /\ check_exposure s {| px_account_id := "a"; px_instrument_id := "BTCUSDT"; px_notional := Dec 2000 0;
                            px_risk_amount := dzero |} default_risk_config [] = Ok r
    /\ xr_status r <> "approved".
Proof.
  match goal with |- exists s _, ?c = _ /\ _ => destruct c as [s|] eqn:S; [|vm_compute in S; discriminate S] end.
  exists s. vm_compute in S. injection S as <-.
  match goal with |- exists r, _ /\ ?c = Ok r /\ _ => destruct c as [r|] eqn:E; [|vm_compute in E; discriminate E] end.
  exists r. split; [reflexivity|]. split; [reflexivity|].
  intros X. apply (exposure_approved_iff _ _ _ _ _ E) in X as [X _].
  vm_compute in E. injection E as <-. vm_compute in X. discriminate X.
Defined.
