(* ===== verification/Reservations.v ===== *)
(** * Reservations: reserved risk and loss limits

    Models services/control-plane/risk/reservations.py and loss_limits.py. *)

From Stdlib Require Import ZArith Lia Ascii QArith Qabs Lqa.
From S2P Require Import Prelude Decimal PyString DecText PyValue PyTime Store Identifiers Freshness Risk.
Open Scope string_scope.
Open Scope Z_scope.

(** ** Reservations *)

Definition ACTIVE_STATUSES : list string := ["held"; "reserved"].

Record ReservationRequest := {
  rq_account_id : string;
  rq_instrument_id : string;
  rq_intent_id : string;
  rq_idempotency_key : string;
  rq_risk_amount : dec;
  rq_notional : dec;
  rq_ttl_seconds : Z;
  rq_now : Z;
  rq_margin_amount : dec;
  rq_position_key : option string }.

(** The constructor's normalisation ([__post_init__]). *)
Definition reservation_request (account_id : option string) (instrument_id intent_id key : string)
    (risk_amount notional : dec) (ttl_seconds : Z) (now : datetime) (margin_amount : dec)
    (position_key : option string) : result ReservationRequest :=
  a ← canonical_account_id account_id;
  Ok {| rq_account_id := a; rq_instrument_id := canonical_instrument_key instrument_id;
        rq_intent_id := intent_id; rq_idempotency_key := key; rq_risk_amount := risk_amount;
        rq_notional := notional; rq_ttl_seconds := ttl_seconds; rq_now := aware now;
        rq_margin_amount := margin_amount; rq_position_key := position_key |}.

Record ReservationResult := {
  rt_status : string;
  rt_reason : string;
  rt_reservation_id : option string;
  rt_account_id : string;
  rt_instrument_id : option string;
  rt_risk_amount : xdec;
  rt_notional : xdec;
  rt_expires_at : option Z;
  rt_remaining_budget : option dec }.

Definition row_result (row : reservation_row) (reason : string) (remaining : option dec)
  : ReservationResult := {|
  rt_status := rv_status row; rt_reason := reason; rt_reservation_id := Some (rv_id row);
  rt_account_id := rv_account_id row; rt_instrument_id := Some (rv_venue_symbol row);
  rt_risk_amount := rv_risk_amount row; rt_notional := rv_notional row;
  rt_expires_at := rv_expires_at row; rt_remaining_budget := remaining |}.

(** The row with another status; [released] is the [released_at] to write. *)
Definition with_status (status : string) (released : option Z) (now : Z) (r : reservation_row)
  : reservation_row := {|
  rv_id := rv_id r; rv_execution_job_id := rv_execution_job_id r;
  rv_account_id := rv_account_id r; rv_position_key := rv_position_key r;
  rv_venue_symbol := rv_venue_symbol r; rv_idempotency_key := rv_idempotency_key r;
  rv_status := status; rv_notional := rv_notional r; rv_risk_amount := rv_risk_amount r;
  rv_margin_amount := rv_margin_amount r; rv_expires_at := rv_expires_at r;
  rv_released_at := coalesce released (rv_released_at r); rv_payload := rv_payload r;
  rv_created_at := rv_created_at r; rv_updated_at := now |}.

Definition is_active (r : reservation_row) : bool := str_in (rv_status r) ACTIVE_STATUSES.

Definition has_expired (now : Z) (r : reservation_row) : bool :=
  match rv_expires_at r with Some t => t <=? now | None => false end.

Definition of_account (a : string) (r : reservation_row) : bool := String.eqb (rv_account_id r) a.

Definition expire_where (p : reservation_row -> bool) (now : Z) : M Conn unit :=
  clk ← get_now;
  execute (set_risk_reservations (map (fun r =>
    if p r && is_active r && has_expired now r then with_status "expired" None clk r else r))).

(** [_expire_account_reservations] *)
Definition expire_account_reservations (account_id : string) (now : Z) : M Conn unit :=
  expire_where (of_account account_id) now.

Definition existing_by_idempotency (account_id key : string) : M Conn (option reservation_row) :=
  select (fun d => List.find (fun r =>
    of_account account_id r && String.eqb (rv_idempotency_key r) key) (risk_reservations d)).

(** The rows whose risk counts against the account at a time. *)
Definition counted (account_id : string) (now : Z) (r : reservation_row) : bool :=
  of_account account_id r && is_active r && negb (has_expired now r).

(** [_active_risk_amount]; [None] is a NaN sum. *)
Definition active_risk (account_id : string) (now : Z) (rows : list reservation_row) : option dec :=
  fold_left (fun acc r => match acc, column (rv_risk_amount r) with
                          | Some a, Some x => Some (dadd a x)
                          | _, _ => None
                          end) (List.filter (counted account_id now) rows) (Some dzero).

Definition refusal (request : ReservationRequest) (status reason : string) (remaining : dec)
  : ReservationResult := {|
  rt_status := status; rt_reason := reason; rt_reservation_id := None;
  rt_account_id := rq_account_id request; rt_instrument_id := Some (rq_instrument_id request);
  rt_risk_amount := XFin (rq_risk_amount request); rt_notional := XFin (rq_notional request);
  rt_expires_at := None; rt_remaining_budget := Some remaining |}.

Definition new_reservation (request : ReservationRequest) (id : string) (clk : Z) : reservation_row := {|
  rv_id := id; rv_execution_job_id := None; rv_account_id := rq_account_id request;
  rv_position_key := rq_position_key request; rv_venue_symbol := rq_instrument_id request;
  rv_idempotency_key := rq_idempotency_key request; rv_status := "held";
  rv_notional := pg_numeric (XFin (rq_notional request));
  rv_risk_amount := pg_numeric (XFin (rq_risk_amount request));
  rv_margin_amount := pg_numeric (XFin (rq_margin_amount request));
  rv_expires_at := Some (rq_now request + seconds (rq_ttl_seconds request));
  rv_released_at := None;
  rv_payload := [("intent_id", PStr (rq_intent_id request));
                 ("instrument_id", PStr (rq_instrument_id request))];
  rv_created_at := clk; rv_updated_at := clk |}.

Definition nonneg_amounts (r : reservation_row) : bool :=
  pg_leb (XFin dzero) (rv_notional r) && pg_leb (XFin dzero) (rv_risk_amount r)
  && pg_leb (XFin dzero) (rv_margin_amount r).

(** The advisory lock and the FOR UPDATE row lock serialise the callers of one
    account; a connection here runs its transaction alone. *)
Definition reserve_risk (request : ReservationRequest) (config : RiskConfig) : M Conn ReservationResult :=
  transaction (
    let account := rq_account_id request in
    _ ← expire_account_reservations account (rq_now request);
    existing ← existing_by_idempotency account (rq_idempotency_key request);
    match existing with
    | Some row => mret (row_result row "idempotent reservation" None)
    | None =>
        budget ← load_account_budget (Some account) (Some (utc (rq_now request))) default_freshness;
        can ← mlift (can_take_new_risk budget);
        if negb can
        then mret (refusal request "needs_review" "account budget stale or unavailable" dzero)
        else
          rows ← select risk_reservations;
          active ← mlift (ordered (active_risk account (rq_now request) rows));
          let max_budget := dmul (bu_equity budget) (max_total_open_risk_pct config) in
          let remaining := dmax (dsub max_budget active) dzero in
          if dltb remaining (rq_risk_amount request)
          then mret (refusal request "rejected" "risk reservation budget exceeded" remaining)
          else
            id ← uuid4;
            clk ← get_now;
            let row := new_reservation request id clk in
            _ ← check (nonneg_amounts row) "ck_risk_reservations";
            _ ← execute (set_risk_reservations (fun t => (t ++ [row])%list));
            mret (row_result row "risk reserved" (Some (dsub remaining (rq_risk_amount request))))
    end).

Definition set_status (id status : string) (now : option datetime) : M Conn ReservationResult :=
  clk ← get_now;
  let released := if String.eqb status "released" then Some (from_option aware clk now) else None in
  transaction (
    row ← select (fun d => List.find (fun r => String.eqb (rv_id r) id) (risk_reservations d));
    _ ← execute (set_risk_reservations (map (fun r =>
          if String.eqb (rv_id r) id then with_status status released clk r else r)));
    mret (match row with
          | Some r => row_result (with_status status released clk r) ("reservation " +:+ status) None
          | None => {| rt_status := status; rt_reason := "reservation not found"; rt_reservation_id := None;
                       rt_account_id := ""; rt_instrument_id := None; rt_risk_amount := XFin dzero;
                       rt_notional := XFin dzero; rt_expires_at := None; rt_remaining_budget := None |}
          end)).

Definition release_reservation (id : string) (now : option datetime) := set_status id "released" now.
Definition consume_reservation (id : string) (now : option datetime) := set_status id "consumed" now.

(** The number of rows expired. *)
Definition expire_reservations (now : option datetime) : M Conn Z :=
  clk ← get_now;
  let now := from_option aware clk now in
  transaction (
    rows ← select risk_reservations;
    _ ← expire_where (fun _ => true) now;
    mret (Z.of_nat (length (List.filter (fun r => is_active r && has_expired now r) rows)))).

Definition earlier_reservation (a b : reservation_row) : bool :=
  (rv_created_at a <? rv_created_at b)
  || ((rv_created_at a =? rv_created_at b) && String.leb (rv_id a) (rv_id b)).

Fixpoint insert_reservation (r : reservation_row) (l : list reservation_row) : list reservation_row :=
  match l with
  | [] => [r]
  | x :: l' => if earlier_reservation r x then r :: l else x :: insert_reservation r l'
  end.

Definition load_active_reservations (account_id : option string) (now : option datetime)
  : M Conn (list ReservationResult) :=
  _ ← expire_reservations now;
  account ← match account_id with
            | Some a => a ← mlift (canonical_account_id (Some a)); mret (Some a)
            | None => mret None
            end;
  rows ← select (fun d => foldr insert_reservation [] (List.filter (fun r =>
           is_active r && match account with Some a => of_account a r | None => true end)
           (risk_reservations d)));
  mret (map (fun r => row_result r "active reservation" None) rows).

(** ** Loss limits *)

Record LossLimitState := {
  ll_account_id : string;
  ll_mode : string;
  ll_day_key : string;
  ll_day_start_equity : dec;
  ll_peak_equity : dec;
  ll_breached_at : option Z;
  ll_cooldown_until : option Z }.

(** The constructor upper-cases the mode. *)
Definition loss_limit_state (account_id mode day_key : string) (day_start peak : dec)
    (breached_at cooldown_until : option Z) : LossLimitState := {|
  ll_account_id := account_id; ll_mode := upper mode; ll_day_key := day_key;
  ll_day_start_equity := day_start; ll_peak_equity := peak; ll_breached_at := breached_at;
  ll_cooldown_until := cooldown_until |}.

Record LossLimitDecision := {
  ld_mode : string;
  ld_reason : string;
  ld_daily_loss : dec;
  ld_drawdown_pct : dec;
  ld_requires_confirmation : bool;
  ld_state : LossLimitState }.

(** [_day_key(now, tz)] with the zone's offset in microseconds. *)
Definition day_key (now tz : Z) : string := date_iso (now + tz).

Definition cooldown_until (now : Z) (config : RiskConfig) : option Z :=
  if loss_cooldown_seconds config <=? 0 then None
  else Some (now + seconds (loss_cooldown_seconds config)).

(** The first evaluation of a day restarts the day's equity. *)
Definition roll_day (state : LossLimitState) (current_equity : dec) (key : string) : LossLimitState :=
  if String.eqb (ll_day_key state) key then state
  else loss_limit_state (ll_account_id state) (ll_mode state) key current_equity
         (dmax current_equity (ll_peak_equity state)) (ll_breached_at state) (ll_cooldown_until state).

Definition evaluate_loss_limits (state : LossLimitState) (current_equity : dec) (now : Z)
    (config : RiskConfig) (tz : Z) : result LossLimitDecision :=
  let state := roll_day state current_equity (day_key now tz) in
  let peak := dmax (ll_peak_equity state) current_equity in
  let daily_loss := dmax (dsub (ll_day_start_equity state) current_equity) dzero in
  drawdown_pct ← (if dltb dzero peak then ddiv (dsub peak current_equity) peak else Ok dzero);
  let moved mode breached cooldown :=
    loss_limit_state (ll_account_id state) mode (ll_day_key state) (ll_day_start_equity state) peak
      breached cooldown in
  let breached mode := moved mode (coalesce (ll_breached_at state) (Some now)) (cooldown_until now config) in
  let decision mode reason confirm st := {|
    ld_mode := mode; ld_reason := reason; ld_daily_loss := daily_loss;
    ld_drawdown_pct := drawdown_pct; ld_requires_confirmation := confirm; ld_state := st |} in
  if dltb dzero (max_drawdown_pct config) && dleb (max_drawdown_pct config) drawdown_pct
  then Ok (decision "HALT" "max drawdown breached" false (breached "HALT"))
  else if dltb dzero (daily_loss_limit config) && dleb (daily_loss_limit config) daily_loss
  then Ok (decision "REDUCING" "daily loss limit breached" false (breached "REDUCING"))
  else
    let limited := str_in (ll_mode state) ["REDUCING"; "HALT"; "HALTED"] in
    let requires := limited
      && match ll_cooldown_until state with Some t => t <=? now | None => false end in
    let mode := if limited then ll_mode state else "ACTIVE" in
    Ok (decision mode (if requires then "cooldown ended; explicit confirm required" else "within loss limits")
          requires (moved mode (ll_breached_at state) (ll_cooldown_until state))).

Definition confirm_loss_limit_reset (state : LossLimitState) (current_equity : dec) (now tz : Z)
  : LossLimitState :=
  loss_limit_state (ll_account_id state) "ACTIVE" (day_key now tz) current_equity current_equity None None.

(** ** Lemmas *)

(** The table's CHECK constraints. *)
Definition checked_rows (rows : list reservation_row) : Prop :=
  Forall (fun r => nonneg_amounts r = true) rows.

Definition add_risk (acc : option dec) (r : reservation_row) : option dec :=
  match acc, column (rv_risk_amount r) with
  | Some a, Some x => Some (dadd a x)
  | _, _ => None
  end.

Lemma active_risk_snoc a now rows r :
  active_risk a now (rows ++ [r])%list =
  if counted a now r then add_risk (active_risk a now rows) r else active_risk a now rows.
Proof.
  unfold active_risk. rewrite List.filter_app. simpl. destruct (counted a now r); simpl.
  - by rewrite fold_left_app.
  - by rewrite app_nil_r.
Qed.

Lemma active_risk_nonneg a now rows d :
  checked_rows rows -> active_risk a now rows = Some d -> (0 <= dval d)%Q.
Proof.
  intros C. revert d. induction rows as [|r rows IH] using rev_ind; intros d H.
  { injection H as <-. by compute. }
  rewrite active_risk_snoc in H. apply Forall_app in C as [C Cr].
  apply Forall_cons in Cr as [Cr _]. destruct (counted a now r); [|by apply IH].
  unfold add_risk in H. destruct (active_risk a now rows) as [x|]; [|done].
  destruct (column (rv_risk_amount r)) as [y|] eqn:Y; [|done]. injection H as <-.
  apply dadd_nonneg; [by apply IH|]. unfold nonneg_amounts in Cr. apply andb_true_iff in Cr as [Cr _].
  apply andb_true_iff in Cr as [_ Cr]. destruct (rv_risk_amount r) as [z| |]; [|done..].
  injection Y as ->. rewrite pg_leb_fin in Cr. by apply dleb_le in Cr.
Qed.

Lemma expire_map_frame p now s u s' :
  expire_where p now s = (Ok u, s') ->
  risk_reservations (current s') = map (fun r =>
    if p r && is_active r && has_expired now r then with_status "expired" None (clock s) r else r)
    (risk_reservations (current s))
  /\ accounts_projection (current s') = accounts_projection (current s) /\ clock s' = clock s.
Proof. unfold expire_where. intros H. run_inv. by run_frame. Qed.

Lemma checked_expired (p : reservation_row -> bool) now clk rows :
  checked_rows rows ->
  checked_rows (map (fun r => if p r && is_active r && has_expired now r
                              then with_status "expired" None clk r else r) rows).
Proof.
  intros C. apply Forall_map. eapply Forall_impl; [exact C|]. intros r Hr. simpl.
  by destruct (p r && is_active r && has_expired now r).
Qed.

Lemma load_budget_frame a now f s b s' : load_account_budget a now f s = (Ok b, s') -> s' = s.
Proof. unfold load_account_budget. intros H. run_inv. destruct (_ !! _); by run_inv. Qed.

(** The arithmetic of one reservation: the remaining budget covers it. *)
Lemma budget_covers (m a risk : dec) :
  (0 <= dval a)%Q -> (0 < dval risk)%Q -> dltb (dmax (dsub m a) dzero) risk = false ->
  (dval a + dval risk <= (1 + eps) * dval m)%Q.
Proof.
  intros Ha Hr H. apply dltb_ge in H.
  assert (Hd : (dval (dmax (dsub m a) dzero) <= dval (dsub m a))%Q).
  { unfold dmax. destruct (dltb (dsub m a) dzero) eqn:E; [|lra]. exfalso.
    unfold dmax in H. rewrite E in H. change (dval dzero) with 0%Q in H. lra. }
  assert (Hs : (0 <= dval m - dval a)%Q) by (apply (approx_sign _ _ (dsub_approx m a)); lra).
  pose proof (approx_le _ _ (dsub_approx m a) Hs) as L. pose proof eps_nonneg.
  assert (0 <= eps * dval a)%Q by (apply Qmult_le_0_compat; lra). lra.
Qed.

Lemma load_budget_accounts a now f s t :
  accounts_projection (current t) = accounts_projection (current s) ->
  fst (load_account_budget a (Some now) f t) = fst (load_account_budget a (Some now) f s).
Proof.
  intros E. unfold load_account_budget, mbind, M_bind, get_now, mlift, select. cbn.
  destruct (canonical_account_id a); [|done]. rewrite E. by destruct (_ !! _).
Qed.

(** The account's rows after the expiry every reservation starts with. *)
Definition swept (req : ReservationRequest) (clk : Z) (rows : list reservation_row) : list reservation_row :=
  map (fun x => if of_account (rq_account_id req) x && is_active x && has_expired (rq_now req) x
                then with_status "expired" None clk x else x) rows.

Definition same_key (req : ReservationRequest) (x : reservation_row) : bool :=
  of_account (rq_account_id req) x && String.eqb (rv_idempotency_key x) (rq_idempotency_key req).

(** What a fresh reservation did. *)
Lemma reserve_risk_fresh req cfg s r s' :
  reserve_risk req cfg s = (Ok r, s') -> rt_reason r = "risk reserved" ->
  let rows := swept req (clock s) (risk_reservations (current s)) in
  exists budget active id clk,
    fst (load_account_budget (Some (rq_account_id req)) (Some (utc (rq_now req))) default_freshness s) = Ok budget
    /\ active_risk (rq_account_id req) (rq_now req) rows = Some active
    /\ dltb (dmax (dsub (dmul (bu_equity budget) (max_total_open_risk_pct cfg)) active) dzero)
            (rq_risk_amount req) = false
    /\ risk_reservations (current s') = (rows ++ [new_reservation req id clk])%list
    /\ nonneg_amounts (new_reservation req id clk) = true
    /\ rt_reservation_id r = Some id
    /\ List.find (same_key req) rows = None.
Proof.
  intros H R rows. unfold reserve_risk in H. apply transaction_inv_ok in H as (s1 & H & ->). cbn [commit current].
  run_inv. match goal with H : expire_account_reservations _ _ _ = _ |- _ =>
    apply expire_map_frame in H as (E1 & E2 & E3) end.
  match type of E1 with ?l = _ => change (l = rows) in E1 end.
  unfold existing_by_idempotency in *. run_inv. rewrite E1 in *.
  change (fun r0 => of_account (rq_account_id req) r0 && String.eqb (rv_idempotency_key r0) (rq_idempotency_key req))
    with (same_key req) in *.
  destruct (List.find (same_key req) rows) as [row|] eqn:F; [run_inv; discriminate R|].
  run_inv. match goal with H : load_account_budget _ _ _ ?t = (Ok ?b, ?t') |- _ =>
    pose proof (load_budget_frame _ _ _ _ _ _ H) as ->;
    pose proof (load_budget_accounts (Some (rq_account_id req)) (utc (rq_now req)) default_freshness s t E2) as L;
    rewrite H in L end.
  destruct (negb _); run_inv; [discriminate R|].
  destruct (dltb _ (rq_risk_amount req)) eqn:D; run_inv; [discriminate R|].
  rewrite E1 in *. match goal with H : ordered (active_risk _ _ _) = _ |- _ => rename H into O end.
  unfold ordered in O. destruct (active_risk _ _ rows) as [a|] eqn:A; [|discriminate O].
  apply ok_inj in O. subst a.
  eexists _, _, _, _. split; [symmetry; exact L|]. split; [reflexivity|]. split; [exact D|].
  run_frame. rewrite E1. split; [reflexivity|]. done.
Qed.

Lemma swept_checked req clk rows : checked_rows rows -> checked_rows (swept req clk rows).
Proof. apply checked_expired. Qed.

(** C23. The reserved risk of an account stays within its budget: whenever a
    new reservation of a positive risk is granted for a positive time, the
    account's open reservations, the new one included, sum to at most the
    equity times the configured fraction, up to the rounding of the context. *)
Theorem reservation_within_budget req cfg s r s' :
  reserve_risk req cfg s = (Ok r, s') -> rt_reason r = "risk reserved" ->
  checked_rows (risk_reservations (current s)) ->
  (0 < dval (rq_risk_amount req))%Q -> 0 < rq_ttl_seconds req ->
  exists budget total,
    fst (load_account_budget (Some (rq_account_id req)) (Some (utc (rq_now req))) default_freshness s) = Ok budget
    /\ active_risk (rq_account_id req) (rq_now req) (risk_reservations (current s')) = Some total
    /\ (dval total <= slack * dval (dmul (bu_equity budget) (max_total_open_risk_pct cfg)))%Q
    /\ checked_rows (risk_reservations (current s')).
Proof.
  intros H R C Hr Ht. apply reserve_risk_fresh in H as (b & a & id & clk & L & A & D & E & N & _ & _); [|done].
  apply (swept_checked req (clock s)) in C.
  assert (Ha : (0 <= dval a)%Q) by by eapply active_risk_nonneg.
  destruct (pg_numeric_fin (rq_risk_amount req)) as (x & X & Xv).
  assert (Xq : (dval x == dval (rq_risk_amount req))%Q) by exact Xv. clear Xv. rename Xq into Xv.
  exists b, (dadd a x). split; [done|]. rewrite E, active_risk_snoc.
  assert (K : counted (rq_account_id req) (rq_now req) (new_reservation req id clk) = true).
  { unfold counted, of_account, has_expired. cbn [new_reservation rv_account_id rv_expires_at].
    rewrite String.eqb_refl. cbn [is_active rv_status new_reservation]. apply negb_true_iff, Z.leb_gt.
    unfold seconds. lia. }
  rewrite K, A. unfold add_risk. cbn [new_reservation rv_risk_amount]. rewrite X. split; [done|]. split.
  - pose proof (budget_covers _ _ _ Ha Hr D) as B.
    assert (Hs : (0 <= dval a + dval x)%Q) by (rewrite Xv; lra).
    pose proof (approx_le _ _ (dadd_approx a x) Hs) as B2. rewrite Xv in B2, Hs.
    set (m := dval (dmul (bu_equity b) (max_total_open_risk_pct cfg))) in *.
    assert (Hm : (0 <= m)%Q).
    { apply Qnot_lt_le. intros N0. assert (0 < (1 + eps) * - m)%Q
        by (apply Qmult_lt_0_compat; [by compute | lra]). lra. }
    apply (within_slack 2); [done | lia|]. unfold within. simpl.
    eapply Qle_trans; [exact B2|].
    assert ((1 + eps) * (dval a + dval (rq_risk_amount req)) <= (1 + eps) * ((1 + eps) * m))%Q
      by (apply Qmult_le_l; [by compute | done]). lra.
  - apply Forall_app. split; [done | by repeat constructor].
Qed.

Definition sample_account : account_row := {|
  ac_currency := "USDT"; ac_equity := XFin (Dec 10000 0); ac_margin := XFin (Dec 0 0);
  ac_available_balance := Some (XFin (Dec 9000 0)); ac_last_execution_event_at := Some 1000000;
  ac_projection_lag_ms := 0; ac_updated_from_event_id := "e"; ac_updated_at := 1000000;
  ac_payload := [] |}.

Definition sample_request (key : string) (risk : Z) : ReservationRequest := {|
  rq_account_id := "acct"; rq_instrument_id := "BTCUSDT"; rq_intent_id := "i";
  rq_idempotency_key := key; rq_risk_amount := Dec risk 0; rq_notional := Dec 5000 0;
  rq_ttl_seconds := 60; rq_now := 2000000; rq_margin_amount := dzero; rq_position_key := None |}.

Definition sample_reserved : Conn :=
  snd (reserve_risk (sample_request "k1" 600) default_risk_config
    (connect (set_accounts_projection (<["acct" := sample_account]>) empty_db) 2000000)).

Definition reserved (x : result ReservationResult * Conn) : string :=
  match x with (Ok r, _) => rt_reason r | _ => "" end.

Example sample_reservations :
  (reserved (reserve_risk (sample_request "k2" 400) default_risk_config sample_reserved),
   reserved (reserve_risk (sample_request "k2" 401) default_risk_config sample_reserved),
   reserved (reserve_risk (sample_request "k1" 600) default_risk_config sample_reserved))
  = ("risk reserved", "risk reservation budget exceeded", "idempotent reservation").
Proof. vm_compute. reflexivity. Qed.

Lemma reservation_within_budget_witness :
  exists budget total s', reserve_risk (sample_request "k2" 400) default_risk_config sample_reserved
      = (Ok (row_result (new_reservation (sample_request "k2" 400) "uuid-1" 2000000) "risk reserved"
               (Some (Dec 0 (-2)))), s')
    /\ active_risk "acct" 2000000 (risk_reservations (current s')) = Some total
    /\ (dval total <= slack * dval (dmul (bu_equity budget) (Dec 10 (-2))))%Q.
Proof.
  destruct (reserve_risk (sample_request "k2" 400) default_risk_config sample_reserved) as [[r|e] s'] eqn:E;
    [|vm_compute in E; discriminate E].
  assert (R : r = row_result (new_reservation (sample_request "k2" 400) "uuid-1" 2000000) "risk reserved"
                    (Some (Dec 0 (-2)))) by (vm_compute in E; injection E as <- _; vm_compute; reflexivity).
  destruct (reservation_within_budget _ _ _ _ _ E) as (b & t & _ & A & B & _).
  - rewrite R. reflexivity.
  - vm_compute. repeat constructor.
  - by compute.
  - reflexivity.
  - exists b, t, s'. rewrite R. auto.
Defined.

Lemma find_snoc {A} (p : A -> bool) l x :
  List.find p l = None -> p x = true -> List.find p (l ++ [x])%list = Some x.
Proof.
  intros H Hx. induction l as [|y l IH]; simpl in *; [by rewrite Hx|].
  destruct (p y); [done | auto].
Qed.

Lemma find_map_keep {A} (p : A -> bool) (f : A -> A) l x :
  (forall y, p (f y) = p y) -> List.find p l = Some x -> List.find p (map f l) = Some (f x).
Proof.
  intros H. induction l as [|y l IH]; simpl; [done|]. rewrite H. destruct (p y); [by intros; simplify_eq | done].
Qed.

(** Reserving again under the same idempotency key, at any time and for
    any amount, returns the reservation already made and adds none. *)
Theorem reservation_idempotent req req' cfg s r s' :
  reserve_risk req cfg s = (Ok r, s') -> rt_reason r = "risk reserved" ->
  rq_account_id req' = rq_account_id req -> rq_idempotency_key req' = rq_idempotency_key req ->
  exists r' s'', reserve_risk req' cfg s' = (Ok r', s'')
    /\ rt_reason r' = "idempotent reservation"
    /\ rt_reservation_id r' = rt_reservation_id r
    /\ length (risk_reservations (current s'')) = length (risk_reservations (current s')).
Proof.
  intros H R Ka Kk. apply reserve_risk_fresh in H as (b & a & id & clk & _ & _ & _ & E & _ & I & F); [|done].
  set (row := new_reservation req id clk) in *.
  assert (G : List.find (same_key req') (risk_reservations (current s')) = Some row).
  { unfold same_key. rewrite Ka, Kk. fold (same_key req). rewrite E.
    apply find_snoc; [done|]. unfold same_key, of_account. cbn. by rewrite !String.eqb_refl. }
  apply (find_map_keep _ (fun x => if of_account (rq_account_id req') x && is_active x && has_expired (rq_now req') x
           then with_status "expired" None (clock s') x else x)) in G;
    [|intros y; by destruct (of_account (rq_account_id req') y && is_active y && has_expired (rq_now req') y)].
  unfold reserve_risk, transaction, expire_account_reservations, expire_where, existing_by_idempotency,
    mbind, M_bind, get_now, execute, select. cbn [current set_risk_reservations risk_reservations].
  unfold same_key in G. rewrite G. do 2 eexists. split; [reflexivity|]. rewrite I.
  split; [done|]. split; [cbn; by destruct (_ && _ && _)|]. cbn. by rewrite length_map.
Qed.

Lemma reservation_idempotent_witness :
  exists r' s'', reserve_risk (sample_request "k1" 5) default_risk_config sample_reserved = (Ok r', s'')
    /\ rt_reason r' = "idempotent reservation"
    /\ length (risk_reservations (current s'')) = 1%nat.
Proof.
  set (s0 := connect (set_accounts_projection (<["acct" := sample_account]>) empty_db) 2000000).
  destruct (reserve_risk (sample_request "k1" 600) default_risk_config s0) as [[r|e] s1] eqn:E;
    [|vm_compute in E; discriminate E].
  assert (S1 : s1 = sample_reserved) by (unfold sample_reserved; fold s0; by rewrite E).
  destruct (reservation_idempotent _ (sample_request "k1" 5) default_risk_config _ _ _ E) as (r' & s'' & E' & R' & _ & N).
  - vm_compute in E. injection E as <- _. reflexivity.
  - reflexivity.
  - reflexivity.
  - exists r', s''. rewrite <- S1. split; [exact E'|]. split; [exact R'|]. rewrite N, S1. vm_compute. reflexivity.
Defined.

(** ** Loss limits *)

Definition limited_mode (m : string) : Prop := m ∈ ["REDUCING"; "HALT"; "HALTED"].

(** A run of evaluations at given equities and times. *)
Fixpoint evaluate_all (state : LossLimitState) (obs : list (dec * Z)) (config : RiskConfig) (tz : Z)
  : result LossLimitState :=
  match obs with
  | [] => Ok state
  | (equity, now) :: obs =>
      d ← evaluate_loss_limits state equity now config tz;
      evaluate_all (ld_state d) obs config tz
  end.

Lemma upper_limited m : limited_mode m -> limited_mode (upper m).
Proof. unfold limited_mode. intros H. by elim_in H; apply str_in_spec. Qed.

Lemma roll_day_spec state equity key :
  (dval (ll_peak_equity state) <= dval (ll_peak_equity (roll_day state equity key)))%Q
  /\ (limited_mode (ll_mode state) -> limited_mode (ll_mode (roll_day state equity key))).
Proof.
  unfold roll_day. destruct (String.eqb _ _); [split; [lra | done]|]. cbn.
  destruct (dmax_ub equity (ll_peak_equity state)). split; [done | apply upper_limited].
Qed.

Lemma evaluate_spec state equity now config tz d :
  evaluate_loss_limits state equity now config tz = Ok d ->
  (limited_mode (ll_mode state) -> limited_mode (ll_mode (ld_state d)))
  /\ (dval (ll_peak_equity state) <= dval (ll_peak_equity (ld_state d)))%Q
  /\ (dval equity <= dval (ll_peak_equity (ld_state d)))%Q
  /\ ((0 < dval (daily_loss_limit config))%Q ->
      (dval (daily_loss_limit config) <= dval (ld_daily_loss d))%Q -> limited_mode (ll_mode (ld_state d))).
Proof.
  unfold evaluate_loss_limits. intros H. run_inv.
  destruct (roll_day_spec state equity (day_key now tz)) as [P L].
  set (st := roll_day state equity (day_key now tz)) in *.
  destruct (dmax_ub (ll_peak_equity st) equity) as [Q1 Q2].
  destruct (dltb dzero (max_drawdown_pct config) && _) eqn:D1.
  { apply ok_inj in H. subst d. cbn. split_and!; [intros; by apply str_in_spec | lra | lra |].
    intros. by apply str_in_spec. }
  destruct (dltb dzero (daily_loss_limit config) && _) eqn:D2.
  { apply ok_inj in H. subst d. cbn. split_and!; [intros; by apply str_in_spec | lra | lra |].
    intros. by apply str_in_spec. }
  apply ok_inj in H. subst d. cbn. split_and!; [| lra | lra |].
  - intros Hl. apply L in Hl. unfold limited_mode in Hl. rewrite <- str_in_spec in Hl. rewrite Hl.
    by apply upper_limited, str_in_spec.
  - intros H1 H2. exfalso. apply andb_false_iff in D2 as [D2|D2].
    + apply dltb_ge in D2. change (dval dzero) with 0%Q in D2. lra.
    + apply dleb_gt in D2. lra.
Qed.

(** The loss limit is sticky: however equity recovers and whatever days
    pass, a state in a limited mode stays in a limited mode through every
    evaluation (only [confirm_loss_limit_reset] leaves it), and the recorded
    peak equity never decreases. *)
Theorem loss_limit_sticky state obs config tz state' :
  evaluate_all state obs config tz = Ok state' ->
  (limited_mode (ll_mode state) -> limited_mode (ll_mode state'))
  /\ (dval (ll_peak_equity state) <= dval (ll_peak_equity state'))%Q.
Proof.
  revert state. induction obs as [|[e t] obs IH]; intros state H; cbn [evaluate_all] in H.
  { apply ok_inj in H. subst. split; [done | lra]. }
  run_inv. apply evaluate_spec in Hr as (L & P & _). apply IH in H as [L' P']. split; [auto | lra].
Qed.

Definition sample_limits : RiskConfig := {|
  risk_per_trade_pct := Dec 15 (-3); max_total_open_risk_pct := Dec 10 (-2);
  max_notional_per_order := Dec 50000 0; max_leverage := Dec 10 0;
  max_instrument_exposure := Dec 100000 0; max_correlated_exposure := Dec 150000 0;
  min_free_margin := Dec 0 0; reserve_balance := Dec 0 0; daily_loss_limit := Dec 500 0;
  max_drawdown_pct := Dec 20 (-2); loss_cooldown_seconds := 3600 |}.

Definition sample_loss_state : LossLimitState :=
  loss_limit_state "acct" "active" "1970-01-01" (Dec 10000 0) (Dec 10000 0) None None.

Definition after_losses : result LossLimitState :=
  evaluate_all sample_loss_state [(Dec 9400 0, 1); (Dec 9990 0, 86400000001)] sample_limits 0.

Lemma loss_limit_sticky_witness :
  exists st, evaluate_all sample_loss_state [(Dec 9400 0, 1)] sample_limits 0 = Ok st
    /\ (exists st', evaluate_all st [(Dec 9990 0, 86400000001)] sample_limits 0 = Ok st'
         /\ limited_mode (ll_mode st')).
Proof.
  destruct (evaluate_all sample_loss_state [(Dec 9400 0, 1)] sample_limits 0) as [st|] eqn:E;
    [|vm_compute in E; discriminate E].
  vm_compute in E. injection E as <-. eexists. split; [reflexivity|].
  match goal with |- exists st', ?c = Ok st' /\ _ => destruct c as [st'|] eqn:E' end;
    [|vm_compute in E'; discriminate E'].
  exists st'. split; [reflexivity|]. apply (loss_limit_sticky _ _ _ _ _ E'). by apply str_in_spec.
Defined.

(** A loss at the configured daily limit always leaves ACTIVE: the
    evaluation that computes it puts the state in a limited mode, and only
    an explicit confirmation makes it ACTIVE again, from the equity of the
    moment and with no breach recorded. *)
Theorem daily_loss_limits state equity now config tz d :
  evaluate_loss_limits state equity now config tz = Ok d ->
  (0 < dval (daily_loss_limit config))%Q ->
  (dval (daily_loss_limit config) <= dval (ld_daily_loss d))%Q ->
  limited_mode (ll_mode (ld_state d))
  /\ ll_mode (confirm_loss_limit_reset (ld_state d) equity now tz) = "ACTIVE"
  /\ ll_breached_at (confirm_loss_limit_reset (ld_state d) equity now tz) = None.
Proof.
  intros H H1 H2. apply evaluate_spec in H as (_ & _ & _ & H). split; [by apply H | done].
Qed.

Lemma daily_loss_limits_witness :
  exists d, evaluate_loss_limits sample_loss_state (Dec 9400 0) 1 sample_limits 0 = Ok d
    /\ limited_mode (ll_mode (ld_state d)).
Proof.
  destruct (evaluate_loss_limits sample_loss_state (Dec 9400 0) 1 sample_limits 0) as [d|] eqn:E;
    [|vm_compute in E; discriminate E].
  exists d. split; [reflexivity|]. apply (daily_loss_limits _ _ _ _ _ _ E); [by compute|].
  vm_compute in E. injection E as <-. by compute.
Defined.

(** A halted account whose drawdown recovers while the daily loss stands is
    moved back to REDUCING, without a confirmation. *)
Lemma halt_downgraded :
  exists st, evaluate_all sample_loss_state [(Dec 7900 0, 1); (Dec 9000 0, 2)] sample_limits 0 = Ok st
    /\ ll_mode st = "REDUCING".
Proof. eexists. split; [vm_compute; reflexivity | reflexivity]. Qed.
