(* ===== verification/Allocation.v ===== *)
(** * Allocation: sharing a remaining quantity among take-profit orders

    The loop that shrinks the take-profit orders of a position to what is left
    of it, which the control plane runs over its projection
    (order_management/exits.py, [_recompute_active_protection_quantities]) and
    the node over its plans (nautilus-node/strategy/take_profit.py,
    [recompute_remaining_quantities]); and its specification.  Sums are exact
    while the quantities lie on a grid of 28 digits. *)

From Stdlib Require Import ZArith Lia QArith Qabs Qpower Qminmax Lqa.
From S2P Require Import Prelude Decimal DecText.
Open Scope Z_scope.

(** One round: what the order keeps, and the total allocated after it. *)
Definition allocate_one (remaining allocated quantity : xdec) : result (xdec * xdec) :=
  left ← xsub remaining allocated;
  available ← xmax (XFin dzero) left;
  adjusted ← xmin quantity available;
  allocated ← xadd allocated adjusted;
  Ok (adjusted, allocated).

Fixpoint allocate (remaining allocated : xdec) (quantities : list xdec) : result (list xdec) :=
  match quantities with
  | [] => Ok []
  | quantity :: quantities =>
      step ← allocate_one remaining allocated quantity;
      rest ← allocate remaining (snd step) quantities;
      Ok (fst step :: rest)
  end.

Record RecomputedProtectionQuantities := {
  rq_stop_quantity : xdec; rq_take_profit_quantities : list xdec }.

(** [recompute_remaining_quantities] *)
Definition recompute_remaining_quantities (position_quantity stop_quantity : xdec)
    (take_profit_quantities : list xdec) : result RecomputedProtectionQuantities :=
  remaining ← xmax (XFin dzero) position_quantity;
  stop ← xmin stop_quantity remaining;
  adjusted ← allocate remaining (XFin dzero) take_profit_quantities;
  Ok {| rq_stop_quantity := stop; rq_take_profit_quantities := adjusted |}.

(** ** Exact arithmetic on a grid

    A decimal on the grid [k] is a multiple of [10 ^ -k] below
    [10 ^ (28 - k)]: sums and differences that stay below the bound are not
    rounded. *)
Definition grid (k : Z) (d : dec) : Prop :=
  - k <= dexp d /\ (Qabs (dval d) < pow10 (28 - k))%Q.

Lemma grid_fits k c e : grid k (Dec c e) -> fits (Dec c e).
Proof.
  intros [E B]. unfold fits. simpl in *. apply ndigits_le; [|done].
  pose proof (abs_exact (Dec c e)) as X. rewrite <- X in B. unfold dval in B. cbn [coef dexp] in B.
  assert (H : (pow10 (28 - k) <= inject_Z (10 ^ 28) * pow10 e)%Q).
  { rewrite pow10_Z, <- pow10_add by done. unfold pow10. apply Qpower_le_compat_l; [lia | by compute]. }
  pose proof (Qlt_le_trans _ _ _ B H) as L. apply Qmult_lt_r in L; [|apply pow10_pos].
  by rewrite <- Zlt_Qlt in L.
Qed.

Lemma dadd_grid k a b :
  grid k a -> grid k b -> (Qabs (dval a + dval b) < pow10 (28 - k))%Q ->
  (dval (a + b)%dec == dval a + dval b)%Q /\ grid k (a + b)%dec.
Proof.
  intros [Ea _] [Eb _] B. pose proof (add_exact a b) as X. simpl in X.
  assert (G : grid k (Dec (shift_to (Z.min (dexp a) (dexp b)) a + shift_to (Z.min (dexp a) (dexp b)) b)
                          (Z.min (dexp a) (dexp b)))) by (split; [simpl; lia | by rewrite X]).
  unfold dadd. rewrite fix28_fits by eauto using grid_fits. done.
Qed.

Lemma dsub_grid k a b :
  grid k a -> grid k b -> (Qabs (dval a - dval b) < pow10 (28 - k))%Q ->
  (dval (a - b)%dec == dval a - dval b)%Q /\ grid k (a - b)%dec.
Proof.
  intros [Ea _] [Eb _] B. pose proof (sub_exact a b) as X. simpl in X.
  assert (G : grid k (Dec (shift_to (Z.min (dexp a) (dexp b)) a - shift_to (Z.min (dexp a) (dexp b)) b)
                          (Z.min (dexp a) (dexp b)))) by (split; [simpl; lia | by rewrite X]).
  unfold dsub. rewrite fix28_fits by eauto using grid_fits. done.
Qed.

Lemma grid_dmin k a b : grid k a -> grid k b -> grid k (dmin a b).
Proof. unfold dmin. by destruct (dltb b a). Qed.
Lemma grid_dmax k a b : grid k a -> grid k b -> grid k (dmax a b).
Proof. unfold dmax. by destruct (dltb a b). Qed.
Lemma grid_zero k : 0 <= k <= 28 -> grid k dzero.
Proof.
  intros H. split; [simpl; lia|]. apply (Qlt_le_trans _ (pow10 0)); [by compute|].
  unfold pow10. apply Qpower_le_compat_l; [lia | by compute].
Qed.

(** ** The specification of the loop *)

Definition total (ds : list dec) : Q := foldr (fun d acc => dval d + acc)%Q 0%Q ds.

Lemma total_nonneg ds : Forall (fun d => 0 <= dval d)%Q ds -> (0 <= total ds)%Q.
Proof. induction 1; simpl; lra. Qed.

Lemma allocate_one_spec k R alloc q :
  grid k R -> grid k alloc -> grid k q -> 0 <= k <= 28 ->
  (0 <= dval alloc <= Qmax 0 (dval R))%Q -> (0 <= dval q)%Q ->
  exists a alloc',
    allocate_one (XFin R) (XFin alloc) (XFin q) = Ok (XFin a, XFin alloc')
    /\ (dval a == Qmin (dval q) (Qmax 0 (dval R) - dval alloc))%Q
    /\ (dval alloc' == dval alloc + dval a)%Q /\ grid k a /\ grid k alloc'.
Proof.
  intros GR GA GQ Hk [A1 A2] Q0.
  assert (RB := proj2 GR). assert (AB := proj2 GA). apply Qabs_Qlt_condition in RB, AB.
  assert (P := pow10_pos (28 - k)).
  destruct (dsub_grid k R alloc GR GA) as [SV SG].
  { apply Qabs_Qlt_condition. destruct (Q.max_spec 0 (dval R)) as [[? E]|[? E]]; rewrite E in A2; lra. }
  set (a := dmin q (dmax dzero (R - alloc)%dec)).
  assert (AV : (dval a == Qmin (dval q) (Qmax 0 (dval R) - dval alloc))%Q).
  { unfold a. rewrite dmin_val, dmax_val, SV. change (dval dzero) with (0 * pow10 0)%Q.
    rewrite Qmult_0_l. apply Q.min_compat; [reflexivity|].
    destruct (Q.max_spec 0 (dval R)) as [[? E]|[? E]]; rewrite E in *;
      destruct (Q.max_spec 0 (dval R - dval alloc)) as [[? F]|[? F]]; rewrite F; lra. }
  assert (AG : grid k a) by (unfold a; auto using grid_dmin, grid_dmax, grid_zero).
  destruct (dadd_grid k alloc a GA AG) as [TV TG].
  { rewrite AV. apply Qabs_Qlt_condition.
    destruct (Q.min_spec (dval q) (Qmax 0 (dval R) - dval alloc)) as [[? M]|[? M]]; rewrite M;
      destruct (Q.max_spec 0 (dval R)) as [[? E]|[? E]]; rewrite E in *; lra. }
  exists a, (alloc + a)%dec. split_and!; [|done..].
  unfold allocate_one. cbn [xsub mbind result_bind]. rewrite xmax_fin. cbn [mbind result_bind].
  rewrite xmin_fin. done.
Qed.

Lemma allocate_spec k R alloc qs :
  grid k R -> grid k alloc -> 0 <= k <= 28 -> (0 <= dval alloc <= Qmax 0 (dval R))%Q ->
  Forall (fun q => grid k q /\ (0 <= dval q)%Q) qs ->
  exists adjusted,
    allocate (XFin R) (XFin alloc) (XFin <$> qs) = Ok (XFin <$> adjusted)
    /\ Forall2 (fun a q => 0 <= dval a <= dval q)%Q adjusted qs
    /\ (total adjusted == Qmin (total qs) (Qmax 0 (dval R) - dval alloc))%Q.
Proof.
  intros GR GA Hk A H. revert alloc GA A. induction H as [|q qs [GQ Q0] H IH]; intros alloc GA [A1 A2].
  - exists []. split_and!; [done | constructor|]. simpl. symmetry. apply Q.min_l. lra.
  - destruct (allocate_one_spec k R alloc q) as (a & alloc' & S & AV & TV & AG & TG); [done..|].
    assert (AB : (0 <= dval a <= dval q)%Q /\ (dval alloc' <= Qmax 0 (dval R))%Q).
    { rewrite TV, AV. destruct (Q.min_spec (dval q) (Qmax 0 (dval R) - dval alloc)) as [[? M]|[? M]];
        rewrite M; lra. }
    destruct (IH alloc' TG ltac:(lra)) as (adjusted & E & F & T).
    exists (a :: adjusted). rewrite !fmap_cons. cbn [allocate total foldr]. rewrite S. cbn [mbind result_bind fst snd]. rewrite E.
    split_and!; [done|constructor; [apply AB | done]|].
    + fold (total adjusted) (total qs). assert (0 <= total qs)%Q by (apply total_nonneg; eapply Forall_impl; [exact H | by intros ? []]).
      rewrite T, TV, AV. clear -H0 A1 A2 Q0.
      destruct (Q.min_spec (dval q) (Qmax 0 (dval R) - dval alloc)) as [[? M]|[? M]]; rewrite M;
      match goal with |- context [Qmin (total qs) ?x] => destruct (Q.min_spec (total qs) x) as [[? N]|[? N]]; rewrite N end;
      match goal with |- context [Qmin (dval q + total qs) ?x] =>
        destruct (Q.min_spec (dval q + total qs) x) as [[? O]|[? O]]; rewrite O end; lra.
Qed.

(** When the quantities lie on a grid of 28 digits the take-profit orders
    keep, without rounding, as much as they asked for or as much as is left of
    the position: no order grows, none becomes negative, their total is the
    smaller of the total asked and the quantity left, and the stop keeps at
    most the quantity left. *)
Theorem recompute_allocates k position stop qs :
  0 <= k <= 28 -> grid k position -> Forall (fun q => grid k q /\ (0 <= dval q)%Q) qs ->
  exists stop' adjusted,
    recompute_remaining_quantities (XFin position) (XFin stop) (XFin <$> qs)
      = Ok {| rq_stop_quantity := XFin stop'; rq_take_profit_quantities := XFin <$> adjusted |}
    /\ (dval stop' == Qmin (dval stop) (Qmax 0 (dval position)))%Q
    /\ Forall2 (fun a q => 0 <= dval a <= dval q)%Q adjusted qs
    /\ (total adjusted == Qmin (total qs) (Qmax 0 (dval position)))%Q.
Proof.
  intros Hk G F. set (R := dmax dzero position).
  assert (RV : (dval R == Qmax 0 (dval position))%Q).
  { unfold R. rewrite dmax_val. change (dval dzero) with (0 * pow10 0)%Q. by rewrite Qmult_0_l. }
  assert (RP : (0 <= dval R)%Q) by (rewrite RV; apply Q.le_max_l).
  assert (M : (Qmax 0 (dval R) == dval R)%Q) by (by apply Q.max_r).
  destruct (allocate_spec k R dzero qs) as (adjusted & A & B & T); auto using grid_dmax, grid_zero.
  { by apply grid_dmax, G; apply grid_zero. }
  { rewrite M. split; [by compute | done]. }
  exists (dmin stop R), adjusted. split_and!; [| |done|].
  - unfold recompute_remaining_quantities. rewrite xmax_fin. cbn [mbind result_bind].
    fold R. rewrite xmin_fin. cbn [mbind result_bind]. by rewrite A.
  - by rewrite dmin_val, RV.
  - rewrite T, M, RV. change (dval dzero) with (0 * pow10 0)%Q.
    apply Q.min_compat; [reflexivity|]. ring.
Qed.

Lemma recompute_allocates_witness :
  exists stop' adjusted,
    recompute_remaining_quantities (XFin (Dec 5 (-1))) (XFin (Dec 1 0)) (XFin <$> [Dec 3 (-1); Dec 4 (-1)])
      = Ok {| rq_stop_quantity := XFin stop'; rq_take_profit_quantities := XFin <$> adjusted |}
    /\ (total adjusted == 1 # 2)%Q.
Proof.
  destruct (recompute_allocates 8 (Dec 5 (-1)) (Dec 1 0) [Dec 3 (-1); Dec 4 (-1)])
    as (st & ad & E & _ & _ & T); [done | by compute | by repeat constructor; compute |].
  exists st, ad. split; [exact E|]. by rewrite T.
Defined.
