(* ===== verification/External.v ===== *)
(** * External: parties outside the repository

    An exchange, a submitter or a reconciler is an object the services call
    and the repository does not define.  Its state is a type [X] of the model,
    its operations are stateful functions on [X], and a service runs on the
    pair of that state and the database connection.  The lifts below run an
    operation on one side of the pair and leave the other alone. *)

From Stdlib Require Import ZArith Lia.
From S2P Require Import Prelude Decimal Store PyValue DecText.
Open Scope string_scope.

Section lifts.
Context {X : Type}.

Definition on_external {A} (m : M X A) : M (X * Conn) A :=
  fun w => let '(r, x) := m (fst w) in (r, (x, snd w)).

Definition on_conn {A} (m : M Conn A) : M (X * Conn) A :=
  fun w => let '(r, s) := m (snd w) in (r, (fst w, s)).

(** [try: body except Exception as exc: handler(repr(exc))] *)
Definition try_except {S A} (body : M S A) (handler : exn -> M S A) : M S A :=
  fun w => match body w with
           | (Ok a, w') => (Ok a, w')
           | (Raise e, w') => handler e w'
           end.

Lemma on_external_inv {A} (m : M X A) w a w' :
  on_external m w = (Ok a, w') -> m (fst w) = (Ok a, fst w') /\ snd w' = snd w.
Proof. unfold on_external. destruct (m (fst w)) as [r x]. intros H. by simplify_eq. Qed.

Lemma on_conn_inv {A} (m : M Conn A) w a w' :
  on_conn m w = (Ok a, w') -> m (snd w) = (Ok a, snd w') /\ fst w' = fst w.
Proof. unfold on_conn. destruct (m (snd w)) as [r x]. intros H. by simplify_eq. Qed.

End lifts.

(** [repr(exc)] *)
Definition exn_repr (e : exn) : string :=
  match e with
  | ValueError m => "ValueError('" +:+ m +:+ "')"
  | KeyError k => "KeyError('" +:+ k +:+ "')"
  | TypeError m => "TypeError('" +:+ m +:+ "')"
  | InvalidOperation => "InvalidOperation([<class 'decimal.ConversionSyntax'>])"
  | DivisionByZero => "DivisionByZero([<class 'decimal.DivisionByZero'>])"
  | RuntimeError c m => c +:+ "('" +:+ m +:+ "')"
  end.

(** [Decimal(str(v))], which raises on text that is not a number. *)
Definition decimal_of (v : pyval) : result xdec :=
  match to_xdec v with Some x => Ok x | None => Raise InvalidOperation end.

(** Take a run over the pair apart. *)
Ltac world_inv :=
  repeat (run_inv; match goal with
  | H : on_external _ _ = (Ok _, _) |- _ => apply on_external_inv in H as [? ?]
  | H : on_conn _ _ = (Ok _, _) |- _ => apply on_conn_inv in H as [? ?]
  end); run_inv.

(** [with transaction(conn):] around a body that also calls an outside party:
    an exception rolls the database back, and nothing else. *)
Definition transaction_in {X A} (m : M (X * Conn) A) : M (X * Conn) A := fun w =>
  match m w with
  | (Ok a, w') => (Ok a, (fst w', commit (snd w')))
  | (Raise e, w') => (Raise e, (fst w', rollback (snd w')))
  end.

Lemma transaction_in_inv {X A} (m : M (X * Conn) A) w a w' :
  transaction_in m w = (Ok a, w') -> exists w1, m w = (Ok a, w1) /\ w' = (fst w1, commit (snd w1)).
Proof. unfold transaction_in. destruct (m w) as [[b|e] w1]; intros; simplify_eq. eauto. Qed.

(** A numeric that must be finite to be used. *)
Definition finite (x : xdec) : result dec :=
  match is_finite x with Some d => Ok d | None => Raise InvalidOperation end.

Lemma on_external_pair {X A} (m : M X A) x s a x' s' :
  on_external m (x, s) = (Ok a, (x', s')) -> m x = (Ok a, x') /\ s' = s.
Proof. intros H. by apply on_external_inv in H. Qed.

Lemma on_conn_pair {X A} (m : M Conn A) (x : X) s a x' s' :
  on_conn m (x, s) = (Ok a, (x', s')) -> m s = (Ok a, s') /\ x' = x.
Proof. intros H. by apply on_conn_inv in H. Qed.

(** As [world_inv], on worlds taken apart into their two components. *)
Ltac world_run :=
  repeat (run_inv; match goal with
  | w : (_ * Conn)%type |- _ => destruct w as [? ?]; cbn [fst snd] in *
  | H : on_external _ (_, _) = (Ok _, (_, _)) |- _ => apply on_external_pair in H as [H ->]
  | H : on_conn _ (_, _) = (Ok _, (_, _)) |- _ => apply on_conn_pair in H as [H ->]
  | H : transaction _ _ = (Ok _, _) |- _ => apply transaction_inv_ok in H as (? & H & ->)
  | H : transaction_in _ _ = (Ok _, _) |- _ =>
      apply transaction_in_inv in H as ([? ?] & H & ?); cbn [fst snd] in *
  | u : () |- _ => destruct u
  end); run_inv.
