(* ===== verification/Exits.v ===== *)
(** * Exits: closing positions

    Models order_management/exits.py.  The exchange is a parameter; the
    positions and protective orders are the tables of [Store]. *)

From Stdlib Require Import ZArith Lia QArith Qminmax Lqa.
From S2P Require Import Prelude Decimal PyString DecText PyValue Store PositionReducer Allocation External.
Open Scope string_scope.
Open Scope Z_scope.

Record ExitExchange (X : Type) := {
  actual_position_quantity : string -> string -> M X pyval;
  submit_reduce_only_market : string -> string -> xdec -> M X unit;
  cancel_order : string -> M X unit }.
Arguments actual_position_quantity {X}.
Arguments submit_reduce_only_market {X}.
Arguments cancel_order {X}.

Record CloseResult := {
  cr_status : string;
  cr_position_key : string;
  cr_submitted_quantity : xdec;
  cr_reason : option string }.

Definition denied (position_key reason : string) : CloseResult :=
  {| cr_status := "denied"; cr_position_key := position_key; cr_submitted_quantity := XFin dzero;
     cr_reason := Some reason |}.

(** [_close_quantity] *)
Definition close_quantity (actual : xdec) (fraction quantity : option xdec) : result (option xdec) :=
  match fraction, quantity with
  | Some f, None => Some <$> xmul actual f
  | None, Some q => Ok (Some q)
  | _, _ => Ok None
  end.

(** [_update_position_quantity] *)
Definition update_position_quantity (account_id position_key : string) (quantity : xdec) : M Conn unit :=
  let status := if xeqb quantity (XFin dzero) then "closed" else "reducing" in
  let q := pg_numeric quantity in
  now ← get_now;
  row ← select (fun d => positions_projection d !! (account_id, position_key));
  _ ← check (match row with Some _ => pg_leb (XFin dzero) q | None => true end)
            "ck_positions_projection_quantity";
  execute (set_positions_projection (alter (fun r => {|
    po_instrument_id := po_instrument_id r; po_side := po_side r; po_quantity := q;
    po_avg_entry_price := po_avg_entry_price r; po_mark_price := po_mark_price r;
    po_unrealized_pnl := po_unrealized_pnl r; po_status := status;
    po_updated_from_event_id := po_updated_from_event_id r; po_ts_event := po_ts_event r;
    po_updated_at := now; po_payload := po_payload r |}) (account_id, position_key))).

(** A protective order with a new quantity. *)
Definition resize (active : bool) (quantity : xdec) (now : Z) (r : protective_row) : protective_row := {|
  pr_id := pr_id r; pr_account_id := pr_account_id r; pr_position_key := pr_position_key r;
  pr_venue_symbol := pr_venue_symbol r; pr_lifecycle_role := pr_lifecycle_role r;
  pr_client_order_id := pr_client_order_id r; pr_venue_order_id := pr_venue_order_id r;
  pr_status := pr_status r; pr_active := active; pr_quantity := Some quantity; pr_price := pr_price r;
  pr_trigger_price := pr_trigger_price r; pr_updated_at := now; pr_payload := pr_payload r |}.

(** [LEAST(quantity, %s)], which ignores a null column. *)
Definition least_column (c : option xdec) (x : xdec) : xdec :=
  match c with Some q => pg_least q x | None => x end.

(** [ORDER BY updated_at, client_order_id], nulls last. *)
Definition optional_leb (a b : option string) : bool :=
  match a, b with
  | Some a, Some b => String.leb a b
  | _, None => true
  | None, Some _ => false
  end.

Definition updated_before (a b : protective_row) : bool :=
  if pr_updated_at a =? pr_updated_at b
  then optional_leb (pr_client_order_id a) (pr_client_order_id b)
  else pr_updated_at a <? pr_updated_at b.

Definition by_updated (rows : list protective_row) : list protective_row :=
  sort_by updated_before rows.

Definition is_role (role : string) : string -> bool := String.eqb role.

(** The second loop of [_recompute_active_protection_quantities]. *)
Fixpoint shrink_take_profits (remaining allocated : xdec) (rows : list protective_row) : M Conn unit :=
  match rows with
  | [] => mret tt
  | row :: rows =>
      quantity ← mlift (decimal_of (match pr_quantity row with Some q => PDec q | None => PNone end));
      step ← mlift (allocate_one remaining allocated quantity);
      let adjusted := pg_numeric (fst step) in
      now ← get_now;
      _ ← check (pg_leb (XFin dzero) adjusted) "ck_protective_orders_quantity";
      _ ← execute (set_protective_orders (map (fun r =>
            if String.eqb (pr_id r) (pr_id row)
            then resize (negb (pg_leb adjusted (XFin dzero))) adjusted now r else r)));
      shrink_take_profits remaining (snd step) rows
  end.

(** The first UPDATE: an active stop holds at most what is left. *)
Definition cap_stop (account_id position_key : string) (remaining : xdec) (now : Z)
    (r : protective_row) : protective_row :=
  if protects account_id position_key (is_role "stop_loss") r
  then resize (pr_active r) (least_column (pr_quantity r) remaining) now r else r.

(** [_recompute_active_protection_quantities] *)
Definition recompute_active_protection_quantities (account_id position_key : string)
    (remaining : xdec) : M Conn unit :=
  let stop := protects account_id position_key (is_role "stop_loss") in
  now ← get_now;
  stops ← select (fun d => List.filter stop (protective_orders d));
  _ ← check (forallb (fun r => pg_leb (XFin dzero) (least_column (pr_quantity r) (pg_numeric remaining))) stops) "ck_protective_orders_quantity";
  _ ← execute (set_protective_orders (map (cap_stop account_id position_key (pg_numeric remaining) now)));
  rows ← select (fun d => by_updated (List.filter
           (protects account_id position_key (is_role "take_profit")) (protective_orders d)));
  shrink_take_profits remaining (XFin dzero) rows.

Definition is_protection (role : string) : bool := str_in role ["stop_loss"; "take_profit"].

(** [_active_protection_client_order_ids]; the order of two rows of one role
    and client order id does not matter. *)
Definition role_before (a b : protective_row) : bool :=
  if String.eqb (pr_lifecycle_role a) (pr_lifecycle_role b)
  then optional_leb (pr_client_order_id a) (pr_client_order_id b)
  else String.leb (pr_lifecycle_role a) (pr_lifecycle_role b).

Definition active_protection_client_order_ids (account_id position_key : string) : M Conn (list string) :=
  select (fun d =>
    List.filter (fun c => negb (is_empty c))
      (omap pr_client_order_id
        (sort_by role_before
          (List.filter (protects account_id position_key is_protection) (protective_orders d))))).

(** [_clear_active_protection] *)
Definition clear_active_protection (account_id position_key : string) : M Conn unit :=
  deactivate_protection account_id position_key is_protection "cancelled".

Section operations.
Context {X : Type} (exchange : ExitExchange X).

Definition actual_quantity (account_id position_key : string) : M (X * Conn) xdec :=
  v ← on_external (actual_position_quantity exchange account_id position_key);
  mlift (decimal_of v).

Definition partial_close (account_id position_key : string) (fraction quantity : option xdec)
    : M (X * Conn) CloseResult :=
  actual ← actual_quantity account_id position_key;
  close ← mlift (close_quantity actual fraction quantity);
  match close with
  | None => mret (denied position_key "quantity_required")
  | Some close =>
      nonpositive ← mlift (xleb close (XFin dzero));
      if nonpositive : bool then mret (denied position_key "quantity_must_be_positive") else
      above ← mlift (xltb actual close);
      if above : bool then mret (denied position_key "quantity_exceeds_actual_position") else
      _ ← on_external (submit_reduce_only_market exchange account_id position_key close);
      remaining ← actual_quantity account_id position_key;
      _ ← on_conn (transaction (
            _ ← update_position_quantity account_id position_key remaining;
            recompute_active_protection_quantities account_id position_key remaining));
      mret {| cr_status := "submitted"; cr_position_key := position_key;
              cr_submitted_quantity := close; cr_reason := None |}
  end.

(** [_call_reconcile]: a second call when the first raises TypeError. *)
Definition call_reconcile (reconcile : M (X * Conn) bool) : M (X * Conn) bool :=
  try_except reconcile (fun e => match e with TypeError _ => reconcile | _ => mraise e end).

Definition close_position (account_id position_key : string) (reconcile : M (X * Conn) bool)
    : M (X * Conn) CloseResult :=
  actual ← actual_quantity account_id position_key;
  positive ← mlift (xltb (XFin dzero) actual);
  _ ← (if positive : bool
       then on_external (submit_reduce_only_market exchange account_id position_key actual)
       else mret tt);
  let answer status reason := {| cr_status := status; cr_position_key := position_key;
                                 cr_submitted_quantity := actual; cr_reason := reason |} in
  final_quantity ← actual_quantity account_id position_key;
  if negb (xeqb final_quantity (XFin dzero))
  then mret (answer "verifying" (Some "position_not_flat"))
  else
    residuals ← on_conn (active_protection_client_order_ids account_id position_key);
    _ ← mfor residuals (fun c => on_external (cancel_order exchange c));
    _ ← on_conn (transaction (
          _ ← update_position_quantity account_id position_key (XFin dzero);
          clear_active_protection account_id position_key));
    reconciled ← call_reconcile reconcile;
    mret (if reconciled : bool then answer "completed" None
          else answer "verifying" (Some "final_reconciliation_failed")).

End operations.

(** ** Shrinking: what the position's take-profit orders hold *)

Definition qty (r : protective_row) : Q :=
  match pr_quantity r with Some (XFin d) => dval d | _ => 0%Q end.

(** The quantity of the selected rows. *)
Definition held (sel : protective_row -> bool) (l : list protective_row) : Q :=
  foldr (fun r acc => (if sel r then qty r else 0) + acc)%Q 0%Q l.

Definition update_row (id : string) (g : protective_row -> protective_row) (l : list protective_row) :=
  map (fun r => if String.eqb (pr_id r) id then g r else r) l.

Definition ids (l : list protective_row) : list string := map pr_id l.

Lemma update_row_other id g l : id ∉ ids l -> update_row id g l = l.
Proof.
  unfold update_row, ids. induction l as [|r l IH]; simpl; intros N; [done|].
  apply not_elem_of_cons in N as [N1 N2]. rewrite IH by done.
  destruct (String.eqb_spec (pr_id r) id); congruence.
Qed.

Lemma held_update sel l row g :
  NoDup (ids l) -> row ∈ l -> sel row = true ->
  (held sel (update_row (pr_id row) g l)
     == held sel l - qty row + (if sel (g row) then qty (g row) else 0))%Q.
Proof.
  induction l as [|r l IH]; intros N I S; [by inversion I|].
  inversion N as [|? ? Nr Nl]; subst. apply elem_of_cons in I as [<-|I].
  - unfold update_row. cbn [map held foldr]. rewrite String.eqb_refl, S.
    change (map _ l) with (update_row (pr_id row) g l). rewrite (update_row_other _ _ l) by done. ring.
  - assert (E : pr_id r <> pr_id row).
    { intros E. apply Nr. rewrite E. apply list_elem_of_In, in_map, list_elem_of_In, I. }
    unfold update_row. cbn [map held foldr]. apply String.eqb_neq in E. rewrite E.
    change (foldr _ 0%Q (map _ l)) with (held sel (update_row (pr_id row) g l)).
    rewrite IH by done. unfold held. ring.
Qed.

Lemma held_perm sel l l' : l ≡ₚ l' -> (held sel l == held sel l')%Q.
Proof.
  induction 1; simpl; [reflexivity | | ring | by etransitivity].
  fold (held sel l) (held sel l'). by rewrite IHPermutation.
Qed.

Lemma held_filter sel l : (held sel l == held (fun _ => true) (List.filter sel l))%Q.
Proof.
  induction l as [|r l IH]; simpl; [reflexivity|]. fold (held sel l). rewrite IH.
  destruct (sel r); simpl; fold (held (fun _ => true) (List.filter sel l)); ring.
Qed.

Lemma held_total rows ds :
  map pr_quantity rows = map (Some ∘ XFin) ds -> (held (fun _ => true) rows == total ds)%Q.
Proof.
  revert ds. induction rows as [|r rows IH]; intros [|d ds] E; try done. simpl in *.
  injection E as E1 E2. fold (held (fun _ => true) rows) (total ds). rewrite (IH ds) by done.
  unfold qty. by rewrite E1.
Qed.

Lemma ids_update id g l : (forall r, pr_id (g r) = pr_id r) -> ids (update_row id g l) = ids l.
Proof.
  intros G. unfold ids, update_row. rewrite map_map. apply map_ext. intros r. by case_match.
Qed.

Lemma decimal_of_fin d : decimal_of (PDec (XFin d)) = Ok (XFin d).
Proof. unfold decimal_of. change (to_xdec (PDec (XFin d))) with (parse_dec (dec_str d)). by rewrite parse_dec_str. Qed.

Lemma resize_contribution a k d now row :
  protects a k (is_role "take_profit") row = true -> (0 <= dval d)%Q ->
  let q := pg_numeric (XFin d) in
  let row' := resize (negb (pg_leb q (XFin dzero))) q now row in
  ((if protects a k (is_role "take_profit") row' then qty row' else 0) == dval d)%Q.
Proof.
  intros P D q. destruct (pg_numeric_fin d) as (d' & E & V). unfold q. rewrite E, pg_leb_fin. cbn zeta.
  unfold equiv, dec_equiv in V. apply andb_true_iff in P as [P _].
  unfold protects, qty in *. cbn [pr_account_id pr_position_key pr_lifecycle_role pr_active pr_quantity resize].
  rewrite P. destruct (dleb d' dzero) eqn:L; cbn [andb negb]; [|done].
  apply dleb_le in L. change (dval dzero) with (0 * pow10 0)%Q in L. rewrite V in L. lra.
Qed.

Lemma shrink_rows a k R alloc rows ds ads s s' :
  NoDup (ids (protective_orders (current s))) -> NoDup (ids rows) ->
  Forall (fun r => r ∈ protective_orders (current s) /\ protects a k (is_role "take_profit") r = true) rows ->
  map pr_quantity rows = map (Some ∘ XFin) ds ->
  allocate (XFin R) alloc (XFin <$> ds) = Ok (XFin <$> ads) -> Forall (fun d => 0 <= dval d)%Q ads ->
  shrink_take_profits (XFin R) alloc rows s = (Ok tt, s') ->
  (held (protects a k (is_role "take_profit")) (protective_orders (current s'))
     == held (protects a k (is_role "take_profit")) (protective_orders (current s)) - total ds + total ads)%Q
  /\ positions_projection (current s') = positions_projection (current s)
  /\ forall r, r ∈ protective_orders (current s') -> exists r0, r0 ∈ protective_orders (current s)
       /\ pr_id r = pr_id r0 /\ pr_lifecycle_role r = pr_lifecycle_role r0 /\ (pr_id r ∉ ids rows -> r = r0).
Proof.
  revert alloc ds ads s. induction rows as [|row rows IH]; intros alloc ds ads s N NR F Q A P H.
  - destruct ds; [|done]. apply ok_inj in A. destruct ads; [|done]. cbn in H. run_inv.
    split_and!; [simpl; ring | done | by eauto].
  - destruct ds as [|d ds]; [done|]. cbn [map] in Q. injection Q as Q1 Q2.
    rewrite fmap_cons in A. cbn [allocate] in A. cbn [shrink_take_profits] in H. rewrite Q1, decimal_of_fin in H.
    destruct (allocate_one (XFin R) alloc (XFin d)) as [[q alloc']|e] eqn:S; [|done].
    cbn [mbind result_bind fst snd] in A.
    destruct (allocate (XFin R) alloc' (XFin <$> ds)) as [rest|e] eqn:A'; [|done]. apply ok_inj in A.
    destruct ads as [|ad ads]; [done|]. rewrite fmap_cons in A. injection A as -> ->.
    run_inv. rewrite S in Hm0. apply ok_inj in Hm0 as <-. cbn [fst snd] in *.
    match goal with Hc : current ?t = set_protective_orders _ _ |- _ => rename t into s0, Hc into Hcur end.
    inversion NR as [|? ? NR1 NR2]; subst. inversion F as [|? ? [F1 F2] F3]; subst.
    inversion P as [|? ? P1 P2]; subst.
    set (q := pg_numeric (XFin ad)) in *. set (g := resize (negb (pg_leb q (XFin dzero))) q (clock s)) in *.
    assert (C : protective_orders (current s0) = update_row (pr_id row) g (protective_orders (current s)))
      by (by rewrite Hcur).
    specialize (IH alloc' ds ads s0). rewrite C in IH. rewrite ids_update in IH by done.
    destruct IH as (I1 & I2 & I3); [done..| |done|done|done|done|].
    { clear -F1 F3 NR1. induction F3 as [|r rows [F4 F5] F3 IH]; constructor.
      - cbn in NR1. apply not_elem_of_cons in NR1 as [NR1 _]. split; [|done]. unfold update_row.
        apply list_elem_of_In, in_map_iff. exists r. split; [|by apply list_elem_of_In].
        apply not_eq_sym in NR1. apply String.eqb_neq in NR1. by rewrite NR1.
      - apply IH. cbn in NR1. by apply not_elem_of_cons in NR1 as [_ ?]. }
    split_and!.
    + rewrite I1, held_update by done. unfold g, q. rewrite (resize_contribution _ _ _ _ _ F2 P1).
      unfold qty. rewrite Q1. simpl. fold (total ds) (total ads). ring.
    + rewrite I2, Hcur. done.
    + intros r Hr. destruct (I3 r Hr) as (r1 & I & E1 & E2 & E3).
      unfold update_row in I. apply list_elem_of_In, in_map_iff in I as (r0 & E & I).
      apply list_elem_of_In in I. exists r0. split; [done|].
      destruct (String.eqb_spec (pr_id r0) (pr_id row)) as [X|X]; subst r1; [|split_and!; [done..|]].
      * split_and!; [done..|]. intros Nr. destruct Nr. rewrite E1. cbn. rewrite X. left.
      * intros Nr. apply E3. intros Y. apply Nr. by right.
Qed.

(** A take-profit order whose quantity is a non-negative multiple of
    [10 ^ -k]. *)
Definition on_grid (k : Z) (r : protective_row) : Prop :=
  exists d, pr_quantity r = Some (XFin d) /\ grid k d /\ (0 <= dval d)%Q.

Lemma grid_quantities k rows :
  Forall (on_grid k) rows ->
  exists ds, map pr_quantity rows = map (Some ∘ XFin) ds
    /\ Forall (fun d => grid k d /\ (0 <= dval d)%Q) ds.
Proof.
  induction 1 as [|r rows (d & E & G) H (ds & Es & Gs)]; [by exists []|].
  exists (d :: ds). cbn. by rewrite E, Es; auto.
Qed.

Lemma pg_least_lb a b : pg_leb (pg_least a b) b = true.
Proof. unfold pg_least. destruct (pg_leb a b) eqn:E; [done | apply pg_leb_refl]. Qed.

Lemma same_id l r r0 : NoDup (ids l) -> r ∈ l -> r0 ∈ l -> pr_id r = pr_id r0 -> r = r0.
Proof.
  unfold ids. intros N. induction l as [|x l IH]; intros H H0 E; [by inversion H|].
  inversion N as [|? ? Nx Nl]; subst.
  apply elem_of_cons in H as [->|H], H0 as [->|H0]; [done| | |by apply IH].
  - destruct Nx. rewrite E. apply list_elem_of_In, in_map, list_elem_of_In, H0.
  - destruct Nx. rewrite <- E. apply list_elem_of_In, in_map, list_elem_of_In, H.
Qed.

(** Capping the stops leaves the take-profit orders as they were. *)
Lemma held_map sel f l :
  (forall r, sel (f r) = sel r /\ (sel r = true -> qty (f r) = qty r)) ->
  (held sel (map f l) == held sel l)%Q.
Proof.
  intros H. induction l as [|r l IH]; simpl; [reflexivity|].
  fold (held sel l) (held sel (map f l)). destruct (H r) as [-> Hq].
  destruct (sel r); [rewrite Hq by done|]; by rewrite IH.
Qed.

Lemma filter_in {A} (f : A -> bool) l x : x ∈ List.filter f l <-> x ∈ l /\ f x = true.
Proof. rewrite !list_elem_of_In. apply filter_In. Qed.

Lemma ids_filter f l : NoDup (ids l) -> NoDup (ids (List.filter f l)).
Proof.
  unfold ids. induction l as [|r l IH]; intros N; [constructor|].
  inversion N as [|? ? Nr Nl]; subst. cbn [List.filter]. destruct (f r); [|by apply IH].
  constructor; [|by apply IH]. intros H. apply list_elem_of_In, in_map_iff in H as (r' & E & H). apply Nr.
  apply filter_In in H as [H _]. rewrite list_elem_of_In, <- E. by apply in_map.
Qed.

Lemma cap_stop_take_profit a p x now r :
  let tp := protects a p (is_role "take_profit") in
  tp (cap_stop a p x now r) = tp r /\ (tp r = true -> cap_stop a p x now r = r).
Proof.
  unfold cap_stop. destruct (protects a p (is_role "stop_loss") r) eqn:S; [|done].
  unfold protects, is_role in *. apply andb_true_iff in S as [S _]. apply andb_true_iff in S as [_ S].
  apply String.eqb_eq in S. cbn. rewrite <- S. cbn. by rewrite !andb_false_r.
Qed.

Lemma cap_stop_ids a p x now l : ids (map (cap_stop a p x now) l) = ids l.
Proof. unfold ids. rewrite map_map. apply map_ext. intros r. unfold cap_stop. by case_match. Qed.

Lemma cap_stop_capped a p x now r :
  protects a p (is_role "stop_loss") (cap_stop a p x now r) = true ->
  exists q, pr_quantity (cap_stop a p x now r) = Some q /\ pg_leb q x = true.
Proof.
  unfold cap_stop. destruct (protects a p (is_role "stop_loss") r) eqn:P; [|by rewrite P].
  intros _. eexists. split; [reflexivity|]. destruct (pr_quantity r); [apply pg_least_lb | apply pg_leb_refl].
Qed.

Lemma recompute_spec k a p d s s' :
  0 <= k <= 28 -> grid k d -> NoDup (ids (protective_orders (current s))) ->
  (forall r, r ∈ protective_orders (current s) -> protects a p (is_role "take_profit") r = true -> on_grid k r) ->
  recompute_active_protection_quantities a p (XFin d) s = (Ok tt, s') ->
  positions_projection (current s') = positions_projection (current s)
  /\ (held (protects a p (is_role "take_profit")) (protective_orders (current s'))
       == Qmin (held (protects a p (is_role "take_profit")) (protective_orders (current s))) (Qmax 0 (dval d)))%Q
  /\ forall r, r ∈ protective_orders (current s') -> protects a p (is_role "stop_loss") r = true ->
       exists q, pr_quantity r = Some q /\ pg_leb q (pg_numeric (XFin d)) = true.
Proof.
  intros Hk G N OG H. set (tp := protects a p (is_role "take_profit")) in *.
  unfold recompute_active_protection_quantities in H. run_inv.
  match goal with Hc : current ?t = set_protective_orders (map ?f) _ |- _ => rename t into s1; set (cap := f) in * end.
  assert (C : protective_orders (current s1) = map cap (protective_orders (current s))) by (by rewrite Hcur).
  assert (CP : positions_projection (current s1) = positions_projection (current s)) by (by rewrite Hcur).
  assert (CI : ids (map cap (protective_orders (current s))) = ids (protective_orders (current s)))
    by apply cap_stop_ids.
  assert (CT : forall r, tp (cap r) = tp r /\ (tp r = true -> cap r = r))
    by (intros r; apply cap_stop_take_profit).
  rewrite C in H. set (rows := by_updated (List.filter tp (map cap (protective_orders (current s))))) in *.
  assert (PR : rows ≡ₚ List.filter tp (map cap (protective_orders (current s)))) by apply sort_by_perm.
  assert (IN : forall r, r ∈ rows -> r ∈ map cap (protective_orders (current s)) /\ tp r = true)
    by (intros r; rewrite PR; apply filter_in).
  destruct (grid_quantities k rows) as (ds & Eq & Gs).
  { apply Forall_forall. intros r Hr. destruct (IN r Hr) as [I T]. 
    apply list_elem_of_In, in_map_iff in I as (r0 & <- & I). destruct (CT r0) as [X Y]. rewrite X in T.
    rewrite (Y T). apply OG; [by apply list_elem_of_In | done]. }
  destruct (allocate_spec k d dzero ds) as (ads & A & F & T); [done|by apply grid_zero|done| |done|].
  { split; [by compute | apply Q.le_max_l]. }
  destruct (shrink_rows a p d (XFin dzero) rows ds ads s1 s') as (S1 & S2 & S3); rewrite ?C; try done.
  - by rewrite CI.
  - unfold ids. rewrite PR. apply ids_filter. by rewrite CI.
  - apply Forall_forall. intros r Hr. by apply IN.
  - clear -F. induction F as [|? ? ? ? [] F IH]; by constructor.
  - fold tp in S1. rewrite C in S1, S3.
    assert (HM : (held tp (map cap (protective_orders (current s))) == held tp (protective_orders (current s)))%Q).
    { apply held_map. intros r. destruct (CT r) as [X Y]. split; [done|]. intros Z. by rewrite (Y Z). }
    assert (TD : (total ds == held tp (protective_orders (current s)))%Q)
      by (by rewrite <- (held_total rows ds Eq), (held_perm _ _ _ PR), <- held_filter).
    split_and!; [by rewrite S2| |].
    + rewrite S1, T, TD, HM. change (dval dzero) with (0 * pow10 0)%Q.
      ring_simplify. apply Q.min_compat; [reflexivity | ring].
    + intros r Hr St. destruct (S3 r Hr) as (r0 & I0 & E1 & E2 & E3).
      assert (X : pr_id r ∉ ids rows).
      { intros X. unfold ids in X. apply list_elem_of_In, in_map_iff in X as (r1 & X1 & X2).
        destruct (IN r1) as [X3 X4]; [by apply list_elem_of_In|].
        assert (r1 = r0) as -> by (apply (same_id (map cap (protective_orders (current s)))); [by rewrite CI|done..|congruence]).
        unfold tp, protects, is_role in X4, St. bprop. congruence. }
      rewrite (E3 X) in *. apply list_elem_of_In, in_map_iff in I0 as (r1 & <- & _).
      by apply cap_stop_capped.
Qed.

(** ** Properties *)

Lemma update_position_inv a p q s u s' :
  update_position_quantity a p q s = (Ok u, s') ->
  protective_orders (current s') = protective_orders (current s)
  /\ forall row, positions_projection (current s') !! (a, p) = Some row ->
       po_quantity row = pg_numeric q
       /\ po_status row = if xeqb q (XFin dzero) then "closed" else "reducing".
Proof.
  unfold update_position_quantity. intros H. run_inv. run_frame. split; [done|].
  intros row. rewrite lookup_alter_eq. intros R.
  destruct (positions_projection _ !! _); [|done]. cbn in R. by injection R as <-.
Qed.

(** The exchange reports a position of [q] for [(a, p)] in state [x]. *)
Definition reports {X} (exchange : ExitExchange X) (a p : string) (x : X) (q : xdec) (x' : X) : Prop :=
  exists v, actual_position_quantity exchange a p x = (Ok v, x') /\ to_xdec v = Some q.

Lemma actual_quantity_inv {X} (exchange : ExitExchange X) a p w q w' :
  actual_quantity exchange a p w = (Ok q, w') ->
  reports exchange a p (fst w) q (fst w') /\ snd w' = snd w.
Proof.
  unfold actual_quantity. intros H. world_inv. split; [|done]. eexists. split; [done|].
  unfold decimal_of in H. by case_match; simplify_eq.
Qed.

Lemma partial_close_inv {X} (exchange : ExitExchange X) a p fraction quantity w r w' :
  partial_close exchange a p fraction quantity w = (Ok r, w') -> cr_status r = "submitted" ->
  exists actual close remaining x1 x2,
    reports exchange a p (fst w) actual x1
    /\ xleb close (XFin dzero) = Ok false /\ xltb actual close = Ok false
    /\ cr_submitted_quantity r = close
    /\ submit_reduce_only_market exchange a p close x1 = (Ok tt, x2)
    /\ reports exchange a p x2 remaining (fst w')
    /\ exists s1 s2, update_position_quantity a p remaining (snd w) = (Ok tt, s1)
        /\ recompute_active_protection_quantities a p remaining s1 = (Ok tt, s2) /\ snd w' = commit s2.
Proof.
  intros H ST. unfold partial_close in H. world_inv.
  match goal with H : actual_quantity _ _ _ w = _ |- _ => apply actual_quantity_inv in H as [R1 E1] end.
  destruct x0 as [close|]; [|world_inv; discriminate ST]. world_inv.
  destruct x0; [world_inv; discriminate ST|]. world_inv.
  destruct x0; [world_inv; discriminate ST|]. world_inv.
  match goal with H : actual_quantity _ _ _ _ = _ |- _ => apply actual_quantity_inv in H as [R2 E2] end.
  match goal with H : transaction _ _ = _ |- _ => apply transaction_inv_ok in H as (s9 & T & C) end. run_inv.
  repeat match goal with u : () |- _ => destruct u end.
  rewrite E2, H0, E1 in Hm2. rewrite H2.
  eexists x, close, x1, _, _. split_and!; [done..|]. eauto.
Qed.

Lemma close_positive actual close :
  xleb close (XFin dzero) = Ok false -> xltb (XFin actual) close = Ok false ->
  exists c, close = XFin c /\ (0 < dval c <= dval actual)%Q.
Proof.
  destruct close as [c|[]|]; [|done..]. rewrite xleb_fin, xltb_fin. intros A B.
  apply ok_inj, dleb_gt in A. apply ok_inj, dltb_ge in B. change (dval dzero) with (0 * pow10 0)%Q in A.
  exists c. split; [done|]. lra.
Qed.

(** C29. A partial close that reports [submitted] has sent one reduce-only
    order, for a positive quantity within the position the exchange reported;
    the committed position then has the quantity the exchange reported
    afterwards, its stops hold at most that quantity, and its take-profit
    orders hold together the smaller of what they held and what is left. *)
Theorem partial_close_protection {X} (exchange : ExitExchange X) k a p fraction quantity w r w' :
  0 <= k <= 28 -> NoDup (ids (protective_orders (current (snd w)))) ->
  (forall row, row ∈ protective_orders (current (snd w)) ->
     protects a p (is_role "take_profit") row = true -> on_grid k row) ->
  (forall x q x', reports exchange a p x q x' -> exists d, q = XFin d /\ grid k d) ->
  partial_close exchange a p fraction quantity w = (Ok r, w') -> cr_status r = "submitted" ->
  exists actual close remaining x1 x2,
    reports exchange a p (fst w) (XFin actual) x1
    /\ cr_submitted_quantity r = XFin close /\ (0 < dval close <= dval actual)%Q
    /\ submit_reduce_only_market exchange a p (XFin close) x1 = (Ok tt, x2)
    /\ reports exchange a p x2 (XFin remaining) (fst w')
    /\ committed (snd w') = current (snd w')
    /\ (forall row, positions_projection (committed (snd w')) !! (a, p) = Some row ->
          po_quantity row = pg_numeric (XFin remaining))
    /\ (forall row, row ∈ protective_orders (committed (snd w')) ->
          protects a p (is_role "stop_loss") row = true ->
          exists q, pr_quantity row = Some q /\ pg_leb q (pg_numeric (XFin remaining)) = true)
    /\ (held (protects a p (is_role "take_profit")) (protective_orders (committed (snd w')))
         == Qmin (held (protects a p (is_role "take_profit")) (protective_orders (current (snd w))))
                 (Qmax 0 (dval remaining)))%Q.
Proof.
  intros Hk N OG EX H ST.
  destruct (partial_close_inv _ _ _ _ _ _ _ _ H ST)
    as (actual & close & remaining & x1 & x2 & R1 & L & U & E & S & R2 & s1 & s2 & UP & RE & C).
  destruct (EX _ _ _ R1) as (actual' & -> & _). destruct (EX _ _ _ R2) as (d & -> & G).
  destruct (close_positive _ _ L U) as (c & -> & B). apply update_position_inv in UP as [UP UR].
  rewrite <- UP in N, OG. destruct (recompute_spec k a p d s1 s2 Hk G N OG RE) as (PP & TP & SL).
  rewrite UP in TP. rewrite C. unfold commit. exists actual', c, d, x1, x2. cbn [committed current]. split_and!; try done; [apply B..|].
  rewrite PP. intros row Hr. by apply UR.
Qed.

(** ** Closing *)

Lemma mfor_external {X A} (body : A -> M X unit) xs w u w' :
  mfor xs (fun c => on_external (body c)) w = (Ok u, w') ->
  mfor xs body (fst w) = (Ok u, fst w') /\ snd w' = snd w.
Proof.
  revert w. induction xs as [|x xs IH]; intros w H; cbn in H; [world_inv; by cbn|].
  world_inv. apply IH in H as [H E]. split; [|congruence]. cbn. by erewrite mbind_ok by done.
Qed.

(** A position is reported [completed] only after the exchange reported it
    flat, every active stop and take-profit order of the position was
    cancelled there, the closed position with quantity zero and no active
    protection was committed, and the reconciliation that followed succeeded;
    while the exchange does not report it flat, the database is not touched. *)
Theorem close_position_outcome {X} (exchange : ExitExchange X) a p reconcile w r w' :
  close_position exchange a p reconcile w = (Ok r, w') ->
  (cr_reason r = Some "position_not_flat" -> snd w' = snd w) /\
  (cr_status r = "completed" -> exists x1 flat x2 x3 s,
     reports exchange a p x1 flat x2 /\ xeqb flat (XFin dzero) = true
     /\ (exists residuals s', active_protection_client_order_ids a p (snd w) = (Ok residuals, s')
          /\ mfor residuals (cancel_order exchange) x2 = (Ok tt, x3))
     /\ committed s = current s
     /\ existsb (protects a p is_protection) (protective_orders (committed s)) = false
     /\ (forall row, positions_projection (committed s) !! (a, p) = Some row ->
           po_quantity row = XFin dzero /\ po_status row = "closed")
     /\ call_reconcile reconcile (x3, s) = (Ok true, w')).
Proof.
  unfold close_position. intros H. world_inv.
  apply actual_quantity_inv in Hm as [_ E1].
  assert (E2 : snd s1 = snd s) by (destruct x0; world_inv; done).
  apply actual_quantity_inv in Hm2 as [R E3].
  assert (E : snd s2 = snd w) by congruence. clear Hm1 E1 E2 E3.
  destruct (xeqb x2 (XFin dzero)) eqn:F; cbn [negb] in H; world_inv; [|by split].
  match goal with H : transaction _ _ = _ |- _ => apply transaction_inv_ok in H as (t & T & C) end. run_inv.
  match goal with H : mfor _ _ _ = _ |- _ => apply mfor_external in H as [MF E4] end.
  match goal with H : call_reconcile _ ?v = (Ok ?b, _) |- _ => rename H into RC; destruct v as [v1 v2]; destruct b end;
    cbn in *; split; intros Z; try discriminate Z.
  match goal with H : clear_active_protection _ _ _ = _ |- _ => apply deactivate_none in H as [D P] end.
  match goal with H : update_position_quantity _ _ _ _ = _ |- _ => apply update_position_inv in H as [_ U] end.
  repeat match goal with u : () |- _ => destruct u end. subst.
  eexists _, x2, _, _, _. split_and!; [exact R | done | | | | | exact RC].
  - eexists _, _. split; [by rewrite <- E|]. by match goal with H : fst ?u = fst s2 |- _ => rewrite <- H end.
  - done.
  - exact D.
  - intros row. cbn. rewrite P. intros Hr. by apply U in Hr.
Qed.

(** ** Witnesses *)

(** An exchange that holds one position and fills a reduce-only order at once;
    a cancelled order is remembered. *)
Definition sample_exchange : ExitExchange (Z * list string) := {|
  actual_position_quantity _ _ := fun x => (Ok (PDec (XFin (Dec (fst x mod 1000) (-1)))), x);
  submit_reduce_only_market _ _ q := fun x =>
    match q with
    | XFin d => (Ok tt, (fst x - rescale ROUND_DOWN d (-1), snd x))
    | _ => (Raise InvalidOperation, x)
    end;
  cancel_order c := fun x => (Ok tt, (fst x, c :: snd x)) |}.

Definition sample_protective (id role : string) (q : Z) : protective_row := {|
  pr_id := id; pr_account_id := "a"; pr_position_key := "a:BTCUSDT"; pr_venue_symbol := "BTCUSDT";
  pr_lifecycle_role := role; pr_client_order_id := Some id; pr_venue_order_id := None;
  pr_status := "working"; pr_active := true; pr_quantity := Some (XFin (Dec q (-1)));
  pr_price := None; pr_trigger_price := None; pr_updated_at := 0; pr_payload := [] |}.

Definition sample_world : (Z * list string) * Conn :=
  ((8, []), connect (set_protective_orders
     (fun _ => [sample_protective "s1" "stop_loss" 10; sample_protective "t1" "take_profit" 6]) empty_db) 5).

Lemma sample_reports x q x' :
  reports sample_exchange "a" "a:BTCUSDT" x q x' -> exists d, q = XFin d /\ grid 8 d.
Proof.
  intros (v & H & E). cbn in H. injection H as <- <-. unfold to_xdec in E.
  change (py_str (PDec (XFin (Dec (fst x mod 1000) (-1))))) with (dec_str (Dec (fst x mod 1000) (-1))) in E.
  rewrite parse_dec_str in E. injection E as <-. eexists. split; [done|]. split; [cbn; lia|].
  destruct (Z.mod_pos_bound (fst x) 1000 ltac:(lia)) as [? ?]. unfold dval. cbn [coef dexp].
  rewrite Qabs.Qabs_pos.
  - apply (Qlt_le_trans _ (inject_Z 1000 * pow10 (-1))); [|by compute].
    apply Qmult_lt_r; [by compute | by rewrite <- Zlt_Qlt].
  - apply Qmult_le_0_compat; [|by compute]. change 0%Q with (inject_Z 0). by rewrite <- Zle_Qle.
Qed.

Lemma partial_close_protection_witness :
  exists r w', partial_close sample_exchange "a" "a:BTCUSDT" (Some (XFin (Dec 5 (-1)))) None sample_world = (Ok r, w')
    /\ (held (protects "a" "a:BTCUSDT" (is_role "take_profit")) (protective_orders (committed (snd w'))) <= 6 # 10)%Q.
Proof.
  destruct (partial_close sample_exchange "a" "a:BTCUSDT" (Some (XFin (Dec 5 (-1)))) None sample_world)
    as [r w'] eqn:E.
  assert (S : match r with Ok r => String.eqb (cr_status r) "submitted" | _ => false end = true)
    by (change r with (fst (r, w')); rewrite <- E; vm_compute; reflexivity).
  destruct r as [r|]; [|discriminate S]. exists r, w'. split; [reflexivity|].
  destruct (partial_close_protection sample_exchange 8 "a" "a:BTCUSDT" (Some (XFin (Dec 5 (-1)))) None
    sample_world r w') as (? & ? & ? & ? & ? & _ & _ & _ & _ & _ & _ & _ & _ & H).
  - lia.
  - apply (bool_decide_unpack _). by vm_compute.
  - intros row Hr _.
    change (row ∈ [sample_protective "s1" "stop_loss" 10; sample_protective "t1" "take_profit" 6]) in Hr.
    elim_in Hr; eexists; (split; [reflexivity|]); repeat split; vm_compute; congruence.
  - apply sample_reports.
  - exact E.
  - by apply String.eqb_eq.
  - rewrite H. eapply Qle_trans; [apply Q.le_min_l|]. by compute.
Defined.

Lemma close_position_outcome_witness :
  exists r w', close_position sample_exchange "a" "a:BTCUSDT" (mret true) sample_world = (Ok r, w')
    /\ (cr_status r = "completed" -> exists s,
          existsb (protects "a" "a:BTCUSDT" is_protection) (protective_orders (committed s)) = false).
Proof.
  destruct (close_position sample_exchange "a" "a:BTCUSDT" (mret true) sample_world) as [r w'] eqn:E.
  assert (S : is_ok r = true) by (change r with (fst (r, w')); rewrite <- E; vm_compute; reflexivity).
  destruct r as [r|]; [|discriminate S]. exists r, w'. split; [reflexivity|].
  intros C. apply close_position_outcome in E as [_ E].
  destruct (E C) as (? & ? & ? & ? & s & _ & _ & _ & _ & H & _). exists s. exact H.
Defined.
