(* ===== verification/OrderPlans.v ===== *)
(** * OrderPlans: order plans of the node and their client order ids

    Models the part of nautilus-node/strategy/intent_execution_planner.py that
    other modules of the node share (instrument specifications, order plans,
    the client order id), strategy/protection.py (stop orders),
    strategy/take_profit.py (take-profit ladders) and strategy/trailing_stop.py
    (trailing orders).  Prices and quantities are finite decimals.  A UUID is
    its thirty-two lowercase hexadecimal digits. *)

From Stdlib Require Import ZArith Lia Ascii QArith Qabs Lqa.
From S2P Require Import Prelude Decimal PyString DecText PyValue Store Sha256 External.
Open Scope string_scope.
Open Scope Z_scope.

Record InstrumentSpec := {
  is_instrument_id : string;
  is_price_increment : string;
  is_quantity_increment : string }.

Record OrderPlan := {
  op_intent_id : string;
  op_client_order_id : string;
  op_tags : list string;
  op_instrument_id : string;
  op_side : string;
  op_order_type : string;
  op_quantity : string;
  op_price : option string;
  op_time_in_force : string;
  op_reduce_only : bool;
  op_trigger_price : option string;
  op_post_only : bool;
  op_max_slippage_bps : option string;
  op_guard_price : option string;
  op_approved_max_notional : option string }.

(** ** Client order ids *)

(** The hex digits of a UUID. *)
Definition uuid_digits (h : string) : bool := (String.length h =? 32)%nat && sforall is_hex h.

(** [UUID(str(value))] *)
Definition uuid_of (value : string) : result string :=
  match uuid_hex value with
  | Some h => Ok h
  | None => Raise (ValueError "badly formed hexadecimal UUID string")
  end.

Definition encode_client_order_id (intent_id : string) (sequence : Z) : result string :=
  if (sequence <? 0) || (99 <? sequence) then Raise (ValueError "sequence must be between 0 and 99")
  else Ok ("B" +:+ intent_id +:+ pad 2 sequence).

Record ClientOrderTrace := { ct_intent_id : string; ct_sequence : Z }.

Definition decode_client_order_id (client_order_id : string) : result ClientOrderTrace :=
  if negb (String.length client_order_id =? 35)%nat || negb (starts_with "B" client_order_id)
  then Raise (ValueError "unsupported client_order_id format") else
  let intent_hex := String.substring 1 32 client_order_id in
  let sequence_raw := String.substring 33 2 client_order_id in
  if is_empty sequence_raw || negb (sforall is_digit sequence_raw)
  then Raise (ValueError "client_order_id sequence is not numeric") else
  h ← uuid_of intent_hex;
  Ok {| ct_intent_id := h; ct_sequence := num_of 0 sequence_raw |}.

(** ** Rounding to an increment *)

(** [_round_to_increment] of strategy/protection.py and strategy/take_profit.py. *)
Definition round_to_increment (amount : dec) (increment : string) : result string :=
  match to_xdec (PStr increment) with
  | None => Raise (ValueError "invalid decimal value")
  | Some step =>
      nonpositive ← (if dleb amount dzero then Ok true else xleb step (XFin dzero));
      if nonpositive : bool then Raise (ValueError "decimal values must be positive") else
      match step with
      | XFin step =>
          ratio ← ddiv amount step;
          whole ← quantize ROUND_HALF_UP ratio dec_one;
          snapped ← quantize ROUND_HALF_EVEN (whole * step)%dec step;
          Ok (format_f snapped)
      | _ => Raise InvalidOperation
      end
  end.

(** ** Stop orders *)

Record PositionProtectionSnapshot := {
  pp_position_key : string;
  pp_side : string;
  pp_quantity : dec;
  pp_entry_price : option dec }.

Record StopProtectionSpec := {
  sp_stop_type : string;
  sp_trigger_price : option dec;
  sp_distance_pct : option dec;
  sp_limit_price : option dec;
  sp_trigger_basis : string }.

Definition is_long (side : string) : bool := str_in (lower side) ["long"; "buy"].
Definition exit_side (side : string) : string := if is_long side then "SELL" else "BUY".

(** [_trigger_price] *)
Definition trigger_price (position : PositionProtectionSnapshot) (stop : StopProtectionSpec) : result dec :=
  match sp_trigger_price stop, sp_distance_pct stop, pp_entry_price position with
  | Some p, _, _ => Ok p
  | None, Some pct, Some entry =>
      distance ← ddiv pct (Dec 100 0);
      Ok (if is_long (pp_side position) then entry * (dec_one - distance) else entry * (dec_one + distance))%dec
  | _, _, _ => Raise (ValueError "stop requires trigger_price or entry_price plus distance_pct")
  end.

Definition build_stop_order_plan (intent_id account_id instrument_id : string)
    (position : PositionProtectionSnapshot) (stop : StopProtectionSpec) (instrument : InstrumentSpec)
    (sequence : Z) : result OrderPlan :=
  let stop_type := lower (sp_stop_type stop) in
  if negb (str_in stop_type ["stop_market"; "stop_limit"])
  then Raise (ValueError ("unsupported stop type " +:+ py_repr (PStr (sp_stop_type stop)))) else
  trigger ← trigger_price position stop;
  limit ← (if String.eqb stop_type "stop_limit" then
             match sp_limit_price stop with
             | None => Raise (ValueError "stop_limit requires limit_price")
             | Some p => Some <$> round_to_increment p (is_price_increment instrument)
             end
           else Ok None);
  intent ← uuid_of intent_id;
  client_order_id ← encode_client_order_id intent sequence;
  quantity ← round_to_increment (dabs (pp_quantity position)) (is_quantity_increment instrument);
  rounded ← round_to_increment trigger (is_price_increment instrument);
  Ok {| op_intent_id := intent;
        op_client_order_id := client_order_id;
        op_tags := ["intent_id=" +:+ uuid_text intent; "action=install_protection";
                    "account_id=" +:+ account_id; "lifecycle_role=stop_loss";
                    "position_id=" +:+ pp_position_key position;
                    "trigger_basis=" +:+ sp_trigger_basis stop];
        op_instrument_id := instrument_id;
        op_side := exit_side (pp_side position);
        op_order_type := if String.eqb stop_type "stop_limit" then "STOP_LIMIT" else "STOP_MARKET";
        op_quantity := quantity;
        op_price := limit;
        op_time_in_force := "GTC";
        op_reduce_only := true;
        op_trigger_price := Some rounded; op_post_only := false; op_max_slippage_bps := None;
        op_guard_price := None; op_approved_max_notional := None |}.

(** ** Take-profit ladders *)

Record TakeProfitTarget := {
  tt_price : option dec;
  tt_r_multiple : option dec;
  tt_fraction : option dec;
  tt_quantity : option dec;
  tt_time_in_force : string }.

(** A value, or a [TakeProfitDenied]. *)
Inductive denial (A : Type) :=
  | TakeProfitDenied (reason detail : string)
  | Granted (a : A).
Arguments TakeProfitDenied {A}.
Arguments Granted {A}.

(** [_target_quantity] *)
Definition target_quantity (position_quantity : dec) (target : TakeProfitTarget) (increment : string)
  : result (denial string) :=
  let sized raw :=
    if dleb raw dzero then Ok (TakeProfitDenied "unsupported_order_spec" "quantity")
    else Granted <$> round_to_increment raw increment in
  match tt_fraction target, tt_quantity target with
  | Some f, None => sized (position_quantity * f)%dec
  | None, Some q => sized q
  | _, _ => Ok (TakeProfitDenied "unsupported_order_spec" "fraction_xor_quantity")
  end.

(** [_target_price] *)
Definition target_price (position : PositionProtectionSnapshot) (initial_stop_price : dec)
    (target : TakeProfitTarget) : denial dec :=
  match tt_price target, tt_r_multiple target with
  | None, None | Some _, Some _ => TakeProfitDenied "unsupported_order_spec" "price_xor_r_multiple"
  | Some p, None => Granted p
  | None, Some multiple =>
      match pp_entry_price position with
      | None => TakeProfitDenied "unsupported_order_spec" "entry_price_required"
      | Some entry =>
          let risk := dabs (entry - initial_stop_price)%dec in
          Granted (if is_long (pp_side position) then entry + risk * multiple else entry - risk * multiple)%dec
      end
  end.

(** [_format_decimal] *)
Definition format_decimal (d : dec) : string :=
  let t := rstrip_by (Ascii.eqb ".") (rstrip_by (Ascii.eqb "0") (format_f d)) in
  if is_empty t then "0" else t.

Section ladder.
Context (intent account_id instrument_id : string) (position : PositionProtectionSnapshot)
  (initial_stop_price : dec) (instrument : InstrumentSpec).

Definition take_profit_plan (index : Z) (target : TakeProfitTarget) (client_order_id quantity price : string)
  : OrderPlan := {|
  op_intent_id := intent;
  op_client_order_id := client_order_id;
  op_tags := ["intent_id=" +:+ uuid_text intent; "action=install_take_profit";
              "account_id=" +:+ account_id; "lifecycle_role=take_profit";
              "position_id=" +:+ pp_position_key position; "take_profit_index=" +:+ int_str index];
  op_instrument_id := instrument_id;
  op_side := exit_side (pp_side position);
  op_order_type := "LIMIT_IF_TOUCHED";
  op_quantity := quantity;
  op_price := Some price;
  op_time_in_force := tt_time_in_force target;
  op_reduce_only := true;
  op_trigger_price := Some price; op_post_only := false; op_max_slippage_bps := None;
  op_guard_price := None; op_approved_max_notional := None |}.

(** The loop over the targets, with the running total; [Decimal(quantity)]
    reads back the text just formatted. *)
Fixpoint ladder (index : Z) (total : xdec) (targets : list TakeProfitTarget)
  : result (denial (xdec * list OrderPlan)) :=
  match targets with
  | [] => Ok (Granted (total, []))
  | target :: targets =>
      quantity ← target_quantity (pp_quantity position) target (is_quantity_increment instrument);
      match quantity with
      | TakeProfitDenied r d => Ok (TakeProfitDenied r d)
      | Granted quantity =>
          q ← decimal_of (PStr quantity);
          total ← xadd total q;
          match target_price position initial_stop_price target with
          | TakeProfitDenied r d => Ok (TakeProfitDenied r d)
          | Granted trigger =>
              price ← round_to_increment trigger (is_price_increment instrument);
              client_order_id ← encode_client_order_id intent index;
              rest ← ladder (index + 1) total targets;
              match rest with
              | TakeProfitDenied r d => Ok (TakeProfitDenied r d)
              | Granted (total, plans) =>
                  Ok (Granted (total, take_profit_plan index target client_order_id quantity price :: plans))
              end
          end
      end
  end.

End ladder.

Definition build_take_profit_ladder (intent_id account_id instrument_id : string)
    (position : PositionProtectionSnapshot) (initial_stop_price : dec) (targets : list TakeProfitTarget)
    (instrument : InstrumentSpec) : result (denial (list OrderPlan)) :=
  match targets with
  | [] => Ok (TakeProfitDenied "take_profit_required" "targets")
  | _ =>
      intent ← uuid_of intent_id;
      plans ← ladder intent account_id instrument_id position initial_stop_price instrument 1
                (XFin dzero) targets;
      match plans with
      | TakeProfitDenied r d => Ok (TakeProfitDenied r d)
      | Granted (total, plans) =>
          above ← xltb (XFin (pp_quantity position)) total;
          if above : bool
          then Ok (TakeProfitDenied "quantity_exceeds_position"
                     (xformat_f total +:+ ">" +:+ format_decimal (pp_quantity position)))
          else Ok (Granted plans)
      end
  end.

(** ** Trailing orders *)

Record TrailingStopOrderPlan := {
  tp_intent_id : string;
  tp_client_order_id : string;
  tp_tags : list string;
  tp_instrument_id : string;
  tp_side : string;
  tp_order_type : string;
  tp_quantity : dec;
  tp_reduce_only : bool;
  tp_native : bool;
  tp_callback_rate : dec;
  tp_activation_price : option dec }.

Definition build_trailing_stop_order (intent_id account_id instrument_id : string)
    (position : PositionProtectionSnapshot) (callback_rate : dec) (activation_price : option dec)
    (exchange_supports_native : bool) : result TrailingStopOrderPlan :=
  intent ← uuid_of intent_id;
  client_order_id ← encode_client_order_id intent 1;
  Ok {| tp_intent_id := intent; tp_client_order_id := client_order_id;
        tp_tags := ["intent_id=" +:+ uuid_text intent; "action=install_trailing_stop";
                    "account_id=" +:+ account_id; "lifecycle_role=stop_loss";
                    "position_id=" +:+ pp_position_key position; "trailing=true"];
        tp_instrument_id := instrument_id;
        tp_side := exit_side (pp_side position);
        tp_order_type := if exchange_supports_native then "TRAILING_STOP_MARKET" else "STOP_MARKET";
        tp_quantity := dabs (pp_quantity position);
        tp_reduce_only := true;
        tp_native := exchange_supports_native;
        tp_callback_rate := callback_rate;
        tp_activation_price := activation_price |}.

(** ** The client order id carries the intent *)

Lemma remove_sub_absent c p s :
  sforall (fun x => negb (Ascii.eqb x c)) s = true -> remove_sub (String c p) 0 s = s.
Proof.
  induction s as [|x s IH]; intros H; [done|]. cbn [sforall] in H. bprop. cbn [remove_sub starts_with].
  rewrite Ascii.eqb_sym in H. rewrite H. cbn. by rewrite IH.
Qed.

Lemma lstrip_by_id p s : sforall (fun x => negb (p x)) s = true -> lstrip_by p s = s.
Proof. destruct s; cbn; [done|]. intros H. bprop. by rewrite H. Qed.

Lemma rstrip_by_id p s : sforall (fun x => negb (p x)) s = true -> rstrip_by p s = s.
Proof.
  induction s as [|c s IH]; cbn; [done|]. intros H. bprop. rewrite IH, H by done. by rewrite andb_false_r.
Qed.

Lemma smap_id f s : sforall (fun c => Ascii.eqb (f c) c) s = true -> smap f s = s.
Proof. induction s; cbn; [done|]. intros H. bprop. apply Ascii.eqb_eq in H. by rewrite H, IHs. Qed.

(** A hex digit is none of the characters a UUID's text is cleaned of. *)
Lemma hex_clean c :
  is_hex c = true ->
  negb (Ascii.eqb c "u") && negb (is_brace c) && negb (Ascii.eqb c "-") && Ascii.eqb (lower_char c) c = true.
Proof. destruct c as [[] [] [] [] [] [] [] []]; vm_compute; congruence. Qed.

Lemma uuid_hex_digits h : uuid_digits h = true -> uuid_hex h = Some h.
Proof.
  unfold uuid_digits, uuid_hex. intros H. bprop.
  assert (P : forall q, (forall c, is_hex c = true -> q c = true) -> sforall q h = true)
    by (intros q Q; eapply sforall_impl; eauto).
  rewrite (remove_sub_absent "u" "rn:") by (apply P; intros c C; apply hex_clean in C; rewrite !andb_true_iff in C; tauto).
  rewrite (remove_sub_absent "u" "uid:") by (apply P; intros c C; apply hex_clean in C; rewrite !andb_true_iff in C; tauto).
  rewrite lstrip_by_id, rstrip_by_id by (apply P; intros c C; apply hex_clean in C; rewrite !andb_true_iff in C; tauto).
  rewrite sfilter_all by (apply P; intros c C; apply hex_clean in C; rewrite !andb_true_iff in C; tauto).
  unfold lower. rewrite smap_id by (apply P; intros c C; apply hex_clean in C; rewrite !andb_true_iff in C; tauto).
  by rewrite H, H0.
Qed.

Lemma pad_two n :
  0 <= n <= 99 ->
  String.length (pad 2 n) = 2%nat /\ sforall is_digit (pad 2 n) = true /\ num_of 0 (pad 2 n) = n.
Proof.
  intros H.
  assert (C : forallb (fun k => let t := pad 2 (Z.of_nat k) in
      (String.length t =? 2)%nat && sforall is_digit t && (num_of 0 t =? Z.of_nat k)) (seq 0 100) = true)
    by (vm_compute; reflexivity).
  rewrite forallb_forall in C. specialize (C (Z.to_nat n) ltac:(apply in_seq; lia)). cbn zeta in C.
  rewrite Z2Nat.id in C by lia. bprop. split_and!; [by apply Nat.eqb_eq | done..].
Qed.

Lemma substring_app_l n s t : String.length s = n -> String.substring 0 n (s +:+ t) = s.
Proof. revert n. induction s as [|c s IH]; intros n <-; [by destruct t|].
  rewrite sapp_cons. cbn. f_equal. by apply IH. Qed.

Lemma substring_app_r n s t :
  String.length s = n -> String.substring n (String.length t) (s +:+ t) = t.
Proof.
  revert n. induction s as [|c s IH]; intros n <-; [|rewrite sapp_cons; by apply IH].
  rewrite sapp_nil_l. cbn. induction t as [|c t IHt]; cbn; [done|]. by rewrite IHt.
Qed.

(** Encoding and decoding of one id. *)
Lemma encoded_id h n :
  uuid_digits h = true -> 0 <= n <= 99 ->
  exists id, encode_client_order_id h n = Ok id /\ String.length id = 35%nat
    /\ decode_client_order_id id = Ok {| ct_intent_id := h; ct_sequence := n |}.
Proof.
  intros H Hn. destruct (pad_two n Hn) as (L & D & V).
  assert (HL : String.length h = 32%nat) by (unfold uuid_digits in H; bprop; by apply Nat.eqb_eq).
  exists ("B" +:+ h +:+ pad 2 n). unfold encode_client_order_id.
  assert (((n <? 0) || (99 <? n)) = false) as -> by lia.
  assert (LL : String.length ("B" +:+ h +:+ pad 2 n) = 35%nat) by (rewrite !slength_app, HL, L; done).
  split_and!; [done..|]. unfold decode_client_order_id. rewrite LL.
  change (String.substring 1 32 ("B" +:+ h +:+ pad 2 n)) with (String.substring 0 32 (h +:+ pad 2 n)).
  change (String.substring 33 2 ("B" +:+ h +:+ pad 2 n)) with (String.substring 32 2 (h +:+ pad 2 n)).
  rewrite substring_app_l by done.
  pose proof (substring_app_r 32 h (pad 2 n) HL) as R. rewrite L in R. rewrite R.
  change (negb (35 =? 35)%nat || negb (starts_with "B" ("B" +:+ h +:+ pad 2 n))) with false. cbn match.
  rewrite D. destruct (pad 2 n) eqn:E; [discriminate L|]. cbn [is_empty negb orb]. rewrite <- E in *.
  unfold uuid_of. rewrite (uuid_hex_digits h H). cbn. by rewrite V.
Qed.

(** The client order id of an intent and a sequence number up to 99 has 35
    characters, below the exchange's limit of 36, and decodes to exactly that
    intent and that number. *)
Theorem client_order_id_roundtrip h n :
  uuid_digits h = true -> 0 <= n <= 99 ->
  exists id, encode_client_order_id h n = Ok id /\ String.length id = 35%nat
    /\ decode_client_order_id id = Ok {| ct_intent_id := h; ct_sequence := n |}.
Proof. apply encoded_id. Qed.

Lemma client_order_id_roundtrip_witness :
  exists id, encode_client_order_id "0123456789abcdef0123456789abcdef" 7 = Ok id
    /\ decode_client_order_id id
       = Ok {| ct_intent_id := "0123456789abcdef0123456789abcdef"; ct_sequence := 7 |}.
Proof.
  destruct (client_order_id_roundtrip "0123456789abcdef0123456789abcdef" 7) as (id & E & _ & D);
    [reflexivity | lia|]. by exists id.
Defined.

(** ** Rounding to the increment *)

Lemma scale_err n a s :
  (0 < s)%Q -> (Qabs (inject_Z n - a / s) <= (1 # 2) + eps * (a / s))%Q ->
  (Qabs (inject_Z n * s - a) <= (1 # 2) * s + eps * a)%Q.
Proof.
  intros S H. setoid_replace (inject_Z n * s - a)%Q with ((inject_Z n - a / s) * s)%Q
    using relation Qeq by (field; lra).
  rewrite Qabs_Qmult, (Qabs_pos s) by lra.
  eapply Qle_trans; [apply Qmult_le_compat_r; [exact H | lra]|].
  apply Qle_lteq. right. field. lra.
Qed.

Lemma round_to_increment_inv amount increment text :
  round_to_increment amount increment = Ok text ->
  exists step n, to_xdec (PStr increment) = Some (XFin step) /\ (0 < dval step)%Q /\ (0 < dval amount)%Q
    /\ text = format_f (Dec (n * coef step) (dexp step))
    /\ (Qabs (inject_Z n * dval step - dval amount) <= (1 # 2) * dval step + eps * dval amount)%Q.
Proof.
  unfold round_to_increment. intros H. destruct (to_xdec (PStr increment)) as [step|] eqn:E; [|done].
  destruct (dleb amount dzero) eqn:A; [discriminate H|]. apply dleb_gt in A.
  destruct step as [step|[]|]; [|discriminate H..]. rewrite xleb_fin in H.
  cbn [mbind result_bind] in H. destruct (dleb step dzero) eqn:S; [discriminate H|]. apply dleb_gt in S.
  change (dval dzero) with (0 * pow10 0)%Q in A, S. rewrite Qmult_0_l in A, S. run_inv.
  match goal with
  | H1 : ddiv _ _ = Ok ?r, H2 : quantize ROUND_HALF_UP ?r _ = Ok ?w, H3 : quantize _ _ step = Ok ?t |- _ =>
    rename r into ratio, w into whole, t into snapped, H1 into D, H2 into Q, H3 into P end.
  assert (W : dexp whole = 0) by (apply quantize_exp in Q; done).
  destruct whole as [n e]. cbn in W. subst e. unfold dmul in P. cbn [coef dexp] in P.
  apply quantize_fix28 in P as ->; [|done]. apply quantize_half_up_err in Q. apply ddiv_approx in D.
  exists step, n. split_and!; [done..|]. unfold dval at 1 in Q. cbn [coef dexp] in Q.
  change (pow10 (dexp dec_one)) with 1%Q in Q. change (pow10 0) with 1%Q in Q. rewrite !Qmult_1_r in Q.
  apply scale_err; [done|]. unfold approx in D.
  assert (0 <= dval amount / dval step)%Q by (apply Qle_shift_div_l; lra).
  rewrite (Qabs_pos (dval amount / dval step)) in D by done.
  apply Qabs_Qle_condition in Q, D. apply Qabs_Qle_condition. lra.
Qed.

Lemma quantize_raises mode d q e : quantize mode d q = Raise e -> e = InvalidOperation.
Proof. unfold quantize. case_match; congruence. Qed.

(** A rounded price or quantity is the text of an exact integer multiple of
    the instrument's increment, within half an increment of the value it was
    given (up to the 28-digit rounding of the quotient).  It is refused only
    for a value or an increment that is not a positive number, or with
    [InvalidOperation] when the result needs more than 28 digits. *)
Theorem round_to_increment_nearest amount increment :
  match round_to_increment amount increment with
  | Ok text => exists step n d,
      to_xdec (PStr increment) = Some (XFin step) /\ (0 < dval step)%Q /\ (0 < dval amount)%Q
      /\ parse_dec text = Some (XFin d) /\ (dval d == inject_Z n * dval step)%Q
      /\ (Qabs (dval d - dval amount) <= (1 # 2) * dval step + eps * dval amount)%Q
  | Raise e =>
      (0 < dval amount)%Q ->
      forall step, to_xdec (PStr increment) = Some (XFin step) -> (0 < dval step)%Q -> e = InvalidOperation
  end.
Proof.
  destruct (round_to_increment amount increment) as [text|e] eqn:H.
  - apply round_to_increment_inv in H as (step & n & E & S & A & -> & B).
    destruct (parse_format_f (Dec (n * coef step) (dexp step))) as (d & P & V).
    assert (V' : (dval d == inject_Z n * dval step)%Q).
    { unfold equiv, dec_equiv in V. rewrite V. unfold dval. cbn [coef dexp]. rewrite inject_Z_mult. ring. }
    exists step, n, d. split_and!; [done..|]. by rewrite V'.
  - intros A step E S. unfold round_to_increment in H. rewrite E in H.
    assert (dleb amount dzero = false /\ dleb step dzero = false) as [L1 L2].
    { split; apply dleb_gt; change (dval dzero) with (0 * pow10 0)%Q; lra. }
    rewrite L1, xleb_fin in H. cbn [mbind result_bind] in H. rewrite L2 in H.
    destruct (ddiv_total amount step ltac:(lra)) as [r R]. rewrite R in H. cbn [mbind result_bind] in H.
    destruct (quantize ROUND_HALF_UP r dec_one) as [w|e'] eqn:Q; cbn [mbind result_bind] in H.
    + destruct (quantize _ _ step) eqn:P; [discriminate H|]. injection H as <-. by eapply quantize_raises.
    + injection H as <-. by eapply quantize_raises.
Qed.

(** ** Ladders *)

Lemma uuid_of_digits value h : uuid_of value = Ok h -> uuid_digits h = true.
Proof.
  unfold uuid_of, uuid_hex, uuid_digits. intros H.
  set (x := lower _) in H. by destruct ((String.length x =? 32)%nat && sforall is_hex x) eqn:E; simplify_eq.
Qed.

(** The running total the loop keeps, read from the plans. *)
Fixpoint plans_total (total : xdec) (plans : list OrderPlan) : result xdec :=
  match plans with
  | [] => Ok total
  | p :: plans =>
      q ← decimal_of (PStr (op_quantity p));
      total ← xadd total q;
      plans_total total plans
  end.

(** What every order of a ladder has in common. *)
Definition closes (intent : string) (position : PositionProtectionSnapshot) (p : OrderPlan) : Prop :=
  op_reduce_only p = true /\ op_side p = exit_side (pp_side position)
  /\ op_order_type p = "LIMIT_IF_TOUCHED" /\ op_intent_id p = intent /\ op_trigger_price p = op_price p.

Lemma ladder_spec intent a i position stop instrument index total targets total' plans :
  uuid_digits intent = true ->
  ladder intent a i position stop instrument index total targets = Ok (Granted (total', plans)) ->
  Forall (closes intent position) plans /\ length plans = length targets
  /\ plans_total total plans = Ok total'
  /\ forall k p, plans !! k = Some p ->
       decode_client_order_id (op_client_order_id p)
       = Ok {| ct_intent_id := intent; ct_sequence := index + Z.of_nat k |}.
Proof.
  intros U. revert index total plans. induction targets as [|t targets IH]; intros index total plans H;
    cbn [ladder] in H.
  - apply ok_inj in H. injection H as -> <-. by split_and!.
  - run_inv. destruct x as [|quantity]; [discriminate H|]. run_inv.
    destruct (target_price position stop t) as [|trigger]; [discriminate H|]. run_inv.
    match type of H with (match ?x with _ => _ end) = _ => destruct x as [|[total1 rest]]; [discriminate H|] end.
    apply ok_inj in H. injection H as -> <-.
    match goal with G : ladder _ _ _ _ _ _ _ _ _ = _ |- _ => apply IH in G as (F & L & T & D) end.
    match goal with En : encode_client_order_id _ _ = Ok ?c |- _ => rename En into EN, c into cid end.
    assert (Hi : 0 <= index <= 99)
      by (unfold encode_client_order_id in EN; destruct (_ || _) eqn:B in EN; [discriminate EN|lia]).
    destruct (encoded_id intent index U Hi) as (id & E1 & _ & E2).
    rewrite E1 in EN. apply ok_inj in EN as <-.
    split_and!; [by constructor | cbn; by rewrite L | |].
    + cbn [plans_total take_profit_plan op_quantity].
      repeat match goal with H : ?m = Ok _ |- context [?m] => rewrite H; cbn [mbind result_bind] end. done.
    + intros [|k] p Hk; cbn in Hk; [simplify_eq; by rewrite Z.add_0_r|].
      rewrite (D k p Hk). do 2 f_equal. lia.
Qed.

(** A take-profit ladder that is granted has one reduce-only order per
    target, all on the closing side, under client order ids that are pairwise
    different and decode to the intent; and the total of the quantities it
    sends, read back from their texts, is within the position. *)
Theorem ladder_within_position intent_id a i position stop targets instrument plans :
  build_take_profit_ladder intent_id a i position stop targets instrument = Ok (Granted plans) ->
  exists intent total,
    uuid_of intent_id = Ok intent /\ length plans = length targets /\ Forall (closes intent position) plans
    /\ NoDup (map op_client_order_id plans)
    /\ plans_total (XFin dzero) plans = Ok total /\ xltb (XFin (pp_quantity position)) total = Ok false.
Proof.
  unfold build_take_profit_ladder. intros H. destruct targets as [|t targets]; [discriminate H|]. run_inv.
  match goal with U : uuid_of _ = Ok ?h |- _ => rename h into intent, U into HU end.
  match type of H with (match ?x with _ => _ end) = _ => destruct x as [|[total ps]]; [discriminate H|] end.
  run_inv. match type of H with (if ?b then _ else _) = _ => destruct b; [discriminate H|] end.
  apply ok_inj in H. injection H as <-.
  match goal with G : ladder _ _ _ _ _ _ _ _ _ = _ |- _ =>
    apply ladder_spec in G as (F & L & T & D); [|by eapply uuid_of_digits] end.
  exists intent, total. split_and!; [done..| |done|done].
  apply NoDup_alt. intros j k c Hj Hk. rewrite list_lookup_fmap in Hj, Hk.
  destruct (ps !! j) as [p|] eqn:Ej, (ps !! k) as [q|] eqn:Ek; try done.
  cbn in Hj, Hk. injection Hj as Hj. injection Hk as Hk. apply D in Ej, Ek.
  rewrite Hk, <- Hj, Ej in Ek. injection Ek. lia.
Qed.

Definition sample_position : PositionProtectionSnapshot :=
  {| pp_position_key := "acct:BTCUSDT"; pp_side := "long"; pp_quantity := Dec 5 (-1);
     pp_entry_price := Some (Dec 60000 0) |}.

Definition sample_instrument : InstrumentSpec :=
  {| is_instrument_id := "BTCUSDT-PERP"; is_price_increment := "0.1"; is_quantity_increment := "0.001" |}.

Definition sample_target (r f : dec) : TakeProfitTarget :=
  {| tt_price := None; tt_r_multiple := Some r; tt_fraction := Some f; tt_quantity := None;
     tt_time_in_force := "GTC" |}.

Lemma ladder_within_position_witness :
  exists plans total,
    build_take_profit_ladder "01234567-89ab-cdef-0123-456789abcdef" "acct" "BTCUSDT-PERP" sample_position
      (Dec 59000 0) [sample_target (Dec 1 0) (Dec 5 (-1)); sample_target (Dec 2 0) (Dec 5 (-1))]
      sample_instrument = Ok (Granted plans)
    /\ plans_total (XFin dzero) plans = Ok total /\ xltb (XFin (Dec 5 (-1))) total = Ok false.
Proof.
  destruct (build_take_profit_ladder "01234567-89ab-cdef-0123-456789abcdef" "acct" "BTCUSDT-PERP" sample_position
      (Dec 59000 0) [sample_target (Dec 1 0) (Dec 5 (-1)); sample_target (Dec 2 0) (Dec 5 (-1))]
      sample_instrument) as [[|plans]|] eqn:E; [vm_compute in E; discriminate E| |vm_compute in E; discriminate E].
  destruct (ladder_within_position _ _ _ _ _ _ _ _ E) as (intent & total & _ & _ & _ & _ & T & B).
  exists plans, total. split; [reflexivity|]. by split.
Defined.
