(* ===== verification/Trailing.v ===== *)
(** * Trailing: the application-side trailing stop

    Models order_management/trailing_stop.py.  Prices, rates and steps are
    finite decimals; [total_seconds()] is compared on microseconds. *)

From Stdlib Require Import ZArith Lia QArith Lqa.
From stdpp Require Import relations.
From S2P Require Import Prelude Decimal PyString DecText PyValue PyTime Store OrderPlans.
Open Scope string_scope.
Open Scope Z_scope.

Record AppTrailingConfig := {
  tc_callback_rate : dec;
  tc_min_step : dec;
  tc_update_interval_seconds : Z }.

Record AppTrailingState := {
  ts_side : string;
  ts_high_watermark : option dec;
  ts_low_watermark : option dec;
  ts_stop_price : dec;
  ts_last_updated_at : option datetime }.

Record TrailingDecision := {
  td_action : string;
  td_reason : string;
  td_stop_price : dec;
  td_high_watermark : option dec;
  td_low_watermark : option dec }.

(** [_rate_limited] *)
Definition rate_limited (last_updated_at : option datetime) (now : datetime) (seconds_ : Z) : bool :=
  match last_updated_at with
  | None => false
  | Some last => aware now - aware last <? seconds seconds_
  end.

(** [watermark or current]: a zero watermark counts as absent. *)
Definition mark_or (watermark : option dec) (current : dec) : dec :=
  match watermark with
  | Some d => if dis_zero d then current else d
  | None => current
  end.

Definition cent : dec := Dec 1 (-2).

(** [TrailingStopController.evaluate] *)
Definition evaluate (config : AppTrailingConfig) (state : AppTrailingState) (current : dec)
    (price_stale data_connected : bool) (now : datetime) : result TrailingDecision :=
  let decision action reason stop high low :=
    {| td_action := action; td_reason := reason; td_stop_price := stop; td_high_watermark := high;
       td_low_watermark := low |} in
  let stop := ts_stop_price state in
  let limited := rate_limited (ts_last_updated_at state) now (tc_update_interval_seconds config) in
  if price_stale || negb data_connected then
    Ok (decision "blocked" "market_data_unavailable" stop (ts_high_watermark state) (ts_low_watermark state))
  else if is_long (ts_side state) then
    let high := dmax (mark_or (ts_high_watermark state) current) current in
    let answer action reason stop := decision action reason stop (Some high) (ts_low_watermark state) in
    desired ← quantize ROUND_HALF_UP (high * (dec_one - tc_callback_rate config))%dec cent;
    if dleb desired stop then Ok (answer "hold" "never_loosen" stop)
    else if dltb (desired - stop)%dec (tc_min_step config) then Ok (answer "hold" "min_step_not_reached" stop)
    else if limited then Ok (answer "wait" "rate_limited" stop)
    else Ok (answer "update" "trail_advanced" desired)
  else
    let low := dmin (mark_or (ts_low_watermark state) current) current in
    let answer action reason stop := decision action reason stop (ts_high_watermark state) (Some low) in
    desired ← quantize ROUND_HALF_UP (low * (dec_one + tc_callback_rate config))%dec cent;
    if dleb stop desired then Ok (answer "hold" "never_loosen" stop)
    else if dltb (stop - desired)%dec (tc_min_step config) then Ok (answer "hold" "min_step_not_reached" stop)
    else if limited then Ok (answer "wait" "rate_limited" stop)
    else Ok (answer "update" "trail_advanced" desired).

(** ** Following a market

    The state a caller keeps between evaluations: the stop and the watermarks
    of the last decision, and the time of the last update. *)
Definition remember (state : AppTrailingState) (d : TrailingDecision) (now : datetime) : AppTrailingState := {|
  ts_side := ts_side state;
  ts_high_watermark := td_high_watermark d;
  ts_low_watermark := td_low_watermark d;
  ts_stop_price := td_stop_price d;
  ts_last_updated_at := if String.eqb (td_action d) "update" then Some now else ts_last_updated_at state |}.

Inductive follows (config : AppTrailingConfig) (st : AppTrailingState) : AppTrailingState -> Prop :=
  | follows_tick current stale connected now d :
      evaluate config st current stale connected now = Ok d ->
      follows config st (remember st d now).

(** The stop [b] protects at least as much as the stop [a]. *)
Definition tighter (side : string) (a b : dec) : Prop :=
  if is_long side then (dval a <= dval b)%Q else (dval b <= dval a)%Q.

Lemma tighter_refl side a : tighter side a a.
Proof. unfold tighter. case_match; apply Qle_refl. Qed.

Lemma tighter_trans side a b c : tighter side a b -> tighter side b c -> tighter side a c.
Proof. unfold tighter. case_match; intros; eapply Qle_trans; eauto. Qed.

(** One evaluation: the stop is kept, or it moves towards the market by at
    least the minimum step, at least the interval after the last move. *)
Definition moved (config : AppTrailingConfig) (st : AppTrailingState) (now : datetime) (stop : dec) : Prop :=
  tighter (ts_side st) (ts_stop_price st) stop
  /\ ~ (dval stop == dval (ts_stop_price st))%Q
  /\ dltb (if is_long (ts_side st) then stop - ts_stop_price st else ts_stop_price st - stop)%dec
          (tc_min_step config) = false
  /\ rate_limited (ts_last_updated_at st) now (tc_update_interval_seconds config) = false.

Lemma evaluate_step config st current stale connected now d :
  evaluate config st current stale connected now = Ok d ->
  (td_action d <> "update" /\ td_stop_price d = ts_stop_price st)
  \/ (td_action d = "update" /\ stale = false /\ connected = true
      /\ moved config st now (td_stop_price d)).
Proof.
  unfold evaluate. intros H. destruct stale, connected; cbn [orb negb] in H;
    try (apply ok_inj in H; subst; by left).
  destruct (is_long (ts_side st)) eqn:L; run_inv;
    repeat match type of H with (if ?b then _ else _) = _ => destruct b eqn:?; [apply ok_inj in H; subst; by left|] end;
    apply ok_inj in H; subst; right; (split_and!; [done..|]); unfold moved, tighter; rewrite L;
    repeat match goal with H : dleb _ _ = false |- _ => apply dleb_gt in H end; cbn;
    (split_and!; [lra | lra | done | done]).
Qed.

(** However the market moves, a trailing stop is never loosened: after any
    sequence of evaluations, outages included, the stop of a long position is
    at least, and that of a short position at most, what it was. *)
Theorem trailing_never_loosens config st st' :
  rtc (follows config) st st' ->
  ts_side st' = ts_side st /\ tighter (ts_side st) (ts_stop_price st) (ts_stop_price st').
Proof.
  induction 1 as [st|st st1 st2 F _ [S T]]; [split; [done | apply tighter_refl]|].
  destruct F as [current stale connected now d E]. cbn in S, T. split; [done|].
  eapply tighter_trans; [|exact T].
  apply evaluate_step in E as [[_ ->]|(_ & _ & _ & M & _)]; [apply tighter_refl | exact M].
Qed.

(** The stop moves only on fresh data, by at least the minimum step, and at
    least the update interval after the previous move; the distance it then
    keeps is the callback rate of the best price seen, to the cent. *)
Theorem trailing_moves config st current stale connected now d :
  evaluate config st current stale connected now = Ok d ->
  td_stop_price d <> ts_stop_price st ->
  stale = false /\ connected = true /\ moved config st now (td_stop_price d)
  /\ exists best, (if is_long (ts_side st) then td_high_watermark d else td_low_watermark d) = Some best
       /\ tighter (ts_side st) current best
       /\ quantize ROUND_HALF_UP
            (best * (if is_long (ts_side st) then dec_one - tc_callback_rate config
                     else dec_one + tc_callback_rate config))%dec cent = Ok (td_stop_price d).
Proof.
  intros E N. pose proof (evaluate_step _ _ _ _ _ _ _ E) as [[_ K]|(A & -> & -> & M)]; [done|].
  split_and!; [done..|]. unfold evaluate in E. cbn [orb negb] in E. unfold tighter.
  destruct (is_long (ts_side st)); run_inv;
    repeat match type of E with (if ?b then _ else _) = _ => destruct b; [apply ok_inj in E; subst; done|] end;
    apply ok_inj in E; subst; cbn; (eexists; split_and!; [done| |done]).
  - apply dmax_ub.
  - apply dmin_lb.
Qed.

Definition sample_trailing : AppTrailingConfig * AppTrailingState :=
  ({| tc_callback_rate := Dec 1 (-2); tc_min_step := dzero; tc_update_interval_seconds := 10 |},
   {| ts_side := "LONG"; ts_high_watermark := None; ts_low_watermark := None;
      ts_stop_price := Dec 100 0; ts_last_updated_at := None |}).

Lemma trailing_never_loosens_witness :
  exists st', follows (fst sample_trailing) (snd sample_trailing) st' /\ ts_stop_price st' = Dec 10890 (-2)
    /\ tighter "LONG" (Dec 100 0) (Dec 10890 (-2)).
Proof.
  destruct (evaluate (fst sample_trailing) (snd sample_trailing) (Dec 110 0) false true (utc 0)) as [d|] eqn:E;
    [|vm_compute in E; discriminate E].
  assert (F := follows_tick _ _ _ _ _ _ _ E). eexists. split; [exact F|].
  assert (S : td_stop_price d = Dec 10890 (-2)) by (vm_compute in E; injection E as <-; reflexivity).
  split; [exact S|]. rewrite <- S. exact (proj2 (trailing_never_loosens _ _ _ (rtc_once _ _ F))).
Defined.

Lemma trailing_moves_witness :
  exists d, evaluate (fst sample_trailing) (snd sample_trailing) (Dec 110 0) false true (utc 0) = Ok d
    /\ moved (fst sample_trailing) (snd sample_trailing) (utc 0) (td_stop_price d).
Proof.
  destruct (evaluate (fst sample_trailing) (snd sample_trailing) (Dec 110 0) false true (utc 0)) as [d|] eqn:E;
    [|vm_compute in E; discriminate E].
  exists d. split; [reflexivity|]. apply (trailing_moves _ _ _ _ _ _ _ E).
  vm_compute in E. injection E as <-. discriminate.
Defined.
