(* ===== verification/Protection.v ===== *)
(** * Protection: installing stops and moving them to break-even

    Models order_management/protection_manager.py and
    order_management/breakeven.py.  The submitter that talks to the exchange
    and the alert sink are parameters. *)

From Stdlib Require Import ZArith Lia QArith Lqa.
From S2P Require Import Prelude Decimal PyString DecText PyValue PyTime Identifiers Store OrderReducer PositionReducer Sha256 OrderPlans External Exits.
Open Scope string_scope.
Open Scope Z_scope.

(** ** protection_manager.py *)

Record ProtectionParties (X : Type) := {
  submit_stop : OrderPlan -> M X dict;
  alert_sink : option (dict -> M X unit) }.
Arguments submit_stop {X}.
Arguments alert_sink {X}.

Record ProtectionInstallRequest := {
  pi_account_id : string;
  pi_position_key : string;
  pi_intent_id : string;
  pi_stop : StopProtectionSpec;
  pi_instrument : InstrumentSpec;
  pi_entry_filled_at : datetime;
  pi_now : datetime;
  pi_threshold_seconds : Z }.

Record ProtectionInstallResult := {
  ir_status : string;
  ir_position_key : string;
  ir_client_order_id : option string;
  ir_risk_mode : option string;
  ir_reason : option string }.

(** [_load_position] *)
Definition load_position (account_id position_key : string) : M Conn (option position_row) :=
  select (fun d => positions_projection d !! (account_id, position_key)).

(** The CHECK constraints of protective_orders_projection. *)
Definition protective_checks (r : protective_row) : bool :=
  from_option (pg_leb (XFin dzero)) true (pr_quantity r)
  && from_option (fun p => negb (pg_leb p (XFin dzero))) true (pr_price r)
  && from_option (fun p => negb (pg_leb p (XFin dzero))) true (pr_trigger_price r).

(** [Decimal(text)] of a plan's number, written to a numeric column. *)
Definition plan_column (text : string) : result xdec := pg_numeric <$> decimal_of (PStr text).

(** The entry price the plan needs when the stop is given as a distance. *)
Definition snapshot_entry (avg : option xdec) (stop : StopProtectionSpec) : result (option dec) :=
  match avg with
  | None => Ok None
  | Some x =>
      match is_finite x with
      | Some d => Ok (Some d)
      | None =>
          match sp_trigger_price stop, sp_distance_pct stop with
          | None, Some _ => Raise InvalidOperation
          | _, _ => Ok None
          end
      end
  end.

(** The stop planned for a position, and the ways planning raises. *)
Definition planned_stop (request : ProtectionInstallRequest) (position : position_row) : result OrderPlan :=
  quantity ← finite (po_quantity position);
  entry ← snapshot_entry (po_avg_entry_price position) (pi_stop request);
  build_stop_order_plan (pi_intent_id request) (pi_account_id request) (po_instrument_id position)
    {| pp_position_key := pi_position_key request; pp_side := po_side position;
       pp_quantity := quantity; pp_entry_price := entry |}
    (pi_stop request) (pi_instrument request) 1.

(** The instrument a failure restricts: the position's, else the request's. *)
Definition failed_instrument (request : ProtectionInstallRequest) (position : option position_row) : string :=
  canonical_instrument_key
    (match position with
     | Some r => if is_empty (po_instrument_id r) then is_instrument_id (pi_instrument request)
                 else po_instrument_id r
     | None => is_instrument_id (pi_instrument request)
     end).

Section manager.
Context {X : Type} (parties : ProtectionParties X) (failure_mode : string).

(** [ProtectionManager._fail] *)
Definition fail (request : ProtectionInstallRequest) (reason : string) (error : option string)
    : M (X * Conn) ProtectionInstallResult :=
  position ← on_conn (load_position (pi_account_id request) (pi_position_key request));
  let instrument_id := failed_instrument request position in
  let payload := [("type", PStr reason); ("position_key", PStr (pi_position_key request));
                  ("intent_id", PStr (pi_intent_id request))] in
  let payload := match error with Some e => dset "error" (PStr e) payload | None => payload end in
  _ ← on_conn (transaction (
        _ ← set_mode (pi_account_id request) instrument_id failure_mode;
        record_reconciliation_finding (pi_account_id request) reason "critical" payload
          (Some (pi_position_key request)) None None "protection_manager"));
  _ ← match alert_sink parties with
      | Some sink => on_external (sink payload)
      | None => mret tt
      end;
  mret {| ir_status := "failed"; ir_position_key := pi_position_key request; ir_client_order_id := None;
          ir_risk_mode := Some failure_mode; ir_reason := Some reason |}.

(** The writes of a submitted stop: the old one is replaced by the new one. *)
Definition record_stop (request : ProtectionInstallRequest) (instrument_id client_order_id : string)
    (submitted : dict) (plan : OrderPlan) : M Conn unit :=
  _ ← deactivate_protection (pi_account_id request) (pi_position_key request) (is_role "stop_loss") "replaced";
  id ← uuid4;
  venue_order_id ← mlift (text_col (dget "venue_order_id" submitted));
  status ← mlift (text_col (default (PStr "submitted") (dlookup "status" submitted)));
  _ ← check (match status with Some _ => true | None => false end) "protective_orders_projection.status";
  quantity ← mlift (plan_column (op_quantity plan));
  price ← mlift (match op_price plan with Some p => Some <$> plan_column p | None => Ok None end);
  trigger ← mlift (match op_trigger_price plan with Some p => Some <$> plan_column p | None => Ok None end);
  now ← get_now;
  let row := {|
    pr_id := id; pr_account_id := pi_account_id request; pr_position_key := pi_position_key request;
    pr_venue_symbol := canonical_instrument_key instrument_id; pr_lifecycle_role := "stop_loss";
    pr_client_order_id := Some client_order_id; pr_venue_order_id := venue_order_id;
    pr_status := default "" status; pr_active := true; pr_quantity := Some quantity; pr_price := price;
    pr_trigger_price := trigger; pr_updated_at := now;
    pr_payload := [("intent_id", PStr (pi_intent_id request)); ("source", PStr "protection_manager")] |} in
  _ ← check (protective_checks row) "ck_protective_orders";
  execute (set_protective_orders (fun t => (t ++ [row])%list)).

(** [ProtectionManager.install_after_entry_fill] *)
Definition install_after_entry_fill (request : ProtectionInstallRequest)
    : M (X * Conn) ProtectionInstallResult :=
  if seconds (pi_threshold_seconds request) <? aware (pi_now request) - aware (pi_entry_filled_at request)
  then fail request "protection_install_timeout" None else
  position ← on_conn (load_position (pi_account_id request) (pi_position_key request));
  match position with
  | None => fail request "position_missing" None
  | Some position =>
      flat ← mlift (xleb (po_quantity position) (XFin dzero));
      if flat : bool then fail request "position_flat" None else
      plan ← mlift (planned_stop request position);
      submitted ← try_except (d ← on_external (submit_stop parties plan); mret (inl d))
                    (fun e => mret (inr e));
      match submitted with
      | inr e => fail request "protection_install_failed" (Some (exn_repr e))
      | inl submitted =>
          let client_order_id :=
            py_str (py_or (dget "client_order_id" submitted) (PStr (op_client_order_id plan))) in
          _ ← on_conn (transaction
                (record_stop request (po_instrument_id position) client_order_id submitted plan));
          mret {| ir_status := "submitted"; ir_position_key := pi_position_key request;
                  ir_client_order_id := Some client_order_id; ir_risk_mode := None; ir_reason := None |}
      end
  end.

End manager.

(** ** breakeven.py *)

Record BreakevenConfig := { be_trigger_r : dec; be_offset_bps : dec; be_fee_buffer_bps : dec }.

Record BreakevenResult := { br_action : string; br_reason : string; br_trigger_price : option xdec }.

(** [_load_position]: a position without an entry price counts as missing. *)
Definition load_entry (account_id position_key : string) : M Conn (option (string * xdec)) :=
  row ← load_position account_id position_key;
  mret (match row with
        | Some r => (fun e => (po_side r, e)) <$> po_avg_entry_price r
        | None => None
        end).

(** [_load_active_stop]: a stop without a trigger price counts as missing. *)
Definition load_active_stop (account_id position_key : string)
    : M Conn (option (protective_row * xdec)) :=
  row ← select (fun d => find (protects account_id position_key (is_role "stop_loss")) (protective_orders d));
  mret (match row with
        | Some r => (fun t => (r, t)) <$> pr_trigger_price r
        | None => None
        end).

(** [_triggered] *)
Definition triggered (side : string) (entry risk market trigger_r : dec) : bool :=
  if String.eqb (lower side) "long" then dleb (entry + risk * trigger_r)%dec market
  else dleb market (entry - risk * trigger_r)%dec.

(** [_breakeven_price] *)
Definition breakeven_price (side : string) (entry : dec) (config : BreakevenConfig) : result dec :=
  bps ← ddiv (be_offset_bps config + be_fee_buffer_bps config)%dec (Dec 10000 0);
  quantize ROUND_HALF_UP
    (entry * (if String.eqb (lower side) "long" then dec_one + bps else dec_one - bps))%dec (Dec 1 (-2)).

(** [SET trigger_price=%s, payload=payload || %s::jsonb, updated_at=now()] *)
Definition move_to (target : dec) (applied_at : string) (now : Z) (r : protective_row) : protective_row := {|
  pr_id := pr_id r; pr_account_id := pr_account_id r; pr_position_key := pr_position_key r;
  pr_venue_symbol := pr_venue_symbol r; pr_lifecycle_role := pr_lifecycle_role r;
  pr_client_order_id := pr_client_order_id r; pr_venue_order_id := pr_venue_order_id r;
  pr_status := pr_status r; pr_active := pr_active r; pr_quantity := pr_quantity r; pr_price := pr_price r;
  pr_trigger_price := Some (pg_numeric (XFin target)); pr_updated_at := now;
  pr_payload := dupdate (pr_payload r)
    [("breakeven_applied", PBool true); ("breakeven_applied_at", PStr applied_at)] |}.

(** [v is True] *)
Definition is_true (v : pyval) : bool := match v with PBool true => true | _ => false end.

Section breakeven.
Context {X : Type} (move_stop : dict -> M X unit).

(** [BreakevenManager.evaluate_and_apply]; [now_text] is [now.isoformat()]. *)
Definition evaluate_and_apply (account_id position_key : string) (market_price : dec) (price_stale : bool)
    (config : BreakevenConfig) (now_text : string) : M (X * Conn) BreakevenResult :=
  let answer action reason price :=
    {| br_action := action; br_reason := reason; br_trigger_price := price |} in
  if price_stale then mret (answer "blocked" "market_data_stale" None) else
  transaction_in (
    position ← on_conn (load_entry account_id position_key);
    stop ← on_conn (load_active_stop account_id position_key);
    match position, stop with
    | Some (side, entry), Some (stop, current_stop) =>
        if is_true (dget "breakeven_applied" (pr_payload stop))
        then mret (answer "already_applied" "breakeven_already_applied" (Some current_stop)) else
        difference ← mlift (xsub entry current_stop);
        invalid ← mlift (xleb (xabs difference) (XFin dzero));
        if invalid : bool then mret (answer "blocked" "invalid_initial_risk" None) else
        entry ← mlift (finite entry);
        risk ← mlift (finite (xabs difference));
        if negb (triggered side entry risk market_price (be_trigger_r config))
        then mret (answer "wait" "trigger_not_reached" None) else
        target ← mlift (breakeven_price side entry config);
        _ ← on_external (move_stop [
              ("account_id", PStr account_id); ("position_key", PStr position_key);
              ("client_order_id", opt_str (pr_client_order_id stop));
              ("trigger_price", PDec (XFin target)); ("reason", PStr "breakeven");
              ("applied_at", PStr now_text)]);
        now ← on_conn get_now;
        _ ← on_conn (check (negb (pg_leb (pg_numeric (XFin target)) (XFin dzero)))
                           "ck_protective_orders_trigger_price");
        _ ← on_conn (execute (set_protective_orders (update_row (pr_id stop) (move_to target now_text now))));
        mret (answer "applied" "breakeven_applied" (Some (XFin target)))
    | _, _ => mret (answer "blocked" "position_or_stop_missing" None)
    end).

End breakeven.

(** ** Lemmas *)

Lemma filter_none {A} (f : A -> bool) l : existsb f l = false -> List.filter f l = [].
Proof. induction l as [|x l IH]; cbn; [done|]. intros H. bprop. rewrite H. by apply IH. Qed.

Lemma record_finding_inv a t sv p pk op rr reason s f s' :
  record_reconciliation_finding a t sv p pk op rr reason s = (Ok f, s') ->
  fi_account_id f = a /\ fi_finding_type f = t /\ fi_severity f = sv /\ fi_position_key f = pk
  /\ f ∈ reconciliation_findings (current s')
  /\ protective_orders (current s') = protective_orders (current s)
  /\ positions_projection (current s') = positions_projection (current s)
  /\ risk_state (current s') = risk_state (current s).
Proof.
  unfold record_reconciliation_finding, create_reconciliation_run. intros H. run_inv.
  match goal with |- context [reconciliation_findings (current s')] => idtac end.
  destruct (str_or rr None); run_inv; run_frame; split_and!; try done;
    apply elem_of_app; right; by apply list_elem_of_singleton.
Qed.

Lemma set_mode_inv a i m s u s' :
  set_mode a i m s = (Ok u, s') ->
  str_in m VALID_MODES = true /\ mode_in (current s') a i = m
  /\ protective_orders (current s') = protective_orders (current s)
  /\ positions_projection (current s') = positions_projection (current s).
Proof.
  intros H. destruct (str_in m VALID_MODES) eqn:V.
  - destruct (set_mode_get a i m s V) as (s1 & E & G & _). rewrite H in E. injection E as _ ->.
    split_and!; [done..| |]; unfold set_mode in H; rewrite V in H; cbn [negb] in H; run_inv; by run_frame.
  - unfold set_mode in H. by rewrite V in H.
Qed.

Lemma try_external_frame {X A} (m : M X A) (w w' : X * Conn) (r : A + exn) :
  try_except (d ← on_external m; mret (inl d)) (fun e => mret (inr e)) w = (Ok r, w') -> snd w' = snd w.
Proof.
  unfold try_except, mbind, M_bind, on_external. destruct (m (fst w)) as [[a|e] x];
    cbn; intros H; by injection H as <- <-.
Qed.

Lemma build_stop_reduces intent a i position stop instrument n p :
  build_stop_order_plan intent a i position stop instrument n = Ok p ->
  op_reduce_only p = true /\ op_side p = exit_side (pp_side position).
Proof. unfold build_stop_order_plan. destruct (negb _); [done|]. intros H. by run_inv. Qed.

Section manager_lemmas.
Context {X : Type} (parties : ProtectionParties X) (mode : string).

(** The position's instrument is restricted, with a finding, and its protective
    orders are what they were. *)
Definition closed (request : ProtectionInstallRequest) (s : Conn) (reason : string) (d : Db) : Prop :=
  protective_orders d = protective_orders (current s)
  /\ mode_in d (pi_account_id request)
       (failed_instrument request
          (positions_projection (current s) !! (pi_account_id request, pi_position_key request))) = mode
  /\ exists f, f ∈ reconciliation_findings d
       /\ fi_finding_type f = reason /\ fi_severity f = "critical"
       /\ fi_position_key f = Some (pi_position_key request).

Definition shut_down (request : ProtectionInstallRequest) (s : Conn) (r : ProtectionInstallResult) (d : Db)
  : Prop :=
  ir_status r = "failed" /\ ir_risk_mode r = Some mode
  /\ exists reason, ir_reason r = Some reason /\ closed request s reason d.

(** The position has exactly one active stop, the submitted one, for the
    planned quantity. *)
Definition installed (request : ProtectionInstallRequest) (r : ProtectionInstallResult) (d : Db) : Prop :=
  ir_status r = "submitted" /\ exists row plan q,
    List.filter (protects (pi_account_id request) (pi_position_key request) (is_role "stop_loss"))
      (protective_orders d) = [row]
    /\ pr_client_order_id row = ir_client_order_id r
    /\ op_reduce_only plan = true
    /\ decimal_of (PStr (op_quantity plan)) = Ok q /\ pr_quantity row = Some (pg_numeric q).

(** With a valid failure mode the restriction is always written. *)
Definition restriction (request : ProtectionInstallRequest) (instrument_id reason : string) (payload : dict) : M Conn finding_row :=
  _ ← set_mode (pi_account_id request) instrument_id mode;
  record_reconciliation_finding (pi_account_id request) reason "critical" payload
    (Some (pi_position_key request)) None None "protection_manager".

Lemma restriction_runs request i reason payload s :
  str_in mode VALID_MODES = true ->
  exists f s', restriction request i reason payload s = (Ok f, s')
    /\ protective_orders (current s') = protective_orders (current s)
    /\ mode_in (current s') (pi_account_id request) i = mode
    /\ f ∈ reconciliation_findings (current s') /\ fi_finding_type f = reason /\ fi_severity f = "critical"
    /\ fi_position_key f = Some (pi_position_key request).
Proof.
  intros V. destruct (set_mode_get (pi_account_id request) i mode s V) as (s1 & E & G & _).
  pose proof (set_mode_inv _ _ _ _ _ _ E) as (_ & _ & P & _).
  destruct (record_reconciliation_finding (pi_account_id request) reason "critical" payload
    (Some (pi_position_key request)) None None "protection_manager" s1) as [[f|e] s2] eqn:F; [|discriminate F].
  exists f, s2. unfold restriction. rewrite (mbind_ok _ _ _ _ _ E). split; [exact F|].
  apply record_finding_inv in F as (_ & F1 & F2 & F3 & F4 & F5 & _ & F6).
  split_and!; try done; [congruence|]. unfold mode_in in *. by rewrite F6.
Qed.

Lemma fail_cases request reason error w x w' :
  str_in mode VALID_MODES = true -> fail parties mode request reason error w = (x, w') ->
  idle (snd w') /\ match x with
                   | Ok r => shut_down request (snd w) r (current (snd w'))
                   | Raise e => closed request (snd w) reason (current (snd w')) /\ alert_sink parties <> None
                   end.
Proof.
  intros V. destruct w as [y s]. unfold fail, load_position, select, on_conn, transaction, mbind, M_bind. cbn [fst snd].
  set (i := failed_instrument _ _). set (payload := match error with Some _ => _ | None => _ end).
  destruct (restriction_runs request i reason payload s V) as (f & s1 & R & R1 & R2 & R3 & R4 & R5 & R6).
  unfold restriction, mbind, M_bind in R. rewrite R. cbn [fst snd].
  assert (C : closed request s reason (current (commit s1))) by (split_and!; [done..|]; by exists f).
  destruct (alert_sink parties) as [sink|].
  - unfold on_external. cbn [fst snd]. destruct (sink payload y) as [[u|e] y']; intros [= <- <-]; cbn [snd].
    + split; [done|]. split_and!; [done..|]. by exists reason.
    + by split_and!.
  - intros [= <- <-]. cbn [snd]. split; [done|]. split_and!; [done..|]. by exists reason.
Qed.

Lemma record_stop_inv request i c d plan s u s' :
  record_stop request i c d plan s = (Ok u, s') ->
  exists row, List.filter (protects (pi_account_id request) (pi_position_key request) (is_role "stop_loss"))
                (protective_orders (current s')) = [row]
    /\ pr_client_order_id row = Some c
    /\ exists q, decimal_of (PStr (op_quantity plan)) = Ok q /\ pr_quantity row = Some (pg_numeric q).
Proof.
  unfold record_stop. intros H. run_inv.
  match goal with DP : deactivate_protection _ _ _ _ _ = _ |- _ => apply deactivate_none in DP as [D _] end.
  repeat match goal with Hc : current ?v = _ |- context [current ?v] => rewrite Hc end.
  cbn [protective_orders set_protective_orders].
  rewrite List.filter_app, (filter_none _ _ D). cbn.
  unfold protects. cbn. rewrite !String.eqb_refl. cbn.
  unfold plan_column in *.
  match goal with P : pg_numeric <$> decimal_of (PStr (op_quantity plan)) = Ok _ |- _ =>
    destruct (decimal_of (PStr (op_quantity plan))); [|discriminate P]; apply ok_inj in P as <- end.
  eexists. split; [done|]. split; [done|]. eauto.
Qed.

Lemma within_record_stop request i c d plan : within aged (record_stop request i c d plan).
Proof. unfold record_stop, deactivate_protection. within. Qed.

Lemma submit_stop_cases plan y s x w' :
  try_except (d ← on_external (submit_stop parties plan); mret (inl d)) (fun e => mret (inr e)) (y, s) = (x, w') ->
  snd w' = s /\ match x with
                | Ok (inl d) => submit_stop parties plan y = (Ok d, fst w')
                | Ok (inr e) => submit_stop parties plan y = (Raise e, fst w')
                | Raise _ => False
                end.
Proof.
  unfold try_except, mbind, M_bind, on_external. cbn [fst snd].
  destruct (submit_stop parties plan y) as [[d|e] y']; cbn; by intros [= <- <-].
Qed.

(** C28. Installing protection after a fill, on every branch.  If it returns,
    either the stop was submitted, and the committed projection has exactly one
    active stop for the position, the submitted one with the planned quantity;
    or the result is [failed], the instrument's risk mode is the failure mode,
    a critical finding is committed, and no protective order has changed.  If it
    raises, either no stop could be planned for the position, and nothing was
    sent, written or restricted; or the stop was submitted but its row could
    not be written, and the database is as before; or the installation had
    failed closed as above and the alert sink raised. *)
Theorem install_outcome request w x w' :
  str_in mode VALID_MODES = true -> idle (snd w) ->
  install_after_entry_fill parties mode request w = (x, w') ->
  let position := positions_projection (current (snd w)) !! (pi_account_id request, pi_position_key request) in
  idle (snd w') /\
  match x with
  | Ok r => installed request r (current (snd w')) \/ shut_down request (snd w) r (current (snd w'))
  | Raise e =>
      (w' = w /\ exists p, position = Some p /\ (xleb (po_quantity p) (XFin dzero) = Raise e \/ planned_stop request p = Raise e))
      \/ (current (snd w') = current (snd w) /\ exists p plan d, position = Some p /\ planned_stop request p = Ok plan
           /\ submit_stop parties plan (fst w) = (Ok d, fst w'))
      \/ (exists reason, closed request (snd w) reason (current (snd w')) /\ alert_sink parties <> None)
  end.
Proof.
  intros V I H position. destruct w as [y s]. cbn [fst snd] in *.
  match goal with |- ?G =>
    assert (CLOSE : forall reason error y1, fail parties mode request reason error (y1, s) = (x, w') -> G) end.
  { intros reason error y1 F. apply fail_cases in F as [F1 F2]; [|done]. split; [done|].
    destruct x; [by right | right; right; by exists reason]. }
  unfold install_after_entry_fill in H.
  destruct (seconds _ <? _); [by eapply CLOSE|].
  unfold load_position, select, on_conn in H. unfold mbind at 1, M_bind at 1 in H. cbn [fst snd] in H. fold position in H.
  destruct position as [p|]; [|by eapply CLOSE].
  unfold mlift in H. unfold mbind at 1, M_bind at 1 in H.
  destruct (xleb (po_quantity p) (XFin dzero)) as [[]|e] eqn:Q; [by eapply CLOSE| |].
  2:{ injection H as <- <-. split; [done|]. left. split; [done|]. exists p. by auto. }
  unfold mbind at 1, M_bind at 1 in H. destruct (planned_stop request p) as [plan|e] eqn:P.
  2:{ injection H as <- <-. split; [done|]. left. split; [done|]. exists p. by auto. }
  unfold mbind at 1, M_bind at 1 in H.
  destruct (try_except _ _ (y, s)) as [[[d|e]|e] [y1 s1]] eqn:T; apply submit_stop_cases in T as [Ts T]; cbn [fst snd] in Ts, T; subst s1;
    [|by eapply CLOSE | done].
  unfold mbind, M_bind in H. cbn [fst snd] in H.
  destruct (transaction _ s) as [[u|e] s2] eqn:R; injection H as <- <-; cbn [fst snd].
  - apply transaction_inv_ok in R as (s3 & R & ->). split; [done|]. left. split; [done|].
    apply record_stop_inv in R as (row & F & C & q & D & RQ). unfold planned_stop in P. run_inv.
    exists row, plan, q. apply build_stop_reduces in P as [? _]. by split_and!.
  - split; [match type of R with transaction ?m _ = _ => pose proof (transaction_idle m s) as J end; by rewrite R in J|]. right. left.
    destruct (transaction_undone _ _ _ _ (within_record_stop _ _ _ _ _) I R) as [E _]. split; [done|]. by exists p, plan, d.
Qed.
End manager_lemmas.

Definition sample_parties : ProtectionParties (list string) := {|
  submit_stop plan := fun x => (Ok [("status", PStr "working")], op_client_order_id plan :: x);
  alert_sink := None |}.

Definition sample_open_position : position_row := {|
  po_instrument_id := "BTCUSDT-PERP"; po_side := "long"; po_quantity := XFin (Dec 5 (-1));
  po_avg_entry_price := Some (XFin (Dec 60000 0)); po_mark_price := None; po_unrealized_pnl := None;
  po_status := "open"; po_updated_from_event_id := "e1"; po_ts_event := None; po_updated_at := 0;
  po_payload := [] |}.

Definition sample_request : ProtectionInstallRequest := {|
  pi_account_id := "a"; pi_position_key := "a:BTCUSDT"; pi_intent_id := "01234567-89ab-cdef-0123-456789abcdef";
  pi_stop := {| sp_stop_type := "stop_market"; sp_trigger_price := Some (Dec 59000 0); sp_distance_pct := None;
                sp_limit_price := None; sp_trigger_basis := "mark" |};
  pi_instrument := sample_instrument; pi_entry_filled_at := utc 0; pi_now := utc 1000000;
  pi_threshold_seconds := 5 |}.

Definition sample_protection_world : list string * Conn :=
  ([], connect (set_positions_projection (fun t => <[("a", "a:BTCUSDT") := sample_open_position]> t) empty_db) 7).

Lemma install_outcome_witness :
  exists r w', install_after_entry_fill sample_parties "REDUCING" sample_request sample_protection_world = (Ok r, w')
    /\ installed sample_request r (current (snd w')).
Proof.
  assert (T : match fst (install_after_entry_fill sample_parties "REDUCING" sample_request
                sample_protection_world) with Ok r => String.eqb (ir_status r) "submitted" | _ => false end = true)
    by (vm_compute; reflexivity).
  destruct (install_after_entry_fill sample_parties "REDUCING" sample_request sample_protection_world)
    as [x w'] eqn:E. cbn [fst] in T. destruct x as [r|e]; [|discriminate T].
  exists r, w'. split; [reflexivity|]. apply String.eqb_eq in T.
  destruct (install_outcome sample_parties "REDUCING" sample_request sample_protection_world (Ok r) w' eq_refl eq_refl E) as [_ [H|[F _]]]; [exact H|].
  rewrite T in F. discriminate F.
Defined.

Definition unplannable_request : ProtectionInstallRequest := {|
  pi_account_id := "a"; pi_position_key := "a:BTCUSDT"; pi_intent_id := "01234567-89ab-cdef-0123-456789abcdef";
  pi_stop := {| sp_stop_type := "stop_market"; sp_trigger_price := None; sp_distance_pct := None;
                sp_limit_price := None; sp_trigger_basis := "mark" |};
  pi_instrument := sample_instrument; pi_entry_filled_at := utc 0; pi_now := utc 1000000;
  pi_threshold_seconds := 5 |}.

(** A stop that cannot be planned: a stop without a trigger price or a distance
    raises, and leaves the position without a stop, a restriction, a finding
    or an alert. *)
Lemma unplannable_stop_unprotected :
  exists e, install_after_entry_fill sample_parties "REDUCING" unplannable_request sample_protection_world
            = (Raise e, sample_protection_world)
  /\ reconciliation_findings (current (snd sample_protection_world)) = []
  /\ protective_orders (current (snd sample_protection_world)) = [].
Proof. eexists. split; [vm_compute; reflexivity | by split]. Qed.

(** ** Break-even is applied once *)

Lemma find_update f g l x :
  (forall r, f (g r) = f r) -> find f l = Some x -> find f (update_row (pr_id x) g l) = Some (g x).
Proof.
  intros G. induction l as [|r l IH]; [done|]. cbn [find]. unfold update_row. cbn [map find].
  destruct (f r) eqn:F; intros H.
  - injection H as ->. by rewrite String.eqb_refl, G, F.
  - destruct (String.eqb (pr_id r) (pr_id x)); rewrite ?G, F; by apply IH.
Qed.

Lemma move_to_protects a p roles target t now r :
  protects a p roles (move_to target t now r) = protects a p roles r.
Proof. done. Qed.

Lemma move_to_applied target t now r :
  is_true (dget "breakeven_applied" (pr_payload (move_to target t now r))) = true.
Proof.
  unfold dget, move_to. cbn [pr_payload]. rewrite dlookup_dupdate; [done|].
  apply (bool_decide_unpack _). by vm_compute.
Qed.

Section breakeven_lemmas.
Context {X : Type} (move_stop : dict -> M X unit).

(** What a run that applied break-even did: one order to the exchange, and one
    row of the projection. *)
Lemma applied_inv a p price stale config text x s r x' s' :
  evaluate_and_apply move_stop a p price stale config text (x, s) = (Ok r, (x', s')) ->
  br_action r = "applied" ->
  exists position entry stop current_stop risk target payload,
    positions_projection (current s) !! (a, p) = Some position
    /\ po_avg_entry_price position = Some (XFin entry)
    /\ find (protects a p (is_role "stop_loss")) (protective_orders (current s)) = Some stop
    /\ pr_trigger_price stop = Some current_stop
    /\ xabs <$> xsub (XFin entry) current_stop = Ok (XFin risk)
    /\ triggered (po_side position) entry risk price (be_trigger_r config) = true
    /\ breakeven_price (po_side position) entry config = Ok target
    /\ dget "trigger_price" payload = PDec (XFin target) /\ move_stop payload x = (Ok tt, x')
    /\ positions_projection (current s') = positions_projection (current s)
    /\ protective_orders (current s')
       = update_row (pr_id stop) (move_to target text (clock s)) (protective_orders (current s))
    /\ committed s' = current s'.
Proof.
  unfold evaluate_and_apply. intros H A. destruct stale; [world_run; discriminate A|].
  world_run.
  unfold load_entry, load_position, load_active_stop in *. run_inv.
  match goal with |- context [positions_projection (current ?v) !! _] => rename v into s1 end.
  destruct (positions_projection (current s1) !! (a, p)) as [position|] eqn:P; [|world_run; discriminate A].
  destruct (po_avg_entry_price position) as [entry|] eqn:E; cbn [fmap option_fmap option_map] in H;
    [|world_run; discriminate A].
  destruct (find _ _) as [stop|] eqn:F in H; [|world_run; discriminate A].
  destruct (pr_trigger_price stop) as [current_stop|] eqn:T; cbn [fmap option_fmap option_map] in H;
    [|world_run; discriminate A].
  destruct (is_true _); [world_run; discriminate A|]. world_run.
  match type of H with (if ?b then _ else _) _ = _ => destruct b; [world_run; discriminate A|] end. world_run.
  match type of H with (if negb ?b then _ else _) _ = _ => destruct b eqn:TR end;
    cbn [negb] in H; world_run; [|discriminate A].
  destruct entry as [entry|[]|]; try discriminate Hm1. apply ok_inj in Hm1 as <-.
  destruct (xabs x1) as [risk|[]|] eqn:RK; try discriminate Hm2. apply ok_inj in Hm2 as <-.
  match goal with MV : move_stop ?pl x = _ |- _ =>
    exists position, entry, stop, current_stop, risk, x4, pl end.
  split_and!; try done.
  - by rewrite Hm, <- RK.
  - cbn. by rewrite Hcur.
  - cbn. by rewrite Hcur.
Qed.

(** Break-even is applied only when the price has moved the configured
    multiple of the initial risk in the position's favour, with one order to
    the exchange that carries the committed stop price; and it is applied
    once: whatever the market does next, another evaluation reports
    [already_applied], sends nothing and leaves the database as it is. *)
Theorem breakeven_once a p price stale config text x s r x' s' :
  evaluate_and_apply move_stop a p price stale config text (x, s) = (Ok r, (x', s')) ->
  br_action r = "applied" ->
  (exists position entry risk target payload stop,
     positions_projection (current s) !! (a, p) = Some position
     /\ triggered (po_side position) entry risk price (be_trigger_r config) = true
     /\ breakeven_price (po_side position) entry config = Ok target
     /\ dget "trigger_price" payload = PDec (XFin target) /\ move_stop payload x = (Ok tt, x')
     /\ find (protects a p (is_role "stop_loss")) (protective_orders (committed s')) = Some stop
     /\ pr_trigger_price stop = Some (pg_numeric (XFin target)))
  /\ forall price' config' text', exists r' s'',
       evaluate_and_apply move_stop a p price' false config' text' (x', s') = (Ok r', (x', s''))
       /\ br_action r' = "already_applied" /\ current s'' = current s' /\ committed s'' = committed s'.
Proof.
  intros H A. apply applied_inv in H; [|done].
  destruct H as (position & entry & stop & cs & risk & target & payload & P & E & F & T & R & TR & B & D & MV
    & P' & U & C).
  set (moved := move_to target text (clock s)).
  assert (F' : find (protects a p (is_role "stop_loss")) (protective_orders (current s')) = Some (moved stop))
    by (rewrite U; by apply find_update).
  split; [exists position, entry, risk, target, payload, (moved stop); by rewrite C|].
  intros price' config' text'. eexists _, (commit s').
  unfold evaluate_and_apply, transaction_in, mbind, M_bind, on_conn. cbn [fst snd].
  unfold load_entry, load_active_stop, load_position, mbind, M_bind, select, mret, M_ret. cbn [fst snd].
  rewrite P', P, F', E. cbn [fmap option_fmap option_map pr_trigger_price moved move_to].
  change (pr_payload (moved stop)) with (pr_payload (move_to target text (clock s) stop)).
  rewrite move_to_applied. cbn. by rewrite C.
Qed.
End breakeven_lemmas.

(** A protective row with a trigger price. *)
Definition move_stop_price (d : dec) (r : protective_row) : protective_row := {|
  pr_id := pr_id r; pr_account_id := pr_account_id r; pr_position_key := pr_position_key r;
  pr_venue_symbol := pr_venue_symbol r; pr_lifecycle_role := pr_lifecycle_role r;
  pr_client_order_id := pr_client_order_id r; pr_venue_order_id := pr_venue_order_id r;
  pr_status := pr_status r; pr_active := pr_active r; pr_quantity := pr_quantity r; pr_price := pr_price r;
  pr_trigger_price := Some (XFin d); pr_updated_at := pr_updated_at r; pr_payload := pr_payload r |}.

Definition sample_stop_world : list dict * Conn :=
  ([], connect
    (set_protective_orders (fun _ => [move_stop_price (Dec 59000 0) (sample_protective "s1" "stop_loss" 5)])
      (set_positions_projection (fun t => <[("a", "a:BTCUSDT") := sample_open_position]> t) empty_db)) 7).

Definition sample_mover (payload : dict) : M (list dict) unit := fun x => (Ok tt, payload :: x).
Definition sample_breakeven : BreakevenConfig :=
  {| be_trigger_r := Dec 1 0; be_offset_bps := Dec 5 0; be_fee_buffer_bps := dzero |}.

Lemma breakeven_once_witness :
  exists r x' s', evaluate_and_apply sample_mover "a" "a:BTCUSDT" (Dec 61000 0) false sample_breakeven "t"
      sample_stop_world = (Ok r, (x', s'))
    /\ exists r' s'', evaluate_and_apply sample_mover "a" "a:BTCUSDT" (Dec 70000 0) false sample_breakeven "u"
        (x', s') = (Ok r', (x', s'')) /\ br_action r' = "already_applied".
Proof.
  assert (T : match fst (evaluate_and_apply sample_mover "a" "a:BTCUSDT" (Dec 61000 0) false sample_breakeven "t"
      sample_stop_world) with Ok r => String.eqb (br_action r) "applied" | _ => false end = true)
    by (vm_compute; reflexivity).
  destruct (evaluate_and_apply sample_mover "a" "a:BTCUSDT" (Dec 61000 0) false sample_breakeven "t"
      sample_stop_world) as [[r|e] [x' s']] eqn:E; [|discriminate T].
  exists r, x', s'. split; [reflexivity|]. apply String.eqb_eq in T.
  destruct (proj2 (breakeven_once _ _ _ _ _ _ _ _ _ _ _ _ E T) (Dec 70000 0) sample_breakeven "u")
    as (r' & s'' & E' & A & _). exists r', s''. by split.
Defined.
