(* ===== verification/Recovery.v ===== *)
(** * Recovery: every open position has a stop, or its instrument is restricted

    Models order_management/protection_recovery.py.  The repairer that talks
    to the exchange is a parameter. *)

From Stdlib Require Import ZArith Lia.
From S2P Require Import Prelude Decimal PyString DecText PyValue Identifiers Store OrderReducer PositionReducer Sha256 External Exits Protection.
Open Scope string_scope.
Open Scope Z_scope.

Record ProtectionRecoveryResult := {
  pr_result_status : string;
  repaired_count : Z;
  unrepaired_count : Z }.

Record open_position := {
  op_position_key : string;
  op_instrument : string;
  op_venue_symbol : string;
  op_quantity_left : xdec }.

(** The condition of [_open_positions]. *)
Definition is_open (r : position_row) : bool :=
  str_in (po_status r) ["open"; "reducing"; "external"] && negb (pg_leb (po_quantity r) (XFin dzero)).

(** [_open_positions] of a database, in the order of the position ids. *)
Definition open_rows (account_id : string) (d : Db) : list (string * position_row) :=
  sort_by (fun x y => String.leb (fst x) (fst y))
    (omap (fun p => if String.eqb (fst (fst p)) account_id && is_open (snd p)
                    then Some (snd (fst p), snd p) else None)
          (map_to_list (positions_projection d))).

Definition position_of (p : string * position_row) : open_position := {|
  op_position_key := fst p;
  op_instrument := po_instrument_id (snd p);
  op_venue_symbol := canonical_instrument_key (po_instrument_id (snd p));
  op_quantity_left := po_quantity (snd p) |}.

Definition open_positions (account_id : string) : M Conn (list open_position) :=
  select (fun d => map position_of (open_rows account_id d)).

(** [_has_active_stop] *)
Definition has_active_stop (account_id position_key : string) : M Conn bool :=
  select (fun d => existsb (protects account_id position_key (is_role "stop_loss")) (protective_orders d)).

(** [_record_repaired_stop]; the unique index on active roles turns a second
    active stop into a no-op. *)
Definition record_repaired_stop (account_id : string) (position : open_position) (repair : dict)
    : M Conn unit :=
  transaction (
    id ← uuid4;
    client_order_id ← mlift (text_col (dget "client_order_id" repair));
    venue_order_id ← mlift (text_col (dget "venue_order_id" repair));
    status ← mlift (text_col (default (PStr "working") (dlookup "status" repair)));
    _ ← check (match status with Some _ => true | None => false end) "protective_orders_projection.status";
    now ← get_now;
    let row := {|
      pr_id := id; pr_account_id := account_id; pr_position_key := op_position_key position;
      pr_venue_symbol := op_venue_symbol position; pr_lifecycle_role := "stop_loss";
      pr_client_order_id := client_order_id; pr_venue_order_id := venue_order_id;
      pr_status := default "" status; pr_active := true;
      pr_quantity := Some (pg_numeric (op_quantity_left position)); pr_price := None;
      pr_trigger_price := None; pr_updated_at := now;
      pr_payload := [("source", PStr "protection_recovery")] |} in
    _ ← check (protective_checks row) "ck_protective_orders_quantity";
    execute (set_protective_orders (fun t =>
      if existsb (protects account_id (op_position_key position) (is_role "stop_loss")) t
      then t else (t ++ [row])%list))).

(** [_mark_unsafe] *)
Definition mark_unsafe (account_id : string) (position : open_position) (mode finding_type : string)
    (payload : dict) : M Conn unit :=
  transaction (
    _ ← set_mode account_id (canonical_instrument_key (op_instrument position)) mode;
    _ ← record_reconciliation_finding account_id finding_type "critical" payload
          (Some (op_position_key position)) None None "protection_recovery";
    mret tt).

(** ** Duplicate protection on the venue *)

Definition order_role (order : dict) : string :=
  py_str (py_or (py_or (dget "lifecycle_role" order) (dget "role" order)) (PStr "")).

(** Working stop and take-profit orders count. *)
Definition counts (order : dict) : bool :=
  str_in (lower (py_str (py_or (dget "status" order) (PStr "working"))))
    ["working"; "accepted"; "open"; "submitted"]
  && str_in (order_role order) ["stop_loss"; "take_profit"].

Definition group_key : Type := string * string.

(** [grouped.setdefault(key, []).append(order)] *)
Fixpoint append_to (key : group_key) (order : dict) (groups : list (group_key * list dict))
  : list (group_key * list dict) :=
  match groups with
  | [] => [(key, [order])]
  | (k, orders) :: groups =>
      if bool_decide (k = key) then (k, (orders ++ [order])%list) :: groups
      else (k, orders) :: append_to key order groups
  end.

Definition group_orders (orders : list dict) : list (group_key * list dict) :=
  fold_left (fun groups order =>
    if counts order then append_to (py_str (dget "position_key" order), order_role order) order groups
    else groups) orders [].

(** The position a duplicate group belongs to, or a placeholder. *)
Definition duplicate_position (positions : list open_position) (key : string) (first : dict) : open_position :=
  match find (fun p => String.eqb (op_position_key p) key) positions with
  | Some p => p
  | None => {|
      op_position_key := key;
      op_instrument := py_str (py_or (dget "instrument_id" first) (PStr "UNKNOWN"));
      op_venue_symbol := py_str (py_or (dget "venue_symbol" first) (PStr "UNKNOWN"));
      op_quantity_left := XFin dzero |}
  end.

Fixpoint mark_duplicates (account_id mode : string) (positions : list open_position)
    (groups : list (group_key * list dict)) (count : Z) : M Conn Z :=
  match groups with
  | [] => mret count
  | ((key, role), orders) :: groups =>
      match orders with
      | first :: _ :: _ =>
          _ ← mark_unsafe account_id (duplicate_position positions key first) mode "duplicate_protection"
                [("lifecycle_role", PStr role); ("orders", PList (map PDict orders))];
          mark_duplicates account_id mode positions groups (count + 1)
      | _ => mark_duplicates account_id mode positions groups count
      end
  end.

(** [_handle_duplicate_venue_protection] *)
Definition handle_duplicate_venue_protection (account_id mode : string) (venue_working_orders : list dict)
    : M Conn Z :=
  positions ← open_positions account_id;
  mark_duplicates account_id mode positions (group_orders venue_working_orders) 0.

(** ** Recovery *)

Definition repair_payload (account_id : string) (position : open_position) : dict :=
  [("account_id", PStr account_id); ("position_key", PStr (op_position_key position));
   ("instrument_id", PStr (op_instrument position)); ("venue_symbol", PStr (op_venue_symbol position));
   ("quantity", PStr (xdec_str (op_quantity_left position)))].

Section recovery.
Context {X : Type} (repair_stop : dict -> M X dict) (mode account_id : string).

Fixpoint repair_all (positions : list open_position) (repaired unrepaired : Z) : M (X * Conn) (Z * Z) :=
  match positions with
  | [] => mret (repaired, unrepaired)
  | position :: positions =>
      protected ← on_conn (has_active_stop account_id (op_position_key position));
      if protected : bool then repair_all positions repaired unrepaired else
      let payload := repair_payload account_id position in
      repair ← try_except (d ← on_external (repair_stop payload); mret (inl d)) (fun e => mret (inr e));
      match repair with
      | inr e =>
          _ ← on_conn (mark_unsafe account_id position mode "protection_repair_failed"
                (dset "error" (PStr (exn_repr e)) payload));
          repair_all positions repaired (unrepaired + 1)
      | inl repair =>
          _ ← on_conn (record_repaired_stop account_id position repair);
          repair_all positions (repaired + 1) unrepaired
      end
  end.

(** [ProtectionRecovery.recover] *)
Definition recover (venue_working_orders : option (list dict)) : M (X * Conn) ProtectionRecoveryResult :=
  duplicates ← on_conn (handle_duplicate_venue_protection account_id mode (default [] venue_working_orders));
  if negb (duplicates =? 0) then
    mret {| pr_result_status := "unsafe"; repaired_count := 0; unrepaired_count := duplicates |}
  else
    positions ← on_conn (open_positions account_id);
    counts ← repair_all positions 0 0;
    let '(repaired, unrepaired) := counts in
    mret {| pr_result_status := if unrepaired =? 0 then "recovered" else "unsafe";
            repaired_count := repaired; unrepaired_count := unrepaired |}.

End recovery.

(** ** Progress

    Neither step of the recovery takes a stop away or lifts a restriction. *)

Definition covered (account_id key : string) (d : Db) : Prop :=
  existsb (protects account_id key (is_role "stop_loss")) (protective_orders d) = true.

Definition restricted (account_id mode : string) (position : open_position) (d : Db) : Prop :=
  mode_in d account_id (canonical_instrument_key (op_instrument position)) = mode.

Record progress (account_id mode : string) (d d' : Db) : Prop := {
  keeps_positions : positions_projection d' = positions_projection d;
  keeps_covered : forall k, covered account_id k d -> covered account_id k d';
  keeps_restricted : forall p, restricted account_id mode p d -> restricted account_id mode p d' }.

#[global] Instance progress_preorder a m : PreOrder (progress a m).
Proof.
  split; [by split|]. intros d1 d2 d3 [P1 C1 R1] [P2 C2 R2]. split; [congruence | auto..].
Qed.

Lemma set_mode_others a i m s u s' :
  set_mode a i m s = (Ok u, s') ->
  forall i', mode_in (current s') a i' = m \/ mode_in (current s') a i' = mode_in (current s) a i'.
Proof.
  intros H i'. pose proof (set_mode_inv _ _ _ _ _ _ H) as (V & G & _).
  destruct (set_mode_get a i m s V) as (s1 & E & _ & O). rewrite H in E. injection E as _ <-.
  destruct (decide (i' = i)) as [->|N]; [by left | right]. apply O. congruence.
Qed.

Lemma mark_unsafe_inv a position mode t payload s u s' :
  mark_unsafe a position mode t payload s = (Ok u, s') ->
  progress a mode (current s) (current s') /\ restricted a mode position (current s')
  /\ committed s' = current s'
  /\ exists f, f ∈ reconciliation_findings (current s') /\ fi_finding_type f = t
       /\ fi_severity f = "critical" /\ fi_position_key f = Some (op_position_key position).
Proof.
  unfold mark_unsafe. intros H. apply transaction_inv_ok in H as (s2 & H & ->). run_inv.
  match goal with R : record_reconciliation_finding _ _ _ _ _ _ _ _ _ = _ |- _ =>
    apply record_finding_inv in R as (_ & F1 & F2 & F3 & F4 & F5 & F6 & F7) end.
  match goal with S : set_mode _ _ _ _ = _ |- _ =>
    pose proof (set_mode_others _ _ _ _ _ _ S) as O; apply set_mode_inv in S as (_ & G & P1 & P2) end.
  match type of F7 with _ = risk_state (current ?v) => rename v into s1 end.
  cbn. assert (MI : forall i, mode_in (current s2) a i = mode_in (current s1) a i)
    by (intros i; unfold mode_in; by rewrite F7).
  split_and!; [split| | |].
  - by rewrite F6, P2.
  - intros k. unfold covered. by rewrite F5, P1.
  - intros p R. unfold restricted in *. rewrite MI.
    destruct (O (canonical_instrument_key (op_instrument p))) as [->| ->]; done.
  - unfold restricted. by rewrite MI.
  - done.
  - by exists x0.
Qed.

Lemma record_repaired_inv a mode position repair s u s' :
  record_repaired_stop a position repair s = (Ok u, s') ->
  progress a mode (current s) (current s') /\ covered a (op_position_key position) (current s')
  /\ committed s' = current s'.
Proof.
  unfold record_repaired_stop. intros H. apply transaction_inv_ok in H as (s2 & H & ->). run_inv.
  change (current (commit s2)) with (current s2). change (committed (commit s2)) with (current s2).
  match goal with Hc : current s2 = set_protective_orders ?f _ |- _ => rewrite Hc; set (grow := f) end.
  match goal with Hc : current ?v = current s |- _ => rewrite Hc end.
  cbn [protective_orders positions_projection set_protective_orders].
  assert (G : forall k t, existsb (protects a k (is_role "stop_loss")) t = true ->
      existsb (protects a k (is_role "stop_loss")) (grow t) = true).
  { intros k t E. unfold grow.
    destruct (existsb (protects a (op_position_key position) (is_role "stop_loss")) t); [exact E|].
    by rewrite existsb_app, E. }
  split_and!; [split; [done|intros k; apply G|done] | | done].
  unfold covered. cbn [protective_orders set_protective_orders]. unfold grow.
  destruct (existsb (protects a (op_position_key position) (is_role "stop_loss")) (protective_orders (current s))) eqn:E;
    [exact E|].
  rewrite existsb_app. cbn. unfold protects. cbn. by rewrite !String.eqb_refl, orb_true_r.
Qed.

Section recovery_lemmas.
Context {X : Type} (repair_stop : dict -> M X dict) (mode account_id : string).

Lemma repair_all_spec positions repaired unrepaired w n u w' :
  repair_all repair_stop mode account_id positions repaired unrepaired w = (Ok (n, u), w') ->
  progress account_id mode (current (snd w)) (current (snd w')) /\ unrepaired <= u
  /\ (forall p, p ∈ positions ->
       covered account_id (op_position_key p) (current (snd w'))
       \/ restricted account_id mode p (current (snd w')) /\ unrepaired < u).
Proof.
  revert repaired unrepaired w. induction positions as [|p positions IH]; intros repaired unrepaired w H;
    cbn [repair_all] in H.
  { world_run. split_and!; [reflexivity | lia | by inversion 1]. }
  apply mbind_inv_ok in H as (protected & w1 & L & H). destruct w as [x s], w1 as [x1 s1].
  apply on_conn_pair in L as [L ->]. unfold has_active_stop in L. apply select_inv in L as [-> ->].
  destruct (existsb _ _) eqn:E.
  { apply IH in H as (P & U & C). split_and!; [done..|]. intros q Q. apply elem_of_cons in Q as [->|Q].
    - left. by apply (keeps_covered _ _ _ _ P).
    - by apply C. }
  apply mbind_inv_ok in H as (repair & w2 & L & H). apply try_external_frame in L. destruct w2 as [x2 s2].
  cbn in L. subst s2. destruct repair as [repair|e]; apply mbind_inv_ok in H as ([] & [x3 s3] & L & H);
    apply on_conn_pair in L as [L _]; apply IH in H as (P & U & C); cbn [snd] in *.
  - apply (record_repaired_inv _ mode) in L as (P1 & K & _). split_and!; [by etransitivity | done |].
    intros q Q. apply elem_of_cons in Q as [->|Q]; [|by apply C]. left. by apply (keeps_covered _ _ _ _ P).
  - apply mark_unsafe_inv in L as (P1 & K & _). split_and!; [by etransitivity | lia |].
    intros q Q. apply elem_of_cons in Q as [->|Q].
    + right. split; [by apply (keeps_restricted _ _ _ _ P) | lia].
    + destruct (C q Q) as [|[? ?]]; [by left | right; split; [done | lia]].
Qed.

Lemma mark_duplicates_spec positions groups count s n s' :
  mark_duplicates account_id mode positions groups count s = (Ok n, s') ->
  progress account_id mode (current s) (current s') /\ count <= n
  /\ ((forall g, g ∈ groups -> (length (snd g) < 2)%nat) -> n = count)
  /\ (forall key role orders, ((key, role), orders) ∈ groups -> (2 <= length orders)%nat ->
        count < n /\ restricted account_id mode
          (duplicate_position positions key (default [] (head orders))) (current s')).
Proof.
  revert count s. induction groups as [|[[key role] orders] groups IH]; intros count s H; cbn in H.
  { run_inv. split_and!; [reflexivity | lia | done | by inversion 1]. }
  destruct orders as [|o1 [|o2 orders]].
  1,2: apply IH in H as (P & L & E & G);
    (split_and!; [done..|intros Z; apply E; intros g I; apply Z; by right|]); intros k r os I Len;
    apply elem_of_cons in I as [[= -> -> ->]|I]; [cbn in Len; lia | by eapply G].
  apply mbind_inv_ok in H as ([] & s1 & L & H). apply mark_unsafe_inv in L as (P1 & R & _).
  apply IH in H as (P & L & E & G). split_and!; [by etransitivity | lia | |].
  { intros Z. specialize (Z _ (list_elem_of_here _ _)). cbn in Z. lia. }
  intros k r os I Len. apply elem_of_cons in I as [[= -> -> ->]|I].
  - split; [lia|]. by apply (keeps_restricted _ _ _ _ P).
  - destruct (G k r os I Len) as [? ?]. split; [lia | done].
Qed.

(** C26. After a recovery that reports [recovered], every open position of the
    account has an active stop.  If the venue lists no two working orders for
    the same role of a position, every open position afterwards has an active
    stop or its instrument is in the failure mode.  If it does, the recovery
    ends as [unsafe] with nothing sent for repair, and each position with
    duplicates is restricted; the other positions are left as they were. *)
Theorem recovery_covers venue w r w' :
  recover repair_stop mode account_id venue w = (Ok r, w') ->
  (pr_result_status r = "recovered" -> forall p, p ∈ open_rows account_id (current (snd w')) ->
     covered account_id (fst p) (current (snd w')))
  /\ (forall key role orders, ((key, role), orders) ∈ group_orders (default [] venue) -> (2 <= length orders)%nat ->
        pr_result_status r = "unsafe" /\ fst w' = fst w
        /\ restricted account_id mode
             (duplicate_position (map position_of (open_rows account_id (current (snd w)))) key
                (default [] (head orders))) (current (snd w')))
  /\ ((forall key role orders, ((key, role), orders) ∈ group_orders (default [] venue) -> (length orders < 2)%nat) ->
      forall p, p ∈ open_rows account_id (current (snd w')) ->
        covered account_id (fst p) (current (snd w'))
        \/ restricted account_id mode (position_of p) (current (snd w'))).
Proof.
  unfold recover. intros H. apply mbind_inv_ok in H as (n & w1 & D & H).
  destruct w as [x s], w1 as [x1 s1]. apply on_conn_pair in D as [D ->]. cbn [fst snd].
  unfold handle_duplicate_venue_protection, open_positions in D.
  apply mbind_inv_ok in D as (ps & s0 & Sel & D). apply select_inv in Sel as [-> ->].
  apply mark_duplicates_spec in D as (P1 & N & E & G).
  destruct (negb (n =? 0)) eqn:Z.
  - apply mret_inv in H as [<- <-]. cbn. bprop. split_and!; [done| |].
    + intros key role orders I L. split_and!; [done..|]. by eapply G.
    + intros L. destruct Z. apply E. intros [[k r] os] I. by eapply L.
  - bprop. subst n. apply mbind_inv_ok in H as (ps & w2 & O & H). destruct w2 as [x2 s2].
    apply on_conn_pair in O as [O ->]. apply select_inv in O as [-> ->].
    apply mbind_inv_ok in H as ([rep un] & w3 & R & H). apply repair_all_spec in R as (P2 & U & C).
    apply mret_inv in H as [<- <-]. cbn.
    assert (OP : forall p, p ∈ open_rows account_id (current (snd w3)) ->
        position_of p ∈ map position_of (open_rows account_id (current s1))).
    { intros p I. unfold open_rows in *. cbn in P2. rewrite (keeps_positions _ _ _ _ P2) in I.
      apply list_elem_of_In, in_map, list_elem_of_In, I. }
    split_and!.
    + intros Q p I. destruct (C (position_of p) (OP p I)) as [|[_ V]]; [done|].
      destruct (un =? 0) eqn:Y; [bprop; lia | discriminate Q].
    + intros key role orders I L. destruct (G key role orders I L) as [V _]. lia.
    + intros _ p I. destruct (C (position_of p) (OP p I)) as [|[V _]]; by auto.
Qed.
End recovery_lemmas.

Definition sample_recovery_world : list dict * Conn :=
  ([], connect (set_positions_projection (fun t => <[("a", "a:BTCUSDT") := sample_open_position]> t) empty_db) 7).

Definition sample_repairer (payload : dict) : M (list dict) dict :=
  fun x => (Ok [("client_order_id", PStr "repaired-stop-1")], payload :: x).

Lemma recovery_covers_witness :
  exists r w', recover sample_repairer "REDUCING" "a" None sample_recovery_world = (Ok r, w')
    /\ forall p, p ∈ open_rows "a" (current (snd w')) -> covered "a" (fst p) (current (snd w')).
Proof.
  assert (T : match fst (recover sample_repairer "REDUCING" "a" None sample_recovery_world) with
              | Ok r => String.eqb (pr_result_status r) "recovered" | _ => false end = true)
    by (vm_compute; reflexivity).
  destruct (recover sample_repairer "REDUCING" "a" None sample_recovery_world) as [[r|e] w'] eqn:E;
    [|discriminate T].
  exists r, w'. split; [reflexivity|]. apply String.eqb_eq in T.
  exact (proj1 (recovery_covers _ _ _ _ _ _ _ E) T).
Defined.

(** Duplicates of one position leave the others alone: the second position has
    no stop, none is asked for and its instrument is not restricted. *)
Definition sample_other_position : position_row := {|
  po_instrument_id := "ETHUSDT-PERP"; po_side := "long"; po_quantity := XFin (Dec 2 0);
  po_avg_entry_price := Some (XFin (Dec 3000 0)); po_mark_price := None; po_unrealized_pnl := None;
  po_status := "open"; po_updated_from_event_id := "e2"; po_ts_event := None; po_updated_at := 0;
  po_payload := [] |}.

Definition sample_two_positions : list dict * Conn :=
  ([], connect (set_positions_projection (fun t =>
         <[("a", "a:BTCUSDT") := sample_open_position]> (<[("a", "a:ETHUSDT") := sample_other_position]> t)) empty_db) 7).

Definition sample_stop_order : dict := [("position_key", PStr "a:BTCUSDT"); ("role", PStr "stop_loss")].

Lemma duplicates_block_repair :
  match recover sample_repairer "REDUCING" "a" (Some [sample_stop_order; sample_stop_order]) sample_two_positions with
  | (Ok r, (asked, c)) =>
      pr_result_status r = "unsafe" /\ asked = []
      /\ map fst (open_rows "a" (current c)) = ["a:BTCUSDT"; "a:ETHUSDT"]
      /\ existsb (protects "a" "a:ETHUSDT" (is_role "stop_loss")) (protective_orders (current c)) = false
      /\ mode_in (current c) "a" (canonical_instrument_key "ETHUSDT-PERP") <> "REDUCING"
  | _ => False
  end.
Proof. vm_compute. repeat split; discriminate. Qed.
