(* ===== verification/Ledger.v ===== *)
(** * Ledger: reconciled execution state and robot order identity

    Models packages/execution-domain/execution_domain/order_ownership.py and
    account_execution_ledger.py: which orders are the robot's, and what is
    known of a book (account, instrument, side) from fresh venue evidence and
    the local cache.  Snapshots are JSON dictionaries; a cache position is a
    mapping.  Dictionaries that are only read by key are maps. *)

From Stdlib Require Import ZArith Lia Ascii QArith Lqa.
From S2P Require Import Prelude Decimal PyString DecText PyValue PyTime Identifiers Store Sha256 External OrderPlans.
Open Scope string_scope.
Open Scope Z_scope.

(** ** order_ownership.py *)

(** [^B[0-9a-f]{32}[0-9]{2}$] as a full match. *)
Definition robot_pattern (s : string) : bool :=
  (String.length s =? 35)%nat && starts_with "B" s
  && sforall is_hex (String.substring 1 32 s) && sforall is_digit (String.substring 33 2 s).

Definition is_robot_client_order_id (value : pyval) : bool :=
  match value with PStr s => robot_pattern (strip s) | _ => false end.

(** [str(x or "")] *)
Definition text_or_empty (v : pyval) : string := py_str (py_or v (PStr "")).

(** The first of the fields with text, stripped. *)
Fixpoint first_text (row : dict) (fields : list string) : string :=
  match fields with
  | [] => ""
  | f :: fields =>
      let v := dget f row in
      if is_none v then first_text row fields
      else let t := strip (py_str v) in if is_empty t then first_text row fields else t
  end.

Definition client_order_id_from_row (row : dict) : string :=
  first_text row ["client_order_id"; "clientOrderId"; "client_algo_id"; "clientAlgoId"].

Definition row_is_robot_order (row : dict) : bool :=
  is_robot_client_order_id (PStr (client_order_id_from_row row)).

Definition row_has_robot_owner (row : dict) : bool :=
  row_is_robot_order row
  || match dget "tags" row with
     | PList tags => existsb (fun t => starts_with "intent_id=" (py_str t)) tags
     | _ => false
     end
  || existsb (fun f => is_robot_client_order_id (PStr (text_or_empty (dget f row))))
       ["owner_client_order_id"; "entry_client_order_id"; "source_client_order_id"].

(** ** account_execution_ledger.py *)

Inductive PositionState := KNOWN_FLAT | KNOWN_OPEN | UNKNOWN | CONFLICTED.

#[global] Instance PositionState_eq_dec : EqDecision PositionState.
Proof. solve_decision. Defined.

Record BookKey := { bk_account_id : string; bk_instrument_id : string; bk_position_side : string }.

Record PositionAssessment := {
  pa_state : PositionState;
  pa_quantity : dec;
  pa_venue_fresh : bool;
  pa_detail : string }.

(** [venue_symbol_for_instrument] of a JSON value. *)
Definition symbol_of (v : pyval) : string :=
  venue_symbol_for_instrument (if truthy v then Some (py_str v) else None).

(** [normalize_position_side] *)
Definition normalize_position_side (v : pyval) : string :=
  let t := upper (strip (text_or_empty v)) in
  if str_in t ["LONG"; "BUY"] then "LONG"
  else if str_in t ["SHORT"; "SELL"] then "SHORT" else "".

(** [_to_decimal] *)
Definition to_decimal (v : pyval) : option dec :=
  match v with
  | PNone => None
  | PStr s => if is_empty s then None else to_xdec v ≫= is_finite
  | _ => to_xdec v ≫= is_finite
  end.

Definition book : Type := string * string.

(** [quantities[key] = quantities.get(key, Decimal(0)) + abs(quantity)] *)
Definition add_quantity (key : book) (quantity : dec) (m : gmap book dec) : gmap book dec :=
  <[key := (default dzero (m !! key) + dabs quantity)%dec]> m.

(** [{key: value for key, value in quantities.items() if value != 0}] *)
Definition nonzero (m : gmap book dec) : gmap book dec := filter (fun p => dis_zero (snd p) = false) m.

(** [row.get(a) if row.get(a) is not None else row.get(b)] *)
Definition alias (a b : string) (row : dict) : pyval :=
  if is_none (dget a row) then dget b row else dget a row.

(** The book of a venue position and its quantity, [None] for a row skipped. *)
Definition venue_row (row : dict) : option (book * dec) :=
  let symbol := upper (strip (text_or_empty (dget "symbol" row))) in
  if is_empty symbol then None else
  match to_decimal (alias "position_amt" "positionAmt" row) with
  | None => None
  | Some quantity =>
      if dis_zero quantity then None else
      let side := normalize_position_side (alias "position_side" "positionSide" row) in
      let side := if is_empty side then (if dltb dzero quantity then "LONG" else "SHORT") else side in
      Some ((symbol, side), quantity)
  end.

(** The book of a cache position and its quantity. *)
Definition cache_row (row : dict) : option (book * dec) :=
  let symbol := symbol_of (dget "instrument_id" row) in
  if is_empty symbol then None else
  let side := normalize_position_side (dget "side" row) in
  if is_empty side then None else
  match to_decimal (dget "quantity" row) with
  | None => None
  | Some quantity => if dis_zero quantity then None else Some ((symbol, side), quantity)
  end.

Definition collect (rows : list (book * dec)) : gmap book dec :=
  nonzero (fold_left (fun m p => add_quantity (fst p) (snd p) m) rows ∅).

(** The mappings of a list; anything else in it is skipped. *)
Definition mappings (v : pyval) : list dict :=
  match v with
  | PList rows => omap (fun r => match r with PDict d => Some d | _ => None end) rows
  | _ => []
  end.

(** [_venue_position_quantities] *)
Definition venue_position_quantities (snapshot : dict) : gmap book dec :=
  collect (omap venue_row (mappings (dget "positions" snapshot))).

(** [_cache_position_quantities] *)
Definition cache_position_quantities (positions : list dict) : gmap book dec :=
  collect (omap cache_row positions).

(** The robot order of a row and the books it acts on. *)
Definition order_books (row : dict) : option (string * list book) :=
  let client_order_id := strip (text_or_empty
    (py_or (py_or (dget "client_order_id" row) (dget "clientOrderId" row)) (dget "clientAlgoId" row))) in
  if negb (is_robot_client_order_id (PStr client_order_id)) then None else
  let symbol := upper (strip (text_or_empty (dget "symbol" row))) in
  if is_empty symbol then None else
  let side := normalize_position_side (alias "position_side" "positionSide" row) in
  Some (client_order_id,
        map (pair symbol) (if is_empty side then ["LONG"; "SHORT"] else [side])).

Definition add_order (client_order_id : string) (m : gmap book (list string)) (key : book)
  : gmap book (list string) :=
  let bucket := default [] (m !! key) in
  <[key := if str_in client_order_id bucket then bucket else (bucket ++ [client_order_id])%list]> m.

(** [_venue_bot_order_ids] *)
Definition venue_bot_order_ids (snapshot : dict) : gmap book (list string) :=
  fold_left (fun m row =>
    match order_books row with
    | Some (c, books) => fold_left (add_order c) books m
    | None => m
    end)
    (mappings (dget "open_orders" snapshot) ++ mappings (dget "algo_orders" snapshot)) ∅.

(** [_venue_freshness]; [None] for a snapshot that is not a mapping.  The
    difference of a naive and an aware datetime raises TypeError. *)
Definition venue_freshness (timedelta_text : Z -> string) (snapshot : option dict)
    (fetched_at : option datetime) (now : datetime) (window : Z) : bool * string :=
  match snapshot, fetched_at with
  | None, _ => (false, "venue snapshot unavailable")
  | Some _, None => (false, "venue snapshot has no fetch timestamp")
  | Some _, Some fetched =>
      if negb (Bool.eqb (bool_decide (utc_offset_us now = None)) (bool_decide (utc_offset_us fetched = None)))
      then (false, "venue snapshot timestamp is not comparable to now")
      else
        let age := aware now - aware fetched in
        if window <? age
        then (false, "venue snapshot stale: age=" +:+ timedelta_text age
                     +:+ " exceeds freshness window " +:+ timedelta_text window)
        else (true, "venue snapshot fresh")
  end.

Record ReconciledExecutionState := {
  re_account_id : string;
  re_venue_fresh : bool;
  re_venue_detail : string;
  re_venue_quantities : gmap book dec;
  re_cache_quantities : gmap book dec;
  re_bot_order_ids : gmap book (list string) }.

(** [ReconciledExecutionState.build]; [timedelta_text] is [str] of a timedelta
    in microseconds, which only the detail text uses. *)
Definition build (timedelta_text : Z -> string) (account_id : string) (snapshot : option dict)
    (fetched_at : option datetime) (cache_positions : list dict) (now : datetime) (window : Z)
    : ReconciledExecutionState :=
  let '(fresh, detail) := venue_freshness timedelta_text snapshot fetched_at now window in
  {| re_account_id := account_id; re_venue_fresh := fresh; re_venue_detail := detail;
     re_venue_quantities := from_option venue_position_quantities ∅ snapshot;
     re_cache_quantities := cache_position_quantities cache_positions;
     re_bot_order_ids := from_option venue_bot_order_ids ∅ snapshot |}.

(** [_book_lookup_key] *)
Definition lookup_key (b : BookKey) : book :=
  (symbol_of (PStr (bk_instrument_id b)), normalize_position_side (PStr (bk_position_side b))).

(** [_drift_exceeds_tolerance] *)
Definition drift_exceeds_tolerance (venue cache : dec) : result bool :=
  let reference := dabs venue in
  if dis_zero reference then Ok (negb (dis_zero cache))
  else
    drift ← ddiv (dabs (dabs venue - dabs cache)%dec) reference;
    Ok (dltb (Dec 1 (-2)) drift).

(** [ReconciledExecutionState.assess] *)
Definition assess (st : ReconciledExecutionState) (b : BookKey) : result PositionAssessment :=
  let key := lookup_key b in
  let cache := default dzero (re_cache_quantities st !! key) in
  let venue := default dzero (re_venue_quantities st !! key) in
  let where_ := bk_position_side b +:+ " on " +:+ bk_instrument_id b in
  if negb (re_venue_fresh st) then
    Ok {| pa_state := UNKNOWN; pa_quantity := dzero; pa_venue_fresh := false; pa_detail := re_venue_detail st |}
  else if negb (dis_zero venue) then
    drift ← (if dis_zero cache then Ok false else drift_exceeds_tolerance venue cache);
    let note :=
      if negb (dis_zero cache) && drift
      then "; cache drift: cache=" +:+ dec_str cache +:+ " venue=" +:+ dec_str venue +:+ " (>1%)"
      else if dis_zero cache then "; cache has no position (venue is authoritative)" else "" in
    Ok {| pa_state := KNOWN_OPEN; pa_quantity := venue; pa_venue_fresh := true;
          pa_detail := "venue reports " +:+ dec_str venue +:+ " " +:+ where_ +:+ note |}
  else if negb (dis_zero cache) then
    Ok {| pa_state := CONFLICTED; pa_quantity := dzero; pa_venue_fresh := true;
          pa_detail := "venue reports flat but cache holds " +:+ dec_str cache +:+ " " +:+ where_
                       +:+ " (phantom position suspected)" |}
  else
    Ok {| pa_state := KNOWN_FLAT; pa_quantity := dzero; pa_venue_fresh := true;
          pa_detail := "venue and cache agree flat for " +:+ where_ |}.

Definition bot_open_order_client_ids (st : ReconciledExecutionState) (b : BookKey) : list string :=
  default [] (re_bot_order_ids st !! lookup_key b).

(** ** Semantic operation ids *)

(** [re.sub(r"-e\d+$", "", s)]: a derived message's suffix is dropped. *)
Fixpoint strip_derived (s : string) : string :=
  match s with
  | EmptyString => EmptyString
  | String c s' =>
      if starts_with "-e" s && negb (is_empty (String.substring 2 (String.length s - 2) s))
         && sforall is_digit (String.substring 2 (String.length s - 2) s)
      then EmptyString else String c (strip_derived s')
  end.

Definition unit_separator : string := String (ascii_of_nat 31) "".

Definition semantic_operation_id (account_id source_message_id action : string) (b : BookKey)
    (revision : Z) : string :=
  let side := normalize_position_side (PStr (bk_position_side b)) in
  sha256_hex (join unit_separator
    ["semantic-operation/v1"; strip account_id; strip_derived (strip source_message_id); strip action;
     strip (bk_account_id b); strip (bk_instrument_id b);
     if is_empty side then upper (strip (bk_position_side b)) else side; int_str revision]).

(** ** Robot order ids are the node's client order ids *)

Lemma starts_with_app p s : starts_with p s = true -> exists t, s = p +:+ t.
Proof.
  revert s. induction p as [|c p IH]; intros s H; [by exists s|]. destruct s as [|d s]; [done|].
  cbn in H. bprop. apply Ascii.eqb_eq in H as ->. destruct (IH s H0) as [t ->]. by exists t.
Qed.

Lemma substring_cons n k c s : String.substring (S n) k (String c s) = String.substring n k s.
Proof. done. Qed.

Lemma digits_two s :
  String.length s = 2%nat -> sforall is_digit s = true -> 0 <= num_of 0 s <= 99 /\ pad 2 (num_of 0 s) = s.
Proof.
  destruct s as [|a [|b [|? ?]]]; intros L D; try discriminate L. cbn [sforall] in D. bprop.
  destruct a as [[] [] [] [] [] [] [] []]; try discriminate;
    destruct b as [[] [] [] [] [] [] [] []]; try discriminate; (split; [vm_compute; split; congruence|]);
    vm_compute; reflexivity.
Qed.

(** A text is a robot client order id exactly when it is, up to surrounding
    spaces, the id the node encodes for some intent and sequence number: the
    ownership checks accept every order the node can send, and nothing else. *)
Theorem robot_order_ids s :
  is_robot_client_order_id (PStr s) = true
  <-> exists h n, uuid_digits h = true /\ 0 <= n <= 99 /\ encode_client_order_id h n = Ok (strip s).
Proof.
  unfold is_robot_client_order_id. set (t := strip s). split.
  - unfold robot_pattern. intros H. bprop. apply Nat.eqb_eq in H.
    apply starts_with_app in H2 as [u E]. rewrite E in *. cbn [String.length String.append] in H.
    change ("B" +:+ u) with (String "B" u) in *. rewrite substring_cons in H0, H1. cbn in H.
    set (h := String.substring 0 32 u) in *. set (d := String.substring 32 2 u) in *.
    assert (LD : String.length d = 2%nat) by (apply substring_length; lia).
    assert (LH : String.length h = 32%nat) by (apply substring_length; lia).
    destruct (digits_two d LD H0) as [N P]. exists h, (num_of 0 d). split_and!; [|lia|lia|].
    + unfold uuid_digits. rewrite LH. exact H1.
    + unfold encode_client_order_id.
      replace ((num_of 0 d <? 0) || (99 <? num_of 0 d)) with false by lia.
      f_equal. rewrite P. change ("B" +:+ h +:+ d) with (String "B" (h +:+ d)). f_equal.
      rewrite <- (substring_split 32 u) by lia. unfold h, d. do 2 f_equal. lia.
  - intros (h & n & U & N & E). unfold encode_client_order_id in E.
    replace ((n <? 0) || (99 <? n)) with false in E by lia. apply ok_inj in E. rewrite <- E.
    destruct (pad_two n N) as (L & D & _). unfold uuid_digits in U. bprop. apply Nat.eqb_eq in H.
    unfold robot_pattern. rewrite !slength_app, H, L.
    change (String.substring 1 32 ("B" +:+ h +:+ pad 2 n)) with (String.substring 0 32 (h +:+ pad 2 n)).
    change (String.substring 33 2 ("B" +:+ h +:+ pad 2 n)) with (String.substring 32 2 (h +:+ pad 2 n)).
    rewrite substring_app_l by done. pose proof (substring_app_r 32 h (pad 2 n) H) as R. rewrite L in R.
    rewrite R. by rewrite H0, D.
Qed.

(** ** What is held in a book *)

(** The total of the absolute quantities of a book's rows. *)
Definition holdings (key : book) (rows : list (book * dec)) : dec :=
  fold_left (fun t p => if bool_decide (fst p = key) then (t + dabs (snd p))%dec else t) rows dzero.

Lemma add_quantity_lookup key rows m :
  default dzero (fold_left (fun m p => add_quantity (fst p) (snd p) m) rows m !! key)
  = fold_left (fun t p => if bool_decide (fst p = key) then (t + dabs (snd p))%dec else t) rows
      (default dzero (m !! key)).
Proof.
  revert m. induction rows as [|[k q] rows IH]; intros m; [done|]. cbn. rewrite IH. f_equal.
  unfold add_quantity. case_bool_decide as E; [subst; by rewrite lookup_insert_eq | by rewrite lookup_insert_ne].
Qed.

Lemma holdings_nonneg key rows : (0 <= dval (holdings key rows))%Q.
Proof.
  unfold holdings. assert (H : (0 <= dval dzero)%Q) by (by compute). revert H. generalize dzero.
  induction rows as [|[k q] rows IH]; intros t H; [done|]. cbn. apply IH.
  case_match; [|done]. apply dadd_nonneg; [done | apply dabs_nonneg].
Qed.

Lemma dis_zero_val d : dis_zero d = true <-> (dval d == 0)%Q.
Proof.
  unfold dis_zero. rewrite Z.eqb_eq. pose proof (dval_sgn d) as S. split; intros H.
  - apply Qeq_alt. by rewrite S, H.
  - apply Qeq_alt in H. rewrite S in H. by apply Z.compare_eq_iff.
Qed.

Lemma collect_holdings key rows :
  (dval (default dzero (collect rows !! key)) == dval (holdings key rows))%Q
  /\ (dis_zero (holdings key rows) = false -> default dzero (collect rows !! key) = holdings key rows).
Proof.
  unfold collect, nonzero, holdings.
  pose proof (add_quantity_lookup key rows ∅) as A. rewrite lookup_empty in A. cbn [default] in A.
  set (m := fold_left _ rows ∅) in *. set (t := fold_left _ rows dzero) in *.
  clearbody m t. destruct (m !! key) as [q|] eqn:E; cbn in A; subst t.
  - destruct (dis_zero q) eqn:Z.
    + rewrite map_lookup_filter_None_2; [|right; intros ? ?; simplify_eq; cbn; by rewrite Z].
      apply dis_zero_val in Z. cbn. split; [by symmetry | done].
    + rewrite (map_lookup_filter_Some_2 _ _ _ q); done.
  - rewrite map_lookup_filter_None_2; [done | by left].
Qed.

(** What is known of a book follows the venue.  Without a fresh, comparable
    snapshot the state is [UNKNOWN], whatever the cache holds.  With one, it is
    [KNOWN_OPEN] with the venue's total quantity exactly when that total is
    positive, [CONFLICTED] when the venue is flat and the cache is not, and
    [KNOWN_FLAT] when both are flat; only [KNOWN_OPEN] carries a quantity. *)
Theorem assess_reconciles text account snapshot fetched cache now window b :
  let venue := holdings (lookup_key b)
                 (from_option (fun d => omap venue_row (mappings (dget "positions" d))) [] snapshot) in
  let cached := holdings (lookup_key b) (omap cache_row cache) in
  exists a, assess (build text account snapshot fetched cache now window) b = Ok a
    /\ pa_venue_fresh a = fst (venue_freshness text snapshot fetched now window)
    /\ match pa_state a with
       | UNKNOWN => pa_venue_fresh a = false /\ pa_quantity a = dzero
       | KNOWN_OPEN => pa_venue_fresh a = true /\ pa_quantity a = venue /\ (0 < dval venue)%Q
       | CONFLICTED => pa_venue_fresh a = true /\ pa_quantity a = dzero
                       /\ (dval venue == 0)%Q /\ (0 < dval cached)%Q
       | KNOWN_FLAT => pa_venue_fresh a = true /\ pa_quantity a = dzero
                       /\ (dval venue == 0)%Q /\ (dval cached == 0)%Q
       end.
Proof.
  intros venue cached. unfold build.
  destruct (venue_freshness text snapshot fetched now window) as [fresh detail]. cbn [fst].
  set (st := {| re_account_id := account |}).
  assert (V : (dval (default dzero (re_venue_quantities st !! lookup_key b)) == dval venue)%Q
    /\ (dis_zero venue = false -> default dzero (re_venue_quantities st !! lookup_key b) = venue)).
  { destruct snapshot as [d|]; cbn; [apply collect_holdings | by rewrite lookup_empty]. }
  destruct (collect_holdings (lookup_key b) (omap cache_row cache)) as [C _].
  change (collect (omap cache_row cache)) with (re_cache_quantities st) in C. fold cached in C.
  destruct V as [V V']. unfold assess. change (re_venue_fresh st) with fresh.
  destruct fresh; cbn [negb]; [|eexists; split; [done|]; by split].
  set (v := default dzero (re_venue_quantities st !! _)) in *.
  set (c := default dzero (re_cache_quantities st !! _)) in *.
  assert (PV : (0 <= dval venue)%Q) by apply holdings_nonneg.
  assert (PC : (0 <= dval cached)%Q) by apply holdings_nonneg.
  assert (NZ : forall d, dis_zero d = false -> ~ (dval d == 0)%Q)
    by (intros d Z E; apply dis_zero_val in E; congruence).
  destruct (dis_zero v) eqn:Z; cbn [negb].
  - apply dis_zero_val in Z. destruct (dis_zero c) eqn:Y; cbn [negb]; eexists; (split; [done|]); cbn.
    + apply dis_zero_val in Y. split_and!; try done; [by rewrite <- V | by rewrite <- C].
    + apply NZ in Y. rewrite C in Y. split_and!; try done; [by rewrite <- V | lra].
  - assert (D : exists drift, (if dis_zero c then Ok false else drift_exceeds_tolerance v c) = Ok drift).
    { destruct (dis_zero c); [eauto|]. unfold drift_exceeds_tolerance.
      destruct (dis_zero (dabs v)) eqn:Y; [eauto|]. apply NZ in Y.
      destruct (ddiv_total (dabs (dabs v - dabs c)%dec) _ Y) as [q ->]. cbn. eauto. }
    destruct D as [drift ->]. cbn [mbind result_bind]. eexists. split; [done|]. cbn.
    apply NZ in Z. rewrite V in Z. split_and!; [done..| |lra].
    apply V'. destruct (dis_zero venue) eqn:Y; [apply dis_zero_val in Y; lra | done].
Qed.

(** ** Derived messages are the same operation *)

Lemma substring_all s : String.substring 0 (String.length s) s = s.
Proof. induction s as [|c s IH]; cbn; [done | by rewrite IH]. Qed.

Lemma strip_derived_cons c s :
  strip_derived (String c s) =
  if starts_with "-e" (String c s) && negb (is_empty (String.substring 1 (String.length s - 1) s))
     && sforall is_digit (String.substring 1 (String.length s - 1) s)
  then EmptyString else String c (strip_derived s).
Proof. done. Qed.

Lemma strip_derived_suffix m d :
  is_empty d = false -> sforall is_digit d = true -> strip_derived (m +:+ "-e" +:+ d) = m.
Proof.
  intros E D. induction m as [|c m IH].
  - change ("" +:+ "-e" +:+ d) with (String "-" (String "e" d)). rewrite strip_derived_cons. cbn [String.length].
    replace (S (String.length d) - 1)%nat with (String.length d) by lia.
    change (String.substring 1 (String.length d) (String "e" d)) with (String.substring 0 (String.length d) d).
    by rewrite substring_all, E, D.
  - rewrite sapp_cons, strip_derived_cons, IH. destruct m as [|e m].
    + cbn [String.append starts_with]. by rewrite andb_false_r.
    + rewrite sapp_cons. set (rest := m +:+ "-e" +:+ d). cbn [String.length].
      replace (S (String.length rest) - 1)%nat with (String.length rest) by lia.
      change (String.substring 1 (String.length rest) (String e rest))
        with (String.substring 0 (String.length rest) rest).
      rewrite substring_all. unfold rest. by rewrite sforall_app, !andb_false_r.
Qed.

(** A message derived from another by a [-eN] suffix denotes the same
    operation: its operation id is that of the base message, under either name
    of the book's side. *)
Theorem operation_id_stable account message action b revision d :
  strip message = message -> strip (message +:+ "-e" +:+ d) = message +:+ "-e" +:+ d ->
  strip_derived message = message -> is_empty d = false -> sforall is_digit d = true ->
  forall side side', (side, side') ∈ [("LONG", "BUY"); ("SHORT", "SELL"); ("long", "LONG"); ("sell", "Short")] ->
  let on s := {| bk_account_id := bk_account_id b; bk_instrument_id := bk_instrument_id b;
                 bk_position_side := s |} in
  semantic_operation_id account (message +:+ "-e" +:+ d) action (on side) revision
  = semantic_operation_id account message action (on side') revision.
Proof.
  intros S1 S2 B E D side side' H on. unfold semantic_operation_id.
  rewrite S1, S2, B, strip_derived_suffix by done. cbn [bk_account_id bk_instrument_id bk_position_side on].
  assert (N : normalize_position_side (PStr side) = normalize_position_side (PStr side')
    /\ is_empty (normalize_position_side (PStr side')) = false)
    by (elim_in H; simplify_eq; vm_compute; done).
  destruct N as [-> ->]. reflexivity.
Qed.

Lemma operation_id_stable_witness :
  strip_derived "msg-7" = "msg-7"
  /\ forall account b, semantic_operation_id account ("msg-7" +:+ "-e" +:+ "12") "open_position"
       {| bk_account_id := bk_account_id b; bk_instrument_id := bk_instrument_id b; bk_position_side := "LONG" |} 0
     = semantic_operation_id account "msg-7" "open_position"
       {| bk_account_id := bk_account_id b; bk_instrument_id := bk_instrument_id b; bk_position_side := "BUY" |} 0.
Proof.
  split; [reflexivity|]. intros account b.
  apply (operation_id_stable account "msg-7" "open_position" b 0 "12"); try reflexivity. left.
Defined.
