(* ===== verification/OwnershipLedger.v ===== *)
(** * OwnershipLedger: what the robot owns

    Models packages/execution-domain/execution_domain/ownership_ledger.py: the
    robot's position per symbol as the latest rebaseline marker plus the
    robot's own fills strictly after it, read from execution_events. *)

From Stdlib Require Import ZArith Lia Ascii QArith Lqa.
From S2P Require Import Prelude Decimal PyString DecText PyValue PyTime Identifiers Store Sha256 External OrderPlans Ledger.
Open Scope string_scope.
Open Scope Z_scope.

Definition OWNERSHIP_REBASELINE_EVENT_TYPE : string := "OwnershipRebaseline".
Definition OWNERSHIP_REBASELINE_SCHEMA_VERSION : string := "ownership-rebaseline/v1".
Definition ROBOT_FILL_EVENT_TYPES : list string := ["OrderFilled"; "OrderPartiallyFilled"].

Definition OwnershipLedgerError (msg : string) : exn := RuntimeError "OwnershipLedgerError" msg.
Definition bad_fill : exn := OwnershipLedgerError "robot-owned fill evidence is invalid".
Definition bad_baseline : exn := OwnershipLedgerError "ownership rebaseline evidence is invalid".

Definition require (b : bool) (e : exn) : result unit := if b then Ok tt else Raise e.

(** [(ts_event, created_at, event_id)], compared as a tuple. *)
Definition cutoff : Type := Z * Z * string.

Definition cutoff_leb (a b : cutoff) : bool :=
  let '(t, c, i) := a in let '(t', c', i') := b in
  if t =? t' then if c =? c' then String.leb i i' else c <? c' else t <? t'.

Record OwnershipBaseline := {
  ow_symbol : string;
  ow_quantity : dec;
  ow_cutoff : cutoff;
  ow_reason : string;
  ow_adjudicated_by : string;
  ow_request_id : string;
  ow_exchange_quantity : option dec;
  ow_manual_quantity : option dec;
  ow_payload : dict }.

Record OwnershipBalance := {
  wb_account_id : string;
  wb_symbol : string;
  wb_baseline_quantity : dec;
  wb_post_baseline_fill_quantity : dec;
  wb_quantity : dec;
  wb_fill_event_count : Z;
  wb_baseline : option OwnershipBaseline }.

(** [canonical_symbol] of a JSON value. *)
Definition symbol_value (v : pyval) : string :=
  canonical_symbol (if truthy v then Some (py_str v) else None).

(** [_payload_decimal] *)
Definition payload_decimal (payload : dict) (field_name : string) (required : bool)
  : result (option dec) :=
  let raw := dget field_name payload in
  if is_none raw && negb required then Ok None
  else match to_xdec raw ≫= is_finite with
       | Some d => Ok (Some d)
       | None => Raise bad_baseline
       end.

(** [_parse_baseline] *)
Definition parse_baseline (e : event_row) : result OwnershipBaseline :=
  let p := er_payload e in
  _ ← require match dget "ownership_schema_version" p with
              | PStr v => String.eqb v OWNERSHIP_REBASELINE_SCHEMA_VERSION
              | _ => false
              end bad_baseline;
  let symbol := symbol_value (py_or (dget "symbol" p) (dget "instrument_id" p)) in
  let reason := strip (text_or_empty (dget "reason" p)) in
  let adjudicated_by := strip (text_or_empty (dget "adjudicated_by" p)) in
  let request_id := strip (text_or_empty (dget "request_id" p)) in
  _ ← require (negb (is_empty symbol || is_empty reason || is_empty adjudicated_by || is_empty request_id))
        bad_baseline;
  quantity ← payload_decimal p "baseline_quantity" true;
  exchange ← payload_decimal p "exchange_quantity_at_baseline" false;
  manual ← payload_decimal p "manual_quantity_at_baseline" false;
  let quantity := default dzero quantity in
  _ ← require match exchange, manual with
              | Some x, Some m => deqb (quantity + m)%dec x
              | _, _ => true
              end bad_baseline;
  Ok {| ow_symbol := symbol; ow_quantity := quantity;
        ow_cutoff := (er_ts_event e, er_created_at e, er_event_id e); ow_reason := reason;
        ow_adjudicated_by := adjudicated_by; ow_request_id := request_id;
        ow_exchange_quantity := exchange; ow_manual_quantity := manual; ow_payload := p |}.

Definition event_cutoff (e : event_row) : cutoff := (er_ts_event e, er_created_at e, er_event_id e).

(** The account's events that satisfy a condition, by increasing cutoff. *)
Definition events_of (account_id : string) (cond : event_row -> bool) (d : Db) : list event_row :=
  sort_by (fun a b => cutoff_leb (event_cutoff a) (event_cutoff b))
    (List.filter (fun e => String.eqb (er_account_id e) account_id && cond e)
       (map snd (map_to_list (execution_events d)))).

Definition is_rebaseline (e : event_row) : bool :=
  String.eqb (er_event_type e) OWNERSHIP_REBASELINE_EVENT_TYPE.

(** The loop of [load_latest_ownership_baselines] over the markers, latest
    first: the first of a symbol is kept. *)
Fixpoint latest_baselines (markers : list event_row) (acc : gmap string OwnershipBaseline)
  : result (gmap string OwnershipBaseline) :=
  match markers with
  | [] => Ok acc
  | e :: markers =>
      baseline ← parse_baseline e;
      latest_baselines markers
        (match acc !! ow_symbol baseline with
         | Some _ => acc
         | None => <[ow_symbol baseline := baseline]> acc
         end)
  end.

Definition load_latest_ownership_baselines (account_id : string) (d : Db)
  : result (gmap string OwnershipBaseline) :=
  latest_baselines (rev (events_of account_id is_rebaseline d)) ∅.

(** The side of a fill; a list or a dictionary is not hashable. *)
Definition order_side (v : pyval) : result (option bool) :=
  let named s := if str_in s ["1"; "BUY"; "LONG"; "buy"; "long"] then Some true
                 else if str_in s ["2"; "SELL"; "SHORT"; "sell"; "short"] then Some false else None in
  let keyed :=
    match v with
    | PBool b => Ok (if b then Some true else None)
    | PInt z => Ok (if z =? 1 then Some true else if z =? 2 then Some false else None)
    | PFloat d | PDec (XFin d) =>
        Ok (if deqb d dec_one then Some true else if deqb d (Dec 2 0) then Some false else None)
    | PStr s => Ok (named s)
    | PList _ | PDict _ => Raise (TypeError "unhashable type")
    | _ => Ok None
    end in
  side ← keyed;
  Ok (match side with Some b => Some b | None => named (strip (text_or_empty v)) end).

(** [signed_fill_quantity] *)
Definition signed_fill_quantity (payload : dict) (event_type : string) : result dec :=
  if negb (str_in event_type ROBOT_FILL_EVENT_TYPES) then Ok dzero else
  let raw := match List.filter (fun v => negb (is_none v))
                     (map (fun f => dget f payload) ["last_qty"; "last_fill_qty"; "filled_qty"; "quantity"]) with
             | v :: _ => v
             | [] => PNone
             end in
  match to_xdec raw ≫= is_finite with
  | None => Raise bad_fill
  | Some quantity =>
      _ ← require (dltb dzero quantity) bad_fill;
      side ← order_side (if is_none (dget "side" payload) then dget "order_side" payload
                         else dget "side" payload);
      match side with
      | Some true => Ok quantity
      | Some false => Ok (dopp quantity)
      | None => Raise bad_fill
      end
  end.

(** [_fill_symbol]; the instrument of the order's projection comes last. *)
Definition fill_symbol (payload : dict) (projection_instrument : option string) : string :=
  match List.filter (fun s => negb (is_empty s))
          (map (fun f => symbol_value (dget f payload)) ["instrument_id"; "symbol"; "instrument"]) with
  | s :: _ => s
  | [] => canonical_symbol projection_instrument
  end.

Definition is_robot_fill (e : event_row) : bool :=
  from_option robot_pattern false (er_client_order_id e) && str_in (er_event_type e) ROBOT_FILL_EVENT_TYPES.

Definition event_symbol (d : Db) (account_id : string) (e : event_row) : string :=
  fill_symbol (er_payload e)
    (or_instrument_id <$> (c ← er_client_order_id e; orders_projection d !! (account_id, c))).

(** A fill at or before its symbol's marker is covered by the marker. *)
Definition is_covered (baseline : option OwnershipBaseline) (e : event_row) : bool :=
  match baseline with
  | Some b => cutoff_leb (event_cutoff e) (ow_cutoff b)
  | None => false
  end.

Record fill_tally := { ft_total : dec; ft_count : Z }.
Definition no_fills : fill_tally := {| ft_total := dzero; ft_count := 0 |}.

(** The loop of [load_robot_owned_balances] over the fills. *)
Fixpoint tally_fills (symbol_of_event : event_row -> string) (baselines : gmap string OwnershipBaseline)
    (fills : list event_row) (acc : gmap string fill_tally) : result (gmap string fill_tally) :=
  match fills with
  | [] => Ok acc
  | e :: fills =>
      let symbol := symbol_of_event e in
      if is_empty symbol || is_covered (baselines !! symbol) e
      then tally_fills symbol_of_event baselines fills acc
      else
        signed ← signed_fill_quantity (er_payload e) (er_event_type e);
        let old := default no_fills (acc !! symbol) in
        tally_fills symbol_of_event baselines fills
          (<[symbol := {| ft_total := (ft_total old + signed)%dec; ft_count := ft_count old + 1 |}]> acc)
  end.

Definition balance_of (account_id : string) (baselines : gmap string OwnershipBaseline)
    (tallies : gmap string fill_tally) (symbol : string) : OwnershipBalance :=
  let baseline := baselines !! symbol in
  let baseline_quantity := from_option ow_quantity dzero baseline in
  let fills := default no_fills (tallies !! symbol) in
  {| wb_account_id := account_id; wb_symbol := symbol; wb_baseline_quantity := baseline_quantity;
     wb_post_baseline_fill_quantity := ft_total fills;
     wb_quantity := (baseline_quantity + ft_total fills)%dec;
     wb_fill_event_count := ft_count fills; wb_baseline := baseline |}.

(** [load_robot_owned_balances]: a dictionary in the order of the symbols. *)
Definition load_robot_owned_balances (account_id : string) (apply_rebaseline : bool) (d : Db)
  : result (list (string * OwnershipBalance)) :=
  baselines ← (if apply_rebaseline then load_latest_ownership_baselines account_id d else Ok ∅);
  tallies ← tally_fills (event_symbol d account_id) baselines (events_of account_id is_robot_fill d) ∅;
  let symbols := sort_by String.leb (elements (dom baselines ∪ dom tallies : gset string)) in
  Ok (map (fun s => (s, balance_of account_id baselines tallies s)) symbols).

(** [load_robot_owned_balance] *)
Definition load_robot_owned_balance (account_id : string) (symbol : pyval) (apply_rebaseline : bool) (d : Db)
  : result OwnershipBalance :=
  let target := symbol_value symbol in
  if is_empty target then Raise (OwnershipLedgerError "ownership symbol is required") else
  balances ← load_robot_owned_balances account_id apply_rebaseline d;
  Ok (match find (fun p => String.eqb (fst p) target) balances with
      | Some (_, b) => b
      | None => balance_of account_id ∅ ∅ target
      end).

(** [select_flat_ownership_anchor] *)
Fixpoint first_flat (account_id : string) (symbols : list string) (d : Db) : result string :=
  match symbols with
  | [] => Raise (OwnershipLedgerError "robot-owned target symbol position is not flat")
  | s :: symbols =>
      balance ← load_robot_owned_balance account_id (PStr s) true d;
      if dis_zero (wb_quantity balance) then Ok s else first_flat account_id symbols d
  end.

Definition select_flat_ownership_anchor (account_id : string) (candidates : list pyval) (d : Db)
  : result string :=
  let normalized := fold_left (fun l c =>
    let s := symbol_value c in
    if negb (is_empty s) && negb (str_in s l) then (l ++ [s])%list else l) candidates [] in
  match normalized with
  | [] => Raise (OwnershipLedgerError "ownership anchor candidates are required")
  | _ => first_flat account_id normalized d
  end.

(** [build_rebaseline_payload]; the quantities are decimals of any kind. *)
Definition build_rebaseline_payload (symbol : pyval) (baseline exchange manual previous raw : xdec)
    (reason adjudicated_by request_id : string) : result dict :=
  let target := symbol_value symbol in
  _ ← require (negb (is_empty target)) (OwnershipLedgerError "ownership symbol is required");
  _ ← require (negb (is_empty (strip reason))) (OwnershipLedgerError "ownership rebaseline reason is required");
  _ ← require (negb (is_empty (strip adjudicated_by)))
        (OwnershipLedgerError "ownership rebaseline adjudicator is required");
  _ ← require (negb (is_empty (strip request_id)))
        (OwnershipLedgerError "ownership rebaseline request id is required");
  match baseline, exchange, manual, previous, raw with
  | XFin baseline, XFin exchange, XFin manual, XFin previous, XFin raw =>
      _ ← require (deqb (baseline + manual)%dec exchange)
            (OwnershipLedgerError "exchange quantity must equal robot baseline plus manual quantity");
      Ok [("ownership_schema_version", PStr OWNERSHIP_REBASELINE_SCHEMA_VERSION);
          ("symbol", PStr target); ("instrument_id", PStr (target +:+ "-PERP.BINANCE"));
          ("baseline_quantity", PStr (format_f baseline));
          ("exchange_quantity_at_baseline", PStr (format_f exchange));
          ("manual_quantity_at_baseline", PStr (format_f manual));
          ("previous_robot_owned_quantity", PStr (format_f previous));
          ("raw_robot_fill_quantity", PStr (format_f raw));
          ("reason", PStr (strip reason)); ("adjudicated_by", PStr (strip adjudicated_by));
          ("request_id", PStr (strip request_id));
          ("cutoff_semantics", PStr "fills strictly after marker (ts_event,created_at,event_id)")]
  | _, _, _, _, _ => Raise (OwnershipLedgerError "ownership rebaseline quantity is invalid")
  end.

(** ** The order of cutoffs *)

Lemma leb_string_cons a s b t :
  String.leb (String a s) (String b t)
  = match Ascii.compare a b with Lt => true | Eq => String.leb s t | Gt => false end.
Proof. unfold String.leb. cbn. by destruct (Ascii.compare a b). Qed.

Lemma leb_string_refl s : String.leb s s = true.
Proof. destruct (String.leb_total s s); done. Qed.

Lemma leb_string_trans s t u : String.leb s t = true -> String.leb t u = true -> String.leb s u = true.
Proof.
  revert t u. induction s as [|a s IH]; intros [|b t] [|c u] H1 H2; try done.
  rewrite leb_string_cons in *. unfold Ascii.compare in *.
  destruct (N.compare_spec (N_of_ascii a) (N_of_ascii b)) as [E1|E1|E1]; [| |done];
    destruct (N.compare_spec (N_of_ascii b) (N_of_ascii c)) as [E2|E2|E2]; try done;
    destruct (N.compare_spec (N_of_ascii a) (N_of_ascii c)) as [E3|E3|E3]; try done; try lia.
  by eapply IH.
Qed.

Lemma cutoff_total a b : cutoff_leb a b = true \/ cutoff_leb b a = true.
Proof.
  destruct a as [[t c] i], b as [[t' c'] i']. unfold cutoff_leb. rewrite (Z.eqb_sym t' t), (Z.eqb_sym c' c).
  destruct (t =? t') eqn:?; [|lia]. destruct (c =? c') eqn:?; [|lia]. apply String.leb_total.
Qed.

Lemma cutoff_trans a b c : cutoff_leb a b = true -> cutoff_leb b c = true -> cutoff_leb a c = true.
Proof.
  destruct a as [[t1 c1] i1], b as [[t2 c2] i2], c as [[t3 c3] i3]. unfold cutoff_leb.
  destruct (t1 =? t2) eqn:?, (t2 =? t3) eqn:?, (t1 =? t3) eqn:?; try lia.
  destruct (c1 =? c2) eqn:?, (c2 =? c3) eqn:?, (c1 =? c3) eqn:?; try lia. apply leb_string_trans.
Qed.

Definition by_cutoff (a b : event_row) : Prop := cutoff_leb (event_cutoff a) (event_cutoff b) = true.

Lemma events_sorted a cond d : StronglySorted by_cutoff (events_of a cond d).
Proof.
  unfold events_of, sort_by. apply StronglySorted_merge_sort.
  - intros x y z. apply cutoff_trans.
  - intros x y. apply cutoff_total.
Qed.

Lemma StronglySorted_rev {A} (R : A -> A -> Prop) l :
  StronglySorted R l -> StronglySorted (flip R) (rev l).
Proof.
  induction 1 as [|x l S IH F]; cbn; [constructor|].
  assert (G : Forall (fun y => R x y) (rev l)) by (by apply Forall_rev).
  clear S F. revert IH G. generalize (rev l) as r. induction r as [|y r IHr]; intros S G; cbn.
  - repeat constructor.
  - inversion S; subst. inversion G; subst. constructor; [by apply IHr|].
    apply Forall_app. split; [done|]. by repeat constructor.
Qed.

(** ** Markers *)

Lemma latest_baselines_spec markers acc acc' sym :
  latest_baselines markers acc = Ok acc' -> StronglySorted (flip by_cutoff) markers ->
  match acc !! sym with
  | Some b => acc' !! sym = Some b
  | None =>
      match acc' !! sym with
      | Some b => exists e, e ∈ markers /\ parse_baseline e = Ok b /\ ow_symbol b = sym
          /\ forall e' b', e' ∈ markers -> parse_baseline e' = Ok b' -> ow_symbol b' = sym -> by_cutoff e' e
      | None => forall e' b', e' ∈ markers -> parse_baseline e' = Ok b' -> ow_symbol b' <> sym
      end
  end.
Proof.
  intros H S. revert acc H. induction S as [|e markers S IH F]; intros acc H.
  { apply ok_inj in H as ->. destruct (acc' !! sym); [done | by inversion 1]. }
  cbn [latest_baselines] in H. apply rbind_inv_ok in H as (b & P & H). apply IH in H. clear IH.
  rewrite Forall_forall in F.
  destruct (decide (ow_symbol b = sym)) as [E|N].
  - rewrite E in H. destruct (acc !! sym) eqn:A; [by rewrite A in H|].
    rewrite lookup_insert_eq in H. rewrite H. exists e. split_and!; [left | done..|].
    intros e' b' I _ _. apply elem_of_cons in I as [->|I]; [|by apply F].
    unfold by_cutoff. by destruct (cutoff_total (event_cutoff e) (event_cutoff e)).
  - assert (X : match acc !! ow_symbol b with Some _ => acc | None => <[ow_symbol b:=b]> acc end !! sym = acc !! sym)
      by (destruct (acc !! ow_symbol b); [done | by rewrite lookup_insert_ne]).
    rewrite X in H. destruct (acc !! sym); [done|]. destruct (acc' !! sym) as [b'|].
    + destruct H as (e1 & I & P1 & E1 & M). exists e1. split_and!; [by right | done..|].
      intros e' b'' I' P' E'. apply elem_of_cons in I' as [->|I']; [congruence | by eapply M].
    + intros e' b' I P'. apply elem_of_cons in I as [->|I]; [congruence | by eapply H].
Qed.

(** ** Fills *)

(** The fills of a symbol that its marker does not cover. *)
Definition counted (symbol_of_event : event_row -> string) (baseline : option OwnershipBaseline)
    (sym : string) (fills : list event_row) : list event_row :=
  List.filter (fun e => String.eqb (symbol_of_event e) sym && negb (is_covered baseline e)) fills.

Definition tally (qs : list dec) (old : fill_tally) : fill_tally :=
  {| ft_total := fold_left dadd qs (ft_total old); ft_count := ft_count old + Z.of_nat (length qs) |}.

Lemma tally_fills_spec f baselines fills acc acc' sym :
  tally_fills f baselines fills acc = Ok acc' -> is_empty sym = false ->
  exists qs, Forall2 (fun e q => signed_fill_quantity (er_payload e) (er_event_type e) = Ok q)
               (counted f (baselines !! sym) sym fills) qs
    /\ default no_fills (acc' !! sym) = tally qs (default no_fills (acc !! sym)).
Proof.
  intros H NE. revert acc H. induction fills as [|e fills IH]; intros acc H; cbn [tally_fills] in H.
  { apply ok_inj in H as ->. exists []. split; [constructor|]. unfold tally. cbn.
    rewrite Z.add_0_r. by destruct (default _ _). }
  unfold counted in *. cbn [List.filter].
  destruct (String.eqb_spec (f e) sym) as [E|N].
  - subst sym. rewrite NE in H. cbn [orb] in H. destruct (is_covered (baselines !! f e) e); cbn [negb andb].
    + by apply IH.
    + apply rbind_inv_ok in H as (q & Q & H). destruct (IH _ H) as (qs & F & T).
      exists (q :: qs). split; [by constructor|]. rewrite T, lookup_insert_eq. unfold tally. cbn. f_equal. lia.
  - cbn [andb]. case_match; [by apply IH|]. apply rbind_inv_ok in H as (q & Q & H).
    destruct (IH _ H) as (qs & F & T). exists qs. split; [done|]. by rewrite T, lookup_insert_ne.
Qed.

(** C27. Every balance reported for an account is the evidence read the long
    way: the quantity of the symbol's latest valid rebaseline marker (nothing
    when there is none), plus the signed quantities of exactly those robot
    fills of the symbol that come strictly after that marker, each of which
    was readable. *)
Theorem balances_of_evidence a d bs sym b :
  load_robot_owned_balances a true d = Ok bs -> (sym, b) ∈ bs -> is_empty sym = false ->
  let markers := events_of a is_rebaseline d in
  let fills := counted (event_symbol d a) (wb_baseline b) sym (events_of a is_robot_fill d) in
  match wb_baseline b with
  | Some base => exists e, e ∈ markers /\ parse_baseline e = Ok base /\ ow_symbol base = sym
      /\ forall e' base', e' ∈ markers -> parse_baseline e' = Ok base' -> ow_symbol base' = sym -> by_cutoff e' e
  | None => forall e' base', e' ∈ markers -> parse_baseline e' = Ok base' -> ow_symbol base' <> sym
  end
  /\ exists qs, Forall2 (fun e q => signed_fill_quantity (er_payload e) (er_event_type e) = Ok q) fills qs
       /\ wb_fill_event_count b = Z.of_nat (length fills)
       /\ wb_quantity b = (from_option ow_quantity dzero (wb_baseline b) + dsum qs)%dec.
Proof.
  intros H I NE markers. unfold load_robot_owned_balances in H. run_inv.
  match goal with L : load_latest_ownership_baselines _ _ = Ok ?m |- _ => rename L into HB, m into baselines end.
  match goal with T : tally_fills _ _ _ _ = Ok ?m |- _ => rename T into HT, m into tallies end.
  apply list_elem_of_In, in_map_iff in I as (s & [= <- <-] & _). cbn [wb_baseline balance_of].
  split.
  - pose proof (latest_baselines_spec _ _ _ s HB (StronglySorted_rev _ _ (events_sorted _ _ _))) as L.
    rewrite lookup_empty in L. destruct (baselines !! s) as [base|].
    + destruct L as (e & I & P & E & M). exists e. split_and!; [|done..|].
      * by apply list_elem_of_In, in_rev, list_elem_of_In.
      * intros e' b' I'. apply M. by apply list_elem_of_In, in_rev; rewrite rev_involutive; apply list_elem_of_In.
    + intros e' b' I'. apply L. by apply list_elem_of_In, in_rev; rewrite rev_involutive; apply list_elem_of_In.
  - destruct (tally_fills_spec _ _ _ _ _ s HT NE) as (qs & F & T). rewrite lookup_empty in T. cbn in T.
    exists qs. split_and!; [done| |].
    + unfold balance_of. cbn. rewrite T. cbn. by rewrite (Forall2_length _ _ _ F).
    + unfold balance_of. cbn. by rewrite T.
Qed.

Definition sample_event (id type : string) (ts : Z) (payload : dict) : event_row :=
  {| er_event_id := id; er_schema_version := "1"; er_node_id := "n"; er_account_id := "a"; er_intent_id := None;
     er_client_order_id := if String.eqb type OWNERSHIP_REBASELINE_EVENT_TYPE then None
                           else Some "B0123456789abcdef0123456789abcdef01";
     er_venue_order_id := None; er_trade_id := None; er_event_type := type; er_ts_event := ts;
     er_ts_ingest := ts; er_payload := payload; er_created_at := ts |}.

Definition sample_fill (id side : string) (ts : Z) (qty : string) : event_row :=
  sample_event id "OrderFilled" ts
    [("instrument_id", PStr "BTCUSDT-PERP.BINANCE"); ("side", PStr side); ("last_qty", PStr qty)].

(** A fill of 5, a marker that restarts the count at 2, then fills of 1 and -0.5. *)
Definition sample_ledger : Db :=
  set_execution_events (fun _ => list_to_map (map (fun e => (er_event_id e, e))
    [sample_fill "f1" "BUY" 10 "5";
     sample_event "m1" OWNERSHIP_REBASELINE_EVENT_TYPE 20
       [("ownership_schema_version", PStr OWNERSHIP_REBASELINE_SCHEMA_VERSION); ("symbol", PStr "BTCUSDT");
        ("baseline_quantity", PStr "2"); ("reason", PStr "reset"); ("adjudicated_by", PStr "ops");
        ("request_id", PStr "r1")];
     sample_fill "f2" "BUY" 30 "1"; sample_fill "f3" "SELL" 40 "0.5"])) empty_db.

Lemma balances_of_evidence_witness :
  exists bs b, load_robot_owned_balances "a" true sample_ledger = Ok bs /\ ("BTCUSDT", b) ∈ bs
    /\ deqb (wb_quantity b) (Dec 25 (-1)) = true
    /\ exists qs, length qs = 2%nat
         /\ wb_quantity b = (from_option ow_quantity dzero (wb_baseline b) + dsum qs)%dec.
Proof.
  assert (T : match load_robot_owned_balances "a" true sample_ledger with
              | Ok [(s, b)] => String.eqb s "BTCUSDT" && deqb (wb_quantity b) (Dec 25 (-1))
                               && (wb_fill_event_count b =? 2)
              | _ => false
              end = true) by (vm_compute; reflexivity).
  destruct (load_robot_owned_balances "a" true sample_ledger) as [[|[s b] [|? ?]]|] eqn:E; try discriminate T.
  apply andb_prop in T as [T N]. apply andb_prop in T as [T Q]. apply String.eqb_eq in T as ->.
  exists [("BTCUSDT", b)], b. split; [reflexivity|]. split; [left|]. split; [exact Q|].
  destruct (balances_of_evidence _ _ _ _ _ E (list_elem_of_here _ _) eq_refl) as (_ & qs & F & C & W).
  exists qs. split; [|exact W]. apply Z.eqb_eq in N. apply Forall2_length in F. lia.
Defined.
