(* ===== verification/Binary64.v ===== *)
(** * Binary64: floats of decimals

    [float(Decimal)] rounds to the nearest binary64, ties to even, and a float
    is carried in this development by the decimal its [repr] denotes: the
    shortest one that rounds back to it. *)

From Stdlib Require Import ZArith Lia.
From S2P Require Import Prelude Decimal PyString DecText PyValue.
Open Scope string_scope.
Open Scope Z_scope.

(** A float [m * 2 ^ e]. *)
Definition b64 : Type := Z * Z.

(** The magnitude of a decimal as a fraction. *)
Definition dec_fraction (d : dec) : Z * Z :=
  if 0 <=? dexp d then (Z.abs (coef d) * 10 ^ dexp d, 1) else (Z.abs (coef d), 10 ^ (- dexp d)).

(** The largest [k] with [2 ^ k <= n / m]. *)
Definition floor_log2 (n m : Z) : Z :=
  let k := Z.log2 n - Z.log2 m in
  if m * 2 ^ Z.max 0 k <=? n * 2 ^ Z.max 0 (- k) then k else k - 1.

(** The nearest binary64; [None] overflows. *)
Definition to_binary64 (d : dec) : option b64 :=
  let '(n, m) := dec_fraction d in
  if n =? 0 then Some (0, 0) else
  let e := Z.max (floor_log2 n m - 52) (-1074) in
  let c := rdiv ROUND_HALF_EVEN (n * 2 ^ Z.max 0 (- e)) (m * 2 ^ Z.max 0 e) in
  if 1024 <=? Z.log2 c + e then None else Some (Z.sgn (coef d) * c, e).

(** The exact value of a float. *)
Definition b64_dec (b : b64) : dec :=
  let '(c, e) := b in if 0 <=? e then Dec (c * 2 ^ e) 0 else Dec (c * 5 ^ (- e)) e.

(** A decimal cut to [n] significant digits, without a bound on its length. *)
Definition cut_digits (n : Z) (d : dec) : dec :=
  let k := ndigits (coef d) - n in
  if k <=? 0 then d else Dec (rdiv ROUND_HALF_EVEN (coef d) (10 ^ k)) (dexp d + k).

Fixpoint shortest_from (fuel : nat) (n : Z) (b : b64) : dec :=
  match fuel with
  | O => b64_dec b
  | S fuel =>
      let d := cut_digits n (b64_dec b) in
      if bool_decide (b64_dec <$> to_binary64 d = Some (b64_dec b)) then d else shortest_from fuel (n + 1) b
  end.

(** What [repr] shows: at most seventeen digits are needed. *)
Definition shortest (b : b64) : dec := shortest_from 17 1 b.

(** [float(d)] *)
Definition float_of_dec (d : dec) : xdec :=
  match to_binary64 d with
  | Some b => XFin (shortest b)
  | None => XInf (coef d <? 0)
  end.

Example float_tenth : float_of_dec (Dec 1000 (-4)) = XFin (Dec 1 (-1)).
Proof. vm_compute. reflexivity. Qed.

Example float_third : float_of_dec (Dec 3333333333333333333333333333 (-28)) = XFin (Dec 3333333333333333 (-16)).
Proof. vm_compute. reflexivity. Qed.

Example float_price : float_of_dec (Dec 6412345 (-2)) = XFin (Dec 6412345 (-2)).
Proof. vm_compute. reflexivity. Qed.

(** ** Arithmetic

    A float is carried by its [repr] as an [xdec]; an operation takes the exact
    values of its operands, computes exactly and rounds.  The sign of a zero is
    not represented. *)

(** The float a carried decimal stands for, exactly. *)
Definition exact (d : dec) : dec := match to_binary64 d with Some b => b64_dec b | None => d end.

Definition exact_add (a b : dec) : dec :=
  let e := Z.min (dexp a) (dexp b) in Dec (shift_to e a + shift_to e b) e.

(** [x + y], [x - y], [x * y] and [abs(x)] *)
Definition fadd (x y : xdec) : xdec :=
  match x, y with
  | XFin a, XFin b => float_of_dec (exact_add (exact a) (exact b))
  | XNaN, _ | _, XNaN => XNaN
  | XInf p, XInf q => if Bool.eqb p q then XInf p else XNaN
  | XInf p, _ | _, XInf p => XInf p
  end.

Definition fneg (x : xdec) : xdec :=
  match x with XFin a => XFin (Dec (- coef a) (dexp a)) | XInf p => XInf (negb p) | XNaN => XNaN end.

Definition fsub (x y : xdec) : xdec := fadd x (fneg y).

Definition fsign (x : xdec) : Z :=
  match x with XFin a => Z.sgn (coef a) | XInf p => if p then -1 else 1 | XNaN => 0 end.

Definition fmul (x y : xdec) : xdec :=
  match x, y with
  | XFin a, XFin b => float_of_dec (let a := exact a in let b := exact b in Dec (coef a * coef b) (dexp a + dexp b))
  | XNaN, _ | _, XNaN => XNaN
  | _, _ => if fsign x * fsign y =? 0 then XNaN else XInf (fsign x * fsign y <? 0)
  end.

Definition fabs (x : xdec) : xdec := if fsign x <? 0 then fneg x else x.

(** [x > y] and [x >= y]: false on NaN. *)
Definition fgtb (x y : xdec) : bool := match xcompare x y with Some Gt => true | _ => false end.
Definition fgeb (x y : xdec) : bool := match xcompare x y with Some Lt | None => false | _ => true end.

(** [sum(xs)] of floats (Python 3.12): compensated summation.  [c] collects
    what the running sum loses, unless it is zero or not finite. *)
Fixpoint fsum_from (total c : xdec) (xs : list xdec) : xdec :=
  match xs with
  | [] => match c with XFin d => if dis_zero d then total else fadd total c | _ => total end
  | x :: xs =>
      let t := fadd total x in
      let lost := if fgeb (fabs total) (fabs x) then fadd (fsub total t) x else fadd (fsub x t) total in
      fsum_from t (fadd c lost) xs
  end.

Definition fsum (xs : list xdec) : xdec :=
  match xs with [] => XFin dzero | x :: xs => fsum_from x (XFin dzero) xs end.

Example fadd_tenths : fadd (XFin (Dec 1 (-1))) (XFin (Dec 2 (-1))) = XFin (Dec 30000000000000004 (-17)).
Proof. vm_compute. reflexivity. Qed.

Example fsum_tenths : fsum (repeat (XFin (Dec 1 (-1))) 10) = XFin (Dec 1 0).
Proof. vm_compute. reflexivity. Qed.

(** [format(x, "f")]: six decimals of the exact value, half to even. *)
Definition float_format_f (d : dec) : string :=
  let c := rescale ROUND_HALF_EVEN (exact d) (-6) in
  let ds := digits_of (Z.abs c) in
  let ds := zeros (7 - String.length ds) +:+ ds in
  (if coef d <? 0 then "-" else "") +:+ String.substring 0 (String.length ds - 6) ds +:+ "."
  +:+ String.substring (String.length ds - 6) 6 ds.

Example float_format_price : float_format_f (Dec 6412345 (-2)) = "64123.450000".
Proof. vm_compute. reflexivity. Qed.
