(* ===== verification/EntryBatch.v ===== *)
(** * EntryBatch: two explicit entries and per-order fill evidence

    Models packages/execution-domain/execution_domain/entry_batch.py.  The
    stash is a dictionary of rows in insertion order, and it keeps what a call
    wrote before it raised.  The texts of a row are decimals the module wrote
    itself; a non-finite one raises here as soon as it is read. *)

From Stdlib Require Import ZArith Lia QArith Qabs Qminmax Lqa.
From S2P Require Import Prelude Decimal PyString DecText PyValue Binary64 Store External.
Open Scope string_scope.
Open Scope Z_scope.

(** [positive] *)
Definition positive (value : pyval) : result dec :=
  match to_xdec value ≫= is_finite with
  | Some d => if dltb dzero d then Ok d else Raise (ValueError "entry batch requires finite positive numbers")
  | None => Raise (ValueError "entry batch requires finite positive numbers")
  end.

Definition batch_reference_price (first second stop : pyval) (side : string) : result dec :=
  first ← positive first;
  second ← positive second;
  stop ← positive stop;
  if negb (str_in side ["long"; "short"]) then Raise (ValueError "entry batch side must be long or short")
  else if String.eqb side "long" && dleb (dmin first second) stop
  then Raise (ValueError "long stop must be below both entries")
  else if String.eqb side "short" && dleb stop (dmax first second)
  then Raise (ValueError "short stop must be above both entries")
  else
    a ← ddiv dec_one first;
    b ← ddiv dec_one second;
    ddiv (Dec 2 0) (a + b)%dec.

Record Tranche := {
  tr_seq : Z;
  tr_tranche_id : string;
  tr_type : string;
  tr_quantity : string;
  tr_sizing_price : string;
  tr_price : xdec }.

Record EntryBatch := {
  eb_version : string;
  eb_allocation : string;
  eb_tranches : list Tranche;
  eb_estimated_stop_risk : string }.

(** One round of the loop over the prices. *)
Definition tranche (per_leg : dec) (index : Z) (kind : string) (price : dec) : result Tranche :=
  ratio ← ddiv per_leg price;
  quantity ← quantize ROUND_DOWN ratio (Dec 1 (-12));
  if dleb quantity dzero then Raise (ValueError "entry batch quantity rounded to zero")
  else Ok {| tr_seq := index + 1; tr_tranche_id := "e" +:+ int_str (index + 1); tr_type := kind;
             tr_quantity := format_f quantity; tr_sizing_price := format_f price;
             tr_price := float_of_dec price |}.

(** [positive(leg['quantity']) * abs(positive(leg['sizing_price']) - positive(stop))] *)
Definition leg_risk (stop : pyval) (leg : Tranche) : result dec :=
  quantity ← positive (PStr (tr_quantity leg));
  price ← positive (PStr (tr_sizing_price leg));
  stop ← positive stop;
  Ok (quantity * dabs (price - stop))%dec.

Definition build_entry_batch (first_type : string) (first second total_notional stop : pyval)
  : result EntryBatch :=
  if negb (str_in first_type ["market"; "limit"])
  then Raise (ValueError "batch first entry must be market or limit") else
  first ← positive first;
  second ← positive second;
  total ← positive total_notional;
  per_leg ← ddiv total (Dec 2 0);
  one ← tranche per_leg 0 first_type first;
  two ← tranche per_leg 1 "limit" second;
  risks ← mapR (leg_risk stop) [one; two];
  Ok {| eb_version := "1"; eb_allocation := "equal_notional"; eb_tranches := [one; two];
        eb_estimated_stop_risk := format_f (dsum risks) |}.

(** ** Fill evidence *)

Record batch_row := {
  br_role : string;
  br_trades : list (string * string);
  br_filled : string }.

Definition stash : Type := list (string * batch_row).

(** [Decimal(text)] of a text of the stash. *)
Definition text_dec (text : string) : result dec := x ← decimal_of (PStr text); finite x.

(** [sum((Decimal(value) for value in trades.values()), Decimal(0))] *)
Definition trade_total (trades : list (string * string)) : result dec :=
  dsum <$> mapR (fun p => text_dec (snd p)) trades.

(** The trades of a row after one more. *)
Definition record_trade (trades : list (string * string)) (trade_id last_quantity : pyval)
  : result (list (string * string)) :=
  if truthy trade_id then
    quantity ← positive last_quantity;
    same ← match aget (py_str trade_id) trades with
           | Some previous => p ← text_dec previous; Ok (deqb p quantity)
           | None => Ok true
           end;
    if same : bool then Ok (aset (py_str trade_id) (format_f quantity) trades)
    else Raise (ValueError "batch trade quantity changed")
  else Ok trades.

(** The largest of the trades, what was known and the cumulative quantity. *)
Definition filled_total (row : batch_row) (cumulative : option pyval) : result dec :=
  total ← trade_total (br_trades row);
  known ← text_dec (br_filled row);
  let total := dmax total known in
  match cumulative with
  | None => Ok total
  | Some c => c ← positive c; Ok (dmax total c)
  end.

(** [record_fill]; [cumulative] is [None] for [False]. *)
Definition record_fill (client_id role : string) (last_quantity trade_id : pyval) (cumulative : option pyval)
  : M stash unit :=
  if negb (str_in role ["entry"; "exit"]) then mraise (ValueError "invalid batch fill role")
  else if negb (truthy trade_id) && match cumulative with None => true | Some _ => false end
  then mraise (ValueError "batch fill needs a trade id or cumulative quantity")
  else
    state ← mget;
    let row := default {| br_role := role; br_trades := []; br_filled := "0" |} (aget client_id state) in
    _ ← mput (aset client_id row state);
    if negb (String.eqb (br_role row) role) then mraise (ValueError "batch order role changed")
    else
      trades ← mlift (record_trade (br_trades row) trade_id last_quantity);
      let row := {| br_role := role; br_trades := trades; br_filled := br_filled row |} in
      _ ← mmodify (aset client_id row);
      total ← mlift (filled_total row cumulative);
      mmodify (aset client_id {| br_role := role; br_trades := trades; br_filled := format_f total |}).

(** [owned_quantity] *)
Definition owned_quantity (state : stash) : result dec :=
  quantity ← foldR (fun quantity p =>
    filled ← text_dec (br_filled (snd p));
    Ok (if String.eqb (br_role (snd p)) "entry" then quantity + filled else quantity - filled)%dec) dzero state;
  Ok (dmax quantity dzero).

(** ** What is recorded *)

Lemma dltb_spec a b : reflect (dval a < dval b)%Q (dltb a b).
Proof. destruct (dltb a b) eqn:E; constructor; [by apply dltb_lt | by rewrite <- dltb_lt, E]. Qed.

(** The maximum with what was read back of the maximum is the same text. *)
Lemma dmax_replay a b c p :
  let total := dmax (dmax a b) c in
  p ≡ total -> format_f p = format_f total -> format_f (dmax (dmax a p) c) = format_f total.
Proof.
  intros total E F. unfold equiv, dec_equiv in E.
  pose proof (dmax_ub (dmax a b) c) as [U1 U3]. pose proof (dmax_ub a b) as [U0 U2]. fold total in U1, U3.
  unfold dmax at 2. destruct (dltb_spec a p) as [L|L].
  - unfold dmax. destruct (dltb_spec p c); [lra | done].
  - assert (total = a) as ->.
    { unfold total, dmax in *. destruct (dltb_spec a b); [destruct (dltb_spec b c) | destruct (dltb_spec a c)];
        solve [lra | done]. }
    unfold dmax. destruct (dltb_spec a c); [lra | done].
Qed.

Lemma text_dec_format d : text_dec (format_f d) = Ok (plain_form d).
Proof. unfold text_dec, decimal_of, to_xdec. cbn [py_str]. by rewrite parse_format_f_plain. Qed.

Lemma positive_inv v d : positive v = Ok d -> (0 < dval d)%Q.
Proof. unfold positive. repeat case_match; intros; simplify_eq. by apply dltb_lt in H0. Qed.

Lemma record_trade_replay trades t q trades' :
  record_trade trades t q = Ok trades' -> record_trade trades' t q = Ok trades'.
Proof.
  unfold record_trade. destruct (truthy t); [|done]. intros H. apply rbind_inv_ok in H as (x & Q & H).
  rewrite Q. apply rbind_inv_ok in H as ([] & _ & H); [|done]. apply ok_inj in H as <-.
  cbn [mbind result_bind]. rewrite aget_aset_eq, text_dec_format. cbn [mbind result_bind].
  replace (deqb (plain_form x) x) with true by (symmetry; apply deqb_eq, plain_form_equiv).
  by rewrite aset_same by apply aget_aset_eq.
Qed.

(** The row of an order as [record_fill] finds it. *)
Definition row_before (client_id role : string) (s : stash) : batch_row :=
  default {| br_role := role; br_trades := []; br_filled := "0" |} (aget client_id s).

(** A call that returns wrote the trades and the total of its row. *)
Lemma record_fill_inv client role q t cum s s' :
  record_fill client role q t cum s = (Ok tt, s') ->
  str_in role ["entry"; "exit"] = true
  /\ negb (truthy t) && match cum with None => true | Some _ => false end = false
  /\ br_role (row_before client role s) = role
  /\ exists trades total, record_trade (br_trades (row_before client role s)) t q = Ok trades
    /\ filled_total {| br_role := role; br_trades := trades; br_filled := br_filled (row_before client role s) |} cum
       = Ok total
    /\ s' = aset client {| br_role := role; br_trades := trades; br_filled := format_f total |} s.
Proof.
  unfold record_fill. fold (row_before client role s). intros H.
  destruct (str_in _ _) eqn:R; [|done]. destruct (negb (truthy t) && _) eqn:C; [done|]. cbn [negb] in H.
  unfold mbind, M_bind, mget, mput, mmodify, mlift, mraise in H. fold (row_before client role s) in H.
  destruct (String.eqb_spec (br_role (row_before client role s)) role) as [E|]; [|done]. cbn [negb] in H.
  destruct (record_trade _ t q) as [trades|] eqn:T; [|done].
  destruct (filled_total _ cum) as [total|] eqn:F; [|done]. simplify_eq.
  rewrite !aset_aset. split_and!; [done..|]. by exists trades, total.
Qed.

Lemma record_fill_run client role q t cum s trades total :
  str_in role ["entry"; "exit"] = true ->
  negb (truthy t) && match cum with None => true | Some _ => false end = false ->
  br_role (row_before client role s) = role ->
  record_trade (br_trades (row_before client role s)) t q = Ok trades ->
  filled_total {| br_role := role; br_trades := trades; br_filled := br_filled (row_before client role s) |} cum
    = Ok total ->
  record_fill client role q t cum s
  = (Ok tt, aset client {| br_role := role; br_trades := trades; br_filled := format_f total |} s).
Proof.
  intros R C E T F. unfold record_fill. rewrite R, C. cbn [negb].
  unfold mbind, M_bind, mget, mput, mmodify, mlift, mraise. fold (row_before client role s).
  rewrite E, String.eqb_refl, T. cbn [negb]. rewrite F. by rewrite !aset_aset.
Qed.

Lemma filled_total_replay row cum total :
  filled_total row cum = Ok total ->
  exists total', filled_total {| br_role := br_role row; br_trades := br_trades row; br_filled := format_f total |} cum
                 = Ok total'
    /\ format_f total' = format_f total.
Proof.
  unfold filled_total. cbn [br_trades br_filled]. intros H.
  apply rbind_inv_ok in H as (sum & S & H). apply rbind_inv_ok in H as (known & K & H).
  rewrite S, text_dec_format. cbn [mbind result_bind].
  destruct cum as [v|].
  - apply rbind_inv_ok in H as (c & P & H). apply ok_inj in H as <-. rewrite P. cbn [mbind result_bind].
    eexists. split; [done|]. apply dmax_replay; [apply plain_form_equiv | apply format_f_plain_form].
  - apply ok_inj in H as <-. eexists. split; [done|].
    assert (D : forall x y, dmax (dmax x y) x = dmax x y).
    { intros x y. pose proof (dmax_ub x y) as [U _]. unfold dmax at 1. destruct (dltb_spec (dmax x y) x); [lra | done]. }
    pose proof (dmax_replay sum known sum (plain_form (dmax sum known))) as X. cbv zeta in X. rewrite !D in X.
    apply X; [apply plain_form_equiv | apply format_f_plain_form].
Qed.

(** Recording a fill of an order leaves every other order alone, keeps the
    order's role, and sets its filled quantity to the largest of the sum of
    its distinct trades, what was known before and the cumulative quantity,
    so that it never decreases; recording the same fill again succeeds and
    changes nothing. *)
Theorem fill_evidence client role q t cum s s' :
  record_fill client role q t cum s = (Ok tt, s') ->
  let before := row_before client role s in
  record_fill client role q t cum s' = (Ok tt, s')
  /\ (forall c, c <> client -> aget c s' = aget c s)
  /\ exists row total sum known,
       aget client s' = Some row /\ br_role row = role /\ br_role before = role
       /\ text_dec (br_filled row) = Ok total /\ trade_total (br_trades row) = Ok sum
       /\ text_dec (br_filled before) = Ok known
       /\ match cum with
          | Some v => exists c, positive v = Ok c
              /\ (dval total == Qmax (Qmax (dval sum) (dval known)) (dval c))%Q
          | None => (dval total == Qmax (dval sum) (dval known))%Q
          end.
Proof.
  intros H before. apply record_fill_inv in H as (R & C & E & trades & total & T & F & ->). fold before in E, T, F.
  split_and!.
  - destruct (filled_total_replay _ _ _ F) as (total' & F' & X). cbn [br_role br_trades] in F'.
    erewrite record_fill_run with (total := total') (trades := trades); [|done|done|..].
    + by rewrite X, aset_aset.
    + unfold row_before. by rewrite aget_aset_eq.
    + unfold row_before. rewrite aget_aset_eq. cbn [default br_trades]. by eapply record_trade_replay.
    + unfold row_before. by rewrite aget_aset_eq.
  - intros c N. by apply aget_aset_ne.
  - unfold filled_total in F. cbn [br_trades br_filled] in F.
    apply rbind_inv_ok in F as (sum & S & F). apply rbind_inv_ok in F as (known & K & F).
    eexists _, (plain_form total), sum, known. rewrite aget_aset_eq. split_and!; [done..| | done | done |].
    + apply text_dec_format.
    + destruct cum as [v|].
      * apply rbind_inv_ok in F as (c & P & F). apply ok_inj in F as <-. exists c. split; [done|].
        rewrite plain_form_equiv, dmax_val. by rewrite dmax_val.
      * apply ok_inj in F as <-. by rewrite plain_form_equiv, dmax_val.
Qed.

Lemma fill_evidence_witness :
  exists s', record_fill "c1" "entry" (PStr "1.50") (PStr "t1") (Some (PStr "2")) [] = (Ok tt, s')
    /\ record_fill "c1" "entry" (PStr "1.50") (PStr "t1") (Some (PStr "2")) s' = (Ok tt, s').
Proof.
  assert (T : is_ok (fst (record_fill "c1" "entry" (PStr "1.50") (PStr "t1") (Some (PStr "2")) [])) = true)
    by (vm_compute; reflexivity).
  destruct (record_fill "c1" "entry" (PStr "1.50") (PStr "t1") (Some (PStr "2")) []) as [[[]|e] s'] eqn:E; [|discriminate T].
  exists s'. split; [reflexivity|].
  exact (proj1 (fill_evidence _ _ _ _ _ _ _ E)).
Defined.

(** ** The batch commits the approved notional *)

(** A leg's quantity is positive, and at its price it is worth at most its
    half of the notional and at least that less one unit of quantity, up to
    the rounding of two divisions. *)
Lemma tranche_spec per_leg i kind price leg :
  tranche per_leg i kind price = Ok leg -> (0 < dval per_leg)%Q -> (0 < dval price)%Q ->
  exists q, text_dec (tr_quantity leg) = Ok q /\ tr_type leg = kind
    /\ (0 < dval q)%Q
    /\ (dval q * dval price <= (1 + eps) * dval per_leg)%Q
    /\ ((1 - eps) * dval per_leg <= (dval q + pow10 (-12)) * dval price)%Q.
Proof.
  intros H P0 P1. unfold tranche in H. apply rbind_inv_ok in H as (ratio & R & H).
  apply rbind_inv_ok in H as (q & Q & H). case_match eqn:N; simplify_eq. apply dleb_gt in N.
  change (dval dzero) with 0%Q in N.
  exists (plain_form q). cbn [tr_quantity tr_type]. rewrite text_dec_format.
  assert (E : (dval (plain_form q) == dval q)%Q) by apply plain_form_equiv. rewrite !E.
  pose proof (ddiv_pos _ _ _ R P0 P1) as R0. pose proof (ddiv_approx _ _ _ R) as A.
  apply quantize_down in Q as [L U]; [|lra]. cbn [dexp] in U.
  assert (D : (0 < dval per_leg / dval price)%Q) by (by apply Qlt_shift_div_l; [|rewrite Qmult_0_l]).
  unfold approx in A. rewrite (Qabs_pos (dval per_leg / dval price)) in A by lra. apply Qabs_Qle_condition in A as [A1 A2].
  assert (X : (dval per_leg / dval price * dval price == dval per_leg)%Q) by (field; lra).
  split_and!; [done | done | done | |].
  - assert (dval q <= (1 + eps) * (dval per_leg / dval price))%Q by lra.
    rewrite <- X at 1. rewrite Qmult_assoc. apply Qmult_le_compat_r; lra.
  - rewrite <- X at 1. rewrite Qmult_assoc. apply Qmult_le_compat_r; lra.
Qed.

(** An entry batch has exactly two legs, the first of the asked type at the
    first price and the second a limit order at the second price, both of
    positive quantity; each leg is worth at most half of the approved notional
    at its price, and at least that half less one unit of quantity, up to the
    relative rounding of two divisions. *)
Theorem legs_equal_notional first_type first second total stop b :
  build_entry_batch first_type first second total stop = Ok b ->
  exists p1 p2 n l1 l2 q1 q2,
    positive first = Ok p1 /\ positive second = Ok p2 /\ positive total = Ok n
    /\ eb_tranches b = [l1; l2] /\ tr_type l1 = first_type /\ tr_type l2 = "limit"
    /\ text_dec (tr_quantity l1) = Ok q1 /\ text_dec (tr_quantity l2) = Ok q2
    /\ (0 < dval q1)%Q /\ (0 < dval q2)%Q
    /\ (dval q1 * dval p1 <= (1 + eps) * (1 + eps) * (dval n / 2))%Q
    /\ (dval q2 * dval p2 <= (1 + eps) * (1 + eps) * (dval n / 2))%Q
    /\ ((1 - eps) * (1 - eps) * (dval n / 2) <= (dval q1 + pow10 (-12)) * dval p1)%Q
    /\ ((1 - eps) * (1 - eps) * (dval n / 2) <= (dval q2 + pow10 (-12)) * dval p2)%Q.
Proof.
  intros H. unfold build_entry_batch in H. case_match; [done|].
  apply rbind_inv_ok in H as (p1 & P1 & H). apply rbind_inv_ok in H as (p2 & P2 & H).
  apply rbind_inv_ok in H as (n & N & H). apply rbind_inv_ok in H as (leg & L & H).
  apply rbind_inv_ok in H as (l1 & T1 & H). apply rbind_inv_ok in H as (l2 & T2 & H).
  apply rbind_inv_ok in H as (risks & _ & H). apply ok_inj in H as <-.
  pose proof (positive_inv _ _ P1). pose proof (positive_inv _ _ P2). pose proof (positive_inv _ _ N).
  assert (L0 : (0 < dval leg)%Q) by (eapply ddiv_pos; [exact L | done | by compute]).
  pose proof (ddiv_approx _ _ _ L) as A. change (dval (Dec 2 0)) with (2 * 1)%Q in A. rewrite Qmult_1_r in A.
  unfold approx in A. assert (D : (0 < dval n / 2)%Q) by (apply Qlt_shift_div_l; [done | lra]).
  rewrite (Qabs_pos (dval n / 2)) in A by lra. apply Qabs_Qle_condition in A as [A1 A2].
  destruct (tranche_spec _ _ _ _ _ T1) as (q1 & X1 & Y1 & Z1 & U1 & V1); [done..|].
  destruct (tranche_spec _ _ _ _ _ T2) as (q2 & X2 & Y2 & Z2 & U2 & V2); [done..|].
  exists p1, p2, n, l1, l2, q1, q2. split_and!; try done.
  - rewrite <- Qmult_assoc. eapply Qle_trans; [exact U1|]. apply Qmult_le_l; [by compute | lra].
  - rewrite <- Qmult_assoc. eapply Qle_trans; [exact U2|]. apply Qmult_le_l; [by compute | lra].
  - rewrite <- Qmult_assoc. eapply Qle_trans; [|exact V1]. apply Qmult_le_l; [by compute | lra].
  - rewrite <- Qmult_assoc. eapply Qle_trans; [|exact V2]. apply Qmult_le_l; [by compute | lra].
Qed.

Lemma legs_equal_notional_witness :
  exists b l1 l2, build_entry_batch "market" (PStr "100") (PStr "80") (PStr "1000") (PStr "70") = Ok b
    /\ eb_tranches b = [l1; l2] /\ tr_quantity l1 = "5.000000000000" /\ tr_type l2 = "limit".
Proof.
  assert (T : match build_entry_batch "market" (PStr "100") (PStr "80") (PStr "1000") (PStr "70") with
              | Ok b => match eb_tranches b with l1 :: _ => String.eqb (tr_quantity l1) "5.000000000000" | _ => false end
              | _ => false end = true) by (vm_compute; reflexivity).
  destruct (build_entry_batch _ _ _ _ _) as [b|] eqn:E; [|discriminate T].
  destruct (legs_equal_notional _ _ _ _ _ _ E) as (p1 & p2 & n & l1 & l2 & q1 & q2 & _ & _ & _ & L & _ & K & _).
  rewrite L in T. apply String.eqb_eq in T. exists b, l1, l2.
  split; [reflexivity|]. split; [exact L|]. split; [exact T | exact K].
Defined.
