(* ===== verification/Watchdog.v ===== *)
(** * Watchdog: positions whose protection does not work on the venue

    Models order_management/protection_watchdog.py, a client of the ownership
    ledger: the positions are the robot's own balances, and each active
    protective order of the projection must have a working order on the
    venue.  The dispatcher is a parameter. *)

From Stdlib Require Import ZArith Lia.
From S2P Require Import Prelude Decimal PyString DecText PyValue Identifiers Store OrderReducer PositionReducer Sha256 External Exits Protection Recovery Ledger OwnershipLedger.
Open Scope string_scope.
Open Scope Z_scope.

Record ProtectionWatchdogResult := { wr_missing_count : Z; wr_findings : list finding_row }.

Record watched_position := {
  wp_position_key : string; wp_venue_symbol : string; wp_quantity : dec }.

(** The keys and roles of the working orders of the venue. *)
Definition venue_keys (orders : list dict) : list (string * string) :=
  omap (fun order =>
    if str_in (lower (py_str (py_or (dget "status" order) (PStr "working")))) ["working"; "accepted"; "open"]
    then Some (py_str (dget "position_key" order), order_role order) else None) orders.

(** Latest update first, then by id. *)
Definition later_position (a b : string * position_row) : bool :=
  if po_updated_at (snd a) =? po_updated_at (snd b) then String.leb (fst a) (fst b)
  else po_updated_at (snd b) <? po_updated_at (snd a).

(** The position id the projection has for a symbol and side: the first of
    the rows with that key. *)
Definition projection_key (account_id symbol side : string) (d : Db) : option string :=
  fst <$> find (fun p => String.eqb (canonical_symbol (Some (po_instrument_id (snd p)))) symbol
                         && String.eqb (lower (strip (po_side (snd p)))) side)
            (sort_by later_position (open_rows account_id d)).

Definition watched (account_id : string) (d : Db) (p : string * OwnershipBalance) : option watched_position :=
  let '(symbol, balance) := p in
  let quantity := wb_quantity balance in
  if dis_zero quantity then None else
  let side := if dltb quantity dzero then "short" else "long" in
  let key := match projection_key account_id symbol side d with
             | Some k => if is_empty k then account_id +:+ ":" +:+ symbol +:+ ":" +:+ side else k
             | None => account_id +:+ ":" +:+ symbol +:+ ":" +:+ side
             end in
  Some {| wp_position_key := key; wp_venue_symbol := symbol; wp_quantity := dabs quantity |}.

(** [_open_positions] of the watchdog. *)
Definition watched_positions (account_id : string) (d : Db) : result (list watched_position) :=
  balances ← load_robot_owned_balances account_id true d;
  Ok (omap (M := list) (watched account_id d) balances).

(** [_expected_protection]: the roles of the active protective orders. *)
Definition expected_protection (account_id position_key : string) (d : Db) : list string :=
  map pr_lifecycle_role
    (List.filter (protects account_id position_key (fun _ => true)) (protective_orders d)).

(** [_missing_roles] *)
Definition missing_roles (expected : list string) (keys : list (string * string)) (position_key : string)
  : list string :=
  match expected with
  | [] => ["stop_loss"]
  | _ => List.filter (fun role => negb (bool_decide ((position_key, role) ∈ keys))) expected
  end.

Section watchdog.
Context {X : Type} (dispatcher : option (string -> finding_row -> M X unit)).
Context (account_id policy : string) (keys : list (string * string)).

Definition report (position : watched_position) (role : string) : M (X * Conn) finding_row :=
  finding ← on_conn (record_reconciliation_finding account_id "missing_protection" "error"
    [("position_key", PStr (wp_position_key position)); ("venue_symbol", PStr (wp_venue_symbol position));
     ("lifecycle_role", PStr role); ("quantity", PStr (dec_str (wp_quantity position)))]
    (Some (wp_position_key position)) None None "protection_watchdog");
  _ ← match dispatcher with
      | Some dispatch => on_external (dispatch policy finding)
      | None => mret tt
      end;
  mret finding.

(** The loop over the positions. *)
Fixpoint inspect (positions : list watched_position) : M (X * Conn) (list finding_row) :=
  match positions with
  | [] => mret []
  | position :: positions =>
      expected ← on_conn (select (expected_protection account_id (wp_position_key position)));
      findings ← mmapM (report position) (missing_roles expected keys (wp_position_key position));
      rest ← inspect positions;
      mret (findings ++ rest)%list
  end.

End watchdog.

(** [ProtectionWatchdog.check] *)
Definition check_protection {X} (dispatcher : option (string -> finding_row -> M X unit)) (account_id : string)
    (venue_working_orders : list dict) (policy : string) : M (X * Conn) ProtectionWatchdogResult :=
  findings ← transaction_in (
    positions ← on_conn (select (watched_positions account_id));
    positions ← mlift positions;
    inspect dispatcher account_id policy (venue_keys venue_working_orders) positions);
  mret {| wr_missing_count := Z.of_nat (length findings); wr_findings := findings |}.

(** ** What is reported *)

(** The positions and roles that lack a working order. *)
Definition unprotected (account_id : string) (keys : list (string * string)) (d : Db)
    (positions : list watched_position) : list (string * string) :=
  flat_map (fun p => map (pair (wp_position_key p))
    (missing_roles (expected_protection account_id (wp_position_key p) d) keys (wp_position_key p))) positions.

(** What a finding says. *)
Definition says (account_id : string) (f : finding_row) (gap : string * string) : Prop :=
  fi_account_id f = account_id /\ fi_finding_type f = "missing_protection"
  /\ fi_position_key f = Some (fst gap) /\ dget "lifecycle_role" (fi_payload f) = PStr (snd gap).

Section reports.
Context {X : Type} (dispatcher : option (string -> finding_row -> M X unit)).
Context (account_id policy : string) (keys : list (string * string)).

Lemma record_finding_appends a t sv p pk op rr reason s f s' :
  record_reconciliation_finding a t sv p pk op rr reason s = (Ok f, s') ->
  reconciliation_findings (current s') = (reconciliation_findings (current s) ++ [f])%list
  /\ protective_orders (current s') = protective_orders (current s)
  /\ fi_account_id f = a /\ fi_finding_type f = t /\ fi_position_key f = pk /\ fi_payload f = p.
Proof.
  unfold record_reconciliation_finding, create_reconciliation_run. intros H. run_inv.
  destruct (str_or rr None); run_inv; run_frame; by split_and!.
Qed.

Lemma report_inv p role w f w' :
  report dispatcher account_id policy p role w = (Ok f, w') ->
  says account_id f (wp_position_key p, role)
  /\ reconciliation_findings (current (snd w')) = (reconciliation_findings (current (snd w)) ++ [f])%list
  /\ protective_orders (current (snd w')) = protective_orders (current (snd w)).
Proof.
  unfold report. intros H. run_inv.
  match goal with H : on_conn _ _ = _ |- _ => apply on_conn_inv in H as [H _]; apply record_finding_appends in H as (A & B & C & D & E & F) end.
  assert (K : forall w1 w2 u, (match dispatcher with
      | Some dispatch => on_external (dispatch policy f) | None => mret tt end) w1 = (Ok u, w2) -> snd w2 = snd w1).
  { intros w1 w2 u. destruct dispatcher; [|by intros; run_inv]. intros G. by apply on_external_inv in G as [_ ?]. }
  match goal with H : _ = (Ok _, w') |- _ => apply K in H as -> end.
  split_and!; [|done..]. unfold says. by rewrite F.
Qed.

Lemma reports_inv p roles w fs w' :
  mmapM (report dispatcher account_id policy p) roles w = (Ok fs, w') ->
  Forall2 (says account_id) fs (map (pair (wp_position_key p)) roles)
  /\ reconciliation_findings (current (snd w')) = (reconciliation_findings (current (snd w)) ++ fs)%list
  /\ protective_orders (current (snd w')) = protective_orders (current (snd w)).
Proof.
  revert w fs. induction roles as [|role roles IH]; intros w fs H; cbn [mmapM map] in *; run_inv.
  { split_and!; [constructor | by rewrite app_nil_r | done]. }
  match goal with H : report _ _ _ _ _ _ = _ |- _ => apply report_inv in H as (S & F & P) end.
  match goal with H : mmapM _ _ _ = _ |- _ => apply IH in H as (S' & F' & P') end.
  split_and!; [by constructor | by rewrite F', F, <- app_assoc | by rewrite P'].
Qed.

Lemma inspect_inv positions w fs w' :
  inspect dispatcher account_id policy keys positions w = (Ok fs, w') ->
  Forall2 (says account_id) fs (unprotected account_id keys (current (snd w)) positions)
  /\ reconciliation_findings (current (snd w')) = (reconciliation_findings (current (snd w)) ++ fs)%list
  /\ protective_orders (current (snd w')) = protective_orders (current (snd w)).
Proof.
  revert w fs. induction positions as [|p positions IH]; intros w fs H; cbn [inspect] in H; run_inv.
  { split_and!; [constructor | by rewrite app_nil_r | done]. }
  match goal with H : on_conn _ _ = _ |- _ => apply on_conn_inv in H as [H E1]; apply select_inv in H as [-> E2] end.
  match goal with H : mmapM _ _ _ = _ |- _ => apply reports_inv in H as (S & F & P) end.
  match goal with H : inspect _ _ _ _ _ _ = _ |- _ => apply IH in H as (S' & F' & P') end.
  rewrite E2 in *.
  assert (U : unprotected account_id keys (current (snd s0)) positions
              = unprotected account_id keys (current (snd w)) positions).
  { unfold unprotected, expected_protection. by rewrite P. }
  split_and!.
  - rewrite U in S'. unfold unprotected. cbn [flat_map]. by apply Forall2_app.
  - by rewrite F', F, app_assoc.
  - by rewrite P'.
Qed.

End reports.

(** The watchdog reports exactly the gaps in the protection of the robot's
    own open positions: one stored finding, in order, for each position and
    role with an active protective order that no working venue order carries,
    and a missing stop for a position without any active protective order. *)
Theorem watchdog_reports {X} (dispatcher : option (string -> finding_row -> M X unit)) account_id venue policy w r w' :
  check_protection dispatcher account_id venue policy w = (Ok r, w') ->
  let d := current (snd w) in
  exists positions, watched_positions account_id d = Ok positions
    /\ Forall2 (says account_id) (wr_findings r) (unprotected account_id (venue_keys venue) d positions)
    /\ reconciliation_findings (committed (snd w')) = (reconciliation_findings d ++ wr_findings r)%list
    /\ wr_missing_count r = Z.of_nat (length (wr_findings r))
    /\ forall p, p ∈ positions -> (forall f, f ∈ wr_findings r -> fi_position_key f <> Some (wp_position_key p)) ->
         exists row, row ∈ protective_orders d /\ protects account_id (wp_position_key p) (fun _ => true) row = true
           /\ forall row, row ∈ protective_orders d ->
                protects account_id (wp_position_key p) (fun _ => true) row = true ->
                (wp_position_key p, pr_lifecycle_role row) ∈ venue_keys venue.
Proof.
  intros H d. unfold check_protection in H. run_inv.
  match goal with H : transaction_in _ _ = _ |- _ => apply transaction_in_inv in H as (w1 & H & ->) end. run_inv.
  match goal with H : on_conn _ _ = _ |- _ => apply on_conn_inv in H as [H _]; apply select_inv in H as [E1 E2] end.
  match goal with H : inspect _ _ _ _ _ _ = _ |- _ => apply inspect_inv in H as (S & F & _) end.
  rewrite E2 in *. match goal with H : _ = Ok ?l |- _ => rewrite E1 in H; exists l; rename l into positions end.
  cbn [wr_findings wr_missing_count snd commit committed]. split_and!; try done.
  intros p I N.
  assert (Z : missing_roles (expected_protection account_id (wp_position_key p) d) (venue_keys venue)
                (wp_position_key p) = []).
  { destruct (missing_roles _ _ _) as [|role roles] eqn:M; [done|]. exfalso.
    assert (G : (wp_position_key p, role) ∈ unprotected account_id (venue_keys venue) d positions).
    { unfold unprotected. apply list_elem_of_In, in_flat_map. exists p. split; [by apply list_elem_of_In|].
      rewrite M. by left. }
    apply list_elem_of_lookup in G as [i G]. destruct (Forall2_lookup_r _ _ _ _ _ S G) as (f & L & (_ & _ & K & _)).
    eapply N; [by eapply list_elem_of_lookup_2 | done]. }
  unfold missing_roles, expected_protection in Z.
  destruct (List.filter _ (protective_orders d)) as [|row rows] eqn:L; [done|]. cbn [map] in Z.
  assert (R : forall row', In row' (row :: rows) <-> In row' (protective_orders d)
                /\ protects account_id (wp_position_key p) (fun _ => true) row' = true).
  { intros row'. rewrite <- L. apply filter_In. }
  exists row. destruct (proj1 (R row) (or_introl eq_refl)) as [I0 P0].
  split_and!; [by apply list_elem_of_In | done|]. intros row' I' P'.
  assert (In row' (row :: rows)) as I1 by (apply R; split; [by apply list_elem_of_In | done]).
  destruct (decide ((wp_position_key p, pr_lifecycle_role row') ∈ venue_keys venue)) as [|Q]; [done|]. exfalso.
  assert (B : In (pr_lifecycle_role row') []); [|done].
  rewrite <- Z. apply filter_In. split; [exact (in_map pr_lifecycle_role _ _ I1) | by rewrite bool_decide_eq_false_2].
Qed.

Lemma watchdog_reports_witness :
  let w := ((), {| committed := sample_ledger; current := sample_ledger; uuids := 0; clock := 0 |}) in
  exists r w', check_protection None "a" [] "REDUCING" w = (Ok r, w') /\ wr_missing_count r = 1
    /\ exists positions, watched_positions "a" sample_ledger = Ok positions
         /\ Forall2 (says "a") (wr_findings r) (unprotected "a" [] sample_ledger positions).
Proof.
  intros w.
  assert (T : match fst (check_protection None "a" [] "REDUCING" w) with
              | Ok r => wr_missing_count r =? 1 | _ => false end = true) by (vm_compute; reflexivity).
  destruct (check_protection None "a" [] "REDUCING" w) as [[r|] w'] eqn:E; [|discriminate T].
  exists r, w'. split; [reflexivity|]. split; [by apply Z.eqb_eq in T|].
  destruct (watchdog_reports _ _ _ _ _ _ _ E) as (ps & P & F & _). exists ps. split; [exact P | exact F].
Defined.
