(* ===== verification/Planner.v ===== *)
(** * Planner: what the node executes for an approved intent

    Models nautilus-node/strategy/intent_execution_planner.py from
    [plan_intent_execution] down: one intent and what the node knows give one
    order, a management plan, or a denial.  Order plans, executions, sizings
    and settings are JSON dictionaries; the identifiers of an intent are text,
    and its [intent_id] the hexadecimal digits of a UUID.  The reconciled state
    of the books is the one of the execution ledger. *)

From Stdlib Require Import ZArith Lia Ascii QArith Qabs Lqa.
From S2P Require Import Prelude Decimal PyString DecText PyValue PyTime Identifiers Store Sha256 External OrderPlans Ledger.
Open Scope string_scope.
Open Scope Z_scope.

(** ** Actions *)

Definition OPEN_POSITION : string := "open_position".
Definition ADD_POSITION : string := "add_position".
Definition PARTIAL_CLOSE : string := "partial_close".
Definition CLOSE_POSITION : string := "close_position".
Definition MOVE_STOP_LOSS : string := "move_stop_loss".
Definition MOVE_STOP_TO_ENTRY : string := "move_stop_to_entry".
Definition REPLACE_TAKE_PROFITS : string := "replace_take_profits".
Definition CANCEL_ORDER : string := "cancel".
Definition CANCEL_ORDER_ALIASES : list string := [CANCEL_ORDER; "cancel_order"].
Definition ENTRY_ACTIONS : list string := [OPEN_POSITION; ADD_POSITION].
Definition EXIT_ACTIONS : list string := [PARTIAL_CLOSE; CLOSE_POSITION].
Definition POSITION_REQUIRED_ACTIONS : list string :=
  [PARTIAL_CLOSE; CLOSE_POSITION; MOVE_STOP_LOSS; MOVE_STOP_TO_ENTRY; REPLACE_TAKE_PROFITS].
Definition MANAGEMENT_ACTIONS : list string := EXIT_ACTIONS ++ POSITION_REQUIRED_ACTIONS ++ [CANCEL_ORDER].
Definition SUPPORTED_TIF : list string := ["GTC"; "IOC"; "FOK"; "GTD"].

Definition ACTION_PERMISSION_MATRIX (mode : string) : list string :=
  if String.eqb mode "ACTIVE" then ENTRY_ACTIONS ++ MANAGEMENT_ACTIONS
  else if str_in mode ["REDUCING"; "HALTED"] then MANAGEMENT_ACTIONS else [].

Definition halted_action_allowed (action mode : string) : bool :=
  str_in action (ACTION_PERMISSION_MATRIX (upper mode)).

(** ** Intents, snapshots and plans *)

Record PositionSnapshot := {
  ps_instrument_id : string;
  ps_side : string;
  ps_quantity : string;
  ps_position_id : option string;
  ps_entry_price : option string }.

Record OrderSnapshot := {
  os_client_order_id : string;
  os_instrument_id : string;
  os_order_type : string;
  os_side : string;
  os_quantity : string;
  os_price : option string;
  os_trigger_price : option string;
  os_tags : list string }.

Record PlannerContext := {
  pc_account_id : string;
  pc_trading_state : string;
  pc_now : datetime;
  pc_instrument : option InstrumentSpec;
  pc_position : option PositionSnapshot;
  pc_positions : list PositionSnapshot;
  pc_existing_orders : list OrderSnapshot;
  pc_existing_intent_ids : list string;
  pc_effective_settings : dict;
  pc_reconciled_state : option ReconciledExecutionState;
  pc_simulation : bool }.

Record TradeIntent := {
  in_action : string;
  in_intent_id : string;
  in_account_id : string;
  in_instrument_id : string;
  in_valid_until : datetime;
  in_order_plan : dict;
  in_execution : option dict;
  in_sizing : option dict;
  in_risk_budget : option dict;
  in_target_position_id : option string;
  in_decision_id : string;
  in_risk_decision_id : string;
  in_idempotency_key : string }.

Record Authorization := {
  au_authorized_by_type : string;
  au_authorized_by_id : string;
  au_source_message_id : string;
  au_parent_intent_id : string;
  au_current_intent_id : string;
  au_decision_id : string;
  au_risk_decision_id : string;
  au_idempotency_key : string;
  au_channel_id : option string }.

Record ManagementPlan := {
  mp_intent_id : string;
  mp_action : string;
  mp_instrument_id : string;
  mp_target_position_id : option string;
  mp_target_position_side : option string;
  mp_cancel_order_ids : list string;
  mp_orders : list OrderPlan;
  mp_cancel_after_submit : bool;
  mp_authorization : Authorization;
  mp_disable_take_profits : bool }.

(** A value, or an [OrderDenied]. *)
Inductive planned (A : Type) :=
  | OrderDenied (reason detail : string)
  | Planned (a : A).
Arguments OrderDenied {A}.
Arguments Planned {A}.

(** Planning can also raise. *)
Definition P (A : Type) : Type := result (planned A).

#[global] Instance P_ret : MRet P := fun A a => Ok (Planned a).
#[global] Instance P_bind : MBind P := fun A B k m =>
  match m with
  | Ok (Planned a) => k a
  | Ok (OrderDenied r d) => Ok (OrderDenied r d)
  | Raise e => Raise e
  end.

Definition deny {A} (reason detail : string) : P A := Ok (OrderDenied reason detail).
Definition lift {A} (r : result A) : P A := Planned <$> r.
Definition unsupported {A} (detail : string) : P A := deny "unsupported_order_spec" detail.

Inductive execution_plan := EntryPlan (order : OrderPlan) | Managed (plan : ManagementPlan).

(** ** Values *)

(** [_get] *)
Definition get_field (obj : option dict) (name : string) : pyval :=
  match obj with Some d => dget name d | None => PNone end.

Definition first_present (values : list pyval) : pyval :=
  default PNone (find (fun v => negb (is_none v)) values).

(** [str(order_plan.get(key, ""))] *)
Definition text_field (key : string) (plan : dict) : string := py_str (default (PStr "") (dlookup key plan)).

(** [if value is not None: plan[key] = value] *)
Definition set_present (key : string) (value : pyval) (plan : dict) : dict :=
  if is_none value then plan else dset key value plan.

(** [_decimal] *)
Definition planner_decimal (raw : pyval) (field : string) : P xdec :=
  if is_none raw then unsupported field
  else match to_xdec raw with Some x => mret x | None => unsupported field end.

(** [(value / step).quantize(Decimal("1"), rounding) * step]; a quantity that
    is not finite cannot be quantized. *)
Definition snapped (mode : rounding) (value step : xdec) : result (dec * dec) :=
  match value, step with
  | XFin value, XFin step =>
      ratio ← ddiv value step;
      whole ← quantize mode ratio dec_one;
      Ok ((whole * step)%dec, step)
  | _, _ => Raise InvalidOperation
  end.

(** The increment of a field, which must be positive. *)
Definition increment_of (increment field : string) : P xdec :=
  step ← planner_decimal (PStr increment) (field +:+ ".increment");
  nonpositive ← lift (xleb step (XFin dzero));
  if nonpositive : bool then unsupported (field +:+ ".increment") else mret step.

(** [_round_to_increment] *)
Definition planner_round (value : xdec) (increment field : string) : P string :=
  step ← increment_of increment field;
  snap ← lift (snapped ROUND_HALF_UP value step);
  rounded ← lift (quantize ROUND_HALF_EVEN (fst snap) (snd snap));
  mret (format_f rounded).

(** [_round_down_to_increment] *)
Definition round_down_to_increment (value : xdec) (increment field : string) : P string :=
  step ← increment_of increment field;
  snap ← lift (snapped ROUND_DOWN value step);
  if dleb (fst snap) dzero then unsupported field else
  rounded ← lift (quantize ROUND_HALF_EVEN (fst snap) (snd snap));
  mret (format_f rounded).

(** [_rounded_positive] and [_rounded_down_positive] *)
Definition rounded_positive (down : bool) (raw : pyval) (increment field : string) : P string :=
  value ← planner_decimal raw field;
  nonpositive ← lift (xleb value (XFin dzero));
  if nonpositive : bool then unsupported field
  else if down then round_down_to_increment value increment field
  else planner_round value increment field.

(** [_parse_side] *)
Definition parse_side (raw : pyval) : P string :=
  let side := lower (text_or_empty raw) in
  if String.eqb side "buy" then mret "BUY"
  else if String.eqb side "sell" then mret "SELL"
  else unsupported ("side=" +:+ side).

(** [_parse_tif] *)
Definition parse_tif (raw : pyval) (default_tif : string) : P string :=
  let tif := upper (py_str (py_or raw (PStr default_tif))) in
  if str_in tif SUPPORTED_TIF then mret tif else unsupported ("time_in_force=" +:+ tif).

(** ** Authorization and tags *)

Definition intent_text (intent : TradeIntent) : string := uuid_text (in_intent_id intent).

(** [_authorization_source] *)
Definition authorization_source (intent : TradeIntent) : planned Authorization :=
  let supplied := as_dict (dget "authorization" (in_order_plan intent)) in
  let field k := strip (text_or_empty (dget k supplied)) in
  let parent := field "parent_intent_id" in
  let kind := field "authorized_by_type" in
  if negb (str_in kind ["user"; "channel"])
  then OrderDenied "authorization_source_required" "authorized_by_type must be user or channel"
  else if is_empty (field "authorized_by_id")
  then OrderDenied "authorization_source_required" "authorized_by_id"
  else if is_empty (field "source_message_id")
  then OrderDenied "authorization_source_required" "source_message_id"
  else Planned {|
    au_authorized_by_type := kind;
    au_authorized_by_id := field "authorized_by_id";
    au_source_message_id := field "source_message_id";
    au_parent_intent_id := match uuid_hex parent with Some _ => parent | None => intent_text intent end;
    au_current_intent_id := intent_text intent;
    au_decision_id := in_decision_id intent;
    au_risk_decision_id := in_risk_decision_id intent;
    au_idempotency_key := in_idempotency_key intent;
    au_channel_id := if truthy (dget "channel_id" supplied) then Some (py_str (dget "channel_id" supplied)) else None |}.

(** A tag for a value that is there. *)
Definition optional_tag (prefix : string) (value : option string) : list string :=
  from_option (fun v => [prefix +:+ v]) [] value.

(** [_intent_tags] *)
Definition intent_tags (intent : TradeIntent) (action : string) (lifecycle_role position_id : option string)
  : list string :=
  let tags :=
    ["intent_id=" +:+ intent_text intent; "decision_id=" +:+ in_decision_id intent;
     "risk_decision_id=" +:+ in_risk_decision_id intent; "idempotency_key=" +:+ in_idempotency_key intent;
     "action=" +:+ action; "account_id=" +:+ in_account_id intent] in
  match authorization_source intent with
  | OrderDenied _ _ => tags
  | Planned a =>
      tags ++ ["parent_intent_id=" +:+ au_parent_intent_id a; "authorized_by_type=" +:+ au_authorized_by_type a;
               "authorized_by_id=" +:+ au_authorized_by_id a]
      ++ (if is_empty (au_source_message_id a) then [] else ["source_message_id=" +:+ au_source_message_id a])
      ++ match au_channel_id a with
         | Some c => if is_empty c then [] else ["channel_id=" +:+ c]
         | None => []
         end
      ++ optional_tag "lifecycle_role=" lifecycle_role ++ optional_tag "position_id=" position_id
  end.

(** ** Order specifications *)

Record OrderSpec := {
  os_type : string;
  os_spec_quantity : string;
  os_spec_price : option string;
  os_time_in_force : string }.

(** [_zone_boundary_price] *)
Definition zone_boundary_price (plan : dict) (instrument : InstrumentSpec) : P string :=
  if negb (dmem "price_min" plan) then unsupported "zone.price_min"
  else if negb (dmem "price_max" plan) then unsupported "zone.price_max"
  else
    price_min ← planner_decimal (dget "price_min" plan) "zone.price_min";
    price_max ← planner_decimal (dget "price_max" plan) "zone.price_max";
    crossed ← lift (xltb price_max price_min);
    if crossed : bool then unsupported "zone.price_min_gt_price_max" else
    let boundary := if String.eqb (lower (text_field "side" plan)) "buy" then price_max else price_min in
    planner_round boundary (is_price_increment instrument) "price".

(** [_build_order_spec] *)
Definition build_order_spec (down : bool) (plan : dict) (instrument : InstrumentSpec) : P OrderSpec :=
  let order_type := lower (text_field "type" plan) in
  quantity ← rounded_positive down (dget "quantity" plan) (is_quantity_increment instrument) "quantity";
  let spec kind price tif :=
    {| os_type := kind; os_spec_quantity := quantity; os_spec_price := price; os_time_in_force := tif |} in
  if String.eqb order_type "market" then
    tif ← parse_tif (dget "time_in_force" plan) "IOC";
    mret (spec "MARKET" None tif)
  else if String.eqb order_type "limit" then
    if negb (dmem "price" plan) then unsupported "limit.price" else
    price ← rounded_positive false (dget "price" plan) (is_price_increment instrument) "price";
    tif ← parse_tif (dget "time_in_force" plan) "GTC";
    mret (spec "LIMIT" (Some price) tif)
  else if String.eqb order_type "zone" then
    price ← zone_boundary_price plan instrument;
    tif ← parse_tif (dget "time_in_force" plan) "GTC";
    mret (spec "LIMIT" (Some price) tif)
  else unsupported ("type=" +:+ order_type).

(** The execution and sizing of an intent over its order plan and settings,
    [_entry_order_plan]. *)
Definition entry_order_plan (intent : TradeIntent) (settings : dict) : planned dict :=
  let execution := in_execution intent in
  let sizing := in_sizing intent in
  let plan := in_order_plan intent in
  if bool_decide (execution = None) && bool_decide (sizing = None) then Planned plan
  else if match get_field execution "reduce_only" with PBool b => b | _ => false end
  then OrderDenied "unsupported_order_spec" "entry.reduce_only"
  else
    let order_type := first_present [get_field execution "order_type"; dget "type" plan; dget "order_type" settings] in
    let plan := if is_none order_type then plan else dset "type" (PStr (py_str order_type)) plan in
    let quantity := first_present [get_field sizing "quantity"; dget "quantity" plan] in
    if is_none quantity && negb (is_none (get_field sizing "fraction"))
    then OrderDenied "unsupported_order_spec" "sizing.fraction"
    else
      let plan := set_present "quantity" quantity plan in
      let plan := set_present "time_in_force"
        (first_present [get_field execution "time_in_force"; dget "time_in_force" plan;
                        dget "time_in_force" settings;
                        dget (lower (text_field "type" plan) +:+ "_time_in_force") settings]) plan in
      let post_only := first_present [get_field execution "post_only"; dget "post_only" plan; dget "post_only" settings] in
      let plan := if is_none post_only then plan else dset "post_only" (PBool (truthy post_only)) plan in
      let plan := set_present "max_slippage_bps"
        (first_present [get_field execution "max_slippage_bps"; dget "max_slippage_bps" plan;
                        dget "max_slippage_bps" settings]) plan in
      let order_type_text := lower (text_field "type" plan) in
      let plan := if String.eqb order_type_text "limit"
        then set_present "price" (first_present [get_field execution "limit_price"; dget "price" plan]) plan
        else plan in
      Planned (if String.eqb order_type_text "zone" then
        let zone := match get_field execution "zone" with PDict z => Some z | _ => None end in
        let low := first_present [get_field zone "low"; dget "price_min" plan] in
        let high := first_present [get_field zone "high"; dget "price_max" plan] in
        set_present "price_max" high (set_present "price_min" low plan)
      else plan).

(** ** Approved notional *)

(** [_approved_max_notional] *)
Definition approved_max_notional (intent : TradeIntent) : planned dec :=
  match to_xdec (get_field (in_risk_budget intent) "max_notional") ≫= is_finite with
  | Some d => if dleb d dzero then OrderDenied "approved_max_notional_invalid" "risk_budget.max_notional"
              else Planned d
  | None => OrderDenied "approved_max_notional_invalid" "risk_budget.max_notional"
  end.

(** [_deny_if_order_exceeds_approved_notional]; both texts were formatted from
    finite decimals. *)
Definition within_notional (quantity price : string) (approved : dec) : P unit :=
  match to_xdec (PStr quantity) ≫= is_finite, to_xdec (PStr price) ≫= is_finite with
  | Some q, Some p =>
      let actual := (q * p)%dec in
      if dltb approved actual
      then deny "approved_max_notional_exceeded"
             ("actual=" +:+ format_f actual +:+ ":approved=" +:+ format_f approved)
      else mret tt
  | _, _ => deny "approved_max_notional_invalid" "order quantity or price"
  end.

(** [_optional_decimal_string] *)
Definition optional_decimal_string (value : pyval) : option string :=
  if is_none value then None
  else match to_xdec value with Some x => Some (xformat_f (xnormalize x)) | None => None end.

(** [_guard_price]: a denial is no guard, an exception propagates. *)
Definition guard_price (plan : dict) (instrument : InstrumentSpec) : result (option string) :=
  let raw := first_present (map (fun k => dget k plan)
               ["guard_price"; "reference_price"; "entry_price"; "entry"; "price"]) in
  if is_none raw then Ok None else
  rounded ← (rounded_positive false raw (is_price_increment instrument) "guard_price" : result (planned string));
  Ok (match rounded with Planned p => Some p | OrderDenied _ _ => None end).

(** ** Positions and evidence *)

Definition context_positions (context : PlannerContext) : list PositionSnapshot :=
  match pc_positions context with
  | [] => match pc_position context with Some p => [p] | None => [] end
  | positions => positions
  end.

(** [_reconciled_assessment]: no state, or an assessment that raises, is none. *)
Definition reconciled_assessment (context : PlannerContext) (instrument_id position_side : string)
  : option PositionAssessment :=
  state ← pc_reconciled_state context;
  match assess state {| bk_account_id := pc_account_id context; bk_instrument_id := instrument_id;
                        bk_position_side := position_side |} with
  | Ok a => Some a
  | Raise _ => None
  end.

(** The cached positions that are readable and not flat. *)
Definition live_positions (context : PlannerContext) : list PositionSnapshot :=
  List.filter (fun p => match to_xdec (PStr (ps_quantity p)) with
                        | Some q => negb (xeqb q (XFin dzero))
                        | None => false
                        end) (context_positions context).

(** [_same_side_cache_position] and [_opposite_side_cache_position] *)
Definition same_side_cache_position (context : PlannerContext) (expected_side : string) : option PositionSnapshot :=
  find (fun p => String.eqb (upper (ps_side p)) expected_side) (live_positions context).
Definition opposite_side_cache_position (context : PlannerContext) (expected_side : string)
  : option PositionSnapshot :=
  find (fun p => negb (String.eqb (upper (ps_side p)) expected_side)) (live_positions context).

(** [_risk_increase_state_denial] *)
Definition risk_increase_state (context : PlannerContext) (assessment : option PositionAssessment) : planned unit :=
  match assessment with
  | None => if pc_simulation context then Planned tt
            else OrderDenied "position_state_unknown" "reconciled_state_missing"
  | Some a =>
      match pa_state a with
      | UNKNOWN => OrderDenied "position_state_unknown" (pa_detail a)
      | CONFLICTED => OrderDenied "position_state_conflicted" (pa_detail a)
      | _ => Planned tt
      end
  end.

(** [_validate_position] *)
Definition validate_position (action side : string) (context : PlannerContext) (instrument_id : string)
  : planned unit :=
  let expected_side := if String.eqb side "BUY" then "LONG" else "SHORT" in
  let cached := same_side_cache_position context expected_side in
  let assessment := reconciled_assessment context instrument_id expected_side in
  if String.eqb action OPEN_POSITION then
    match risk_increase_state context assessment with
    | OrderDenied r d => OrderDenied r d
    | Planned _ =>
        match cached, assessment with
        | Some _, _ => OrderDenied "position_exists" instrument_id
        | None, Some a => if bool_decide (pa_state a = KNOWN_OPEN)
                          then OrderDenied "position_exists" (pa_detail a) else Planned tt
        | None, None => Planned tt
        end
    end
  else if String.eqb action ADD_POSITION then
    match risk_increase_state context assessment with
    | OrderDenied r d => OrderDenied r d
    | Planned _ =>
        let cache_only :=
          match cached, opposite_side_cache_position context expected_side with
          | Some _, _ => Planned tt
          | None, Some p => OrderDenied "position_side_mismatch" (upper (ps_side p))
          | None, None => OrderDenied "position_required" instrument_id
          end in
        match assessment with
        | Some a => match pa_state a with
                    | KNOWN_FLAT => OrderDenied "position_required" instrument_id
                    | KNOWN_OPEN => Planned tt
                    | _ => cache_only
                    end
        | None => cache_only
        end
    end
  else match cached with
       | None => OrderDenied "position_required" instrument_id
       | Some _ => Planned tt
       end.

(** [_target_position_id_side] *)
Definition target_position_id_side (target_position_id : option string) : string :=
  let text := upper (strip (default "" target_position_id)) in
  if ends_with "-LONG" text then "LONG" else if ends_with "-SHORT" text then "SHORT" else "".

Definition first_in_state (st : PositionState) (l : list (string * PositionAssessment))
  : option (string * PositionAssessment) := find (fun p => bool_decide (pa_state (snd p) = st)) l.

(** The instrument a side-suffixed target id names is another one. *)
Definition names_other_instrument (target_position_id : option string) (instrument_id : string) : bool :=
  let id_side := target_position_id_side target_position_id in
  let text := strip (default "" target_position_id) in
  let prefix := strip (String.substring 0 (String.length text - (String.length id_side + 1)) text) in
  negb (is_empty id_side) && negb (is_empty prefix)
  && negb (String.eqb (upper prefix) (upper (strip instrument_id))).

(** [_reconciled_target_position]: [None] keeps the denials of the cache. *)
Definition reconciled_target_position (context : PlannerContext) (instrument_id requested_side : string)
    (target_position_id : option string) : option (planned PositionSnapshot) :=
  match pc_reconciled_state context with
  | None => None
  | Some _ =>
      let id_side := target_position_id_side target_position_id in
      let target := default "None" target_position_id in
      if names_other_instrument target_position_id instrument_id
      then Some (OrderDenied "position_required" target)
      else if negb (is_empty requested_side) && negb (is_empty id_side) && negb (String.eqb requested_side id_side)
      then Some (OrderDenied "position_side_mismatch"
                   ("requested=" +:+ requested_side +:+ ",target_position_id=" +:+ target))
      else
        let book_side := if is_empty requested_side then id_side else requested_side in
        let sides := if is_empty book_side then ["LONG"; "SHORT"] else [book_side] in
        match mapM (M := option) (fun s => pair s <$> reconciled_assessment context instrument_id s) sides with
        | None => None
        | Some assessments =>
            match first_in_state UNKNOWN assessments, first_in_state CONFLICTED assessments with
            | Some (_, a), _ => Some (OrderDenied "position_state_unknown" (pa_detail a))
            | None, Some (_, a) => Some (OrderDenied "position_state_conflicted" (pa_detail a))
            | None, None =>
                match List.filter (fun p => bool_decide (pa_state (snd p) = KNOWN_OPEN)) assessments with
                | [(side, a)] => Some (Planned {|
                    ps_instrument_id := instrument_id; ps_side := side; ps_quantity := format_f (pa_quantity a);
                    ps_position_id := Some (instrument_id +:+ "-" +:+ side); ps_entry_price := None |})
                | _ :: _ :: _ => Some (OrderDenied "position_not_unique" instrument_id)
                | [] =>
                    Some (OrderDenied "position_required"
                      (if negb (is_empty (default "" target_position_id)) then target
                       else if negb (is_empty book_side) then instrument_id +:+ ":" +:+ book_side
                       else instrument_id))
                end
            end
        end
  end.

(** The positions of an instrument that are not flat; a quantity that is not
    a number raises. *)
Fixpoint positions_of (instrument_id : string) (positions : list PositionSnapshot)
  : result (list PositionSnapshot) :=
  match positions with
  | [] => Ok []
  | p :: positions =>
      if negb (String.eqb (ps_instrument_id p) instrument_id) then positions_of instrument_id positions
      else
        q ← decimal_of (PStr (ps_quantity p));
        rest ← positions_of instrument_id positions;
        Ok (if xeqb q (XFin dzero) then rest else p :: rest)
  end.

(** Exactly one of the positions, with the fallback when there is none. *)
Definition the_position (matches : list PositionSnapshot) (fallback : option (planned PositionSnapshot))
    (detail : string) : planned PositionSnapshot :=
  match matches with
  | [] => match fallback with Some f => f | None => OrderDenied "position_required" detail end
  | [p] => Planned p
  | _ => OrderDenied "position_not_unique" detail
  end.

(** [_select_target_position] *)
Definition select_target_position (intent : TradeIntent) (context : PlannerContext) (instrument_id : string)
  : P PositionSnapshot :=
  let requested_side := upper (strip (text_or_empty (dget "position_side" (in_order_plan intent)))) in
  if negb (is_empty requested_side) && negb (str_in requested_side ["LONG"; "SHORT"])
  then unsupported "position_side"
  else
    positions ← lift (positions_of instrument_id (context_positions context));
    let target_position_id := in_target_position_id intent in
    let fallback := reconciled_target_position context instrument_id requested_side target_position_id in
    let sided p := String.eqb (upper (ps_side p)) requested_side in
    Ok (match str_or target_position_id None with
        | Some target =>
            match the_position (List.filter (fun p => bool_decide (ps_position_id p = Some target)) positions)
                    fallback target with
            | Planned selected =>
                if existsb (fun p => bool_decide (ps_position_id p = Some target)) positions
                   && negb (is_empty requested_side) && negb (sided selected)
                then match fallback with
                     | Some f => f
                     | None => OrderDenied "position_side_mismatch"
                                 ("requested=" +:+ requested_side +:+ ",actual=" +:+ upper (ps_side selected))
                     end
                else Planned selected
            | OrderDenied r d => OrderDenied r d
            end
        | None =>
            if is_empty requested_side then the_position positions fallback instrument_id
            else the_position (List.filter sided positions) fallback (instrument_id +:+ ":" +:+ requested_side)
        end).

(** ** Management plans *)

(** [_exit_side] *)
Definition planner_exit_side (position : PositionSnapshot) : string :=
  if String.eqb (upper (ps_side position)) "LONG" then "SELL" else "BUY".

(** [_resolve_exit_quantity] *)
Definition resolve_exit_quantity (plan : dict) (position : PositionSnapshot) (required : bool) : P (option xdec) :=
  let raw_quantity := dget "quantity" plan in
  let raw_fraction := dget "fraction" plan in
  if negb (is_none raw_quantity) && negb (is_none raw_fraction) then unsupported "quantity_and_fraction"
  else if negb (is_none raw_fraction) then
    fraction ← planner_decimal raw_fraction "fraction";
    low ← lift (xleb fraction (XFin dzero));
    high ← (if low : bool then mret true else lift (xltb (XFin dec_one) fraction));
    if high : bool then unsupported "fraction" else
    held ← lift (decimal_of (PStr (ps_quantity position)));
    sized ← lift (xmul held fraction);
    mret (Some sized)
  else if negb (is_none raw_quantity) then
    quantity ← planner_decimal raw_quantity "quantity";
    nonpositive ← lift (xleb quantity (XFin dzero));
    if nonpositive : bool then unsupported "quantity" else mret (Some quantity)
  else if required then unsupported "quantity_or_fraction_required" else mret None.

(** [_deny_if_quantity_exceeds_position] *)
Definition within_position (quantity position_quantity : string) : P unit :=
  q ← lift (decimal_of (PStr quantity));
  held ← lift (decimal_of (PStr position_quantity));
  above ← lift (xltb held q);
  if above : bool then deny "quantity_exceeds_position" (quantity +:+ ">" +:+ position_quantity) else mret tt.

Section management.
Context (intent : TradeIntent) (instrument : InstrumentSpec) (position : PositionSnapshot).

Let side := planner_exit_side position.

(** An order that reduces the position. *)
Definition reduce_only_order (sequence : Z) (action role : string) (extra_tags : list string)
    (order_type quantity : string) (price : option string) (tif : string) (trigger : option string) : P OrderPlan :=
  client_order_id ← lift (encode_client_order_id (in_intent_id intent) sequence);
  mret {| op_intent_id := in_intent_id intent; op_client_order_id := client_order_id;
          op_tags := intent_tags intent action (Some role) (ps_position_id position) ++ extra_tags;
          op_instrument_id := in_instrument_id intent; op_side := side; op_order_type := order_type;
          op_quantity := quantity; op_price := price; op_time_in_force := tif; op_reduce_only := true;
          op_trigger_price := trigger; op_post_only := false; op_max_slippage_bps := None;
          op_guard_price := None; op_approved_max_notional := None |}.

(** [_build_exit_order] *)
Definition build_exit_order (action : string) (plan : dict) : P OrderPlan :=
  let plan := dset "side" (PStr (lower side)) plan in
  plan ← (if is_none (dget "quantity" plan) then
            sized ← resolve_exit_quantity plan position true;
            mret (dpop "fraction" (dset "quantity" (from_option PDec PNone sized) plan))
          else mret plan);
  spec ← build_order_spec true plan instrument;
  _ ← within_position (os_spec_quantity spec) (ps_quantity position);
  reduce_only_order 1 action "exit" [] (os_type spec) (os_spec_quantity spec) (os_spec_price spec)
    (os_time_in_force spec) None.

(** [_build_stop_order] *)
Definition planner_stop_order (action : string) (plan : dict) : P OrderPlan :=
  let order_type := lower (py_str (default (PStr "stop_market") (dlookup "type" plan))) in
  if negb (str_in order_type ["stop_market"; "stop_limit"]) then unsupported ("type=" +:+ order_type) else
  let increment := is_price_increment instrument in
  trigger ← rounded_positive false (default (dget "trigger_price" plan) (dlookup "stop_price" plan)) increment "stop_price";
  price ← (if String.eqb order_type "stop_limit" then
             price ← rounded_positive false (default (dget "price" plan) (dlookup "limit_price" plan)) increment
                       "limit_price";
             mret (Some price)
           else mret None);
  quantity ← rounded_positive false (PStr (ps_quantity position)) (is_quantity_increment instrument) "quantity";
  tif ← parse_tif (dget "time_in_force" plan) "GTC";
  reduce_only_order 1 action "stop_loss" []
    (if String.eqb order_type "stop_limit" then "STOP_LIMIT" else "STOP_MARKET") quantity price tif (Some trigger).

(** The loop of [_build_take_profit_orders] over the targets. *)
Fixpoint take_profit_orders (plan : dict) (index : Z) (total : xdec) (targets : list pyval)
  : P (xdec * list OrderPlan) :=
  match targets with
  | [] => mret (total, [])
  | PDict target :: targets =>
      let name := "take_profits[" +:+ int_str (index - 1) +:+ "]" in
      quantity ← rounded_positive false (dget "quantity" target) (is_quantity_increment instrument)
                   (name +:+ ".quantity");
      q ← lift (decimal_of (PStr quantity));
      total ← lift (xadd total q);
      trigger ← rounded_positive false (default (dget "price" target) (dlookup "trigger_price" target))
                  (is_price_increment instrument) (name +:+ ".price");
      tif ← parse_tif (default (dget "time_in_force" plan) (dlookup "time_in_force" target)) "GTC";
      order ← reduce_only_order index REPLACE_TAKE_PROFITS "take_profit" ["take_profit_index=" +:+ int_str index]
                "MARKET_IF_TOUCHED" quantity None tif (Some trigger);
      rest ← take_profit_orders plan (index + 1) total targets;
      mret (fst rest, order :: snd rest)
  | _ :: _ => unsupported ("take_profits[" +:+ int_str (index - 1) +:+ "]")
  end.

Definition disables_take_profits (plan : dict) : bool :=
  match dget "disable_take_profits" plan with PBool b => b | _ => false end.

(** [_build_take_profit_orders] *)
Definition build_take_profit_orders (plan : dict) : P (list OrderPlan) :=
  match default (dget "targets" plan) (dlookup "take_profits" plan) with
  | PList [] =>
      if disables_take_profits plan then mret []
      else unsupported "disable_take_profits=true required for empty take_profits"
  | PList targets =>
      orders ← take_profit_orders plan 1 (XFin dzero) targets;
      held ← lift (decimal_of (PStr (ps_quantity position)));
      above ← lift (xltb held (fst orders));
      if above : bool
      then deny "quantity_exceeds_position" (xformat_f (fst orders) +:+ ">" +:+ ps_quantity position)
      else mret (snd orders)
  | _ => unsupported "take_profits"
  end.

(** The orders of a management action, and the role whose orders they replace. *)
Definition management_orders (action : string) : P (list OrderPlan * option string) :=
  let plan := in_order_plan intent in
  if String.eqb action PARTIAL_CLOSE then
    sized ← resolve_exit_quantity plan position true;
    order ← build_exit_order action (dset "quantity" (from_option PDec PNone sized) (dpop "fraction" plan));
    mret ([order], None)
  else if String.eqb action CLOSE_POSITION then
    sized ← resolve_exit_quantity plan position false;
    full ← lift (decimal_of (PStr (ps_quantity position)));
    _ ← match sized with
        | None => mret tt
        | Some sized =>
            below ← lift (xltb sized full);
            if below : bool
            then deny "ambiguous_partial_on_close" (xformat_f sized +:+ "<" +:+ xformat_f full)
            else
              above ← lift (xltb full sized);
              if above : bool
              then deny "quantity_exceeds_position" (xformat_f sized +:+ ">" +:+ xformat_f full)
              else mret tt
        end;
    order ← build_exit_order action (dset "quantity" (PStr (ps_quantity position)) (dpop "fraction" plan));
    mret ([order], None)
  else if String.eqb action MOVE_STOP_LOSS then
    order ← planner_stop_order action plan;
    mret ([order], Some "stop_loss")
  else if String.eqb action MOVE_STOP_TO_ENTRY then
    let entry_price := match str_or (ps_entry_price position) None with
                       | Some p => PStr p
                       | None => dget "entry_price" plan
                       end in
    if is_none entry_price
    then deny "position_entry_price_required"
           (default (in_instrument_id intent) (str_or (ps_position_id position) None))
    else
      order ← planner_stop_order action (dset "stop_price" entry_price plan);
      mret ([order], Some "stop_loss")
  else if String.eqb action REPLACE_TAKE_PROFITS then
    orders ← build_take_profit_orders plan;
    mret (orders, Some "take_profit")
  else deny "unsupported_action" action.

End management.

(** [_matching_lifecycle_order_ids] *)
Definition matching_lifecycle_order_ids (orders : list OrderSnapshot) (role position_id : option string)
    (instrument_id : string) : list string :=
  match role with
  | None => []
  | Some role =>
      map os_client_order_id (List.filter (fun o =>
        String.eqb (os_instrument_id o) instrument_id
        && str_in ("lifecycle_role=" +:+ role) (os_tags o)
        && match position_id with
           | Some p => str_in ("position_id=" +:+ p) (os_tags o)
           | None => true
           end) orders)
  end.

(** [_plan_management_intent] *)
Definition plan_management_intent (intent : TradeIntent) (action : string) (context : PlannerContext)
    (instrument : InstrumentSpec) : P ManagementPlan :=
  let instrument_id := in_instrument_id intent in
  position ← select_target_position intent context instrument_id;
  authorization ← (Ok (authorization_source intent) : P Authorization);
  orders ← management_orders intent instrument position action;
  mret {| mp_intent_id := in_intent_id intent; mp_action := action; mp_instrument_id := instrument_id;
          mp_target_position_id := ps_position_id position; mp_target_position_side := Some (ps_side position);
          mp_cancel_order_ids := matching_lifecycle_order_ids (pc_existing_orders context) (snd orders)
                                   (ps_position_id position) instrument_id;
          mp_orders := fst orders;
          mp_cancel_after_submit := str_in action [MOVE_STOP_LOSS; MOVE_STOP_TO_ENTRY];
          mp_authorization := authorization;
          mp_disable_take_profits := String.eqb action REPLACE_TAKE_PROFITS
                                     && disables_take_profits (in_order_plan intent) |}.

(** [_tag_values]: the values of a key, which holds no equals sign. *)
Definition tag_values (tags : list string) (key : string) : list string :=
  let prefix := key +:+ "=" in
  List.filter (fun v => negb (is_empty v))
    (map (fun t => strip (String.substring (String.length prefix) (String.length t - String.length prefix) t))
       (List.filter (starts_with prefix) tags)).

(** [_validate_cancel_order_ownership] *)
Definition cancel_order_ownership (order : OrderSnapshot) (context : PlannerContext) : planned unit :=
  let target := os_client_order_id order in
  match decode_client_order_id target with
  | Raise _ => OrderDenied "order_ownership_unverified" target
  | Ok trace =>
      if forallb (String.eqb (pc_account_id context)) (tag_values (os_tags order) "account_id")
         && forallb (String.eqb (uuid_text (ct_intent_id trace))) (tag_values (os_tags order) "intent_id")
      then Planned tt
      else OrderDenied "order_ownership_unverified" target
  end.

(** [_plan_cancel_order_intent] *)
Definition plan_cancel_order_intent (intent : TradeIntent) (context : PlannerContext) : planned ManagementPlan :=
  let instrument_id := in_instrument_id intent in
  let target := strip (text_or_empty (dget "cancel_client_order_id" (in_order_plan intent))) in
  if is_empty target then OrderDenied "unsupported_order_spec" "cancel_client_order_id" else
  match List.filter (fun o => String.eqb (os_instrument_id o) instrument_id
                              && String.eqb (os_client_order_id o) target) (pc_existing_orders context) with
  | [] => OrderDenied "order_not_found" target
  | _ :: _ :: _ => OrderDenied "order_not_unique" target
  | [order] =>
      match cancel_order_ownership order context, authorization_source intent with
      | OrderDenied r d, _ | Planned _, OrderDenied r d => OrderDenied r d
      | Planned _, Planned authorization => Planned {|
          mp_intent_id := in_intent_id intent; mp_action := CANCEL_ORDER; mp_instrument_id := instrument_id;
          mp_target_position_id := None; mp_target_position_side := None; mp_cancel_order_ids := [target];
          mp_orders := []; mp_cancel_after_submit := false; mp_authorization := authorization;
          mp_disable_take_profits := false |}
      end
  end.

(** ** The planner *)

(** [_ensure_aware(t).isoformat()], for an offset of whole minutes. *)
Definition datetime_iso (t : datetime) : string :=
  let text := isoformat (wall_us t) in
  let minutes := default 0 (utc_offset_us t) / 60000000 in
  String.substring 0 (String.length text - 6) text
  +:+ (if minutes <? 0 then "-" else "+") +:+ pad 2 (Z.abs minutes / 60) +:+ ":" +:+ pad 2 (Z.abs minutes mod 60).

(** The order of an entry action. *)
Definition plan_entry (intent : TradeIntent) (action : string) (context : PlannerContext)
    (instrument : InstrumentSpec) : P OrderPlan :=
  plan ← (Ok (entry_order_plan intent (pc_effective_settings context)) : P dict);
  side ← parse_side (dget "side" plan);
  _ ← (Ok (validate_position action side context (in_instrument_id intent)) : P unit);
  spec ← build_order_spec true plan instrument;
  approved ← (Ok (approved_max_notional intent) : P dec);
  _ ← match os_spec_price spec with
      | Some price => within_notional (os_spec_quantity spec) price approved
      | None => mret tt
      end;
  client_order_id ← lift (encode_client_order_id (in_intent_id intent) 1);
  guard ← lift (guard_price plan instrument);
  mret {| op_intent_id := in_intent_id intent; op_client_order_id := client_order_id;
          op_tags := intent_tags intent action None None; op_instrument_id := in_instrument_id intent;
          op_side := side; op_order_type := os_type spec; op_quantity := os_spec_quantity spec;
          op_price := os_spec_price spec; op_time_in_force := os_time_in_force spec; op_reduce_only := false;
          op_trigger_price := None; op_post_only := truthy (dget "post_only" plan);
          op_max_slippage_bps := optional_decimal_string (dget "max_slippage_bps" plan);
          op_guard_price := guard; op_approved_max_notional := Some (format_f approved) |}.

Definition plan_intent_execution (intent : TradeIntent) (context : PlannerContext) : P execution_plan :=
  let action := if str_in (in_action intent) CANCEL_ORDER_ALIASES then CANCEL_ORDER else in_action intent in
  if negb (str_in action ENTRY_ACTIONS) && negb (str_in action MANAGEMENT_ACTIONS)
  then deny "unsupported_action" action else
  _ ← (Ok (authorization_source intent) : P Authorization);
  let trading_state := upper (pc_trading_state context) in
  if negb (halted_action_allowed action trading_state) then deny "trading_not_active" trading_state
  else if str_in (intent_text intent) (pc_existing_intent_ids context)
  then deny "duplicate_intent" (intent_text intent)
  else if negb (String.eqb (in_account_id intent) (pc_account_id context))
  then deny "wrong_account" (in_account_id intent)
  else
    match pc_instrument context with
    | None => deny "instrument_not_found" (in_instrument_id intent)
    | Some instrument =>
        if negb (String.eqb (is_instrument_id instrument) (in_instrument_id intent))
        then deny "instrument_not_found" (in_instrument_id intent)
        else if aware (in_valid_until intent) <=? aware (pc_now context)
        then deny "expired" (datetime_iso (in_valid_until intent))
        else if String.eqb action CANCEL_ORDER
        then Ok (match plan_cancel_order_intent intent context with
                 | Planned p => Planned (Managed p)
                 | OrderDenied r d => OrderDenied r d
                 end)
        else if str_in action MANAGEMENT_ACTIONS then
          plan ← plan_management_intent intent action context instrument;
          mret (Managed plan)
        else
          order ← plan_entry intent action context instrument;
          mret (EntryPlan order)
    end.

(** ** Taking a plan apart *)

Lemma pbind_inv {A B} (m : P A) (k : A -> P B) b :
  (m ≫= k) = Ok (Planned b) -> exists a, m = Ok (Planned a) /\ k a = Ok (Planned b).
Proof. destruct m as [[|a]|]; try done. eauto. Qed.

Lemma lift_inv {A} (r : result A) a : lift r = Ok (Planned a) -> r = Ok a.
Proof. destruct r; cbn; intros; by simplify_eq. Qed.

Ltac plan_inv :=
  repeat match goal with
  | H : (_ ≫= _) = Ok (Planned _) |- _ =>
      let x := fresh "x" in let Hp := fresh "Hp" in apply pbind_inv in H as (x & Hp & H)
  | H : lift _ = Ok (Planned _) |- _ => apply lift_inv in H
  | H : mret _ = Ok (Planned _) |- _ => apply ok_inj in H; injection H as H; try subst
  | H : Ok (Planned _) = Ok (Planned _) |- _ => apply ok_inj in H; injection H as H; try subst
  | H : Ok _ = Ok (Planned _) |- _ => apply ok_inj in H
  | H : unsupported _ = Ok (Planned _) |- _ => discriminate H
  | H : deny _ _ = Ok (Planned _) |- _ => discriminate H
  | H : Raise _ = Ok _ |- _ => discriminate H
  | H : OrderDenied _ _ = Planned _ |- _ => discriminate H
  | H : (if ?b then _ else _) = Ok (Planned _) |- _ => let E := fresh "E" in destruct b eqn:E
  end.

(** A quantity rounded down is the text of a positive multiple of the step, at
    most what was asked up to the rounding of a division. *)
Lemma rounded_down_inv raw increment field text :
  rounded_positive true raw increment field = Ok (Planned text) ->
  exists asked step n,
    to_xdec raw = Some (XFin asked) /\ to_xdec (PStr increment) = Some (XFin step)
    /\ (0 < dval asked)%Q /\ (0 < dval step)%Q /\ 0 < n
    /\ text = format_f (Dec (n * coef step) (dexp step))
    /\ (inject_Z n * dval step <= (1 + eps) * dval asked)%Q.
Proof.
  intros H. unfold rounded_positive, round_down_to_increment, increment_of in H. plan_inv.
  unfold planner_decimal in *. repeat case_match; plan_inv; try done.
  match goal with H : snapped _ ?v ?s = Ok _ |- _ =>
    destruct v as [asked|[]|], s as [step|[]|]; try discriminate H; cbn [snapped] in H end.
  run_inv. cbn [fst snd] in *.
  repeat match goal with H : xleb (XFin _) (XFin _) = Ok false |- _ => rewrite xleb_fin in H; apply ok_inj, dleb_gt in H end.
  match goal with H : dleb _ dzero = false |- _ => apply dleb_gt in H end.
  change (dval dzero) with 0%Q in *.
  match goal with
  | H1 : ddiv _ _ = Ok ?r, H2 : quantize ROUND_DOWN ?r _ = Ok ?w, H3 : quantize ROUND_HALF_EVEN _ _ = Ok ?t |- _ =>
    rename r into ratio, w into whole, t into out, H1 into D, H2 into Q, H3 into R end.
  assert (W : dexp whole = 0) by (apply quantize_exp in Q; done).
  destruct whole as [n e]. cbn in W. subst e. unfold dmul in R. cbn [coef dexp] in R.
  apply quantize_fix28 in R as ->; [|done].
  match goal with A : (0 < dval asked)%Q, S : (0 < dval step)%Q |- _ => rename A into PA, S into PS end.
  pose proof (ddiv_pos _ _ _ D PA PS) as R0. apply quantize_down in Q as [L _]; [|lra].
  apply ddiv_approx in D. assert (G : (0 < dval asked / dval step)%Q) by (apply Qlt_shift_div_l; lra).
  unfold approx in D. rewrite (Qabs_pos (dval asked / dval step)) in D by lra. apply Qabs_Qle_condition in D as [_ D].
  unfold dval at 1 in L. cbn [coef dexp] in L. change (pow10 0) with 1%Q in L. rewrite Qmult_1_r in L.
  exists asked, step, n. split_and!; try done.
  - assert (C : (0 < dval (Dec n 0 * step)%dec)%Q) by done. unfold dmul in C. cbn [coef dexp] in C.
    apply dval_pos in PS. apply Qgt_alt in C. rewrite fix28_sgn in C. cbn [coef] in C.
    destruct (Z.compare_spec (n * coef step) 0); cbn in C; try done. nia.
  - assert (X : (dval asked / dval step * dval step == dval asked)%Q) by (field; lra).
    rewrite <- X, Qmult_assoc. apply Qmult_le_compat_r; lra.
Qed.

(** A rounded quantity is the text of a multiple of the step, within half a step
    of what was asked up to the rounding of a division. *)
Lemma rounded_half_inv raw increment field text :
  rounded_positive false raw increment field = Ok (Planned text) ->
  exists asked step n,
    to_xdec raw = Some (XFin asked) /\ to_xdec (PStr increment) = Some (XFin step)
    /\ (0 < dval asked)%Q /\ (0 < dval step)%Q
    /\ text = format_f (Dec (n * coef step) (dexp step))
    /\ (Qabs (inject_Z n * dval step - dval asked) <= (1 # 2) * dval step + eps * dval asked)%Q.
Proof.
  intros H. unfold rounded_positive, planner_round, increment_of in H. plan_inv.
  unfold planner_decimal in *. repeat case_match; plan_inv; try done.
  match goal with H : snapped _ ?v ?s = Ok _ |- _ =>
    destruct v as [asked|[]|], s as [step|[]|]; try discriminate H; cbn [snapped] in H end.
  run_inv. cbn [fst snd] in *.
  repeat match goal with H : xleb (XFin _) (XFin _) = Ok false |- _ => rewrite xleb_fin in H; apply ok_inj, dleb_gt in H end.
  change (dval dzero) with 0%Q in *.
  match goal with
  | H1 : ddiv _ _ = Ok ?r, H2 : quantize ROUND_HALF_UP ?r _ = Ok ?w, H3 : quantize ROUND_HALF_EVEN _ _ = Ok ?t |- _ =>
    rename r into ratio, w into whole, t into out, H1 into D, H2 into Q, H3 into R end.
  assert (W : dexp whole = 0) by (apply quantize_exp in Q; done).
  destruct whole as [n e]. cbn in W. subst e. unfold dmul in R. cbn [coef dexp] in R.
  apply quantize_fix28 in R as ->; [|done]. apply quantize_half_up_err in Q. apply ddiv_approx in D.
  exists asked, step, n. split_and!; [done..|]. unfold dval at 1 in Q. cbn [coef dexp] in Q.
  change (pow10 (dexp dec_one)) with 1%Q in Q. change (pow10 0) with 1%Q in Q. rewrite !Qmult_1_r in Q.
  apply scale_err; [done|]. unfold approx in D.
  assert (0 <= dval asked / dval step)%Q by (apply Qle_shift_div_l; lra).
  rewrite (Qabs_pos (dval asked / dval step)) in D by done.
  apply Qabs_Qle_condition in Q, D. apply Qabs_Qle_condition. lra.
Qed.

(** The texts of a rounded price read back as finite numbers. *)
Lemma planner_round_text value increment field text :
  planner_round value increment field = Ok (Planned text) -> exists d, text = format_f d.
Proof. unfold planner_round. intros H. plan_inv. eauto. Qed.

Lemma text_value d : to_xdec (PStr (format_f d)) = Some (XFin (plain_form d)).
Proof. apply parse_format_f_plain. Qed.

(** ** What a planned entry satisfies *)

Lemma plan_intent_inv intent context plan :
  plan_intent_execution intent context = Ok (Planned plan) ->
  let action := if str_in (in_action intent) CANCEL_ORDER_ALIASES then CANCEL_ORDER else in_action intent in
  exists authorization instrument,
    authorization_source intent = Planned authorization
    /\ halted_action_allowed action (upper (pc_trading_state context)) = true
    /\ str_in (intent_text intent) (pc_existing_intent_ids context) = false
    /\ in_account_id intent = pc_account_id context
    /\ pc_instrument context = Some instrument /\ is_instrument_id instrument = in_instrument_id intent
    /\ aware (pc_now context) < aware (in_valid_until intent)
    /\ match plan with
       | EntryPlan order => str_in action ENTRY_ACTIONS = true
           /\ plan_entry intent action context instrument = Ok (Planned order)
       | Managed m =>
           (action = CANCEL_ORDER /\ plan_cancel_order_intent intent context = Planned m)
           \/ (action <> CANCEL_ORDER /\ str_in action MANAGEMENT_ACTIONS = true
               /\ plan_management_intent intent action context instrument = Ok (Planned m))
       end.
Proof.
  unfold plan_intent_execution. set (action := if str_in _ _ then _ else _). intros H. cbv zeta.
  plan_inv. match goal with H : authorization_source _ = _ |- _ => rewrite H end.
  destruct (pc_instrument context) as [instrument|] eqn:I; [|discriminate H].
  exists x, instrument. plan_inv.
  - destruct (plan_cancel_order_intent intent context) eqn:C; [discriminate H|]. injection H as H. subst plan.
    split_and!; try done; try (bprop; done). left. by bprop.
  - split_and!; try done; try (bprop; done). right. split_and!; try done. by bprop.
  - split_and!; try done; try (bprop; done). by apply andb_false_iff in E as [E|E]; apply negb_false_iff in E; [|congruence].
Qed.

Lemma entry_needs_active action state :
  str_in action ENTRY_ACTIONS = true -> halted_action_allowed action state = true -> upper state = "ACTIVE".
Proof.
  intros A H. unfold halted_action_allowed, ACTION_PERMISSION_MATRIX in H.
  destruct (String.eqb_spec (upper state) "ACTIVE") as [|N]; [done|].
  destruct (str_in (upper state) _); [|done]. apply str_in_spec in A, H.
  unfold ENTRY_ACTIONS in A. elim_in A; cbn in H; elim_in H; discriminate.
Qed.

Lemma within_notional_inv q p approved d :
  within_notional (format_f q) p approved = Ok (Planned d) -> (0 < dval approved)%Q ->
  exists x, to_xdec (PStr p) = Some (XFin x) /\ ((1 - eps) * (dval q * dval x) <= dval approved)%Q.
Proof.
  unfold within_notional. rewrite text_value. cbn [mbind option_bind is_finite]. intros H A.
  destruct (to_xdec (PStr p)) as [[x|[]|]|]; try discriminate H. cbn in H.
  destruct (dltb approved _) eqn:L; [discriminate H|]. apply dltb_ge in L. exists x. split; [done|].
  pose proof (dmul_approx (plain_form q) x) as M. unfold approx in M. pose proof (plain_form_equiv q) as E.
  unfold equiv, dec_equiv in E. rewrite E in M. set (y := (dval q * dval x)%Q) in *.
  assert (Z : (0 < eps < 1)%Q) by (by compute). apply Qabs_Qle_condition in M as [M _].
  destruct (Qlt_le_dec y 0) as [N|N]; [nra|]. rewrite Qabs_pos in M by done. lra.
Qed.

Lemma build_order_spec_inv plan instrument spec :
  build_order_spec true plan instrument = Ok (Planned spec) ->
  rounded_positive true (dget "quantity" plan) (is_quantity_increment instrument) "quantity"
  = Ok (Planned (os_spec_quantity spec)).
Proof. unfold build_order_spec. intros H. plan_inv; done. Qed.

Lemma parse_side_inv raw side : parse_side raw = Ok (Planned side) -> str_in side ["BUY"; "SELL"] = true.
Proof. unfold parse_side. intros H. by plan_inv. Qed.

Lemma encode_decode h n id :
  uuid_digits h = true -> encode_client_order_id h n = Ok id ->
  decode_client_order_id id = Ok {| ct_intent_id := h; ct_sequence := n |}.
Proof.
  intros U E. assert (Hn : 0 <= n <= 99)
    by (unfold encode_client_order_id in E; destruct (_ || _) eqn:B in E; [discriminate E | lia]).
  destruct (encoded_id h n U Hn) as (id' & E' & _ & D). rewrite E in E'. by apply ok_inj in E' as ->.
Qed.

(** C1. An order that increases risk is planned only for an opening action in
    the ACTIVE state, for an authorized intent of this account and instrument
    that has not been executed before and has not expired.  It is not
    reduce-only, its client order id decodes to the intent, its quantity is a
    positive multiple of the instrument's increment.  The approved budget goes
    with the order, and a priced order's notional is within it, up to the
    rounding of one product; a market order has no price to bound it with
    here. *)
Theorem entry_admitted intent context order :
  plan_intent_execution intent context = Ok (Planned (EntryPlan order)) ->
  str_in (in_action intent) ENTRY_ACTIONS = true
  /\ upper (pc_trading_state context) = "ACTIVE"
  /\ (exists a, authorization_source intent = Planned a)
  /\ (intent_text intent ∉ pc_existing_intent_ids context)
  /\ in_account_id intent = pc_account_id context
  /\ aware (pc_now context) < aware (in_valid_until intent)
  /\ op_reduce_only order = false /\ op_instrument_id order = in_instrument_id intent
  /\ str_in (op_side order) ["BUY"; "SELL"] = true
  /\ (uuid_digits (in_intent_id intent) = true ->
      decode_client_order_id (op_client_order_id order)
      = Ok {| ct_intent_id := in_intent_id intent; ct_sequence := 1 |})
  /\ exists approved instrument step n,
       approved_max_notional intent = Planned approved /\ (0 < dval approved)%Q
       /\ op_approved_max_notional order = Some (format_f approved)
       /\ pc_instrument context = Some instrument
       /\ to_xdec (PStr (is_quantity_increment instrument)) = Some (XFin step) /\ (0 < dval step)%Q /\ 0 < n
       /\ op_quantity order = format_f (Dec (n * coef step) (dexp step))
       /\ forall price, op_price order = Some price ->
            exists p, to_xdec (PStr price) = Some (XFin p)
              /\ ((1 - eps) * (inject_Z n * dval step * dval p) <= dval approved)%Q.
Proof.
  intros H. apply plan_intent_inv in H as (a & instrument & A & M & D & Acc & I & II & V & E & H).
  assert (Act : (if str_in (in_action intent) CANCEL_ORDER_ALIASES then CANCEL_ORDER else in_action intent)
                = in_action intent) by (destruct (str_in (in_action intent) CANCEL_ORDER_ALIASES); [discriminate E | done]).
  rewrite Act in *. apply entry_needs_active in M; [|done]. rewrite upper_idem in M.
  unfold plan_entry in H. plan_inv. cbn [op_reduce_only op_instrument_id op_side op_client_order_id op_quantity op_price].
  match goal with B : build_order_spec _ _ _ = _ |- _ => pose proof (build_order_spec_inv _ _ _ B) as Q end.
  apply rounded_down_inv in Q as (asked & step & n & _ & S & _ & S0 & N & T & _).
  match goal with F : approved_max_notional intent = Planned ?x |- _ => rename x into approved, F into FA end.
  assert (A0 : (0 < dval approved)%Q).
  { unfold approved_max_notional in FA. destruct (to_xdec _ ≫= is_finite) as [b|]; [|discriminate FA].
    destruct (dleb b dzero) eqn:L; [discriminate FA|]. injection FA as <-. by apply dleb_gt in L. }
  split_and!; try done.
  - by exists a.
  - by apply str_in_false.
  - by eapply parse_side_inv.
  - intros U. by eapply encode_decode.
  - exists approved, instrument, step, n. split_and!; try done. intros price P.
    match goal with W : context [within_notional] |- _ => rewrite P, T in W; apply within_notional_inv in W as (p & X & B); [|done] end.
    exists p. split; [done|]. unfold dval at 1 in B. cbn [coef dexp] in B. rewrite inject_Z_mult in B.
    unfold dval at 1. eapply Qle_trans; [|exact B]. apply Qle_lteq. right. ring.
Qed.

(** ** Evidence for an entry *)

Lemma assessment_inv context instrument_id side a :
  reconciled_assessment context instrument_id side = Some a ->
  exists state, pc_reconciled_state context = Some state
    /\ assess state {| bk_account_id := pc_account_id context; bk_instrument_id := instrument_id;
                       bk_position_side := side |} = Ok a.
Proof.
  unfold reconciled_assessment. intros H. apply bind_Some in H as (state & S & H). exists state. split; [done|].
  destruct (assess _ _); by simplify_eq.
Qed.



(** ** The target of a management action *)

(** Where a selected position comes from: the cache, or fresh venue evidence. *)
Definition position_evidence (context : PlannerContext) (instrument_id : string) (p : PositionSnapshot) : Prop :=
  (p ∈ context_positions context
   /\ exists q, to_xdec (PStr (ps_quantity p)) = Some q /\ xeqb q (XFin dzero) = false)
  \/ exists state a, pc_reconciled_state context = Some state
       /\ assess state {| bk_account_id := pc_account_id context; bk_instrument_id := instrument_id;
                          bk_position_side := ps_side p |} = Ok a
       /\ pa_state a = KNOWN_OPEN /\ ps_quantity p = format_f (pa_quantity a).

Lemma positions_of_inv instrument_id l l' p :
  positions_of instrument_id l = Ok l' -> p ∈ l' ->
  p ∈ l /\ ps_instrument_id p = instrument_id
  /\ exists q, to_xdec (PStr (ps_quantity p)) = Some q /\ xeqb q (XFin dzero) = false.
Proof.
  revert l'. induction l as [|x l IH]; intros l' H I; cbn [positions_of] in H.
  { apply ok_inj in H as <-. by inversion I. }
  destruct (String.eqb_spec (ps_instrument_id x) instrument_id) as [E|N]; cbn [negb] in H.
  - run_inv. match goal with W : decimal_of _ = Ok ?x |- _ => rename x into q, W into D end.
    match goal with W : positions_of _ _ = Ok _ |- _ => rename W into Hr end.
    unfold decimal_of in D. destruct (to_xdec (PStr (ps_quantity x))) as [q'|] eqn:T; [|done]. apply ok_inj in D as ->.
    destruct (xeqb q (XFin dzero)) eqn:Z.
    + destruct (IH _ Hr I) as (? & ? & ?). split_and!; [by right | done..].
    + apply elem_of_cons in I as [->|I]; [split_and!; [left | done | eauto]|].
      destruct (IH _ Hr I) as (? & ? & ?). split_and!; [by right | done..].
  - destruct (IH _ H I) as (? & ? & ?). split_and!; [by right | done..].
Qed.

Lemma mapM_assessments context instrument_id sides l :
  mapM (M := option) (fun s => pair s <$> reconciled_assessment context instrument_id s) sides = Some l ->
  forall s a, (s, a) ∈ l -> s ∈ sides /\ reconciled_assessment context instrument_id s = Some a.
Proof.
  intros H s a I. apply mapM_Some_1 in H. induction H as [|s' [s1 a1] sides l E F IH]; [by inversion I|].
  apply fmap_Some in E as (a' & E & [= -> ->]). apply elem_of_cons in I as [[= -> ->]|I]; [split; [left | done]|].
  destruct (IH I). split; [by right | done].
Qed.

Lemma reconciled_target_inv context instrument_id requested target p :
  reconciled_target_position context instrument_id requested target = Some (Planned p) ->
  ps_instrument_id p = instrument_id /\ position_evidence context instrument_id p
  /\ names_other_instrument target instrument_id = false
  /\ (requested <> "" -> ps_side p = requested).
Proof.
  unfold reconciled_target_position. intros H. destruct (pc_reconciled_state context) eqn:R; [|discriminate H].
  destruct (names_other_instrument _ _); [discriminate H|]. destruct (_ && _ && _); [discriminate H|].
  set (book_side := if is_empty requested then target_position_id_side target else requested) in *.
  destruct (mapM (M := option) _ _) as [l|] eqn:A; [|discriminate H].
  destruct (first_in_state UNKNOWN l) as [[? ?]|]; [discriminate H|].
  destruct (first_in_state CONFLICTED l) as [[? ?]|]; [discriminate H|].
  destruct (List.filter _ l) as [|[side a] [|]] eqn:O; try discriminate H. injection H as <-.
  assert (I : In (side, a) (List.filter (fun p => bool_decide (pa_state (snd p) = KNOWN_OPEN)) l)) by (rewrite O; by left).
  apply filter_In in I as [I K]. apply bool_decide_eq_true in K. apply list_elem_of_In in I.
  destruct (mapM_assessments _ _ _ _ A _ _ I) as [S As]. cbn. split_and!; [done| |done|].
  - right. apply assessment_inv in As as (state & Rs & As). by exists state, a.
  - intros N. unfold book_side in S. destruct requested as [|c0 r0]; [done|]. cbn in S.
    by apply list_elem_of_singleton in S.
Qed.

Lemma the_position_inv matches fallback detail p :
  the_position matches fallback detail = Planned p ->
  matches = [p] \/ (matches = [] /\ fallback = Some (Planned p)).
Proof. unfold the_position. intros H. repeat case_match; simplify_eq; auto. Qed.

(** The side a management action asks for. *)
Definition requested_side (intent : TradeIntent) : string :=
  upper (strip (text_or_empty (dget "position_side" (in_order_plan intent)))).

(** What the selected position owes to the intent. *)
Definition targets (intent : TradeIntent) (context : PlannerContext) (instrument_id : string) (p : PositionSnapshot) : Prop :=
  ps_instrument_id p = instrument_id
  /\ position_evidence context instrument_id p
  /\ (requested_side intent <> "" -> upper (ps_side p) = requested_side intent)
  /\ (forall target, in_target_position_id intent = Some target -> target <> "" ->
        ps_position_id p = Some target \/ names_other_instrument (Some target) instrument_id = false).

Lemma fallback_targets intent context instrument_id p :
  reconciled_target_position context instrument_id (requested_side intent) (in_target_position_id intent)
    = Some (Planned p) ->
  targets intent context instrument_id p.
Proof.
  intros H. apply reconciled_target_inv in H as (I & E & N & S). split_and!; try done.
  - intros R. rewrite S by done. apply upper_idem.
  - intros t Ht _. right. by rewrite <- Ht.
Qed.

Lemma listed_targets intent context instrument_id positions p :
  positions_of instrument_id (context_positions context) = Ok positions -> In p positions ->
  (requested_side intent <> "" -> upper (ps_side p) = requested_side intent) ->
  (forall t, in_target_position_id intent = Some t -> t <> "" -> ps_position_id p = Some t) ->
  targets intent context instrument_id p.
Proof.
  intros G I R T. apply list_elem_of_In in I. destruct (positions_of_inv _ _ _ _ G I) as (I1 & I2 & I3).
  split_and!; [done | by left | done |]. intros t Ht N. left. by apply T.
Qed.

(** A management action targets a position of the intent's own instrument,
    on the side the intent asks for if it names one, that the cache holds or
    that fresh venue evidence knows to be open with that quantity; when the
    intent names a position, it is that one, or the name does not belong to
    another instrument. *)
Theorem management_target intent context instrument_id p :
  select_target_position intent context instrument_id = Ok (Planned p) ->
  ps_instrument_id p = instrument_id
  /\ position_evidence context instrument_id p
  /\ (requested_side intent <> "" -> upper (ps_side p) = requested_side intent)
  /\ (forall target, in_target_position_id intent = Some target -> target <> "" ->
        ps_position_id p = Some target \/ names_other_instrument (Some target) instrument_id = false).
Proof.
  intros H. unfold select_target_position in H. fold (requested_side intent) in H.
  change (targets intent context instrument_id p).
  destruct (negb (is_empty (requested_side intent)) && _) eqn:V; [discriminate H|].
  plan_inv. rename x into positions. match goal with W : positions_of _ _ = _ |- _ => rename W into G end.
  set (fallback := reconciled_target_position _ _ _ _) in H.
  assert (F : fallback = Some (Planned p) -> targets intent context instrument_id p) by apply fallback_targets.
  destruct (str_or (in_target_position_id intent) None) as [target|] eqn:T.
  - assert (Tg : in_target_position_id intent = Some target).
    { unfold str_or in T. destruct (in_target_position_id intent) as [t|]; [|done]. destruct (is_empty t); by simplify_eq. }
    destruct (the_position _ fallback target) as [|selected] eqn:S; [discriminate H|].
    apply the_position_inv in S as [S|[_ S]].
    2:{ destruct (existsb _ positions && _ && _); [rewrite S in H|]; injection H as ->; by apply F. }
    assert (I : In selected (List.filter (fun p => bool_decide (ps_position_id p = Some target)) positions))
      by (rewrite S; by left).
    apply filter_In in I as [I B].
    destruct (existsb _ positions && _ && _) eqn:X.
    { destruct fallback as [f|]; [|discriminate H]. subst f. by apply F. }
    injection H as ->. apply bool_decide_eq_true in B. apply (listed_targets _ _ _ _ _ G I); [|congruence].
    intros N. assert (Ex : existsb (fun p => bool_decide (ps_position_id p = Some target)) positions = true)
      by (apply existsb_exists; exists p; split; [done | by apply bool_decide_eq_true]).
    rewrite Ex in X. destruct (requested_side intent); [done|].
    cbn [is_empty negb andb] in X. by apply negb_false_iff, String.eqb_eq in X.
  - assert (Tg : forall t, in_target_position_id intent = Some t -> t <> "" -> ps_position_id p = Some t).
    { intros t Ht. rewrite Ht in T. unfold str_or in T. by destruct t. }
    destruct (is_empty (requested_side intent)) eqn:Q; apply the_position_inv in H as [H|[_ H]]; try (by apply F).
    + apply (listed_targets _ _ _ _ _ G); [rewrite H; by left | | done]. by destruct (requested_side intent).
    + assert (I : In p (List.filter (fun p => String.eqb (upper (ps_side p)) (requested_side intent)) positions))
        by (rewrite H; by left).
      apply filter_In in I as [I B]. apply (listed_targets _ _ _ _ _ G I); [|done]. intros _. by apply String.eqb_eq.
Qed.

(** ** What a management plan sends *)

(** An order that only reduces the position. *)
Definition reduces (intent : TradeIntent) (position : PositionSnapshot) (o : OrderPlan) : Prop :=
  op_reduce_only o = true /\ op_side o = planner_exit_side position
  /\ op_intent_id o = in_intent_id intent /\ op_instrument_id o = in_instrument_id intent.

Section reductions.
Context (intent : TradeIntent) (instrument : InstrumentSpec) (position : PositionSnapshot).

Lemma reduce_only_order_inv n action role tags kind q price tif trigger o :
  reduce_only_order intent position n action role tags kind q price tif trigger = Ok (Planned o) ->
  reduces intent position o /\ op_quantity o = q.
Proof. unfold reduce_only_order. intros H. plan_inv. by split_and!. Qed.

Lemma within_position_inv q held u :
  within_position q held = Ok (Planned u) ->
  exists x h, decimal_of (PStr q) = Ok x /\ decimal_of (PStr held) = Ok h /\ xltb h x = Ok false.
Proof. unfold within_position. intros H. plan_inv. by exists x, x0. Qed.

Lemma exit_order_inv action plan o :
  build_exit_order intent instrument position action plan = Ok (Planned o) ->
  reduces intent position o
  /\ exists x h, decimal_of (PStr (op_quantity o)) = Ok x /\ decimal_of (PStr (ps_quantity position)) = Ok h
       /\ xltb h x = Ok false.
Proof.
  unfold build_exit_order. intros H. apply pbind_inv in H as (plan' & _ & H). plan_inv.
  match goal with W : within_position _ _ = _ |- _ => apply within_position_inv in W end.
  apply reduce_only_order_inv in H as [R Q]. by rewrite Q.
Qed.

Lemma stop_order_inv action plan o :
  planner_stop_order intent instrument position action plan = Ok (Planned o) ->
  reduces intent position o
  /\ rounded_positive false (PStr (ps_quantity position)) (is_quantity_increment instrument) "quantity"
     = Ok (Planned (op_quantity o)).
Proof. unfold planner_stop_order. intros H. plan_inv; by apply reduce_only_order_inv in H as [R ->]. Qed.

Lemma take_profits_inv plan index total targets total' orders :
  take_profit_orders intent instrument position plan index total targets = Ok (Planned (total', orders)) ->
  Forall (reduces intent position) orders /\ plans_total total orders = Ok total'
  /\ length orders = length targets.
Proof.
  revert index total orders. induction targets as [|t targets IH]; intros index total orders H;
    cbn [take_profit_orders] in H.
  { plan_inv. by split_and!. }
  destruct t; try discriminate H. plan_inv. destruct x5 as [total1 rest]. cbn [fst snd] in *.
 
  repeat match goal with
  | W : take_profit_orders _ _ _ _ _ _ _ = _ |- _ => apply IH in W as (F & T & L)
  | W : reduce_only_order _ _ _ _ _ _ _ _ _ _ _ = _ |- _ => apply reduce_only_order_inv in W as [R Q]
  end.
  split_and!; [by constructor | | cbn; by rewrite L].
  cbn [plans_total]. rewrite Q.
  repeat match goal with W : ?m = Ok _ |- context [?m] => rewrite W; cbn [mbind result_bind] end. done.
Qed.

(** The orders of an action reduce the position; exits and take-profits stay
    within its quantity. *)
Lemma management_orders_inv action orders role :
  management_orders intent instrument position action = Ok (Planned (orders, role)) ->
  Forall (reduces intent position) orders
  /\ (str_in action EXIT_ACTIONS = true -> exists o x h, orders = [o]
        /\ decimal_of (PStr (op_quantity o)) = Ok x /\ decimal_of (PStr (ps_quantity position)) = Ok h
        /\ xltb h x = Ok false)
  /\ (action = REPLACE_TAKE_PROFITS -> orders <> [] -> exists total h,
        plans_total (XFin dzero) orders = Ok total /\ decimal_of (PStr (ps_quantity position)) = Ok h
        /\ xltb h total = Ok false)
  /\ (action = MOVE_STOP_LOSS \/ action = MOVE_STOP_TO_ENTRY -> exists o, orders = [o]
        /\ rounded_positive false (PStr (ps_quantity position)) (is_quantity_increment instrument) "quantity"
           = Ok (Planned (op_quantity o))).
Proof.
  unfold management_orders. intros H.
  destruct (String.eqb_spec action PARTIAL_CLOSE) as [->|N1].
  { plan_inv. match goal with W : build_exit_order _ _ _ _ _ = _ |- _ => apply exit_order_inv in W as [R Q] end.
    split_and!; [by apply Forall_singleton | | done | by intros [?|?]]. intros _. destruct Q as (x2 & h & Q). by eexists _, _, _. }
  destruct (String.eqb_spec action CLOSE_POSITION) as [->|N2].
  { plan_inv. match goal with W : build_exit_order _ _ _ _ _ = _ |- _ => apply exit_order_inv in W as [R Q] end.
    split_and!; [by apply Forall_singleton | | done | by intros [?|?]]. intros _. destruct Q as (x3 & h & Q). by eexists _, _, _. }
  assert (X : str_in action EXIT_ACTIONS = true -> False).
  { intros I. apply str_in_spec in I. unfold EXIT_ACTIONS in I. by elim_in I. }
  destruct (String.eqb_spec action MOVE_STOP_LOSS) as [->|N3].
  { plan_inv. match goal with W : planner_stop_order _ _ _ _ _ = _ |- _ => apply stop_order_inv in W as [R Q] end.
    split_and!; [by apply Forall_singleton | done | done | by eauto]. }
  destruct (String.eqb_spec action MOVE_STOP_TO_ENTRY) as [->|N4].
  { plan_inv. match goal with W : planner_stop_order _ _ _ _ _ = _ |- _ => apply stop_order_inv in W as [R Q] end.
    split_and!; [by apply Forall_singleton | done | done | by eauto]. }
  destruct (String.eqb_spec action REPLACE_TAKE_PROFITS) as [->|N5]; [|discriminate H].
  plan_inv. unfold build_take_profit_orders in *.
  match goal with W : _ = Ok (Planned ?x) |- _ => rename W into B, x into orders end.
  destruct (default _ _) as [| | | | | |targets|] eqn:D; try discriminate B.
  destruct targets as [|t targets].
  { destruct (disables_take_profits _); [|discriminate B]. plan_inv. split_and!; try done. by intros [?|?]. }
  plan_inv. destruct x as [total os]. cbn [fst snd] in *.
  match goal with W : take_profit_orders _ _ _ _ _ _ _ = _ |- _ => apply take_profits_inv in W as (F & T & L) end.
  split_and!; [done | done | by intros _ _; eauto | by intros [?|?]].
Qed.

End reductions.

(** Two multiples of a step closer than the step are the same. *)
Lemma nearest_multiple n k step held :
  (0 < dval step)%Q -> (Qabs (inject_Z n * dval step - dval held) <= (1 # 2) * dval step + eps * dval held)%Q ->
  (dval held == inject_Z k * dval step)%Q -> (eps * inject_Z k < 1 # 2)%Q -> n = k.
Proof.
  intros S N H K. rewrite H in N. apply Qabs_Qle_condition in N as [N1 N2].
  assert (B : forall a, (a * dval step <= ((1 # 2) + eps * inject_Z k) * dval step -> a < 1)%Q).
  { intros a L. apply Qmult_le_r in L; [lra | done]. }
  assert (L1 : (inject_Z n - inject_Z k < 1)%Q) by (apply B; lra).
  assert (L2 : (inject_Z k - inject_Z n < 1)%Q) by (apply B; lra).
  unfold Qlt, Qminus, Qplus, Qopp, inject_Z in L1, L2. cbn in L1, L2. lia.
Qed.

(** C17. A management plan never increases risk: it holds only reduce-only orders
    of the intent's instrument on the side that closes the selected position.
    A close, partial or full, is a single order, and a take-profit ladder a
    set of orders, whose quantities as sent are within the position.  A moved
    stop is a single order for the position rounded half up to the increment:
    within half an increment of the position, and the position itself when it
    is a multiple of the increment.  A cancellation sends no order and names
    exactly one open order of the instrument, whose id is one the node can
    have built. *)
Theorem management_reduces intent context m :
  plan_intent_execution intent context = Ok (Planned (Managed m)) ->
  (mp_action m = CANCEL_ORDER /\ mp_orders m = []
   /\ exists order trace, order ∈ pc_existing_orders context
        /\ mp_cancel_order_ids m = [os_client_order_id order]
        /\ os_instrument_id order = in_instrument_id intent
        /\ decode_client_order_id (os_client_order_id order) = Ok trace)
  \/ exists position,
       select_target_position intent context (in_instrument_id intent) = Ok (Planned position)
       /\ mp_target_position_id m = ps_position_id position
       /\ Forall (reduces intent position) (mp_orders m)
       /\ (str_in (mp_action m) EXIT_ACTIONS = true -> exists o x h, mp_orders m = [o]
             /\ decimal_of (PStr (op_quantity o)) = Ok x /\ decimal_of (PStr (ps_quantity position)) = Ok h
             /\ xltb h x = Ok false)
       /\ (mp_action m = REPLACE_TAKE_PROFITS -> mp_orders m <> [] -> exists total h,
            plans_total (XFin dzero) (mp_orders m) = Ok total
            /\ decimal_of (PStr (ps_quantity position)) = Ok h /\ xltb h total = Ok false)
       /\ (mp_action m = MOVE_STOP_LOSS \/ mp_action m = MOVE_STOP_TO_ENTRY -> exists o instrument held step n,
             mp_orders m = [o] /\ pc_instrument context = Some instrument
             /\ to_xdec (PStr (ps_quantity position)) = Some (XFin held)
             /\ to_xdec (PStr (is_quantity_increment instrument)) = Some (XFin step) /\ (0 < dval step)%Q
             /\ op_quantity o = format_f (Dec (n * coef step) (dexp step))
             /\ (Qabs (inject_Z n * dval step - dval held) <= (1 # 2) * dval step + eps * dval held)%Q
             /\ forall k, (dval held == inject_Z k * dval step)%Q -> (eps * inject_Z k < 1 # 2)%Q -> n = k).
Proof.
  intros H. apply plan_intent_inv in H as (_ & instrument & _ & _ & _ & _ & PI & _ & _ & [[E C]|(_ & _ & H)]).
  - left. unfold plan_cancel_order_intent in C. destruct (is_empty _); [discriminate C|].
    destruct (List.filter _ _) as [|order [|]] eqn:F; try discriminate C.
    destruct (cancel_order_ownership order context) eqn:O; [discriminate C|].
    destruct (authorization_source intent); [discriminate C|]. injection C as <-.
    pose proof (in_eq order []) as I. rewrite <- F in I. apply filter_In in I as [I B]. bprop. unfold cancel_order_ownership in O.
    destruct (decode_client_order_id (os_client_order_id order)) as [trace|] eqn:D; [|discriminate O].
    split_and!; [done..|]. exists order, trace. cbn [mp_cancel_order_ids]. split_and!; [by apply list_elem_of_In | by f_equal | done | done].
  - right. unfold plan_management_intent in H. plan_inv. destruct x1 as [orders role]. cbn [fst snd mp_orders mp_action mp_target_position_id] in *.
    match goal with W : management_orders _ _ _ _ = _ |- _ => apply management_orders_inv in W as (R & Q1 & Q2 & Q3) end.
    eexists. split_and!; try done. intros M. destruct (Q3 M) as (o & -> & Q).
    apply rounded_half_inv in Q as (held & step & n & H1 & H2 & _ & H3 & H4 & H5).
    exists o, instrument, held, step, n. split_and!; try done. intros k. by eapply nearest_multiple.
Qed.

(** ** Samples *)

Definition sample_intent (action : string) (plan : dict) : TradeIntent := {|
  in_action := action; in_intent_id := "0123456789abcdef0123456789abcdef"; in_account_id := "acct";
  in_instrument_id := "BTCUSDT-PERP.BINANCE"; in_valid_until := utc 200;
  in_order_plan := dset "authorization"
    (PDict [("authorized_by_type", PStr "channel"); ("authorized_by_id", PStr "c1"); ("source_message_id", PStr "m1")])
    plan;
  in_execution := None; in_sizing := None; in_risk_budget := Some [("max_notional", PStr "500")];
  in_target_position_id := None; in_decision_id := "d"; in_risk_decision_id := "r"; in_idempotency_key := "k" |}.

Definition flat_state : ReconciledExecutionState := {|
  re_account_id := "acct"; re_venue_fresh := true; re_venue_detail := "venue snapshot fresh";
  re_venue_quantities := ∅; re_cache_quantities := ∅; re_bot_order_ids := ∅ |}.

Definition sample_context (positions : list PositionSnapshot) : PlannerContext := {|
  pc_account_id := "acct"; pc_trading_state := "active"; pc_now := utc 100;
  pc_instrument := Some {| is_instrument_id := "BTCUSDT-PERP.BINANCE"; is_price_increment := "0.1";
                           is_quantity_increment := "0.001" |};
  pc_position := None; pc_positions := positions; pc_existing_orders := []; pc_existing_intent_ids := [];
  pc_effective_settings := []; pc_reconciled_state := Some flat_state; pc_simulation := false |}.

Definition sample_entry : TradeIntent :=
  sample_intent OPEN_POSITION [("side", PStr "buy"); ("type", PStr "limit"); ("price", PStr "100"); ("quantity", PStr "2")].

Definition sample_close : TradeIntent :=
  sample_intent PARTIAL_CLOSE [("type", PStr "market"); ("fraction", PStr "0.5"); ("position_side", PStr "long")].

Definition sample_holding : PositionSnapshot := {|
  ps_instrument_id := "BTCUSDT-PERP.BINANCE"; ps_side := "LONG"; ps_quantity := "3"; ps_position_id := Some "p1";
  ps_entry_price := None |}.

Definition is_entry (r : result (planned execution_plan)) : bool :=
  match r with Ok (Planned (EntryPlan o)) => String.eqb (op_quantity o) "2.000" | _ => false end.
Definition is_managed (r : result (planned execution_plan)) : bool :=
  match r with Ok (Planned (Managed m)) => String.eqb (mp_action m) PARTIAL_CLOSE | _ => false end.

Lemma entry_admitted_witness :
  exists order, plan_intent_execution sample_entry (sample_context []) = Ok (Planned (EntryPlan order))
    /\ op_quantity order = "2.000"
    /\ decode_client_order_id (op_client_order_id order)
       = Ok {| ct_intent_id := "0123456789abcdef0123456789abcdef"; ct_sequence := 1 |}.
Proof.
  assert (T : is_entry (plan_intent_execution sample_entry (sample_context [])) = true) by (vm_compute; reflexivity).
  destruct (plan_intent_execution sample_entry (sample_context [])) as [[|[order|m]]|] eqn:E; try discriminate T.
  apply String.eqb_eq in T. exists order. split; [reflexivity|]. split; [exact T|].
  destruct (entry_admitted _ _ _ E) as (_ & _ & _ & _ & _ & _ & _ & _ & _ & D & _). apply D. vm_compute. reflexivity.
Defined.


Lemma management_target_witness :
  exists p, select_target_position sample_close (sample_context [sample_holding]) "BTCUSDT-PERP.BINANCE" = Ok (Planned p)
    /\ ps_instrument_id p = "BTCUSDT-PERP.BINANCE"
    /\ position_evidence (sample_context [sample_holding]) "BTCUSDT-PERP.BINANCE" p.
Proof.
  assert (T : match select_target_position sample_close (sample_context [sample_holding]) "BTCUSDT-PERP.BINANCE" with
              | Ok (Planned p) => true | _ => false end = true) by (vm_compute; reflexivity).
  destruct (select_target_position _ _ _) as [[|p]|] eqn:E; try discriminate T.
  exists p. split; [reflexivity|]. destruct (management_target _ _ _ _ E) as (I & V & _). split; [exact I | exact V].
Defined.

Lemma management_reduces_witness :
  exists m, plan_intent_execution sample_close (sample_context [sample_holding]) = Ok (Planned (Managed m))
    /\ exists position o x h, mp_orders m = [o] /\ Forall (reduces sample_close position) (mp_orders m)
         /\ decimal_of (PStr (op_quantity o)) = Ok x /\ decimal_of (PStr (ps_quantity position)) = Ok h
         /\ xltb h x = Ok false.
Proof.
  assert (T : is_managed (plan_intent_execution sample_close (sample_context [sample_holding])) = true)
    by (vm_compute; reflexivity).
  destruct (plan_intent_execution sample_close (sample_context [sample_holding])) as [[|[order|m]]|] eqn:E;
    try discriminate T.
  apply String.eqb_eq in T. exists m. split; [reflexivity|].
  destruct (management_reduces _ _ _ E) as [(A & _)|(position & _ & _ & R & Q & _)]; [rewrite T in A; discriminate A|].
  rewrite T in Q. destruct (Q eq_refl) as (o & x & h & O & X & Y & Z). exists position, o, x, h.
  split; [exact O|]. split; [exact R|]. split; [exact X|]. split; [exact Y | exact Z].
Defined.

(** A stop moved for a position that is not a multiple of the increment can ask
    for more than the position holds. *)
Definition off_grid_holding : PositionSnapshot := {|
  ps_instrument_id := "BTCUSDT-PERP.BINANCE"; ps_side := "LONG"; ps_quantity := "0.0015"; ps_position_id := Some "p1";
  ps_entry_price := None |}.

Lemma moved_stop_exceeds :
  match plan_intent_execution (sample_intent MOVE_STOP_LOSS [("stop_price", PStr "90"); ("position_side", PStr "long")])
          (sample_context [off_grid_holding]) with
  | Ok (Planned (Managed m)) => map op_quantity (mp_orders m) = ["0.002"]
  | _ => False
  end.
Proof. vm_compute. reflexivity. Qed.

(** A market entry is planned whatever its notional would be. *)
Lemma market_entry_unbounded :
  match plan_intent_execution (sample_intent OPEN_POSITION [("side", PStr "buy"); ("type", PStr "market"); ("quantity", PStr "1000000")])
          (sample_context []) with
  | Ok (Planned (EntryPlan o)) =>
      (op_quantity o, op_price o, op_approved_max_notional o) = ("1000000.000", None, Some "500")
  | _ => False
  end.
Proof. vm_compute. reflexivity. Qed.
