(* ===== verification/ZoneLadder.v ===== *)
(** * ZoneLadder: expanding a zone signal into tranches

    Models control-plane/decision_gateway/zone_ladder.py.  A float of a signal
    is carried by the decimal its [repr] denotes; the floats of the plan are
    the results of [float(Decimal)]. *)

From Stdlib Require Import ZArith Lia Ascii QArith Qabs Qpower Lqa.
From S2P Require Import Prelude Decimal PyString DecText PyValue PyTime Binary64 Store External Allocation.
Open Scope string_scope.
Open Scope Z_scope.

Definition CHASE_WINDOW : dec := Dec 35 (-4).
Definition NARROW_ZONE_THRESHOLD : dec := Dec 15 (-4).
Definition INVALIDATION_BUFFER : dec := Dec 2 (-1).
Definition MAX_TTL : Z := 48 * seconds 3600.
Definition POLICY : string := "zone-ladder-v1.0".
Definition PLAN_VERSION : string := "1.1".

(** Identifier, sequence, depth and risk weight of each level. *)
Definition TRANCHE_LEVELS : list (string * Z * dec * dec) :=
  [("t1_near", 1, Dec 0 0, Dec 55 (-2)); ("t2_mid", 2, Dec 50 (-2), Dec 30 (-2));
   ("t3_deep", 3, Dec 85 (-2), Dec 15 (-2))].

Record ZoneSignal := {
  zs_side : string;
  zs_price_min : dec;
  zs_price_max : dec;
  zs_stop_loss : option dec;
  zs_take_profits : list dec;
  zs_valid_until : option datetime }.

Record MarketContext := {
  mk_p0 : dec;
  mk_now : datetime;
  mk_price_increment : string;
  mk_quantity_increment : string }.

Record RiskContext := { rc_risk_budget_usd : dec; rc_max_notional : dec; rc_max_leverage : dec }.

Inductive style := Chase | Rest.

Record Tranche := {
  zt_tranche_id : string;
  zt_seq : Z;
  zt_price : dec;
  zt_risk_weight : dec;
  zt_style : style;
  zt_limit_cap : option dec }.

(** A value, or an [ExpandDenied]. *)
Inductive expanded (A : Type) :=
  | ExpandDenied (reason detail : string)
  | Expanded (a : A).
Arguments ExpandDenied {A}.
Arguments Expanded {A}.

(** [_decimal] of a float and of a text. *)
Definition float_decimal (d : dec) : result dec := x ← decimal_of (PFloat d); finite x.
Definition text_decimal (s : string) : result dec := x ← decimal_of (PStr s); finite x.

(** [_round_to_increment] *)
Definition zone_round (mode : rounding) (value increment : dec) : result dec :=
  ratio ← ddiv value increment;
  Ok (to_integral mode ratio * increment)%dec.

(** [_floor_to_increment] *)
Definition zone_floor (value increment : dec) : result dec :=
  if dleb value dzero then Ok dzero else zone_round ROUND_FLOOR value increment.

(** [_rest_price] *)
Definition rest_price (long : bool) (price price_increment : dec) : result dec :=
  zone_round (if long then ROUND_FLOOR else ROUND_CEILING) price price_increment.

(** [_depth] and [_premium] *)
Definition depth (long : bool) (p0 near height : dec) : result dec :=
  ddiv (if long then near - p0 else p0 - near)%dec height.
Definition premium (long : bool) (p0 near : dec) : result dec :=
  ddiv (if long then p0 - near else near - p0)%dec near.

(** [_limit_cap] *)
Definition limit_cap (long : bool) (near : dec) : dec :=
  (if long then near * (dec_one + CHASE_WINDOW) else near * (dec_one - CHASE_WINDOW))%dec.

(** [_tranche_price] *)
Definition tranche_price (long : bool) (near height tranche_depth price_increment : dec) : result dec :=
  rest_price long (if long then near - tranche_depth * height else near + tranche_depth * height)%dec price_increment.

(** ** The tranches of a zone *)

Definition with_weight (w : dec) (t : Tranche) : Tranche :=
  {| zt_tranche_id := zt_tranche_id t; zt_seq := zt_seq t; zt_price := zt_price t; zt_risk_weight := w;
     zt_style := zt_style t; zt_limit_cap := zt_limit_cap t |}.

Definition chase (cap : dec) (t : Tranche) : Tranche :=
  {| zt_tranche_id := zt_tranche_id t; zt_seq := zt_seq t; zt_price := zt_price t;
     zt_risk_weight := zt_risk_weight t; zt_style := Chase; zt_limit_cap := Some cap |}.

(** [tranche.risk_weight += w] *)
Definition add_weight (w : dec) (t : Tranche) : Tranche := with_weight (zt_risk_weight t + w)%dec t.

Definition alter_head (f : Tranche -> Tranche) (l : list Tranche) : list Tranche :=
  match l with t :: l => f t :: l | [] => [] end.

Fixpoint alter_last (f : Tranche -> Tranche) (l : list Tranche) : list Tranche :=
  match l with
  | [] => []
  | [t] => [f t]
  | t :: l => t :: alter_last f l
  end.

(** The loop of [_keep_stale_favorable_tranches]: the weight of a tranche the
    price has passed is carried to the next one that is kept. *)
Fixpoint keep_favorable (long : bool) (p0 : dec) (carry : dec) (kept tranches : list Tranche)
  : list Tranche * dec :=
  match tranches with
  | [] => (kept, carry)
  | t :: tranches =>
      if (if long then dltb (zt_price t) p0 else dltb p0 (zt_price t))
      then keep_favorable long p0 dzero (kept ++ [add_weight carry t])%list tranches
      else keep_favorable long p0 (carry + zt_risk_weight t)%dec kept tranches
  end.

(** [_keep_stale_favorable_tranches]; the first tranche is always kept. *)
Definition keep_stale_favorable_tranches (long : bool) (p0 : dec) (tranches : list Tranche) : list Tranche :=
  match tranches with
  | [] => []
  | first :: rest =>
      let '(kept, carry) := keep_favorable long p0 dzero [first] rest in
      if dis_zero carry then kept else alter_last (add_weight carry) kept
  end.

(** [_zone_ladder_tranches] *)
Definition zone_ladder_tranches (long : bool) (p0 near height zone_depth price_increment : dec)
  : result (list Tranche) :=
  base ← mapR (fun level => let '(tranche_id, seq, tranche_depth, weight) := level in
    price ← tranche_price long near height tranche_depth price_increment;
    Ok {| zt_tranche_id := tranche_id; zt_seq := seq; zt_price := price; zt_risk_weight := weight;
          zt_style := Rest; zt_limit_cap := None |}) TRANCHE_LEVELS;
  if dltb dzero zone_depth && dleb zone_depth dec_one
  then Ok (keep_stale_favorable_tranches long p0 (alter_head (chase (limit_cap long near)) base))
  else
    away ← premium long p0 near;
    Ok (if dleb away CHASE_WINDOW then alter_head (chase (limit_cap long near)) base else base).

(** [_single_limit_tranche] *)
Definition single_limit_tranche (long : bool) (price_min price_max price_increment : dec) : result Tranche :=
  midpoint ← ddiv (price_min + price_max)%dec (Dec 2 0);
  price ← rest_price long midpoint price_increment;
  Ok {| zt_tranche_id := "t1_near"; zt_seq := 1; zt_price := price; zt_risk_weight := dec_one;
        zt_style := Rest; zt_limit_cap := None |}.

(** ** Sizing *)

Section sizing.
Context (stop_loss risk_budget max_notional quantity_increment : dec).

(** The first loop of [_size_once]. *)
Fixpoint raw_quantities (tranches : list Tranche) : result (expanded (list (Tranche * dec))) :=
  match tranches with
  | [] => Ok (Expanded [])
  | t :: tranches =>
      let distance := dabs (zt_price t - stop_loss)%dec in
      if dleb distance dzero then Ok (ExpandDenied "needs_review" "invalid_stop_loss")
      else
        raw ← ddiv (risk_budget * zt_risk_weight t)%dec distance;
        rest ← raw_quantities tranches;
        Ok (match rest with
            | ExpandDenied r d => ExpandDenied r d
            | Expanded l => Expanded ((t, raw) :: l)
            end)
  end.

Definition notional_scale (raw : list (Tranche * dec)) : result dec :=
  let total := dsum (map (fun p => snd p * zt_price (fst p))%dec raw) in
  if dleb max_notional dzero then Ok dzero
  else if dltb max_notional total then ddiv max_notional total
  else Ok dec_one.

(** [_size_once] *)
Definition size_once (tranches : list Tranche) : result (expanded (list (Tranche * dec))) :=
  raw ← raw_quantities tranches;
  match raw with
  | ExpandDenied r d => Ok (ExpandDenied r d)
  | Expanded raw =>
      scale ← notional_scale raw;
      sized ← mapR (fun p => q ← zone_floor (snd p * scale)%dec quantity_increment; Ok (fst p, q)) raw;
      Ok (Expanded sized)
  end.

(** The index of the first quantity that is not positive. *)
Fixpoint zero_index (sized : list (Tranche * dec)) : option nat :=
  match sized with
  | [] => None
  | (_, q) :: sized => if dleb q dzero then Some O else S <$> zero_index sized
  end.

(** [working.pop(i)], its weight given to the tranche that took its place or
    to the last one. *)
Definition drop_tranche (i : nat) (working : list Tranche) : list Tranche :=
  match working !! i with
  | None => working
  | Some dropped =>
      let rest := (take i working ++ drop (S i) working)%list in
      let target := if (i <? length rest)%nat then i else (length rest - 1)%nat in
      alter (add_weight (zt_risk_weight dropped)) target rest
  end.

(** The loop of [_sized_tranches], with the number of rounds left. *)
Fixpoint sized_rounds (rounds : nat) (working : list Tranche) : result (expanded (list (Tranche * dec))) :=
  match rounds with
  | O => Ok (ExpandDenied "needs_review" "quantity_below_increment")
  | S rounds =>
      sized ← size_once working;
      match sized with
      | ExpandDenied r d => Ok (ExpandDenied r d)
      | Expanded sized =>
          match zero_index sized with
          | None => Ok (Expanded sized)
          | Some i =>
              if (length working =? 1)%nat
              then Ok (ExpandDenied "needs_review" "quantity_below_increment")
              else sized_rounds rounds (drop_tranche i working)
          end
      end
  end.

(** [_sized_tranches] *)
Definition sized_tranches (tranches : list Tranche) : result (expanded (list (Tranche * dec))) :=
  sized_rounds (length tranches + 1) tranches.

End sizing.

(** ** The order plan *)

Record TranchePayload := {
  tp_tranche_id : string;
  tp_seq : Z;
  tp_price : xdec;
  tp_quantity : string;
  tp_risk_weight : xdec;
  tp_style : style;
  tp_limit_cap : option xdec }.

Record Invalidation := {
  iv_cancel_on_price_touch : option xdec;
  iv_cancel_on_close_beyond : xdec;
  iv_close_bar : string;
  iv_expires_at : string }.

Record ZonePlan := {
  zp_plan_version : string;
  zp_policy : string;
  zp_mode : string;
  zp_tranches : list TranchePayload;
  zp_stop_loss : xdec;
  zp_take_profits : list xdec;
  zp_invalidation : Invalidation }.

(** [f"{value:.{places}f}"] for a non-negative number of places. *)
Definition format_places (places : Z) (value : dec) : string :=
  format_f (Dec (rescale ROUND_HALF_EVEN value (- places)) (- places)).

(** [_quantity_string] *)
Definition quantity_string (value increment : dec) : string := format_places (Z.max 0 (- dexp increment)) value.

(** [_tranche_payload] *)
Definition tranche_payload (increment : dec) (p : Tranche * dec) : TranchePayload :=
  let '(t, q) := p in
  {| tp_tranche_id := zt_tranche_id t; tp_seq := zt_seq t; tp_price := float_of_dec (zt_price t);
     tp_quantity := quantity_string q increment; tp_risk_weight := float_of_dec (zt_risk_weight t);
     tp_style := zt_style t; tp_limit_cap := float_of_dec <$> zt_limit_cap t |}.

(** [_expires_at]: UTC, written with a Z. *)
Definition expires_at (now : datetime) (valid_until : option datetime) : string :=
  let ttl := aware now + MAX_TTL in
  let text := isoformat (Z.min (from_option aware ttl valid_until) ttl) in
  String.substring 0 (String.length text - 6) text +:+ "Z".

(** [_invalidation] *)
Definition invalidation (signal : ZoneSignal) (market : MarketContext) (long : bool) (far height : dec)
  : result Invalidation :=
  touch ← match zs_take_profits signal with
          | [] => Ok None
          | tp :: _ => d ← float_decimal tp; Ok (Some (float_of_dec d))
          end;
  let buffer := (INVALIDATION_BUFFER * height)%dec in
  Ok {| iv_cancel_on_price_touch := touch;
        iv_cancel_on_close_beyond := float_of_dec (if long then far - buffer else far + buffer)%dec;
        iv_close_bar := "15m"; iv_expires_at := expires_at (mk_now market) (zs_valid_until signal) |}.

(** [_order_plan] *)
Definition order_plan (signal : ZoneSignal) (market : MarketContext) (long : bool) (mode : string)
    (tranches : list (Tranche * dec)) (stop_loss far height : dec) : result ZonePlan :=
  increment ← text_decimal (mk_quantity_increment market);
  take_profits ← mapR (fun tp => d ← float_decimal tp; Ok (float_of_dec d)) (zs_take_profits signal);
  inv ← invalidation signal market long far height;
  Ok {| zp_plan_version := PLAN_VERSION; zp_policy := POLICY; zp_mode := mode;
        zp_tranches := map (tranche_payload increment) tranches; zp_stop_loss := float_of_dec stop_loss;
        zp_take_profits := take_profits; zp_invalidation := inv |}.

(** The tranches of a signal before they are sized. *)
Definition zone_tranches (long : bool) (price_min price_max p0 near height zone_depth price_increment : dec)
  : result (string * list Tranche) :=
  narrow ← ddiv height near;
  if dltb narrow NARROW_ZONE_THRESHOLD then
    t ← single_limit_tranche long price_min price_max price_increment;
    Ok ("single_limit", [t])
  else
    ts ← zone_ladder_tranches long p0 near height zone_depth price_increment;
    Ok ("zone_ladder", ts).

Definition expand_zone_to_plan (signal : ZoneSignal) (market : MarketContext) (risk : RiskContext)
  : result (expanded ZonePlan) :=
  let side := lower (zs_side signal) in
  if negb (str_in side ["long"; "short"]) then Raise (ValueError "unsupported side") else
  let long := String.eqb side "long" in
  price_min ← float_decimal (zs_price_min signal);
  price_max ← float_decimal (zs_price_max signal);
  if dleb price_max price_min then Raise (ValueError "price_max must be greater than price_min") else
  price_increment ← text_decimal (mk_price_increment market);
  quantity_increment ← text_decimal (mk_quantity_increment market);
  if dleb price_increment dzero || dleb quantity_increment dzero
  then Raise (ValueError "increments must be positive") else
  p0 ← float_decimal (mk_p0 market);
  let height := (price_max - price_min)%dec in
  let near := if long then price_max else price_min in
  let far := if long then price_min else price_max in
  zone_depth ← depth long p0 near height;
  if dltb dec_one zone_depth then Ok (ExpandDenied "needs_review" "zone_penetrated") else
  match zs_stop_loss signal with
  | None => Ok (ExpandDenied "needs_review" "missing_stop_loss")
  | Some stop_loss =>
      stop_loss ← float_decimal stop_loss;
      moded ← zone_tranches long price_min price_max p0 near height zone_depth price_increment;
      risk_budget ← float_decimal (rc_risk_budget_usd risk);
      max_notional ← float_decimal (rc_max_notional risk);
      sized ← sized_tranches stop_loss risk_budget max_notional quantity_increment (snd moded);
      match sized with
      | ExpandDenied r d => Ok (ExpandDenied r d)
      | Expanded sized =>
          plan ← order_plan signal market long (fst moded) sized stop_loss far height;
          Ok (Expanded plan)
      end
  end.

(** ** Accuracy of one leg *)

(** The distance to the stop. *)
Lemma distance_ge price stop :
  (Qabs (dval price - dval stop)
   <= (1 + 2 * eps) * ((1 + 2 * eps) * dval (dabs (price - stop)%dec)))%Q.
Proof.
  pose proof (dsub_approx price stop) as A. pose proof eps_small as [E1 E2].
  assert (B : approx (Qabs (dval (price - stop)%dec)) (Qabs (dval price - dval stop))).
  { unfold approx in *. rewrite (Qabs_pos (Qabs _)) by apply Qabs_nonneg.
    eapply Qle_trans; [|exact A]. apply Qabs_Qle_condition.
    pose proof (Qabs_triangle_reverse (dval (price - stop)%dec) (dval price - dval stop)).
    pose proof (Qabs_triangle_reverse (dval price - dval stop) (dval (price - stop)%dec)) as R.
    rewrite (Qabs_Qminus (dval price - dval stop)) in R. split; lra. }
  apply approx_ge in B; [|apply Qabs_nonneg].
  eapply Qle_trans; [exact B|]. apply Qmult_le_l; [lra|].
  apply approx_ge; [apply dabs_approx | apply Qabs_nonneg].
Qed.

(** What a leg risks before it is scaled: its share of the budget. *)
Lemma raw_risk r w price stop raw :
  ddiv (r * w)%dec (dabs (price - stop)%dec) = Ok raw -> (0 < dval (dabs (price - stop)%dec))%Q ->
  (0 <= dval r)%Q -> (0 <= dval w)%Q ->
  (0 <= dval raw)%Q
  /\ (dval raw * Qabs (dval price - dval stop)
      <= (1 + 2 * eps) * ((1 + 2 * eps) * ((1 + eps) * ((1 + eps) * (dval r * dval w)))))%Q.
Proof.
  intros D P R W. pose proof eps_small as [E1 E2]. set (d := dabs (price - stop)%dec) in *.
  pose proof (dmul_nonneg r w R W) as N. pose proof (ddiv_nonneg _ _ _ D N P) as R0. split; [done|].
  apply ddiv_approx, approx_le in D; [|by apply Qle_shift_div_l; [|rewrite Qmult_0_l]].
  assert (M : (dval (r * w)%dec <= (1 + eps) * (dval r * dval w))%Q)
    by (apply approx_le; [apply dmul_approx | by apply Qmult_le_0_compat]).
  assert (Q : (dval raw * dval d <= (1 + eps) * ((1 + eps) * (dval r * dval w)))%Q).
  { eapply Qle_trans; [apply Qmult_le_compat_r; [exact D | lra]|].
    rewrite <- Qmult_assoc. apply Qmult_le_l; [lra|].
    setoid_replace (dval (r * w)%dec / dval d * dval d)%Q with (dval (r * w)%dec) using relation Qeq by (field; lra). done. }
  pose proof (distance_ge price stop) as G. fold d in G.
  eapply Qle_trans; [rewrite Qmult_comm; apply Qmult_le_compat_r; [exact G | done]|].
  rewrite <- !Qmult_assoc. apply Qmult_le_l; [lra|]. apply Qmult_le_l; [lra|]. by rewrite Qmult_comm.
Qed.

(** Rounding a quantity down to the increment. *)
Lemma zone_floor_spec value inc q :
  zone_floor value inc = Ok q -> (0 < dval inc)%Q -> (0 <= dval value)%Q ->
  (0 <= dval q)%Q /\ (dval q <= (1 + eps) * ((1 + eps) * dval value))%Q.
Proof.
  intros H I V. pose proof eps_small as [E1 E2]. unfold zone_floor in H. destruct (dleb value dzero) eqn:Z.
  { apply ok_inj in H as <-. change (dval dzero) with 0%Q. split; [lra|].
    apply Qmult_le_0_compat; [lra|]. apply Qmult_le_0_compat; lra. }
  unfold zone_round in H. apply rbind_inv_ok in H as (ratio & R & H). apply ok_inj in H as <-.
  pose proof (ddiv_nonneg _ _ _ R V I) as R0. destruct (to_integral_floor ratio) as [L _].
  pose proof (to_integral_floor_nonneg ratio R0) as F0. set (f := to_integral ROUND_FLOOR ratio) in *.
  split; [by apply dmul_nonneg; [|lra]|].
  apply ddiv_approx, approx_le in R; [|by apply Qle_shift_div_l; [|rewrite Qmult_0_l]].
  eapply Qle_trans; [apply approx_le; [apply dmul_approx | apply Qmult_le_0_compat; lra]|].
  apply Qmult_le_l; [lra|]. assert (X : (dval value / dval inc * dval inc == dval value)%Q) by (field; lra).
  rewrite <- X, Qmult_assoc. apply Qmult_le_compat_r; lra.
Qed.

(** ** One sizing round *)

(** Total weight, risk at the stop and notional of tranches and quantities. *)
Definition weight_sum (l : list Tranche) : Q := foldr (fun t acc => dval (zt_risk_weight t) + acc)%Q 0%Q l.
Definition risk_at_stop (stop : dec) (l : list (Tranche * dec)) : Q :=
  foldr (fun p acc => dval (snd p) * Qabs (dval (zt_price (fst p)) - dval stop) + acc)%Q 0%Q l.
Definition notional_of (l : list (Tranche * dec)) : Q :=
  foldr (fun p acc => dval (snd p) * dval (zt_price (fst p)) + acc)%Q 0%Q l.

Section round.
Context (stop budget max_notional inc : dec).

Definition raw_leg (p : Tranche * dec) : Prop :=
  (0 < dval (dabs (zt_price (fst p) - stop)%dec))%Q
  /\ ddiv (budget * zt_risk_weight (fst p))%dec (dabs (zt_price (fst p) - stop)%dec) = Ok (snd p).

Lemma raw_quantities_inv ts raw :
  raw_quantities stop budget ts = Ok (Expanded raw) -> map fst raw = ts /\ Forall raw_leg raw.
Proof.
  revert raw. induction ts as [|t ts IH]; intros raw H; cbn [raw_quantities] in H.
  { apply ok_inj in H. injection H as <-. by split. }
  destruct (dleb _ dzero) eqn:Z; [discriminate H|]. apply dleb_gt in Z. run_inv.
  destruct x0 as [|l]; [discriminate H|]. injection H as <-.
  match goal with W : raw_quantities _ _ _ = _ |- _ => apply IH in W as [<- F] end.
  split; [done|]. by constructor.
Qed.

Lemma size_once_inv ts sized :
  size_once stop budget max_notional inc ts = Ok (Expanded sized) ->
  map fst sized = ts
  /\ exists raw scale, Forall raw_leg raw /\ map fst raw = ts /\ notional_scale max_notional raw = Ok scale
     /\ Forall2 (fun p q => fst p = fst q /\ zone_floor (snd p * scale)%dec inc = Ok (snd q)) raw sized.
Proof.
  unfold size_once. intros H. run_inv. destruct x as [|raw]; [discriminate H|]. run_inv.
  match goal with W : raw_quantities _ _ _ = _ |- _ => apply raw_quantities_inv in W as [<- F] end.
  match goal with W : mapR _ _ = Ok ?l, S : notional_scale _ _ = Ok ?s |- _ =>
    rename W into M, S into Sc, s into scale; rename l into out end. injection H as <-.
  assert (G : Forall2 (fun p q => fst p = fst q /\ zone_floor (snd p * scale)%dec inc = Ok (snd q)) raw out).
  { clear Sc F. revert out M. induction raw as [|p raw IH]; intros out M; cbn [mapR] in M; run_inv.
    - constructor.
    - constructor; [by split|]. by apply IH. }
  split.
  - clear -G. induction G as [|p q raw out [E _] G IH]; [done|]. cbn. by rewrite E, IH.
  - by exists raw, scale.
Qed.

Lemma scale_bounds raw scale : notional_scale max_notional raw = Ok scale ->
  (0 <= dval scale)%Q /\ (dval scale <= 1 + eps)%Q.
Proof.
  pose proof eps_small as [E1 E2]. unfold notional_scale. intros H. set (total := dsum _) in H.
  destruct (dleb max_notional dzero) eqn:Z; [apply ok_inj in H as <-; change (dval dzero) with 0%Q; lra|].
  apply dleb_gt in Z. change (dval dzero) with 0%Q in Z.
  destruct (dltb max_notional total) eqn:L; [|apply ok_inj in H as <-; change (dval dec_one) with (1 * 1)%Q; lra].
  apply dltb_lt in L. split; [eapply ddiv_nonneg; [exact H | lra | lra]|].
  apply ddiv_approx, approx_le in H; [|apply Qle_shift_div_l; lra].
  eapply Qle_trans; [exact H|]. rewrite <- (Qmult_1_r (1 + eps)) at 2. apply Qmult_le_l; [lra|].
  apply Qle_shift_div_r; lra.
Qed.

End round.

(** A sum rounded term by term is close to the exact sum. *)
Lemma dsum_ge ds acc :
  (0 <= dval acc)%Q -> Forall (fun d => (0 <= dval d)%Q) ds ->
  (dval acc + total ds <= Qpower (1 + 2 * eps) (Z.of_nat (length ds)) * dval (fold_left dadd ds acc))%Q.
Proof.
  intros A F. pose proof eps_small as [E1 E2]. revert acc A. induction F as [|d ds D F IH]; intros acc A.
  { change (Qpower _ _) with 1%Q. change (total []) with 0%Q. cbn [fold_left]. lra. }
  cbn [total foldr fold_left length]. fold (total ds). specialize (IH (acc + d)%dec (dadd_nonneg _ _ A D)).
  pose proof (approx_ge _ _ (dadd_approx acc d) ltac:(lra)) as G. pose proof (total_nonneg ds F) as S0.
  assert (0 <= eps * total ds)%Q by (apply Qmult_le_0_compat; lra).
  rewrite Nat2Z.inj_succ. unfold Z.succ. rewrite Z.add_comm, Qpower_plus by lra.
  change (Qpower (1 + 2 * eps) 1) with (1 + 2 * eps)%Q. rewrite <- Qmult_assoc.
  pose proof (proj2 (Qmult_le_l _ _ (1 + 2 * eps) ltac:(lra)) IH) as M.
  eapply Qle_trans; [|exact M]. lra.
Qed.

Lemma power_le n : (n <= 3)%nat -> (0 < Qpower (1 + 2 * eps) (Z.of_nat n) <= 1 + 7 * eps)%Q.
Proof. intros H. do 4 (destruct n as [|n]; [by split; compute|]). lia. Qed.

(** The legs of a round: [f] bounds each quantity. *)
Lemma legs_le (w v : Tranche -> Q) (k : Q) (raw sized : list (Tranche * dec)) :
  Forall2 (fun p q => fst p = fst q /\ (dval (snd q) * v (fst q) <= k * (dval (snd p) * w (fst p)))%Q) raw sized ->
  (foldr (fun p acc => dval (snd p) * v (fst p) + acc) 0 sized
   <= k * foldr (fun p acc => dval (snd p) * w (fst p) + acc) 0 raw)%Q.
Proof.
  induction 1 as [|p q raw sized [E L] F IH]; cbn; [lra|].
  rewrite Qmult_plus_distr_r. by apply Qplus_le_compat.
Qed.

Lemma Qmult_le_compat_l x y z : (x <= y -> 0 <= z -> z * x <= z * y)%Q.
Proof. intros. rewrite !(Qmult_comm z). by apply Qmult_le_compat_r. Qed.

(** The exact notional of the raw quantities against the rounded one. *)
Lemma raw_notional ts raw :
  map fst raw = ts -> (length ts <= 3)%nat -> Forall (fun t => (0 <= dval (zt_price t))%Q) ts ->
  Forall (fun p : Tranche * dec => (0 <= dval (snd p))%Q) raw ->
  (foldr (fun p acc => dval (snd p) * dval (zt_price (fst p)) + acc) 0 raw
   <= (1 + 2 * eps) * ((1 + 7 * eps) * dval (dsum (map (fun p => snd p * zt_price (fst p))%dec raw))))%Q.
Proof.
  intros <- L Pr R. pose proof eps_small as [E1 E2]. rewrite length_map in L.
  set (ds := map (fun p => snd p * zt_price (fst p))%dec raw).
  assert (A : (foldr (fun p acc => dval (snd p) * dval (zt_price (fst p)) + acc) 0 raw <= (1 + 2 * eps) * total ds)%Q
              /\ Forall (fun d => (0 <= dval d)%Q) ds).
  { unfold ds. clear ds L. rewrite Forall_fmap in Pr. induction R as [|p raw R0 R IH]; cbn.
    { split; [change (total []) with 0%Q; lra | constructor]. }
    inversion Pr as [|? ? P0 Pr']; subst. destruct (IH Pr') as [IH1 IH2]. cbn in P0.
    split; [|constructor; [by apply dmul_nonneg | done]].
    rewrite Qmult_plus_distr_r. apply Qplus_le_compat; [|exact IH1].
    apply approx_ge; [apply dmul_approx | by apply Qmult_le_0_compat]. }
  destruct A as [A D]. eapply Qle_trans; [exact A|]. apply Qmult_le_l; [lra|].
  pose proof (dsum_ge ds dzero ltac:(by compute) D) as G. change (dval dzero) with 0%Q in G.
  assert (Ln : (length ds <= 3)%nat) by (unfold ds; by rewrite length_map).
  pose proof (power_le _ Ln) as [P0 P1]. unfold dsum. set (T := dval (fold_left dadd ds dzero)) in *.
  assert (T0 : (0 <= T)%Q).
  { destruct (Qlt_le_dec T 0) as [N|]; [|done]. exfalso. pose proof (total_nonneg ds D).
    assert (Qpower (1 + 2 * eps) (Z.of_nat (length ds)) * T < 0)%Q; [|lra].
    rewrite <- (Qmult_0_r (Qpower (1 + 2 * eps) (Z.of_nat (length ds)))). by apply Qmult_lt_l. }
  eapply Qle_trans; [|apply Qmult_le_compat_r; [exact P1 | exact T0]]. lra.
Qed.

Lemma scale_total max_notional raw scale :
  notional_scale max_notional raw = Ok scale -> (0 <= dval max_notional)%Q ->
  (dval scale * dval (dsum (map (fun p => snd p * zt_price (fst p))%dec raw)) <= (1 + eps) * dval max_notional)%Q.
Proof.
  pose proof eps_small as [E1 E2]. unfold notional_scale. intros H M0. set (T := dsum _) in *.
  assert (0 <= eps * dval max_notional)%Q by (apply Qmult_le_0_compat; lra).
  destruct (dleb max_notional dzero) eqn:Z; [apply ok_inj in H as <-; change (dval dzero) with 0%Q; lra|].
  apply dleb_gt in Z. change (dval dzero) with 0%Q in Z.
  destruct (dltb max_notional T) eqn:L.
  - apply dltb_lt in L. apply ddiv_approx, approx_le in H; [|apply Qle_shift_div_l; lra].
    eapply Qle_trans; [apply Qmult_le_compat_r; [exact H | lra]|]. apply Qle_lteq. right. field. lra.
  - apply dltb_ge in L. apply ok_inj in H as <-. change (dval dec_one) with (1 * 1)%Q. lra.
Qed.

Section limits.
Context (stop budget max_notional inc : dec).
Hypothesis budget_nonneg : (0 <= dval budget)%Q.
Hypothesis max_nonneg : (0 <= dval max_notional)%Q.
Hypothesis inc_pos : (0 < dval inc)%Q.

(** A round that sizes risks at most the budget times the weight, and commits
    at most the maximal notional. *)
Lemma size_once_limits ts sized :
  size_once stop budget max_notional inc ts = Ok (Expanded sized) ->
  (length ts <= 3)%nat -> Forall (fun t => (0 <= dval (zt_risk_weight t))%Q) ts ->
  Forall (fun p => (0 <= dval (snd p))%Q) sized
  /\ (risk_at_stop stop sized <= (1 + 12 * eps) * (dval budget * weight_sum ts))%Q
  /\ (Forall (fun t => (0 <= dval (zt_price t))%Q) ts ->
      (notional_of sized <= (1 + 16 * eps) * dval max_notional)%Q).
Proof.
  intros H L W. apply size_once_inv in H as (T & raw & scale & R & Tr & S & Z).
  pose proof (scale_bounds _ _ _ S) as [S0 S1]. pose proof eps_small as [E1 E2].
  assert (RP : Forall (fun p => (0 <= dval (snd p))%Q
      /\ (dval (snd p) * Qabs (dval (zt_price (fst p)) - dval stop)
          <= (1 + 2 * eps) * ((1 + 2 * eps) * ((1 + eps) * ((1 + eps) * (dval budget * dval (zt_risk_weight (fst p)))))))%Q) raw).
  { rewrite <- Tr in W. clear -R W budget_nonneg. rewrite Forall_fmap in W. induction R as [|p raw [P D] R IH]; [done|].
    inversion W; subst. constructor; [by eapply raw_risk | by apply IH]. }
  assert (Q : Forall2 (fun p q => fst p = fst q /\ (0 <= dval (snd p))%Q /\ (0 <= dval (snd q))%Q
      /\ (dval (snd q) <= (1 + eps) * ((1 + eps) * ((1 + eps) * (dval (snd p) * dval scale))))%Q) raw sized).
  { clear -Z RP S0 S1 E1 E2 inc_pos. induction Z as [|p q raw sized [E Zf] Z IH]; [constructor|].
    inversion RP as [|? ? [P _] RP']; subst. constructor; [|by apply IH].
    apply zone_floor_spec in Zf as [A B]; [|done | by apply dmul_nonneg].
    split_and!; try done. eapply Qle_trans; [exact B|]. apply Qmult_le_l; [lra|]. apply Qmult_le_l; [lra|].
    apply approx_le; [apply dmul_approx | by apply Qmult_le_0_compat]. }
  split_and!.
  - clear -Q. induction Q as [|p q raw sized (_ & _ & ? & _) Q IH]; by constructor.
  - set (D t := Qabs (dval (zt_price t) - dval stop)).
    assert (D0 : forall t, (0 <= D t)%Q) by (intros; apply Qabs_nonneg).
    eapply Qle_trans; [apply (legs_le D D ((1 + eps) * ((1 + eps) * ((1 + eps) * (1 + eps)))) raw sized)|].
    { clear -Q S1 D0 E1 E2 S0. induction Q as [|p q raw sized (E & P & _ & B) Q IH]; constructor; [|done].
      split; [done|]. rewrite E. eapply Qle_trans; [apply Qmult_le_compat_r; [exact B | done]|].
      rewrite <- !Qmult_assoc. do 3 (apply Qmult_le_l; [lra|]).
      rewrite Qmult_assoc, (Qmult_comm (dval (snd p))), <- Qmult_assoc.
      apply Qmult_le_compat_r; [done | by apply Qmult_le_0_compat]. }
    assert (N : (foldr (fun p acc => dval (snd p) * D (fst p) + acc) 0 raw
       <= (1 + 2 * eps) * ((1 + 2 * eps) * ((1 + eps) * ((1 + eps) * (dval budget * weight_sum ts)))))%Q).
    { rewrite <- Tr. clear -RP E1 E2. induction RP as [|p raw [_ B] RP IH]; cbn.
      - rewrite !Qmult_0_r. lra.
      - rewrite !Qmult_plus_distr_r. apply Qplus_le_compat; [exact B | exact IH]. }
    assert (W0 : (0 <= dval budget * weight_sum ts)%Q).
    { apply Qmult_le_0_compat; [done|]. clear -W. unfold weight_sum. induction W; cbn [foldr]; lra. }
    eapply Qle_trans; [apply Qmult_le_compat_l; [exact N | repeat apply Qmult_le_0_compat; lra]|].
    revert W0. generalize (dval budget * weight_sum ts)%Q as w. intros w W0.
    rewrite !Qmult_assoc. apply Qmult_le_compat_r; [vm_compute; discriminate | exact W0].
  - intros Pr. eapply Qle_trans; [apply (legs_le (fun t => dval (zt_price t)) (fun t => dval (zt_price t))
      ((1 + eps) * ((1 + eps) * ((1 + eps) * dval scale))) raw sized)|].
    { rewrite <- Tr, Forall_fmap in Pr. clear -Q Pr E1 E2.
      induction Q as [|p q raw sized (E & P & _ & B) Q IH]; inversion Pr; subst; constructor; [|by apply IH].
      split; [done|]. rewrite <- E. eapply Qle_trans; [apply Qmult_le_compat_r; [exact B | done]|].
      apply Qle_lteq. right. ring. }
    pose proof (raw_notional ts raw Tr L Pr ltac:(clear -RP; induction RP as [|? ? [? _] ? IH]; by constructor)) as N.
    pose proof (scale_total _ _ _ S max_nonneg) as ST.
    set (Tn := dval (dsum (map (fun p => snd p * zt_price (fst p))%dec raw))) in *.
    rewrite <- !Qmult_assoc. eapply Qle_trans; [do 3 (apply Qmult_le_l; [lra|]); apply Qmult_le_compat_l; [exact N | exact S0]|].
    setoid_replace ((1 + eps) * ((1 + eps) * ((1 + eps) * (dval scale * ((1 + 2 * eps) * ((1 + 7 * eps) * Tn))))))%Q
      with (((1 + eps) * (1 + eps) * (1 + eps) * (1 + 2 * eps) * (1 + 7 * eps)) * (dval scale * Tn))%Q
      using relation Qeq by ring.
    eapply Qle_trans; [apply Qmult_le_compat_l; [exact ST | vm_compute; discriminate]|].
    rewrite Qmult_assoc. apply Qmult_le_compat_r; [vm_compute; discriminate | done].
Qed.
End limits.

(** ** Weights are moved, never lost *)

Definition light (t : Tranche) : Prop := grid 2 (zt_risk_weight t) /\ (0 <= dval (zt_risk_weight t))%Q.

Lemma weight_sum_app l l' : (weight_sum (l ++ l') == weight_sum l + weight_sum l')%Q.
Proof. unfold weight_sum. induction l as [|t l IH]; cbn [foldr app]; [ring|]. rewrite IH. ring. Qed.

Lemma weight_sum_nonneg l : Forall light l -> (0 <= weight_sum l)%Q.
Proof. unfold weight_sum. induction 1 as [|t l [_ W] F IH]; cbn [foldr]; lra. Qed.

Lemma add_weight_light w t :
  light t -> grid 2 w -> (0 <= dval w)%Q -> (dval (zt_risk_weight t) + dval w <= 1)%Q ->
  light (add_weight w t) /\ (dval (zt_risk_weight (add_weight w t)) == dval (zt_risk_weight t) + dval w)%Q.
Proof.
  intros [G0 P0] G P L. cbn [add_weight with_weight zt_risk_weight].
  destruct (dadd_grid 2 (zt_risk_weight t) w G0 G) as [E G'].
  { rewrite Qabs_pos by lra. eapply Qle_lt_trans; [exact L | by compute]. }
  split; [split; [done|] | done]. cbn. rewrite E. lra.
Qed.

Lemma alter_weight w i l :
  Forall light l -> grid 2 w -> (0 <= dval w)%Q -> (weight_sum l + dval w <= 1)%Q -> (i < length l)%nat ->
  Forall light (alter (add_weight w) i l) /\ (weight_sum (alter (add_weight w) i l) == weight_sum l + dval w)%Q.
Proof.
  intros F G P. revert i. induction F as [|t l T F IH]; intros i L I; [cbn in I; lia|].
  unfold weight_sum in *. cbn [foldr] in *. fold (weight_sum l) in *. pose proof (weight_sum_nonneg _ F) as N.
  destruct T as [T0 T1]. destruct i as [|i].
  - destruct (add_weight_light w t (conj T0 T1) G P ltac:(lra)) as [A B].
    change (alter (add_weight w) 0%nat (t :: l)) with (add_weight w t :: l). cbn [foldr]. fold (weight_sum l).
    split; [by constructor|]. rewrite B. lra.
  - destruct (IH i ltac:(lra) ltac:(cbn in I; lia)) as [A B].
    change (alter (add_weight w) (S i) (t :: l)) with (t :: alter (add_weight w) i l). cbn [foldr].
    split; [by constructor|]. rewrite B. lra.
Qed.

Lemma alter_last_alter f l : alter_last f l = alter f (length l - 1)%nat l.
Proof.
  induction l as [|t [|u l] IH]; [done | done|].
  change (alter_last f (t :: u :: l)) with (t :: alter_last f (u :: l)). rewrite IH.
  cbn [length]. replace (S (S (length l)) - 1)%nat with (S (length l)) by lia.
  replace (S (length l) - 1)%nat with (length l) by lia. done.
Qed.

(** Tranches that hold the whole weight. *)
Definition whole (l : list Tranche) : Prop := Forall light l /\ (weight_sum l == 1)%Q /\ (1 <= length l <= 3)%nat.

Lemma drop_tranche_whole i l :
  whole l -> (i < length l)%nat -> length l <> 1%nat ->
  whole (drop_tranche i l) /\ length (drop_tranche i l) = (length l - 1)%nat.
Proof.
  intros (F & W & B) I N. unfold drop_tranche. destruct (l !! i) as [d|] eqn:L; [|apply lookup_ge_None in L; lia].
  set (rest := (take i l ++ drop (S i) l)%list). pose proof (take_drop_middle l i d L) as E.
  assert (Ln : length rest = (length l - 1)%nat) by (unfold rest; rewrite length_app, length_take, length_drop; lia).
  assert (S : (weight_sum l == weight_sum rest + dval (zt_risk_weight d))%Q).
  { rewrite <- E at 1. unfold rest. rewrite !weight_sum_app. unfold weight_sum at 2. cbn [foldr].
    fold (weight_sum (drop (S i) l)). ring. }
  assert (D : light d) by (eapply Forall_forall; [exact F | by eapply list_elem_of_lookup_2]).
  assert (R : Forall light rest) by (apply Forall_app; split; [by apply Forall_take | by apply Forall_drop]).
  destruct D as [D0 D1].
  destruct (alter_weight (zt_risk_weight d) (if (i <? length rest)%nat then i else (length rest - 1)%nat) rest R D0 D1)
    as [A Sa]; [lra | destruct (i <? length rest)%nat eqn:Z; [apply Nat.ltb_lt in Z; done | lia] |].
  rewrite length_alter. split; [|done]. split; [done|]. rewrite length_alter. split; [rewrite Sa; lra | lia].
Qed.

Lemma zero_index_lt sized i : zero_index sized = Some i -> (i < length sized)%nat.
Proof.
  revert i. induction sized as [|[t q] sized IH]; intros i H; cbn in H; [done|]. case_match; simplify_eq; cbn; [lia|].
  apply fmap_Some in H as (j & J & ->). apply IH in J. lia.
Qed.

Lemma zero_index_none sized : zero_index sized = None -> Forall (fun p => (0 < dval (snd p))%Q) sized.
Proof.
  induction sized as [|[t q] sized IH]; intros H; cbn in H; [done|]. case_match eqn:Z; [done|].
  apply fmap_None in H. constructor; [|by apply IH]. by apply dleb_gt in Z.
Qed.

Section rounds.
Context (stop budget max_notional inc : dec).

(** What is sized in the end is one round over tranches that still hold the
    whole weight, at prices of the given ones. *)
Lemma sized_rounds_inv rounds ts sized :
  sized_rounds stop budget max_notional inc rounds ts = Ok (Expanded sized) -> whole ts ->
  exists ts', whole ts' /\ size_once stop budget max_notional inc ts' = Ok (Expanded sized)
    /\ Forall (fun p => (0 < dval (snd p))%Q) sized
    /\ (forall P : dec -> Prop, Forall (fun t => P (zt_price t)) ts -> Forall (fun t => P (zt_price t)) ts').
Proof.
  revert ts. induction rounds as [|rounds IH]; intros ts H W; cbn [sized_rounds] in H; [discriminate H|].
  apply rbind_inv_ok in H as (x & S & H). destruct x as [|l]; [discriminate H|].
  destruct (zero_index l) as [i|] eqn:Z.
  - destruct (length ts =? 1)%nat eqn:L; [discriminate H|]. apply Nat.eqb_neq in L.
    assert (I : (i < length ts)%nat).
    { apply zero_index_lt in Z. apply size_once_inv in S as [T _]. rewrite <- T, length_map. done. }
    destruct (drop_tranche_whole i ts W I L) as [W' _].
    destruct (IH _ H W') as (ts' & Hw & Hs & Hp & HP). exists ts'. split_and!; try done.
    intros P F. apply HP. unfold drop_tranche. destruct (ts !! i); [|done].
    set (rest := (take i ts ++ drop (Datatypes.S i) ts)%list).
    assert (G : Forall (fun t => P (zt_price t)) rest) by (apply Forall_app; split; [by apply Forall_take | by apply Forall_drop]).
    clear -G. generalize (if (i <? length rest)%nat then i else (length rest - 1)%nat) as j. revert G.
    generalize rest as r. clear. induction r as [|u r IH]; intros G j; [done|]. inversion G; subst.
    destruct j as [|j]; (constructor; [done|]); [done | by apply IH].
  - apply ok_inj in H. injection H as <-. exists ts. split_and!; try done. by apply zero_index_none.
Qed.

(** The loop bound is never reached: more rounds change nothing. *)
Lemma rounds_enough n m ts :
  (length ts <= n)%nat -> (n <= m)%nat -> (1 <= length ts)%nat ->
  sized_rounds stop budget max_notional inc n ts = sized_rounds stop budget max_notional inc m ts.
Proof.
  revert m ts. induction n as [|n IH]; intros m ts L M N; [lia|]. destruct m as [|m]; [lia|]. cbn [sized_rounds].
  destruct (size_once _ _ _ _ ts) as [[|sized]|] eqn:S; cbn [mbind result_bind]; [done | | done].
  destruct (zero_index sized) as [i|] eqn:Z; [|done]. destruct (length ts =? 1)%nat eqn:O; [done|].
  apply Nat.eqb_neq in O. assert (I : (i < length ts)%nat).
  { apply zero_index_lt in Z. apply size_once_inv in S as [T _]. by rewrite <- T, length_map. }
  assert (D : length (drop_tranche i ts) = (length ts - 1)%nat).
  { unfold drop_tranche. destruct (ts !! i) as [d|] eqn:K; [|apply lookup_ge_None in K; lia].
    rewrite length_alter, length_app, length_take, length_drop. lia. }
  apply IH; lia.
Qed.

End rounds.

(** ** The tranches of a signal hold the whole weight *)

Lemma alter_last_weight w l :
  Forall light l -> grid 2 w -> (0 <= dval w)%Q -> (weight_sum l + dval w <= 1)%Q -> l <> [] ->
  Forall light (alter_last (add_weight w) l) /\ (weight_sum (alter_last (add_weight w) l) == weight_sum l + dval w)%Q.
Proof.
  intros F G P L N. rewrite alter_last_alter. apply alter_weight; try done. destruct l; [done | cbn; lia].
Qed.

Lemma keep_favorable_inv long p0 carry kept ts kept' carry' :
  keep_favorable long p0 carry kept ts = (kept', carry') ->
  Forall light kept -> Forall light ts -> grid 2 carry -> (0 <= dval carry)%Q ->
  (weight_sum kept + dval carry + weight_sum ts == 1)%Q -> kept <> [] ->
  Forall light kept' /\ grid 2 carry' /\ (0 <= dval carry')%Q /\ (weight_sum kept' + dval carry' == 1)%Q
  /\ kept' <> [] /\ (length kept' <= length kept + length ts)%nat.
Proof.
  revert carry kept. induction ts as [|t ts IH]; intros carry kept H K F G P S N; cbn [keep_favorable] in H.
  { simplify_eq. change (weight_sum []) with 0%Q in S. split_and!; try done; [lra | lia]. }
  inversion F as [|? ? [T0 T1] F']; subst. unfold weight_sum at 2 in S. cbn [foldr] in S. fold (weight_sum ts) in S.
  pose proof (weight_sum_nonneg _ K) as K0. pose proof (weight_sum_nonneg _ F') as F0. case_match.
  - destruct (add_weight_light carry t (conj T0 T1) G P ltac:(lra)) as [A B].
    apply IH in H as (? & ? & ? & ? & ? & L).
    + split_and!; try done. rewrite length_app in L. cbn in *. lia.
    + apply Forall_app. split; [done|]. by constructor.
    + done.
    + apply grid_zero; lia.
    + by compute.
    + rewrite weight_sum_app. unfold weight_sum at 2. cbn [foldr]. change (dval dzero) with 0%Q. rewrite B. lra.
    + by destruct kept.
  - destruct (dadd_grid 2 carry (zt_risk_weight t) G T0) as [E G'].
    { rewrite Qabs_pos by lra. apply (Qle_lt_trans _ 1); [lra | by compute]. }
    apply IH in H as (? & ? & ? & ? & ? & L).
    + split_and!; try done. cbn in *. lia.
    + done.
    + done.
    + done.
    + rewrite E. lra.
    + rewrite E. lra.
    + done.
Qed.

Lemma light_level c : 0 <= c <= 100 -> grid 2 (Dec c (-2)) /\ (0 <= dval (Dec c (-2)))%Q.
Proof.
  intros H. split; [|apply dval_nonneg; cbn; lia]. split; [cbn; lia|]. unfold dval. cbn [coef dexp].
  rewrite Qabs_pos.
  - apply (Qle_lt_trans _ (inject_Z 100 * pow10 (-2))); [|by compute].
    apply Qmult_le_compat_r; [|by compute]. rewrite <- Zle_Qle. lia.
  - apply Qmult_le_0_compat; [|by compute]. change 0%Q with (inject_Z 0). rewrite <- Zle_Qle. lia.
Qed.

Lemma keep_stale_whole long p0 ts : whole ts -> whole (keep_stale_favorable_tranches long p0 ts).
Proof.
  intros (F & W & B). destruct ts as [|t ts]; [done|]. unfold keep_stale_favorable_tranches.
  destruct (keep_favorable long p0 dzero [t] ts) as [kept carry] eqn:K. inversion F as [|? ? T F']; subst.
  apply keep_favorable_inv in K as (A & G & P & S & N & L).
  - destruct (dis_zero carry) eqn:Z; [|destruct (alter_last_weight carry kept A G P ltac:(lra) N) as [A' S']].
    + split; [done|]. unfold dis_zero in Z. bprop. assert (dval carry == 0)%Q by (by apply dval_zero).
      split; [lra|]. cbn in L, B. destruct kept; [done | cbn in *; lia].
    + split; [done|]. split; [rewrite S'; lra|]. rewrite alter_last_alter, length_alter.
      cbn in L, B. destruct kept; [done | cbn in *; lia].
  - by constructor.
  - done.
  - apply grid_zero; lia.
  - by compute.
  - unfold weight_sum in *. cbn [foldr] in *. change (dval dzero) with 0%Q. lra.
  - done.
Qed.

Lemma zone_tranches_whole long lo hi p0 near height zd inc mode ts :
  zone_tranches long lo hi p0 near height zd inc = Ok (mode, ts) -> whole ts.
Proof.
  unfold zone_tranches. intros H. run_inv. destruct (dltb x NARROW_ZONE_THRESHOLD).
  { run_inv. unfold single_limit_tranche in *. run_inv.
    split; [constructor; [|done]|split; [by compute | cbn; lia]]. split; [|by compute]. split; [cbn; lia | by compute]. }
  run_inv. match goal with W : zone_ladder_tranches _ _ _ _ _ _ = Ok ?l |- _ => rename W into Z, l into base end.
  unfold zone_ladder_tranches in Z. cbn [mapR TRANCHE_LEVELS] in Z. run_inv.
  assert (Wh : forall t1 t2 t3, zt_risk_weight t1 = Dec 55 (-2) -> zt_risk_weight t2 = Dec 30 (-2) ->
                zt_risk_weight t3 = Dec 15 (-2) -> whole [t1; t2; t3]).
  { intros t1 t2 t3 E1 E2 E3. split; [|split; [|cbn; lia]].
    - unfold light. repeat constructor; rewrite ?E1, ?E2, ?E3; apply light_level; lia.
    - unfold weight_sum. cbn [foldr]. rewrite E1, E2, E3. by compute. }
  destruct (dltb dzero zd && dleb zd dec_one).
  - run_inv. apply keep_stale_whole. by apply Wh.
  - run_inv. destruct (dleb _ CHASE_WINDOW); by apply Wh.
Qed.

(** ** The plan *)

Lemma fix28_dexp d : dexp d <= dexp (fix28 d).
Proof. unfold fix28. repeat case_match; cbn [dexp]; bprop; lia. Qed.

(** The text of a quantity is the quantity itself. *)
Lemma quantity_string_value value inc q :
  zone_floor value inc = Ok q -> (0 < dval q)%Q ->
  exists q', parse_dec (quantity_string q inc) = Some (XFin q') /\ q' ≡ q.
Proof.
  intros H P. assert (E : dexp inc <= dexp q).
  { unfold zone_floor in H. case_match; [apply ok_inj in H as <-; by compute in P|].
    unfold zone_round in H. apply rbind_inv_ok in H as (ratio & _ & H). apply ok_inj in H as <-.
    assert (0 <= dexp (to_integral ROUND_FLOOR ratio)) by (unfold to_integral; case_match; bprop; cbn; lia).
    unfold dmul. etransitivity; [|apply fix28_dexp]. cbn. lia. }
  unfold quantity_string, format_places. set (places := Z.max 0 (- dexp inc)).
  destruct (parse_format_f (Dec (rescale ROUND_HALF_EVEN q (- places)) (- places))) as (q' & Hq & Eq).
  exists q'. split; [done|]. rewrite Eq. unfold equiv, dec_equiv. apply rescale_exact. lia.
Qed.

(** C24. An expanded zone plan stays within its risk limits.  It has one to three
    tranches, whose payloads are written from exact positive quantities and
    whose risk weights still add up to one; what it would lose at the stop is
    at most the risk budget, and its notional at most the maximal notional,
    both up to twelve, resp. sixteen, roundings of the 28-digit arithmetic. *)
Theorem zone_plan_within_limits signal market risk plan :
  expand_zone_to_plan signal market risk = Ok (Expanded plan) ->
  exists s stop budget max_notional inc sized,
    zs_stop_loss signal = Some s /\ float_decimal s = Ok stop
    /\ float_decimal (rc_risk_budget_usd risk) = Ok budget
    /\ float_decimal (rc_max_notional risk) = Ok max_notional
    /\ text_decimal (mk_quantity_increment market) = Ok inc
    /\ zp_tranches plan = map (tranche_payload inc) sized
    /\ (1 <= length sized <= 3)%nat /\ (weight_sum (map fst sized) == 1)%Q
    /\ Forall (fun p => (0 < dval (snd p))%Q
                 /\ exists q, parse_dec (quantity_string (snd p) inc) = Some (XFin q) /\ q ≡ snd p) sized
    /\ ((0 <= dval budget)%Q -> (0 <= dval max_notional)%Q ->
        (risk_at_stop stop sized <= (1 + 12 * eps) * dval budget)%Q
        /\ (Forall (fun p => (0 <= dval (zt_price (fst p)))%Q) sized ->
            (notional_of sized <= (1 + 16 * eps) * dval max_notional)%Q)).
Proof.
  intros H. unfold expand_zone_to_plan in H. destruct (negb _); [discriminate H|]. run_inv.
  destruct (dleb _ _); [discriminate H|]. run_inv.
  match type of H with (if ?b then _ else _) = _ => destruct b eqn:I; [discriminate H|] end. run_inv.
  match type of H with (if ?b then _ else _) = _ => destruct b; [discriminate H|] end.
  destruct (zs_stop_loss signal) as [s|]; [|discriminate H]. run_inv.
  match type of H with match ?x with _ => _ end = _ => destruct x as [|sized]; [discriminate H|] end. run_inv.
  injection H as ->.
  repeat match goal with
  | W : zone_tranches _ _ _ _ _ _ _ _ = Ok ?m |- _ => destruct m as [mode ts]; apply zone_tranches_whole in W; rename W into WT
  | W : order_plan _ _ _ _ _ _ _ _ = Ok _ |- _ => rename W into O; unfold order_plan in O; run_inv
  | W : sized_tranches _ _ _ _ _ = Ok _ |- _ => rename W into SZ
  end.
  rename x2 into inc, x5 into stop, x7 into budget, x8 into max_notional.
  assert (x6 = inc) as -> by congruence. apply orb_false_iff in I as [_ I]. apply dleb_gt in I.
  change (dval dzero) with 0%Q in I. cbn [snd] in SZ. unfold sized_tranches in SZ. apply sized_rounds_inv in SZ as (ts' & W & S & P & _); [|done].
  exists s, stop, budget, max_notional, inc, sized. pose proof S as S'.
  apply size_once_inv in S' as (T & raw & scale & _ & _ & _ & Z). destruct W as (Wf & Ws & Wl).
  assert (L : length sized = length ts') by (by rewrite <- T, length_map).
  split_and!; [done..| | | | |].
  - lia.
  - lia.
  - by rewrite T.
  - clear -Z P. induction Z as [|p q raw sized [_ E] Z IH]; [done|]. inversion P; subst.
    constructor; [|by apply IH]. split; [done|]. by eapply quantity_string_value.
  - intros B M. destruct (size_once_limits stop budget max_notional inc B M I ts' sized S) as (_ & R & N); [lia| |].
    { eapply Forall_impl; [exact Wf|]. by intros t [_ ?]. }
    rewrite Ws, Qmult_1_r in R. split; [done|]. intros Pr. apply N. rewrite <- T. by apply Forall_fmap.
Qed.

Definition sample_signal : ZoneSignal :=
  {| zs_side := "long"; zs_price_min := Dec 100 0; zs_price_max := Dec 104 0; zs_stop_loss := Some (Dec 98 0);
     zs_take_profits := [Dec 110 0]; zs_valid_until := None |}.
Definition sample_market : MarketContext :=
  {| mk_p0 := Dec 1035 (-1); mk_now := utc 0; mk_price_increment := "0.1"; mk_quantity_increment := "0.001" |}.
Definition sample_risk : RiskContext :=
  {| rc_risk_budget_usd := Dec 50 0; rc_max_notional := Dec 1000 0; rc_max_leverage := Dec 10 0 |}.

Lemma zone_plan_within_limits_witness :
  exists plan stop sized, expand_zone_to_plan sample_signal sample_market sample_risk = Ok (Expanded plan)
    /\ length (zp_tranches plan) = 3%nat
    /\ (risk_at_stop stop sized <= (1 + 12 * eps) * 50)%Q.
Proof.
  assert (T : match expand_zone_to_plan sample_signal sample_market sample_risk with
              | Ok (Expanded plan) => (length (zp_tranches plan) =? 3)%nat | _ => false end = true)
    by (vm_compute; reflexivity).
  destruct (expand_zone_to_plan sample_signal sample_market sample_risk) as [[|plan]|] eqn:E; try discriminate T.
  destruct (zone_plan_within_limits _ _ _ _ E)
    as (s & stop & budget & max_notional & inc & sized & _ & _ & B & M & _ & _ & _ & _ & _ & R).
  exists plan, stop, sized. split; [reflexivity|]. split; [by apply Nat.eqb_eq in T|].
  assert (EB : budget = Dec 500 (-1)) by (apply ok_inj; rewrite <- B; vm_compute; reflexivity).
  assert (EM : max_notional = Dec 10000 (-1)) by (apply ok_inj; rewrite <- M; vm_compute; reflexivity).
  subst budget max_notional. destruct R as [R _]; [vm_compute; discriminate | vm_compute; discriminate|].
  eapply Qle_trans; [exact R|]. vm_compute. discriminate.
Defined.
