(* ===== verification/Routing.v ===== *)
(** * Routing: the namespaces of the accounts and nodes

    Models nautilus-node/routing/multi_account.py: each account is served by
    one node under a cache prefix and a spool file of its own.  A path is its
    root and its parts, as pathlib splits it. *)

From Stdlib Require Import ZArith Lia Ascii.
From S2P Require Import Prelude Decimal PyString DecText PyValue Store Sha256 External OrderPlans.
Open Scope string_scope.
Open Scope Z_scope.

Definition COMMAND_TYPES : list string := ["halt"; "resume"; "set_reducing"; "cancel_all"; "close_all"].

Definition RoutingError (msg : string) : exn := RuntimeError "RoutingError" msg.
Definition UnknownAccountError (msg : string) : exn := RuntimeError "UnknownAccountError" msg.
Definition WrongAccountError (msg : string) : exn := RuntimeError "WrongAccountError" msg.
Definition RouteConflictError (msg : string) : exn := RuntimeError "RouteConflictError" msg.

Definition require (b : bool) (e : exn) : result unit := if b then Ok tt else Raise e.

(** [f"{s!r}"] *)
Definition quoted (s : string) : string := py_repr (PStr s).

(** ** Paths *)

(** The root is empty for a relative path, two slashes for exactly two, and one
    slash for any other number of them. *)
Record path := { pa_root : string; pa_parts : list string }.

#[global] Instance path_eq_dec : EqDecision path.
Proof. solve_decision. Defined.

Fixpoint split_parts (current : string) (s : string) : list string :=
  match s with
  | EmptyString => [current]
  | String c s =>
      if Ascii.eqb c "/" then current :: split_parts "" s else split_parts (current +:+ String c "") s
  end.

(** [Path(s)]: empty parts and dots are dropped. *)
Definition path_of (s : string) : path :=
  {| pa_root := if starts_with "//" s && negb (starts_with "///" s) then "//"
                else if starts_with "/" s then "/" else "";
     pa_parts := List.filter (fun p => negb (is_empty p) && negb (String.eqb p ".")) (split_parts "" s) |}.

(** [p / s]: an absolute right-hand side replaces the path. *)
Definition path_join (p : path) (s : string) : path :=
  let q := path_of s in
  if is_empty (pa_root q) then {| pa_root := pa_root p; pa_parts := pa_parts p ++ pa_parts q |} else q.

Definition path_str (p : path) : string :=
  let text := join "/" (pa_parts p) in
  if is_empty (pa_root p) && is_empty text then "." else pa_root p +:+ text.

(** [p.with_name(name)] *)
Definition with_name (p : path) (name : string) : result path :=
  match rev (pa_parts p) with
  | [] => Raise (ValueError (quoted (path_str p) +:+ " has an empty name"))
  | _ :: parents => Ok {| pa_root := pa_root p; pa_parts := (rev parents ++ [name])%list |}
  end.

(** ** Routes *)

Record ClientOrderRef := {
  co_account_id : string;
  co_node_id : string;
  co_client_order_id : string;
  co_namespace_key : string;
  co_tags : list string }.

Record AccountRoute := {
  ro_account_id : string;
  ro_node_id : string;
  ro_redis_key_prefix : string;
  ro_control_plane_base_url : string;
  ro_spool_root : string;
  ro_environment : string;
  ro_initial_trading_state : string;
  ro_spool_file_name : string }.

(** [AccountRoute.__post_init__]; the fields are texts. *)
Definition post_init (r : AccountRoute) : result AccountRoute :=
  let named := [("account_id", ro_account_id r); ("node_id", ro_node_id r);
                ("redis_key_prefix", ro_redis_key_prefix r);
                ("control_plane_base_url", ro_control_plane_base_url r); ("environment", ro_environment r);
                ("initial_trading_state", ro_initial_trading_state r); ("spool_file_name", ro_spool_file_name r)] in
  match find (fun p => is_empty (strip (snd p))) named with
  | Some (name, _) => Raise (RoutingError (name +:+ " must be a non-empty string"))
  | None =>
      let expected := "nautilus:" +:+ ro_account_id r +:+ ":" in
      if starts_with expected (ro_redis_key_prefix r) then Ok r
      else Raise (RoutingError ("redis_key_prefix must start with " +:+ quoted expected +:+ " for account isolation"))
  end.

(** [_namespace_part] *)
Definition namespace_part (value : string) : result string :=
  let stripped := strip value in
  if is_empty stripped then Raise (RoutingError "namespace parts must be non-empty")
  else Ok (replace_char "/" "_" (replace_char ":" "_" stripped)).

(** [value.rstrip(":")] *)
Definition rstrip_colons (s : string) : string := rstrip_by (Ascii.eqb ":") s.

Definition spool_path (r : AccountRoute) : result path :=
  account ← namespace_part (ro_account_id r);
  node ← namespace_part (ro_node_id r);
  Ok (path_join (path_join (path_join (path_of (ro_spool_root r)) account) node) (ro_spool_file_name r)).

(** [_intent_execution_inbox_path] of node.py. *)
Definition _intent_execution_inbox_path (r : AccountRoute) : result path :=
  spool ← spool_path r; with_name spool "intent_execution_inbox.json".

Definition redis_key (r : AccountRoute) (parts : list string) : result string :=
  match parts with
  | [] => Raise (RoutingError "redis key requires at least one suffix part")
  | _ =>
      parts ← mapR namespace_part parts;
      Ok (rstrip_colons (ro_redis_key_prefix r) +:+ ":" +:+ join ":" parts)
  end.

Definition client_order_ref (r : AccountRoute) (intent_id : string) (sequence : Z) : result ClientOrderRef :=
  intent ← uuid_of intent_id;
  client_order_id ← encode_client_order_id intent sequence;
  account ← namespace_part (ro_account_id r);
  Ok {| co_account_id := ro_account_id r; co_node_id := ro_node_id r; co_client_order_id := client_order_id;
        co_namespace_key := join ":" ["client-order-id"; account; client_order_id];
        co_tags := ["account_id=" +:+ ro_account_id r; "node_id=" +:+ ro_node_id r;
                    "client_order_id=" +:+ client_order_id] |}.

Definition route_text (kind : string) (r : AccountRoute) (last : string) : result string :=
  account ← namespace_part (ro_account_id r);
  node ← namespace_part (ro_node_id r);
  last ← namespace_part last;
  Ok (join ":" [kind; account; node; last]).

Definition event_stream (r : AccountRoute) (event_type : string) : result string :=
  route_text "execution-events" r event_type.
Definition event_route_key (r : AccountRoute) (event_id : string) : result string :=
  route_text "execution-event" r event_id.

(** ** The route table *)

Record RouteTable := {
  rt_routes_by_account : list (string * AccountRoute);
  rt_account_by_node : list (string * string);
  rt_node_status : list (string * string) }.

Definition empty_table : RouteTable :=
  {| rt_routes_by_account := []; rt_account_by_node := []; rt_node_status := [] |}.

(** The loop of [_assert_no_conflicts]. *)
Fixpoint no_conflicts (accounts nodes prefixes : list string) (spools : list path) (routes : list AccountRoute)
  : result unit :=
  match routes with
  | [] => Ok tt
  | r :: routes =>
      _ ← require (negb (str_in (ro_account_id r) accounts))
            (RouteConflictError ("duplicate account_id " +:+ quoted (ro_account_id r)));
      _ ← require (negb (str_in (ro_node_id r) nodes))
            (RouteConflictError ("duplicate node_id " +:+ quoted (ro_node_id r)));
      let prefix := rstrip_colons (ro_redis_key_prefix r) in
      _ ← require (negb (str_in prefix prefixes)) (RouteConflictError ("shared redis_key_prefix " +:+ quoted prefix));
      spool ← spool_path r;
      _ ← require (bool_decide (spool ∉ spools)) (RouteConflictError ("shared spool_path " +:+ quoted (path_str spool)));
      no_conflicts (ro_account_id r :: accounts) (ro_node_id r :: nodes) (prefix :: prefixes) (spool :: spools) routes
  end.

Definition assert_no_conflicts (routes : list AccountRoute) : result unit := no_conflicts [] [] [] [] routes.

Definition upsert_route (r : AccountRoute) : M RouteTable unit :=
  table ← mget;
  let old := aget (ro_account_id r) (rt_routes_by_account table) in
  let candidates := map snd (List.filter (fun p => negb (String.eqb (fst p) (ro_account_id r)))
                               (rt_routes_by_account table)) in
  _ ← mlift (assert_no_conflicts (candidates ++ [r])%list);
  let moved := match old with
               | Some o => if String.eqb (ro_node_id o) (ro_node_id r) then None else Some (ro_node_id o)
               | None => None
               end in
  let drop {A} (d : list (string * A)) := match moved with Some n => apop n d | None => d end in
  let status := drop (rt_node_status table) in
  mput {| rt_routes_by_account := aset (ro_account_id r) r (rt_routes_by_account table);
          rt_account_by_node := aset (ro_node_id r) (ro_account_id r) (drop (rt_account_by_node table));
          rt_node_status := match aget (ro_node_id r) status with
                            | Some _ => status
                            | None => aset (ro_node_id r) "running" status
                            end |}.

(** [MultiAccountRouteTable.__init__] *)
Definition route_table (routes : list AccountRoute) : result RouteTable :=
  match mfor routes upsert_route empty_table with
  | (Ok _, table) => Ok table
  | (Raise e, _) => Raise e
  end.

Definition route_for_account (account_id : string) (table : RouteTable) : result AccountRoute :=
  match aget account_id (rt_routes_by_account table) with
  | Some r => Ok r
  | None => Raise (UnknownAccountError ("unknown account_id " +:+ quoted account_id))
  end.

Definition route_for_node (node_id : string) (table : RouteTable) : result AccountRoute :=
  match aget node_id (rt_account_by_node table) with
  | None => Raise (UnknownAccountError ("unknown node_id " +:+ quoted node_id))
  | Some account_id =>
      match aget account_id (rt_routes_by_account table) with
      | Some r => Ok r
      | None => Raise (KeyError account_id)
      end
  end.

(** [_account_id_from_intent] of an intent given as a dictionary. *)
Definition account_id_from_intent (intent : dict) : option string :=
  let value := dget "account_id" intent in
  if is_none value then None
  else let text := py_str value in if is_empty text then None else Some text.

Definition route_intent (intent : dict) (table : RouteTable) : result AccountRoute :=
  match account_id_from_intent intent with
  | None => Raise (UnknownAccountError "intent missing account_id")
  | Some account_id => route_for_account account_id table
  end.

Definition assert_intent_for_node (intent : dict) (node_id : string) (table : RouteTable) : result AccountRoute :=
  route ← route_intent intent table;
  if String.eqb (ro_node_id route) node_id then Ok route
  else Raise (WrongAccountError ("intent account_id " +:+ quoted (ro_account_id route) +:+ " targets "
                                 +:+ quoted (ro_node_id route) +:+ ", not " +:+ quoted node_id)).

Definition mark_node_unavailable (node_id : string) : M RouteTable unit :=
  table ← mget;
  _ ← mlift (route_for_node node_id table);
  mput {| rt_routes_by_account := rt_routes_by_account table; rt_account_by_node := rt_account_by_node table;
          rt_node_status := aset node_id "unavailable" (rt_node_status table) |}.

Definition node_status (node_id : string) (table : RouteTable) : result string :=
  _ ← route_for_node node_id table;
  Ok (default "running" (aget node_id (rt_node_status table))).

Record CommandRoute := { cm_command_type : string; cm_node_ids : list string; cm_account_ids : list string }.

Definition route_command (command_type : string) (account_id node_id : option string) (all_nodes : bool)
    (table : RouteTable) : result CommandRoute :=
  if negb (str_in command_type COMMAND_TYPES)
  then Raise (RoutingError ("unsupported command type " +:+ quoted command_type)) else
  routes ← match account_id, node_id, all_nodes with
           | None, None, true => Ok (map snd (rt_routes_by_account table))
           | Some a, None, false => r ← route_for_account a table; Ok [r]
           | None, Some n, false => r ← route_for_node n table; Ok [r]
           | _, _, _ => Raise (RoutingError "command target must be exactly one account, node, or all")
           end;
  Ok {| cm_command_type := command_type; cm_node_ids := map ro_node_id routes;
        cm_account_ids := map ro_account_id routes |}.

(** ** Isolation *)

Definition prefix_of (r : AccountRoute) : string := rstrip_colons (ro_redis_key_prefix r).

(** Two routes share no namespace. *)
Definition apart (r r' : AccountRoute) : Prop :=
  ro_node_id r <> ro_node_id r' /\ prefix_of r <> prefix_of r' /\ spool_path r <> spool_path r'.

Lemma apart_sym r r' : apart r r' -> apart r' r.
Proof. intros (A & B & C). by split_and!; apply not_eq_sym. Qed.

Record isolated (t : RouteTable) : Prop := {
  iso_keys : forall a r, aget a (rt_routes_by_account t) = Some r -> ro_account_id r = a;
  iso_nodup : NoDup (map fst (rt_routes_by_account t));
  iso_apart : forall a r a' r', aget a (rt_routes_by_account t) = Some r ->
    aget a' (rt_routes_by_account t) = Some r' -> a <> a' -> apart r r';
  iso_nodes : forall n a, aget n (rt_account_by_node t) = Some a <->
    exists r, aget a (rt_routes_by_account t) = Some r /\ ro_node_id r = n }.

Lemma require_inv b e u : require b e = Ok u -> b = true.
Proof. by destruct b. Qed.

(** The loop accepts only routes that are pairwise apart. *)
Lemma no_conflicts_inv accounts nodes prefixes spools routes r routes' :
  no_conflicts accounts nodes prefixes spools (routes ++ r :: routes') = Ok tt ->
  (forall n, n ∈ nodes -> ro_node_id r <> n) /\ (forall p, p ∈ prefixes -> prefix_of r <> p)
  /\ (forall p, p ∈ spools -> spool_path r <> Ok p)
  /\ (forall r0, r0 ∈ routes -> apart r0 r).
Proof.
  revert accounts nodes prefixes spools. induction routes as [|r1 routes IH]; intros accounts nodes prefixes spools H;
    cbn [app no_conflicts] in H; run_inv;
    repeat match goal with W : require _ _ = Ok _ |- _ => apply require_inv in W end; bprop.
  - split_and!.
    + intros n I E. by subst n.
    + intros p I E. subst p. by unfold prefix_of in *.
    + intros p I E. match goal with S : spool_path r = Ok ?q |- _ => assert (q = p) as -> by congruence end. done.
    + intros r0 I. by inversion I.
  - apply IH in H as (A & B & C & D).
    match goal with W : spool_path r1 = Ok ?p |- _ => rename p into spool, W into Hsp end.
    split_and!.
    + intros n I. apply A. by right.
    + intros p I. apply B. by right.
    + intros p I. apply C. by right.
    + intros r0 I. apply elem_of_cons in I as [->|I]; [|by apply D].
      split_and!; [apply not_eq_sym, A; left | apply not_eq_sym, B; left |].
      rewrite Hsp. apply not_eq_sym, C. left.
Qed.

Lemma upsert_route_inv r t u t' :
  upsert_route r t = (Ok u, t') ->
  (forall a r0, aget a (rt_routes_by_account t) = Some r0 -> a <> ro_account_id r -> apart r0 r)
  /\ rt_routes_by_account t' = aset (ro_account_id r) r (rt_routes_by_account t)
  /\ exists moved, rt_account_by_node t'
        = aset (ro_node_id r) (ro_account_id r)
            (match moved with Some n => apop n (rt_account_by_node t) | None => rt_account_by_node t end)
     /\ (forall n, moved = Some n <-> n <> ro_node_id r
           /\ exists o, aget (ro_account_id r) (rt_routes_by_account t) = Some o /\ ro_node_id o = n).
Proof.
  unfold upsert_route. intros H. run_inv.
  match goal with W : mget _ = _ |- _ => injection W as <- <- end.
  match goal with W : mput _ _ = _ |- _ => injection W as <- <- | _ => injection H as <- <- end.
  match goal with W : assert_no_conflicts _ = Ok ?u |- _ => rename W into N; destruct u end.
  split_and!; [| done |].
  - intros a r0 G D. apply no_conflicts_inv in N as (_ & _ & _ & N). apply N.
    apply list_elem_of_In, in_map_iff. exists (a, r0). split; [done|]. apply filter_In. split.
    + by apply list_elem_of_In, aget_elem.
    + cbn. apply negb_true_iff. by apply String.eqb_neq.
  - cbn [rt_account_by_node].
    exists (match aget (ro_account_id r) (rt_routes_by_account t) with
            | Some o => if String.eqb (ro_node_id o) (ro_node_id r) then None else Some (ro_node_id o)
            | None => None end).
    split; [done|]. intros n. destruct (aget (ro_account_id r) _) as [o|]; [|split; [done | by intros (_ & o & ? & _)]].
    destruct (String.eqb_spec (ro_node_id o) (ro_node_id r)) as [E|E]; [split; [done | intros (D & o' & [= <-] & E'); congruence]|].
    split; [intros [= <-]; split; [done | by exists o] | intros (D & o' & [= <-] & <-); done].
Qed.

Lemma upsert_isolated r t u t' : isolated t -> upsert_route r t = (Ok u, t') -> isolated t'.
Proof.
  intros [K N A B] H. apply upsert_route_inv in H as (P & R & moved & Nd & Mv). split; rewrite ?R.
  - intros a r0 G. rewrite aget_aset in G. destruct (String.eqb_spec a (ro_account_id r)); [by simplify_eq | by apply K].
  - by apply aset_nodup.
  - intros a r0 a' r1 G G' D. rewrite aget_aset in G, G'.
    destruct (String.eqb_spec a (ro_account_id r)), (String.eqb_spec a' (ro_account_id r)); simplify_eq.
    + by apply apart_sym, (P a').
    + by apply (P a).
    + by apply (A a r0 a' r1).
  - intros n a. rewrite Nd, aget_aset. destruct (String.eqb_spec n (ro_node_id r)) as [->|D].
    + split; [intros [= <-]; exists r; by rewrite aget_aset_eq|]. intros (r0 & G & E). rewrite aget_aset in G.
      destruct (String.eqb_spec a (ro_account_id r)) as [->|Da]; [done|]. destruct (P _ _ G Da) as [X _]. done.
    + assert (L : aget n (match moved with Some m => apop m (rt_account_by_node t) | None => rt_account_by_node t end)
                  = if decide (moved = Some n) then None else aget n (rt_account_by_node t)).
      { destruct moved as [m|]; [|done]. rewrite aget_apop. destruct (String.eqb_spec n m) as [->|]; case_decide; congruence. }
      rewrite L. case_decide as Dm.
      * split; [done|]. intros (r0 & G & E). apply Mv in Dm as (_ & o & Go & Eo). rewrite aget_aset in G.
        destruct (String.eqb_spec a (ro_account_id r)) as [->|Da]; [by simplify_eq|].
        destruct (A _ _ _ _ G Go Da) as [X _]. congruence.
      * rewrite B. split; intros (r0 & G & E).
        -- destruct (decide (a = ro_account_id r)) as [->|Da]; [exfalso; apply Dm, Mv; eauto|].
           exists r0. by rewrite aget_aset_ne.
        -- rewrite aget_aset in G. destruct (String.eqb_spec a (ro_account_id r)) as [->|Da]; [by simplify_eq | eauto].
Qed.

(** The operations that change a table; one that raises leaves it unchanged. *)
Inductive route_op := Upsert (r : AccountRoute) | Unavailable (node_id : string).

Definition run_op (t : RouteTable) (op : route_op) : RouteTable :=
  snd (match op with Upsert r => upsert_route r t | Unavailable n => mark_node_unavailable n t end).

Lemma run_op_isolated t op : isolated t -> isolated (run_op t op).
Proof.
  intros I. unfold run_op. destruct op as [r|n].
  - destruct (upsert_route r t) as [[u|e] t'] eqn:E; [by eapply upsert_isolated|].
    unfold upsert_route, mbind, M_bind, mget, mlift in E. destruct (assert_no_conflicts _); by simplify_eq.
  - unfold mark_node_unavailable, mbind, M_bind, mget, mlift. destruct (route_for_node n t); [|done].
    destruct I as [K N A B]. by split.
Qed.

(** Whatever routes are added, replaced or refused and whatever nodes are
    marked unavailable, two accounts never share a node, a cache prefix or a
    spool file, each account is filed under its own id, and looking a node up
    is the inverse of looking its account up: an intent is accepted by one
    node at most, the node of its account's route.  The files can be in one
    directory ([inbox_shared]). *)
Theorem routes_isolated ops :
  let table := fold_left run_op ops empty_table in
  (forall a r a' r', route_for_account a table = Ok r -> route_for_account a' table = Ok r' -> a <> a' ->
     apart r r')
  /\ (forall a r, route_for_account a table = Ok r -> ro_account_id r = a)
  /\ (forall n r, route_for_node n table = Ok r <-> exists a, route_for_account a table = Ok r /\ ro_node_id r = n)
  /\ (forall intent n r, assert_intent_for_node intent n table = Ok r <->
        exists a, account_id_from_intent intent = Some a /\ route_for_account a table = Ok r /\ ro_node_id r = n).
Proof.
  assert (I : isolated (fold_left run_op ops empty_table)).
  { assert (I0 : isolated empty_table) by (split; cbn; [done | constructor | done | split; [done | by intros (r & ? & _)]]).
    revert I0. generalize empty_table as t. induction ops as [|op ops IH]; intros t I; [done|].
    cbn. by apply IH, run_op_isolated. }
  set (t := fold_left run_op ops empty_table) in *. destruct I as [K N A B].
  assert (F : forall a r, route_for_account a t = Ok r <-> aget a (rt_routes_by_account t) = Some r).
  { intros a r. unfold route_for_account. destruct (aget a _); split; intros; by simplify_eq. }
  cbv zeta. split_and!.
  - intros a r a' r' G G' D. apply F in G, G'. by apply (A a r a' r').
  - intros a r G. apply F in G. by apply K.
  - intros n r. unfold route_for_node. destruct (aget n (rt_account_by_node t)) as [a|] eqn:E.
    + apply B in E as (r0 & G & E). rewrite G. split.
      * intros [= <-]. exists a. by rewrite F.
      * intros (a' & G' & E'). apply F in G'. destruct (decide (a = a')) as [->|D]; [congruence|].
        destruct (A _ _ _ _ G G' D) as [X _]. congruence.
    + split; [done|]. intros (a & G & E'). apply F in G.
      assert (aget n (rt_account_by_node t) = Some a) by (apply B; eauto). congruence.
  - intros intent n r. unfold assert_intent_for_node, route_intent.
    destruct (account_id_from_intent intent) as [a|]; [|split; [done | by intros (a & ? & _)]].
    destruct (route_for_account a t) as [r0|e] eqn:G; cbn [mbind result_bind]; [|split; [done | intros (a' & [= <-] & G' & _); congruence]].
    destruct (String.eqb_spec (ro_node_id r0) n) as [E|E]; split; try done.
    + intros [= <-]. by exists a.
    + intros (a' & [= <-] & G' & _). congruence.
    + intros (a' & [= <-] & G' & E'). congruence.
Qed.

(** Two accounts whose ids differ in a colon are accepted with one spool
    directory, and their nodes with one execution inbox. *)
Definition colon_route (sep file : string) : AccountRoute := {|
  ro_account_id := "a" +:+ sep +:+ "b"; ro_node_id := "n" +:+ sep +:+ "1"; ro_redis_key_prefix := "nautilus:a" +:+ sep +:+ "b:";
  ro_control_plane_base_url := "http://cp"; ro_spool_root := "/spool"; ro_environment := "live";
  ro_initial_trading_state := "ACTIVE"; ro_spool_file_name := file |}.

Lemma inbox_shared :
  let r := colon_route ":" "one.spool" in
  let r' := colon_route "_" "two.spool" in
  match mapR post_init [r; r'] ≫= route_table with
  | Ok t => map fst (rt_routes_by_account t) = ["a:b"; "a_b"]
  | Raise _ => False
  end
  /\ _intent_execution_inbox_path r = _intent_execution_inbox_path r'
  /\ path_str <$> _intent_execution_inbox_path r = Ok "/spool/a_b/n_1/intent_execution_inbox.json".
Proof. vm_compute. done. Qed.

(** As pathlib has it: a root of exactly two slashes is a root of its own. *)
Example path_roots :
  map (fun s => path_str (path_of s)) ["//a"; "/a"; "///a"; "a/./b//c"; "//"; ""] = ["//a"; "/a"; "/a"; "a/b/c"; "//"; "."].
Proof. reflexivity. Qed.
