(* ===== verification/Reconciliation.v ===== *)
(** * Reconciliation: the projections against a snapshot of the venue

    Models order_management/reconciliation.py.  A snapshot is a JSON
    dictionary; rows of a table are read in the order the store lists them. *)

From Stdlib Require Import ZArith Lia.
From S2P Require Import Prelude Decimal PyString DecText PyValue Identifiers Store.
Open Scope string_scope.
Open Scope Z_scope.

Record ReconciliationResult := {
  rc_reconciliation_run_id : string;
  rc_status : string;
  rc_active_allowed : bool;
  rc_findings : list finding_row }.

(** [snapshot.get(key, [])] as the dictionaries it is iterated for. *)
Definition snapshot_rows (key : string) (snapshot : dict) : result (list dict) :=
  match dlookup key snapshot with
  | None => Ok []
  | Some (PList rows) =>
      mapR (fun r => match r with
                     | PDict d => Ok d
                     | _ => Raise (RuntimeError "AttributeError" "get")
                     end) rows
  | Some _ => Raise (TypeError "object is not iterable")
  end.

(** [{str(row.get(key)): value(row) for row in rows if row.get(key)}] *)
Definition index_by {A} (key : string) (value : dict -> A) (rows : list dict) : list (string * A) :=
  fold_left (fun d row => if truthy (dget key row) then aset (py_str (dget key row)) (value row) d else d) rows [].

(** [decimal_or_none(value) or Decimal(0)] *)
Definition decimal_or_zero (v : option xdec) : xdec :=
  match v with Some x => if xtrue x then x else XFin dzero | None => XFin dzero end.

(** ** Orders *)

Definition local_orders (account_id : string) (d : Db) : list (string * order_row) :=
  omap (fun p => if String.eqb (fst (fst p)) account_id then Some (snd (fst p), snd p) else None)
    (map_to_list (orders_projection d)).

Section findings.
Context (account_id run_id : string).

Definition finding (finding_type : string) (position_key order_projection_id : option string) (payload : dict)
  : M Conn finding_row :=
  record_reconciliation_finding account_id finding_type "error" payload position_key order_projection_id
    (Some run_id) "projection_anomaly".

Fixpoint order_findings (venue : list (string * string)) (rows : list (string * order_row))
  : M Conn (list finding_row) :=
  match rows with
  | [] => mret []
  | (client_order_id, row) :: rows =>
      match aget client_order_id venue with
      | Some venue_status =>
          if String.eqb venue_status (or_status row) then order_findings venue rows
          else
            f ← finding "order_drift" None (Some (or_order_projection_id row))
                  [("client_order_id", PStr client_order_id); ("local_status", PStr (or_status row));
                   ("venue_status", PStr venue_status)];
            rest ← order_findings venue rows;
            mret (f :: rest)
      | None => order_findings venue rows
      end
  end.

(** [_record_position_drift] *)
Definition record_position_drift (position_key : string) (local_quantity venue_quantity : xdec)
    (local_status venue_status : string) (missing : option (string * string)) : M Conn finding_row :=
  finding "position_drift" (Some position_key) None
    ([("local_quantity", PStr (xdec_str local_quantity)); ("venue_quantity", PStr (xdec_str venue_quantity));
      ("local_status", PStr local_status); ("venue_status", PStr venue_status)]
     ++ match missing with
        | Some (kind, side) => [("drift_kind", PStr kind); ("missing_side", PStr side)]
        | None => []
        end)%list.

Definition venue_quantity (position : dict) : xdec :=
  decimal_or_zero (decimal_or_none (dget "quantity" position)).
Definition venue_status (position : dict) : string := py_str (dget "status" position).

(** The loop over the local positions. *)
Fixpoint local_position_findings (venue : list (string * dict)) (rows : list (string * (xdec * string)))
  : M Conn (list finding_row) :=
  match rows with
  | [] => mret []
  | (key, (quantity, status)) :: rows =>
      found ← match aget key venue with
              | None =>
                  if xeqb quantity (XFin dzero) then mret []
                  else
                    f ← record_position_drift key quantity (XFin dzero) status "missing"
                          (Some ("venue_missing", "venue"));
                    mret [f]
              | Some position =>
                  if xeqb (venue_quantity position) quantity && String.eqb (venue_status position) status
                  then mret []
                  else
                    f ← record_position_drift key quantity (venue_quantity position) status (venue_status position) None;
                    mret [f]
              end;
      rest ← local_position_findings venue rows;
      mret (found ++ rest)%list
  end.

(** The loop over the venue's positions the projection lacks. *)
Fixpoint venue_position_findings (local : list (string * (xdec * string))) (venue : list (string * dict))
  : M Conn (list finding_row) :=
  match venue with
  | [] => mret []
  | (key, position) :: venue =>
      found ← match aget key local with
              | Some _ => mret []
              | None =>
                  if xeqb (venue_quantity position) (XFin dzero) then mret []
                  else
                    f ← record_position_drift key (XFin dzero) (venue_quantity position) "missing"
                          (venue_status position) (Some ("local_missing", "local"));
                    mret [f]
              end;
      rest ← venue_position_findings local venue;
      mret (found ++ rest)%list
  end.

(** The local positions by key; the quantity column is not null. *)
Definition local_positions (d : Db) : list (string * (xdec * string)) :=
  omap (fun p => if String.eqb (fst (fst p)) account_id
                 then Some (snd (fst p), (decimal_or_zero (Some (po_quantity (snd p))), po_status (snd p))) else None)
    (map_to_list (positions_projection d)).

(** [_position_findings] *)
Definition position_findings (venue : list (string * dict)) : M Conn (list finding_row) :=
  local ← select local_positions;
  first ← local_position_findings venue local;
  second ← venue_position_findings local venue;
  mret (first ++ second)%list.

(** The three figures of an account on the venue. *)
Definition venue_account (account : dict) : xdec * xdec * xdec :=
  (decimal_or_zero (decimal_or_none (dget "equity" account)),
   decimal_or_zero (decimal_or_none (dget "free" account)),
   decimal_or_zero (decimal_or_none (dget "margin" account))).

Definition account_agrees (row : account_row) (account : dict) : bool :=
  let '(equity, free, margin) := venue_account account in
  xeqb (ac_equity row) equity && match ac_available_balance row with Some b => xeqb b free | None => false end
  && xeqb (ac_margin row) margin.

(** [_account_findings]; an account that is absent or empty is skipped. *)
Definition account_findings (snapshot : dict) : M Conn (list finding_row) :=
  let account := dget "account" snapshot in
  if negb (truthy account) then mret [] else
  row ← select (fun d => accounts_projection d !! account_id);
  match row, account with
  | None, _ =>
      f ← finding "account_missing" None None [("venue_account", account)];
      mret [f]
  | Some row, PDict account =>
      if account_agrees row account then mret []
      else
        let '(equity, free, margin) := venue_account account in
        f ← finding "account_drift" None None
              [("local_equity", PStr (xdec_str (ac_equity row))); ("venue_equity", PStr (xdec_str equity));
               ("local_free", PStr (from_option xdec_str "None" (ac_available_balance row)));
               ("venue_free", PStr (xdec_str free)); ("local_margin", PStr (xdec_str (ac_margin row)));
               ("venue_margin", PStr (xdec_str margin))];
        mret [f]
  | Some _, _ => mraise (RuntimeError "AttributeError" "get")
  end.

(** [_collect_findings] *)
Definition collect_findings (snapshot : dict) : M Conn (list finding_row) :=
  orders ← mlift (snapshot_rows "orders" snapshot);
  rows ← select (local_orders account_id);
  a ← order_findings (index_by "client_order_id" (fun o => py_str (dget "status" o)) orders) rows;
  positions ← mlift (snapshot_rows "positions" snapshot);
  b ← position_findings (index_by "position_key" (fun p => p) positions);
  c ← account_findings snapshot;
  mret (a ++ b ++ c)%list.

End findings.

(** [Reconciler._run] *)
Definition reconcile (account_id : string) (snapshot : dict) (reason : string) : M Conn ReconciliationResult :=
  transaction (
    run_id ← create_reconciliation_run (Some account_id) "running" reason [("venue_snapshot", PDict snapshot)] false;
    findings ← collect_findings account_id run_id snapshot;
    let status := match findings with [] => "passed" | _ => "failed" end in
    _ ← update_reconciliation_run run_id status [("finding_count", PInt (Z.of_nat (length findings)))];
    mret {| rc_reconciliation_run_id := run_id; rc_status := status;
            rc_active_allowed := negb (String.eqb reason "startup") || match findings with [] => true | _ => false end;
            rc_findings := findings |}).

Definition run_startup (account_id : string) (snapshot : dict) : M Conn ReconciliationResult :=
  reconcile account_id snapshot "startup".
Definition run_periodic (account_id : string) (snapshot : dict) : M Conn ReconciliationResult :=
  reconcile account_id snapshot "periodic".

(** ** What passes *)

(** The projections of an account agree with a snapshot. *)
Record agrees (account_id : string) (snapshot : dict) (orders positions : list dict) (d : Db) : Prop := {
  agree_orders : forall c row s, orders_projection d !! (account_id, c) = Some row ->
    aget c (index_by "client_order_id" (fun o => py_str (dget "status" o)) orders) = Some s -> s = or_status row;
  agree_positions : forall k row, positions_projection d !! (account_id, k) = Some row ->
    let q := decimal_or_zero (Some (po_quantity row)) in
    match aget k (index_by "position_key" (fun p => p) positions) with
    | None => xeqb q (XFin dzero) = true
    | Some p => xeqb (venue_quantity p) q = true /\ venue_status p = po_status row
    end;
  agree_venue : forall k p, aget k (index_by "position_key" (fun p => p) positions) = Some p ->
    positions_projection d !! (account_id, k) = None -> xeqb (venue_quantity p) (XFin dzero) = true;
  agree_account : truthy (dget "account" snapshot) = true ->
    exists row, accounts_projection d !! account_id = Some row
      /\ account_agrees row (as_dict (dget "account" snapshot)) = true }.

(** A step that at most appends findings of a run, which [fs] are. *)
Definition files (account_id run_id : string) (s s' : Conn) (fs : list finding_row) : Prop :=
  reconciliation_findings (current s') = (reconciliation_findings (current s) ++ fs)%list
  /\ Forall (fun f => fi_run_id f = run_id /\ fi_account_id f = account_id) fs
  /\ orders_projection (current s') = orders_projection (current s)
  /\ positions_projection (current s') = positions_projection (current s)
  /\ accounts_projection (current s') = accounts_projection (current s)
  /\ reconciliation_runs (current s') = reconciliation_runs (current s).

Section passes.
Context (account_id run_id : string).
Hypothesis run_id_set : is_empty run_id = false.

#[local] Abbreviation files := (files account_id run_id).

Lemma files_nil s : files s s [].
Proof. split_and!; [by rewrite app_nil_r | constructor | done..]. Qed.

Lemma files_app s1 s2 s3 fs gs : files s1 s2 fs -> files s2 s3 gs -> files s1 s3 (fs ++ gs).
Proof.
  intros (A & B & C & D & E & F) (A' & B' & C' & D' & E' & F').
  split_and!; [by rewrite A', A, app_assoc | by apply Forall_app | congruence..].
Qed.

Lemma finding_files t pk op p s f s' : finding account_id run_id t pk op p s = (Ok f, s') -> files s s' [f].
Proof.
  unfold finding, record_reconciliation_finding, str_or. rewrite run_id_set. intros H. run_inv. run_frame.
  unfold Reconciliation.files; rewrite Hcur; cbn; rewrite Hcur0. split_and!; try done. by constructor.
Qed.

Lemma drift_files k lq vq ls vs m s f s' :
  record_position_drift account_id run_id k lq vq ls vs m s = (Ok f, s') -> files s s' [f].
Proof. apply finding_files. Qed.

Lemma order_findings_inv venue rows s fs s' :
  order_findings account_id run_id venue rows s = (Ok fs, s') ->
  files s s' fs
  /\ (fs = [] <-> forall c row v, (c, row) ∈ rows -> aget c venue = Some v -> v = or_status row).
Proof.
  revert s fs. induction rows as [|[c row] rows IH]; intros s fs H; cbn [order_findings] in H.
  { run_inv. split; [apply files_nil|]. split; [|done]. intros _ c row v I. by inversion I. }
  assert (Skip : forall fs, (forall v, aget c venue = Some v -> v = or_status row) ->
    (fs = [] <-> forall c row v, (c, row) ∈ rows -> aget c venue = Some v -> v = or_status row) ->
    (fs = ([] : list finding_row) <-> forall c0 row0 v, (c0, row0) ∈ (c, row) :: rows -> aget c0 venue = Some v -> v = or_status row0)).
  { intros gs O E. rewrite E. split; intros G c0 row0 v I V; [|eapply G; [by right | done]].
    apply elem_of_cons in I as [[= -> ->]|I]; [by apply O | by eapply G]. }
  destruct (aget c venue) as [v|] eqn:V.
  - destruct (String.eqb_spec v (or_status row)) as [E|N].
    + destruct (IH _ _ H) as [F G]. split; [done|]. apply Skip; [by intros ? [= <-] | done].
    + run_inv. match goal with W : finding _ _ _ _ _ _ _ = _ |- _ => apply finding_files in W as F end.
      match goal with W : order_findings _ _ _ _ _ = _ |- _ => apply IH in W as [F' _] end.
      split; [by apply (files_app _ _ _ [_] _ F F')|]. split; [done|].
      intros G. destruct N. eapply G; [left | done].
  - destruct (IH _ _ H) as [F G]. split; [done|]. by apply Skip.
Qed.

(** The condition a local position passes under. *)
Definition local_ok (venue : list (string * dict)) (key : string) (quantity : xdec) (status : string) : Prop :=
  match aget key venue with
  | None => xeqb quantity (XFin dzero) = true
  | Some p => xeqb (venue_quantity p) quantity = true /\ venue_status p = status
  end.

Lemma local_findings_inv venue rows s fs s' :
  local_position_findings account_id run_id venue rows s = (Ok fs, s') ->
  files s s' fs /\ (fs = [] <-> forall k q st, (k, (q, st)) ∈ rows -> local_ok venue k q st).
Proof.
  revert s fs. induction rows as [|[k [q st]] rows IH]; intros s fs H; cbn [local_position_findings] in H.
  { run_inv. split; [apply files_nil|]. split; [|done]. intros _ k q st I. by inversion I. }
  apply mbind_inv_ok in H as (found & s1 & H1 & H). run_inv.
  match goal with W : local_position_findings _ _ _ _ _ = _ |- _ => apply IH in W as [F' G'] end.
  assert (X : files s s1 found /\ (found = [] <-> local_ok venue k q st)).
  { unfold local_ok. destruct (aget k venue) as [p|].
    - destruct (xeqb (venue_quantity p) q && String.eqb (venue_status p) st) eqn:E.
      + run_inv. bprop. split; [apply files_nil | done].
      + run_inv. match goal with W : record_position_drift _ _ _ _ _ _ _ _ _ = _ |- _ => apply drift_files in W end.
        split; [done|]. split; [done|]. intros [A B]. by rewrite A, B, String.eqb_refl in E.
    - destruct (xeqb q (XFin dzero)) eqn:E.
      + run_inv. split; [apply files_nil | done].
      + run_inv. match goal with W : record_position_drift _ _ _ _ _ _ _ _ _ = _ |- _ => apply drift_files in W end.
        split; [done|]. by split. }
  destruct X as [F G]. split; [by eapply files_app|]. rewrite app_nil, G, G'. split.
  - intros [A B] k0 q0 st0 I. apply elem_of_cons in I as [[= -> -> ->]|I]; [done | by apply B].
  - intros A. split; [apply A; left|]. intros k0 q0 st0 I. apply A. by right.
Qed.

Lemma venue_findings_inv local venue s fs s' :
  venue_position_findings account_id run_id local venue s = (Ok fs, s') ->
  files s s' fs
  /\ (fs = [] <-> forall k p, (k, p) ∈ venue -> aget k local = None -> xeqb (venue_quantity p) (XFin dzero) = true).
Proof.
  revert s fs. induction venue as [|[k p] venue IH]; intros s fs H; cbn [venue_position_findings] in H.
  { run_inv. split; [apply files_nil|]. split; [|done]. intros _ k p I. by inversion I. }
  apply mbind_inv_ok in H as (found & s1 & H1 & H). run_inv.
  match goal with W : venue_position_findings _ _ _ _ _ = _ |- _ => apply IH in W as [F' G'] end.
  assert (X : files s s1 found
    /\ (found = [] <-> (aget k local = None -> xeqb (venue_quantity p) (XFin dzero) = true))).
  { destruct (aget k local).
    - run_inv. split; [apply files_nil | done].
    - destruct (xeqb (venue_quantity p) (XFin dzero)).
      + run_inv. split; [apply files_nil | done].
      + run_inv. match goal with W : record_position_drift _ _ _ _ _ _ _ _ _ = _ |- _ => apply drift_files in W end.
        split; [done|]. split; [done|]. intros C. by specialize (C eq_refl). }
  destruct X as [F G]. split; [by eapply files_app|]. rewrite app_nil, G, G'. split.
  - intros [A B] k0 p0 I. apply elem_of_cons in I as [[= -> ->]|I]; [done | by apply B].
  - intros A. split; [apply A; left|]. intros k0 p0 I. apply A. by right.
Qed.

Lemma account_findings_inv snapshot s fs s' :
  account_findings account_id run_id snapshot s = (Ok fs, s') ->
  files s s' fs
  /\ (fs = [] <-> (truthy (dget "account" snapshot) = true ->
        exists row, accounts_projection (current s) !! account_id = Some row
          /\ account_agrees row (as_dict (dget "account" snapshot)) = true)).
Proof.
  unfold account_findings. intros H. destruct (truthy (dget "account" snapshot)) eqn:T; cbn [negb] in H.
  2:{ run_inv. split; [apply files_nil | by split]. }
  apply mbind_inv_ok in H as (row & s1 & H1 & H). apply select_inv in H1 as [-> ->].
  destruct (accounts_projection (current s) !! account_id) as [row|].
  - destruct (dget "account" snapshot) as [| | | | | | |account] eqn:A; try discriminate H.
    destruct (account_agrees row account) eqn:E; [run_inv; split; [apply files_nil | split; eauto]|].
    destruct (venue_account account) as [[equity free] margin]. run_inv.
    match goal with W : finding _ _ _ _ _ _ _ = _ |- _ => apply finding_files in W end.
    split; [done|]. split; [done|]. intros G. destruct (G eq_refl) as (row' & [= <-] & G'). cbn [as_dict] in G'. congruence.
  - run_inv. match goal with W : finding _ _ _ _ _ _ _ = _ |- _ => apply finding_files in W end.
    split; [done|]. split; [done|]. intros G. by destruct (G eq_refl) as (row' & ? & _).
Qed.

End passes.

(** ** The rows of an account *)

Lemma local_orders_elem account_id d c row :
  (c, row) ∈ local_orders account_id d <-> orders_projection d !! (account_id, c) = Some row.
Proof.
  unfold local_orders. rewrite list_elem_of_omap. rewrite <- elem_of_map_to_list. split.
  - intros ([[a c'] row'] & I & E). cbn in E. destruct (String.eqb_spec a account_id) as [->|]; by simplify_eq.
  - intros I. exists (account_id, c, row). cbn. by rewrite String.eqb_refl.
Qed.

Lemma local_positions_elem account_id d k q st :
  (k, (q, st)) ∈ local_positions account_id d <->
  exists row, positions_projection d !! (account_id, k) = Some row
    /\ q = decimal_or_zero (Some (po_quantity row)) /\ st = po_status row.
Proof.
  unfold local_positions. rewrite list_elem_of_omap. split.
  - intros ([[a k'] row'] & I & E). cbn [fst snd] in E. apply elem_of_map_to_list in I.
    destruct (String.eqb_spec a account_id) as [->|]; simplify_eq. eauto.
  - intros (row & I & -> & ->). exists (account_id, k, row). rewrite elem_of_map_to_list. cbn [fst snd].
    by rewrite String.eqb_refl.
Qed.

Lemma aget_local account_id d k :
  aget k (local_positions account_id d) = None <-> positions_projection d !! (account_id, k) = None.
Proof.
  split; intros H.
  - destruct (positions_projection d !! (account_id, k)) as [row|] eqn:E; [|done].
    destruct (aget_unlisted _ _ (decimal_or_zero (Some (po_quantity row)), po_status row) H).
    apply local_positions_elem. eauto.
  - destruct (aget k (local_positions account_id d)) as [[q st]|] eqn:E; [|done].
    apply aget_elem, local_positions_elem in E as (row & E & _). congruence.
Qed.

Lemma index_by_nodup {A} key (f : dict -> A) rows : NoDup (map fst (index_by key f rows)).
Proof.
  unfold index_by. assert (N : NoDup (map fst ([] : list (string * A)))) by constructor. revert N.
  generalize ([] : list (string * A)). induction rows as [|r rows IH]; intros d N; cbn; [done|].
  apply IH. destruct (truthy _); [by apply aset_nodup | done].
Qed.

Lemma index_by_elem {A} key (f : dict -> A) rows k v :
  (k, v) ∈ index_by key f rows <-> aget k (index_by key f rows) = Some v.
Proof. split; [apply elem_aget, index_by_nodup | apply aget_elem]. Qed.

(** ** What a reconciliation records *)

Lemma collect_findings_inv account_id run_id snapshot s fs s' :
  is_empty run_id = false ->
  collect_findings account_id run_id snapshot s = (Ok fs, s') ->
  exists orders positions, snapshot_rows "orders" snapshot = Ok orders
    /\ snapshot_rows "positions" snapshot = Ok positions
    /\ files account_id run_id s s' fs
    /\ (fs = [] <-> agrees account_id snapshot orders positions (current s)).
Proof.
  intros U H. unfold collect_findings, position_findings in H. run_inv.
  repeat match goal with
  | W : order_findings _ _ _ _ _ = _ |- _ => apply (order_findings_inv _ _ U) in W as [F1 G1]
  | W : local_position_findings _ _ _ _ _ = _ |- _ => apply (local_findings_inv _ _ U) in W as [F2 G2]
  | W : venue_position_findings _ _ _ _ _ = _ |- _ => apply (venue_findings_inv _ _ U) in W as [F3 G3]
  | W : account_findings _ _ _ _ = _ |- _ => apply (account_findings_inv _ _ U) in W as [F4 G4]
  end.
  do 2 eexists. split; [eassumption|]. split; [eassumption|].
  match goal with |- files _ _ _ _ (?a ++ (?b ++ ?c) ++ ?e) /\ _ =>
    rename a into fa; rename b into fb; rename c into fc; rename e into fe end.
  pose proof F1 as (_ & _ & _ & P1 & _). pose proof (files_app _ _ _ _ _ _ _ F1 F2) as F12.
  pose proof (files_app _ _ _ _ _ _ _ F12 F3) as F13. pose proof F13 as (_ & _ & _ & _ & A3 & _).
  split.
  { rewrite !app_assoc. by eapply files_app; [|exact F4]. }
  rewrite !app_nil, G1, G2, G3, G4, A3. split.
  - intros (A & [B C] & D). constructor; [| |intros k p V L|done].
    + intros c row v L. apply A. by apply local_orders_elem.
    + intros k row L. cbv zeta. apply B. apply local_positions_elem. exists row. by rewrite P1.
    + apply (C k); [by apply index_by_elem|]. apply aget_local. by rewrite P1.
  - intros [A B C D]. split_and!; [| |intros k p V L|done].
    + intros c row v L. apply A. by apply local_orders_elem.
    + intros k q st L. apply local_positions_elem in L as (row & L & -> & ->). rewrite P1 in L. by apply B in L.
    + apply index_by_elem in V. apply aget_local in L. rewrite P1 in L. by apply (C k p).
Qed.

(** The first step of a run: its row is added and nothing else changes. *)
Lemma create_run_inv a st reason p c s id s' :
  create_reconciliation_run a st reason p c s = (Ok id, s') ->
  is_empty id = false
  /\ exists run, rr_id run = id /\ rr_account_id run = a /\ rr_reason run = reason
     /\ current s' = set_reconciliation_runs (fun t => (t ++ [run])%list) (current s).
Proof.
  unfold create_reconciliation_run. intros H.
  apply mbind_inv_ok in H as (id' & s1 & H1 & H).
  assert (E : is_empty id' = false) by (unfold uuid4 in H1; by simplify_eq).
  run_inv. split; [done|]. eexists. split_and!; [| | | by rewrite Hcur, Hcur0]; done.
Qed.

(** The last one: every run of that identifier is closed. *)
Lemma update_run_inv id st p s u s' :
  update_reconciliation_run id st p s = (Ok u, s') ->
  exists close : run_row -> run_row,
    current s' = set_reconciliation_runs (map close) (current s)
    /\ (forall run, rr_id (close run) = rr_id run /\ rr_account_id (close run) = rr_account_id run
          /\ rr_reason (close run) = rr_reason run)
    /\ (forall run, rr_id run = id -> rr_status (close run) = st /\ rr_completed_at (close run) <> None)
    /\ (forall run, rr_id run <> id -> close run = run).
Proof.
  unfold update_reconciliation_run. intros H. run_inv. eexists. split; [exact Hcur|].
  split_and!; intros run; [| intros -> | intros N]; try (by rewrite String.eqb_refl).
  - by destruct (String.eqb _ _).
  - by apply String.eqb_neq in N as ->.
Qed.

(** C30. A reconciliation that returns has opened one run and compared the
    account's projections with the snapshot: it files no finding exactly when
    they agree (every order that both sides list has the venue's status, every
    position its quantity and status or is flat on the side that lacks it, and
    the figures of a reported account are equal; an order that only one side
    lists is not compared, see [orphan_order_passes]), it passes exactly then,
    a startup allows trading exactly then while a periodic run never withdraws
    it, every finding is stored under the run, that run and no other is closed
    with the outcome, and no projection changes. *)
Theorem reconcile_passes_iff account_id snapshot reason s r s' :
  reconcile account_id snapshot reason s = (Ok r, s') ->
  exists orders positions,
    snapshot_rows "orders" snapshot = Ok orders /\ snapshot_rows "positions" snapshot = Ok positions
    /\ (rc_findings r = [] <-> agrees account_id snapshot orders positions (current s))
    /\ (rc_status r = if bool_decide (rc_findings r = []) then "passed" else "failed")
    /\ (rc_active_allowed r = true <-> reason <> "startup" \/ rc_findings r = [])
    /\ reconciliation_findings (current s') = (reconciliation_findings (current s) ++ rc_findings r)%list
    /\ Forall (fun f => fi_run_id f = rc_reconciliation_run_id r /\ fi_account_id f = account_id) (rc_findings r)
    /\ (exists close run,
         reconciliation_runs (current s') = (map close (reconciliation_runs (current s)) ++ [run])%list
         /\ rr_id run = rc_reconciliation_run_id r /\ rr_account_id run = Some account_id /\ rr_reason run = reason
         /\ rr_status run = rc_status r /\ rr_completed_at run <> None
         /\ forall run, rr_id run <> rc_reconciliation_run_id r -> close run = run)
    /\ orders_projection (current s') = orders_projection (current s)
    /\ positions_projection (current s') = positions_projection (current s)
    /\ accounts_projection (current s') = accounts_projection (current s).
Proof.
  intros H. unfold reconcile in H. apply transaction_inv_ok in H as (s3 & H & ->).
  apply mbind_inv_ok in H as (id & s1 & H1 & H). apply create_run_inv in H1 as (U & run & I & A & R & E1).
  apply mbind_inv_ok in H as (fs & s2 & H2 & H).
  apply (collect_findings_inv _ _ _ _ _ _ U) in H2 as (orders & positions & Ho & Hp & F & G).
  apply mbind_inv_ok in H as ([] & s4 & H3 & H).
  apply update_run_inv in H3 as (close & E4 & Keep & Close & Other). apply mret_inv in H as [<- <-].
  destruct F as (F1 & F2 & F3 & F4 & F5 & F6). cbn [commit current] in *. rewrite E1 in *.
  exists orders, positions. cbn [rc_findings rc_status rc_active_allowed rc_reconciliation_run_id].
  rewrite E4. cbn. rewrite F1, F3, F4, F5, F6. cbn.
  split_and!; try done.
  - rewrite G. split; intros [? ? ? ?]; constructor; assumption.
  - by destruct fs.
  - rewrite orb_true_iff, negb_true_iff, String.eqb_neq. destruct fs; (split; (intros [?|?]; [by left|])); [by right | by right | done | done].
  - exists close, (close run). rewrite map_app. destruct (Keep run) as (K1 & K2 & K3), (Close _ I) as [C1 C2].
    split_and!; [done | congruence | congruence | congruence | done | done | exact Other].
Qed.

(** A startup that finds a long the venue no longer holds. *)
Definition sample_drift_db : Conn :=
  connect (set_positions_projection (<[("a", "a:BTCUSDT:LONG") := {|
      po_instrument_id := "BTCUSDT"; po_side := "LONG"; po_quantity := XFin (Dec 5 0);
      po_avg_entry_price := None; po_mark_price := None; po_unrealized_pnl := None; po_status := "open";
      po_updated_from_event_id := "e1"; po_ts_event := Some 3; po_updated_at := 3; po_payload := [] |}]>) empty_db) 9.

Definition sample_venue_snapshot : dict :=
  [("orders", PList []);
   ("positions", PList [PDict [("position_key", PStr "a:BTCUSDT:LONG"); ("quantity", PStr "0"); ("status", PStr "flat")]])].

Lemma reconcile_passes_iff_witness :
  exists r s' orders positions,
    reconcile "a" sample_venue_snapshot "startup" sample_drift_db = (Ok r, s')
    /\ ~ agrees "a" sample_venue_snapshot orders positions (current sample_drift_db)
    /\ rc_active_allowed r = false.
Proof.
  assert (R : match reconcile "a" sample_venue_snapshot "startup" sample_drift_db with
              | (Ok r, _) => negb (rc_active_allowed r) && match rc_findings r with [] => false | _ => true end
              | _ => false end = true) by (vm_compute; reflexivity).
  destruct (reconcile "a" sample_venue_snapshot "startup" sample_drift_db) as [[r|e] s'] eqn:E; [|discriminate R].
  apply andb_true_iff in R as [A F]. apply negb_true_iff in A.
  destruct (reconcile_passes_iff _ _ _ _ _ _ E) as (orders & positions & _ & _ & G & _).
  exists r, s', orders, positions. split; [reflexivity|]. split; [|exact A].
  intros W. apply G in W. rewrite W in F. discriminate F.
Defined.

(** A working order of the venue that the projection does not have: the startup
    passes and allows trading. *)
Definition orphan_snapshot : dict :=
  [("orders", PList [PDict [("client_order_id", PStr "c9"); ("status", PStr "accepted")]]); ("positions", PList [])].

Lemma orphan_order_passes :
  match run_startup "a" orphan_snapshot (connect empty_db 9) with
  | (Ok r, c) => rc_status r = "passed" /\ rc_active_allowed r = true /\ reconciliation_findings (current c) = []
  | _ => False
  end.
Proof. vm_compute. done. Qed.
