(* ===== verification/Governor.v ===== *)
(** * Governor: the deterministic risk governor

    Models services/control-plane/risk/governor.py and policy.py.  A decision
    is schema-validated, so its fields have the types of
    packages/contracts/v1/hermes_decision.v1.json.  Its numbers are floats,
    carried by their [repr]; a numeric column of the database can also hold a
    NaN or an infinity, a JSON list only finite numbers. *)

From Stdlib Require Import ZArith Lia Ascii QArith Qabs Lqa.
From S2P Require Import Prelude Decimal PyString DecText PyValue Identifiers StateDescriptor Store Sha256 Binary64.
Open Scope string_scope.
Open Scope Z_scope.

(** ** policy.py *)

Definition UPDATE_ACTIONS : list string :=
  ["partial_close"; "close_position"; "move_stop_loss"; "move_stop_to_entry"; "replace_take_profits"].
Definition OPENING_ACTIONS : list string := ["open_position"; "add_position"].
Definition NON_ACTIONABLE_ACTIONS : list string := ["hold"; "ignore"; "needs_review"].
Definition UPDATE_MESSAGE_TYPES : list string := ["position_update"; "close_update"].

Record RiskPolicy := {
  gp_instrument_whitelist : list string;
  gp_price_precision : Z;
  gp_max_risk_fraction : dec;
  gp_default_risk_fraction : dec;
  gp_max_leverage : dec;
  gp_max_notional : dec;
  gp_max_instrument_notional : dec;
  gp_max_total_risk_fraction : dec;
  gp_correlated_groups : list (string * list string);
  gp_max_correlated_notional : dec;
  gp_freshness_seconds : Z;
  gp_default_account_id : option string;
  gp_intent_ttl_seconds : Z }.

Definition default_policy : RiskPolicy := {|
  gp_instrument_whitelist := ["BTCUSDT"; "ETHUSDT"; "SOLUSDT"];
  gp_price_precision := 2;
  gp_max_risk_fraction := Dec 2 (-2);
  gp_default_risk_fraction := Dec 15 (-3);
  gp_max_leverage := Dec 10 0;
  gp_max_notional := Dec 50000 0;
  gp_max_instrument_notional := Dec 100000 0;
  gp_max_total_risk_fraction := Dec 1 (-1);
  gp_correlated_groups := [("majors", ["BTCUSDT"; "ETHUSDT"])];
  gp_max_correlated_notional := Dec 150000 0;
  gp_freshness_seconds := 1800;
  gp_default_account_id := None;
  gp_intent_ttl_seconds := 900 |}.

Definition correlated_group_for (policy : RiskPolicy) (instrument : string) : option (string * list string) :=
  List.find (fun g => str_in instrument (snd g)) (gp_correlated_groups policy).

(** ** What the governor reads *)

Record Entry := { en_type : string; en_price : option xdec; en_price_min : option xdec; en_price_max : option xdec }.

Record Sizing := { sg_notional : option xdec; sg_max_notional : option xdec; sg_quantity : option xdec }.

Record Intent := {
  hi_target_account_id : option string;
  hi_target_position_id : option string;
  hi_instrument_symbol : option string;
  hi_side : option string;
  hi_entry : Entry;
  hi_stop_loss : option xdec;
  hi_take_profits : list dec;
  hi_leverage : option xdec;
  hi_valid_until : option string;
  hi_sizing : Sizing }.

Record Decision := {
  hd_message_type : string;
  hd_action : string;
  hd_ambiguous : bool;
  hd_intent : Intent }.

Record Position := {
  gq_account_id : option string;
  gq_position_id : option string;
  gq_instrument_id : option string;
  gq_notional : option xdec }.

Record RiskState := { gs_mode : option string; gs_open_risk_fraction : option xdec }.

Record RiskBudget := { rb_risk_fraction : dec; rb_max_notional : dec; rb_max_leverage : xdec }.

Record Check := { ch_name : string; ch_passed : bool; ch_detail : option string }.

Record RiskDecision := {
  rd_status : string;
  rd_account_id : option string;
  rd_instrument_id : option string;
  rd_risk_budget : option RiskBudget;
  rd_reason : string;
  rd_checks : list Check }.

(** ** Helpers *)

(** [bool(x)] of a number that may be absent, and [a or b]. *)
Definition number (v : option xdec) : bool := match v with Some x => xtrue x | None => false end.
Definition num_or (a b : option xdec) : option xdec := if number a then a else b.

(** [float(v or 0)] *)
Definition float_or_zero (v : option xdec) : xdec := if number v then default (XFin dzero) v else XFin dzero.

(** [float(x)] of a Decimal. *)
Definition float_of_xdec (x : xdec) : xdec := match x with XFin d => float_of_dec d | x => x end.

(** [repr] of a float. *)
Definition xfloat_repr (x : xdec) : string :=
  match x with XFin d => float_repr d | XInf n => if n : bool then "-inf" else "inf" | XNaN => "nan" end.

(** [_instrument_in_group] *)
Definition instrument_in_group (instrument_id : option string) (members : list string) : bool :=
  existsb (fun member => instruments_match (Some member) instrument_id) members.

(** [_halted_action_allowed] *)
Definition governor_action_allowed (action mode : string) : bool :=
  match halted_action_allowed action mode with
  | Ok b => b
  | Raise _ => false
  end.

(** [_proposed_notional]; [str] of a float reads back as the decimal that
    carries it. *)
Definition proposed_notional (intent : Intent) (budget_max_notional : dec) : result xdec :=
  match num_or (sg_notional (hi_sizing intent)) (sg_max_notional (hi_sizing intent)) with
  | Some explicit => Ok explicit
  | None =>
      let entry := hi_entry intent in
      let price := num_or (num_or (en_price entry) (en_price_min entry)) (en_price_max entry) in
      match sg_quantity (hi_sizing intent), price with
      | Some quantity, Some price => p ← xmul quantity price; Ok (xabs p)
      | _, _ => Ok (XFin budget_max_notional)
      end
  end.

(** [_decimal_places] *)
Definition decimal_places (value : xdec) : Z :=
  match value with
  | XFin d =>
      let text := rstrip_by (Ascii.eqb "0"%char) (float_format_f d) in
      let '(_, found, places) := partition "."%char text in
      if found : bool then Z.of_nat (String.length places) else 0
  | _ => 0
  end.

(** [_precision_ok] *)
Definition precision_ok (intent : Intent) (policy : RiskPolicy) : bool :=
  let fits v := decimal_places v <=? gp_price_precision policy in
  let entry := hi_entry intent in
  forallb (fun v => match v with Some v => fits v | None => true end)
    [en_price entry; en_price_min entry; en_price_max entry; hi_stop_loss intent]
  && forallb (fun tp => fits (XFin tp)) (hi_take_profits intent).

(** [xs == ys] on lists of numbers. *)
Fixpoint same_numbers (xs ys : list dec) : bool :=
  match xs, ys with
  | [], [] => true
  | x :: xs, y :: ys => deqb x y && same_numbers xs ys
  | _, _ => false
  end.

(** [_geometry_error] *)
Definition geometry_error (intent : Intent) : option string :=
  let entry := hi_entry intent in
  let price := coalesce (en_price entry) (en_price_min entry) in
  let take_profits := hi_take_profits intent in
  match hi_side intent, price, hi_stop_loss intent with
  | Some side, Some price, Some stop_loss =>
      if String.eqb side "long" then
        if negb (fgtb price stop_loss) then Some "long stop_loss must be below entry"
        else if negb (forallb (fun tp => fgtb (XFin tp) price) take_profits)
        then Some "long take_profits must be above entry"
        else if negb (same_numbers take_profits (sort_by dleb take_profits))
        then Some "long take_profits must be ascending"
        else None
      else if String.eqb side "short" then
        if negb (fgtb stop_loss price) then Some "short stop_loss must be above entry"
        else if negb (forallb (fun tp => fgtb price (XFin tp)) take_profits)
        then Some "short take_profits must be below entry"
        else if negb (same_numbers take_profits (sort_by (fun a b => dleb b a) take_profits))
        then Some "short take_profits must be descending"
        else None
      else None
  | _, _, _ => None
  end.

(** ** The evaluation *)

Section evaluate.
Context (decision : Decision) (positions : list Position) (risk_state : option RiskState) (policy : RiskPolicy).

Let intent := hd_intent decision.
Let action := hd_action decision.
Let instrument := hi_instrument_symbol intent.

Definition ok (name : string) : Check := {| ch_name := name; ch_passed := true; ch_detail := None |}.

(** [reject] and [review]: the checks so far and the one that failed. *)
Definition denied (status : string) (account_id : option string) (checks : list Check) (name detail : string)
  : RiskDecision := {|
  rd_status := status; rd_account_id := account_id; rd_instrument_id := instrument; rd_risk_budget := None;
  rd_reason := detail;
  rd_checks := (checks ++ [{| ch_name := name; ch_passed := false; ch_detail := Some detail |}])%list |}.
Definition reject := denied "rejected".
Definition review := denied "needs_review".

(** The positions an update can mean. *)
Definition update_matches (account_id target : string) : list Position :=
  List.filter (fun p => bool_decide (gq_position_id p = Some target)
                 && bool_decide (gq_account_id p = Some account_id)
                 && instruments_match instrument (gq_instrument_id p)) positions.

(** The live notional of an account on the instruments a test accepts. *)
Definition open_notional (account_id : string) (accepts : option string -> bool) : xdec :=
  fsum (map (fun p => float_or_zero (gq_notional p))
    (List.filter (fun p => bool_decide (gq_account_id p = Some account_id) && accepts (gq_instrument_id p)) positions)).

(** Step 8; [None] when the caps hold. *)
Definition exposure_problem (account_id : string) (budget : RiskBudget) : result (option (string * string)) :=
  let symbol := default "" instrument in
  proposed ← proposed_notional intent (rb_max_notional budget);
  let proposed := float_of_xdec proposed in
  let existing := open_notional account_id (instruments_match instrument) in
  let existing_risk := match risk_state with Some s => float_or_zero (gs_open_risk_fraction s) | None => XFin dzero end in
  if fgtb (fadd existing proposed) (XFin (gp_max_instrument_notional policy))
  then Ok (Some ("instrument_exposure", "instrument notional cap reached"))
  else if fgtb (fadd existing_risk (XFin (rb_risk_fraction budget))) (XFin (gp_max_total_risk_fraction policy))
  then Ok (Some ("total_risk", "total open risk fraction cap reached"))
  else
    match correlated_group_for policy symbol with
    | Some (group, members) =>
        let group_notional := open_notional account_id (fun i => instrument_in_group i members) in
        if fgtb (fadd group_notional proposed) (XFin (gp_max_correlated_notional policy))
        then Ok (Some ("correlated_exposure", "group " +:+ group +:+ " notional cap"))
        else Ok None
    | None => Ok None
    end.

(** Steps 4: the update target. *)
Definition update_problem (account_id : string) : option string :=
  match str_or (hi_target_position_id intent) None with
  | None => Some "update action without target_position_id"
  | Some target =>
      let n := length (update_matches account_id target) in
      if (n =? 1)%nat then None else Some ("target matched " +:+ int_str (Z.of_nat n) +:+ " positions")
  end.

(** Step 7; the budget, or the check that failed. *)
Definition risk_units : RiskBudget + (string * string) :=
  let cap := XFin (gp_max_leverage policy) in
  let exceeded := match hi_leverage intent with Some l => fgtb l cap | None => false end in
  if exceeded
  then inr ("max_leverage", "leverage " +:+ xfloat_repr (default cap (hi_leverage intent)) +:+ " > "
              +:+ float_repr (gp_max_leverage policy))
  else if dltb (gp_max_risk_fraction policy) (gp_default_risk_fraction policy)
  then inr ("max_risk_fraction", "configured risk fraction exceeds cap")
  else
    let leverage := if number (hi_leverage intent) then default cap (hi_leverage intent) else cap in
    inl {| rb_risk_fraction := gp_default_risk_fraction policy; rb_max_notional := gp_max_notional policy;
           rb_max_leverage := if fgtb leverage cap then cap else leverage |}.

Definition opening : bool := str_in action OPENING_ACTIONS.
Definition updating : bool := str_in action UPDATE_ACTIONS.

(** The account of the decision. *)
Definition resolved_account : option string :=
  str_or (str_or (hi_target_account_id intent) (gp_default_account_id policy)) None.

(** Steps 5 to 8. *)
Definition evaluate_risk (account_id mode : string) (checks : list Check) : result RiskDecision :=
  let account := Some account_id in
  let mode := upper (if is_empty mode then "ACTIVE" else mode) in
  if negb (governor_action_allowed action mode)
  then Ok (reject account checks "kill_switch" ("risk_state " +:+ mode +:+ ": action " +:+ action +:+ " blocked"))
  else
    let checks := (checks ++ [ok "kill_switch"])%list in
    match (if opening then geometry_error intent else None) with
    | Some geometry_error => Ok (reject account checks "geometry" geometry_error)
    | None =>
        let checks := (checks ++ if opening then [ok "geometry"] else [])%list in
        match risk_units with
        | inr (name, detail) => Ok (reject account checks name detail)
        | inl budget =>
            let checks := (checks ++ [ok "risk_units"])%list in
            problem ← (if opening then exposure_problem account_id budget else Ok None);
            match problem with
            | Some (name, detail) => Ok (reject account checks name detail)
            | None =>
                Ok {| rd_status := "approved"; rd_account_id := account; rd_instrument_id := instrument;
                      rd_risk_budget := Some budget; rd_reason := "all checks passed";
                      rd_checks := (checks ++ if opening then [ok "exposure"] else [])%list |}
            end
        end
    end.

Definition evaluate : result RiskDecision :=
  if hd_ambiguous decision || str_in action NON_ACTIONABLE_ACTIONS
  then Ok (review None [] "actionable" "ambiguous or non-actionable decision")
  else
    let checks := [ok "actionable"] in
    match resolved_account with
    | None => Ok (review None checks "account_resolution" "no target account and no default")
    | Some account_id =>
        let account := Some account_id in
        let checks := (checks ++ [ok "account_resolution"])%list in
        let symbol := default "" instrument in
        if is_empty symbol || negb (str_in symbol (gp_instrument_whitelist policy))
        then Ok (reject account checks "instrument_whitelist"
                   ("instrument " +:+ default "None" instrument +:+ " not allowed"))
        else if negb (precision_ok intent policy)
        then Ok (reject account checks "price_precision" "price exceeds allowed precision")
        else
          let checks := (checks ++ [ok "instrument_whitelist"])%list in
          match risk_state ≫= gs_mode with
          | None => Ok (review account checks "risk_context"
                          "risk_context_incomplete: risk_state unavailable for account/instrument")
          | Some mode =>
              let checks := (checks ++ [ok "risk_context"])%list in
              if str_in (hd_message_type decision) UPDATE_MESSAGE_TYPES && opening
              then Ok (reject account checks "update_message_cannot_open"
                         (hd_message_type decision +:+ " produced " +:+ action))
              else
                let checks := (checks ++ [ok "update_message_cannot_open"])%list in
                match (if updating then update_problem account_id else None) with
                | Some detail => Ok (review account checks "update_target" detail)
                | None =>
                    evaluate_risk account_id mode (checks ++ if updating then [ok "update_target"] else [])%list
                end
          end
    end.

End evaluate.

(** ** What an approval means *)

(** A number stays within a cap, as the code compares floats. *)
Definition within_cap (x : xdec) (cap : dec) : Prop := fgtb x (XFin cap) = false.

Lemma within_cap_fin x cap : within_cap (XFin x) cap -> (dval x <= dval cap)%Q.
Proof.
  unfold within_cap, fgtb. cbn. intros H. apply dleb_le. unfold dleb. by destruct (dcompare x cap).
Qed.

Lemma fgtb_fin a b : fgtb (XFin a) (XFin b) = true -> (dval b < dval a)%Q.
Proof.
  unfold fgtb. cbn. intros H. apply Qnot_le_lt. intros L. apply dleb_le in L. unfold dleb in L.
  by destruct (dcompare a b).
Qed.

(** Prices, stop and targets in the order of the side. *)
Definition geometry_sound (intent : Intent) : Prop :=
  forall price stop, coalesce (en_price (hi_entry intent)) (en_price_min (hi_entry intent)) = Some (XFin price) ->
  hi_stop_loss intent = Some (XFin stop) ->
  (hi_side intent = Some "long" ->
     (dval stop < dval price)%Q /\ Forall (fun tp => dval price < dval tp)%Q (hi_take_profits intent)
     /\ Sorted (fun a b => dval a <= dval b)%Q (hi_take_profits intent))
  /\ (hi_side intent = Some "short" ->
     (dval price < dval stop)%Q /\ Forall (fun tp => dval tp < dval price)%Q (hi_take_profits intent)
     /\ Sorted (fun a b => dval b <= dval a)%Q (hi_take_profits intent)).

Lemma same_sorted (le : dec -> dec -> bool) (R : dec -> dec -> Prop) xs :
  (forall a b, le a b = true \/ le b a = true) -> (forall a b, le a b = true -> R a b) ->
  (forall a a' b b', (dval a == dval a')%Q -> (dval b == dval b')%Q -> R a b -> R a' b') ->
  same_numbers xs (sort_by le xs) = true -> Sorted R xs.
Proof.
  intros T LR Resp. assert (S : Sorted R (sort_by le xs)).
  { assert (M : Sorted (fun a b => le a b = true) (sort_by le xs))
      by (unfold sort_by; apply Sorted_merge_sort; intros a b; destruct (T a b); auto).
    induction M as [|a l M IH Hd]; [constructor|]. constructor; [done|]. destruct Hd; constructor. by apply LR. }
  revert S. generalize (sort_by le xs). induction xs as [|x xs IH]; intros ys S E; [constructor|].
  destruct ys as [|y ys]; [discriminate E|]. cbn in E. apply andb_true_iff in E as [E1 E2].
  apply deqb_eq in E1. inversion S as [|? ? S' Hd]; subst. constructor; [by apply (IH ys)|].
  destruct xs as [|x' xs]; [constructor|]. destruct ys as [|y' ys]; [discriminate E2|].
  cbn in E2. apply andb_true_iff in E2 as [E2 _]. apply deqb_eq in E2. inversion Hd; subst.
  constructor. by eapply Resp; [symmetry|symmetry|].
Qed.

Lemma dleb_total a b : dleb a b = true \/ dleb b a = true.
Proof. rewrite !dleb_le. destruct (Qlt_le_dec (dval a) (dval b)); [left; by apply Qlt_le_weak | by right]. Qed.

Lemma take_profits_side (f : dec -> bool) (R : dec -> Prop) l :
  forallb f l = true -> (forall t, f t = true -> R t) -> Forall R l.
Proof. intros F I. apply List.Forall_forall. intros t T. apply I. by apply (proj1 (forallb_forall f l)). Qed.

Lemma geometry_error_none intent : geometry_error intent = None -> geometry_sound intent.
Proof.
  unfold geometry_error. intros H price stop P S. rewrite P, S in H.
  split; intros D; rewrite D in H; cbn [String.eqb Ascii.eqb Bool.eqb] in H.
  - destruct (negb (fgtb (XFin price) (XFin stop))) eqn:E1; [discriminate H|].
    destruct (negb (forallb _ _)) eqn:E2; [discriminate H|]. destruct (negb (same_numbers _ _)) eqn:E3; [discriminate H|].
    apply negb_false_iff in E1, E2, E3. split_and!; [by apply fgtb_fin | |].
    + eapply take_profits_side; [exact E2|]. intros t. apply fgtb_fin.
    + eapply (same_sorted dleb); [apply dleb_total| | |exact E3]; cbn.
      * intros a b. apply dleb_le.
      * intros a a' b b' Ea Eb. by rewrite Ea, Eb.
  - change (String.eqb "short" "long") with false in H. cbv iota in H.
    destruct (negb (fgtb (XFin stop) (XFin price))) eqn:E1; [discriminate H|].
    destruct (negb (forallb _ _)) eqn:E2; [discriminate H|]. destruct (negb (same_numbers _ _)) eqn:E3; [discriminate H|].
    apply negb_false_iff in E1, E2, E3. split_and!; [by apply fgtb_fin | |].
    + eapply take_profits_side; [exact E2|]. intros t. apply fgtb_fin.
    + eapply (same_sorted (fun a b => dleb b a)); [| | |exact E3]; cbn.
      * intros a b. apply dleb_total.
      * intros a b. apply dleb_le.
      * intros a a' b b' Ea Eb. by rewrite Ea, Eb.
Qed.

(** The exposures of an opening are within the caps of the policy. *)
Definition exposure_within (decision : Decision) (positions : list Position) (risk_state : option RiskState)
    (policy : RiskPolicy) (account symbol : string) (budget : RiskBudget) : Prop :=
  exists proposed, proposed_notional (hd_intent decision) (rb_max_notional budget) = Ok proposed
  /\ within_cap (fadd (open_notional positions account (instruments_match (Some symbol))) (float_of_xdec proposed))
       (gp_max_instrument_notional policy)
  /\ within_cap (fadd (float_or_zero (risk_state ≫= gs_open_risk_fraction)) (XFin (rb_risk_fraction budget)))
       (gp_max_total_risk_fraction policy)
  /\ forall group members, correlated_group_for policy symbol = Some (group, members) ->
       within_cap (fadd (open_notional positions account (fun i => instrument_in_group i members))
                     (float_of_xdec proposed)) (gp_max_correlated_notional policy).

Lemma exposure_problem_none decision positions risk_state policy account symbol budget :
  hi_instrument_symbol (hd_intent decision) = Some symbol ->
  exposure_problem decision positions risk_state policy account budget = Ok None ->
  exposure_within decision positions risk_state policy account symbol budget.
Proof.
  intros I H. unfold exposure_problem in H. rewrite I in H. apply rbind_inv_ok in H as (proposed & P & H).
  exists proposed. split; [done|]. unfold within_cap.
  destruct (fgtb _ (XFin (gp_max_instrument_notional policy))) eqn:A; [discriminate H|].
  destruct (fgtb _ (XFin (gp_max_total_risk_fraction policy))) eqn:B; [discriminate H|].
  split_and!; [done | |].
  - destruct risk_state as [rs|]; cbn; [exact B|]. exact B.
  - intros group members G. change (default "" (Some symbol)) with symbol in H. rewrite G in H. cbv zeta in H.
    apply not_true_iff_false. intros E. rewrite E in H. discriminate H.
Qed.

Lemma risk_units_within decision policy budget : risk_units decision policy = inl budget ->
  (forall l, hi_leverage (hd_intent decision) = Some l -> within_cap l (gp_max_leverage policy))
  /\ (dval (rb_risk_fraction budget) <= dval (gp_max_risk_fraction policy))%Q
  /\ rb_max_notional budget = gp_max_notional policy
  /\ within_cap (rb_max_leverage budget) (gp_max_leverage policy).
Proof.
  unfold risk_units, within_cap. intros H. destruct (match hi_leverage _ with Some l => _ | None => _ end) eqn:L; [discriminate H|].
  destruct (dltb _ _) eqn:F; [discriminate H|]. injection H as <-. cbn. split_and!; [|by apply dltb_ge|done|].
  - intros l E. by rewrite E in L.
  - match goal with |- fgtb (if ?b then _ else _) _ = _ => destruct b eqn:G; [|exact G] end.
    apply not_true_iff_false. intros E. apply fgtb_fin in E. lra.
Qed.

Lemma evaluate_risk_approved decision positions risk_state policy account mode checks r :
  evaluate_risk decision positions risk_state policy account mode checks = Ok r -> rd_status r = "approved" ->
  Forall (fun c => ch_passed c = true) checks ->
  governor_action_allowed (hd_action decision) (upper (if is_empty mode then "ACTIVE" else mode)) = true
  /\ (opening decision = true -> geometry_error (hd_intent decision) = None)
  /\ Forall (fun c => ch_passed c = true) (rd_checks r)
  /\ exists budget, risk_units decision policy = inl budget
     /\ (opening decision = true -> exposure_problem decision positions risk_state policy account budget = Ok None)
     /\ rd_account_id r = Some account /\ rd_instrument_id r = hi_instrument_symbol (hd_intent decision)
     /\ rd_risk_budget r = Some budget.
Proof.
  unfold evaluate_risk. intros H A F. destruct (governor_action_allowed _ _); cbn [negb] in H.
  2:{ apply ok_inj in H as <-. discriminate A. }
  destruct (if opening decision then geometry_error (hd_intent decision) else None) eqn:G;
    [apply ok_inj in H as <-; discriminate A|].
  destruct (risk_units decision policy) as [budget|[n d]] eqn:U; [|apply ok_inj in H as <-; discriminate A].
  apply rbind_inv_ok in H as (problem & P & H).
  destruct problem as [[n d]|]; [apply ok_inj in H as <-; discriminate A|]. apply ok_inj in H as <-.
  cbn. split_and!; [done | by intros O; rewrite O in G | |].
  - destruct (opening decision); rewrite ?app_nil_r, !Forall_app; split_and!; repeat constructor; done.
  - exists budget. split_and!; try done. intros O. by rewrite O in P.
Qed.

Lemma evaluate_approved decision positions risk_state policy r :
  evaluate decision positions risk_state policy = Ok r -> rd_status r = "approved" ->
  let intent := hd_intent decision in
  hd_ambiguous decision || str_in (hd_action decision) NON_ACTIONABLE_ACTIONS = false
  /\ precision_ok intent policy = true
  /\ exists account symbol mode checks,
     resolved_account decision policy = Some account
     /\ hi_instrument_symbol intent = Some symbol /\ str_in symbol (gp_instrument_whitelist policy) = true
     /\ risk_state ≫= gs_mode = Some mode
     /\ str_in (hd_message_type decision) UPDATE_MESSAGE_TYPES && opening decision = false
     /\ (updating decision = true -> update_problem decision positions account = None)
     /\ Forall (fun c => ch_passed c = true) checks
     /\ evaluate_risk decision positions risk_state policy account mode checks = Ok r.
Proof.
  intros H A intent. unfold evaluate in H. fold intent in H.
  destruct (_ || _) eqn:E1; [apply ok_inj in H as <-; discriminate A|].
  destruct (resolved_account decision policy) as [account|] eqn:E2; [|apply ok_inj in H as <-; discriminate A].
  destruct (is_empty _ || _) eqn:E3; [apply ok_inj in H as <-; discriminate A|]. apply orb_false_iff in E3 as [E3 E3'].
  destruct (hi_instrument_symbol intent) as [symbol|] eqn:I; [|discriminate E3].
  destruct (precision_ok intent policy) eqn:E4; [cbn [negb] in H|apply ok_inj in H as <-; discriminate A].
  destruct (risk_state ≫= gs_mode) as [mode|] eqn:E5; [|apply ok_inj in H as <-; discriminate A].
  destruct (str_in (hd_message_type decision) _ && _) eqn:E6; [apply ok_inj in H as <-; discriminate A|].
  destruct (if updating decision then _ else None) eqn:E7; [apply ok_inj in H as <-; discriminate A|].
  split_and!; try done. exists account, symbol, mode. eexists. split_and!; [..|exact H]; try done.
  - by apply negb_false_iff in E3'.
  - intros U. by rewrite U in E7.
  - destruct (updating decision); repeat constructor.
Qed.

Lemma update_problem_none decision positions account : update_problem decision positions account = None ->
  exists target p, hi_target_position_id (hd_intent decision) = Some target
    /\ update_matches decision positions account target = [p].
Proof.
  unfold update_problem, str_or. intros H. destruct (hi_target_position_id _) as [target|]; [|discriminate H].
  destruct (is_empty target); [discriminate H|]. exists target.
  destruct (update_matches decision positions account target) as [|p [|]]; try discriminate H. by exists p.
Qed.

(** C16. The governor approves a decision only if it is unambiguous and
    actionable, is for an account it names or the default one, and for an
    instrument of the whitelist whose risk state carries a mode that permits
    the action.  An opening never comes from an update message and never
    leaves ACTIVE; its stop and targets are ordered along its side and its
    exposures stay within the caps.  An update means exactly one position of
    the account.  The leverage the decision asks for, when it names one, the
    leverage and the risk fraction of the budget are within the policy, and
    every recorded check has passed. *)
Theorem governor_approves decision positions risk_state policy r :
  evaluate decision positions risk_state policy = Ok r -> rd_status r = "approved" ->
  let intent := hd_intent decision in
  hd_ambiguous decision = false /\ (hd_action decision ∉ NON_ACTIONABLE_ACTIONS)
  /\ precision_ok intent policy = true /\ Forall (fun c => ch_passed c = true) (rd_checks r)
  /\ exists account symbol mode budget,
     rd_account_id r = Some account /\ resolved_account decision policy = Some account
     /\ hi_instrument_symbol intent = Some symbol /\ rd_instrument_id r = Some symbol
     /\ symbol ∈ gp_instrument_whitelist policy
     /\ risk_state ≫= gs_mode = Some mode
     /\ halted_action_allowed (hd_action decision) (upper (if is_empty mode then "ACTIVE" else mode)) = Ok true
     /\ rd_risk_budget r = Some budget
     /\ (dval (rb_risk_fraction budget) <= dval (gp_max_risk_fraction policy))%Q
     /\ rb_max_notional budget = gp_max_notional policy
     /\ within_cap (rb_max_leverage budget) (gp_max_leverage policy)
     /\ (forall l, hi_leverage intent = Some l -> within_cap l (gp_max_leverage policy))
     /\ (hd_action decision ∈ OPENING_ACTIONS ->
          (hd_message_type decision ∉ UPDATE_MESSAGE_TYPES) /\ (mode = "" \/ upper mode = "ACTIVE")
          /\ geometry_sound intent
          /\ exposure_within decision positions risk_state policy account symbol budget)
     /\ (hd_action decision ∈ UPDATE_ACTIONS ->
          exists target p, hi_target_position_id intent = Some target
            /\ update_matches decision positions account target = [p]).
Proof.
  intros H A intent.
  destruct (evaluate_approved _ _ _ _ _ H A) as (Q & P & account & symbol & mode & checks & R & I & W & M & N & U & F & E).
  destruct (evaluate_risk_approved _ _ _ _ _ _ _ _ E A F) as (K & G & C & budget & B & X & Ra & Ri & Rb).
  destruct (risk_units_within _ _ _ B) as (B0 & B1 & B2 & B3). apply orb_false_iff in Q as [Q1 Q2].
  unfold governor_action_allowed in K. destruct (halted_action_allowed _ _) as [b|] eqn:Ha; [subst b|discriminate K].
  split_and!; [done | by apply str_in_false | done | done |].
  exists account, symbol, mode, budget. split_and!; try done; [congruence | by apply str_in_spec | |].
  - intros O. assert (Op : opening decision = true) by (by apply str_in_spec). rewrite Op, andb_true_r in N.
    split_and!; [by apply str_in_false | | by apply geometry_error_none, G | by apply exposure_problem_none; [|apply X]].
    apply (proj2 (halted_matrix _ _)) in Ha; [|exact O]. rewrite upper_idem in Ha. destruct mode; [by left | by right].
  - intros O. apply update_problem_none, U. by apply str_in_spec.
Qed.

(** A whitelisted long on a flat account, and the two openings the caps and the
    mode do not stop: a position whose notional is not a number compares below
    every cap, and an empty mode counts as ACTIVE. *)
Definition sample_intent : Intent := {|
  hi_target_account_id := Some "account-a"; hi_target_position_id := None; hi_instrument_symbol := Some "BTCUSDT";
  hi_side := Some "long";
  hi_entry := {| en_type := "limit"; en_price := Some (XFin (Dec 60000 0)); en_price_min := None; en_price_max := None |};
  hi_stop_loss := Some (XFin (Dec 59000 0)); hi_take_profits := [Dec 61000 0; Dec 6250050 (-2)];
  hi_leverage := Some (XFin (Dec 5 0)); hi_valid_until := None;
  hi_sizing := {| sg_notional := None; sg_max_notional := None; sg_quantity := None |} |}.

Definition sample_decision : Decision :=
  {| hd_message_type := "new_signal"; hd_action := "open_position"; hd_ambiguous := false; hd_intent := sample_intent |}.

Definition sample_position (notional : xdec) : Position :=
  {| gq_account_id := Some "account-a"; gq_position_id := Some "p1"; gq_instrument_id := Some "BTCUSDT-PERP.BINANCE";
     gq_notional := Some notional |}.

Definition sample_status (notional : xdec) (mode : string) : result string :=
  r ← evaluate sample_decision [sample_position notional]
        (Some {| gs_mode := Some mode; gs_open_risk_fraction := None |}) default_policy;
  Ok (rd_status r).

Example caps_hold : sample_status (XFin (Dec 500001 (-1))) "ACTIVE" = Ok "rejected".
Proof. vm_compute. reflexivity. Qed.

Lemma nan_notional_passes : sample_status XNaN "ACTIVE" = Ok "approved".
Proof. vm_compute. reflexivity. Qed.

Lemma empty_mode_is_active : sample_status (XFin dzero) "" = Ok "approved".
Proof. vm_compute. reflexivity. Qed.

Lemma governor_approves_witness :
  exists r account, evaluate sample_decision [sample_position (XFin (Dec 49999 0))]
      (Some {| gs_mode := Some "active"; gs_open_risk_fraction := Some (XFin (Dec 8 (-2))) |}) default_policy = Ok r
    /\ rd_account_id r = Some account
    /\ within_cap (fadd (open_notional [sample_position (XFin (Dec 49999 0))] account (instruments_match (Some "BTCUSDT")))
                    (float_of_xdec (XFin (Dec 50000 0)))) (Dec 100000 0).
Proof.
  assert (S : match evaluate sample_decision [sample_position (XFin (Dec 49999 0))]
      (Some {| gs_mode := Some "active"; gs_open_risk_fraction := Some (XFin (Dec 8 (-2))) |}) default_policy with
      | Ok r => String.eqb (rd_status r) "approved" | _ => false end = true) by (vm_compute; reflexivity).
  destruct (evaluate _ _ _ _) as [r|] eqn:E; [|discriminate S]. apply String.eqb_eq in S.
  destruct (governor_approves _ _ _ _ _ E S) as (_ & _ & _ & _ & account & symbol & mode & budget & A & _ & I & _ & _ & _ & _ & _ & _
    & N & _ & _ & O & _).
  exists r, account. split; [reflexivity|]. split; [exact A|].
  destruct O as (_ & _ & _ & proposed & P & X & _); [left|]. injection I as <-.
  assert (Q : proposed = XFin (rb_max_notional budget)) by (unfold proposed_notional in P; cbn in P; by injection P).
  rewrite Q, N in X. exact X.
Defined.
