(* ===== verification/Gateway.v ===== *)
(** * Gateway: from a Hermes decision to an approved intent

    Models services/control-plane/decision_gateway/gateway.py: the oldest
    decision without an outcome is checked, judged by the governor, held when
    the projection or the rollout does not allow it, and its outcome recorded;
    an approved one becomes a trade intent with its execution job in the same
    transaction.  The JSON-schema validator is a parameter: the first error it
    reports for a document, in the order of its paths.  Advisory and table
    locks are represented by running the transaction alone. *)

From Stdlib Require Import ZArith Lia Ascii.
From S2P Require Import Prelude Decimal PyString DecText PyValue PyTime Store Identifiers StateDescriptor Sha256 ExecutionJobs OwnershipLedger Binary64 Governor.
Open Scope string_scope.
Open Scope Z_scope.

Definition LIVE_OPEN_ACTIONS : list string := ["open_position"; "add_position"].
Definition ROLLOUT_PHASE_FLEET_COMPLETE : string := "fleet_complete".
Definition ROLLOUT_PHASE_ABORTED : string := "aborted".
Definition LIVE_OPEN_GATED_ACCOUNTS : list string := ["account-a"; "account-b"; "account-c"; "account-d"].
Definition ROLLOUT_PHASES : list string :=
  ["account_a_canary"; "account_b_rollout"; "account_c_rollout"; "account_d_rollout"; ROLLOUT_PHASE_FLEET_COMPLETE].

Definition GatewayError (msg : string) : exn := RuntimeError "GatewayError" msg.

(** ** Rows as documents *)

(** A JSON number of a column, [null] when it is absent. *)
Definition py_float (x : xdec) : pyval := match x with XFin d => PFloat d | x => PDec x end.
Definition opt_num (v : option xdec) : pyval := from_option (fun x => py_float (float_of_xdec x)) PNone v.
Definition opt_text (v : option string) : pyval := from_option PStr PNone v.

(** [_row_to_decision] *)
Definition row_to_decision (decision_id : string) (row : hermes_row) : dict :=
  ([("schema_version", PStr (hm_schema_version row));
    ("decision_id", PStr decision_id);
    ("raw_message_id", PStr (hm_raw_message_id row));
    ("processing_run_id", PStr (hm_processing_run_id row));
    ("context_snapshot_id", PStr (hm_context_snapshot_id row));
    ("classification", PDict [
       ("message_type", PStr (hm_message_type row)); ("action", PStr (hm_action row));
       ("ambiguous", PBool (hm_ambiguous row)); ("ambiguity_reasons", hm_ambiguity_reasons row)]);
    ("intent", PDict [
       ("account_scope", PStr (hm_account_scope row));
       ("target_account_id", opt_text (hm_target_account_id row));
       ("target_position_id", opt_text (hm_target_position_id row));
       ("instrument_symbol", opt_text (hm_instrument_symbol row));
       ("side", opt_text (hm_side row));
       ("entry", PDict [
          ("type", PStr (hm_entry_type row)); ("price", opt_num (hm_entry_price row));
          ("price_min", opt_num (hm_entry_price_min row)); ("price_max", opt_num (hm_entry_price_max row))]);
       ("stop_loss", opt_num (hm_stop_loss row));
       ("take_profits", PList (hm_take_profits row));
       ("leverage", opt_num (hm_leverage row));
       ("valid_until", opt_text (isoformat <$> hm_valid_until row))]);
    ("evidence", hm_evidence row);
    ("model", PDict [
       ("provider", PStr (hm_model_provider row)); ("model_version", PStr (hm_model_version row));
       ("prompt_version", PStr (hm_prompt_version row));
       ("temperature", py_float (float_of_xdec (hm_temperature row)))]);
    ("created_at", PStr (isoformat (hm_created_at row)))]
   ++ match hm_confidence row with
      | Some c => [("confidence", py_float (float_of_xdec c))]
      | None => []
      end)%list.

(** A number of a validated document. *)
Definition json_number (v : pyval) : result dec :=
  match v with
  | PInt z => Ok (dec_of_int z)
  | PFloat d => Ok d
  | _ => Raise (TypeError "must be real number")
  end.

(** The decision as the governor reads it; a validated document has no sizing. *)
Definition governed (row : hermes_row) : result Decision :=
  take_profits ← mapR json_number (hm_take_profits row);
  let num v := float_of_xdec <$> v in
  Ok {| hd_message_type := hm_message_type row; hd_action := hm_action row; hd_ambiguous := hm_ambiguous row;
        hd_intent := {|
          hi_target_account_id := hm_target_account_id row; hi_target_position_id := hm_target_position_id row;
          hi_instrument_symbol := hm_instrument_symbol row; hi_side := hm_side row;
          hi_entry := {| en_type := hm_entry_type row; en_price := num (hm_entry_price row);
                         en_price_min := num (hm_entry_price_min row); en_price_max := num (hm_entry_price_max row) |};
          hi_stop_loss := num (hm_stop_loss row); hi_take_profits := take_profits;
          hi_leverage := num (hm_leverage row); hi_valid_until := isoformat <$> hm_valid_until row;
          hi_sizing := {| sg_notional := None; sg_max_notional := None; sg_quantity := None |} |} |}.

(** ** What the governor is given *)

(** [_load_positions] *)
Definition load_positions (account_id : string) (d : Db) : list Position :=
  omap (fun p => let '((account, position_id), r) := p in
    if String.eqb account account_id && String.eqb (po_status r) "open" then
      let quantity := float_or_zero (float_of_xdec <$> Some (po_quantity r)) in
      let price := float_or_zero (float_of_xdec <$> po_avg_entry_price r) in
      Some {| gq_account_id := Some account; gq_position_id := Some position_id;
              gq_instrument_id := Some (po_instrument_id r); gq_notional := Some (fmul quantity price) |}
    else None) (map_to_list (positions_projection d)).

(** [_load_risk_state]; the mode of a state is text, as [set_mode] writes it. *)
Definition load_risk_state (account_id instrument : string) (d : Db) : option RiskState :=
  r ← risk_state d !! (account_id, instrument);
  Some {| gs_mode := match dlookup "mode" (rs_state r) with
                     | None => Some "ACTIVE"
                     | Some (PStr mode) => Some mode
                     | Some _ => None
                     end;
          gs_open_risk_fraction := Some (float_or_zero (float_of_xdec <$> Some (rs_open_risk_fraction r))) |}.

(** [_projection_is_stale], with the default threshold of a minute. *)
Definition projection_is_stale (now : Z) (d : Db) : bool :=
  match map snd (map_to_list (node_heartbeats d)) with
  | [] => true
  | t :: ts => seconds 60 <? now - fold_left Z.max ts t
  end.

(** [_freshness_problem] *)
Definition freshness_problem (row : hermes_row) (policy : RiskPolicy) (now : Z) : option string :=
  let age := now - hm_created_at row in
  if seconds (gp_freshness_seconds policy) <? age
  then Some ("decision_stale: age " +:+ int_str (Z.quot age 1000000) +:+ "s > freshness "
               +:+ int_str (gp_freshness_seconds policy) +:+ "s")
  else
    match hm_valid_until row with
    | Some valid_until =>
        match ensure_aware now (TsText (isoformat valid_until)) with
        | Raise _ => Some ("decision_valid_until_unparseable: " +:+ isoformat valid_until)
        | Ok vu =>
            if vu <? now then Some ("decision_expired: valid_until " +:+ isoformat valid_until +:+ " passed") else None
        end
    | None => None
    end.

(** ** Writing the outcome *)

Definition check_payload (c : Check) : pyval :=
  PDict ([("name", PStr (ch_name c)); ("passed", PBool (ch_passed c))]
         ++ match ch_detail c with Some d => [("detail", PStr d)] | None => [] end)%list.

Definition budget_payload (b : option RiskBudget) : dict :=
  match b with
  | None => []
  | Some b => [("risk_fraction", PFloat (rb_risk_fraction b)); ("max_notional", PFloat (rb_max_notional b));
               ("max_leverage", py_float (rb_max_leverage b))]
  end.

(** [_idempotency_key] *)
Definition gateway_idempotency_key (decision_id : string) (row : hermes_row) (outcome : RiskDecision) : string :=
  sha256_hex (join "|" [decision_id; hm_action row; default "" (rd_instrument_id outcome);
                        default "" (rd_account_id outcome)]).

(** [_raw_message_authorization] *)
Definition raw_message_authorization (row : hermes_row) : M Conn dict :=
  raw_message ← select (fun d => raw_messages d !! hm_raw_message_id row);
  match raw_message with
  | None => mraise (GatewayError "raw message authorization source missing")
  | Some m =>
      let source := lower (strip (rm_source m)) in
      let channel_id := strip (rm_channel_id m) in
      let source_message_id := strip (rm_source_message_id m) in
      let author_id := strip (default "" (rm_author_id m)) in
      if is_empty source_message_id then mraise (GatewayError "raw message source_message_id missing")
      else
        let user_source := str_in source ["user"; "operator"; "manual"] in
        let authorized_by_type := if user_source then "user" else "channel" in
        let authorized_by_id := if user_source && negb (is_empty author_id) then author_id else channel_id in
        if is_empty authorized_by_id then mraise (GatewayError "raw message authorization identity missing")
        else mret ([("authorized_by_type", PStr authorized_by_type); ("authorized_by_id", PStr authorized_by_id);
                    ("source_message_id", PStr source_message_id);
                    ("created_by_service", PStr "decision-gateway"); ("parent_intent_id", PBool false)]
                   ++ if user_source then [] else [("channel_id", PStr channel_id)])%list
  end.

(** The rollout the gate reads. *)
Record LiveOpenGate := { lg_mode : string; lg_release_id : string; lg_rollout_phase : string; lg_phase_version : Z }.

Definition gate_payload (g : LiveOpenGate) : dict :=
  [("mode", PStr (lg_mode g)); ("release_id", PStr (lg_release_id g)); ("rollout_phase", PStr (lg_rollout_phase g));
   ("phase_version", PInt (lg_phase_version g))].

(** [ORDER BY created_at DESC, release_id DESC LIMIT 1] *)
Definition newer_rollout (a b : rollout_row) : bool :=
  (ro_created_at b <? ro_created_at a)
  || ((ro_created_at a =? ro_created_at b) && String.leb (ro_release_id b) (ro_release_id a)).

Definition latest_rollout (d : Db) : option rollout_row := hd_error (sort_by newer_rollout (reviewed_release_rollouts d)).

(** [_current_live_open_gate] *)
Definition current_live_open_gate : M Conn (option LiveOpenGate) :=
  row ← select latest_rollout;
  match row with
  | None => mret None
  | Some row =>
      let release_id := strip (ro_release_id row) in
      let rollout_phase := strip (ro_phase row) in
      if String.eqb rollout_phase ROLLOUT_PHASE_ABORTED then mret None
      else if is_empty release_id || negb (str_in rollout_phase ROLLOUT_PHASES) || (ro_phase_version row <? 1)
      then mraise (GatewayError "reviewed release rollout state is invalid")
      else mret (Some {| lg_mode := if String.eqb rollout_phase ROLLOUT_PHASE_FLEET_COMPLETE then "normal" else "canary_only";
                         lg_release_id := release_id; lg_rollout_phase := rollout_phase;
                         lg_phase_version := ro_phase_version row |})
  end.

(** [_live_open_gate_detail] *)
Definition live_open_gate_detail (g : LiveOpenGate) : string :=
  "release_id=" +:+ lg_release_id g +:+ " rollout_phase=" +:+ lg_rollout_phase g
  +:+ " phase_version=" +:+ int_str (lg_phase_version g) +:+ " mode=" +:+ lg_mode g.

(** An outcome with another check, and one held for review. *)
Definition checked (c : Check) (o : RiskDecision) : RiskDecision := {|
  rd_status := rd_status o; rd_account_id := rd_account_id o; rd_instrument_id := rd_instrument_id o;
  rd_risk_budget := rd_risk_budget o; rd_reason := rd_reason o; rd_checks := (rd_checks o ++ [c])%list |}.

Definition held (reason : string) (c : Check) (o : RiskDecision) : RiskDecision := {|
  rd_status := "needs_review"; rd_account_id := rd_account_id o; rd_instrument_id := rd_instrument_id o;
  rd_risk_budget := rd_risk_budget o; rd_reason := reason; rd_checks := (rd_checks o ++ [c])%list |}.

(** [_apply_live_open_rollout_gate] *)
Definition apply_live_open_rollout_gate (row : hermes_row) (outcome : RiskDecision)
  : M Conn (RiskDecision * option LiveOpenGate) :=
  if negb (String.eqb (rd_status outcome) "approved") || negb (str_in (hm_action row) LIVE_OPEN_ACTIONS)
  then mret (outcome, None)
  else if negb (str_in (strip (default "" (rd_account_id outcome))) LIVE_OPEN_GATED_ACCOUNTS)
  then mret (outcome, None)
  else
    gate ← current_live_open_gate;
    let check passed detail := {| ch_name := "live_open_gate"; ch_passed := passed; ch_detail := Some detail |} in
    match gate with
    | None =>
        mret (held "live_open_gate_unavailable: reviewed release rollout missing"
                (check false "reviewed release rollout missing") outcome, None)
    | Some gate =>
        if String.eqb (lg_mode gate) "normal"
        then mret (checked (check true (live_open_gate_detail gate)) outcome, Some gate)
        else mret (held ("live_open_gate_canary_only: opening action held until "
                         +:+ "fleet_complete; canary opens require the operator permit path")
                     (check false (live_open_gate_detail gate)) outcome, Some gate)
    end.

(** [_write_trade_intent] *)
Definition write_trade_intent (decision_id : string) (row : hermes_row) (outcome : RiskDecision) (policy : RiskPolicy)
    (risk_decision_id : string) (live_open_gate : option LiveOpenGate) : M Conn string :=
  let idempotency_key := gateway_idempotency_key decision_id row outcome in
  existing ← select (fun d =>
    List.find (fun p => String.eqb (ti_idempotency_key (snd p)) idempotency_key) (map_to_list (trade_intents d)));
  match existing with
  | Some (intent_id, _) => mret intent_id
  | None =>
      authorization ← raw_message_authorization row;
      let decision := row_to_decision decision_id row in
      let intent := as_dict (dget "intent" decision) in
      let order_plan :=
        ([("side", dget "side" intent); ("entry", dget "entry" intent); ("stop_loss", dget "stop_loss" intent);
          ("take_profits", dget "take_profits" intent); ("leverage", dget "leverage" intent);
          ("authorization", PDict authorization)]
         ++ match live_open_gate with Some g => [("live_open_gate", PDict (gate_payload g))] | None => [] end)%list in
      intent_id ← uuid4;
      now ← get_now;
      let intent_row := {|
        ti_hermes_decision_id := decision_id; ti_risk_decision_id := risk_decision_id;
        ti_account_id := default "" (rd_account_id outcome); ti_instrument_id := default "" (rd_instrument_id outcome);
        ti_action := hm_action row; ti_status := "approved"; ti_order_plan := order_plan;
        ti_risk_budget := budget_payload (rd_risk_budget outcome); ti_target_position_id := hm_target_position_id row;
        ti_valid_until := default (now + seconds (gp_intent_ttl_seconds policy)) (hm_valid_until row);
        ti_idempotency_key := idempotency_key; ti_approved_at := Some now; ti_updated_at := now |} in
      _ ← execute (set_trade_intents (<[intent_id := intent_row]>));
      outbox_id ← uuid4;
      _ ← execute (set_outbox_events (fun t => (t ++ [{|
            ob_id := outbox_id; ob_status := "pending"; ob_aggregate_type := "trade_intent";
            ob_aggregate_id := intent_id; ob_event_type := "trade_intent.approved";
            ob_payload := [("intent_id", PStr intent_id); ("risk_decision_id", PStr risk_decision_id);
                           ("authorization", PDict authorization)];
            ob_trace_id := None; ob_attempts := 0; ob_next_attempt_at := None; ob_published_at := None;
          ob_failed_at := None; ob_error := None; ob_created_at := now |}])%list));
      mret intent_id
  end.

Record GatewayOutcome := {
  go_risk_decision_id : string;
  go_status : string;
  go_reason : string;
  go_intent_id : option string }.

(** [_write_outcome]; [approve] holds the policy and the gate of a decision
    that reached the governor. *)
Definition write_outcome (decision_id : string) (row : hermes_row) (outcome : RiskDecision)
    (approve : option (RiskPolicy * option LiveOpenGate)) : M Conn GatewayOutcome :=
  risk_decision_id ← uuid4;
  _ ← execute (set_risk_decisions (fun t => (t ++ [{|
        rk_id := risk_decision_id; rk_hermes_decision_id := decision_id; rk_status := rd_status outcome;
        rk_account_id := default "unassigned" (str_or (rd_account_id outcome) None);
        rk_instrument_id := rd_instrument_id outcome; rk_risk_budget := budget_payload (rd_risk_budget outcome);
        rk_checks := map check_payload (rd_checks outcome); rk_reason := rd_reason outcome |}])%list));
  intent_id ← match approve with
              | Some (policy, live_open_gate) =>
                  if String.eqb (rd_status outcome) "approved" then
                    intent_id ← write_trade_intent decision_id row outcome policy risk_decision_id live_open_gate;
                    _ ← create_execution_job_for_approved_intent intent_id None None true false;
                    mret (Some intent_id)
                  else mret None
              | None => mret None
              end;
  mret {| go_risk_decision_id := risk_decision_id; go_status := rd_status outcome; go_reason := rd_reason outcome;
          go_intent_id := intent_id |}.

(** ** One decision *)

(** The decisions without an outcome, oldest first. *)
Definition pending (d : Db) : list (string * hermes_row) :=
  List.filter (fun p => negb (existsb (fun r => String.eqb (rk_hermes_decision_id r) (fst p)) (risk_decisions d)))
    (map_to_list (hermes_decisions d)).

Definition older_decision (a b : string * hermes_row) : bool :=
  (hm_created_at (snd a) <? hm_created_at (snd b))
  || ((hm_created_at (snd a) =? hm_created_at (snd b)) && String.leb (fst a) (fst b)).

Section process.
(** The first error of a document in path order: its path and message. *)
Context (schema_error : dict -> option (list string * string)) (policy : RiskPolicy).

(** An outcome before the governor. *)
Definition unjudged (status : string) (row : hermes_row) (name reason : string) : RiskDecision := {|
  rd_status := status; rd_account_id := None; rd_instrument_id := hm_instrument_symbol row; rd_risk_budget := None;
  rd_reason := reason; rd_checks := [{| ch_name := name; ch_passed := false; ch_detail := None |}] |}.

(** What the governor makes of a decision, held when the projection is stale. *)
Definition judged (row : hermes_row) (now : Z) (d : Db) : result RiskDecision :=
  decision ← governed row;
  let account_id := str_or (str_or (hm_target_account_id row) (gp_default_account_id policy)) None in
  let positions := from_option (fun a => load_positions a d) [] account_id in
  let risk_state :=
    match account_id, str_or (hm_instrument_symbol row) None with
    | Some a, Some i => load_risk_state a i d
    | _, _ => None
    end in
  outcome ← evaluate decision positions risk_state policy;
  Ok (if String.eqb (rd_status outcome) "approved" && projection_is_stale now d
      then held "context_stale: approval held pending fresh projection"
             {| ch_name := "context_freshness"; ch_passed := false; ch_detail := None |} outcome
      else outcome).

Definition process_row (decision_id : string) (row : hermes_row) : M Conn GatewayOutcome :=
  if negb (String.eqb (hm_model_provider row) "hermes")
  then write_outcome decision_id row (unjudged "rejected" row "provenance" "non-hermes decision provenance") None
  else
    match schema_error (row_to_decision decision_id row) with
    | Some (path, message) =>
        write_outcome decision_id row
          (unjudged "rejected" row "schema"
             ("schema invalid $" +:+ foldr (fun p acc => "." +:+ p +:+ acc) "" path +:+ ": " +:+ message)) None
    | None =>
        now ← get_now;
        match freshness_problem row policy now with
        | Some stale => write_outcome decision_id row (unjudged "needs_review" row "freshness" stale) None
        | None =>
            d ← select (fun d => d);
            outcome ← mlift (judged row now d);
            '(outcome, live_open_gate) ← apply_live_open_rollout_gate row outcome;
            write_outcome decision_id row outcome (Some (policy, live_open_gate))
        end
    end.

Definition process_one_decision : M Conn (option GatewayOutcome) :=
  transaction (
    row ← select (fun d => hd_error (sort_by older_decision (pending d)));
    match row with
    | None => mret None
    | Some (decision_id, row) => outcome ← process_row decision_id row; mret (Some outcome)
    end).

End process.

(** ** What a step leaves alone *)

Definition same_decisions (d d' : Db) : Prop :=
  hermes_decisions d' = hermes_decisions d /\ risk_decisions d' = risk_decisions d.

Lemma same_decisions_trans d1 d2 d3 : same_decisions d1 d2 -> same_decisions d2 d3 -> same_decisions d1 d3.
Proof. intros [A B] [C D]. split; congruence. Qed.

Lemma job_decisions i now q b m s r s' :
  create_execution_job_for_approved_intent i now q b m s = (Ok r, s') -> same_decisions (current s) (current s').
Proof.
  intros H. unfold create_execution_job_for_approved_intent in H.
  assert (T : exists s1, create_work i now q b s = (Ok r, s1) /\ current s' = current s1).
  { destruct m; cbn in H; [apply transaction_inv_ok in H as (s1 & H & ->)|]; eauto. }
  destruct T as (s1 & W & ->). clear H. unfold create_work in W. run_inv.
  destruct (trade_intents (current s) !! i) as [row|]; run_inv. destruct (negb _); run_inv.
  repeat match goal with
  | H : build_execution_job_request _ _ _ _ _ = _ |- _ => apply build_request_inv in H as (? & _)
  | H : insert_execution_job _ _ = _ |- _ => unfold insert_execution_job in H; run_inv
  | H : (if existsb _ _ then _ else _) _ = _ |- _ => destruct (existsb _ _); run_inv
  | H : (if b then _ else _) _ = _ |- _ => destruct b; run_inv
  | H : ensure_risk_reservation _ _ = _ |- _ => unfold ensure_risk_reservation in H; run_inv
  | H : enqueue_order_management_event _ _ _ _ _ _ _ = _ |- _ => unfold enqueue_order_management_event in H; run_inv
  | H : inject_trace_context _ _ _ = _ |- _ => apply inject_trace_frame in H as [? _]
  | H : match ?q with Some _ => _ | None => _ end ?t = (Ok _, ?t') |- _ => destruct q; run_inv
  end; split; run_frame; done.
Qed.

(** ** Writing an outcome *)

(** What an intent row owes to the decision and the outcome it comes from. *)
Definition intent_of (decision_id : string) (row : hermes_row) (outcome : RiskDecision) (rid : string)
    (ti : intent_row) : Prop :=
  ti_hermes_decision_id ti = decision_id /\ ti_risk_decision_id ti = rid /\ ti_status ti = "approved"
  /\ ti_account_id ti = default "" (rd_account_id outcome)
  /\ ti_instrument_id ti = default "" (rd_instrument_id outcome)
  /\ ti_action ti = hm_action row /\ ti_target_position_id ti = hm_target_position_id row
  /\ ti_risk_budget ti = budget_payload (rd_risk_budget outcome)
  /\ (forall t, hm_valid_until row = Some t -> ti_valid_until ti = t).

(** The intent stored under the key of a decision: found, or new. *)
Definition intent_written (decision_id : string) (row : hermes_row) (outcome : RiskDecision) (rid i : string)
    (d d' : Db) : Prop :=
  exists ti, ti_idempotency_key ti = gateway_idempotency_key decision_id row outcome
    /\ trade_intents d' = <[i := ti]> (trade_intents d)
    /\ (trade_intents d !! i = Some ti \/ intent_of decision_id row outcome rid ti).

Lemma authorization_inv row s a s' : raw_message_authorization row s = (Ok a, s') -> s' = s.
Proof.
  unfold raw_message_authorization. intros H. apply mbind_inv_ok in H as (m & s1 & H1 & H).
  apply select_inv in H1 as [-> ->]. destruct (raw_messages _ !! _); [|discriminate H]. cbv zeta in H.
  repeat (match type of H with (if ?b then _ else _) _ = _ => destruct b end; [discriminate H|]).
  by apply mret_inv in H as [_ ->].
Qed.

Lemma write_intent_inv decision_id row outcome policy rid gate s i s' :
  write_trade_intent decision_id row outcome policy rid gate s = (Ok i, s') ->
  same_decisions (current s) (current s')
  /\ intent_written decision_id row outcome rid i (current s) (current s')
  /\ execution_jobs (current s') = execution_jobs (current s).
Proof.
  unfold write_trade_intent. intros H. apply mbind_inv_ok in H as (e & s1 & H1 & H).
  apply select_inv in H1 as [-> ->].
  destruct (List.find _ _) as [[i' ti]|] eqn:F.
  - apply mret_inv in H as [<- <-]. split; [done|]. split; [|done]. exists ti. apply List.find_some in F as [F K].
    apply list_elem_of_In, elem_of_map_to_list in F. split; [by apply String.eqb_eq in K|].
    split; [by rewrite insert_id | by left].
  - apply mbind_inv_ok in H as (a & s1 & H1 & H). apply authorization_inv in H1 as ->. run_inv.
    split_and!; [split; by run_frame | | by run_frame]. eexists. split; [|split; [by run_frame | right]]; [done|].
    split_and!; try done. intros t Ht. cbn. by rewrite Ht.
Qed.

Lemma write_outcome_inv decision_id row outcome approve s o s' :
  write_outcome decision_id row outcome approve s = (Ok o, s') ->
  go_status o = rd_status outcome
  /\ hermes_decisions (current s') = hermes_decisions (current s)
  /\ (exists rd, risk_decisions (current s') = (risk_decisions (current s) ++ [rd])%list
       /\ rk_id rd = go_risk_decision_id o /\ rk_hermes_decision_id rd = decision_id
       /\ rk_status rd = rd_status outcome)
  /\ match go_intent_id o with
     | None => trade_intents (current s') = trade_intents (current s)
               /\ execution_jobs (current s') = execution_jobs (current s)
     | Some i => rd_status outcome = "approved" /\ approve <> None
         /\ intent_written decision_id row outcome (go_risk_decision_id o) i (current s) (current s')
         /\ exists r, has_job r (current s') = true /\ has_outbox r (current s') = true
              /\ has_reservation r (current s') = true
              /\ (forall ti, trade_intents (current s') !! i = Some ti -> jr_account_id r = ti_account_id ti)
     end.
Proof.
  unfold write_outcome. intros H.
  apply mbind_inv_ok in H as (rid & s1 & H1 & H). apply uuid4_inv in H1 as [C1 _].
  apply mbind_inv_ok in H as ([] & s2 & H2 & H). apply execute_inv in H2 as [C2 _]. rewrite C1 in C2.
  assert (R : exists rd, risk_decisions (current s2) = (risk_decisions (current s) ++ [rd])%list /\ rk_id rd = rid
    /\ rk_hermes_decision_id rd = decision_id /\ rk_status rd = rd_status outcome)
    by (rewrite C2; by eexists).
  apply mbind_inv_ok in H as (i & s3 & H3 & H). apply mret_inv in H as [<- <-].
  cbn [go_status go_intent_id go_risk_decision_id].
  destruct (match approve with Some _ => String.eqb (rd_status outcome) "approved" | None => false end) eqn:A.
  2:{ assert (X : i = None /\ s3 = s2).
      { destruct approve as [[policy gate]|]; [rewrite A in H3|]; by apply mret_inv in H3 as [<- <-]. }
      destruct X as [-> ->]. rewrite C2 in *. done. }
  destruct approve as [[policy gate]|]; [|discriminate A]. rewrite A in H3.
  apply mbind_inv_ok in H3 as (i' & s4 & H3 & H4). apply mbind_inv_ok in H4 as (r & s5 & H4 & H5).
  apply mret_inv in H5 as [<- <-].
  apply write_intent_inv in H3 as ([W1 W2] & (ti & K & T & W) & _).
  pose proof (job_decisions _ _ _ _ _ _ _ _ H4) as [J1 J2].
  cbn in H4. apply create_work_inv in H4 as (row' & L & _ & _ & Ac & Tr & J & O & Rs & _).
  split_and!; [done | by rewrite J1, W1, C2 | by rewrite J2, W2 | by apply String.eqb_eq | done | |].
  - exists ti. rewrite Tr, T, C2. split_and!; [done | done |]. rewrite C2 in W. exact W.
  - exists r. split_and!; [done | done | by apply Rs |]. intros ti' L'. rewrite Tr, L in L'. congruence.
Qed.

(** ** The queue of decisions *)

Lemma older_total a b : older_decision a b = true \/ older_decision b a = true.
Proof.
  unfold older_decision. destruct (Z.lt_trichotomy (hm_created_at (snd a)) (hm_created_at (snd b))) as [H|[H|H]].
  - left. by rewrite (proj2 (Z.ltb_lt _ _) H).
  - rewrite H, Z.eqb_refl. destruct (String.leb_total (fst a) (fst b)) as [->| ->]; rewrite !orb_true_r; auto.
  - right. by rewrite (proj2 (Z.ltb_lt _ _) H).
Qed.

Lemma older_trans : Transitive (fun a b => older_decision a b = true).
Proof.
  intros a b c. unfold older_decision. rewrite !orb_true_iff, !andb_true_iff, !Z.ltb_lt, !Z.eqb_eq.
  intros [H|[H L]] [K|[K M]]; [left; lia..|]. right. split; [lia|]. by eapply leb_string_trans.
Qed.

Lemma pending_snoc d d' rd : hermes_decisions d' = hermes_decisions d ->
  risk_decisions d' = (risk_decisions d ++ [rd])%list ->
  pending d' = List.filter (fun p => negb (String.eqb (rk_hermes_decision_id rd) (fst p))) (pending d).
Proof.
  intros H R. unfold pending. rewrite H, R. induction (map_to_list (hermes_decisions d)) as [|p l IH]; [done|].
  cbn [List.filter]. rewrite existsb_app. cbn [existsb]. rewrite orb_false_r, negb_orb, IH.
  destruct (existsb _ (risk_decisions d)); cbn [negb andb]; [done|]. cbn [List.filter]. by destruct (String.eqb _ _).
Qed.

Lemma filter_one {A} (k : A -> string) (l : list A) p :
  NoDup (map k l) -> p ∈ l -> S (length (List.filter (fun q => negb (String.eqb (k p) (k q))) l)) = length l.
Proof.
  induction l as [|q l IH]; cbn; intros N I; [by inversion I|]. inversion N as [|? ? Nq N']; subst.
  apply elem_of_cons in I as [->|I].
  - rewrite String.eqb_refl. cbn. f_equal. clear -Nq. induction l as [|r l IH]; [done|]. cbn in *.
    apply not_elem_of_cons in Nq as [X Y]. apply String.eqb_neq in X. rewrite X. cbn. by rewrite IH.
  - assert (X : k p <> k q) by (intros E; apply Nq; rewrite <- E; apply list_elem_of_In, in_map; by apply list_elem_of_In).
    apply String.eqb_neq in X. rewrite X. cbn. by rewrite IH.
Qed.

Lemma nodup_filter_keys {A} (k : A -> string) f (l : list A) : NoDup (map k l) -> NoDup (map k (List.filter f l)).
Proof.
  induction l as [|x l IH]; cbn; intros N; [done|]. inversion N as [|? ? Nx N']; subst. destruct (f x); [|by apply IH].
  cbn. constructor; [|by apply IH]. intros I. apply Nx. apply list_elem_of_In, in_map_iff in I as (y & E & I).
  apply filter_In in I as [I _]. rewrite <- E. apply list_elem_of_In, in_map. done.
Qed.

Lemma pending_keys d : NoDup (map fst (pending d)).
Proof. apply nodup_filter_keys. apply (NoDup_fst_map_to_list (hermes_decisions d)). Qed.

(** ** The gate and the judgement *)

(** The outcome the gate lets through: the judged one, on a completed rollout
    when it opens risk on a gated account. *)
Definition gate_passed (row : hermes_row) (outcome outcome' : RiskDecision) (d : Db) : Prop :=
  rd_status outcome = "approved"
  /\ rd_account_id outcome' = rd_account_id outcome /\ rd_instrument_id outcome' = rd_instrument_id outcome
  /\ rd_risk_budget outcome' = rd_risk_budget outcome
  /\ (hm_action row ∈ LIVE_OPEN_ACTIONS ->
      strip (default "" (rd_account_id outcome)) ∈ LIVE_OPEN_GATED_ACCOUNTS ->
      exists rollout, latest_rollout d = Some rollout /\ strip (ro_phase rollout) = ROLLOUT_PHASE_FLEET_COMPLETE).

Lemma current_gate_inv s g s' : current_live_open_gate s = (Ok g, s') ->
  s' = s /\ forall gate, g = Some gate -> lg_mode gate = "normal" ->
    exists rollout, latest_rollout (current s) = Some rollout /\ strip (ro_phase rollout) = ROLLOUT_PHASE_FLEET_COMPLETE.
Proof.
  unfold current_live_open_gate. intros H. apply mbind_inv_ok in H as (row & s1 & H1 & H).
  apply select_inv in H1 as [-> ->]. destruct (latest_rollout (current s)) as [ro|].
  2:{ apply mret_inv in H as [<- <-]. by split. }
  destruct (String.eqb (strip (ro_phase ro)) ROLLOUT_PHASE_ABORTED); [apply mret_inv in H as [<- <-]; by split|].
  destruct (is_empty (strip (ro_release_id ro)) || _ || _); [discriminate H|]. apply mret_inv in H as [<- <-].
  split; [done|]. intros gate [= <-] M. cbn in M. exists ro. split; [done|].
  destruct (String.eqb_spec (strip (ro_phase ro)) ROLLOUT_PHASE_FLEET_COMPLETE); done.
Qed.

Lemma apply_gate_inv row o s o' g s' :
  apply_live_open_rollout_gate row o s = (Ok (o', g), s') ->
  s' = s /\ (rd_status o' = "approved" -> gate_passed row o o' (current s)).
Proof.
  unfold apply_live_open_rollout_gate. intros H.
  destruct (negb (String.eqb (rd_status o) "approved") || _) eqn:E1.
  { apply mret_inv in H as [[= <- <-] <-]. split; [done|]. intros A. rewrite A in E1. cbn in E1.
    apply negb_true_iff, str_in_false in E1. by split_and!. }
  apply orb_false_iff in E1 as [E1 E2]. apply negb_false_iff, String.eqb_eq in E1.
  destruct (negb (str_in (strip _) _)) eqn:E3.
  { apply mret_inv in H as [[= <- <-] <-]. split; [done|]. intros A. apply negb_true_iff, str_in_false in E3. by split_and!. }
  apply mbind_inv_ok in H as (gate & s1 & H1 & H). apply current_gate_inv in H1 as [-> G].
  destruct gate as [gate|]; [|apply mret_inv in H as [[= <- <-] <-]; split; [done | discriminate]].
  destruct (String.eqb_spec (lg_mode gate) "normal") as [M|M]; apply mret_inv in H as [[= <- <-] <-];
    (split; [done|]); [|discriminate]. intros _. split_and!; try done. intros _ _. by apply (G gate).
Qed.

Section process.
Context (schema_error : dict -> option (list string * string)) (policy : RiskPolicy).

(** A decision the governor approved on fresh data. *)
Definition approved_by (decision_id : string) (row : hermes_row) (outcome : RiskDecision) (now : Z) (d : Db) : Prop :=
  hm_model_provider row = "hermes" /\ schema_error (row_to_decision decision_id row) = None
  /\ freshness_problem row policy now = None /\ projection_is_stale now d = false
  /\ exists decision, governed row = Ok decision
     /\ evaluate decision
          (from_option (fun a => load_positions a d) []
             (str_or (str_or (hm_target_account_id row) (gp_default_account_id policy)) None))
          (match str_or (str_or (hm_target_account_id row) (gp_default_account_id policy)) None,
                 str_or (hm_instrument_symbol row) None with
           | Some a, Some i => load_risk_state a i d
           | _, _ => None
           end) policy = Ok outcome
     /\ rd_status outcome = "approved".

Lemma judged_approved row now d outcome : judged policy row now d = Ok outcome -> rd_status outcome = "approved" ->
  forall decision_id, hm_model_provider row = "hermes" -> schema_error (row_to_decision decision_id row) = None ->
  freshness_problem row policy now = None -> approved_by decision_id row outcome now d.
Proof.
  unfold judged. intros H A id P S F. apply rbind_inv_ok in H as (decision & G & H).
  apply rbind_inv_ok in H as (o & E & H). apply ok_inj in H.
  destruct (String.eqb (rd_status o) "approved" && projection_is_stale now d) eqn:St; subst outcome; [discriminate A|].
  rewrite A in St. cbn in St. split_and!; try done. by exists decision.
Qed.

Lemma process_row_inv decision_id row s o s' :
  process_row schema_error policy decision_id row s = (Ok o, s') ->
  exists outcome approve, write_outcome decision_id row outcome approve s = (Ok o, s')
    /\ (approve <> None -> rd_status outcome = "approved" ->
        exists judgement, approved_by decision_id row judgement (clock s) (current s)
          /\ gate_passed row judgement outcome (current s)).
Proof.
  unfold process_row. intros H.
  destruct (negb (String.eqb _ "hermes")) eqn:P; [by do 2 eexists; split; [exact H|]|].
  apply negb_false_iff, String.eqb_eq in P.
  destruct (schema_error _) as [[path message]|] eqn:S; [by do 2 eexists; split; [exact H|]|].
  apply mbind_inv_ok in H as (now & s1 & H1 & H). apply get_now_inv in H1 as [-> ->].
  destruct (freshness_problem _ _ _) eqn:F; [by do 2 eexists; split; [exact H|]|].
  apply mbind_inv_ok in H as (d & s1 & H1 & H). apply select_inv in H1 as [-> ->].
  apply mbind_inv_ok in H as (j & s1 & H1 & H). apply mlift_inv in H1 as [J ->].
  apply mbind_inv_ok in H as ([outcome gate] & s1 & H1 & H). apply apply_gate_inv in H1 as [-> G].
  do 2 eexists. split; [exact H|]. intros _ A. pose proof (G A) as (A' & _). exists j. split; [|by apply G].
  by apply judged_approved.
Qed.

Lemma process_one_inv s x s' :
  process_one_decision schema_error policy s = (Ok x, s') ->
  exists s1, s' = commit s1 /\
  match x with
  | None => pending (current s) = [] /\ s1 = s
  | Some o => exists decision_id row, process_row schema_error policy decision_id row s = (Ok o, s1)
      /\ (decision_id, row) ∈ pending (current s)
      /\ forall p, p ∈ pending (current s) -> older_decision (decision_id, row) p = true
  end.
Proof.
  unfold process_one_decision. intros H. apply transaction_inv_ok in H as (s1 & H & ->). exists s1. split; [done|].
  apply mbind_inv_ok in H as (p & s2 & H1 & H). apply select_inv in H1 as [-> ->].
  destruct (hd_error _) as [[id row]|] eqn:E.
  - apply mbind_inv_ok in H as (o & s2 & H1 & H). apply mret_inv in H as [<- <-]. exists id, row. split; [done|].
    by apply (sort_by_hd older_decision) in E; [|apply older_total|apply older_trans].
  - apply mret_inv in H as [<- <-]. split; [|done]. pose proof (sort_by_perm older_decision (pending (current s))) as P.
    destruct (sort_by _ _); [|discriminate E]. by apply Permutation_nil_l in P.
Qed.

End process.

Lemma aged_enqueue a b c d p rid : within aged (enqueue_order_management_event a b c d p rid).
Proof. apply within_enqueue; [apply _ | apply aged_uuid4 | intros f; apply aged_execute]. Qed.
Lemma aged_inject p t : within aged (inject_trace_context p t).
Proof. apply within_inject; [apply _ | apply aged_uuid4]. Qed.
#[local] Hint Resolve aged_enqueue aged_inject : keeps.

Lemma within_process schema_error policy id row : within aged (process_row schema_error policy id row).
Proof.
  unfold process_row, write_outcome, apply_live_open_rollout_gate, current_live_open_gate, write_trade_intent,
    raw_message_authorization, create_execution_job_for_approved_intent, tx_scope, create_work,
    build_execution_job_request, insert_execution_job, ensure_risk_reservation.
  within.
Qed.

(** One run of the gateway, on every branch.  A run that returns takes the
    oldest decision without an outcome and records one outcome for it, the
    result's: the decision is no longer pending and every other one still is.
    It writes nothing when none is pending, and a result without an intent
    leaves intents and jobs alone.  A run that raises writes nothing, so that
    the decision it failed on stays pending, the oldest, and is the one the
    next run takes. *)
Theorem decision_processed_once schema_error policy s x s' :
  idle s -> process_one_decision schema_error policy s = (x, s') ->
  idle s' /\ hermes_decisions (current s') = hermes_decisions (current s)
  /\ match x with
     | Raise _ => current s' = current s /\ pending (current s) <> []
     | Ok None => pending (current s) = [] /\ current s' = current s
     | Ok (Some o) => exists decision_id row rd,
         (decision_id, row) ∈ pending (current s)
         /\ (forall p, p ∈ pending (current s) -> older_decision (decision_id, row) p = true)
         /\ risk_decisions (current s') = (risk_decisions (current s) ++ [rd])%list
         /\ rk_id rd = go_risk_decision_id o /\ rk_hermes_decision_id rd = decision_id /\ rk_status rd = go_status o
         /\ (forall p, p ∈ pending (current s') <-> p ∈ pending (current s) /\ fst p <> decision_id)
         /\ S (length (pending (current s'))) = length (pending (current s))
         /\ (go_intent_id o = None -> trade_intents (current s') = trade_intents (current s)
              /\ execution_jobs (current s') = execution_jobs (current s))
     end.
Proof.
  intros Is H. destruct x as [x|e].
  2:{ unfold process_one_decision in H. match type of H with transaction ?m _ = _ =>
        assert (W : within aged m); [|pose proof (transaction_idle m s) as I; rewrite H in I] end.
      { apply within_bind; [apply _|within|]. intros [[id row]|]; [|apply within_ret, _].
        apply within_bind; [apply _|apply within_process|intros ?; apply within_ret, _]. }
      destruct (transaction_undone _ _ _ _ W Is H) as [E _]. split_and!; [exact I | by rewrite E | exact E |].
      intros P. unfold transaction, select, mbind, M_bind in H. by rewrite P in H. }
  apply process_one_inv in H as (s1 & -> & H). cbn [commit current]. split; [done|].
  destruct x as [o|]; [|by destruct H as [P ->]]. destruct H as (id & row & H & I & Old).
  apply process_row_inv in H as (outcome & approve & W & _).
  apply write_outcome_inv in W as (St & Hd & (rd & R & R1 & R2 & R3) & W). split; [done|].
  pose proof (pending_snoc _ _ _ Hd R) as P. rewrite R2 in P. exists id, row, rd.
  split_and!; try done; [congruence | | |].
  - intros p. rewrite P, !list_elem_of_In, filter_In, negb_true_iff, String.eqb_neq. split; intros [? ?]; split; auto.
  - rewrite P. by apply (filter_one fst _ (id, row)); [apply pending_keys|].
  - intros N. by rewrite N in W.
Qed.


(** ** An approved opening *)

(** A validator that only looks at the version. *)
Definition sample_validator (doc : dict) : option (list string * string) :=
  if String.eqb (py_str (dget "schema_version" doc)) "1.0" then None else Some (["schema_version"], "'1.0' was expected").

Definition sample_hermes : hermes_row := {|
  hm_raw_message_id := "m1"; hm_processing_run_id := "p1"; hm_context_snapshot_id := "c1"; hm_schema_version := "1.0";
  hm_message_type := "new_signal"; hm_action := "open_position"; hm_ambiguous := false;
  hm_ambiguity_reasons := PList []; hm_account_scope := "single"; hm_target_account_id := Some "account-a";
  hm_target_position_id := None; hm_instrument_symbol := Some "BTCUSDT"; hm_side := Some "long";
  hm_entry_type := "limit"; hm_entry_price := Some (XFin (Dec 60000 0)); hm_entry_price_min := None;
  hm_entry_price_max := None; hm_stop_loss := Some (XFin (Dec 59000 0));
  hm_take_profits := [PInt 61000; PFloat (Dec 6250050 (-2))]; hm_leverage := Some (XFin (Dec 5 0));
  hm_valid_until := Some (seconds 1700001000); hm_evidence := PList []; hm_model_provider := "hermes";
  hm_model_version := "1"; hm_prompt_version := "1"; hm_temperature := XFin dzero; hm_confidence := None;
  hm_created_at := seconds 1700000000 |}.

Definition sample_gateway : Conn :=
  connect
    (set_hermes_decisions (<["d1" := sample_hermes]>)
    (set_raw_messages (<["m1" := {| rm_source := "telegram"; rm_channel_id := "-100"; rm_source_message_id := "17";
                                    rm_author_id := None |}]>)
    (set_node_heartbeats (<["node-1" := seconds 1700000590]>)
    (set_reviewed_release_rollouts (fun _ => [{| ro_release_id := "r1"; ro_phase := "fleet_complete";
                                                 ro_phase_version := 5; ro_created_at := 0 |}])
    (set_risk_state (<[("account-a", "BTCUSDT") := {| rs_exposure_notional := XFin dzero;
        rs_open_risk_fraction := XFin dzero; rs_state := [("mode", PStr "ACTIVE")]; rs_version := 1;
        rs_updated_at := 0 |}]>) empty_db)))))
    (seconds 1700000600).

Lemma decision_processed_once_witness :
  exists o s', process_one_decision sample_validator default_policy sample_gateway = (Ok (Some o), s')
    /\ length (pending (current s')) = 0%nat.
Proof.
  assert (R : match process_one_decision sample_validator default_policy sample_gateway with
              | (Ok (Some _), _) => true | _ => false end = true) by (vm_compute; reflexivity).
  destruct (process_one_decision sample_validator default_policy sample_gateway) as [[[o|]|e] s'] eqn:E; try discriminate R.
  destruct (decision_processed_once sample_validator default_policy sample_gateway _ _ eq_refl E) as (_ & _ & id & row & rd & _ & _ & _ & _ & _ & _ & _ & L & _).
  exists o, s'. split; [reflexivity|].
  assert (P : length (pending (current sample_gateway)) = 1%nat) by (vm_compute; reflexivity).
  rewrite P in L. injection L as L. exact L.
Defined.


(** An approved decision whose raw message has no message id: the run raises,
    and so does every later one, while a newer decision waits behind it. *)
Definition blocked_gateway : Conn :=
  connect
    (set_raw_messages (<["m1" := {| rm_source := "telegram"; rm_channel_id := "-100"; rm_source_message_id := " ";
                                    rm_author_id := None |}]>)
    (set_hermes_decisions (<["d2" := sample_hermes]>) (current sample_gateway))) (seconds 1700000600).

Lemma poison_decision_blocks :
  let run c := process_one_decision sample_validator default_policy c in
  fst (run blocked_gateway) = Raise (GatewayError "raw message source_message_id missing")
  /\ fst (run (snd (run blocked_gateway))) = Raise (GatewayError "raw message source_message_id missing")
  /\ map fst (pending (current (snd (run (snd (run blocked_gateway)))))) = ["d1"; "d2"].
Proof. vm_compute. done. Qed.
