(* ===== verification/Alerts.v ===== *)
(** * Alerts: normalised, de-duplicated notifications

    Models order_management/alerts.py: the conditions other components raise,
    their normalised types and severities, the engine that suppresses repeats
    within a cooldown, and the sink that writes notifications to the outbox.
    The sink of an engine is a parameter; payloads are JSON values, in which a
    [datetime] does not occur. *)

From Stdlib Require Import ZArith Lia Ascii.
From S2P Require Import Prelude Decimal PyString DecText PyValue PyTime Store Sha256 Freshness Reservations.
Open Scope string_scope.
Open Scope Z_scope.

Definition NOTIFICATION_CHANNEL : string := "order-management.notifications".
Definition ALERT_EVENT_TYPE : string := "notification.alert".
Definition RECOVERY_EVENT_TYPE : string := "notification.recovery".

Definition CRITICAL_CONDITIONS : list string :=
  ["no_protection"; "missing_protection"; "protection_missing"; "unprotected_position"; "close_all_failure";
   "close_all_not_completed"; "severe_drift"; "live_data_stale"].
Definition HIGH_CONDITIONS : list string :=
  ["lost_order"; "order_lost"; "account_stale"; "daily_loss_gate"; "daily_loss_limit"; "drawdown_gate";
   "max_drawdown_gate"].
Definition MEDIUM_CONDITIONS : list string :=
  ["reprice_exhausted"; "max_reprices_exceeded"; "partial_fill_timeout"; "node_settings_behind";
   "settings_version_behind"].
Definition INFO_CONDITIONS : list string := ["normal_fill"; "settings_published"; "reconciliation_ok"].
Definition DRIFT_FINDING_TYPES : list string :=
  ["order_drift"; "position_drift"; "account_drift"; "reconciliation_drift"; "orphan_order"; "external_position"].
Definition LIVE_STALE_REASONS : list string := ["market_data"; "execution_event"; "projection"; "reconciliation"].

(** ** Types, severities and keys *)

(** [str(v or "")] *)
Definition text_or (v : pyval) (default : string) : string := if truthy v then py_str v else default.

Definition normalize_condition_type (condition_type : string) (payload : dict) : string :=
  let raw := lower (strip condition_type) in
  if str_in raw ["missing_protection"; "protection_missing"; "unprotected_position"] then "no_protection"
  else if str_in raw ["close_all_not_completed"; "close_all_failed"; "close_all_partial"] then "close_all_failure"
  else if str_in raw DRIFT_FINDING_TYPES || String.eqb raw "severe_drift" then "drift"
  else if str_in raw ["live_data_stale"; "freshness_stale"] then "stale"
  else if String.eqb raw "stale" && String.eqb (text_or (dget "freshness_kind" payload) "") "account_data"
  then "account_stale"
  else if String.eqb raw "order_lost" then "lost_order"
  else if String.eqb raw "daily_loss_limit" then "daily_loss_gate"
  else if String.eqb raw "max_drawdown_gate" then "drawdown_gate"
  else if String.eqb raw "max_reprices_exceeded" then "reprice_exhausted"
  else if String.eqb raw "settings_version_behind" then "node_settings_behind"
  else raw.

Definition severity_for_condition (condition_type : string) (payload : dict) : string :=
  let normalized := normalize_condition_type condition_type payload in
  if String.eqb normalized "stale" then
    let freshness_kind := text_or (py_or (dget "freshness_kind" payload) (dget "kind" payload)) "" in
    if str_in freshness_kind LIVE_STALE_REASONS then "critical" else "high"
  else if String.eqb normalized "drift" then
    let drift_class := lower (text_or (py_or (dget "drift_class" payload) (dget "severity" payload)) "severe") in
    if str_in drift_class ["severe"; "critical"; "error"] then "critical" else "high"
  else if str_in normalized CRITICAL_CONDITIONS || str_in normalized ["no_protection"; "close_all_failure"]
  then "critical"
  else if str_in normalized HIGH_CONDITIONS then "high"
  else if str_in normalized MEDIUM_CONDITIONS then "medium"
  else if str_in normalized INFO_CONDITIONS then "info"
  else "info".

(** [_key_part] *)
Definition key_part (value : string) : string := replace_char "|" "/" (lower (strip value)).

Definition alert_key (condition_type : string) (account_id entity_id : option string) : string :=
  join "|" [key_part condition_type; key_part (default "global" (str_or account_id None));
            key_part (default "none" (str_or entity_id None))].

(** ** Conditions *)

Record AlertCondition := {
  al_condition_type : string;
  al_account_id : option string;
  al_entity_id : option string;
  al_payload : dict;
  al_observed_at : option datetime;
  al_is_active : bool;
  al_severity : option string }.

Definition active (condition_type : string) (account_id entity_id : option string) (payload : dict)
    (observed_at : option datetime) (severity : option string) : AlertCondition := {|
  al_condition_type := condition_type; al_account_id := account_id; al_entity_id := entity_id; al_payload := payload;
  al_observed_at := observed_at; al_is_active := true; al_severity := severity |}.

Definition cleared (c : AlertCondition) (observed_at : option datetime) (payload : dict) : AlertCondition := {|
  al_condition_type := al_condition_type c; al_account_id := al_account_id c; al_entity_id := al_entity_id c;
  al_payload := dupdate (al_payload c) payload; al_observed_at := coalesce observed_at (al_observed_at c);
  al_is_active := false; al_severity := al_severity c |}.

Definition normalized_type (c : AlertCondition) : string := normalize_condition_type (al_condition_type c) (al_payload c).

Definition condition_key (c : AlertCondition) : string :=
  alert_key (normalized_type c) (al_account_id c) (al_entity_id c).

(** ** Notifications *)

Record AlertNotification := {
  an_alert_key : string;
  an_condition_type : string;
  an_severity : string;
  an_status : string;
  an_account_id : option string;
  an_entity_id : option string;
  an_payload : dict;
  an_observed_at : Z;
  an_channel : string;
  an_visible : bool }.

Definition event_type (n : AlertNotification) : string :=
  if String.eqb (an_status n) "recovery" then RECOVERY_EVENT_TYPE else ALERT_EVENT_TYPE.

Definition route (n : AlertNotification) : dict :=
  [("channel", PStr (an_channel n)); ("severity", PStr (an_severity n))].

(** [_jsonable] *)
Fixpoint jsonable (v : pyval) : pyval :=
  match v with
  | PDec x => PStr (xdec_str x)
  | PDict m => PDict (map (fun p => (fst p, jsonable (snd p))) m)
  | PList l => PList (map jsonable l)
  | v => v
  end.

Definition to_payload (n : AlertNotification) : dict :=
  [("schema_version", PStr "order_management.notification.v1");
   ("channel", PStr (an_channel n));
   ("route", PDict (route n));
   ("severity", PStr (an_severity n));
   ("status", PStr (an_status n));
   ("condition_type", PStr (an_condition_type n));
   ("alert_key", PStr (an_alert_key n));
   ("account_id", opt_str (an_account_id n));
   ("entity_id", opt_str (an_entity_id n));
   ("observed_at", PStr (isoformat (an_observed_at n)));
   ("visible", PBool (an_visible n));
   ("payload", jsonable (PDict (an_payload n)))].

(** ** The engine *)

Record AlertEngine := {
  ae_cooldown : Z;
  ae_last_emitted_at : gmap (string * string) Z;
  ae_active_keys : gset string }.

(** The constructor, with the cooldown in microseconds. *)
Definition alert_engine (cooldown : Z) : result AlertEngine :=
  if cooldown <? 0 then Raise (ValueError "alert cooldown must be non-negative")
  else Ok {| ae_cooldown := cooldown; ae_last_emitted_at := ∅; ae_active_keys := ∅ |}.

Definition is_suppressed (e : AlertEngine) (key status : string) (now : Z) : bool :=
  match ae_last_emitted_at e !! (key, status) with
  | None => false
  | Some last => now - last <? ae_cooldown e
  end.

Section engine.
(** The sink is called on a state of its own; a [datetime.now] is read from
    the clock [clk]. *)
Context {X A : Type} (sink : option (AlertNotification -> M X A)).

Definition evaluate (condition : AlertCondition) (now : option datetime) (clk : Z)
  : M (X * AlertEngine) (option AlertNotification) := fun w =>
  let '(x, e) := w in
  let observed_at := from_option aware clk (coalesce now (al_observed_at condition)) in
  let status := if al_is_active condition then "firing" else "recovery" in
  let key := condition_key condition in
  if negb (al_is_active condition) && negb (bool_decide (key ∈ ae_active_keys e)) then (Ok None, w)
  else if is_suppressed e key status observed_at then (Ok None, w)
  else
    let payload := al_payload condition in
    let notification := {|
      an_alert_key := key; an_condition_type := normalized_type condition;
      an_severity := default (severity_for_condition (normalized_type condition) payload)
                       (str_or (al_severity condition) None);
      an_status := status; an_account_id := al_account_id condition; an_entity_id := al_entity_id condition;
      an_payload := payload; an_observed_at := observed_at; an_channel := NOTIFICATION_CHANNEL; an_visible := true |} in
    let e := {| ae_cooldown := ae_cooldown e;
                ae_last_emitted_at := <[(key, status) := observed_at]> (ae_last_emitted_at e);
                ae_active_keys := if al_is_active condition then {[key]} ∪ ae_active_keys e
                                  else ae_active_keys e ∖ {[key]} |} in
    match sink with
    | None => (Ok (Some notification), (x, e))
    | Some sink =>
        match sink notification x with
        | (Ok _, x) => (Ok (Some notification), (x, e))
        | (Raise exc, x) => (Raise exc, (x, e))
        end
    end.

Fixpoint evaluate_many (conditions : list AlertCondition) (now : option datetime) (clk : Z)
  : M (X * AlertEngine) (list AlertNotification) :=
  match conditions with
  | [] => mret []
  | condition :: conditions =>
      notification ← evaluate condition now clk;
      emitted ← evaluate_many conditions now clk;
      mret (match notification with Some n => n :: emitted | None => emitted end)
  end.

End engine.

(** ** The outbox sink *)

(** [_payload_value] *)
Definition payload_value (payload : dict) (key : string) : pyval :=
  let value := dget key payload in
  if is_none value || is_empty (strip (py_str value)) then PNone else value.

Definition with_channel (channel : string) (n : AlertNotification) : AlertNotification := {|
  an_alert_key := an_alert_key n; an_condition_type := an_condition_type n; an_severity := an_severity n;
  an_status := an_status n; an_account_id := an_account_id n; an_entity_id := an_entity_id n;
  an_payload := an_payload n; an_observed_at := an_observed_at n; an_channel := channel; an_visible := an_visible n |}.

(** [OutboxNotificationSink.__call__] *)
Definition outbox_notification_sink (channel : string) (notification : AlertNotification) : M Conn string :=
  let routed := with_channel channel notification in
  let idempotency_key := an_alert_key routed +:+ ":" +:+ an_status routed +:+ ":" +:+ isoformat (an_observed_at routed) in
  let event_id := deterministic_outbox_event_id "notification" (an_alert_key routed) (event_type routed) idempotency_key in
  event_payload ← inject_trace_context (to_payload routed) {|
    ts_trace_id := PNone; ts_request_id := payload_value (an_payload routed) "request_id";
    ts_idempotency_key := PStr idempotency_key; ts_intent_id := PNone; ts_execution_job_id := PNone;
    ts_order_id := payload_value (an_payload routed) "client_order_id";
    ts_command_id := payload_value (an_payload routed) "command_id" |};
  now ← get_now;
  _ ← execute (set_outbox_events (fun t =>
        if existsb (fun r => String.eqb (ob_id r) event_id) t then t
        else (t ++ [{|
          ob_id := event_id; ob_status := "pending"; ob_aggregate_type := "notification";
          ob_aggregate_id := an_alert_key routed; ob_event_type := event_type routed;
          ob_payload := event_payload; ob_trace_id := Some (py_str (dget "trace_id" event_payload));
          ob_attempts := 0; ob_next_attempt_at := None; ob_published_at := None;
          ob_failed_at := None; ob_error := None; ob_created_at := now |}])%list));
  mret event_id.

(** ** Conditions of other components *)

(** [_optional_str] *)
Definition optional_str (v : pyval) : option string := if is_none v then None else Some (py_str v).

(** [created_at] is [finding.get("created_at")], when it is a [datetime]. *)
Definition condition_from_reconciliation_finding (finding : dict) (created_at : option datetime) (is_active : bool)
  : AlertCondition :=
  let setdefault k v d := if dmem k d then d else dset k v d in
  let finding_type := text_or (dget "finding_type" finding) "" in
  let payload := setdefault "finding_type" (PStr finding_type) (as_dict (dget "payload" finding)) in
  let finding_id := dget "reconciliation_finding_id" finding in
  let payload := if truthy finding_id then setdefault "reconciliation_finding_id" finding_id payload else payload in
  let entity_id := fold_right py_or (PStr finding_type)
    [dget "position_key" finding; dget "order_projection_id" finding; dget "client_order_id" payload;
     dget "venue_order_id" payload; finding_id] in
  let normalized := normalize_condition_type finding_type payload in
  {| al_condition_type := normalized; al_account_id := optional_str (dget "account_id" finding);
     al_entity_id := optional_str entity_id; al_payload := payload;
     al_observed_at := (fun t => utc (aware t)) <$> created_at; al_is_active := is_active;
     al_severity := Some (severity_for_condition normalized payload) |}.

Definition conditions_from_freshness_reasons (account_id : string) (reasons : list string) (observed_at : datetime)
    (is_active : bool) : list AlertCondition :=
  map (fun freshness_kind =>
    let condition_type := if String.eqb freshness_kind "account_data" then "account_stale" else "stale" in
    let payload := [("freshness_kind", PStr freshness_kind)] in
    {| al_condition_type := condition_type; al_account_id := Some account_id; al_entity_id := Some freshness_kind;
       al_payload := payload; al_observed_at := Some observed_at; al_is_active := is_active;
       al_severity := Some (severity_for_condition condition_type payload) |}) reasons.

Definition conditions_from_freshness_state (account_id : string) (state : FreshnessState) (now : datetime)
    (is_active : bool) : list AlertCondition :=
  conditions_from_freshness_reasons account_id (stale_reasons state now) now is_active.

Definition condition_from_close_all_result (account_id request_id : string) (result : dict) (observed_at : datetime)
  : AlertCondition :=
  let flat := match dget "verification" result with
              | PDict v => truthy (dget "flat" v)
              | _ => false
              end in
  let completed := String.eqb (lower (text_or (dget "status" result) "")) "completed" && flat in
  {| al_condition_type := "close_all_failure"; al_account_id := Some account_id; al_entity_id := Some request_id;
     al_payload := if dmem "request_id" result then result else dset "request_id" (PStr request_id) result;
     al_observed_at := Some observed_at; al_is_active := negb completed; al_severity := Some "critical" |}.

Definition condition_from_loss_limit_decision (account_id : string) (decision : LossLimitDecision)
    (observed_at : datetime) : AlertCondition :=
  let mode := upper (ld_mode decision) in
  let reason := ld_reason decision in
  let condition_type :=
    if contains "drawdown" (lower reason) || str_in mode ["HALT"; "HALTED"] then "drawdown_gate" else "daily_loss_gate" in
  {| al_condition_type := condition_type; al_account_id := Some account_id; al_entity_id := Some condition_type;
     al_payload := [("mode", PStr mode); ("reason", PStr reason); ("daily_loss", PStr (dec_str (ld_daily_loss decision)));
                    ("drawdown_pct", PStr (dec_str (ld_drawdown_pct decision)))];
     al_observed_at := Some observed_at; al_is_active := str_in mode ["REDUCING"; "HALT"; "HALTED"];
     al_severity := Some "high" |}.

(** ** What an engine emits *)

(** Notifications an engine has emitted, newest first, and the state it is in. *)
Inductive engine_run {X A} (sink : option (AlertNotification -> M X A)) (cooldown : Z)
  : list AlertNotification -> X * AlertEngine -> Prop :=
  | run_start x e : alert_engine cooldown = Ok e -> engine_run sink cooldown [] (x, e)
  | run_quiet h w c now clk w' :
      engine_run sink cooldown h w -> evaluate sink c now clk w = (Ok None, w') -> engine_run sink cooldown h w'
  | run_emit h w c now clk n w' :
      engine_run sink cooldown h w -> evaluate sink c now clk w = (Ok (Some n), w') ->
      engine_run sink cooldown (n :: h) w'.

Definition about (key status : string) (n : AlertNotification) : bool :=
  String.eqb (an_alert_key n) key && String.eqb (an_status n) status.

(** The status of the last notification of a key. *)
Definition last_status (key : string) (h : list AlertNotification) : option string :=
  an_status <$> List.find (fun n => String.eqb (an_alert_key n) key) h.

(** Repeats are a cooldown apart, and a recovery ends a firing. *)
Fixpoint well_spaced (cooldown : Z) (h : list AlertNotification) : Prop :=
  match h with
  | [] => True
  | n :: h =>
      (forall m, m ∈ h -> about (an_alert_key n) (an_status n) m = true ->
         cooldown <= an_observed_at n - an_observed_at m)
      /\ (an_status n = "recovery" -> last_status (an_alert_key n) h = Some "firing")
      /\ (an_status n = "firing" \/ an_status n = "recovery")
      /\ well_spaced cooldown h
  end.

(** The state of an engine is a summary of what it has emitted. *)
Definition summary (cooldown : Z) (h : list AlertNotification) (e : AlertEngine) : Prop :=
  0 <= cooldown /\ ae_cooldown e = cooldown
  /\ (forall key status, ae_last_emitted_at e !! (key, status) = an_observed_at <$> List.find (about key status) h)
  /\ (forall key, key ∈ ae_active_keys e <-> last_status key h = Some "firing").

(** When an evaluation stays quiet, and what one that emits adds. *)
Lemma evaluate_inv {X A} (sink : option (AlertNotification -> M X A)) c now clk x e r x' e' :
  evaluate sink c now clk (x, e) = (Ok r, (x', e')) ->
  let t := from_option aware clk (coalesce now (al_observed_at c)) in
  let status := if al_is_active c then "firing" else "recovery" in
  let key := condition_key c in
  match r with
  | None => e' = e /\ ((al_is_active c = false /\ (key ∉ ae_active_keys e)) \/ is_suppressed e key status t = true)
  | Some n => an_alert_key n = key /\ an_status n = status /\ an_observed_at n = t
      /\ (al_is_active c = false -> key ∈ ae_active_keys e) /\ is_suppressed e key status t = false
      /\ ae_cooldown e' = ae_cooldown e
      /\ ae_last_emitted_at e' = <[(key, status) := t]> (ae_last_emitted_at e)
      /\ ae_active_keys e' = (if al_is_active c then {[key]} ∪ ae_active_keys e else ae_active_keys e ∖ {[key]})
  end.
Proof.
  intros H t status key. unfold evaluate in H. fold t status key in H.
  destruct (negb (al_is_active c) && _) eqn:E1.
  { apply andb_true_iff in E1 as [E1 E2]. apply negb_true_iff in E1, E2. apply bool_decide_eq_false in E2.
    injection H as <- <- <-. split; [done|]. by left. }
  destruct (is_suppressed e key status t) eqn:E2; [injection H as <- <- <-; split; [done | by right]|].
  assert (K : al_is_active c = false -> key ∈ ae_active_keys e).
  { intros F. rewrite F in E1. cbn in E1. by apply negb_false_iff, bool_decide_eq_true in E1. }
  destruct sink as [sink|]; [destruct (sink _ x) as [[a|exc] x1]|]; try discriminate H;
    injection H as <- <- <-; by split_and!.
Qed.

Lemma find_about_cons key status n h : List.find (about key status) (n :: h)
  = if about key status n then Some n else List.find (about key status) h.
Proof. done. Qed.

(** The latest of the notifications that are a cooldown apart is the nearest. *)
Lemma latest_nearest cooldown key status h n m : 0 <= cooldown -> well_spaced cooldown h ->
  List.find (about key status) h = Some n -> m ∈ h -> about key status m = true -> an_observed_at m <= an_observed_at n.
Proof.
  induction h as [|n' h IH]; intros C W F I B; [by inversion I|]. rewrite find_about_cons in F.
  destruct W as (W1 & _ & _ & W). destruct (about key status n') eqn:E.
  - injection F as <-. apply elem_of_cons in I as [->|I]; [lia|]. unfold about in E. bprop. subst.
    specialize (W1 m I B). lia.
  - apply elem_of_cons in I as [->|I]; [congruence|]. by apply IH.
Qed.

Lemma last_status_cons key n h :
  last_status key (n :: h) = if String.eqb (an_alert_key n) key then Some (an_status n) else last_status key h.
Proof. unfold last_status. cbn. by destruct (String.eqb _ _). Qed.

Lemma engine_summary {X A} (sink : option (AlertNotification -> M X A)) cooldown h w :
  engine_run sink cooldown h w -> summary cooldown h (snd w) /\ well_spaced cooldown h.
Proof.
  induction 1 as [x e E|h [x e] c now clk [x' e'] _ [IH W] E|h [x e] c now clk n [x' e'] _ [IH W] E].
  - unfold alert_engine in E. destruct (cooldown <? 0) eqn:C; [discriminate E|]. injection E as <-. bprop.
    split; [|done]. split_and!; [done | done | done |]. intros key. unfold last_status. cbn. set_solver.
  - apply evaluate_inv in E as [-> _]. by split.
  - apply evaluate_inv in E as (K & S & T & Act & Sup & C & L & Ak).
    destruct IH as (C0 & C1 & L1 & A1). cbn [snd] in *.
    set (t := from_option aware clk _) in *. set (status := if al_is_active c then "firing" else "recovery") in *.
    set (key := condition_key c) in *. split.
    + split_and!; [done | congruence | |].
      * intros k st. rewrite L, find_about_cons. unfold about. rewrite K, S.
        destruct (String.eqb_spec key k) as [->|N]; [destruct (String.eqb_spec status st) as [->|N]|]; cbn [andb].
        -- by rewrite lookup_insert_eq, <- T.
        -- rewrite lookup_insert_ne by congruence. apply L1.
        -- rewrite lookup_insert_ne by congruence. apply L1.
      * intros k. rewrite Ak, last_status_cons, K, S. unfold status.
        destruct (String.eqb_spec key k) as [->|N]; destruct (al_is_active c);
          rewrite ?elem_of_union, ?elem_of_difference, elem_of_singleton, <- ?A1.
        -- split; [done | by left].
        -- split; [by intros [_ F] | discriminate].
        -- split; [intros [E|E]; [congruence | done] | by right].
        -- split; [by intros [E _] | intros E; split; [done | congruence]].
    + split_and!; [| | |done].
      * rewrite K, S, T. intros m I B. unfold is_suppressed in Sup. rewrite L1 in Sup.
        destruct (List.find (about key status) h) as [n0|] eqn:F.
        -- cbn in Sup. bprop. pose proof (latest_nearest _ _ _ _ _ _ C0 W F I B). lia.
        -- eapply List.find_none in F; [|by apply list_elem_of_In]. congruence.
      * intros R. rewrite K. apply A1, Act. unfold status in S. destruct (al_is_active c); [congruence | done].
      * rewrite S. unfold status. destruct (al_is_active c); auto.
Qed.

(** Whatever conditions an alert engine has evaluated, its notifications of
    a key and status are at least a cooldown apart, every recovery ends a
    firing of its key, and a key is active exactly when its last notification
    is a firing.  An evaluation is quiet only when a notification of its key
    and status is less than a cooldown old, or when it clears a key that does
    not fire; what it emits is of that key, status and time. *)
Theorem alert_history {X A} (sink : option (AlertNotification -> M X A)) cooldown h x e c now clk r w' :
  engine_run sink cooldown h (x, e) -> evaluate sink c now clk (x, e) = (Ok r, w') ->
  well_spaced cooldown h
  /\ (forall key, key ∈ ae_active_keys e <-> last_status key h = Some "firing")
  /\ let t := from_option aware clk (coalesce now (al_observed_at c)) in
     let status := if al_is_active c then "firing" else "recovery" in
     match r with
     | None => (exists n, n ∈ h /\ about (condition_key c) status n = true /\ t - an_observed_at n < cooldown)
               \/ (al_is_active c = false /\ last_status (condition_key c) h <> Some "firing")
     | Some n => about (condition_key c) status n = true /\ an_observed_at n = t
         /\ well_spaced cooldown (n :: h)
     end.
Proof.
  intros R H. pose proof (engine_summary _ _ _ _ R) as [(C0 & C1 & L & Ak) W].
  split; [done|]. split; [done|]. intros t status. cbn [snd] in C1, L, Ak. destruct r as [n|].
  - pose proof (engine_summary _ _ _ _ (run_emit _ _ _ _ _ _ _ _ _ R H)) as [_ W']. destruct w' as [x' e'].
    apply evaluate_inv in H as (K & S & T & _). unfold about. by rewrite K, S, !String.eqb_refl.
  - destruct w' as [x' e']. apply evaluate_inv in H as (_ & [[F N]|Sup]).
    + right. split; [done|]. by rewrite <- Ak.
    + left. unfold is_suppressed in Sup. rewrite L in Sup. destruct (List.find _ _) as [n|] eqn:F; [|discriminate Sup].
      cbn in Sup. apply List.find_some in F as [F B]. bprop. exists n. split_and!; [by apply list_elem_of_In | done |]. unfold t. lia.
Qed.

(** ** A position without protection, twice within a minute *)

Definition sample_condition : AlertCondition :=
  active "Missing_Protection " (Some "account-a") (Some "a|BTCUSDT") [] None None.

Example sample_key : condition_key sample_condition = "no_protection|account-a|a/btcusdt".
Proof. vm_compute. reflexivity. Qed.

Lemma alert_history_witness :
  exists n e e', alert_engine (seconds 60) = Ok e
    /\ evaluate (X := unit) (A := unit) None sample_condition (Some (utc 0)) 0 (tt, e) = (Ok (Some n), (tt, e'))
    /\ forall r w, evaluate (X := unit) (A := unit) None sample_condition (Some (utc (seconds 59))) 0 (tt, e') = (Ok r, w) ->
         well_spaced (seconds 60) [n]
         /\ match r with Some m => seconds 60 <= an_observed_at m - an_observed_at n | None => True end.
Proof.
  do 3 eexists. split; [reflexivity|]. split; [reflexivity|]. intros r w H.
  assert (R : engine_run (X := unit) (A := unit) None (seconds 60) []
                (tt, {| ae_cooldown := seconds 60; ae_last_emitted_at := ∅; ae_active_keys := ∅ |}))
    by (apply run_start; reflexivity).
  pose proof (run_emit _ _ _ _ sample_condition (Some (utc 0)) 0 _ _ R eq_refl) as R'.
  destruct (alert_history _ _ _ _ _ _ _ _ _ _ R' H) as (W & _ & C). split; [exact W|].
  destruct r as [m|]; [|exact I]. destruct C as (B & T & W' & _). apply andb_true_iff in B as [K S].
  apply String.eqb_eq in K, S. apply W'; [left|]. rewrite K, S. reflexivity.
Defined.
