(* ===== verification/MarketData.v ===== *)
(** * MarketData: the price feed and the price guard

    Models nautilus-node/market_data/price_feed.py, which writes the last
    prices of each symbol and whether the feed is alive, and
    nautilus-node/strategy/price_guard.py, which refuses an order whose price
    is far from a fresh reference.  The subscriptions of the exchange client
    have no result and are not modelled; the prices of an order and its
    slippage are finite decimals. *)

From Stdlib Require Import ZArith Lia Ascii QArith Qabs Qround Lqa.
From S2P Require Import Prelude Decimal PyString DecText PyValue PyTime Store External Identifiers Risk.
Open Scope string_scope.
Open Scope Z_scope.

(** ** price_feed.py *)

Record PriceFeedStatus := {
  ps_account_id : string;
  ps_venue_symbol : string;
  ps_source : string;
  ps_mark_price : option xdec;
  ps_last_price : option xdec;
  ps_bid_price : option xdec;
  ps_ask_price : option xdec;
  ps_last_event_at : option Z;
  ps_stale : bool;
  ps_payload : dict }.

(** [ck_price_feed_status_*]: a price is positive; NaN is above every number. *)
Definition price_positive (p : option xdec) : bool :=
  match p with None => true | Some x => negb (pg_leb x (XFin dzero)) end.

(** [MarketDataStatusStore.upsert] *)
Definition upsert_status (status : PriceFeedStatus) : M Conn unit :=
  _ ← uuid4;
  now ← get_now;
  let col p := pg_numeric <$> p in
  let new := {|
    pf_mark_price := col (ps_mark_price status); pf_last_price := col (ps_last_price status);
    pf_bid_price := col (ps_bid_price status); pf_ask_price := col (ps_ask_price status);
    pf_last_event_at := ps_last_event_at status; pf_stale := ps_stale status;
    pf_payload := ps_payload status; pf_updated_at := now |} in
  _ ← check (price_positive (pf_mark_price new) && price_positive (pf_last_price new)
             && price_positive (pf_bid_price new) && price_positive (pf_ask_price new)) "ck_price_feed_status_prices";
  execute (set_price_feed_status (fun t =>
    let key := (ps_account_id status, ps_venue_symbol status, ps_source status) in
    <[key := match t !! key with
             | None => new
             | Some old => {|
                 pf_mark_price := coalesce (pf_mark_price new) (pf_mark_price old);
                 pf_last_price := coalesce (pf_last_price new) (pf_last_price old);
                 pf_bid_price := coalesce (pf_bid_price new) (pf_bid_price old);
                 pf_ask_price := coalesce (pf_ask_price new) (pf_ask_price old);
                 pf_last_event_at := coalesce (pf_last_event_at new) (pf_last_event_at old);
                 pf_stale := pf_stale new;
                 pf_payload := dupdate (pf_payload old) (pf_payload new);
                 pf_updated_at := now |}
             end]> t)).

Record Monitor := {
  mo_account_id : string;
  mo_symbols : list string;
  mo_disconnects : Z;
  mo_reconnects : Z;
  mo_updates : Z;
  mo_latest : gmap string PriceFeedStatus }.

Definition monitor (account_id : string) (symbols : list string) : result Monitor :=
  account_id ← canonical_account_id (Some account_id);
  Ok {| mo_account_id := account_id; mo_symbols := symbols; mo_disconnects := 0; mo_reconnects := 0; mo_updates := 0;
        mo_latest := ∅ |}.

Definition with_latest (f : gmap string PriceFeedStatus -> gmap string PriceFeedStatus) (m : Monitor) : Monitor := {|
  mo_account_id := mo_account_id m; mo_symbols := mo_symbols m; mo_disconnects := mo_disconnects m;
  mo_reconnects := mo_reconnects m; mo_updates := mo_updates m; mo_latest := f (mo_latest m) |}.

Definition count_update (m : Monitor) : Monitor := {|
  mo_account_id := mo_account_id m; mo_symbols := mo_symbols m; mo_disconnects := mo_disconnects m;
  mo_reconnects := mo_reconnects m; mo_updates := mo_updates m + 1; mo_latest := mo_latest m |}.

Definition count_disconnect (m : Monitor) : Monitor := {|
  mo_account_id := mo_account_id m; mo_symbols := mo_symbols m; mo_disconnects := mo_disconnects m + 1;
  mo_reconnects := mo_reconnects m; mo_updates := mo_updates m; mo_latest := mo_latest m |}.

Definition count_reconnect (m : Monitor) : Monitor := {|
  mo_account_id := mo_account_id m; mo_symbols := mo_symbols m; mo_disconnects := mo_disconnects m;
  mo_reconnects := mo_reconnects m + 1; mo_updates := mo_updates m; mo_latest := mo_latest m |}.

(** [_status]: the status of a symbol, with the time of its event.  The status
    is shared with [_latest]; a caller that changes it changes that entry. *)
Definition status_of (m : Monitor) (symbol : string) (event_at : option datetime) (clk : Z) : PriceFeedStatus :=
  let venue_symbol := canonical_instrument_key symbol in
  let status := default {|
    ps_account_id := mo_account_id m; ps_venue_symbol := venue_symbol; ps_source := "combined"; ps_mark_price := None;
    ps_last_price := None; ps_bid_price := None; ps_ask_price := None; ps_last_event_at := None; ps_stale := true;
    ps_payload := [] |} (mo_latest m !! venue_symbol) in
  {| ps_account_id := ps_account_id status; ps_venue_symbol := ps_venue_symbol status; ps_source := ps_source status;
     ps_mark_price := ps_mark_price status; ps_last_price := ps_last_price status; ps_bid_price := ps_bid_price status;
     ps_ask_price := ps_ask_price status;
     ps_last_event_at := match event_at with
                         | Some t => Some (aware t)
                         | None => Some (default clk (ps_last_event_at status))
                         end;
     ps_stale := ps_stale status; ps_payload := ps_payload status |}.

(** Change a status, in [_latest] too. *)
Definition store_status (m : Monitor) (status : PriceFeedStatus) : Monitor :=
  with_latest (<[ps_venue_symbol status := status]>) m.

Definition with_prices (mark last bid ask : option xdec) (stale : bool) (s : PriceFeedStatus) : PriceFeedStatus := {|
  ps_account_id := ps_account_id s; ps_venue_symbol := ps_venue_symbol s; ps_source := ps_source s;
  ps_mark_price := coalesce mark (ps_mark_price s); ps_last_price := coalesce last (ps_last_price s);
  ps_bid_price := coalesce bid (ps_bid_price s); ps_ask_price := coalesce ask (ps_ask_price s);
  ps_last_event_at := ps_last_event_at s; ps_stale := stale; ps_payload := ps_payload s |}.

(** The handler of one event: [_status], the prices of the event, and
    [_publish].  The clock is read only when the status has no event time;
    prices that do not parse leave the status created but unchanged. *)
Definition on_event (symbol : string) (event_at : option datetime) (prices : result (option xdec * option xdec * option xdec * option xdec))
  : M (Monitor * Conn) unit := fun w =>
  let '(m, s) := w in
  let status := status_of m symbol event_at (clock s) in
  match prices with
  | Raise e => (Raise e, (store_status m status, s))
  | Ok (mark, last, bid, ask) =>
      let status := with_prices mark last bid ask false status in
      let m := count_update (store_status m status) in
      let '(r, s) := upsert_status status s in (r, (m, s))
  end.

Definition on_mark_price (symbol price : string) (event_at : option datetime) : M (Monitor * Conn) unit :=
  on_event symbol event_at (p ← decimal_of (PStr price); Ok (Some p, None, None, None)).
Definition on_last_trade (symbol price : string) (event_at : option datetime) : M (Monitor * Conn) unit :=
  on_event symbol event_at (p ← decimal_of (PStr price); Ok (None, Some p, None, None)).

(** A bid that does not parse raises before the ask is read; one that does is
    kept even when the ask does not. *)
Definition on_book_ticker (symbol bid ask : string) (event_at : option datetime) : M (Monitor * Conn) unit := fun w =>
  match decimal_of (PStr bid) with
  | Raise e => on_event symbol event_at (Raise e) w
  | Ok b =>
      match decimal_of (PStr ask) with
      | Raise e =>
          let '(m, s) := w in
          let status := status_of m symbol event_at (clock s) in
          (Raise e, (store_status m (with_prices None None (Some b) None (ps_stale status) status), s))
      | Ok a => on_event symbol event_at (Ok (None, None, Some b, Some a)) w
      end
  end.

(** One symbol of [on_disconnect]. *)
Definition disconnect_symbol (reason symbol : string) : M (Monitor * Conn) unit := fun w =>
  let '(m, s) := w in
  let status := status_of m symbol None (clock s) in
  let status := {|
    ps_account_id := ps_account_id status; ps_venue_symbol := ps_venue_symbol status; ps_source := ps_source status;
    ps_mark_price := ps_mark_price status; ps_last_price := ps_last_price status; ps_bid_price := ps_bid_price status;
    ps_ask_price := ps_ask_price status; ps_last_event_at := ps_last_event_at status; ps_stale := true;
    ps_payload := dset "disconnect_reason" (PStr reason) (ps_payload status) |} in
  let '(r, s) := upsert_status status s in (r, (store_status m status, s)).

Definition on_disconnect (reason : string) : M (Monitor * Conn) unit := fun w =>
  let '(m, s) := w in mfor (mo_symbols m) (disconnect_symbol reason) (count_disconnect m, s).

Definition on_reconnect : M (Monitor * Conn) unit := fun w => (Ok tt, (count_reconnect (fst w), snd w)).

(** ** price_guard.py *)

Record PriceReference := {
  rf_mark_price : option xdec;
  rf_last_price : option xdec;
  rf_last_event_at : option Z;
  rf_stale : bool }.

Record PriceGuardDecision := {
  pg_allowed : bool;
  pg_reason : string;
  pg_reference_price : option xdec;
  pg_intended_price : option dec;
  pg_deviation_bps : option dec }.

(** The rows of a symbol, [source='combined'] first, then the latest. *)
Definition reference_order (a b : string * price_feed_row) : bool :=
  let rank r := if String.eqb (fst r) "combined" then 0 else 1 in
  (rank a <? rank b) || ((rank a =? rank b) && (pf_updated_at (snd b) <=? pf_updated_at (snd a))).

Definition reference_rows (account_id venue_symbol : string) (d : Db) : list (string * price_feed_row) :=
  omap (fun p => let '((a, v, source), r) := p in
          if String.eqb a account_id && String.eqb v venue_symbol then Some (source, r) else None)
    (map_to_list (price_feed_status d)).

(** [DatabasePriceReferenceStore.load_reference] *)
Definition load_reference (account_id venue_symbol : string) : M Conn (option PriceReference) :=
  account ← mlift (canonical_account_id (Some account_id));
  rows ← select (reference_rows account (canonical_instrument_key venue_symbol));
  mret (match hd_error (sort_by reference_order rows) with
        | None => None
        | Some (_, r) => Some {| rf_mark_price := pf_mark_price r; rf_last_price := pf_last_price r;
                                 rf_last_event_at := pf_last_event_at r; rf_stale := pf_stale r |}
        end).

(** [_select_reference]: [mark_price or last_price] *)
Definition select_reference (r : PriceReference) : option xdec :=
  match rf_mark_price r with
  | Some x => if xtrue x then Some x else rf_last_price r
  | None => rf_last_price r
  end.

Definition refused (reason : string) (reference_price : option xdec) : PriceGuardDecision := {|
  pg_allowed := false; pg_reason := reason; pg_reference_price := reference_price; pg_intended_price := None;
  pg_deviation_bps := None |}.

(** [(abs(intended - reference) / reference * 10000).quantize(1)]; a reference
    that is not finite raises. *)
Definition deviation_bps (intended : dec) (reference : xdec) : result dec :=
  r ← finite reference;
  q ← ddiv (dabs (intended - r)%dec) r;
  quantize ROUND_HALF_EVEN (q * Dec 10000 0)%dec (Dec 1 0).

Section guard.
(** The store of references, and [stale_after_seconds]. *)
Context {X : Type} (load : string -> string -> M X (option PriceReference)) (stale_after_seconds : Z).

(** [PriceGuard.check] *)
Definition check_price (account_id venue_symbol : string) (intended_price max_slippage_bps : option dec) (now : datetime)
  : M X PriceGuardDecision :=
  reference ← load account_id venue_symbol;
  match reference with
  | None => mret (refused "price_reference_missing" None)
  | Some reference =>
      match rf_last_event_at reference with
      | None => mret (refused "price_reference_stale" None)
      | Some last_event_at =>
          if rf_stale reference then mret (refused "price_reference_stale" None)
          else if seconds stale_after_seconds <? aware now - last_event_at
          then mret (refused "price_reference_stale" None)
          else
            match select_reference reference with
            | None => mret (refused "price_reference_missing" None)
            | Some reference_price =>
                let passed := {| pg_allowed := true; pg_reason := "price_guard_passed";
                                 pg_reference_price := Some reference_price; pg_intended_price := None;
                                 pg_deviation_bps := None |} in
                match max_slippage_bps, intended_price with
                | None, _ => mret passed
                | Some _, None => mret (refused "intended_price_required" (Some reference_price))
                | Some max_slippage_bps, Some intended_price =>
                    deviation ← mlift (deviation_bps intended_price reference_price);
                    let allowed := negb (dltb max_slippage_bps deviation) in
                    mret {| pg_allowed := allowed;
                            pg_reason := if allowed then "price_guard_passed" else "price_deviation_exceeded";
                            pg_reference_price := Some reference_price; pg_intended_price := Some intended_price;
                            pg_deviation_bps := Some deviation |}
                end
            end
      end
  end.

End guard.

(** [record_price_guard_rejection] *)
Definition record_price_guard_rejection (execution_job_id : string) (intent_id : option string)
    (decision : PriceGuardDecision) : M Conn unit :=
  now ← get_now;
  let text {A} (str : A -> string) (v : option A) := from_option (fun x => PStr (str x)) PNone v in
  execute (set_execution_jobs (map (fun r =>
    if String.eqb (ej_id r) execution_job_id then
      {| ej_id := ej_id r; ej_intent_id := ej_intent_id r; ej_account_id := ej_account_id r;
         ej_instrument_id := ej_instrument_id r; ej_venue_symbol := ej_venue_symbol r; ej_action := ej_action r;
         ej_status := "denied"; ej_request_id := ej_request_id r; ej_idempotency_key := ej_idempotency_key r;
         ej_payload := dset "price_guard_rejection" (PDict [
           ("intent_id", from_option PStr PNone intent_id);
           ("reason", PStr (pg_reason decision));
           ("reference_price", text xdec_str (pg_reference_price decision));
           ("intended_price", text dec_str (pg_intended_price decision));
           ("deviation_bps", text dec_str (pg_deviation_bps decision))]) (ej_payload r);
         ej_created_at := ej_created_at r; ej_updated_at := now; ej_started_at := ej_started_at r;
         ej_completed_at := Some now |}
    else r))).

(** ** What a passed guard means *)

Lemma scaled_le (k x y c : Q) : (0 <= c)%Q -> (x <= k * y)%Q -> (c * x <= k * (c * y))%Q.
Proof.
  intros C H. setoid_replace (k * (c * y))%Q with (c * (k * y))%Q using relation Qeq by ring.
  rewrite (Qmult_comm c x), (Qmult_comm c (k * y)). by apply Qmult_le_compat_r.
Qed.

(** The relative distance of two prices, up to four roundings and the whole
    basis point the guard works with. *)
Lemma deviation_bound p r d : deviation_bps p (XFin r) = Ok d -> (0 < dval r)%Q ->
  let k := (1 + 2 * eps)%Q in
  (10000 * Qabs (dval p - dval r) <= k * (k * (k * (k * ((dval d + (1 # 2)) * dval r)))))%Q.
Proof.
  intros H R k. unfold deviation_bps in H. apply rbind_inv_ok in H as (r' & Hr & H). injection Hr as <-.
  apply rbind_inv_ok in H as (q & D & H). pose proof eps_small as [E1 E2].
  assert (K : (0 <= k)%Q) by (unfold k; lra).
  assert (Mono : forall a b, (a <= b -> k * a <= k * b)%Q).
  { intros a b L. rewrite !(Qmult_comm k). by apply Qmult_le_compat_r. }
  assert (A1 : (Qabs (dval p - dval r) <= k * Qabs (dval (p - r)%dec))%Q)
    by (apply approx_ge; [apply approx_abs, dsub_approx | apply Qabs_nonneg]).
  assert (A2 : (Qabs (dval (p - r)%dec) <= k * dval (dabs (p - r)%dec))%Q)
    by (apply approx_ge; [apply dabs_approx | apply Qabs_nonneg]).
  assert (N : (0 <= dval (dabs (p - r)%dec))%Q) by apply dabs_nonneg.
  assert (A3 : (dval (dabs (p - r)%dec) <= k * (dval q * dval r))%Q).
  { apply ddiv_approx, approx_ge in D; [|apply Qle_shift_div_l; lra].
    apply (Qmult_le_compat_r _ _ (dval r)) in D; [|lra].
    setoid_replace (k * (dval q * dval r))%Q with (k * dval q * dval r)%Q using relation Qeq by ring.
    eapply Qle_trans; [|exact D]. apply Qle_lteq. right. field. lra. }
  assert (Nq : (0 <= dval q)%Q) by (eapply ddiv_nonneg; [exact D | done | lra]).
  assert (A4 : (dval q * 10000 <= k * dval (q * Dec 10000 0)%dec)%Q).
  { pose proof (dmul_approx q (Dec 10000 0)) as A. change (dval (Dec 10000 0)) with (10000 * 1)%Q in A.
    assert (E : (dval q * (10000 * 1) == dval q * 10000)%Q) by ring. rewrite E in A. apply approx_ge; [done|]. lra. }
  assert (A5 : (dval (q * Dec 10000 0)%dec <= dval d + (1 # 2))%Q).
  { apply quantize_half_err in H; [|by right]. change (pow10 (dexp (Dec 1 0))) with 1%Q in H.
    apply Qabs_Qle_condition in H. lra. }
  eapply Qle_trans; [eapply scaled_le; [|exact A1]; lra|]. apply Mono.
  eapply Qle_trans; [eapply scaled_le; [|exact A2]; lra|]. apply Mono.
  eapply Qle_trans; [eapply scaled_le; [|exact A3]; lra|]. apply Mono.
  setoid_replace (10000 * (dval q * dval r))%Q with (dval r * (dval q * 10000))%Q using relation Qeq by ring.
  eapply Qle_trans; [eapply scaled_le; [|exact A4]; lra|]. apply Mono.
  rewrite (Qmult_comm (dval r)). apply Qmult_le_compat_r; [exact A5 | lra].
Qed.

(** The guard passes an order only against a fresh reference: one the store
    has, that is not marked stale and whose last event is recent enough.  The
    price of the order is then within the allowed slippage of that reference,
    to half a basis point and four roundings. *)
Theorem price_guard_sound {X} (load : string -> string -> M X (option PriceReference)) stale_after account symbol p
    max_bps now x d x' :
  check_price load stale_after account symbol (Some p) (Some max_bps) now x = (Ok d, x') -> pg_allowed d = true ->
  exists reference t price, load account symbol x = (Ok (Some reference), x')
    /\ rf_stale reference = false /\ rf_last_event_at reference = Some t /\ aware now - t <= seconds stale_after
    /\ select_reference reference = Some (XFin price) /\ pg_reference_price d = Some (XFin price)
    /\ let k := (1 + 2 * eps)%Q in
       ((0 < dval price)%Q ->
        (10000 * Qabs (dval p - dval price) <= k * (k * (k * (k * ((dval max_bps + (1 # 2)) * dval price)))))%Q).
Proof.
  intros H A. unfold check_price in H. apply mbind_inv_ok in H as (reference & x1 & L & H).
  destruct reference as [reference|]; [|apply mret_inv in H as [<- _]; discriminate A].
  destruct (rf_last_event_at reference) as [t|] eqn:T; [|apply mret_inv in H as [<- _]; discriminate A].
  destruct (rf_stale reference) eqn:S; [apply mret_inv in H as [<- _]; discriminate A|].
  destruct (_ <? _) eqn:F; [apply mret_inv in H as [<- _]; discriminate A|]. apply Z.ltb_ge in F.
  destruct (select_reference reference) as [price|] eqn:P; [|apply mret_inv in H as [<- _]; discriminate A].
  apply mbind_inv_ok in H as (dev & x2 & D & H). apply mlift_inv in D as [D ->].
  apply mret_inv in H as [<- <-]. cbn [pg_allowed pg_reference_price] in *. apply negb_true_iff, dltb_ge in A.
  destruct price as [price| |]; try discriminate D.
  exists reference, t, price. split_and!; try done. intros R. set (k := (1 + 2 * eps)%Q).
  pose proof (deviation_bound _ _ _ D R) as B. cbv zeta in B. fold k in B. refine (Qle_trans _ _ _ B _). pose proof eps_small as [E1 E2].
  assert (Mono : forall a b, (a <= b -> k * a <= k * b)%Q).
  { intros a b Le. rewrite !(Qmult_comm k). apply Qmult_le_compat_r; [done | unfold k; lra]. }
  do 4 apply Mono. apply Qmult_le_compat_r; lra.
Qed.

(** ** A feed that has disconnected *)

Lemma upsert_status_inv status s u s' : upsert_status status s = (Ok u, s') ->
  exists row, price_feed_status (current s')
      = <[(ps_account_id status, ps_venue_symbol status, ps_source status) := row]> (price_feed_status (current s))
    /\ pf_stale row = ps_stale status.
Proof.
  unfold upsert_status. intros H. run_inv. eexists. split; [by run_frame|].
  by destruct (_ !! (_, _, _)).
Qed.

(** The statuses of a monitor are its own. *)
Definition own_statuses (m : Monitor) : Prop :=
  forall k st, mo_latest m !! k = Some st ->
    ps_account_id st = mo_account_id m /\ ps_venue_symbol st = k /\ ps_source st = "combined".

Definition own_status (m : Monitor) (k : string) (st : PriceFeedStatus) : Prop :=
  ps_account_id st = mo_account_id m /\ ps_venue_symbol st = k /\ ps_source st = "combined".

Lemma status_of_own m symbol at_ clk : own_statuses m -> own_status m (canonical_instrument_key symbol) (status_of m symbol at_ clk).
Proof.
  intros O. unfold own_status, status_of. cbn. destruct (mo_latest m !! _) as [st|] eqn:E; [by apply O | done].
Qed.

Lemma store_status_own m k st : own_statuses m -> own_status m k st -> own_statuses (store_status m st).
Proof.
  intros O (A & V & S) k' st' L. cbn in *. apply lookup_insert_Some in L as [[<- <-]|[_ L]]; [done | by apply O].
Qed.

Lemma on_event_own symbol at_ prices w : own_statuses (fst w) ->
  own_statuses (fst (snd (on_event symbol at_ prices w))) /\ mo_account_id (fst (snd (on_event symbol at_ prices w))) = mo_account_id (fst w)
  /\ mo_symbols (fst (snd (on_event symbol at_ prices w))) = mo_symbols (fst w).
Proof.
  destruct w as [m s]. intros O. unfold on_event. pose proof (status_of_own m symbol at_ (clock s) O) as T.
  destruct prices as [[[[mark last] bid] ask]|e]; [destruct (upsert_status _ s)|]; cbn [fst snd];
    (split; [|done]); eapply store_status_own; done.
Qed.

Lemma book_ticker_own symbol bid ask at_ w : own_statuses (fst w) ->
  own_statuses (fst (snd (on_book_ticker symbol bid ask at_ w)))
  /\ mo_account_id (fst (snd (on_book_ticker symbol bid ask at_ w))) = mo_account_id (fst w)
  /\ mo_symbols (fst (snd (on_book_ticker symbol bid ask at_ w))) = mo_symbols (fst w).
Proof.
  intros O. unfold on_book_ticker. destruct (decimal_of (PStr bid)) as [b|e]; [|by apply on_event_own].
  destruct (decimal_of (PStr ask)) as [a|e]; [by apply on_event_own|]. destruct w as [m s]. cbn [fst snd].
  split; [|done]. pose proof (status_of_own m symbol at_ (clock s) O) as T. by eapply store_status_own.
Qed.

(** Some row of a key was written by a feed that has disconnected. *)
Definition dead_row (account k : string) (d : Db) : Prop :=
  exists row, price_feed_status d !! (account, k, "combined") = Some row /\ pf_stale row = true.

Lemma disconnect_symbol_inv reason symbol w u w' : own_statuses (fst w) ->
  disconnect_symbol reason symbol w = (Ok u, w') ->
  own_statuses (fst w') /\ mo_account_id (fst w') = mo_account_id (fst w) /\ mo_symbols (fst w') = mo_symbols (fst w)
  /\ dead_row (mo_account_id (fst w)) (canonical_instrument_key symbol) (current (snd w'))
  /\ forall k, dead_row (mo_account_id (fst w)) k (current (snd w)) -> dead_row (mo_account_id (fst w)) k (current (snd w')).
Proof.
  destruct w as [m s]. intros O H. unfold disconnect_symbol in H.
  pose proof (status_of_own m symbol None (clock s) O) as (A & V & S).
  set (status := status_of m symbol None (clock s)) in *.
  destruct (upsert_status _ s) as [r s1] eqn:U in H. injection H as -> <-.
  apply upsert_status_inv in U as (row & U & St). cbn [ps_account_id ps_venue_symbol ps_source ps_stale] in U, St.
  rewrite A, V, S in U. cbn [fst snd]. split_and!; [by eapply store_status_own | done | done | |].
  - exists row. by rewrite U, lookup_insert_eq.
  - intros k (row' & L & Sr). destruct (decide (k = canonical_instrument_key symbol)) as [->|N].
    + exists row. by rewrite U, lookup_insert_eq.
    + exists row'. by rewrite U, lookup_insert_ne by congruence.
Qed.

Lemma disconnect_all_inv reason symbols w u w' : own_statuses (fst w) ->
  mfor symbols (disconnect_symbol reason) w = (Ok u, w') ->
  own_statuses (fst w') /\ mo_account_id (fst w') = mo_account_id (fst w) /\ mo_symbols (fst w') = mo_symbols (fst w)
  /\ (forall symbol, symbol ∈ symbols ->
       dead_row (mo_account_id (fst w)) (canonical_instrument_key symbol) (current (snd w')))
  /\ forall k, dead_row (mo_account_id (fst w)) k (current (snd w)) -> dead_row (mo_account_id (fst w)) k (current (snd w')).
Proof.
  revert w. induction symbols as [|symbol symbols IH]; intros w O H; cbn in H.
  { apply mret_inv in H as [_ <-]. split_and!; try done. intros symbol I. by inversion I. }
  apply mbind_inv_ok in H as (v & w1 & H1 & H). apply disconnect_symbol_inv in H1 as (O1 & A1 & S1 & D1 & K1); [|done].
  apply IH in H as (O2 & A2 & S2 & D2 & K2); [|done]. rewrite A1 in *. split_and!; [done | done | congruence | |].
  - intros s I. apply elem_of_cons in I as [->|I]; [by apply K2 | by apply D2].
  - intros k D. by apply K2, K1.
Qed.

(** What the feed handles. *)
Inductive feed_op :=
  | MarkPrice (symbol price : string) (event_at : option datetime)
  | LastTrade (symbol price : string) (event_at : option datetime)
  | BookTicker (symbol bid ask : string) (event_at : option datetime)
  | Disconnect (reason : string)
  | Reconnect.

Definition run_feed (w : Monitor * Conn) (op : feed_op) : Monitor * Conn :=
  snd (match op with
       | MarkPrice symbol price at_ => on_mark_price symbol price at_ w
       | LastTrade symbol price at_ => on_last_trade symbol price at_ w
       | BookTicker symbol bid ask at_ => on_book_ticker symbol bid ask at_ w
       | Disconnect reason => on_disconnect reason w
       | Reconnect => on_reconnect w
       end).

Lemma disconnect_fold_own reason symbols w : own_statuses (fst w) ->
  own_statuses (fst (snd (mfor symbols (disconnect_symbol reason) w)))
  /\ mo_account_id (fst (snd (mfor symbols (disconnect_symbol reason) w))) = mo_account_id (fst w)
  /\ mo_symbols (fst (snd (mfor symbols (disconnect_symbol reason) w))) = mo_symbols (fst w).
Proof.
  revert w. induction symbols as [|symbol symbols IH]; intros w O; [done|]. cbn [mfor].
  assert (P : own_statuses (fst (snd (disconnect_symbol reason symbol w)))
    /\ mo_account_id (fst (snd (disconnect_symbol reason symbol w))) = mo_account_id (fst w)
    /\ mo_symbols (fst (snd (disconnect_symbol reason symbol w))) = mo_symbols (fst w)).
  { destruct w as [m s]. unfold disconnect_symbol. pose proof (status_of_own m symbol None (clock s) O) as T.
    destruct (upsert_status _ s); cbn [fst snd]. split; [|done]. by eapply store_status_own. }
  unfold mbind, M_bind. destruct (disconnect_symbol reason symbol w) as [[[]|e] w1]; cbn [fst snd] in *; [|done].
  destruct P as (O1 & A1 & S1). destruct (IH w1 O1) as (O2 & A2 & S2). split_and!; [done | congruence..].
Qed.

Lemma run_feed_own w op : own_statuses (fst w) ->
  own_statuses (fst (run_feed w op)) /\ mo_account_id (fst (run_feed w op)) = mo_account_id (fst w)
  /\ mo_symbols (fst (run_feed w op)) = mo_symbols (fst w).
Proof.
  intros O. destruct op; unfold run_feed, on_mark_price, on_last_trade.
  - by apply on_event_own.
  - by apply on_event_own.
  - by apply book_ticker_own.
  - destruct w as [m s]. unfold on_disconnect.
    apply (disconnect_fold_own reason (mo_symbols m) (count_disconnect m, s)). exact O.
  - by destruct w.
Qed.

Lemma feed_own ops account symbols m s : monitor account symbols = Ok m ->
  let w := fold_left run_feed ops (m, s) in
  own_statuses (fst w) /\ mo_account_id (fst w) = mo_account_id m /\ mo_symbols (fst w) = symbols.
Proof.
  intros H. assert (I : own_statuses m /\ mo_symbols m = symbols).
  { unfold monitor in H. apply rbind_inv_ok in H as (a & _ & H). apply ok_inj in H as <-. split; [|done]. by intros k st L. }
  destruct I as [O E]. cbv zeta. induction ops as [|op ops IH] using rev_ind; [done|]. rewrite fold_left_app. cbn [fold_left].
  destruct IH as (O' & A & S). destruct (run_feed_own _ op O') as (O2 & A2 & S2). split_and!; [done | congruence..].
Qed.

Lemma reference_total a b : reference_order a b = true \/ reference_order b a = true.
Proof.
  unfold reference_order. destruct (String.eqb (fst a) "combined"), (String.eqb (fst b) "combined"); cbn; auto;
    rewrite ?orb_false_l; destruct (Z.le_ge_cases (pf_updated_at (snd a)) (pf_updated_at (snd b))) as [L|L];
    [right|left|right|left]; by apply Z.leb_le.
Qed.

Lemma reference_trans : Transitive (fun a b => reference_order a b = true).
Proof.
  intros a b c. unfold reference_order.
  destruct (String.eqb (fst a) "combined"), (String.eqb (fst b) "combined"), (String.eqb (fst c) "combined"); cbn;
    rewrite ?orb_true_iff, ?Z.leb_le; intros; try done; lia.
Qed.

(** The reference of a symbol whose combined row is dead is stale. *)
Lemma dead_reference account account' symbol d : canonical_account_id (Some account') = Ok account ->
  dead_row account (canonical_instrument_key symbol) (current d) ->
  exists reference, load_reference account' symbol d = (Ok (Some reference), d) /\ rf_stale reference = true.
Proof.
  intros A (row & L & S). unfold load_reference. rewrite A. unfold mbind, M_bind, mlift, select. cbn.
  set (rows := reference_rows account (canonical_instrument_key symbol) (current d)).
  assert (R : forall source r, (source, r) ∈ rows <->
    price_feed_status (current d) !! (account, canonical_instrument_key symbol, source) = Some r).
  { intros source r. unfold rows, reference_rows. rewrite list_elem_of_omap, <- elem_of_map_to_list. split.
    - intros ([[[a v] so] r'] & I & E). destruct (String.eqb_spec a account) as [->|]; [|discriminate E].
      destruct (String.eqb_spec v (canonical_instrument_key symbol)) as [->|]; [|discriminate E]. by injection E as <- <-.
    - intros I. exists ((account, canonical_instrument_key symbol, source), r). cbn. by rewrite !String.eqb_refl. }
  assert (C : ("combined", row) ∈ rows) by (by apply R).
  destruct (hd_error (sort_by reference_order rows)) as [[source r]|] eqn:H.
  2:{ pose proof (sort_by_perm reference_order rows) as P. destruct (sort_by _ rows); [|discriminate H].
      apply Permutation_nil_l in P. rewrite <- P in C. by inversion C. }
  apply (sort_by_hd reference_order) in H as [I Least]; [|apply reference_total | apply reference_trans].
  specialize (Least _ C). apply R in I. eexists. split; [reflexivity|]. cbn.
  assert (E : source = "combined").
  { unfold reference_order in Least. cbn [fst snd] in Least.
    destruct (String.eqb_spec source "combined") as [|N]; [done|]. cbn in Least. discriminate Least. }
  subst source. congruence.
Qed.

(** After a feed has lost its connection no order for one of its symbols
    passes the guard, whatever events the feed had seen before and however
    the account and the symbol are spelt: the reference is refused as stale. *)
Theorem disconnect_denies account symbols m s ops reason u w' account' symbol symbol' stale_after p max_bps now d s'' :
  monitor account symbols = Ok m ->
  on_disconnect reason (fold_left run_feed ops (m, s)) = (Ok u, w') ->
  symbol ∈ symbols -> canonical_instrument_key symbol' = canonical_instrument_key symbol ->
  canonical_account_id (Some account') = Ok (mo_account_id m) ->
  check_price load_reference stale_after account' symbol' p max_bps now (snd w') = (Ok d, s'') ->
  pg_allowed d = false /\ pg_reason d = "price_reference_stale".
Proof.
  intros M D I K A H. destruct (feed_own ops account symbols m s M) as (O & Ac & Sy).
  destruct (fold_left run_feed ops (m, s)) as [m1 s1]. cbn [fst] in *. unfold on_disconnect in D.
  apply disconnect_all_inv in D as (_ & _ & _ & Dead & _); [|exact O]. cbn [fst] in Dead.
  rewrite Sy in Dead. specialize (Dead _ I). rewrite <- K in Dead. change (mo_account_id (count_disconnect m1)) with (mo_account_id m1) in Dead.
  rewrite Ac in Dead. destruct (dead_reference _ _ _ _ A Dead) as (reference & L & S).
  unfold check_price in H. apply mbind_inv_ok in H as (r & s2 & L' & H). rewrite L in L'. injection L' as <- <-.
  destruct (rf_last_event_at reference); [rewrite S in H|]; apply mret_inv in H as [<- _]; done.
Qed.

(** ** A feed of one symbol *)

Definition sample_feed : result Monitor := monitor " account-a" ["BTCUSDT-PERP.BINANCE"].

Definition sample_feed_state : Monitor * Conn :=
  match sample_feed with
  | Ok m => run_feed (m, connect empty_db 1000000) (MarkPrice "BTCUSDT-PERP.BINANCE" "60000" None)
  | Raise _ => ({| mo_account_id := ""; mo_symbols := []; mo_disconnects := 0; mo_reconnects := 0; mo_updates := 0;
                   mo_latest := ∅ |}, connect empty_db 0)
  end.

(** The age the guard checks is that of the last event of the symbol, not of the
    price it compares with: a mark price of an hour ago passes when a book
    ticker has just been seen. *)
Definition sample_old_mark : Monitor * Conn :=
  match sample_feed with
  | Ok m => fold_left run_feed [MarkPrice "BTCUSDT" "60000" (Some (utc 0));
                                BookTicker "BTCUSDT" "70000" "70001" (Some (utc (seconds 3600)))]
              (m, connect empty_db 1000000)
  | Raise _ => sample_feed_state
  end.

Lemma old_mark_passes :
  match check_price load_reference 30 "account-a" "BTCUSDT" (Some (Dec 60000 0)) (Some (Dec 10 0)) (utc (seconds 3601))
          (snd sample_old_mark) with
  | (Ok d, _) => pg_allowed d
  | (Raise _, _) => false
  end = true.
Proof. vm_compute. reflexivity. Qed.

Lemma price_guard_sound_witness :
  exists d s', check_price load_reference 30 "account-a" "btcusdt" (Some (Dec 60050 0)) (Some (Dec 10 0)) (utc 2000000)
      (snd sample_feed_state) = (Ok d, s')
    /\ pg_allowed d = true
    /\ exists price, pg_reference_price d = Some (XFin price).
Proof.
  assert (R : match check_price load_reference 30 "account-a" "btcusdt" (Some (Dec 60050 0)) (Some (Dec 10 0)) (utc 2000000)
                      (snd sample_feed_state) with (Ok d, _) => pg_allowed d | _ => false end = true)
    by (vm_compute; reflexivity).
  destruct (check_price load_reference 30 "account-a" "btcusdt" (Some (Dec 60050 0)) (Some (Dec 10 0)) (utc 2000000)
    (snd sample_feed_state)) as [[d|e] s'] eqn:E; [|discriminate R].
  destruct (price_guard_sound _ _ _ _ _ _ _ _ _ _ E R) as (reference & t & price & _ & _ & _ & _ & _ & P & _).
  exists d, s'. split; [reflexivity|]. split; [exact R|]. exists price. exact P.
Defined.

Lemma disconnect_denies_witness :
  exists w' d s'', on_disconnect "reset" sample_feed_state = (Ok tt, w')
    /\ check_price load_reference 30 "account-a" "BTCUSDT" (Some (Dec 60050 0)) (Some (Dec 10 0)) (utc 2000000) (snd w')
       = (Ok d, s'')
    /\ pg_reason d = "price_reference_stale".
Proof.
  assert (R : match on_disconnect "reset" sample_feed_state with
              | (Ok _, w') => match check_price load_reference 30 "account-a" "BTCUSDT" (Some (Dec 60050 0))
                                      (Some (Dec 10 0)) (utc 2000000) (snd w') with (Ok _, _) => true | _ => false end
              | _ => false end = true) by (vm_compute; reflexivity).
  destruct (on_disconnect "reset" sample_feed_state) as [[[]|e] w'] eqn:D; [|discriminate R].
  destruct (check_price load_reference 30 "account-a" "BTCUSDT" (Some (Dec 60050 0)) (Some (Dec 10 0)) (utc 2000000)
    (snd w')) as [[d|e] s''] eqn:E; [|discriminate R].
  exists w', d, s''. split; [reflexivity|]. split; [exact E|].
  destruct sample_feed as [m|e] eqn:M; [|discriminate M].
  assert (S : sample_feed_state
    = fold_left run_feed [MarkPrice "BTCUSDT-PERP.BINANCE" "60000" None] (m, connect empty_db 1000000))
    by (unfold sample_feed_state; rewrite M; reflexivity).
  rewrite S in D.
  refine (proj2 (disconnect_denies _ _ _ _ _ _ _ _ _ "BTCUSDT-PERP.BINANCE" _ _ _ _ _ _ _ M D _ _ _ E)).
  - left.
  - vm_compute. reflexivity.
  - unfold sample_feed, monitor in M. cbn in M. injection M as <-. vm_compute. reflexivity.
Defined.
