(* ===== verification/NodeLimits.v ===== *)
(** * NodeLimits: order limits and retries of the node

    Models nautilus-node/risk/config.py and risk/limits.py (the limits given
    to the trading engine and their deterministic mirror),
    order_management/errors.py (what kind of error an execution error is) and
    nautilus-node/strategy/retry_policy.py (what is done about it).  The
    engine's own configuration objects are constructed outside the repository.
    Times are instants; [remainder_near] is zero exactly when the remainder is,
    and its limit on the quotient is taken to be the remainder's. *)

From Stdlib Require Import ZArith Lia Ascii QArith Lqa.
From S2P Require Import Prelude Decimal PyString DecText PyValue PyTime Store External.
Open Scope string_scope.
Open Scope Z_scope.

(** ** config.py *)

Definition DEFAULT_LIVE_ENTRY_NOTIONAL_KEY : string := "*".

Record InstrumentPrecision := { ip_price_increment : string; ip_quantity_increment : string }.

Record RiskLimitConfig := {
  rl_max_notional_per_order : list (string * string);
  rl_max_order_submit_rate : string;
  rl_max_order_modify_rate : string;
  rl_instrument_precision : list (string * InstrumentPrecision) }.

(** [s.split(sep, n)] for [n] splits at most. *)
Fixpoint split_max (n : nat) (sep : ascii) (s : string) : list string :=
  match n with
  | O => [s]
  | S n => let '(head, found, tail) := partition sep s in
           if found : bool then head :: split_max n sep tail else [s]
  end.

(** [s.isdigit()] *)
Definition isdigit (s : string) : bool := negb (is_empty s) && sforall is_digit s.

(** [_parse_rate] of config.py *)
Definition validate_rate (value label : string) : result unit :=
  match split_max 1 "/" value with
  | [count_raw; interval] =>
      match parse_int count_raw with
      | None => Raise (ValueError (label +:+ " count must be an integer"))
      | Some count =>
          if count <=? 0 then Raise (ValueError (label +:+ " count must be positive"))
          else
            let parts := split_max (String.length interval) ":" interval in
            if negb (length parts =? 3)%nat || existsb (fun part => negb (isdigit part)) parts
            then Raise (ValueError (label +:+ " interval must be HH:MM:SS"))
            else Ok tt
      end
  | _ => Raise (ValueError (label +:+ " must use Nautilus rate format count/HH:MM:SS"))
  end.

Definition positive_decimal (value label : string) : result dec :=
  match parse_dec value with
  | None => Raise (ValueError (label +:+ " must be a decimal value"))
  | Some (XFin d) => if dleb d dzero then Raise (ValueError (label +:+ " must be positive")) else Ok d
  | Some _ => Raise (ValueError (label +:+ " must be positive"))
  end.

(** [sorted(inventory)]: the keys of a mapping are distinct. *)
Definition by_instrument (a b : string * dec) : bool := String.leb (fst a) (fst b).

Definition validate_limit_config (config : RiskLimitConfig) : result (list (string * dec)) :=
  match rl_max_notional_per_order config with
  | [] => Raise (ValueError "max_notional_per_order must not be empty")
  | caps =>
      inventory ← mapR (fun p => let '(instrument_id, value) := p in
        if is_empty instrument_id
        then Raise (ValueError "max_notional_per_order instrument id must be non-empty")
        else
          cap ← positive_decimal value ("max_notional_per_order[" +:+ instrument_id +:+ "]");
          Ok (instrument_id, cap)) caps;
      _ ← validate_rate (rl_max_order_submit_rate config) "max_order_submit_rate";
      _ ← validate_rate (rl_max_order_modify_rate config) "max_order_modify_rate";
      Ok (sort_by by_instrument inventory)
  end.

Record RiskEngineKwargs := {
  rw_bypass : bool;
  rw_max_order_submit_rate : string;
  rw_max_order_modify_rate : string;
  rw_max_notional_per_order : list (string * string) }.

Definition build_live_risk_engine_kwargs (config : RiskLimitConfig) : result RiskEngineKwargs :=
  inventory ← validate_limit_config config;
  Ok {| rw_bypass := false; rw_max_order_submit_rate := rl_max_order_submit_rate config;
        rw_max_order_modify_rate := rl_max_order_modify_rate config;
        rw_max_notional_per_order :=
          map (fun p => (fst p, format_f (snd p)))
            (List.filter (fun p => negb (String.eqb (fst p) DEFAULT_LIVE_ENTRY_NOTIONAL_KEY)) inventory) |}.

Definition build_live_entry_notional_inventory (config : RiskLimitConfig) : result (list (string * string)) :=
  inventory ← validate_limit_config config; Ok (map (fun p => (fst p, format_f (snd p))) inventory).

(** ** limits.py *)

Record LimitOrderRequest := { lo_instrument_id : string; lo_quantity : string; lo_price : string; lo_ts : Z }.

Record RiskLimitDecision := { lm_allowed : bool; lm_reason : string }.
Definition allowed : RiskLimitDecision := {| lm_allowed := true; lm_reason := "" |}.
Definition denied (reason : string) : RiskLimitDecision := {| lm_allowed := false; lm_reason := reason |}.

Inductive TradingStateOrderAction := SUBMIT | MODIFY | CANCEL.

(** [TradingStateOrderGate.check] *)
Definition gate_check (state : string) (action : TradingStateOrderAction) (reduce_only : bool) : RiskLimitDecision :=
  match action with
  | CANCEL => allowed
  | _ =>
      if String.eqb state "ACTIVE" then allowed
      else if String.eqb state "HALTED" then denied "trading_halted"
      else if String.eqb state "REDUCING" then (if reduce_only then allowed else denied "trading_reducing")
      else denied "unknown_trading_state"
  end.

(** [_parse_rate] of limits.py: a count and a window in microseconds. *)
Definition parse_rate (value : string) : result (Z * Z) :=
  let unpack := Raise (ValueError "not enough values to unpack") in
  let int s := match parse_int s with
               | Some n => Ok n
               | None => Raise (ValueError "invalid literal for int() with base 10")
               end in
  match split_max 1 "/" value with
  | [count_raw; interval] =>
      match split_max 2 ":" interval with
      | [hours; minutes; secs] =>
          hours ← int hours; minutes ← int minutes; secs ← int secs; count ← int count_raw;
          Ok (count, seconds (hours * 3600 + minutes * 60 + secs))
      | _ => unpack
      end
  | _ => unpack
  end.

Definition limit_decimal (value label : string) : result xdec :=
  match parse_dec value with
  | Some x => Ok x
  | None => Raise (ValueError (label +:+ " must be decimal"))
  end.

Definition is_multiple (value increment : xdec) : result bool :=
  nonpositive ← xleb increment (XFin dzero);
  if nonpositive : bool then Raise (ValueError "increment must be positive")
  else
    match value, increment with
    | XFin v, XFin i => r ← drem v i; Ok (dis_zero r)
    | XFin v, _ => Ok (dis_zero v)
    | XInf _, _ => Raise InvalidOperation
    | XNaN, _ => Ok false
    end.

Record Mirror := { mi_submit : list Z; mi_modify : list Z }.
Definition fresh_mirror : Mirror := {| mi_submit := []; mi_modify := [] |}.

(** The timestamps that have left the window are dropped from the front. *)
Fixpoint drop_old (cutoff : Z) (timestamps : list Z) : list Z :=
  match timestamps with
  | t :: rest => if t <=? cutoff then drop_old cutoff rest else timestamps
  | [] => []
  end.

Definition check_rate (timestamps : list Z) (rate : Z * Z) (ts : Z) (reason : string) : RiskLimitDecision * list Z :=
  let '(count, window) := rate in
  let timestamps := drop_old (ts - window) timestamps in
  if count <=? Z.of_nat (length timestamps) then (denied reason, timestamps)
  else (allowed, (timestamps ++ [ts])%list).

Section mirror.
Context (config : RiskLimitConfig) (submit_rate modify_rate : Z * Z).

Definition check_notional (request : LimitOrderRequest) : result RiskLimitDecision :=
  match aget (lo_instrument_id request) (rl_max_notional_per_order config) with
  | None => Ok (denied "max_notional_missing")
  | Some limit_raw =>
      quantity ← limit_decimal (lo_quantity request) "quantity";
      price ← limit_decimal (lo_price request) "price";
      q ← xleb quantity (XFin dzero);
      nonpositive ← (if q : bool then Ok true else xleb price (XFin dzero));
      if nonpositive : bool then Ok (denied "non_positive_order")
      else
        notional ← xmul quantity price;
        limit ← limit_decimal limit_raw "max_notional";
        exceeded ← xltb limit notional;
        Ok (if exceeded : bool then denied "max_notional_exceeded" else allowed)
  end.

Definition check_precision (request : LimitOrderRequest) : result RiskLimitDecision :=
  match aget (lo_instrument_id request) (rl_instrument_precision config) with
  | None => Ok allowed
  | Some precision =>
      price_increment ← limit_decimal (ip_price_increment precision) "price_increment";
      quantity_increment ← limit_decimal (ip_quantity_increment precision) "quantity_increment";
      price ← limit_decimal (lo_price request) "price";
      price_ok ← is_multiple price price_increment;
      if negb price_ok then Ok (denied "instrument_precision")
      else
        quantity ← limit_decimal (lo_quantity request) "quantity";
        quantity_ok ← is_multiple quantity quantity_increment;
        Ok (if negb quantity_ok then denied "instrument_precision" else allowed)
  end.

(** [_check_rate] on the timestamps of the submissions, and of the changes. *)
Definition submit_slot (request : LimitOrderRequest) : M Mirror RiskLimitDecision := fun m =>
  let '(decision, timestamps) := check_rate (mi_submit m) submit_rate (lo_ts request) "submit_rate_exceeded" in
  (Ok decision, {| mi_submit := timestamps; mi_modify := mi_modify m |}).

Definition modify_slot (request : LimitOrderRequest) : M Mirror RiskLimitDecision := fun m =>
  let '(decision, timestamps) := check_rate (mi_modify m) modify_rate (lo_ts request) "modify_rate_exceeded" in
  (Ok decision, {| mi_submit := mi_submit m; mi_modify := timestamps |}).

Definition check_submit (request : LimitOrderRequest) : M Mirror RiskLimitDecision :=
  notional_decision ← mlift (check_notional request);
  if negb (lm_allowed notional_decision) then mret notional_decision
  else
    precision_decision ← mlift (check_precision request);
    if negb (lm_allowed precision_decision) then mret precision_decision
    else submit_slot request.

Definition check_modify (request : LimitOrderRequest) : M Mirror RiskLimitDecision :=
  precision_decision ← mlift (check_precision request);
  if negb (lm_allowed precision_decision) then mret precision_decision
  else modify_slot request.

End mirror.

(** ** errors.py *)

Inductive ErrorCategory := RETRYABLE | PERMANENT | UNKNOWN_OUTCOME.

Record ClassifiedExecutionError := {
  ce_category : ErrorCategory;
  ce_reason : string;
  ce_raw : string;
  ce_stage : option string }.

Definition PERMANENT_MARKERS : list string :=
  ["invalid quantity"; "invalid price"; "precision"; "min_notional"; "insufficient margin"; "insufficient balance";
   "post only would take"; "rejected"; "denied"; "filter failure"].
Definition RETRYABLE_MARKERS : list string :=
  ["rate limit"; "too many requests"; "503"; "502"; "504"; "temporarily unavailable"; "exchange unavailable";
   "service unavailable"; "throttled"].
Definition UNKNOWN_MARKERS : list string :=
  ["timeout"; "connection lost"; "network"; "unknown"; "socket closed"; "submit_uncertain"].

(** The text the markers are looked for in, and whether one occurs. *)
Definition error_text (raw : string) (stage : option string) : string := lower (default "" stage +:+ " " +:+ raw).
Definition marked (markers : list string) (text : string) : bool := existsb (fun marker => contains marker text) markers.

(** [classify_execution_error] of an error whose [_raw_error] is [raw]. *)
Definition classify_execution_error (raw : string) (stage : option string) : ClassifiedExecutionError :=
  let text := error_text raw stage in
  let classified category reason := {| ce_category := category; ce_reason := reason; ce_raw := raw; ce_stage := stage |} in
  if marked UNKNOWN_MARKERS text then classified UNKNOWN_OUTCOME "network_uncertain"
  else if marked PERMANENT_MARKERS text then classified PERMANENT "permanent_rejection"
  else if marked RETRYABLE_MARKERS text then classified RETRYABLE "transient_failure"
  else if match stage with Some s => ends_with "_uncertain" s | None => false end
  then classified UNKNOWN_OUTCOME "network_uncertain"
  else classified UNKNOWN_OUTCOME "unclassified_execution_error".

(** ** retry_policy.py *)

Record RetryPolicyConfig := {
  rp_max_retries : Z;
  rp_base_delay_seconds : Z;
  rp_max_delay_seconds : Z;
  rp_jitter_fraction : dec }.

Record RetryMetrics := { rm_retryable : Z; rm_permanent : Z; rm_unknown : Z; rm_exhausted : Z }.

Record RetryDecision := {
  ry_action : string;
  ry_reason : string;
  ry_delay_seconds : option Z;
  ry_next_attempt_at : option Z;
  ry_category : ErrorCategory }.

(** [Decimal("2") ** n], which is exact up to 2^93. *)
Definition power_of_two (n : Z) : dec := fix28 (Dec (2 ^ n) 0).

(** [_delay_seconds], with what [random_fraction()] returned. *)
Definition delay_seconds (config : RetryPolicyConfig) (attempt : Z) (random_fraction : dec) : Z :=
  let base := (dec_of_int (rp_base_delay_seconds config) * power_of_two (Z.max (attempt - 1) 0))%dec in
  let jitter := (base * rp_jitter_fraction config * random_fraction)%dec in
  dec_to_int (dmin (base + jitter)%dec (dec_of_int (rp_max_delay_seconds config))).

(** [RetryPolicy.decide] *)
Definition decide (config : RetryPolicyConfig) (error : ClassifiedExecutionError) (attempt : Z) (now : datetime)
    (random_fraction : dec) (m : RetryMetrics) : RetryDecision * RetryMetrics :=
  let decision action reason := {|
    ry_action := action; ry_reason := reason; ry_delay_seconds := None; ry_next_attempt_at := None;
    ry_category := ce_category error |} in
  match ce_category error with
  | UNKNOWN_OUTCOME =>
      (decision "reconcile" (ce_reason error),
       {| rm_retryable := rm_retryable m; rm_permanent := rm_permanent m; rm_unknown := rm_unknown m + 1;
          rm_exhausted := rm_exhausted m |})
  | PERMANENT =>
      (decision "terminal" (ce_reason error),
       {| rm_retryable := rm_retryable m; rm_permanent := rm_permanent m + 1; rm_unknown := rm_unknown m;
          rm_exhausted := rm_exhausted m |})
  | RETRYABLE =>
      let m := {| rm_retryable := rm_retryable m + 1; rm_permanent := rm_permanent m; rm_unknown := rm_unknown m;
                  rm_exhausted := rm_exhausted m |} in
      if rp_max_retries config <=? attempt then
        (decision "terminal" "max_retries_exhausted",
         {| rm_retryable := rm_retryable m; rm_permanent := rm_permanent m; rm_unknown := rm_unknown m;
            rm_exhausted := rm_exhausted m + 1 |})
      else
        let delay := delay_seconds config attempt random_fraction in
        ({| ry_action := "retry"; ry_reason := ce_reason error; ry_delay_seconds := Some delay;
            ry_next_attempt_at := Some (aware now + seconds delay); ry_category := ce_category error |}, m)
  end.

(** ** The rate of submissions *)

(** How many of the times lie in the window that ends at [t]. *)
Definition in_window (window t : Z) (times : list Z) : Z :=
  Z.of_nat (length (List.filter (fun a => (t - window <? a) && (a <=? t)) times)).

Lemma drop_old_filter c l : StronglySorted Z.le l -> drop_old c l = List.filter (fun a => c <? a) l.
Proof.
  induction 1 as [|a l S IH F]; [done|]. cbn. destruct (a <=? c) eqn:E; bprop.
  - replace (c <? a) with false by lia. done.
  - replace (c <? a) with true by lia. f_equal. clear S IH. induction F as [|b l L F IH]; [done|]. cbn.
    replace (c <? b) with true by lia. by f_equal.
Qed.

Lemma filter_length_le {A} (p q : A -> bool) l : (forall x, p x = true -> q x = true) ->
  (length (List.filter p l) <= length (List.filter q l))%nat.
Proof.
  intros I. induction l as [|x l IH]; [done|]. cbn. destruct (p x) eqn:E; [rewrite (I _ E); cbn; lia|].
  destruct (q x); cbn; lia.
Qed.

Lemma filter_filter {A} (p q : A -> bool) l : (forall x, q x = true -> p x = true) ->
  List.filter q (List.filter p l) = List.filter q l.
Proof.
  intros I. induction l as [|x l IH]; [done|]. cbn. destruct (p x) eqn:E; cbn; rewrite IH; [done|].
  destruct (q x) eqn:Q; [rewrite (I _ Q) in E; done | done].
Qed.

Lemma sorted_filter (p : Z -> bool) l : StronglySorted Z.le l -> StronglySorted Z.le (List.filter p l).
Proof.
  induction 1 as [|a l S IH F]; cbn; [constructor|]. destruct (p a); [|exact IH]. constructor; [exact IH|].
  rewrite List.Forall_forall in *. intros x I. apply filter_In in I as [I _]. by apply F.
Qed.

Lemma sorted_snoc x l : StronglySorted Z.le l -> (forall h, h ∈ l -> h <= x) -> StronglySorted Z.le (l ++ [x]).
Proof.
  induction 1 as [|a l S IH F]; cbn; intros B; [repeat constructor|]. constructor.
  - apply IH. intros h I. apply B. by right.
  - apply List.Forall_app. split; [done|]. constructor; [apply B; left | constructor].
Qed.

Section rate.
Context (config : RiskLimitConfig) (count window : Z).
Hypothesis window_pos : 0 < window.

(** The requests of a sequence that are allowed; one that raises changes
    nothing. *)
Fixpoint admitted (requests : list LimitOrderRequest) (m : Mirror) : list LimitOrderRequest :=
  match requests with
  | [] => []
  | r :: requests =>
      match check_submit config (count, window) r m with
      | (Ok d, m') => if lm_allowed d then r :: admitted requests m' else admitted requests m'
      | (Raise _, m') => admitted requests m'
      end
  end.

(** A submission that reaches the rate limiter has passed the other limits. *)
Definition within_limits (r : LimitOrderRequest) : Prop :=
  check_notional config r = Ok allowed /\ check_precision config r = Ok allowed.

Lemma allowed_is config' r d : check_notional config' r = Ok d -> lm_allowed d = true -> d = allowed.
Proof.
  unfold check_notional. intros H A. destruct (aget _ _); [|apply ok_inj in H as <-; discriminate A]. run_inv.
  repeat (case_match; run_inv); first [done | discriminate A].
Qed.

Lemma precision_allowed_is config' r d : check_precision config' r = Ok d -> lm_allowed d = true -> d = allowed.
Proof.
  unfold check_precision. intros H A. destruct (aget _ _); [|by apply ok_inj in H as <-]. run_inv.
  repeat (case_match; run_inv); first [done | discriminate A].
Qed.

Lemma check_submit_inv r m d m' : check_submit config (count, window) r m = (Ok d, m') ->
  (m' = m /\ lm_allowed d = false)
  \/ (within_limits r
      /\ let kept := drop_old (lo_ts r - window) (mi_submit m) in
         if count <=? Z.of_nat (length kept) then lm_allowed d = false /\ mi_submit m' = kept
         else d = allowed /\ mi_submit m' = (kept ++ [lo_ts r])%list).
Proof.
  unfold check_submit. intros H. apply mbind_inv_ok in H as (n & s1 & H1 & H). apply mlift_inv in H1 as [N ->].
  destruct (lm_allowed n) eqn:An; cbn [negb] in H; [|apply mret_inv in H as [<- <-]; by left].
  apply mbind_inv_ok in H as (p & s1 & H1 & H). apply mlift_inv in H1 as [P ->].
  destruct (lm_allowed p) eqn:Ap; cbn [negb] in H; [|apply mret_inv in H as [<- <-]; by left].
  apply allowed_is in N as E; [|done]. apply precision_allowed_is in P as E'; [|done]. subst n p.
  right. split; [done|]. unfold submit_slot, check_rate in H. cbv zeta. destruct (count <=? _); by injection H as <- <-.
Qed.

Lemma raised_unchanged r m e m' : check_submit config (count, window) r m = (Raise e, m') -> m' = m.
Proof.
  unfold check_submit, mbind, M_bind, mlift. destruct (check_notional config r) as [n|]; [|by intros [= _ <-]].
  destruct (negb (lm_allowed n)); [done|]. destruct (check_precision config r) as [p|]; [|by intros [= _ <-]].
  destruct (negb (lm_allowed p)); [done|]. unfold submit_slot. by destruct (check_rate _ _ _ _).
Qed.

(** Seen [H] so far, of which the mirror keeps what is after [c]. *)
Lemma admitted_rate requests : forall m H c,
  StronglySorted Z.le (map lo_ts requests) -> StronglySorted Z.le H ->
  (forall h r, h ∈ H -> r ∈ requests -> h <= lo_ts r) ->
  mi_submit m = List.filter (fun a => c <? a) H -> (forall r, r ∈ requests -> c <= lo_ts r - window) ->
  (forall t, in_window window t H <= Z.max 0 count) ->
  forall t, in_window window t (H ++ map lo_ts (admitted requests m)) <= Z.max 0 count.
Proof.
  induction requests as [|r requests IH]; intros m H c S SH HR M C W t.
  { cbn. by rewrite app_nil_r. }
  cbn [map] in S. inversion S as [|? ? S' F]; subst.
  assert (Later : forall r', r' ∈ requests -> lo_ts r <= lo_ts r').
  { intros r' I. rewrite List.Forall_forall in F. apply F, in_map. by apply list_elem_of_In. }
  assert (Cr : c <= lo_ts r - window) by (apply C; left).
  cbn [admitted]. destruct (check_submit config (count, window) r m) as [[d|e] m'] eqn:E.
  2:{ apply raised_unchanged in E as ->. apply (IH m H c); try done; intros; [apply HR | apply C]; try done; by right. }
  apply check_submit_inv in E as [[-> ->]|[_ E]].
  { apply (IH m H c); try done; intros; [apply HR | apply C]; try done; by right. }
  assert (K : drop_old (lo_ts r - window) (mi_submit m) = List.filter (fun a => lo_ts r - window <? a) H).
  { rewrite M, drop_old_filter; [apply filter_filter; intros; lia|].
    by apply sorted_filter. }
  rewrite K in E. cbv zeta in E. destruct (count <=? _) eqn:L.
  - destruct E as [-> E]. apply (IH m' H (lo_ts r - window)); try done; intros.
    + apply HR; [done | by right].
    + specialize (Later r0 ltac:(done)). lia.
  - destruct E as [-> E]. cbn [lm_allowed allowed map].
    rewrite (cons_middle (lo_ts r) H), app_assoc. bprop.
    assert (Hr : forall h, h ∈ H -> h <= lo_ts r) by (intros h I; apply HR; [done | left]).
    apply (IH m' (H ++ [lo_ts r])%list (lo_ts r - window)); [done| | | | |].
    + by apply sorted_snoc.
    + intros h r' I I'. apply elem_of_app in I as [I|I]; [apply HR; [done | by right]|].
      apply list_elem_of_singleton in I as ->. by apply Later.
    + rewrite E, List.filter_app. cbn. by replace (lo_ts r - window <? lo_ts r) with true by lia.
    + intros r' I. specialize (Later _ I). lia.
    + intros u. specialize (W u). unfold in_window in *. rewrite List.filter_app, length_app. cbn [List.filter].
      destruct ((u - window <? lo_ts r) && (lo_ts r <=? u)) eqn:In; cbn [length]; [|lia].
      pose proof (filter_length_le (fun a => (u - window <? a) && (a <=? u)) (fun a => lo_ts r - window <? a) H) as Q.
      assert (Q' : forall a, (u - window <? a) && (a <=? u) = true -> (lo_ts r - window <? a) = true)
        by (intros a Ha; bprop; apply Z.ltb_lt; lia).
      specialize (Q Q'). lia.
Qed.

Lemma admitted_limits requests : forall m r, r ∈ admitted requests m -> r ∈ requests /\ within_limits r.
Proof.
  induction requests as [|q requests IH]; intros m r I; [by inversion I|]. cbn [admitted] in I.
  destruct (check_submit config (count, window) q m) as [[d|e] m'] eqn:E.
  2:{ apply IH in I as [? ?]. split; [by right | done]. }
  destruct (lm_allowed d) eqn:A.
  - apply elem_of_cons in I as [->|I]; [|apply IH in I as [? ?]; split; [by right | done]]. split; [left|].
    apply check_submit_inv in E as [[_ F]|[W _]]; [congruence | done].
  - apply IH in I as [? ?]. split; [by right | done].
Qed.

End rate.

Lemma check_notional_inv config r : check_notional config r = Ok allowed ->
  exists limit q p, (exists raw, aget (lo_instrument_id r) (rl_max_notional_per_order config) = Some raw
      /\ parse_dec raw = Some limit)
    /\ parse_dec (lo_quantity r) = Some q /\ parse_dec (lo_price r) = Some p
    /\ forall l x y, limit = XFin l -> q = XFin x -> p = XFin y ->
         (0 < dval x)%Q /\ (0 < dval y)%Q /\ (dval (x * y)%dec <= dval l)%Q.
Proof.
  unfold check_notional, limit_decimal. intros H. destruct (aget _ _) as [raw|]; [|discriminate H].
  destruct (parse_dec (lo_quantity r)) as [q|]; [|discriminate H].
  destruct (parse_dec (lo_price r)) as [p|]; [|discriminate H].
  apply rbind_inv_ok in H as (q' & E & H). apply ok_inj in E as <-.
  apply rbind_inv_ok in H as (p' & E & H). apply ok_inj in E as <-.
  apply rbind_inv_ok in H as (bq & Bq & H). apply rbind_inv_ok in H as (bp & Bp & H).
  destruct bp; [discriminate H|]. destruct bq; [discriminate Bp|].
  apply rbind_inv_ok in H as (n & N & H). destruct (parse_dec raw) as [limit|] eqn:L; [|discriminate H].
  apply rbind_inv_ok in H as (l' & E & H). apply ok_inj in E as <-. apply rbind_inv_ok in H as (x & X & H).
  destruct x; [discriminate H|]. exists limit, q, p. split; [by exists raw|]. split_and!; try done.
  intros l x y -> -> ->. rewrite xleb_fin in Bq, Bp. injection Bq as Bq. injection Bp as Bp.
  injection N as <-. rewrite xltb_fin in X. injection X as X. apply dleb_gt in Bq, Bp. apply dltb_ge in X. done.
Qed.

Lemma least_below window requests r : r ∈ requests ->
  fold_right Z.min 0 (map (fun r => lo_ts r - window) requests) <= lo_ts r - window.
Proof.
  induction requests as [|q requests IH]; intros I; [by inversion I|]. cbn [map fold_right].
  apply elem_of_cons in I as [->|I]; [apply Z.le_min_l|]. etransitivity; [apply Z.le_min_r | by apply IH].
Qed.

(** Whatever limit orders are submitted in the order of their times, the
    mirror never allows more than [count] of them in any window of the
    configured length, and every one it allows has a positive quantity and
    price, a notional within the cap of its instrument and passed the
    precision check; a request it refuses, or one that raises, uses up no
    slot. *)
Theorem submissions_limited config count window requests :
  0 < window -> StronglySorted Z.le (map lo_ts requests) ->
  let granted := admitted config count window requests fresh_mirror in
  (forall t, in_window window t (map lo_ts granted) <= Z.max 0 count)
  /\ forall r, r ∈ granted -> r ∈ requests /\ check_precision config r = Ok allowed
     /\ exists limit q p, (exists raw, aget (lo_instrument_id r) (rl_max_notional_per_order config) = Some raw
          /\ parse_dec raw = Some limit)
        /\ parse_dec (lo_quantity r) = Some q /\ parse_dec (lo_price r) = Some p
        /\ forall l x y, limit = XFin l -> q = XFin x -> p = XFin y ->
             (0 < dval x)%Q /\ (0 < dval y)%Q /\ (dval (x * y)%dec <= dval l)%Q.
Proof.
  intros W S granted. split.
  - intros t.
    pose proof (admitted_rate config count window W requests fresh_mirror []
      (fold_right Z.min 0 (map (fun r => lo_ts r - window) requests)) S) as A.
    apply A; [constructor | intros h r I; by inversion I | done | | intros u; unfold in_window; cbn; lia].
    intros r. apply least_below.
  - intros r I. apply admitted_limits in I as [I [N P]]. split_and!; [done | done |]. by apply check_notional_inv.
Qed.

(** ** Retries *)

Lemma dec_to_int_le d n : (0 <= dval d)%Q -> (dval d <= inject_Z n)%Q -> 0 <= dec_to_int d <= n.
Proof.
  intros N L. unfold dec_to_int. apply dval_nonneg in N as C. pose proof (rescale_floor d 0) as F.
  assert (E : rescale ROUND_DOWN d 0 = rescale ROUND_FLOOR d 0).
  { unfold rescale. destruct (0 <=? dexp d) eqn:X; [done|]. bprop. cbn. apply Z.quot_div_nonneg; [done|].
    apply Z.pow_pos_nonneg; lia. }
  rewrite E in *. set (z := rescale ROUND_FLOOR d 0) in *.
  assert (V : (dval (Dec z 0) == inject_Z z)%Q) by (unfold dval; cbn [coef dexp]; change (pow10 0) with 1%Q; ring).
  change (pow10 0) with (inject_Z 1) in F. rewrite V in F. destruct F as [F1 F2]. rewrite <- inject_Z_plus in F2. split.
  - assert (inject_Z 0 < inject_Z (z + 1))%Q as G by (change (inject_Z 0) with 0%Q; lra). rewrite <- Zlt_Qlt in G. lia.
  - rewrite Zle_Qle. lra.
Qed.

Lemma power_of_two_nonneg n : (0 <= dval (power_of_two n))%Q.
Proof. apply fix28_nonneg, dval_nonneg. cbn [coef]. apply Z.pow_nonneg. lia. Qed.

(** A decision that is not to retry. *)
Ltac no_retry :=
  cbn; split_and!; [done | split; [discriminate | intros (? & ? & ? & ?); first [discriminate | lia]] | by right | discriminate].

(** An error that leaves the outcome open is always reconciled and never
    retried, whatever else its text says; a permanent one ends the order.
    Only a transient error is retried, and only below the maximal number of
    attempts; the delay then lies between zero and the maximal delay, and the
    next attempt is that much later. *)
Theorem retries_bounded config raw stage attempt now jitter m :
  0 <= rp_base_delay_seconds config -> 0 <= rp_max_delay_seconds config ->
  (0 <= dval (rp_jitter_fraction config))%Q -> (0 <= dval jitter)%Q ->
  let r := fst (decide config (classify_execution_error raw stage) attempt now jitter m) in
  (marked UNKNOWN_MARKERS (error_text raw stage) = true -> ry_action r = "reconcile")
  /\ (ry_action r = "retry" <->
       marked UNKNOWN_MARKERS (error_text raw stage) = false /\ marked PERMANENT_MARKERS (error_text raw stage) = false
       /\ marked RETRYABLE_MARKERS (error_text raw stage) = true /\ attempt < rp_max_retries config)
  /\ (ry_action r = "retry" \/ (ry_delay_seconds r = None /\ ry_next_attempt_at r = None))
  /\ forall delay, ry_delay_seconds r = Some delay ->
       0 <= delay <= rp_max_delay_seconds config /\ ry_next_attempt_at r = Some (aware now + seconds delay).
Proof.
  intros B D J R. cbv zeta. unfold decide, classify_execution_error.
  destruct (marked UNKNOWN_MARKERS _) eqn:U; [no_retry|].
  destruct (marked PERMANENT_MARKERS _) eqn:P; [no_retry|].
  destruct (marked RETRYABLE_MARKERS _) eqn:T; cbn [ce_category].
  2:{ destruct (match stage with Some _ => _ | None => _ end); no_retry. }
  destruct (rp_max_retries config <=? attempt) eqn:A; bprop; [no_retry|]. cbn.
  split_and!; [done | split; [intros _; by split_and! | done] | by left |]. intros delay [= <-]. split; [|done].
  assert (M : (0 <= dval (dec_of_int (rp_max_delay_seconds config)))%Q) by (apply dval_nonneg; exact D).
  assert (P2 := power_of_two_nonneg (Z.max (attempt - 1) 0)).
  assert (Bn : (0 <= dval (dec_of_int (rp_base_delay_seconds config) * power_of_two (Z.max (attempt - 1) 0))%dec)%Q)
    by (apply dmul_nonneg; [apply dval_nonneg; exact B | done]).
  unfold delay_seconds. apply dec_to_int_le.
  - apply dmin_glb; [|done]. apply dadd_nonneg; [done|]. apply dmul_nonneg; [by apply dmul_nonneg | done].
  - eapply Qle_trans; [apply dmin_lb|]. unfold dec_of_int, dval. cbn [coef dexp]. change (pow10 0) with 1%Q. lra.
Qed.

(** ** Two orders a second *)

Definition sample_limits : RiskLimitConfig := {|
  rl_max_notional_per_order := [("BTCUSDT", "1000")]; rl_max_order_submit_rate := "2/00:00:01";
  rl_max_order_modify_rate := "5/00:00:01";
  rl_instrument_precision := [("BTCUSDT", {| ip_price_increment := "0.1"; ip_quantity_increment := "0.001" |})] |}.

Definition sample_order (ms : Z) : LimitOrderRequest :=
  {| lo_instrument_id := "BTCUSDT"; lo_quantity := "0.010"; lo_price := "60000.1"; lo_ts := ms * 1000 |}.

Example sample_rate : parse_rate "2/00:00:01" = Ok (2, 1000000).
Proof. vm_compute. reflexivity. Qed.

Example sample_granted :
  map lo_ts (admitted sample_limits 2 1000000 (map sample_order [0; 100; 900; 1000; 1050]) fresh_mirror)
  = [0; 100000; 1000000].
Proof. vm_compute. reflexivity. Qed.

Lemma submissions_limited_witness :
  in_window 1000000 1000000 (map lo_ts (admitted sample_limits 2 1000000 (map sample_order [0; 100; 900; 1000; 1050]) fresh_mirror))
  <= 2.
Proof.
  refine (proj1 (submissions_limited sample_limits 2 1000000 (map sample_order [0; 100; 900; 1000; 1050]) _ _) 1000000).
  - lia.
  - repeat constructor; cbn; lia.
Defined.

Definition sample_retries : RetryPolicyConfig := {|
  rp_max_retries := 3; rp_base_delay_seconds := 1; rp_max_delay_seconds := 60; rp_jitter_fraction := Dec 1 (-1) |}.
Definition no_metrics : RetryMetrics := {| rm_retryable := 0; rm_permanent := 0; rm_unknown := 0; rm_exhausted := 0 |}.

Lemma retries_bounded_witness :
  ry_action (fst (decide sample_retries (classify_execution_error "HTTP 503 after timeout" None) 1 (utc 0) dzero no_metrics))
    = "reconcile"
  /\ ry_action (fst (decide sample_retries (classify_execution_error "HTTP 503" None) 2 (utc 0) dzero no_metrics)) = "retry".
Proof.
  split.
  - apply (retries_bounded sample_retries "HTTP 503 after timeout" None 1 (utc 0) dzero no_metrics);
      vm_compute; first [reflexivity | discriminate].
  - apply (retries_bounded sample_retries "HTTP 503" None 2 (utc 0) dzero no_metrics);
      [vm_compute; discriminate..|]. repeat split; vm_compute; reflexivity.
Defined.
