(* ===== verification/Json.v ===== *)
(** * Json: json.dumps and json.loads

    A JSON document is a [pyval] without decimals.  What
    [json.loads(json.dumps(v, sort_keys=True, separators=(",", ":")))] returns is
    the normal form of [v]: every dictionary with its keys in order.  A file
    that holds such a document is represented by the normal form; [dumps] is
    its text.  Keys are text. *)

From Stdlib Require Import ZArith Lia Ascii.
From S2P Require Import Prelude Decimal PyString DecText PyValue Store Sha256.
Open Scope string_scope.
Open Scope Z_scope.

(** ** Dictionaries with sorted keys *)

(** The pair in its place; it replaces the one of the same key. *)
Fixpoint kinsert (k : string) (v : pyval) (d : dict) : dict :=
  match d with
  | [] => [(k, v)]
  | (k', v') :: rest =>
      match String.compare k k' with
      | Lt => (k, v) :: d
      | Eq => (k, v) :: rest
      | Gt => (k', v') :: kinsert k v rest
      end
  end.

Definition sort_keys (d : dict) : dict := fold_right (fun p d => kinsert (fst p) (snd p) d) [] d.

(** ** Normal forms *)

Fixpoint json_norm (v : pyval) : result pyval :=
  match v with
  | PDec _ => Raise (TypeError "Object of type Decimal is not JSON serializable")
  | PList l => l ← mapR json_norm l; Ok (PList l)
  | PDict m => m ← mapR (fun p => v ← json_norm (snd p); Ok (fst p, v)) m; Ok (PDict (sort_keys m))
  | v => Ok v
  end.

#[warnings="-register-all"]
Inductive Normal : pyval -> Prop :=
  | norm_none : Normal PNone
  | norm_bool b : Normal (PBool b)
  | norm_int z : Normal (PInt z)
  | norm_float d : Normal (PFloat d)
  | norm_str s : Normal (PStr s)
  | norm_list l : Forall Normal l -> Normal (PList l)
  | norm_dict m :
      Forall (fun p => Normal (snd p)) m -> StronglySorted (fun p q => String.compare (fst p) (fst q) = Lt) m ->
      Normal (PDict m).

(** ** The text of a document *)

Definition quote : ascii := ascii_of_nat 34.
Definition backslash : ascii := ascii_of_nat 92.

(** [ESCAPE_ASCII] and what replaces it *)
Definition escape_char (c : ascii) : string :=
  let n := nat_of_ascii c in
  if Ascii.eqb c quote || Ascii.eqb c backslash then String backslash (String c "")
  else if (n =? 8)%nat then String backslash "b"
  else if (n =? 9)%nat then String backslash "t"
  else if (n =? 10)%nat then String backslash "n"
  else if (n =? 12)%nat then String backslash "f"
  else if (n =? 13)%nat then String backslash "r"
  else if (n <? 32)%nat || (126 <? n)%nat
       then String backslash ("u00" +:+ String (hex_digit (Z.of_nat (n / 16))) (String (hex_digit (Z.of_nat (n mod 16))) ""))
  else String c "".

Fixpoint escape (s : string) : string :=
  match s with
  | EmptyString => EmptyString
  | String c s => escape_char c +:+ escape s
  end.

Definition dumps_str (s : string) : string := String quote (escape s +:+ String quote "").

(** [json.dumps(v, separators=(",", ":"))] of a normal form. *)
Fixpoint dumps (v : pyval) : string :=
  match v with
  | PNone => "null"
  | PBool b => if b then "true" else "false"
  | PInt z => int_str z
  | PFloat d => float_repr d
  | PDec x => xdec_str x
  | PStr s => dumps_str s
  | PList l => "[" +:+ join "," (map dumps l) +:+ "]"
  | PDict m => "{" +:+ join "," (map (fun p => dumps_str (fst p) +:+ ":" +:+ dumps (snd p)) m) +:+ "}"
  end.

(** ** Files *)

(** A file that holds a document: it is missing, not readable as JSON, or it
    has a document. *)
Inductive stored := Absent | Unreadable | Json (v : pyval).

(** ** Reading texts *)

Definition nibble_of (c : ascii) : option nat :=
  let n := nat_of_ascii c in
  if (48 <=? n)%nat && (n <=? 57)%nat then Some (n - 48)%nat
  else if (97 <=? n)%nat && (n <=? 102)%nat then Some (n - 87)%nat
  else if (65 <=? n)%nat && (n <=? 70)%nat then Some (n - 55)%nat
  else None.

(** The character after a backslash, other than ["u"]. *)
Definition unescaped (c : ascii) : option ascii :=
  if Ascii.eqb c quote || Ascii.eqb c backslash || Ascii.eqb c "/" then Some c
  else if Ascii.eqb c "b" then Some (ascii_of_nat 8)
  else if Ascii.eqb c "t" then Some (ascii_of_nat 9)
  else if Ascii.eqb c "n" then Some (ascii_of_nat 10)
  else if Ascii.eqb c "f" then Some (ascii_of_nat 12)
  else if Ascii.eqb c "r" then Some (ascii_of_nat 13)
  else None.

(** A text after its opening quote, and what follows its closing quote. *)
Fixpoint read_chars (s : string) : option (string * string) :=
  match s with
  | EmptyString => None
  | String c s =>
      let put c := option_map (fun p : string * string => (String c (fst p), snd p)) in
      if Ascii.eqb c quote then Some ("", s)
      else if Ascii.eqb c backslash then
        match s with
        | String e s =>
            if Ascii.eqb e "u" then
              match s with
              | String y (String z (String a (String b s))) =>
                  if Ascii.eqb y "0" && Ascii.eqb z "0" then
                    match nibble_of a, nibble_of b with
                    | Some m, Some n => put (ascii_of_nat (16 * m + n)) (read_chars s)
                    | _, _ => None
                    end
                  else None
              | _ => None
              end
            else match unescaped e with Some c => put c (read_chars s) | None => None end
        | EmptyString => None
        end
      else if (nat_of_ascii c <? 32)%nat then None
      else put c (read_chars s)
  end.

Definition read_text (s : string) : option (string * string) :=
  match s with
  | String c s => if Ascii.eqb c quote then read_chars s else None
  | EmptyString => None
  end.

(** [json.loads] of a list of three texts, in the compact form. *)
Definition read_three (s : string) : option (string * string * string) :=
  '(a, s) ← match s with String "[" s => read_text s | _ => None end;
  '(b, s) ← match s with String "," s => read_text s | _ => None end;
  '(c, s) ← match s with String "," s => read_text s | _ => None end;
  if String.eqb s "]" then Some (a, b, c) else None.

(** ** Equality *)

(** The number that [==] compares. *)
Definition number_of (v : pyval) : option xdec :=
  match v with
  | PBool b => Some (XFin (dec_of_int (if b then 1 else 0)))
  | PInt z => Some (XFin (dec_of_int z))
  | PFloat d => Some (XFin d)
  | PDec x => Some x
  | _ => None
  end.

(** [a == b] *)
Fixpoint py_eqb (a b : pyval) : bool :=
  match a, b with
  | PNone, PNone => true
  | PStr s, PStr t => String.eqb s t
  | PList l, PList l' =>
      (fix same (l l' : list pyval) : bool :=
         match l, l' with
         | [], [] => true
         | v :: l, v' :: l' => py_eqb v v' && same l l'
         | _, _ => false
         end) l l'
  | PDict m, PDict m' =>
      (length m =? length m')%nat
      && forallb (fun p => match dlookup (fst p) m' with Some v => py_eqb (snd p) v | None => false end) m
  | a, b => match number_of a, number_of b with Some x, Some y => xeqb x y | _, _ => false end
  end.

(** SQL's [v #>> '{}'] and [d ->> k]. *)
Definition json_text_of (v : pyval) : option string :=
  match v with
  | PNone => None
  | PStr s => Some s
  | v => Some (dumps v)
  end.

Definition json_text (k : string) (d : dict) : option string := json_text_of (dget k d).

(** ** Order of texts *)

Lemma compare_lt_trans a b c :
  String.compare a b = Lt -> String.compare b c = Lt -> String.compare a c = Lt.
Proof.
  revert b c. induction a as [|x a IH]; intros [|y b] [|z c]; simpl; try done.
  unfold Ascii.compare.
  destruct (N.compare_spec (N_of_ascii x) (N_of_ascii y)) as [E1|L1|L1]; try done;
    destruct (N.compare_spec (N_of_ascii y) (N_of_ascii z)) as [E2|L2|L2]; try done; intros H1 H2.
  - rewrite E1, E2, N.compare_refl. eauto.
  - rewrite E1. by apply N.compare_lt_iff in L2 as ->.
  - rewrite <- E2. by apply N.compare_lt_iff in L1 as ->.
  - assert (L : (N_of_ascii x < N_of_ascii z)%N) by lia. by apply N.compare_lt_iff in L as ->.
Qed.

Lemma compare_refl s : String.compare s s = Eq.
Proof. induction s as [|c s IH]; simpl; [done|]. unfold Ascii.compare. by rewrite N.compare_refl. Qed.

Lemma compare_gt a b : String.compare a b = Gt -> String.compare b a = Lt.
Proof. intros H. rewrite String.compare_antisym, H. done. Qed.

Abbreviation key_lt := (fun p q : string * pyval => String.compare (fst p) (fst q) = Lt).

(** ** Sorted dictionaries *)

Lemma dlookup_kinsert k k' v d :
  dlookup k (kinsert k' v d) = if String.eqb k k' then Some v else dlookup k d.
Proof.
  induction d as [|[k1 v1] d IH]; simpl; [done|].
  destruct (String.compare k' k1) eqn:C; simpl; [apply String.compare_eq_iff in C as ->| done |].
  - by destruct (String.eqb k k1).
  - rewrite IH. destruct (String.eqb_spec k k1) as [->|N], (String.eqb_spec k1 k') as [->|N']; try done.
    by rewrite compare_refl in C.
Qed.

Lemma dlookup_sort_keys k d : dlookup k (sort_keys d) = dlookup k d.
Proof.
  induction d as [|[k' v] d IH]; simpl; [done|]. rewrite dlookup_kinsert, IH. done.
Qed.

Lemma Forall_kinsert (P : string * pyval -> Prop) k v d : P (k, v) -> Forall P d -> Forall P (kinsert k v d).
Proof.
  intros Pv F. induction F as [|[k' v'] d Pp F IH]; simpl; [by repeat constructor|].
  destruct (String.compare k k'); repeat constructor; done.
Qed.

Lemma kinsert_sorted k v d : StronglySorted key_lt d -> StronglySorted key_lt (kinsert k v d).
Proof.
  induction 1 as [|[k' v'] d S IH F]; simpl; [by repeat constructor|].
  destruct (String.compare k k') eqn:C.
  - apply String.compare_eq_iff in C as ->. by constructor.
  - constructor; [by constructor|]. constructor; [done|].
    eapply Forall_impl; [exact F|]. intros [k'' v''] L. simpl in *. by eapply compare_lt_trans.
  - constructor; [done|]. apply Forall_kinsert; [by apply compare_gt | done].
Qed.

Lemma sort_keys_sorted d : StronglySorted key_lt (sort_keys d).
Proof. induction d as [|[k v] d IH]; simpl; [constructor | by apply kinsert_sorted]. Qed.

Lemma Forall_sort_keys (P : string * pyval -> Prop) d : Forall P d -> Forall P (sort_keys d).
Proof. induction 1 as [|[k v] d Pp F IH]; simpl; [constructor | by apply Forall_kinsert]. Qed.

Lemma sort_keys_id d : StronglySorted key_lt d -> sort_keys d = d.
Proof.
  induction 1 as [|[k v] d S IH F]; simpl; [done|]. rewrite IH. destruct F as [|[k' v'] d L F]; simpl; [done|].
  simpl in L. by rewrite L.
Qed.

Lemma sorted_dict_nodup d : StronglySorted key_lt d -> NoDup (map fst d).
Proof.
  induction 1 as [|[k v] d S IH F]; simpl; constructor; [|done].
  rewrite list_elem_of_fmap. intros ([k' v'] & E & I). simpl in E. subst k'.
  rewrite Forall_forall in F. specialize (F _ I). simpl in F. by rewrite compare_refl in F.
Qed.

(** ** Normal forms are what [loads] returns *)

Lemma pyval_nested (P : pyval -> Prop) :
  P PNone -> (forall b, P (PBool b)) -> (forall z, P (PInt z)) -> (forall d, P (PFloat d)) -> (forall x, P (PDec x)) ->
  (forall s, P (PStr s)) -> (forall l, Forall P l -> P (PList l)) ->
  (forall m, Forall (fun p => P (snd p)) m -> P (PDict m)) -> forall v, P v.
Proof.
  intros HN HB HZ HF HD HS HL HM. fix IH 1. intros [| | | | | |l|m];
    [exact HN | apply HB | apply HZ | apply HF | apply HD | apply HS | |].
  - apply HL. induction l; constructor; auto.
  - apply HM. induction m as [|[k v] m IHm]; constructor; [apply IH | exact IHm].
Qed.

Lemma mapR_inv {A B} (f : A -> result B) l l' : mapR f l = Ok l' -> Forall2 (fun x y => f x = Ok y) l l'.
Proof.
  revert l'. induction l as [|x l IH]; simpl; intros l' H; [by simplify_eq|].
  destruct (f x) as [y|] eqn:E; simpl in H; [|done].
  destruct (mapR f l) as [ys|]; simpl in H; [|done]. simplify_eq. constructor; auto.
Qed.

Lemma mapR_id {A} (f : A -> result A) l : Forall (fun x => f x = Ok x) l -> mapR f l = Ok l.
Proof. induction 1 as [|x l E F IH]; simpl; [done|]. rewrite E. simpl. by rewrite IH. Qed.

Lemma json_norm_normal v v' : json_norm v = Ok v' -> Normal v'.
Proof.
  revert v'. induction v as [| | | | | |l IH|m IH] using pyval_nested; simpl; intros v' H; simplify_eq; try constructor.
  - destruct (mapR json_norm l) as [l'|] eqn:E; simplify_eq/=. constructor. apply mapR_inv in E.
    induction E; inversion IH; subst; constructor; eauto.
  - destruct (mapR _ m) as [m'|] eqn:E; simplify_eq/=. constructor; [|apply sort_keys_sorted].
    apply Forall_sort_keys. apply mapR_inv in E. induction E as [|[k v] [k' v'] m m' R E' F']; [constructor|].
    inversion IH; subst. constructor; [|eauto]. simpl in *. destruct (json_norm v); simplify_eq/=. eauto.
Qed.

Lemma normal_fixed v : Normal v -> json_norm v = Ok v.
Proof.
  induction v as [| | | | | |l IH|m IH] using pyval_nested; simpl; intros N; try done; inversion N as [| | | | |? F|? F S]; subst.
  - rewrite mapR_id; [done|]. rewrite Forall_forall in *. eauto.
  - rewrite mapR_id; simpl; [by rewrite sort_keys_id|]. rewrite Forall_forall in *. intros [k v] I. specialize (IH _ I (F _ I)).
    simpl in *. by rewrite IH.
Qed.

Lemma dlookup_elem k v d : dlookup k d = Some v -> (k, v) ∈ d.
Proof.
  induction d as [|[k' v'] d IH]; simpl; [done|]. destruct (String.eqb_spec k k') as [->|]; intros; simplify_eq; [left|right; auto].
Qed.

Lemma normal_lookup m k v : Normal (PDict m) -> dlookup k m = Some v -> Normal v.
Proof. intros N L. inversion N as [| | | | | |? F S]; subst. rewrite Forall_forall in F. apply (F (k, v)), dlookup_elem, L. Qed.

Lemma normal_nodup m : Normal (PDict m) -> NoDup (map fst m).
Proof. inversion 1. by apply sorted_dict_nodup. Qed.

Lemma norm_lookup m v' k :
  json_norm (PDict m) = Ok v' ->
  exists m', v' = PDict m'
    /\ match dlookup k m with
       | Some v => exists w, json_norm v = Ok w /\ dlookup k m' = Some w
       | None => dlookup k m' = None
       end.
Proof.
  simpl. destruct (mapR _ m) as [m'|] eqn:E; simpl; intros H; simplify_eq. exists (sort_keys m'). split; [done|].
  rewrite dlookup_sort_keys. apply mapR_inv in E.
  induction E as [|[k1 v] [k2 w] m m' R E IH]; simpl; [done|]. simpl in R.
  destruct (json_norm v) as [x|] eqn:N; simplify_eq/=. destruct (String.eqb k k2); eauto.
Qed.

(** Writing a key of a document that was read back. *)
Lemma norm_dset m k v w :
  Normal (PDict m) -> json_norm v = Ok w ->
  exists m', json_norm (PDict (dset k v m)) = Ok (PDict m')
    /\ forall k', dlookup k' m' = if String.eqb k' k then Some w else dlookup k' m.
Proof.
  intros N E. inversion N as [| | | | | |? F S]; subst.
  assert (X : exists m1, mapR (fun p => v ← json_norm (snd p); Ok (fst p, v)) (dset k v m) = Ok m1
              /\ forall k', dlookup k' m1 = if String.eqb k' k then Some w else dlookup k' m).
  { clear N S. induction F as [|[k1 v1] m N1 F IH]; simpl.
    - rewrite E. simpl. eexists; split; [done|]. done.
    - destruct IH as (m1 & E1 & L1). simpl in N1. apply normal_fixed in N1. destruct (String.eqb_spec k k1) as [->|D]; simpl.
      + rewrite E. simpl. rewrite mapR_id.
        2: { rewrite Forall_forall in *. intros [k2 v2] I. specialize (F _ I).
               apply normal_fixed in F. simpl in *. by rewrite F. }
        eexists; split; [done|]. intros k'. simpl. by destruct (String.eqb k' k1).
      + rewrite N1. simpl. rewrite E1. eexists; split; [done|]. intros k'. simpl. rewrite L1.
        destruct (String.eqb_spec k' k1) as [->|], (String.eqb_spec k1 k) as [->|]; done. }
  destruct X as (m1 & E1 & L1). exists (sort_keys m1). cbn [json_norm]. rewrite E1. split; [done|].
  intros k'. by rewrite dlookup_sort_keys.
Qed.

Lemma nodup_dlookup d k v : NoDup (map fst d) -> (k, v) ∈ d -> dlookup k d = Some v.
Proof.
  induction d as [|[k' v'] d IH]; simpl; intros D I; [by apply not_elem_of_nil in I|]. inversion D; subst.
  apply elem_of_cons in I as [[= -> ->]|I]; [by rewrite String.eqb_refl|].
  destruct (String.eqb_spec k k') as [->|]; [|eauto]. exfalso. apply H1. apply list_elem_of_fmap. by exists (k', v).
Qed.

(** What [dumps] takes, and what a document keeps. *)
Lemma mapR_all {A B} (f : A -> result B) l : Forall (fun x => exists y, f x = Ok y) l -> exists l', mapR f l = Ok l'.
Proof.
  induction 1 as [|x l [y E] F [l' IH]]; [by exists []|]. exists (y :: l'). simpl. by rewrite E, IH.
Qed.

Lemma norm_dict_all m : Forall (fun p => exists w, json_norm (snd p) = Ok w) m -> exists m', json_norm (PDict m) = Ok (PDict m').
Proof.
  intros F. cbn [json_norm]. destruct (mapR_all (fun p : string * pyval => v ← json_norm (snd p); Ok (fst p, v)) m) as [m' ->].
  - eapply Forall_impl; [exact F|]. intros p [w E]. exists (fst p, w). by rewrite E.
  - eauto.
Qed.

Lemma dlookup_fst k v d : dlookup k d = Some v -> k ∈ map fst d.
Proof. intros L. apply dlookup_elem in L. apply list_elem_of_fmap. by exists (k, v). Qed.

Lemma norm_keys m m' k : json_norm (PDict m) = Ok (PDict m') -> k ∈ map fst m' -> k ∈ map fst m.
Proof.
  intros N K. apply list_elem_of_fmap in K as ([k' w] & -> & J). simpl.
  apply (nodup_dlookup m') in J; [|by eapply normal_nodup, json_norm_normal].
  destruct (norm_lookup _ _ k' N) as (m1 & E & L). injection E as <-.
  destruct (dlookup k' m) as [v|] eqn:D; [by eapply dlookup_fst | by rewrite J in L].
Qed.

Lemma norm_text m m' k s : json_norm (PDict m) = Ok (PDict m') -> dlookup k m = Some (PStr s) -> dlookup k m' = Some (PStr s).
Proof.
  intros N D. destruct (norm_lookup _ _ k N) as (m1 & E & L). injection E as <-. rewrite D in L.
  destruct L as (w & [= <-] & L). done.
Qed.

Lemma mapR_last {A B} (f : A -> result B) l x y : f x = f y -> mapR f (l ++ [x]) = mapR f (l ++ [y]).
Proof. intros E. induction l as [|z l IH]; simpl; [by rewrite E|]. by rewrite IH. Qed.

Lemma xeqb_refl d : xeqb (XFin d) (XFin d) = true.
Proof.
  assert (E : deqb d d = true) by by apply deqb_eq. unfold xeqb, xcompare. unfold deqb in E.
  by destruct (dcompare d d).
Qed.

Lemma py_eqb_int x y : py_eqb (PInt x) (PInt y) = (x =? y).
Proof. cbn. unfold deqb, dcompare, shift_to. cbn. by rewrite !Z.mul_1_r, Z.eqb_compare. Qed.

Lemma py_eqb_refl v : Normal v -> py_eqb v v = true.
Proof.
  induction v as [| | | | | |l IH|m IH] using pyval_nested; intros N; simpl; try apply xeqb_refl.
  - done.
  - inversion N.
  - apply String.eqb_refl.
  - inversion N as [| | | | |? F|]; subst. clear N. induction l; [done|].
    inversion IH; inversion F; subst. apply andb_true_iff. auto.
  - rewrite Nat.eqb_refl. simpl. apply forallb_forall. intros [k v] I. apply list_elem_of_In in I. simpl.
    rewrite (nodup_dlookup _ _ _ (normal_nodup _ N) I). inversion N as [| | | | | |? F S]; subst.
    rewrite Forall_forall in *. apply (IH _ I (F _ I)).
Qed.

(** ** Texts are read back *)

Lemma read_escaped c t :
  read_chars (escape_char c +:+ t) = option_map (fun p : string * string => (String c (fst p), snd p)) (read_chars t).
Proof. destruct c as [[] [] [] [] [] [] [] []]; reflexivity. Qed.

Lemma read_escape s t : read_chars (escape s +:+ String quote t) = Some (s, t).
Proof. induction s as [|c s IH]; simpl; [done|]. rewrite sapp_assoc, read_escaped, IH. done. Qed.

Lemma read_dumps_str s t : read_text (dumps_str s +:+ t) = Some (s, t).
Proof. unfold dumps_str, read_text. rewrite sapp_cons, sapp_assoc. apply read_escape. Qed.

#[local] Opaque dumps_str read_text.

Lemma read_three_dumps a b c : read_three (dumps (PList [PStr a; PStr b; PStr c])) = Some (a, b, c).
Proof.
  cbn [dumps map join]. unfold read_three. rewrite !sapp_assoc, !sapp_cons, !sapp_nil_l. cbn. rewrite read_dumps_str. cbn.
  rewrite read_dumps_str. cbn. by rewrite read_dumps_str.
Qed.

#[local] Transparent dumps_str read_text.
