(* ===== verification/JsonText.v ===== *)
(** * JsonText: reading the text of a JSON document

    [json.loads] on text, and the two facts the write-ahead log of the node
    relies on: a document that [dumps] wrote is read back, whatever follows it
    in the file, and a text that was cut inside a document is never read as
    another one.  A number with a fraction or an exponent is a float, carried
    by the decimal its [repr] denotes; NaN, the infinities and numbers beyond
    the floats are not represented and count as unreadable. *)

From Stdlib Require Import ZArith Lia Ascii.
From S2P Require Import Prelude Decimal PyString DecText PyValue Binary64 Json.
Open Scope string_scope.
Open Scope Z_scope.

(** ** The reader *)

Definition is_ws (c : ascii) : bool :=
  let n := nat_of_ascii c in (n =? 32)%nat || (n =? 9)%nat || (n =? 10)%nat || (n =? 13)%nat.

Fixpoint skip_ws (s : string) : string :=
  match s with
  | String c s' => if is_ws c then skip_ws s' else s
  | EmptyString => EmptyString
  end.

Fixpoint strip_prefix (p s : string) : option string :=
  match p, s with
  | EmptyString, _ => Some s
  | String a p, String b s => if Ascii.eqb a b then strip_prefix p s else None
  | _, _ => None
  end.

(** The fraction and the exponent of a number, and what follows them. *)
Definition read_fraction (s : string) : string * string :=
  match s with
  | String c s' =>
      if Ascii.eqb c "." then
        let '(ds, r) := span_digits s' in
        if is_empty ds then ("", s) else (String c ds, r)
      else ("", s)
  | EmptyString => ("", s)
  end.

Definition read_exponent (s : string) : string * string :=
  match s with
  | String c s' =>
      if Ascii.eqb (lower_char c) "e" then
        let '(sign, u) := match s' with
                          | String d u => if Ascii.eqb d "-" || Ascii.eqb d "+" then (String d "", u) else ("", s')
                          | EmptyString => ("", s')
                          end in
        let '(ds, r) := span_digits u in
        if is_empty ds then ("", s) else (String c (sign +:+ ds), r)
      else ("", s)
  | EmptyString => ("", s)
  end.

(** The digits before the point: a zero, or digits that do not start with one. *)
Definition read_whole (s : string) : string * string :=
  match s with
  | String c s' => if Ascii.eqb c "0" then (String c "", s') else span_digits s
  | EmptyString => ("", s)
  end.

Definition read_sign (s : string) : bool * string :=
  match s with
  | String c s' => if Ascii.eqb c "-" then (true, s') else (false, s)
  | EmptyString => (false, s)
  end.

(** The float a text denotes. *)
Definition float_token (neg : bool) (s : string) : option pyval :=
  match parse_dec ((if neg then "-" else "") +:+ s) with
  | Some (XFin d) => match float_of_dec d with XFin d => Some (PFloat d) | _ => None end
  | _ => None
  end.

Definition read_number (s : string) : option (pyval * string) :=
  let '(neg, u) := read_sign s in
  let '(whole, r) := read_whole u in
  if is_empty whole then None
  else
    let '(fraction, r) := read_fraction r in
    let '(exponent, r) := read_exponent r in
    if is_empty fraction && is_empty exponent
    then Some (PInt (if neg then - num_of 0 whole else num_of 0 whole), r)
    else v ← float_token neg (whole +:+ fraction +:+ exponent); Some (v, r).

(** A value, and what follows it; [n] bounds the depth and the length. *)
Fixpoint read_value (n : nat) (s : string) : option (pyval * string) :=
  match n, s with
  | S n, String c s' =>
      if Ascii.eqb c quote then '(x, r) ← read_chars s'; Some (PStr x, r)
      else if Ascii.eqb c "{" then
        match skip_ws s' with
        | String d r =>
            if Ascii.eqb d "}" then Some (PDict [], r)
            else '(m, r) ← read_members n (String d r); Some (PDict (dupdate [] m), r)
        | EmptyString => None
        end
      else if Ascii.eqb c "[" then
        match skip_ws s' with
        | String d r =>
            if Ascii.eqb d "]" then Some (PList [], r)
            else '(l, r) ← read_items n (String d r); Some (PList l, r)
        | EmptyString => None
        end
      else match strip_prefix "null" s, strip_prefix "true" s, strip_prefix "false" s with
           | Some r, _, _ => Some (PNone, r)
           | _, Some r, _ => Some (PBool true, r)
           | _, _, Some r => Some (PBool false, r)
           | _, _, _ => read_number s
           end
  | _, _ => None
  end
with read_members (n : nat) (s : string) : option (dict * string) :=
  match n with
  | S n =>
      '(k, r) ← read_text s;
      match skip_ws r with
      | String c r =>
          if Ascii.eqb c ":" then
            '(v, r) ← read_value n (skip_ws r);
            match skip_ws r with
            | String c r =>
                if Ascii.eqb c "," then '(m, r) ← read_members n (skip_ws r); Some ((k, v) :: m, r)
                else if Ascii.eqb c "}" then Some ([(k, v)], r) else None
            | EmptyString => None
            end
          else None
      | EmptyString => None
      end
  | O => None
  end
with read_items (n : nat) (s : string) : option (list pyval * string) :=
  match n with
  | S n =>
      '(v, r) ← read_value n s;
      match skip_ws r with
      | String c r =>
          if Ascii.eqb c "," then '(l, r) ← read_items n (skip_ws r); Some (v :: l, r)
          else if Ascii.eqb c "]" then Some ([v], r) else None
      | EmptyString => None
      end
  | O => None
  end.

(** [json.loads(s)]; [None] is [JSONDecodeError]. *)
Definition loads (s : string) : option pyval :=
  match read_value (S (String.length s)) (skip_ws s) with
  | Some (v, r) => if is_empty (skip_ws r) then Some v else None
  | None => None
  end.

(** The floats of a document are read back from their [repr]. *)
Fixpoint floats_ok (v : pyval) : bool :=
  match v with
  | PFloat d => match read_number (float_repr d) with Some (PFloat d', EmptyString) => bool_decide (d' = d) | _ => false end
  | PList l => forallb floats_ok l
  | PDict m => forallb (fun p => floats_ok (snd p)) m
  | _ => true
  end.

(** ** What was read does not depend on what follows *)

(** A character that can continue a number. *)
Definition number_char (c : ascii) : bool := is_digit c || Ascii.eqb c "." || Ascii.eqb (lower_char c) "e".

Definition ends_number (s : string) : Prop := match s with String c _ => number_char c = false | EmptyString => True end.

Lemma ends_no_digit s : ends_number s -> no_digit_head s.
Proof. destruct s; simpl; [done|]. unfold number_char. by destruct (is_digit a). Qed.

Lemma strip_prefix_ext p s r t : strip_prefix p s = Some r -> strip_prefix p (s +:+ t) = Some (r +:+ t).
Proof.
  revert s. induction p as [|a p IH]; intros s; simpl; [by intros [= ->]|].
  destruct s as [|b s]; [done|]. rewrite sapp_cons. destruct (Ascii.eqb a b); [apply IH | done].
Qed.

Lemma strip_prefix_self p t : strip_prefix p (p +:+ t) = Some t.
Proof. induction p as [|a p IH]; simpl; [done|]. by rewrite Ascii.eqb_refl. Qed.

Lemma skip_ws_ext s t : skip_ws s <> "" -> skip_ws (s +:+ t) = skip_ws s +:+ t.
Proof. induction s as [|c s IH]; [done|]. rewrite sapp_cons. simpl. destruct (is_ws c); [apply IH | done]. Qed.

Lemma skip_ws_cons s c r t : skip_ws s = String c r -> skip_ws (s +:+ t) = String c (r +:+ t).
Proof. intros E. rewrite skip_ws_ext by (rewrite E; done). by rewrite E. Qed.

Lemma span_ext s ds r t :
  span_digits s = (ds, r) -> no_digit_head (r +:+ t) -> span_digits (s +:+ t) = (ds, r +:+ t).
Proof.
  revert ds r. induction s as [|c s IH]; intros ds r E H; simpl in E.
  - injection E as <- <-. rewrite sapp_nil_l in *. by apply (span_digits_app "").
  - rewrite sapp_cons. simpl. destruct (is_digit c).
    + destruct (span_digits s) as [a b]. injection E as <- <-. by rewrite (IH a b).
    + by injection E as <- <-.
Qed.

Lemma read_whole_ext s w r t :
  read_whole s = (w, r) -> is_empty w = false -> no_digit_head (r +:+ t) -> read_whole (s +:+ t) = (w, r +:+ t).
Proof.
  destruct s as [|c s]; [by intros [= <- <-]|]. intros E W H. rewrite sapp_cons. simpl in *. destruct (Ascii.eqb c "0").
  - by injection E as <- <-.
  - apply (span_ext (String c s)); done.
Qed.

Lemma read_fraction_ext s f r t :
  read_fraction s = (f, r) -> ends_number (r +:+ t) \/ (exists c u, r = String c u /\ Ascii.eqb (lower_char c) "e" = true) ->
  read_fraction (s +:+ t) = (f, r +:+ t).
Proof.
  intros E H. assert (N : no_digit_head (r +:+ t)).
  { destruct H as [H|(c & u & -> & H)]; [by apply ends_no_digit|]. rewrite sapp_cons. simpl.
    by destruct c as [[] [] [] [] [] [] [] []]. }
  destruct s as [|c s]; simpl in E.
  - injection E as <- <-. rewrite sapp_nil_l in *. destruct H as [H|(c & u & H & _)]; [|done].
    destruct t as [|c t]; [done|]. simpl in *. unfold number_char in H. by destruct (Ascii.eqb c "."); [rewrite orb_true_r in H|].
  - rewrite sapp_cons. simpl. destruct (Ascii.eqb c ".") eqn:P; [|by injection E as <- <-].
    destruct (span_digits s) as [ds r'] eqn:S. destruct (is_empty ds) eqn:D.
    + injection E as <- <-. exfalso. rewrite sapp_cons in H. simpl in H. unfold number_char in H. rewrite P in H.
      destruct H as [H|(c' & u & [= -> ->] & H)]; [by rewrite orb_true_r in H|].
      apply Ascii.eqb_eq in P. subst c'. done.
    + injection E as <- <-. by rewrite (span_ext _ _ _ _ S N), D.
Qed.

Lemma read_exponent_ext s x r t :
  read_exponent s = (x, r) -> ends_number (r +:+ t) -> read_exponent (s +:+ t) = (x, r +:+ t).
Proof.
  intros E H. destruct s as [|c s]; simpl in E.
  - injection E as <- <-. rewrite sapp_nil_l in *. destruct t as [|c t]; [done|]. simpl in *. unfold number_char in H.
    by destruct (Ascii.eqb (lower_char c) "e"); [rewrite orb_true_r in H|].
  - rewrite sapp_cons. simpl. destruct (Ascii.eqb (lower_char c) "e") eqn:P; [|by injection E as <- <-].
    assert (NE : forall u, ~ ends_number (String c u)) by (intros u Hu; simpl in Hu; unfold number_char in Hu; rewrite P, orb_true_r in Hu; done).
    destruct s as [|d s].
    + simpl in E. injection E as <- <-. by apply NE in H.
    + rewrite sapp_cons. destruct (Ascii.eqb d "-" || Ascii.eqb d "+");
        [destruct (span_digits s) as [ds r'] eqn:S | destruct (span_digits (String d s)) as [ds r'] eqn:S];
        (destruct (is_empty ds) eqn:D; [injection E as <- <-; by apply NE in H|]); injection E as <- <-.
      * by rewrite (span_ext _ _ _ _ S (ends_no_digit _ H)), D.
      * rewrite <- sapp_cons. by rewrite (span_ext _ _ _ _ S (ends_no_digit _ H)), D.
Qed.

(** What the exponent leaves, read after a fraction. *)
Lemma read_exponent_rest s x r :
  read_exponent s = (x, r) -> r = s \/ exists c u, s = String c u /\ Ascii.eqb (lower_char c) "e" = true.
Proof.
  destruct s as [|c s]; simpl; [intros [= <- <-]; by left|]. destruct (Ascii.eqb (lower_char c) "e") eqn:P; [|intros [= <- <-]; by left].
  intros _. right. by exists c, s.
Qed.

Lemma read_fraction_rest s f r : read_fraction s = (f, r) -> r = s \/ exists u, s = String "." u.
Proof.
  destruct s as [|c s]; simpl; [intros [= <- <-]; by left|]. destruct (Ascii.eqb c ".") eqn:P; [|intros [= <- <-]; by left].
  apply Ascii.eqb_eq in P. subst c. intros _. right. by exists s.
Qed.

Lemma read_number_ext s v r t : read_number s = Some (v, r) -> ends_number (r +:+ t) -> read_number (s +:+ t) = Some (v, r +:+ t).
Proof.
  unfold read_number. intros E H.
  assert (Sg : forall neg u, read_sign s = (neg, u) -> u <> "" -> read_sign (s +:+ t) = (neg, u +:+ t)).
  { intros neg u. destruct s as [|c s']; [by intros [= <- <-]|]. rewrite sapp_cons. simpl.
    destruct (Ascii.eqb c "-"); by intros [= <- <-]. }
  destruct (read_sign s) as [neg u]. destruct (read_whole u) as [w r0] eqn:W. destruct (is_empty w) eqn:Ew; [done|].
  rewrite (Sg neg u eq_refl) by (intros ->; simpl in W; by simplify_eq). clear Sg.
  destruct (read_fraction r0) as [f r1] eqn:F. destruct (read_exponent r1) as [x r2] eqn:X.
  assert (R2 : r2 = r).
  { destruct (is_empty f && is_empty x); [by simplify_eq|]. destruct (float_token _ _); [|done]. by simplify_eq/=. }
  subst r2. pose proof (read_exponent_ext _ _ _ t X H) as X'.
  assert (H1 : ends_number (r1 +:+ t) \/ (exists c u, r1 = String c u /\ Ascii.eqb (lower_char c) "e" = true)).
  { destruct (read_exponent_rest _ _ _ X) as [->|?]; [by left | by right]. }
  pose proof (read_fraction_ext _ _ _ t F H1) as F'.
  assert (N : no_digit_head (r0 +:+ t)).
  { destruct (read_fraction_rest _ _ _ F) as [->|[u' ->]]; [|done].
    destruct H1 as [H1|(c & u' & -> & Hc)]; [by apply ends_no_digit|]. rewrite sapp_cons. simpl.
    by destruct c as [[] [] [] [] [] [] [] []]. }
  rewrite (read_whole_ext _ _ _ t W Ew N), Ew, F', X'.
  destruct (is_empty f && is_empty x); [by simplify_eq|]. destruct (float_token _ _); [|done]. by simplify_eq/=.
Qed.

Lemma read_chars_ext s x r t : read_chars s = Some (x, r) -> read_chars (s +:+ t) = Some (x, r +:+ t).
Proof.
  remember (String.length s) as n eqn:L. assert (Ln : (String.length s <= n)%nat) by lia. clear L.
  revert s x r Ln. induction n as [|n IH]; intros s x r Ln E; (destruct s as [|c s]; [done|]); [simpl in Ln; lia|].
  assert (G : forall s', (String.length s' <= n)%nat -> forall c',
    option_map (fun p : string * string => (String c' (fst p), snd p)) (read_chars s') = Some (x, r) ->
    option_map (fun p : string * string => (String c' (fst p), snd p)) (read_chars (s' +:+ t)) = Some (x, r +:+ t)).
  { intros s' Ls c' E'. destruct (read_chars s') as [[y q]|] eqn:R; [|done]. rewrite (IH _ _ _ Ls R). simpl in *. by simplify_eq. }
  rewrite sapp_cons. simpl in Ln. cbn [read_chars] in *.
  destruct (Ascii.eqb c quote); [by simplify_eq|]. destruct (Ascii.eqb c backslash).
  2: { destruct (nat_of_ascii c <? 32)%nat; [done|]. apply G; [lia | done]. }
  destruct s as [|e s]; [done|]. rewrite sapp_cons. simpl in Ln.
  destruct (Ascii.eqb e "u").
  - destruct s as [|y [|z [|a [|b s]]]]; try done. rewrite !sapp_cons. simpl in Ln.
    destruct (Ascii.eqb y "0" && Ascii.eqb z "0"); [|done]. destruct (nibble_of a), (nibble_of b); try done.
    apply G; [lia | done].
  - destruct (unescaped e); [|done]. apply G; [lia | done].
Qed.

Lemma read_text_ext s x r t : read_text s = Some (x, r) -> read_text (s +:+ t) = Some (x, r +:+ t).
Proof.
  destruct s as [|c s]; [done|]. rewrite sapp_cons. simpl. destruct (Ascii.eqb c quote); [apply read_chars_ext | done].
Qed.

Definition is_number (v : pyval) : bool := match v with PInt _ | PFloat _ => true | _ => false end.

Lemma skip_ws_head s c r : skip_ws s = String c r -> s <> "" /\ forall t, (c = "," \/ c = "}" \/ c = "]")%char -> ends_number (s +:+ t).
Proof.
  intros E. split; [by intros ->|]. intros t Hc. destruct s as [|d s]; [done|]. rewrite sapp_cons. simpl in *.
  destruct (is_ws d) eqn:W.
  - clear -W. destruct d as [[] [] [] [] [] [] [] []]; done.
  - injection E as -> ->. by destruct Hc as [-> | [-> | ->]].
Qed.

Lemma number_is_number s v r : read_number s = Some (v, r) -> is_number v = true.
Proof.
  unfold read_number. destruct (read_sign s) as [neg u]. destruct (read_whole u) as [w r0]. destruct (is_empty w); [done|].
  destruct (read_fraction r0) as [f r1]. destruct (read_exponent r1) as [x r2].
  destruct (_ && _); [intros E; by simplify_eq|]. unfold float_token. destruct (parse_dec _) as [[d| |]|]; simpl; try done.
  destruct (float_of_dec d); simpl; [intros E; by simplify_eq | done..].
Qed.

Lemma strip_prefix_head a p c s r : strip_prefix (String a p) (String c s) = Some r -> a = c.
Proof. cbn [strip_prefix]. destruct (Ascii.eqb_spec a c); [done | by intros]. Qed.

(** A value that was read is read from every longer text, unless it is a
    number that the text continues. *)
Lemma read_ext n :
  (forall s v r t, read_value n s = Some (v, r) -> (is_number v = true -> ends_number (r +:+ t)) ->
     read_value n (s +:+ t) = Some (v, r +:+ t))
  /\ (forall s m r t, read_members n s = Some (m, r) -> read_members n (s +:+ t) = Some (m, r +:+ t))
  /\ (forall s l r t, read_items n s = Some (l, r) -> read_items n (s +:+ t) = Some (l, r +:+ t)).
Proof.
  induction n as [|n (IHv & IHm & IHl)]; [done|]. split_and!.
  - intros s v r t E H. destruct s as [|c s]; [done|]. rewrite sapp_cons. cbn [read_value] in *.
    destruct (Ascii.eqb c quote).
    { destruct (read_chars s) as [[x r']|] eqn:R; [|done]. rewrite (read_chars_ext _ _ _ t R). cbn in *. by simplify_eq. }
    destruct (Ascii.eqb c "{").
    { destruct (skip_ws s) as [|d r'] eqn:K; [done|]. rewrite (skip_ws_cons _ _ _ t K).
      destruct (Ascii.eqb d "}"); [by simplify_eq|].
      destruct (read_members n (String d r')) as [[m r'']|] eqn:R; [|done]. rewrite <- sapp_cons, (IHm _ _ _ t R). cbn in *. by simplify_eq. }
    destruct (Ascii.eqb c "[").
    { destruct (skip_ws s) as [|d r'] eqn:K; [done|]. rewrite (skip_ws_cons _ _ _ t K).
      destruct (Ascii.eqb d "]"); [by simplify_eq|].
      destruct (read_items n (String d r')) as [[l r'']|] eqn:R; [|done]. rewrite <- sapp_cons, (IHl _ _ _ t R). cbn in *. by simplify_eq. }
    rewrite <- sapp_cons.
    destruct (strip_prefix "null" (String c s)) as [r1|] eqn:P1; [rewrite (strip_prefix_ext _ _ _ t P1); by simplify_eq|].
    destruct (strip_prefix "true" (String c s)) as [r2|] eqn:P2.
    { rewrite (strip_prefix_ext _ _ _ t P2). apply strip_prefix_head in P2 as <-. rewrite sapp_cons. by simplify_eq. }
    destruct (strip_prefix "false" (String c s)) as [r3|] eqn:P3.
    { rewrite (strip_prefix_ext _ _ _ t P3). apply strip_prefix_head in P3 as <-. rewrite sapp_cons. by simplify_eq. }
    pose proof (read_number_ext _ _ _ t E (H (number_is_number _ _ _ E))) as E'.
    assert (NL : forall p, p ∈ ["n"; "t"; "f"]%char -> Ascii.eqb p c = false).
    { intros p Hp. destruct (Ascii.eqb_spec p c) as [Ec|]; [exfalso | done]. rewrite <- Ec in E. clear -E Hp.
      unfold read_number in E. elim_in Hp; simpl in E; done. }
    rewrite sapp_cons in *. cbn [strip_prefix]. rewrite !NL by (rewrite !elem_of_cons; auto). done.
  - intros s m r t E. cbn [read_members] in *. destruct (read_text s) as [[k r1]|] eqn:R1; [|done].
    rewrite (read_text_ext _ _ _ t R1). cbn [mbind option_bind] in *.
    destruct (skip_ws r1) as [|c r2] eqn:K1; [done|]. rewrite (skip_ws_cons _ _ _ t K1).
    destruct (Ascii.eqb c ":"); [|done].
    destruct (read_value n (skip_ws r2)) as [[v r3]|] eqn:R2; [|done]. cbn [mbind option_bind] in E.
    destruct (skip_ws r3) as [|d r4] eqn:K3; [done|]. destruct (skip_ws_head _ _ _ K3) as [N3 H3].
    assert (N2 : skip_ws r2 <> "") by (intros X; rewrite X in R2; destruct n; discriminate R2).
    assert (D : (d = "," \/ d = "}" \/ d = "]")%char).
    { revert E. destruct (Ascii.eqb_spec d ","); [auto|]. destruct (Ascii.eqb_spec d "}"); [auto | done]. }
    rewrite (skip_ws_ext _ _ N2), (IHv _ _ _ t R2 (fun _ => H3 t D)). cbn [mbind option_bind]. rewrite (skip_ws_cons _ _ _ t K3).
    destruct (Ascii.eqb d ","); [|destruct (Ascii.eqb d "}"); by simplify_eq].
    destruct (read_members n (skip_ws r4)) as [[m' r5]|] eqn:R4; [|done]. cbn [mbind option_bind] in *. simplify_eq.
    assert (N4 : skip_ws r4 <> "") by (intros X; rewrite X in R4; destruct n as [|[|n]]; discriminate R4).
    rewrite (skip_ws_ext _ _ N4), (IHm _ _ _ t R4). done.
  - intros s l r t E. cbn [read_items] in *. destruct (read_value n s) as [[v r3]|] eqn:R2; [|done]. cbn [mbind option_bind] in E.
    destruct (skip_ws r3) as [|d r4] eqn:K3; [done|]. destruct (skip_ws_head _ _ _ K3) as [N3 H3].
    assert (D : (d = "," \/ d = "}" \/ d = "]")%char).
    { revert E. destruct (Ascii.eqb_spec d ","); [auto|]. destruct (Ascii.eqb_spec d "]"); [auto | done]. }
    rewrite (IHv _ _ _ t R2 (fun _ => H3 t D)). cbn [mbind option_bind]. rewrite (skip_ws_cons _ _ _ t K3).
    destruct (Ascii.eqb d ","); [|destruct (Ascii.eqb d "]"); by simplify_eq].
    destruct (read_items n (skip_ws r4)) as [[l' r5]|] eqn:R4; [|done]. cbn [mbind option_bind] in *. simplify_eq.
    assert (N4 : skip_ws r4 <> "") by (intros X; rewrite X in R4; destruct n as [|[|n]]; discriminate R4).
    rewrite (skip_ws_ext _ _ N4), (IHl _ _ _ t R4). done.
Qed.

(** ** What was written is read back *)

Fixpoint need (v : pyval) : nat :=
  match v with
  | PList l => S (list_sum (map (fun v => S (need v)) l))
  | PDict m => S (list_sum (map (fun p => S (need (snd p))) m))
  | _ => 1
  end.

Lemma digit_char_zero d : 0 < d < 10 -> digit_char d <> "0"%char.
Proof. intros H E. pose proof (digit_char_val d) as V. rewrite E in V. change (digit_val "0") with 0 in V. lia. Qed.

Lemma digs_head fuel n acc : 0 < n < 10 ^ Z.of_nat fuel -> exists c s, digs fuel n acc = String c s /\ c <> "0"%char.
Proof.
  revert n acc. induction fuel as [|fuel IH]; intros n acc H; [simpl in H; lia|].
  rewrite Nat2Z.inj_succ, Z.pow_succ_r in H by lia. cbn [digs]. destruct (n <? 10) eqn:E; bprop.
  - rewrite Z.mod_small by lia. do 2 eexists. split; [done|]. apply digit_char_zero. lia.
  - apply IH. split; [apply Z.div_str_pos; lia | apply Z.div_lt_upper_bound; lia].
Qed.

Lemma digits_head n : 0 < n -> exists c s, digits_of n = String c s /\ c <> "0"%char.
Proof.
  intros H. apply digs_head. split; [done|]. rewrite Nat2Z.inj_succ, Z2Nat.id by apply Z.log2_nonneg.
  pose proof (Z.log2_spec n H) as [_ U]. eapply Z.lt_le_trans; [exact U|]. apply Z.pow_le_mono_l. lia.
Qed.

Lemma read_whole_digits n : 0 <= n -> read_whole (digits_of n) = (digits_of n, "").
Proof.
  intros H. destruct (decide (n = 0)) as [->|N]; [done|]. destruct (digits_head n) as (c & s & E & C); [lia|].
  pose proof (digits_of_digits n H) as D. rewrite E in *. simpl. destruct (Ascii.eqb_spec c "0") as [|_]; [done|].
  change (span_digits (String c s) = (String c s, "")). rewrite <- (sapp_nil_r (String c s)) at 1. by apply span_digits_app.
Qed.

Lemma read_int z : read_number (int_str z) = Some (PInt z, "").
Proof.
  unfold read_number, int_str. pose proof (Z.abs_nonneg z) as A. pose proof (read_whole_digits _ A) as W.
  pose proof (digits_of_nonempty (Z.abs z)) as N. pose proof (digits_of_digits _ A) as D.
  assert (S : read_sign ((if z <? 0 then "-" else "") +:+ digits_of (Z.abs z)) = (z <? 0, digits_of (Z.abs z))).
  { destruct (z <? 0); [done|]. rewrite sapp_nil_l. destruct (digits_of (Z.abs z)) as [|c s]; [done|]. simpl in *. bprop.
    destruct (Ascii.eqb_spec c "-") as [->|]; [done | done]. }
  rewrite S, W, N. simpl. rewrite digits_of_num by done. destruct (z <? 0) eqn:E; bprop; repeat f_equal; lia.
Qed.

Lemma number_head s x : read_number s = Some x -> exists c s', s = String c s' /\ (c = "-"%char \/ is_digit c = true).
Proof.
  unfold read_number. destruct s as [|c s]; [done|]. intros H. exists c, s. split; [done|]. simpl in H.
  destruct (Ascii.eqb_spec c "-") as [->|N]; [by left|]. right. simpl in H. destruct (Ascii.eqb_spec c "0") as [->|N']; [done|].
  destruct (is_digit c); [done|]. done.
Qed.

Lemma read_value_number n s x : read_number s = Some x -> read_value (S n) s = Some x.
Proof.
  intros H. destruct (number_head _ _ H) as (c & s' & -> & Hc).
  assert (B : Ascii.eqb c quote = false /\ Ascii.eqb c "{" = false /\ Ascii.eqb c "[" = false
              /\ Ascii.eqb "n" c = false /\ Ascii.eqb "t" c = false /\ Ascii.eqb "f" c = false).
  { clear -Hc. destruct Hc as [-> | Hc]; [done|]. by destruct c as [[] [] [] [] [] [] [] []]. }
  destruct B as (B1 & B2 & B3 & B4 & B5 & B6). cbn [read_value strip_prefix]. by rewrite B1, B2, B3, B4, B5, B6.
Qed.

Definition no_ws_head (s : string) : Prop := match s with String c _ => is_ws c = false | EmptyString => False end.

Lemma no_ws_skip s : no_ws_head s -> skip_ws s = s.
Proof. destruct s as [|c s]; simpl; [done|]. by intros ->. Qed.

Lemma number_no_ws s x t : read_number s = Some x -> no_ws_head (s +:+ t).
Proof.
  intros H. destruct (number_head _ _ H) as (c & s' & -> & Hc). rewrite sapp_cons. simpl.
  clear -Hc. destruct Hc as [-> | Hc]; [done|]. by destruct c as [[] [] [] [] [] [] [] []].
Qed.

Lemma dumps_no_ws v t : Normal v -> floats_ok v = true -> no_ws_head (dumps v +:+ t).
Proof.
  intros N F. destruct v as [|[]|z|d|x|s|l|m]; cbn [dumps]; try done; try (by rewrite ?sapp_assoc).
  - apply (number_no_ws _ _ _ (read_int z)).
  - simpl in F. destruct (read_number (float_repr d)) eqn:E; [|done]. apply (number_no_ws _ _ _ E).
  - inversion N.
Qed.

(** Reading back one value. *)
Definition reads (v : pyval) : Prop := forall n t,
  (need v <= n)%nat -> (is_number v = true -> ends_number t) -> read_value n (dumps v +:+ t) = Some (v, t).

Lemma items_roundtrip l : l <> [] -> Forall (fun v => reads v /\ Normal v /\ floats_ok v = true) l -> forall n t,
  (list_sum (map (fun v => S (need v)) l) <= n)%nat ->
  read_items n (join "," (map dumps l) +:+ "]" +:+ t) = Some (l, t).
Proof.
  induction l as [|v l IH]; intros NE F n t Hn; [done|]. inversion F as [|? ? (R & Nv & Fv) F']; subst.
  simpl in Hn. destruct n as [|n]; [lia|]. cbn [read_items].
  destruct l as [|v' l].
  - cbn [map join]. rewrite (R n ("]" +:+ t)) by (done || lia). done.
  - change (join "," (map dumps (v :: v' :: l))) with (dumps v +:+ "," +:+ join "," (map dumps (v' :: l))).
    rewrite !sapp_assoc. rewrite (R n _) by (done || (simpl in Hn; lia)). cbn [mbind option_bind].
    rewrite sapp_cons, sapp_nil_l.
    set (u := join "," (map dumps (v' :: l)) +:+ "]" +:+ t) in *. change (skip_ws (String "," u)) with (String "," u).
    cbn [Ascii.eqb]. assert (W : skip_ws u = u).
    { apply no_ws_skip. unfold u. inversion F' as [|? ? (_ & Nv' & Fv') _]; subst. destruct l as [|v'' l]; cbn [map join];
        rewrite ?sapp_assoc; by apply dumps_no_ws. }
    cbn. rewrite W. unfold u. rewrite IH by (done || (simpl in *; lia)). done.
Qed.

Lemma members_roundtrip m : m <> [] -> Forall (fun p => reads (snd p) /\ Normal (snd p) /\ floats_ok (snd p) = true) m -> forall n t,
  (list_sum (map (fun p => S (need (snd p))) m) <= n)%nat ->
  read_members n (join "," (map (fun p => dumps_str (fst p) +:+ ":" +:+ dumps (snd p)) m) +:+ "}" +:+ t) = Some (m, t).
Proof.
  induction m as [|[k v] m IH]; intros NE F n t Hn; [done|]. inversion F as [|? ? (R & Nv & Fv) F']; subst. cbn [fst snd] in *.
  simpl in Hn. destruct n as [|n]; [lia|]. cbn [read_members]. destruct m as [|p m].
  - cbn [map join fst snd]. rewrite !sapp_assoc, read_dumps_str. cbn [mbind option_bind]. rewrite sapp_cons, sapp_nil_l.
    rewrite (no_ws_skip (String ":" _)) by done. change (Ascii.eqb ":" ":") with true. cbv iota.
    rewrite no_ws_skip by (by apply dumps_no_ws). rewrite (R n _) by (done || lia). done.
  - set (g := fun p : string * pyval => dumps_str (fst p) +:+ ":" +:+ dumps (snd p)) in *.
    change (join "," (map g ((k, v) :: p :: m))) with (g (k, v) +:+ "," +:+ join "," (map g (p :: m))).
    unfold g at 1. cbn [fst snd]. rewrite !sapp_assoc, read_dumps_str. cbn [mbind option_bind].
    rewrite (sapp_cons ":"), sapp_nil_l. set (u := join "," (map g (p :: m)) +:+ "}" +:+ t) in *.
    rewrite (no_ws_skip (String ":" _)) by done. change (Ascii.eqb ":" ":") with true. cbv iota.
    rewrite no_ws_skip by (by apply dumps_no_ws). rewrite (R n _) by (done || (simpl in Hn; lia)). cbn [mbind option_bind].
    assert (W : skip_ws u = u).
    { apply no_ws_skip. unfold u. destruct m as [|p' m]; cbn [map join]; unfold g, dumps_str; rewrite ?sapp_assoc; done. }
    rewrite (sapp_cons ","), sapp_nil_l. rewrite (no_ws_skip (String "," u)) by done. change (Ascii.eqb "," ",") with true. cbv iota.
    rewrite W. unfold u. rewrite IH by (done || (simpl in *; lia)). done.
Qed.

Lemma dupdate_nil m : NoDup (map fst m) -> dupdate [] m = m.
Proof.
  unfold dupdate. assert (G : forall d, NoDup (map fst (d ++ m)) -> fold_left (fun d p => dset (fst p) (snd p) d) m d = (d ++ m)%list).
  { induction m as [|[k v] m IH]; intros d D; simpl; [by rewrite app_nil_r|].
    assert (E : dset k v d = (d ++ [(k, v)])%list).
    { rewrite map_app in D. apply NoDup_app in D as (_ & N & _). clear IH.
      assert (Nk : k ∉ map fst d) by (intros J; apply (N k J); simpl; left). clear N.
      induction d as [|[k' v'] d IHd]; [done|]. simpl in *. apply not_elem_of_cons in Nk as [Nk Nd].
      apply String.eqb_neq in Nk as ->. by rewrite IHd. }
    rewrite E, IH; rewrite <- app_assoc; done. }
  intros D. by apply G.
Qed.

Lemma reads_normal v : Normal v -> floats_ok v = true -> reads v.
Proof.
  induction v as [| | z|d|x|s|l IH|m IH] using pyval_nested; intros N F n t Hn Ht;
    (destruct n as [|n]; [simpl in Hn; lia|]).
  - done.
  - by destruct b.
  - apply read_value_number. apply (read_number_ext _ _ "" t (read_int z)). by apply Ht.
  - cbn [floats_ok] in F. destruct (read_number (float_repr d)) as [[w r]|] eqn:E; [|done].
    destruct w; try done. destruct r; [|done]. bprop. subst. apply read_value_number.
    apply (read_number_ext _ _ "" t E). by apply Ht.
  - inversion N.
  - cbn [dumps]. unfold dumps_str. rewrite sapp_cons, sapp_assoc. cbn [read_value].
    change (Ascii.eqb quote quote) with true. cbv iota. change (String quote "" +:+ t) with (String quote t). by rewrite read_escape.
  - inversion N as [| | | | |? Nl|]; subst. cbn [dumps floats_ok need] in *.
    assert (FA : Forall (fun v => reads v /\ Normal v /\ floats_ok v = true) l).
    { rewrite Forall_forall in *. rewrite forallb_forall in F. intros v J. pose proof (F v (proj1 (list_elem_of_In _ _) J)).
      split_and!; auto. }
    rewrite sapp_assoc, sapp_cons, sapp_nil_l, sapp_assoc. cbn [read_value].
    destruct l as [|v l]; [done|].
    assert (W : no_ws_head (join "," (map dumps (v :: l)) +:+ "]" +:+ t)
                /\ match join "," (map dumps (v :: l)) +:+ "]" +:+ t with String c _ => Ascii.eqb c "]" = false | EmptyString => False end).
    { inversion FA as [|? ? (_ & Nv & Fv) _]; subst. rewrite <- (sapp_nil_l t).
      assert (Wv : no_ws_head (dumps v +:+ "") /\ match dumps v with String c _ => Ascii.eqb c "]" = false | EmptyString => False end).
      { split; [by apply dumps_no_ws|]. destruct v as [|[]|z|d|x|s|l'|m']; try done.
        - destruct (number_head _ _ (read_int z)) as (c & s & E & Hc). cbn [dumps]. rewrite E. clear -Hc.
          destruct Hc as [-> | Hc]; [done|]. by destruct c as [[] [] [] [] [] [] [] []].
        - simpl in Fv. destruct (read_number (float_repr d)) as [x|] eqn:E'; [|done].
          destruct (number_head _ _ E') as (c & s & E & Hc). cbn [dumps]. rewrite E. clear -Hc.
          destruct Hc as [-> | Hc]; [done|]. by destruct c as [[] [] [] [] [] [] [] []].
        - inversion Nv. }
      rewrite sapp_nil_r in Wv. destruct l; cbn [map join]; rewrite ?sapp_assoc;
        (destruct (dumps v) as [|c u]; [by destruct Wv|]); rewrite sapp_cons; exact Wv. }
    destruct W as [W1 W2]. change (Ascii.eqb "[" quote) with false. change (Ascii.eqb "[" "{") with false.
    change (Ascii.eqb "[" "[") with true. cbv iota. rewrite (no_ws_skip _ W1).
    pose proof (items_roundtrip (v :: l) ltac:(done) FA n t ltac:(simpl in *; lia)) as R.
    destruct (join "," (map dumps (v :: l)) +:+ "]" +:+ t) as [|c u]; [done|]. rewrite W2, R. done.
  - pose proof (normal_nodup _ N) as D. inversion N as [| | | | | |? Nm S]; subst. cbn [dumps floats_ok need] in *.
    assert (FA : Forall (fun p => reads (snd p) /\ Normal (snd p) /\ floats_ok (snd p) = true) m).
    { rewrite Forall_forall in *. rewrite forallb_forall in F. intros v J. pose proof (F v (proj1 (list_elem_of_In _ _) J)).
      split_and!; auto. }
    rewrite sapp_assoc, sapp_cons, sapp_nil_l, sapp_assoc. cbn [read_value].
    change (Ascii.eqb "{" quote) with false. change (Ascii.eqb "{" "{") with true. cbv iota.
    destruct m as [|[k v] m]; [done|]. set (g := fun p : string * pyval => dumps_str (fst p) +:+ ":" +:+ dumps (snd p)) in *.
    pose proof (members_roundtrip ((k, v) :: m) ltac:(done) FA n t ltac:(simpl in *; lia)) as R. fold g in R.
    assert (H : exists u, join "," (map g ((k, v) :: m)) +:+ "}" +:+ t = String quote u).
    { destruct m; cbn [map join]; unfold g at 1, dumps_str; cbn [fst]; rewrite ?sapp_assoc, sapp_cons; eauto. }
    destruct H as [u E]. rewrite E in *. change (skip_ws (String quote u)) with (String quote u).
    change (Ascii.eqb quote "}") with false. cbv iota. rewrite R. cbn [mbind option_bind]. by rewrite dupdate_nil.
Qed.

Lemma length_pos s : s <> "" -> (1 <= String.length s)%nat.
Proof. destruct s; simpl; [done | lia]. Qed.

Lemma join_length {A} (f : A -> string) (g : A -> nat) l :
  Forall (fun x => (g x <= String.length (f x))%nat) l ->
  (list_sum (map (fun x => S (g x)) l) <= S (String.length (join "," (map f l))))%nat.
Proof.
  induction 1 as [|x l H F IH]; [simpl; lia|]. destruct l as [|y l]; [simpl in *; lia|].
  change (join "," (map f (x :: y :: l))) with (f x +:+ "," +:+ join "," (map f (y :: l))).
  rewrite !slength_app. change (list_sum (map (fun x => S (g x)) (x :: y :: l)))
    with (S (g x) + list_sum (map (fun x => S (g x)) (y :: l)))%nat. simpl (String.length ","). lia.
Qed.

Lemma need_length v : Normal v -> floats_ok v = true -> (need v <= String.length (dumps v))%nat.
Proof.
  induction v as [| | z|d|x|s|l IH|m IH] using pyval_nested; intros N F; cbn [need dumps].
  - simpl. lia.
  - destruct b; simpl; lia.
  - apply length_pos. destruct (number_head _ _ (read_int z)) as (c & s & -> & _). done.
  - simpl in F. destruct (read_number (float_repr d)) as [x|] eqn:E'; [|done].
    destruct (number_head _ _ E') as (c & s & -> & _). simpl. lia.
  - inversion N.
  - simpl. lia.
  - inversion N as [| | | | |? Nl|]; subst. simpl in F. rewrite forallb_forall in F. rewrite !slength_app. simpl.
    assert (FA : Forall (fun v => (need v <= String.length (dumps v))%nat) l).
    { rewrite Forall_forall in *. intros v J. apply IH; auto. apply F. by apply list_elem_of_In. }
    pose proof (join_length dumps need l FA). lia.
  - inversion N as [| | | | | |? Nm _]; subst. simpl in F. rewrite forallb_forall in F. rewrite !slength_app. simpl.
    assert (FA : Forall (fun p => (need (snd p) <= String.length (dumps_str (fst p) +:+ ":" +:+ dumps (snd p)))%nat) m).
    { rewrite Forall_forall in *. intros p J. rewrite !slength_app. pose proof (IH _ J (Nm _ J)) as Hp.
      specialize (Hp (F _ (proj1 (list_elem_of_In _ _) J))). simpl. lia. }
    pose proof (join_length (fun p => dumps_str (fst p) +:+ ":" +:+ dumps (snd p)) (fun p => need (snd p)) m FA). lia.
Qed.

(** A document is read back from its text, whatever white space follows. *)
Lemma loads_dumps v ws :
  Normal v -> floats_ok v = true -> skip_ws ws = "" -> loads (dumps v +:+ ws) = Some v.
Proof.
  intros N F W. unfold loads. rewrite no_ws_skip by (by apply dumps_no_ws). rewrite (reads_normal v N F).
  - by rewrite W.
  - pose proof (need_length v N F). rewrite slength_app. lia.
  - intros _. destruct ws as [|c ws]; [done|]. simpl in *. destruct (is_ws c) eqn:E; [|done].
    clear -E. by destruct c as [[] [] [] [] [] [] [] []].
Qed.

(** Two documents in a row are not one. *)
Lemma loads_two v c s :
  Normal v -> floats_ok v = true -> is_ws c = false -> loads (dumps v +:+ String (ascii_of_nat 10) (String c s)) = None.
Proof.
  intros N F W. unfold loads. rewrite no_ws_skip by (by apply dumps_no_ws). rewrite (reads_normal v N F).
  - simpl. by rewrite W.
  - pose proof (need_length v N F). rewrite slength_app. lia.
  - done.
Qed.

Lemma read_more n :
  (forall s x, read_value n s = Some x -> read_value (S n) s = Some x)
  /\ (forall s x, read_members n s = Some x -> read_members (S n) s = Some x)
  /\ (forall s x, read_items n s = Some x -> read_items (S n) s = Some x).
Proof.
  induction n as [|n (IHv & IHm & IHl)]; [done|]. split_and!; intros s x E.
  - cbn [read_value] in E. destruct s as [|c s]; [done|]. cbn -[read_members read_items read_number].
    destruct (Ascii.eqb c quote); [done|]. destruct (Ascii.eqb c "{").
    { destruct (skip_ws s) as [|d r]; [done|]. destruct (Ascii.eqb d "}"); [done|].
      destruct (read_members n (String d r)) as [p|] eqn:R; [|done]. by rewrite (IHm _ _ R). }
    destruct (Ascii.eqb c "["); [|done].
    destruct (skip_ws s) as [|d r]; [done|]. destruct (Ascii.eqb d "]"); [done|].
    destruct (read_items n (String d r)) as [p|] eqn:R; [|done]. by rewrite (IHl _ _ R).
  - cbn [read_members] in E. change (read_members (S (S n)) s) with
      ('(k, r) ← read_text s;
       match skip_ws r with
       | String c r =>
           if Ascii.eqb c ":" then
             '(v, r) ← read_value (S n) (skip_ws r);
             match skip_ws r with
             | String c r =>
                 if Ascii.eqb c "," then '(m, r) ← read_members (S n) (skip_ws r); Some ((k, v) :: m, r)
                 else if Ascii.eqb c "}" then Some ([(k, v)], r) else None
             | EmptyString => None
             end
           else None
       | EmptyString => None
       end).
    destruct (read_text s) as [[k r]|]; [|done]. cbn [mbind option_bind] in *. destruct (skip_ws r) as [|c r1]; [done|].
    destruct (Ascii.eqb c ":"); [|done]. destruct (read_value n (skip_ws r1)) as [[v r2]|] eqn:R; [|done].
    rewrite (IHv _ _ R). cbn [mbind option_bind] in *. destruct (skip_ws r2) as [|d r3]; [done|].
    destruct (Ascii.eqb d ","); [|done]. destruct (read_members n (skip_ws r3)) as [p|] eqn:R3; [|done]. by rewrite (IHm _ _ R3).
  - cbn [read_items] in E. change (read_items (S (S n)) s) with
      ('(v, r) ← read_value (S n) s;
       match skip_ws r with
       | String c r =>
           if Ascii.eqb c "," then '(l, r) ← read_items (S n) (skip_ws r); Some (v :: l, r)
           else if Ascii.eqb c "]" then Some ([v], r) else None
       | EmptyString => None
       end).
    destruct (read_value n s) as [[v r2]|] eqn:R; [|done].
    rewrite (IHv _ _ R). cbn [mbind option_bind] in *. destruct (skip_ws r2) as [|d r3]; [done|].
    destruct (Ascii.eqb d ","); [|done]. destruct (read_items n (skip_ws r3)) as [p|] eqn:R3; [|done]. by rewrite (IHl _ _ R3).
Qed.

Lemma read_enough n k s x : read_value n s = Some x -> read_value (k + n) s = Some x.
Proof. intros H. induction k as [|k IH]; [done|]. by apply read_more. Qed.

Lemma read_dict n s x r : read_value n (String "{" s) = Some (x, r) -> is_number x = false.
Proof.
  destruct n as [|n]; [done|]. cbn [read_value]. change (Ascii.eqb "{" quote) with false. change (Ascii.eqb "{" "{") with true.
  cbv iota. destruct (skip_ws s) as [|d u]; [done|]. destruct (Ascii.eqb d "}"); [by intros [= <- <-]|].
  destruct (read_members n (String d u)) as [[m u']|]; [|done]. by intros [= <- <-].
Qed.

(** A dictionary whose text was cut is not readable. *)
Lemma loads_cut m p q :
  Normal (PDict m) -> floats_ok (PDict m) = true -> dumps (PDict m) = p +:+ q -> q <> "" -> loads p = None.
Proof.
  intros N F E Q. destruct (loads p) as [w|] eqn:L; [|done]. exfalso. unfold loads in L.
  destruct (read_value (S (String.length p)) (skip_ws p)) as [[x r]|] eqn:R; [|done].
  destruct p as [|c p]; [done|].
  assert (C : c = "{"%char) by (cbn [dumps] in E; rewrite sapp_cons in E; by injection E). subst c.
  rewrite no_ws_skip in R by done. pose proof (read_dict _ _ _ _ R) as D.
  pose proof (proj1 (read_ext _) _ _ _ q R ltac:(by rewrite D)) as R'. rewrite <- E in R'.
  apply (read_enough _ (need (PDict m))) in R'.
  pose proof (reads_normal _ N F (need (PDict m) + S (String.length (String "{" p)))%nat "" ltac:(lia) ltac:(done)) as R2.
  rewrite sapp_nil_r, R' in R2. injection R2 as _ R2. destruct r; [by rewrite sapp_nil_l in R2 | done].
Qed.
