(* ===== verification/TimeText.v ===== *)
(** * TimeText: the text of an instant is read back

    Every component stores its times as [isoformat] texts and reads them with
    [fromisoformat].  The calendar that the printer and the reader use is
    proved to be one calendar, and the texts of all the instants Python can
    represent are read back to the microsecond. *)

From Stdlib Require Import ZArith Lia Ascii.
From S2P Require Import Prelude Decimal PyString DecText PyValue PyTime.
Open Scope string_scope.
Open Scope Z_scope.

(** The instants of [datetime]: 0001-01-01 to 9999-12-31. *)
Definition representable (t : Z) : bool := (-62135596800000000 <=? t) && (t <=? 253402300799999999).

(** ** The calendar *)

Lemma leap_spec y : leap y = true <-> y mod 4 = 0 /\ (y mod 100 <> 0 \/ y mod 400 = 0).
Proof.
  unfold leap. rewrite andb_true_iff, orb_true_iff, negb_true_iff, !Z.eqb_eq, Z.eqb_neq. done.
Qed.

(** Day of the year, counted from the first of March. *)
Lemma month_of_day doy :
  0 <= doy <= 365 ->
  let mp := (5 * doy + 2) / 153 in
  let d := doy - (153 * mp + 2) / 5 + 1 in
  0 <= mp <= 11 /\ 1 <= d <= 31 /\ (mp = 11 -> d <= 29 /\ (d = 29 -> doy = 365))
  /\ (mp = 1 \/ mp = 3 \/ mp = 6 \/ mp = 8 -> d <= 30).
Proof. intros H. cbv zeta. Z.div_mod_to_equations. lia. Qed.

Lemma year_of_era doe :
  0 <= doe < 146097 ->
  let yoe := (doe - doe / 1460 + doe / 36524 - doe / 146096) / 365 in
  let doy := doe - (365 * yoe + yoe / 4 - yoe / 100) in
  0 <= yoe < 400 /\ 0 <= doy <= 365
  /\ (doy = 365 -> (yoe + 1) mod 4 = 0 /\ ((yoe + 1) mod 100 <> 0 \/ (yoe + 1) mod 400 = 0)).
Proof. intros H. cbv zeta. Z.div_mod_to_equations. lia. Qed.

Lemma civil_round z :
  let '(y, m, d) := civil_from_days z in
  1 <= m <= 12 /\ 1 <= d <= days_in_month y m /\ days_from_civil y m d = z
  /\ (-719162 <= z <= 2932896 -> 1 <= y <= 9999).
Proof.
  unfold civil_from_days. set (z' := z + 719468). set (era := z' / 146097). set (doe := z' - era * 146097).
  set (yoe := (doe - doe / 1460 + doe / 36524 - doe / 146096) / 365).
  set (doy := doe - (365 * yoe + yoe / 4 - yoe / 100)). set (mp := (5 * doy + 2) / 153).
  set (d := doy - (153 * mp + 2) / 5 + 1).
  assert (De : 0 <= doe < 146097) by (unfold doe, era; Z.div_mod_to_equations; lia).
  destruct (year_of_era doe De) as (Y & D & L). fold yoe doy in Y, D, L.
  destruct (month_of_day doy D) as (M & Dd & Feb & Short). fold mp d in M, Dd, Feb, Short.
  set (m := if mp <? 10 then mp + 3 else mp - 9). set (y := if m <=? 2 then yoe + era * 400 + 1 else yoe + era * 400).
  assert (Mm : (mp < 10 /\ m = mp + 3 /\ 3 <= m) \/ (10 <= mp /\ m = mp - 9 /\ m <= 2)).
  { unfold m. destruct (mp <? 10) eqn:E; bprop; lia. }
  assert (Yy : (m <= 2 /\ y = yoe + era * 400 + 1) \/ (3 <= m /\ y = yoe + era * 400)).
  { unfold y. destruct (m <=? 2) eqn:E; bprop; lia. }
  split; [lia|]. split; [|split].
  - split; [lia|]. unfold days_in_month. destruct (m =? 2) eqn:E2; bprop.
    + destruct Feb as [F1 F2]; [lia|]. destruct (leap y) eqn:Ly; [lia|].
      destruct (decide (d = 29)) as [E|]; [exfalso|lia]. apply F2, L in E. assert (leap y = true); [|congruence].
      apply leap_spec. destruct Yy as [[_ ->]|[? _]]; [|lia]. clear -E.
      replace (yoe + era * 400 + 1) with (yoe + 1 + era * 400) by lia.
      replace ((yoe + 1 + era * 400) mod 4) with ((yoe + 1) mod 4) by (Z.div_mod_to_equations; lia).
      replace ((yoe + 1 + era * 400) mod 100) with ((yoe + 1) mod 100) by (Z.div_mod_to_equations; lia).
      by rewrite Z.mod_add by lia.
    + destruct ((m =? 4) || (m =? 6) || (m =? 9) || (m =? 11)) eqn:E; [|lia].
      assert (d <= 30); [|lia]. apply Short. rewrite !orb_true_iff, !Z.eqb_eq in E. lia.
  - unfold days_from_civil. assert (Y1 : (if m <=? 2 then y - 1 else y) = yoe + era * 400).
    { destruct (m <=? 2) eqn:E; bprop; lia. }
    rewrite Y1. replace ((yoe + era * 400) / 400) with era by (Z.div_mod_to_equations; lia).
    assert (M1 : (if 2 <? m then m - 3 else m + 9) = mp) by (destruct (2 <? m) eqn:E; bprop; lia).
    rewrite M1. replace (yoe + era * 400 - era * 400) with yoe by lia. unfold d, doy, doe, z'. lia.
  - intros R. assert (Eb : 0 <= era <= 24) by (unfold era, z'; Z.div_mod_to_equations; lia).
    assert (Hd : doe = doy + (365 * yoe + yoe / 4 - yoe / 100)) by (unfold doy; lia).
    assert (Hm : 10 <= mp <-> 306 <= doy) by (unfold mp; Z.div_mod_to_equations; lia).
    assert (Hz : era * 146097 + doe = z') by (unfold doe; lia). unfold z' in Hz. clearbody m y d doe yoe doy mp era.
    clear Dd Feb Short L. destruct Mm as [(? & ? & ?)|(? & ? & ?)], Yy as [[? ?]|[? ?]]; subst m y; Z.div_mod_to_equations; lia.
Qed.

(** ** Digits *)

Lemma digs_length fuel n w :
  0 <= n < 10 ^ Z.of_nat w -> (1 <= w)%nat -> (String.length (digs fuel n "") <= w)%nat.
Proof.
  revert n w. induction fuel as [|fuel IH]; intros n w H W; [simpl; lia|]. cbn [digs].
  destruct (n <? 10) eqn:E; bprop; [simpl; lia|]. rewrite digs_acc, slength_app. simpl (String.length (String _ _)).
  destruct w as [|[|w]]; [lia | simpl in H; lia|].
  assert (String.length (digs fuel (n / 10) "") <= S w)%nat; [|lia]. apply IH; [|lia].
  rewrite Nat2Z.inj_succ, Z.pow_succ_r in H by lia. split; [apply Z.div_pos; lia | apply Z.div_lt_upper_bound; lia].
Qed.

Lemma pad_digits w n :
  0 <= n < 10 ^ Z.of_nat w -> (1 <= w)%nat ->
  sforall is_digit (pad w n) = true /\ String.length (pad w n) = w /\ num_of 0 (pad w n) = n.
Proof.
  intros H W. unfold pad. pose proof (digs_length (S (Z.to_nat (Z.log2 n))) n w H W) as L. fold (digits_of n) in L.
  split_and!.
  - rewrite sforall_app, zeros_digits. apply digits_of_digits. lia.
  - rewrite slength_app, zeros_length. lia.
  - rewrite num_of_app, num_of_zeros. rewrite Z.mul_0_l. apply digits_of_num. lia.
Qed.

Lemma take_digits_all a acc s :
  sforall is_digit a = true -> take_digits (String.length a) acc (a +:+ s) = Some (num_of acc a, s).
Proof.
  revert acc. induction a as [|c a IH]; intros acc H; [done|]. simpl in H. bprop. rewrite sapp_cons. simpl. rewrite H.
  unfold digit_val. rewrite IH by done. do 3 f_equal. lia.
Qed.

Lemma take_pad w n s : 0 <= n < 10 ^ Z.of_nat w -> (1 <= w)%nat -> take_digits w 0 (pad w n +:+ s) = Some (n, s).
Proof.
  intros H W. destruct (pad_digits w n H W) as (D & L & N). rewrite <- L at 1. by rewrite take_digits_all, N.
Qed.

Lemma take_fraction_all a acc s :
  sforall is_digit a = true -> no_digit_head s -> take_fraction (String.length a) acc (a +:+ s) = (num_of acc a, s).
Proof.
  revert acc. induction a as [|c a IH]; intros acc H Hs.
  - rewrite sapp_nil_l. simpl. destruct s as [|c s]; simpl in *; [|rewrite Hs]; by rewrite Z.mul_1_r.
  - simpl in H. bprop. rewrite sapp_cons. simpl. rewrite H. unfold digit_val. rewrite IH by done. do 2 f_equal. lia.
Qed.

Lemma take_pad_fraction w n s :
  0 <= n < 10 ^ Z.of_nat w -> (1 <= w)%nat -> no_digit_head s -> take_fraction w 0 (pad w n +:+ s) = (n, s).
Proof.
  intros H W Hs. destruct (pad_digits w n H W) as (D & L & N). rewrite <- L at 1. by rewrite take_fraction_all, N.
Qed.

(** ** Instants *)

Lemma take_date_iso t s :
  representable t = true -> take_date (date_iso t +:+ s) = Some (t / 86400000000, s).
Proof.
  unfold representable. rewrite andb_true_iff, !Z.leb_le. intros R. unfold take_date, date_iso.
  pose proof (civil_round (t / 86400000000)) as C. destruct (civil_from_days (t / 86400000000)) as [[y m] d].
  destruct C as (M & D & Z & Y). destruct Y as [Y1 Y2]; [Z.div_mod_to_equations; lia|].
  assert (d <= 31) by (unfold days_in_month in D; repeat (destruct (_ : bool)); lia).
  rewrite !sapp_assoc. rewrite take_pad by (simpl; lia). cbn [mbind option_bind]. rewrite sapp_cons, sapp_nil_l. cbn [take_char].
  rewrite Ascii.eqb_refl. cbn [mbind option_bind]. rewrite take_pad by (simpl; lia). cbn [mbind option_bind].
  rewrite sapp_cons, sapp_nil_l. cbn [take_char]. rewrite Ascii.eqb_refl. cbn [mbind option_bind].
  rewrite take_pad by (simpl; lia). cbn [mbind option_bind].
  assert (B : (1 <=? y) && (1 <=? m) && (m <=? 12) && (1 <=? d) && (d <=? days_in_month y m) = true).
  { rewrite !andb_true_iff, !Z.leb_le. lia. }
  by rewrite B, Z.
Qed.

Lemma take_clock_iso us :
  0 <= us < 86400000000 ->
  take_clock (pad 2 (us / 1000000 / 3600) +:+ ":" +:+ pad 2 (us / 1000000 / 60 mod 60) +:+ ":" +:+ pad 2 (us / 1000000 mod 60)
    +:+ (if us mod 1000000 =? 0 then "" else "." +:+ pad 6 (us mod 1000000)) +:+ "+00:00") = Some (us, "+00:00").
Proof.
  intros U. set (h := us / 1000000 / 3600). set (mi := us / 1000000 / 60 mod 60). set (sec := us / 1000000 mod 60).
  assert (B : 0 <= h < 24 /\ 0 <= mi < 60 /\ 0 <= sec < 60 /\ ((h * 60 + mi) * 60 + sec) * 1000000 + us mod 1000000 = us).
  { unfold h, mi, sec. Z.div_mod_to_equations. lia. }
  clearbody h mi sec. destruct B as (H & M & S & E). pose proof (Z.mod_pos_bound us 1000000 ltac:(lia)) as F.
  unfold take_clock. rewrite take_pad by (simpl; lia). cbn [mbind option_bind].
  replace (h <? 24) with true by (symmetry; apply Z.ltb_lt; lia). cbn [negb]. rewrite sapp_cons, sapp_nil_l. cbn [take_char].
  rewrite Ascii.eqb_refl. rewrite take_pad by (simpl; lia). cbn [mbind option_bind].
  replace (mi <? 60) with true by (symmetry; apply Z.ltb_lt; lia). cbn [negb]. rewrite sapp_cons, sapp_nil_l. cbn [take_char].
  rewrite Ascii.eqb_refl. rewrite take_pad by (simpl; lia). cbn [mbind option_bind].
  replace (sec <? 60) with true by (symmetry; apply Z.ltb_lt; lia). cbn [negb].
  destruct (us mod 1000000 =? 0) eqn:Fz; bprop.
  - rewrite sapp_nil_l. cbn [take_char]. change (Ascii.eqb "." "+") with false. cbv iota. do 2 f_equal. lia.
  - rewrite sapp_assoc, sapp_cons, sapp_nil_l. cbn [take_char]. rewrite Ascii.eqb_refl.
    destruct (pad_digits 6 (us mod 1000000)) as (Dg & L & _); [simpl; lia | lia|].
    destruct (pad 6 (us mod 1000000)) as [|c p] eqn:P; [done|]. rewrite sapp_cons. simpl in Dg. bprop. rewrite H0.
    rewrite <- sapp_cons, <- P. rewrite take_pad_fraction by (simpl; lia || done). do 2 f_equal. lia.
Qed.

Lemma isoformat_text t :
  isoformat t = date_iso t +:+ "T" +:+ pad 2 (t mod 86400000000 / 1000000 / 3600) +:+ ":"
    +:+ pad 2 (t mod 86400000000 / 1000000 / 60 mod 60) +:+ ":" +:+ pad 2 (t mod 86400000000 / 1000000 mod 60)
    +:+ (if t mod 86400000000 mod 1000000 =? 0 then "" else "." +:+ pad 6 (t mod 86400000000 mod 1000000)) +:+ "+00:00".
Proof. done. Qed.

(** An instant is read back from its text. *)
Lemma fromisoformat_isoformat t : representable t = true -> fromisoformat (isoformat t) = Ok (utc t).
Proof.
  intros R. rewrite isoformat_text. unfold fromisoformat. rewrite take_date_iso by done. cbn [mbind option_bind].
  rewrite sapp_cons, sapp_nil_l. rewrite take_clock_iso by (apply Z.mod_pos_bound; lia). cbn [mbind option_bind].
  change (take_offset "+00:00") with (Some (Some 0)). cbn [mbind option_bind]. unfold utc.
  replace (t / 86400000000 * 86400000000 + t mod 86400000000) with t; [done|]. Z.div_mod_to_equations. lia.
Qed.

(** [replace("Z", "+00:00")] changes nothing in it. *)
Definition no_Z (s : string) : bool := sforall (fun c => negb (Ascii.eqb c "Z")) s.

Lemma replace_Z_none s : no_Z s = true -> replace_Z s = s.
Proof. unfold no_Z. induction s as [|c s IH]; simpl; [done|]. intros H. bprop. rewrite H. by rewrite IH. Qed.

Lemma digits_no_Z s : sforall is_digit s = true -> no_Z s = true.
Proof. apply sforall_impl. intros c. by destruct c as [[] [] [] [] [] [] [] []]. Qed.

Lemma pad_no_Z w n : 0 <= n < 10 ^ Z.of_nat w -> (1 <= w)%nat -> no_Z (pad w n) = true.
Proof. intros H W. apply digits_no_Z, pad_digits; done. Qed.

Lemma isoformat_no_Z t : representable t = true -> no_Z (isoformat t) = true.
Proof.
  unfold representable. rewrite andb_true_iff, !Z.leb_le. intros R. rewrite isoformat_text. unfold date_iso.
  pose proof (civil_round (t / 86400000000)) as C. destruct (civil_from_days (t / 86400000000)) as [[y m] d].
  destruct C as (M & D & Z & Y). destruct Y as [Y1 Y2]; [Z.div_mod_to_equations; lia|].
  assert (d <= 31) by (unfold days_in_month in D; repeat (destruct (_ : bool)); lia).
  set (us := t mod 86400000000). assert (U : 0 <= us < 86400000000) by (apply Z.mod_pos_bound; lia). clearbody us.
  assert (B : 0 <= us / 1000000 / 3600 < 100 /\ 0 <= us / 1000000 / 60 mod 60 < 100 /\ 0 <= us / 1000000 mod 60 < 100
              /\ 0 <= us mod 1000000 < 1000000) by (Z.div_mod_to_equations; lia).
  unfold no_Z. rewrite !sforall_app. fold (no_Z (pad 4 y)).
  repeat (rewrite pad_no_Z by (simpl; lia) || fold no_Z).
  destruct (_ =? 0); rewrite ?sforall_app; [done|]. fold (no_Z (pad 6 (us mod 1000000))). rewrite pad_no_Z by (simpl; lia). done.
Qed.

(** What [_datetime_from_iso] and [ensure_aware] read back. *)
Lemma ensure_aware_isoformat now t : representable t = true -> ensure_aware now (TsText (isoformat t)) = Ok t.
Proof.
  intros R. unfold ensure_aware. rewrite replace_Z_none by (by apply isoformat_no_Z).
  rewrite fromisoformat_isoformat by done. simpl. by rewrite aware_utc.
Qed.
