(* ===== verification/Inbox.v ===== *)
(** * Inbox: the node's durable receipts of intents

    Models nautilus-node/runtime/intent_execution_inbox.py: one JSON file that
    records which intents a node has received, which it has begun to dispatch,
    and what the exchange confirmed or refused, with the generation of every
    position that entries are bound to.  The file is [Json]'s normal form of
    what was written.  The file lock is represented by running each operation
    alone; a payload given as a list of pairs is refused here.  The times
    passed in are UTC. *)

From Stdlib Require Import ZArith Lia Ascii.
From S2P Require Import Prelude Decimal PyString DecText PyValue PyTime Store Sha256 External OrderPlans Json.
Open Scope string_scope.
Open Scope Z_scope.

Definition InboxError (msg : string) : exn := RuntimeError "IntentExecutionInboxError" msg.

(** ** Receipts *)

Inductive IntentExecutionState := RECEIVED | DISPATCHED | EXCHANGE_CONFIRMED | REJECTED.

#[global] Instance intent_execution_state_eq_dec : EqDecision IntentExecutionState.
Proof. solve_decision. Defined.

Definition state_value (s : IntentExecutionState) : string :=
  match s with
  | RECEIVED => "received"
  | DISPATCHED => "dispatched"
  | EXCHANGE_CONFIRMED => "exchange_confirmed"
  | REJECTED => "rejected"
  end.

(** [IntentExecutionState(s)] *)
Definition state_of (s : string) : result IntentExecutionState :=
  if String.eqb s "received" then Ok RECEIVED
  else if String.eqb s "dispatched" then Ok DISPATCHED
  else if String.eqb s "exchange_confirmed" then Ok EXCHANGE_CONFIRMED
  else if String.eqb s "rejected" then Ok REJECTED
  else Raise (ValueError "not a valid IntentExecutionState").

Inductive IntentRegisterResult := REGISTERED | REPLAY | INTENT_CONFLICT | IDEMPOTENCY_CONFLICT.

Inductive IntentDispatchResult := READY | RECOVERY_REQUIRED | DISPATCH_EXCHANGE_CONFIRMED | DISPATCH_REJECTED.

Record IntentExecutionIdentity := {
  ii_account_id : string;
  ii_intent_id : string;
  ii_idempotency_key : string;
  ii_instrument_id : string;
  ii_action : string }.

#[global] Instance intent_execution_identity_eq_dec : EqDecision IntentExecutionIdentity.
Proof. solve_decision. Defined.

Definition require_text (s field : string) : result unit :=
  if is_empty s then Raise (InboxError (field +:+ " is required")) else Ok tt.

(** [IntentExecutionIdentity.normalized] *)
Definition normalized (i : IntentExecutionIdentity) : result IntentExecutionIdentity :=
  let account_id := strip (ii_account_id i) in
  h ← uuid_of (ii_intent_id i);
  let idempotency_key := strip (ii_idempotency_key i) in
  let instrument_id := strip (ii_instrument_id i) in
  let action := lower (strip (ii_action i)) in
  _ ← require_text account_id "account_id";
  _ ← require_text idempotency_key "idempotency_key";
  _ ← require_text instrument_id "instrument_id";
  _ ← require_text action "action";
  Ok {| ii_account_id := account_id; ii_intent_id := uuid_text h; ii_idempotency_key := idempotency_key;
        ii_instrument_id := instrument_id; ii_action := action |}.

Record IntentExecutionRecord := {
  re_identity : IntentExecutionIdentity;
  re_state : IntentExecutionState;
  re_intent_payload : dict;
  re_client_order_ids : list string;
  re_exchange_confirmed_client_order_ids : list string;
  re_updated_at : string;
  re_rejection_reason : string;
  re_local_position_generation : option Z;
  re_local_position_side : string;
  re_terminal_client_order_ids : list string }.

Definition is_entry (action : string) : bool := str_in action ["open_position"; "add_position"].

(** [expired_dispatched_management] *)
Definition expired_dispatched_management (r : IntentExecutionRecord) (now : Z) : bool :=
  match re_state r with
  | DISPATCHED =>
      if is_entry (ii_action (re_identity r)) then false
      else match dget "valid_until" (re_intent_payload r) with
           | PStr s =>
               match fromisoformat (replace_Z s) with
               | Ok valid_until => seconds 86400 <? now - aware valid_until
               | Raise _ => false
               end
           | _ => false
           end
  | _ => false
  end.

Definition management_repair_eligible (r : IntentExecutionRecord) (now : Z) : bool :=
  match re_state r with
  | DISPATCHED =>
      if is_entry (ii_action (re_identity r)) then false
      else if match dget "action" (re_intent_payload r) with PStr a => is_entry a | _ => false end then false
      else String.eqb (ii_action (re_identity r)) "cancel_order" || expired_dispatched_management r now
  | _ => false
  end.

(** ** Rows of the file *)

Definition invalid_record : exn := InboxError "intent execution record is invalid".

(** [except (KeyError, TypeError, ValueError)] *)
Definition or_invalid {A} (r : result A) : result A :=
  match r with
  | Raise (KeyError _) | Raise (TypeError _) | Raise (ValueError _) => Raise invalid_record
  | r => r
  end.

(** [dict(value)] *)
Definition dict_of (v : pyval) : result dict :=
  match v with
  | PDict m => Ok m
  | PList [] | PStr EmptyString => Ok []
  | PList _ | PStr _ => Raise (ValueError "dictionary update sequence element has the wrong length")
  | _ => Raise (TypeError "object is not iterable")
  end.

(** [_json_object] *)
Definition json_object (v : pyval) : result dict :=
  match dict_of v ≫= fun m => json_norm (PDict m) with
  | Ok v => Ok (as_dict v)
  | Raise _ => Raise (InboxError "intent payload must be JSON serializable")
  end.

Definition item (k : string) (d : dict) : result pyval :=
  match dlookup k d with Some v => Ok v | None => Raise (KeyError k) end.

(** [tuple(str(value) for value in v)] *)
Definition texts_of (v : pyval) : result (list string) :=
  match v with
  | PList l => Ok (map py_str l)
  | PDict m => Ok (map fst m)
  | PStr s => Ok (map (fun c => String c "") (String.list_ascii_of_string s))
  | _ => Raise (TypeError "object is not iterable")
  end.

(** [_optional_position_generation] *)
Definition optional_position_generation (v : pyval) : result (option Z) :=
  match v with
  | PNone => Ok None
  | PInt z => if z <? 0 then Raise (InboxError "position generation must be a nonnegative integer") else Ok (Some z)
  | _ => Raise (InboxError "position generation must be a nonnegative integer")
  end.

(** [_record_from_raw] *)
Definition record_from_raw (raw : pyval) : result IntentExecutionRecord :=
  match raw with
  | PDict d =>
      or_invalid (
        p ← item "intent_payload" d;
        intent_payload ← json_object p;
        client_order_ids ← texts_of (default (PList []) (dlookup "client_order_ids" d));
        confirmed ← texts_of (default (PList []) (dlookup "exchange_confirmed_client_order_ids" d));
        account_id ← item "account_id" d;
        intent_id ← item "intent_id" d;
        idempotency_key ← item "idempotency_key" d;
        instrument_id ← item "instrument_id" d;
        action ← item "action" d;
        s ← item "state" d;
        state ← state_of (py_str s);
        updated_at ← item "updated_at" d;
        generation ← optional_position_generation (dget "local_position_generation" d);
        terminal ← texts_of (default (PList []) (dlookup "terminal_client_order_ids" d));
        Ok {| re_identity := {| ii_account_id := py_str account_id; ii_intent_id := py_str intent_id;
                                ii_idempotency_key := py_str idempotency_key; ii_instrument_id := py_str instrument_id;
                                ii_action := py_str action |};
              re_state := state; re_intent_payload := intent_payload; re_client_order_ids := client_order_ids;
              re_exchange_confirmed_client_order_ids := confirmed; re_updated_at := py_str updated_at;
              re_rejection_reason := py_str (default (PStr "") (dlookup "rejection_reason" d));
              re_local_position_generation := generation;
              re_local_position_side := py_str (default (PStr "") (dlookup "local_position_side" d));
              re_terminal_client_order_ids := terminal |})
  | _ => Raise (InboxError "intent execution record must be an object")
  end.

Definition texts (l : list string) : pyval := PList (map PStr l).

(** [_serialize_record] *)
Definition serialize_record (r : IntentExecutionRecord) : pyval :=
  let i := re_identity r in
  PDict [("account_id", PStr (ii_account_id i)); ("intent_id", PStr (ii_intent_id i));
         ("idempotency_key", PStr (ii_idempotency_key i)); ("instrument_id", PStr (ii_instrument_id i));
         ("action", PStr (ii_action i)); ("state", PStr (state_value (re_state r)));
         ("intent_payload", PDict (re_intent_payload r)); ("client_order_ids", texts (re_client_order_ids r));
         ("exchange_confirmed_client_order_ids", texts (re_exchange_confirmed_client_order_ids r));
         ("updated_at", PStr (re_updated_at r)); ("rejection_reason", PStr (re_rejection_reason r));
         ("local_position_generation", match re_local_position_generation r with Some g => PInt g | None => PNone end);
         ("local_position_side", PStr (re_local_position_side r));
         ("terminal_client_order_ids", texts (re_terminal_client_order_ids r))].

(** [_record_key] *)
Definition record_key (i : IntentExecutionIdentity) : string := ii_account_id i +:+ ":" +:+ ii_intent_id i.

(** ** Books of positions *)

(** [_position_symbol] *)
Definition position_symbol (instrument_id : string) : string := before "." (before "-" (upper (strip instrument_id))).

(** [_position_book_key] *)
Definition position_book_key (account_id instrument_id side : string) : result string :=
  let account := strip account_id in
  let symbol := position_symbol instrument_id in
  let position_side := upper (strip side) in
  if is_empty account || is_empty symbol || negb (str_in position_side ["LONG"; "SHORT"])
  then Raise (InboxError "position book is invalid")
  else Ok (dumps (PList [PStr account; PStr symbol; PStr position_side])).

(** [_position_operation_id] *)
Definition position_operation_id (value : string) : result string :=
  let operation := strip value in
  if is_empty operation then Raise (InboxError "position invalidation operation_id is required") else Ok operation.

(** ** The file *)

(** The disk: the file, the backups by name, and the clock. *)
Record Disk := { inbox_file : stored; backups : list (string * stored); clock : Z }.

(** An integer that was checked when the file was read. *)
Definition int_value (v : pyval) : Z := match v with PInt z => z | _ => 0 end.

(** [payload["records"]] and [payload.get("position_generations", {})] *)
Definition records_of (payload : dict) : dict := as_dict (dget "records" payload).
Definition generations_of (payload : dict) : dict := as_dict (default (PDict []) (dlookup "position_generations" payload)).

Definition new_book : pyval := PDict [("generation", PInt 0); ("invalidations", PDict [])].
Definition generation_in (state : pyval) : Z := int_value (dget "generation" (as_dict state)).
Definition invalidations_in (state : pyval) : dict := as_dict (dget "invalidations" (as_dict state)).

Definition setdefault (k : string) (v : pyval) (d : dict) : dict := if dmem k d then d else dset k v d.

Definition put_record (key : string) (r : IntentExecutionRecord) (payload : dict) : dict :=
  dset "records" (PDict (dset key (serialize_record r) (records_of payload))) payload.

Definition put_book (book : string) (state : pyval) (payload : dict) : dict :=
  dset "position_generations" (PDict (dset book state (generations_of payload))) payload.

Definition invalid_generation : exn := InboxError "position generation is invalid".

Definition check_invalidation (generation : Z) (_ : unit) (p : string * pyval) : result unit :=
  _ ← position_operation_id (fst p);
  invalidated ← optional_position_generation (snd p);
  match invalidated with
  | Some n => if (0 <? n) && (n <=? generation) then Ok tt else Raise invalid_generation
  | None => Raise invalid_generation
  end.

(** One entry of [position_generations], as [_load_payload] checks it. *)
Definition check_book (_ : unit) (p : string * pyval) : result unit :=
  match read_three (fst p) with
  | None => Raise invalid_generation
  | Some (account, symbol, side) =>
      key ← position_book_key account symbol side;
      if negb (String.eqb key (fst p)) then Raise invalid_generation
      else match snd p with
           | PDict state =>
               generation ← optional_position_generation (dget "generation" state);
               match generation, dget "invalidations" state with
               | Some g, PDict invalidations => foldR (check_invalidation g) tt invalidations
               | _, _ => Raise invalid_generation
               end
           | _ => Raise invalid_generation
           end
  end.

(** [version not in {1, 2}] *)
Definition check_version (version : pyval) : result unit :=
  match version with
  | PList _ | PDict _ => Raise (TypeError "unhashable type")
  | _ => if py_eqb version (PInt 1) || py_eqb version (PInt 2) then Ok tt
         else Raise (InboxError "unsupported intent execution inbox version")
  end.

Section file.
Context (name : string) (max_bytes : Z).

(** [_require_size_within_limit] of a document and its newline. *)
Definition size_within_limit (v : pyval) : result unit :=
  let payload_bytes := Z.of_nat (String.length (dumps v)) + 1 in
  if payload_bytes <=? max_bytes then Ok tt
  else Raise (InboxError ("intent execution inbox payload exceeds max_bytes: " +:+ int_str payload_bytes
                          +:+ " bytes exceeds " +:+ int_str max_bytes +:+ " bytes")).

(** [_load_payload] *)
Definition load_payload (file : stored) : result dict :=
  match file with
  | Absent => Ok [("version", PInt 2); ("records", PDict [])]
  | Unreadable => Raise (InboxError "intent execution inbox is unreadable")
  | Json v =>
      _ ← size_within_limit v;
      match v with
      | PDict payload =>
          _ ← check_version (dget "version" payload);
          match dget "records" payload, default (PDict []) (dlookup "position_generations" payload) with
          | PDict _, PDict generations =>
              _ ← foldR check_book tt generations;
              Ok (dset "version" (PInt 2) payload)
          | PDict _, _ => Raise (InboxError "position generations must be an object")
          | _, _ => Raise (InboxError "intent execution records must be an object")
          end
      | _ => Raise (InboxError "intent execution inbox root must be an object")
      end
  end.

(** [_save_payload] *)
Definition save_payload (payload : dict) : result stored :=
  v ← json_norm (PDict payload);
  _ ← size_within_limit v;
  Ok (Json v).

(** [_mutate]: what the operation did is kept when it says it changed
    something and the file takes it. *)
Definition mutate {A} (operation : dict -> result (A * option dict)) : M Disk A := fun d =>
  match (payload ← load_payload (inbox_file d);
         '(a, changed) ← operation payload;
         match changed with
         | Some payload => file ← save_payload payload; Ok (a, file)
         | None => Ok (a, inbox_file d)
         end) with
  | Ok (a, file) => (Ok a, {| inbox_file := file; backups := backups d; clock := clock d |})
  | Raise e => (Raise e, d)
  end.

(** [_read_locked] *)
Definition read_locked {A} (operation : dict -> result A) : M Disk A := fun d =>
  (load_payload (inbox_file d) ≫= operation, d).

Definition exists_file : M Disk bool := fun d => (Ok (match inbox_file d with Absent => false | _ => true end), d).

(** [_utc_now] *)
Definition utc_now : M Disk string := fun d => (Ok (isoformat (clock d)), d).

(** ** Finding receipts *)

(** [_record_for_identity] *)
Definition record_for_identity (payload : dict) (i : IntentExecutionIdentity) : result (option IntentExecutionRecord) :=
  match dget (record_key i) (records_of payload) with
  | PNone => Ok None
  | raw => Some <$> record_from_raw raw
  end.

(** The first record that passes the test, with its key. *)
Fixpoint first_record (test : IntentExecutionRecord -> bool) (rows : dict)
    : result (option (string * IntentExecutionRecord)) :=
  match rows with
  | [] => Ok None
  | (key, raw) :: rows =>
      r ← record_from_raw raw;
      if test r then Ok (Some (key, r)) else first_record test rows
  end.

(** [_record_for_idempotency_key] *)
Definition record_for_idempotency_key (payload : dict) (account_id idempotency_key : string)
    : result (option (string * IntentExecutionRecord)) :=
  first_record (fun r => String.eqb (ii_account_id (re_identity r)) account_id
                         && String.eqb (ii_idempotency_key (re_identity r)) idempotency_key) (records_of payload).

(** [_record_entry_for_client_order_id] *)
Definition record_entry_for_client_order_id (payload : dict) (client_order_id : string)
    : result (option (string * IntentExecutionRecord)) :=
  first_record (fun r => str_in client_order_id (re_client_order_ids r)) (records_of payload).

(** [_required_record] *)
Definition required_record (payload : dict) (i : IntentExecutionIdentity) : result IntentExecutionRecord :=
  found ← record_for_identity payload i;
  match found with
  | None => Raise (InboxError "intent receipt does not exist")
  | Some r => if decide (re_identity r = i) then Ok r
              else Raise (InboxError "intent identity conflicts with durable receipt")
  end.

(** [replace(record, state=..., updated_at=...)] *)
Definition advance (state : IntentExecutionState) (now : string) (r : IntentExecutionRecord) : IntentExecutionRecord :=
  {| re_identity := re_identity r; re_state := state; re_intent_payload := re_intent_payload r;
     re_client_order_ids := re_client_order_ids r;
     re_exchange_confirmed_client_order_ids := re_exchange_confirmed_client_order_ids r; re_updated_at := now;
     re_rejection_reason := re_rejection_reason r;
     re_local_position_generation := re_local_position_generation r;
     re_local_position_side := re_local_position_side r;
     re_terminal_client_order_ids := re_terminal_client_order_ids r |}.

Definition with_client_order_ids (ids : list string) (r : IntentExecutionRecord) : IntentExecutionRecord :=
  {| re_identity := re_identity r; re_state := re_state r; re_intent_payload := re_intent_payload r;
     re_client_order_ids := ids;
     re_exchange_confirmed_client_order_ids := re_exchange_confirmed_client_order_ids r; re_updated_at := re_updated_at r;
     re_rejection_reason := re_rejection_reason r;
     re_local_position_generation := re_local_position_generation r;
     re_local_position_side := re_local_position_side r;
     re_terminal_client_order_ids := re_terminal_client_order_ids r |}.

Definition with_confirmed (ids : list string) (r : IntentExecutionRecord) : IntentExecutionRecord :=
  {| re_identity := re_identity r; re_state := re_state r; re_intent_payload := re_intent_payload r;
     re_client_order_ids := re_client_order_ids r;
     re_exchange_confirmed_client_order_ids := ids; re_updated_at := re_updated_at r;
     re_rejection_reason := re_rejection_reason r;
     re_local_position_generation := re_local_position_generation r;
     re_local_position_side := re_local_position_side r;
     re_terminal_client_order_ids := re_terminal_client_order_ids r |}.

Definition with_reason (reason : string) (r : IntentExecutionRecord) : IntentExecutionRecord :=
  {| re_identity := re_identity r; re_state := re_state r; re_intent_payload := re_intent_payload r;
     re_client_order_ids := re_client_order_ids r;
     re_exchange_confirmed_client_order_ids := re_exchange_confirmed_client_order_ids r; re_updated_at := re_updated_at r;
     re_rejection_reason := reason;
     re_local_position_generation := re_local_position_generation r;
     re_local_position_side := re_local_position_side r;
     re_terminal_client_order_ids := re_terminal_client_order_ids r |}.

Definition with_terminal (ids : list string) (r : IntentExecutionRecord) : IntentExecutionRecord :=
  {| re_identity := re_identity r; re_state := re_state r; re_intent_payload := re_intent_payload r;
     re_client_order_ids := re_client_order_ids r;
     re_exchange_confirmed_client_order_ids := re_exchange_confirmed_client_order_ids r; re_updated_at := re_updated_at r;
     re_rejection_reason := re_rejection_reason r;
     re_local_position_generation := re_local_position_generation r;
     re_local_position_side := re_local_position_side r;
     re_terminal_client_order_ids := ids |}.

(** ** Registering *)

(** The receipt of an entry is bound to the generation of its book. *)
Definition bind_book (r : IntentExecutionRecord) (side : string) (payload : dict) : result (IntentExecutionRecord * dict) :=
  book ← position_book_key (ii_account_id (re_identity r)) (ii_instrument_id (re_identity r)) side;
  let generations := setdefault book new_book (generations_of payload) in
  Ok ({| re_identity := re_identity r; re_state := re_state r; re_intent_payload := re_intent_payload r;
         re_client_order_ids := re_client_order_ids r;
         re_exchange_confirmed_client_order_ids := re_exchange_confirmed_client_order_ids r;
         re_updated_at := re_updated_at r; re_rejection_reason := re_rejection_reason r;
         re_local_position_generation := Some (generation_in (dget book generations));
         re_local_position_side := side;
         re_terminal_client_order_ids := re_terminal_client_order_ids r |},
      dset "position_generations" (PDict generations) payload).

(** The side of the book an entry order opens. *)
Definition entry_side (payload_copy : dict) : option string :=
  match dget "order_plan" payload_copy with
  | PDict order_plan =>
      let side := lower (py_str (default (PStr "") (dlookup "side" order_plan))) in
      if String.eqb side "buy" then Some "LONG" else if String.eqb side "sell" then Some "SHORT" else None
  | _ => None
  end.

Definition new_receipt (i : IntentExecutionIdentity) (payload_copy : dict) (now : string) : IntentExecutionRecord :=
  {| re_identity := i; re_state := RECEIVED; re_intent_payload := payload_copy; re_client_order_ids := [];
     re_exchange_confirmed_client_order_ids := []; re_updated_at := now; re_rejection_reason := "";
     re_local_position_generation := None; re_local_position_side := ""; re_terminal_client_order_ids := [] |}.

(** [mutate] of [register_received] *)
Definition register (i : IntentExecutionIdentity) (payload_copy : dict) (now : string) (payload : dict)
    : result (IntentRegisterResult * option dict) :=
  exact ← record_for_identity payload i;
  match exact with
  | Some r =>
      Ok (if negb (bool_decide (re_identity r = i)) then INTENT_CONFLICT
          else if negb (py_eqb (PDict (re_intent_payload r)) (PDict payload_copy)) then INTENT_CONFLICT
          else REPLAY, None)
  | None =>
      idempotency_match ← record_for_idempotency_key payload (ii_account_id i) (ii_idempotency_key i);
      match idempotency_match with
      | Some _ => Ok (IDEMPOTENCY_CONFLICT, None)
      | None =>
          let record := new_receipt i payload_copy now in
          '(record, payload) ← match (if is_entry (ii_action i) then entry_side payload_copy else None) with
                               | Some side => bind_book record side payload
                               | None => Ok (record, payload)
                               end;
          Ok (REGISTERED, Some (put_record (record_key i) record payload))
      end
  end.

Definition register_received (i : IntentExecutionIdentity) (intent_payload : pyval) : M Disk IntentRegisterResult :=
  i ← mlift (normalized i);
  payload_copy ← mlift (json_object intent_payload);
  now ← utc_now;
  mutate (register i payload_copy now).

(** ** Generations *)

Definition position_generation (account_id instrument_id position_side : string) : M Disk Z :=
  book ← mlift (position_book_key account_id instrument_id position_side);
  read_locked (fun payload => Ok (generation_in (default new_book (dlookup book (generations_of payload))))).

(** The book with its generation raised for an operation. *)
Definition invalidated (operation : string) (state : pyval) : pyval :=
  let generation := PInt (generation_in state + 1) in
  PDict (dset "invalidations" (PDict (dset operation generation (invalidations_in state)))
           (dset "generation" generation (as_dict state))).

Definition invalidate_position (account_id instrument_id position_side operation_id : string) : M Disk Z :=
  book ← mlift (position_book_key account_id instrument_id position_side);
  operation ← mlift (position_operation_id operation_id);
  mutate (fun payload =>
    let state := default new_book (dlookup book (generations_of payload)) in
    match dlookup operation (invalidations_in state) with
    | Some generation => Ok (int_value generation, None)
    | None => Ok (generation_in state + 1, Some (put_book book (invalidated operation state) payload))
    end).

(** The body of the loop of [invalidate_position_scope]. *)
Definition invalidate_in_scope (account_id operation : string) (symbols : list string) (p : string * pyval)
    : result (string * pyval * bool) :=
  match read_three (fst p) with
  | None => Raise (ValueError "not enough values to unpack")
  | Some (account, symbol, _) =>
      Ok (if negb (String.eqb account account_id)
             || (negb (bool_decide (symbols = [])) && negb (str_in symbol symbols)) then (p, false)
          else if dmem operation (invalidations_in (snd p)) then (p, false)
          else (fst p, invalidated operation (snd p), true))
  end.

Definition invalidate_position_scope (account_id operation_id : string) (instrument_ids : list string) : M Disk unit :=
  operation ← mlift (position_operation_id operation_id);
  let symbols := map position_symbol instrument_ids in
  mutate (fun payload =>
    books ← mapR (invalidate_in_scope account_id operation symbols) (generations_of payload);
    Ok (tt, if existsb snd books
            then Some (dset "position_generations" (PDict (map fst books)) payload) else None)).

(** [read] of [add_position_denial] *)
Definition position_denial (key book : string) (require_binding : bool) (payload : dict) : result (option string) :=
  let missing := Ok (if require_binding then Some "position_generation_missing" else None) in
  match dget key (records_of payload) with
  | PNone => missing
  | raw =>
      r ← record_from_raw raw;
      if negb (is_entry (ii_action (re_identity r))) then missing
      else match re_local_position_generation r with
           | None =>
               Ok (if String.eqb (ii_action (re_identity r)) "open_position" && negb require_binding then None
                   else Some "position_generation_missing")
           | Some generation =>
               record_book ← position_book_key (ii_account_id (re_identity r)) (ii_instrument_id (re_identity r))
                                               (re_local_position_side r);
               if negb (String.eqb record_book book) then Ok (Some "position_generation_book_mismatch")
               else match dget book (generations_of payload) with
                    | PNone => Ok (Some "position_generation_missing")
                    | state => Ok (if negb (generation =? generation_in state) then Some "position_generation_stale"
                                   else None)
                    end
           end
  end.

Definition add_position_denial (account_id intent_id instrument_id position_side : string) (require_binding : bool)
    : M Disk (option string) :=
  book ← mlift (position_book_key account_id instrument_id position_side);
  h ← mlift (uuid_of intent_id);
  read_locked (position_denial (account_id +:+ ":" +:+ uuid_text h) book require_binding).

(** ** Dispatching *)

(** [_CLIENT_ORDER_ID_PATTERN]: the digits of the intent in a client order id. *)
Definition client_order_intent (s : string) : option string :=
  let h := String.substring 1 32 s in
  if (String.length s =? 35)%nat && starts_with "B" s && sforall is_hex h
     && sforall is_digit (String.substring 33 2 s) then Some h else None.

(** [_stable_client_order_ids] *)
Definition stable_client_order_ids (intent_id : string) (client_order_ids : list string) : result (list string) :=
  h ← uuid_of intent_id;
  let stable_ids := map strip client_order_ids in
  match stable_ids with
  | [] => Raise (InboxError "at least one client_order_id is required")
  | _ =>
      if negb (bool_decide (NoDup stable_ids)) then Raise (InboxError "client_order_ids must be unique")
      else if forallb (fun id => bool_decide (client_order_intent id = Some h)) stable_ids then Ok stable_ids
      else Raise (InboxError "client_order_id must be derived from intent_id")
  end.

(** [mutate] of [begin_dispatch] *)
Definition dispatch (i : IntentExecutionIdentity) (stable_ids : list string) (now : string) (payload : dict)
    : result (IntentDispatchResult * option dict) :=
  r ← required_record payload i;
  match re_state r with
  | EXCHANGE_CONFIRMED => Ok (DISPATCH_EXCHANGE_CONFIRMED, None)
  | REJECTED => Ok (DISPATCH_REJECTED, None)
  | DISPATCHED =>
      if negb (bool_decide (re_client_order_ids r = stable_ids))
      then Raise (InboxError "client_order_ids changed after dispatch")
      else Ok (RECOVERY_REQUIRED, None)
  | RECEIVED =>
      Ok (READY, Some (put_record (record_key i) (with_client_order_ids stable_ids (advance DISPATCHED now r)) payload))
  end.

Definition begin_dispatch (i : IntentExecutionIdentity) (client_order_ids : list string) : M Disk IntentDispatchResult :=
  i ← mlift (normalized i);
  stable_ids ← mlift (stable_client_order_ids (ii_intent_id i) client_order_ids);
  now ← utc_now;
  mutate (dispatch i stable_ids now).

(** ** Confirming *)

Definition not_dispatched : exn := InboxError "intent must be dispatched before exchange confirmation".

(** [mutate] of [mark_exchange_confirmed] *)
Definition confirm (i : IntentExecutionIdentity) (now : string) (payload : dict) : result (unit * option dict) :=
  r ← required_record payload i;
  match re_state r with
  | EXCHANGE_CONFIRMED | REJECTED => Ok (tt, None)
  | RECEIVED => Raise not_dispatched
  | DISPATCHED =>
      Ok (tt, Some (put_record (record_key i)
                      (with_confirmed (re_client_order_ids r) (advance EXCHANGE_CONFIRMED now r)) payload))
  end.

Definition mark_exchange_confirmed (i : IntentExecutionIdentity) : M Disk unit :=
  i ← mlift (normalized i);
  now ← utc_now;
  mutate (confirm i now).

(** [tuple(sorted(set(ids) | {id}))] *)
Definition sorted_set (id : string) (ids : list string) : list string := sort_by String.leb (remove_dups (id :: ids)).

Definition includes (ids others : list string) : bool := forallb (fun id => str_in id ids) others.

(** The receipt of an order with evidence for that order; only a dispatched
    one, and only with evidence for every order, becomes confirmed. *)
Definition confirm_order (target now : string) (r : IntentExecutionRecord) : IntentExecutionRecord :=
  let confirmed_ids := sorted_set target (re_exchange_confirmed_client_order_ids r) in
  let state :=
    match re_state r with
    | DISPATCHED => if includes confirmed_ids (re_client_order_ids r) then EXCHANGE_CONFIRMED else DISPATCHED
    | s => s
    end in
  with_confirmed confirmed_ids (advance state now r).

(** [mutate] of [mark_exchange_confirmed_by_client_order_id] *)
Definition confirm_by_order (target now : string) (payload : dict) : result (bool * option dict) :=
  found ← record_entry_for_client_order_id payload target;
  match found with
  | None => Ok (false, None)
  | Some (key, r) =>
      match re_state r with
      | EXCHANGE_CONFIRMED => Ok (true, None)
      | RECEIVED => Raise not_dispatched
      | _ => if str_in target (re_exchange_confirmed_client_order_ids r) then Ok (true, None)
             else Ok (true, Some (put_record key (confirm_order target now r) payload))
      end
  end.

Definition mark_exchange_confirmed_by_client_order_id (client_order_id : string) : M Disk bool :=
  let target := strip client_order_id in
  if is_empty target then mret false
  else
    present ← exists_file;
    if negb present then mret false
    else now ← utc_now; mutate (confirm_by_order target now).

(** [mutate] of [mark_close_order_terminal] *)
Definition terminate_close (client_order_id now : string) (payload : dict) : result (bool * option dict) :=
  found ← record_entry_for_client_order_id payload client_order_id;
  match found with
  | None => Ok (false, None)
  | Some (key, r) =>
      if negb (String.eqb (ii_action (re_identity r)) "close_position") then Ok (false, None)
      else if str_in client_order_id (re_terminal_client_order_ids r) then Ok (true, None)
      else Ok (true, Some (put_record key
                 (with_terminal (sorted_set client_order_id (re_terminal_client_order_ids r))
                                (advance (re_state r) now r)) payload))
  end.

Definition mark_close_order_terminal (client_order_id : string) : M Disk bool :=
  now ← utc_now;
  mutate (terminate_close client_order_id now).

(** ** Rejecting *)

(** [mutate] of [mark_rejected] *)
Definition reject (i : IntentExecutionIdentity) (rejection_reason now : string) (payload : dict)
    : result (unit * option dict) :=
  r ← required_record payload i;
  match re_state r with
  | EXCHANGE_CONFIRMED => Raise (InboxError "exchange-confirmed intent cannot be rejected")
  | s => if bool_decide (s = REJECTED) && String.eqb (re_rejection_reason r) rejection_reason then Ok (tt, None)
         else Ok (tt, Some (put_record (record_key i) (with_reason rejection_reason (advance REJECTED now r)) payload))
  end.

Definition mark_rejected (i : IntentExecutionIdentity) (reason : string) : M Disk unit :=
  i ← mlift (normalized i);
  let rejection_reason := strip reason in
  _ ← mlift (if is_empty rejection_reason then Raise (InboxError "rejection reason is required") else Ok tt);
  now ← utc_now;
  mutate (reject i rejection_reason now).

(** [mutate] of [mark_rejected_by_client_order_id] *)
Definition reject_by_order (target rejection_reason now : string) (payload : dict)
    : result (option IntentExecutionRecord * option dict) :=
  found ← record_entry_for_client_order_id payload target;
  match found with
  | None => Ok (None, None)
  | Some (key, r) =>
      match re_state r with
      | EXCHANGE_CONFIRMED => Ok (None, None)
      | s => if bool_decide (s = REJECTED) && String.eqb (re_rejection_reason r) rejection_reason then Ok (Some r, None)
             else let updated := with_reason rejection_reason (advance REJECTED now r) in
                  Ok (Some updated, Some (put_record key updated payload))
      end
  end.

Definition mark_rejected_by_client_order_id (client_order_id reason : string) : M Disk (option IntentExecutionRecord) :=
  let target := strip client_order_id in
  let rejection_reason := strip reason in
  if is_empty target || is_empty rejection_reason then mret None
  else
    present ← exists_file;
    if negb present then mret None
    else now ← utc_now; mutate (reject_by_order target rejection_reason now).

(** ** Reading *)

Definition get_by_client_order_id (client_order_id : string) : M Disk (option IntentExecutionRecord) :=
  let target := strip client_order_id in
  if is_empty target then mret None
  else read_locked (fun payload =>
         found ← record_entry_for_client_order_id payload target;
         Ok (option_map snd found)).

Definition get (i : IntentExecutionIdentity) : M Disk (option IntentExecutionRecord) :=
  i ← mlift (normalized i);
  read_locked (fun payload =>
    found ← record_for_identity payload i;
    Ok (match found with
        | Some r => if bool_decide (re_identity r = i) then Some r else None
        | None => None
        end)).

Definition by_updated_at (a b : IntentExecutionRecord) : bool := String.leb (re_updated_at a) (re_updated_at b).

Definition all_records (payload : dict) : result (list IntentExecutionRecord) :=
  mapR (fun p => record_from_raw (snd p)) (records_of payload).

Definition is_pending (r : IntentExecutionRecord) : bool :=
  match re_state r with RECEIVED | DISPATCHED => true | _ => false end.

Definition pending : M Disk (list IntentExecutionRecord) :=
  read_locked (fun payload =>
    rows ← all_records payload;
    Ok (sort_by by_updated_at (List.filter is_pending rows))).

Definition records : M Disk (list IntentExecutionRecord) :=
  read_locked (fun payload => rows ← all_records payload; Ok (sort_by by_updated_at rows)).

(** ** Repairing *)

(** [strftime("%Y%m%dT%H%M%S%fZ")] *)
Definition compact_stamp (t : Z) : string :=
  let '(y, m, d) := civil_from_days (t / 86400000000) in
  let us := t mod 86400000000 in
  let s := us / 1000000 in
  pad 4 y +:+ pad 2 m +:+ pad 2 d +:+ "T" +:+ pad 2 (s / 3600) +:+ pad 2 (s / 60 mod 60) +:+ pad 2 (s mod 60)
  +:+ pad 6 (us mod 1000000) +:+ "Z".

Definition repaired (repair_time : Z) (payload : dict) (r : IntentExecutionRecord) : dict :=
  put_record (record_key (re_identity r))
    (with_reason "inbox_repair_stale_management" (advance REJECTED (isoformat repair_time) r)) payload.

(** The receipts to repair. *)
Definition repair_candidates (repair_time : Z) (payload : dict) : result (list IntentExecutionRecord) :=
  rows ← all_records payload;
  Ok (List.filter (fun r => management_repair_eligible r repair_time) rows).

(** [os.open(backup, O_CREAT | O_EXCL)] and the copy of the file. *)
Definition write_backup (backup : string) : M Disk unit := fun d =>
  match aget backup (backups d) with
  | Some _ => (Raise (RuntimeError "FileExistsError" backup), d)
  | None => (Ok tt, {| inbox_file := inbox_file d; backups := (backups d ++ [(backup, inbox_file d)])%list;
                       clock := clock d |})
  end.

Definition repair_dispatched_management (now : option Z) : M Disk (list IntentExecutionRecord * option string) :=
  d ← mget;
  let repair_time := default (clock d) now in
  candidates ← read_locked (repair_candidates repair_time);
  match candidates with
  | [] => mret ([], None)
  | _ =>
      let backup := name +:+ ".bak-" +:+ compact_stamp (clock d) in
      _ ← write_backup backup;
      mutate (fun payload => Ok ((candidates, Some backup), Some (fold_left (repaired repair_time) candidates payload)))
  end.
End file.

(** ** Rows are read back *)

(** The row of a receipt, as the file holds it. *)
Definition row_of (r : IntentExecutionRecord) : dict :=
  let i := re_identity r in
  [("account_id", PStr (ii_account_id i)); ("action", PStr (ii_action i));
   ("client_order_ids", texts (re_client_order_ids r));
   ("exchange_confirmed_client_order_ids", texts (re_exchange_confirmed_client_order_ids r));
   ("idempotency_key", PStr (ii_idempotency_key i)); ("instrument_id", PStr (ii_instrument_id i));
   ("intent_id", PStr (ii_intent_id i)); ("intent_payload", PDict (re_intent_payload r));
   ("local_position_generation", match re_local_position_generation r with Some g => PInt g | None => PNone end);
   ("local_position_side", PStr (re_local_position_side r)); ("rejection_reason", PStr (re_rejection_reason r));
   ("state", PStr (state_value (re_state r)));
   ("terminal_client_order_ids", texts (re_terminal_client_order_ids r)); ("updated_at", PStr (re_updated_at r))].

(** What a receipt of the inbox can hold. *)
Definition storable (r : IntentExecutionRecord) : Prop :=
  Normal (PDict (re_intent_payload r)) /\ forall g, re_local_position_generation r = Some g -> 0 <= g.

Lemma state_of_value s : state_of (state_value s) = Ok s.
Proof. by destruct s. Qed.

Lemma normal_texts l : Normal (texts l).
Proof. constructor. apply Forall_fmap, Forall_true. intros. constructor. Qed.

Lemma norm_serialized r : storable r -> json_norm (serialize_record r) = Ok (PDict (row_of r)).
Proof.
  intros [N _]. apply normal_fixed in N. pose proof (fun l => normal_fixed _ (normal_texts l)) as T.
  pose proof (T (re_client_order_ids r)) as T1. pose proof (T (re_exchange_confirmed_client_order_ids r)) as T2.
  pose proof (T (re_terminal_client_order_ids r)) as T3.
  unfold serialize_record, row_of. set (p := PDict (re_intent_payload r)) in *.
  set (t1 := texts (re_client_order_ids r)) in *. set (t2 := texts (re_exchange_confirmed_client_order_ids r)) in *.
  set (t3 := texts (re_terminal_client_order_ids r)) in *.
  set (g := match re_local_position_generation r with Some g => PInt g | None => PNone end).
  assert (G : json_norm g = Ok g) by (unfold g; by destruct (re_local_position_generation r)).
  cbn [json_norm mapR fst snd mbind result_bind]. rewrite N, T1, T2, T3, G. reflexivity.
Qed.

Lemma texts_roundtrip l : texts_of (texts l) = Ok l.
Proof. unfold texts_of, texts. f_equal. induction l as [|s l IH]; [done|]. simpl. by rewrite IH. Qed.

Lemma record_roundtrip r : storable r -> record_from_raw (PDict (row_of r)) = Ok r.
Proof.
  intros [N G]. apply normal_fixed in N. unfold record_from_raw, item.
  set (p := PDict (re_intent_payload r)) in *.
  assert (J : json_object p = Ok (re_intent_payload r)) by (unfold json_object, p; cbn [dict_of mbind result_bind]; fold p; by rewrite N).
  unfold row_of. fold p. unfold dget. cbn [dlookup String.eqb Ascii.eqb Bool.eqb default mbind result_bind].
  rewrite J. cbn [mbind result_bind id]. rewrite texts_roundtrip. cbn [mbind result_bind]. rewrite texts_roundtrip. cbn [mbind result_bind py_str].
  rewrite state_of_value, texts_roundtrip. cbn [mbind result_bind].
  destruct r as [[] ? ? ? ? ? ? [g|] ? ?]; simpl in *; [|done].
  replace (g <? 0) with false; [done|]. symmetry. apply Z.ltb_ge. auto.
Qed.

(** ** What the file holds *)

Definition contents (f : stored) : dict := match f with Json (PDict p) => p | _ => [] end.
Definition receipts (f : stored) : dict := records_of (contents f).

Definition receipt_at (f : stored) (key : string) : option IntentExecutionRecord :=
  match dlookup key (receipts f) with
  | Some raw => match record_from_raw raw with Ok r => Some r | Raise _ => None end
  | None => None
  end.

(** The book as a document has it, and as the file does. *)
Definition book_of (payload : dict) (book : string) : pyval := default new_book (dlookup book (generations_of payload)).
Definition book_at (f : stored) (book : string) : pyval := book_of (contents f) book.

(** The generation that an operation gave the book. *)
Definition invalidation_in (state : pyval) (operation : string) : option Z :=
  option_map int_value (dlookup operation (invalidations_in state)).

(** Books only move forward, and keep what was invalidated. *)
Record book_le (s s' : pyval) : Prop := {
  bl_generation : generation_in s <= generation_in s';
  bl_invalidations : forall operation n, invalidation_in s operation = Some n -> invalidation_in s' operation = Some n }.

#[global] Instance book_le_preorder : PreOrder book_le.
Proof.
  split; [by intros s; split|]. intros a b c [G N] [G' N']. split; [lia|]. auto.
Qed.

(** A receipt that the operations can have produced. *)
Record receipt_ok (r : IntentExecutionRecord) : Prop := {
  ok_storable : storable r;
  ok_received : re_state r = RECEIVED -> re_client_order_ids r = [];
  ok_dispatched : re_state r = DISPATCHED \/ re_state r = EXCHANGE_CONFIRMED -> re_client_order_ids r <> [];
  ok_derived : forall id, id ∈ re_client_order_ids r ->
    exists h, uuid_of (ii_intent_id (re_identity r)) = Ok h /\ client_order_intent id = Some h;
  ok_known : forall id, id ∈ re_exchange_confirmed_client_order_ids r -> id ∈ re_client_order_ids r;
  ok_evidence : re_state r = EXCHANGE_CONFIRMED ->
    forall id, id ∈ re_client_order_ids r -> id ∈ re_exchange_confirmed_client_order_ids r }.

(** The generation an entry is bound to is not ahead of its book. *)
Definition bound_ok (f : stored) (r : IntentExecutionRecord) : Prop :=
  forall g, re_local_position_generation r = Some g ->
  exists book, position_book_key (ii_account_id (re_identity r)) (ii_instrument_id (re_identity r))
                                 (re_local_position_side r) = Ok book
    /\ g <= generation_in (book_at f book).

Definition same_key (r r' : IntentExecutionRecord) : Prop :=
  ii_account_id (re_identity r) = ii_account_id (re_identity r')
  /\ ii_idempotency_key (re_identity r) = ii_idempotency_key (re_identity r').

Record file_ok (f : stored) : Prop := {
  fo_json : f = Absent \/ f = Json (PDict (contents f));
  fo_normal : Normal (PDict (contents f));
  fo_rows : forall key raw, dlookup key (receipts f) = Some raw ->
    exists r, raw = PDict (row_of r) /\ key = record_key (re_identity r) /\ receipt_ok r /\ bound_ok f r;
  fo_keys : forall key r key' r', receipt_at f key = Some r -> receipt_at f key' = Some r' ->
    same_key r r' -> key = key' }.

(** ** Reading back a written document *)

Definition normed (m m' : dict) : Prop := forall k,
  match dlookup k m with
  | Some v => exists w, json_norm v = Ok w /\ dlookup k m' = Some w
  | None => dlookup k m' = None
  end.

Lemma normed_of m v : json_norm (PDict m) = Ok v -> exists m', v = PDict m' /\ normed m m'.
Proof.
  intros H. destruct (norm_lookup m v "" H) as (m' & -> & _). exists m'. split; [done|]. intros k.
  destruct (norm_lookup m _ k H) as (m2 & E & L). by injection E as <-.
Qed.

Lemma normed_sub m m' k a : normed m m' -> dlookup k m = Some (PDict a) -> exists a', dlookup k m' = Some (PDict a') /\ normed a a'.
Proof.
  intros N L. specialize (N k). rewrite L in N. destruct N as (w & E & L').
  destruct (normed_of _ _ E) as (a' & -> & Na). eauto.
Qed.

Lemma normed_same m m' k v : normed m m' -> dlookup k m = Some v -> Normal v -> dlookup k m' = Some v.
Proof. intros N L V. specialize (N k). rewrite L in N. destruct N as (w & E & L'). rewrite normal_fixed in E by done. congruence. Qed.

Lemma int_value_norm v w : json_norm v = Ok w -> int_value w = int_value v.
Proof. destruct v; simpl; intros H; simplify_eq; try done; by destruct (mapR _ _); simplify_eq/=. Qed.

Lemma int_value_normed m m' k : normed m m' -> int_value (dget k m') = int_value (dget k m).
Proof.
  intros N. specialize (N k). unfold dget. destruct (dlookup k m) as [v|]; [|by rewrite N].
  destruct N as (w & E & ->). simpl. by apply int_value_norm.
Qed.

Lemma generation_norm v w : json_norm v = Ok w -> generation_in w = generation_in v.
Proof.
  unfold generation_in. intros H. destruct v as [| | | | | |l|m]; try (simpl in H; by simplify_eq).
  - simpl in H. destruct (mapR _ _); by simplify_eq/=.
  - destruct (normed_of _ _ H) as (m' & -> & N). by apply int_value_normed.
Qed.

Lemma invalidations_norm v w operation : json_norm v = Ok w -> invalidation_in w operation = invalidation_in v operation.
Proof.
  unfold invalidation_in, invalidations_in. intros H. destruct v as [| | | | | |l|m]; try (simpl in H; by simplify_eq).
  - simpl in H. destruct (mapR _ _); by simplify_eq/=.
  - destruct (normed_of _ _ H) as (m' & -> & N). cbn [as_dict]. pose proof (N "invalidations") as Ni. unfold dget.
    destruct (dlookup "invalidations" m) as [v|] eqn:E; [|by rewrite Ni]. destruct Ni as (w & Ew & ->).
    destruct v as [| | | | | |l|inv]; try (simpl in Ew; by simplify_eq).
    + simpl in Ew. destruct (mapR _ _); by simplify_eq/=.
    + destruct (normed_of _ _ Ew) as (inv' & -> & Ni). cbn [default id as_dict]. specialize (Ni operation).
      destruct (dlookup operation inv) as [x|]; [|by rewrite Ni]. destruct Ni as (y & Ey & ->). cbn.
      by rewrite (int_value_norm _ _ Ey).
Qed.

Lemma book_norm v w : json_norm v = Ok w -> book_le v w /\ book_le w v.
Proof.
  intros H. pose proof (generation_norm _ _ H) as G. pose proof (fun op => invalidations_norm _ _ op H) as N.
  split; split; try lia; intros op n; by rewrite N.
Qed.

Section file_lemmas.
Context (max_bytes : Z).

Lemma loaded f payload :
  file_ok f -> load_payload max_bytes f = Ok payload ->
  records_of payload = receipts f /\ generations_of payload = generations_of (contents f)
  /\ (exists recs, dlookup "records" payload = Some (PDict recs))
  /\ is_dict (default (PDict []) (dlookup "position_generations" payload))
  /\ forall k v, dlookup k payload = Some v -> Normal v.
Proof.
  intros [J N _ _] H. destruct J as [-> | J].
  - simpl in H. injection H as <-. split_and!; [done..|eexists; reflexivity|exact I|].
    intros k v L. simpl in L. destruct (String.eqb k "version"); [injection L as <-; constructor|].
    destruct (String.eqb k "records"); [|done]. injection L as <-. repeat constructor.
  - rewrite J in H. cbn [load_payload] in H. destruct (size_within_limit _ _); [|done]. cbn [mbind result_bind] in H.
    destruct (check_version _); [|done]. cbn [mbind result_bind] in H.
    unfold receipts, records_of, dget in *.
    destruct (dlookup "records" (contents f)) as [[| | | | | | |recs]|] eqn:R; cbn [default] in H; try done.
    unfold generations_of.
    destruct (default (PDict []) (dlookup "position_generations" (contents f))) as [| | | | | | |gens] eqn:G; try done.
    destruct (foldR check_book tt gens); [|done]. cbn [mbind result_bind] in H. injection H as <-.
    rewrite !dlookup_dset_ne by done. rewrite R, G. split_and!; [done..|by exists recs|exact I|].
    intros k v L. destruct (String.eqb_spec k "version") as [->|D].
    + rewrite dlookup_dset_eq in L. injection L as <-. constructor.
    + rewrite dlookup_dset_ne in L by done. by eapply normal_lookup.
Qed.

Lemma saved payload f :
  save_payload max_bytes payload = Ok f ->
  f = Json (PDict (contents f)) /\ Normal (PDict (contents f)) /\ normed payload (contents f).
Proof.
  unfold save_payload. destruct (json_norm (PDict payload)) as [v|] eqn:E; [|done]. cbn [mbind result_bind].
  destruct (size_within_limit _ _); [|done]. intros H. injection H as <-.
  pose proof (json_norm_normal _ _ E). destruct (normed_of _ _ E) as (m' & -> & N). done.
Qed.

(** The books of a written file. *)
Lemma saved_book payload f book :
  save_payload max_bytes payload = Ok f -> is_dict (default (PDict []) (dlookup "position_generations" payload)) ->
  book_le (book_at f book) (book_of payload book) /\ book_le (book_of payload book) (book_at f book).
Proof.
  intros H D. destruct (saved _ _ H) as (_ & _ & Nm). unfold book_at, book_of, generations_of.
  pose proof (Nm "position_generations") as Ng.
  destruct (dlookup "position_generations" payload) as [[| | | | | | |gens]|] eqn:E; cbn in D; try done; [|by rewrite Ng].
  destruct (normed_sub _ _ _ _ Nm E) as (gens' & -> & Ns). cbn [default as_dict id]. specialize (Ns book).
  destruct (dlookup book gens) as [v|]; [|by rewrite Ns]. destruct Ns as (w & Ew & ->). simpl.
  by destruct (book_norm _ _ Ew).
Qed.
End file_lemmas.

(** ** Receipts only move forward *)

Definition later (s s' : IntentExecutionState) : Prop := s = s' \/ s = RECEIVED \/ (s = DISPATCHED /\ s' <> RECEIVED).

Record advances (r r' : IntentExecutionRecord) : Prop := {
  ad_identity : re_identity r' = re_identity r;
  ad_payload : re_intent_payload r' = re_intent_payload r;
  ad_generation : re_local_position_generation r' = re_local_position_generation r;
  ad_side : re_local_position_side r' = re_local_position_side r;
  ad_state : later (re_state r) (re_state r');
  ad_orders : re_state r <> RECEIVED -> re_client_order_ids r' = re_client_order_ids r;
  ad_confirmed : re_exchange_confirmed_client_order_ids r ⊆ re_exchange_confirmed_client_order_ids r';
  ad_terminal : re_terminal_client_order_ids r ⊆ re_terminal_client_order_ids r' }.

Record evolves (f f' : stored) : Prop := {
  ev_receipts : forall key r, receipt_at f key = Some r -> exists r', receipt_at f' key = Some r' /\ advances r r';
  ev_books : forall book, book_le (book_at f book) (book_at f' book) }.

#[global] Instance advances_preorder : PreOrder advances.
Proof.
  split.
  - intros r. split; try done. by left.
  - intros a b c [i p g s l o k t] [i' p' g' s' l' o' k' t']. split; try congruence; try by etrans.
    + unfold later in *. intuition congruence.
    + intros N. rewrite o', o; [done..|]. intros E. destruct l as [l|[l|[l l0]]]; congruence.
Qed.

#[global] Instance evolves_preorder : PreOrder evolves.
Proof.
  split.
  - intros f. split; [intros key r H; exists r; by split|]. intros book. reflexivity.
  - intros a b c [R B] [R' B']. split.
    + intros key r H. destruct (R _ _ H) as (r1 & H1 & A1). destruct (R' _ _ H1) as (r2 & H2 & A2).
      exists r2. split; [done | by etrans].
    + intros book. etrans; [apply B | apply B'].
Qed.

Section steps.
Context (max_bytes : Z).

Lemma receipt_row f key r :
  file_ok f -> receipt_at f key = Some r ->
  dlookup key (receipts f) = Some (PDict (row_of r)) /\ key = record_key (re_identity r) /\ receipt_ok r /\ bound_ok f r.
Proof.
  intros I H. unfold receipt_at in H. destruct (dlookup key (receipts f)) as [raw|] eqn:L; [|done].
  destruct (fo_rows _ I _ _ L) as (r' & -> & K & O & B). rewrite record_roundtrip in H by apply O.
  injection H as <-. done.
Qed.

Lemma row_receipt f key r : storable r -> dlookup key (receipts f) = Some (PDict (row_of r)) -> receipt_at f key = Some r.
Proof. intros S L. unfold receipt_at. by rewrite L, record_roundtrip. Qed.

Lemma required_inv f payload i r :
  file_ok f -> records_of payload = receipts f -> required_record payload i = Ok r ->
  receipt_at f (record_key i) = Some r /\ re_identity r = i.
Proof.
  intros I E. unfold required_record, record_for_identity, dget. rewrite E. unfold receipt_at.
  destruct (dlookup (record_key i) (receipts f)) as [raw|] eqn:L; cbn [default id]; [|done].
  destruct (fo_rows _ I _ _ L) as (r' & -> & K & O & B). rewrite record_roundtrip by apply O.
  cbn [fmap result_fmap mbind result_bind]. case_decide; [|done]. intros H'. by injection H' as <-.
Qed.

Lemma first_record_inv rows test found :
  (forall key raw, (key, raw) ∈ rows -> exists r, raw = PDict (row_of r) /\ storable r) ->
  first_record test rows = Ok found ->
  match found with
  | Some (key, r) => (key, PDict (row_of r)) ∈ rows /\ storable r /\ test r = true
  | None => forall key r, (key, PDict (row_of r)) ∈ rows -> storable r -> test r = false
  end.
Proof.
  induction rows as [|[key raw] rows IH]; intros R H; simpl in H.
  - injection H as <-. intros key r I. by apply not_elem_of_nil in I.
  - destruct (R key raw) as (r & -> & S); [left|]. rewrite record_roundtrip in H by done. cbn [mbind result_bind] in H.
    destruct (test r) eqn:T; [injection H as <-; split; [left | done]|].
    specialize (IH ltac:(intros; apply (R key0); by right) H). destruct found as [[key' r']|].
    + destruct IH as (I & ?). split; [by right | done].
    + intros key' r' I S'. apply elem_of_cons in I as [E|I]; [|by eapply IH].
      assert (RR : record_from_raw (PDict (row_of r')) = record_from_raw (PDict (row_of r))) by congruence.
      rewrite !record_roundtrip in RR by done. congruence.
Qed.

Lemma first_receipt f payload test found :
  file_ok f -> records_of payload = receipts f -> first_record test (records_of payload) = Ok found ->
  match found with
  | Some (key, r) => receipt_at f key = Some r /\ test r = true
  | None => forall key r, receipt_at f key = Some r -> test r = false
  end.
Proof.
  intros I E H. rewrite E in H.
  assert (D : NoDup (map fst (receipts f))).
  { pose proof (fo_normal _ I) as N. unfold receipts, records_of, dget.
    destruct (dlookup "records" (contents f)) as [v|] eqn:L; [|constructor].
    pose proof (normal_lookup _ _ _ N L) as N'. destruct v; try constructor. simpl. by apply normal_nodup. }
  assert (R : forall key raw, (key, raw) ∈ receipts f -> exists r, raw = PDict (row_of r) /\ storable r).
  { intros key raw J. apply nodup_dlookup in J; [|done]. destruct (fo_rows _ I _ _ J) as (r & -> & _ & O & _).
    exists r. split; [done | apply O]. }
  pose proof (first_record_inv _ _ _ R H) as X. destruct found as [[key r]|].
  - destruct X as (J & S & T). split; [|done]. apply row_receipt; [done|]. by apply nodup_dlookup.
  - intros key r J. destruct (receipt_row _ _ _ I J) as (L & _ & O & _). eapply X; [|apply O]. by apply dlookup_elem.
Qed.

(** A receipt as a document that is not yet written holds it. *)
Definition row_in (payload : dict) (k : string) (r : IntentExecutionRecord) : Prop :=
  exists raw, dlookup k (records_of payload) = Some raw /\ json_norm raw = Ok (PDict (row_of r)) /\ storable r.

Lemma row_in_inj payload k r r' : row_in payload k r -> row_in payload k r' -> r = r'.
Proof.
  intros (raw & L & N & S) (raw' & L' & N' & S').
  assert (E : record_from_raw (PDict (row_of r)) = record_from_raw (PDict (row_of r'))) by congruence.
  rewrite !record_roundtrip in E by done. congruence.
Qed.

(** Writing a document whose rows are receipts. *)
Lemma save_ok f payload f' :
  (exists recs, dlookup "records" payload = Some (PDict recs)) ->
  is_dict (default (PDict []) (dlookup "position_generations" payload)) ->
  (forall book, book_le (book_at f book) (book_of payload book)) ->
  (forall k raw, dlookup k (records_of payload) = Some raw ->
     exists r, row_in payload k r /\ k = record_key (re_identity r) /\ receipt_ok r /\ bound_ok f r) ->
  (forall k r k' r', row_in payload k r -> row_in payload k' r' -> same_key r r' -> k = k') ->
  save_payload max_bytes payload = Ok f' ->
  file_ok f' /\ (forall k r, receipt_at f' k = Some r <-> row_in payload k r)
  /\ forall book, book_le (book_of payload book) (book_at f' book).
Proof.
  intros [recs Lr] Dg G R U H. destruct (saved _ _ _ H) as (J & N & Nm).
  pose proof (fun book => proj2 (saved_book _ _ _ book H Dg)) as SB.
  assert (X : forall k, match dlookup k (records_of payload) with
                        | Some raw => exists w, json_norm raw = Ok w /\ dlookup k (receipts f') = Some w
                        | None => dlookup k (receipts f') = None
                        end).
  { intros k. destruct (normed_sub _ _ _ _ Nm Lr) as (recs' & L & Nr).
    unfold receipts, records_of, dget. rewrite Lr, L. apply Nr. }
  assert (SR : forall k r, receipt_at f' k = Some r <-> row_in payload k r).
  { intros k r. specialize (X k). split.
    - intros Rk. unfold receipt_at in Rk. destruct (dlookup k (records_of payload)) as [raw|] eqn:L; [|by rewrite X in Rk].
      destruct X as (w & E & Lw). rewrite Lw in Rk. destruct (R _ _ L) as (r' & (raw' & L' & E' & S') & _).
      rewrite L in L'. injection L' as <-. rewrite E in E'. injection E' as ->. rewrite record_roundtrip in Rk by done.
      injection Rk as ->. by exists raw.
    - intros (raw & L & E & S). rewrite L in X. destruct X as (w & E' & Lw). rewrite E in E'. injection E' as <-.
      unfold receipt_at. by rewrite Lw, record_roundtrip. }
  split_and!; [|done..]. split; [by right | done | |].
  - intros k w Lw. specialize (X k). destruct (dlookup k (records_of payload)) as [raw|] eqn:L; [|congruence].
    destruct X as (w' & E & Lw'). destruct (R _ _ L) as (r & (raw' & L' & E' & S') & K & O & B).
    exists r. split_and!; [congruence | done | done|]. intros g Eg. destruct (B _ Eg) as (book & Hb & Le).
    exists book. split; [done|].
    pose proof (bl_generation _ _ (G book)). pose proof (bl_generation _ _ (SB book)). lia.
  - intros k1 r1 k2 r2 H1 H2. apply SR in H1, H2. eauto.
Qed.

(** A document each of whose rows is a receipt of the file moved forward. *)
Lemma save_advanced f payload f' :
  file_ok f ->
  (exists recs, dlookup "records" payload = Some (PDict recs)) ->
  is_dict (default (PDict []) (dlookup "position_generations" payload)) ->
  (forall book, book_le (book_at f book) (book_of payload book)) ->
  (forall k, (dlookup k (records_of payload) = None /\ receipt_at f k = None)
             \/ exists r r', receipt_at f k = Some r /\ row_in payload k r' /\ advances r r' /\ receipt_ok r') ->
  save_payload max_bytes payload = Ok f' ->
  file_ok f' /\ evolves f f' /\ (forall k r, receipt_at f' k = Some r <-> row_in payload k r)
  /\ forall book, book_le (book_of payload book) (book_at f' book).
Proof.
  intros I Lr Dg G R H.
  assert (V : forall k r', row_in payload k r' -> exists r, receipt_at f k = Some r /\ advances r r' /\ receipt_ok r').
  { intros k r' W. destruct (R k) as [[L _]|(r & r2 & Hr & W2 & A & O)].
    - destruct W as (raw & L' & _). congruence.
    - rewrite (row_in_inj _ _ _ _ W W2). eauto. }
  destruct (save_ok f payload f' Lr Dg G) as (I' & SR & SB); try done.
  - intros k raw L. destruct (R k) as [[L' _]|(r & r' & Hr & W & A & O)]; [congruence|]. exists r'.
    destruct (receipt_row _ _ _ I Hr) as (_ & -> & _ & B). split_and!; [done | by rewrite (ad_identity _ _ A) | done|].
    intros g Eg. rewrite (ad_generation _ _ A) in Eg. rewrite (ad_identity _ _ A), (ad_side _ _ A). by apply B.
  - intros k1 r1 k2 r2 W1 W2 [S1 S2]. destruct (V _ _ W1) as (r3 & H3 & A3 & _). destruct (V _ _ W2) as (r4 & H4 & A4 & _).
    eapply (fo_keys _ I); [exact H3 | exact H4|].
    rewrite (ad_identity _ _ A3), (ad_identity _ _ A4) in S1, S2. by split.
  - split_and!; try done. split; [|intros book; etrans; [apply G | apply SB]].
    intros k r Hr. destruct (R k) as [[_ L]|(r0 & r' & Hr0 & W & A & _)]; [congruence|].
    exists r'. split; [by apply SR | congruence].
Qed.

Lemma row_in_file f payload k r :
  file_ok f -> records_of payload = receipts f -> receipt_at f k = Some r -> row_in payload k r.
Proof.
  intros I E H. destruct (receipt_row _ _ _ I H) as (L & _ & O & _). exists (PDict (row_of r)).
  rewrite E. split_and!; [done | | apply O]. apply normal_fixed.
  eapply (json_norm_normal (serialize_record r)), norm_serialized, O.
Qed.

Lemma row_in_put payload k key r r' :
  storable r ->
  row_in (put_record key r payload) k r' <-> if String.eqb k key then r' = r else row_in payload k r'.
Proof.
  intros S. unfold row_in, put_record. unfold records_of at 1. rewrite dget_dset_eq. cbn [as_dict].
  destruct (String.eqb_spec k key) as [->|D].
  - rewrite dlookup_dset_eq. split.
    + intros (raw & E & N & S'). injection E as <-. rewrite norm_serialized in N by done.
      assert (E : record_from_raw (PDict (row_of r)) = record_from_raw (PDict (row_of r'))) by congruence.
      rewrite !record_roundtrip in E by done. congruence.
    + intros ->. exists (serialize_record r). by rewrite norm_serialized.
  - by rewrite dlookup_dset_ne.
Qed.

Lemma put_record_records key r payload : exists recs, dlookup "records" (put_record key r payload) = Some (PDict recs).
Proof. unfold put_record. rewrite dlookup_dset_eq. eauto. Qed.

Lemma put_record_generations key r payload :
  dlookup "position_generations" (put_record key r payload) = dlookup "position_generations" payload.
Proof. unfold put_record. by rewrite dlookup_dset_ne. Qed.

Lemma put_record_book key r payload book : book_of (put_record key r payload) book = book_of payload book.
Proof. unfold book_of, generations_of. by rewrite put_record_generations. Qed.

Lemma put_record_none key r payload k :
  dlookup k (records_of (put_record key r payload)) = None <-> k <> key /\ dlookup k (records_of payload) = None.
Proof.
  unfold put_record. unfold records_of at 1. rewrite dget_dset_eq. cbn [as_dict].
  destruct (decide (k = key)) as [->|D]; [rewrite dlookup_dset_eq; by split; [|intros []]|].
  rewrite dlookup_dset_ne by done. by split; [|intros []].
Qed.

Lemma receipt_none f k : file_ok f -> receipt_at f k = None <-> dlookup k (receipts f) = None.
Proof.
  intros I. split; [|intros L; unfold receipt_at; by rewrite L].
  intros H. destruct (dlookup k (receipts f)) as [raw|] eqn:L; [|done]. destruct (fo_rows _ I _ _ L) as (r & -> & _ & O & _).
  erewrite row_receipt in H; [done | apply O | done].
Qed.

(** Moving a receipt forward. *)
Lemma update_receipt f payload f' key r r' :
  file_ok f -> load_payload max_bytes f = Ok payload -> receipt_at f key = Some r -> advances r r' -> receipt_ok r' ->
  save_payload max_bytes (put_record key r' payload) = Ok f' ->
  file_ok f' /\ evolves f f' /\ receipt_at f' key = Some r'.
Proof.
  intros I L R A O H. destruct (loaded _ _ _ I L) as (Er & Eg & _ & D & _).
  destruct (save_advanced f (put_record key r' payload) f') as (I' & E & SR & _); try done.
  - apply put_record_records.
  - by rewrite put_record_generations.
  - intros book. rewrite put_record_book. unfold book_at, book_of. by rewrite Eg.
  - intros k. destruct (decide (k = key)) as [->|N].
    + right. exists r, r'. split_and!; [done| |done..]. apply row_in_put; [apply O|]. by rewrite String.eqb_refl.
    + destruct (receipt_at f k) as [r1|] eqn:R1.
      * right. destruct (receipt_row _ _ _ I R1) as (_ & _ & O1 & _). exists r1, r1.
        split_and!; [done| | reflexivity | done]. apply row_in_put; [apply O|].
        apply String.eqb_neq in N as ->. by apply (row_in_file f).
      * left. split; [|done]. apply put_record_none. split; [done|]. rewrite Er. by apply receipt_none.
  - split_and!; [done..|]. apply SR, row_in_put; [apply O|]. by rewrite String.eqb_refl.
Qed.

(** ** The operations *)

Lemma mutate_step {A} (op : dict -> result (A * option dict)) d :
  (forall payload a payload' f', load_payload max_bytes (inbox_file d) = Ok payload -> op payload = Ok (a, Some payload') ->
     save_payload max_bytes payload' = Ok f' -> file_ok f' /\ evolves (inbox_file d) f') ->
  file_ok (inbox_file d) ->
  let d' := snd (mutate max_bytes op d) in file_ok (inbox_file d') /\ evolves (inbox_file d) (inbox_file d').
Proof.
  intros H I. unfold mutate. destruct (load_payload max_bytes (inbox_file d)) as [payload|] eqn:L; cbn [mbind result_bind]; [|by split].
  destruct (op payload) as [[a [payload'|]]|] eqn:E; cbn [mbind result_bind]; try by split.
  destruct (save_payload max_bytes payload') as [f'|] eqn:S; cbn [mbind result_bind]; [|by split]. cbn. eauto.
Qed.

Lemma mutate_ok {A} (op : dict -> result (A * option dict)) d a d' :
  mutate max_bytes op d = (Ok a, d') ->
  exists payload, load_payload max_bytes (inbox_file d) = Ok payload
    /\ ((op payload = Ok (a, None) /\ inbox_file d' = inbox_file d)
        \/ exists payload', op payload = Ok (a, Some payload') /\ save_payload max_bytes payload' = Ok (inbox_file d')).
Proof.
  unfold mutate. destruct (load_payload max_bytes (inbox_file d)) as [payload|] eqn:L; cbn [mbind result_bind]; [|done].
  destruct (op payload) as [[a' [payload'|]]|] eqn:E; cbn [mbind result_bind]; try done.
  - destruct (save_payload max_bytes payload') as [f'|] eqn:S; cbn [mbind result_bind]; [|done].
    intros [= <- <-]. eauto 10.
  - intros [= <- <-]. eauto 10.
Qed.

Lemma stable_ids_inv intent_id ids ids' :
  stable_client_order_ids intent_id ids = Ok ids' ->
  ids' <> [] /\ forall id, id ∈ ids' -> exists h, uuid_of intent_id = Ok h /\ client_order_intent id = Some h.
Proof.
  unfold stable_client_order_ids. destruct (uuid_of intent_id) as [h|]; [|done]. cbn [mbind result_bind].
  destruct (map strip ids) as [|id l] eqn:E; [done|]. destruct (negb _); [done|].
  destruct (forallb _ _) eqn:F; [|done]. intros [= <-]. split; [done|]. intros id' J. exists h. split; [done|].
  rewrite forallb_forall in F. apply list_elem_of_In, F in J. by apply bool_decide_eq_true in J.
Qed.

Lemma elem_sorted_set x id ids : x ∈ sorted_set id ids <-> x = id \/ x ∈ ids.
Proof. unfold sorted_set. rewrite sort_by_perm, elem_of_remove_dups. apply elem_of_cons. Qed.

Lemma includes_spec ids others : includes ids others = true -> forall id, id ∈ others -> id ∈ ids.
Proof. unfold includes. rewrite forallb_forall. intros F id J. by apply str_in_spec, F, list_elem_of_In. Qed.

Lemma dispatched_ok r ids now :
  receipt_ok r -> re_state r = RECEIVED -> ids <> [] ->
  (forall id, id ∈ ids -> exists h, uuid_of (ii_intent_id (re_identity r)) = Ok h /\ client_order_intent id = Some h) ->
  let r' := with_client_order_ids ids (advance DISPATCHED now r) in receipt_ok r' /\ advances r r'.
Proof.
  intros O R N D. split.
  - destruct O as [OS OR OD OV OK OE]. split; cbn in *; try done.
    intros id J. apply OK in J. rewrite (OR R) in J. by apply not_elem_of_nil in J.
  - split; cbn; try done. unfold later. auto.
Qed.

Lemma confirmed_ok r now :
  receipt_ok r -> re_state r = DISPATCHED ->
  let r' := with_confirmed (re_client_order_ids r) (advance EXCHANGE_CONFIRMED now r) in receipt_ok r' /\ advances r r'.
Proof.
  intros O R. split.
  - destruct O as [OS OR OD OV OK OE]. split; cbn in *; auto; done.
  - split; cbn; try done; [unfold later; auto|]. intros id. apply O.
Qed.

Lemma confirm_order_ok r target now :
  receipt_ok r -> re_state r <> RECEIVED -> target ∈ re_client_order_ids r ->
  receipt_ok (confirm_order target now r) /\ advances r (confirm_order target now r).
Proof.
  intros O R T. split.
  - destruct O as [OS OR OD OV OK OE]. split; cbn in *; auto.
    + destruct (re_state r); try done. by destruct (includes _ _).
    + intros _ E. rewrite E in T. by apply not_elem_of_nil in T.
    + intros id J. apply elem_sorted_set in J as [->|J]; auto.
    + intros E id J. destruct (re_state r) eqn:S; try done.
      * destruct (includes _ _) eqn:F; [|done]. by eapply includes_spec.
      * apply elem_sorted_set. right. auto.
  - split; cbn; try done.
    + unfold later. destruct (re_state r); auto. destruct (includes _ _); auto.
    + intros id J. apply elem_sorted_set. auto.
Qed.

Lemma terminated_ok r id now :
  receipt_ok r ->
  let r' := with_terminal (sorted_set id (re_terminal_client_order_ids r)) (advance (re_state r) now r) in
  receipt_ok r' /\ advances r r'.
Proof.
  intros O. split; [by destruct O|]. split; cbn; try done; [by left|]. intros x J. apply elem_sorted_set. auto.
Qed.

Lemma rejected_ok r reason now :
  receipt_ok r -> re_state r <> EXCHANGE_CONFIRMED ->
  let r' := with_reason reason (advance REJECTED now r) in receipt_ok r' /\ advances r r'.
Proof.
  intros O R. split.
  - destruct O as [OS OR OD OV OK OE]. split; cbn in *; auto; try done. intros [?|?]; done.
  - split; cbn; try done. unfold later. destruct (re_state r); auto; try done.
Qed.

Section operations.
Context (d : Disk) (I : file_ok (inbox_file d)).

Lemma dispatch_step i ids now :
  ids <> [] -> (forall id, id ∈ ids -> exists h, uuid_of (ii_intent_id i) = Ok h /\ client_order_intent id = Some h) ->
  let d' := snd (mutate max_bytes (dispatch i ids now) d) in file_ok (inbox_file d') /\ evolves (inbox_file d) (inbox_file d').
Proof.
  intros N D. apply mutate_step; [|done]. intros payload a payload' f' L H S. unfold dispatch in H.
  destruct (required_record payload i) as [r|] eqn:R; [|done]. cbn [mbind result_bind] in H.
  destruct (re_state r) eqn:St; try done; [|by destruct (negb _)]. injection H as <- <-.
  destruct (required_inv _ _ _ _ I (proj1 (loaded _ _ _ I L)) R) as [Hr Ei]. rewrite <- Ei in D.
  destruct (receipt_row _ _ _ I Hr) as (_ & _ & O & _).
  destruct (dispatched_ok r ids now O St N D) as [O' A].
  destruct (update_receipt _ _ _ _ _ _ I L Hr A O' S) as (? & ? & _). done.
Qed.

Lemma confirm_step i now :
  let d' := snd (mutate max_bytes (confirm i now) d) in file_ok (inbox_file d') /\ evolves (inbox_file d) (inbox_file d').
Proof.
  apply mutate_step; [|done]. intros payload a payload' f' L H S. unfold confirm in H.
  destruct (required_record payload i) as [r|] eqn:R; [|done]. cbn [mbind result_bind] in H.
  destruct (re_state r) eqn:St; try done. injection H as _ <-.
  destruct (required_inv _ _ _ _ I (proj1 (loaded _ _ _ I L)) R) as [Hr Ei].
  destruct (receipt_row _ _ _ I Hr) as (_ & _ & O & _). destruct (confirmed_ok r now O St) as [O' A].
  destruct (update_receipt _ _ _ _ _ _ I L Hr A O' S) as (? & ? & _). done.
Qed.

Lemma reject_step i reason now :
  let d' := snd (mutate max_bytes (reject i reason now) d) in file_ok (inbox_file d') /\ evolves (inbox_file d) (inbox_file d').
Proof.
  apply mutate_step; [|done]. intros payload a payload' f' L H S. unfold reject in H.
  destruct (required_record payload i) as [r|] eqn:R; [|done]. cbn [mbind result_bind] in H.
  destruct (required_inv _ _ _ _ I (proj1 (loaded _ _ _ I L)) R) as [Hr Ei].
  destruct (receipt_row _ _ _ I Hr) as (_ & _ & O & _).
  assert (St : re_state r <> EXCHANGE_CONFIRMED) by (intros St; by rewrite St in H).
  assert (P : payload' = put_record (record_key i) (with_reason reason (advance REJECTED now r)) payload).
  { destruct (re_state r); try done; destruct (_ && _); by simplify_eq. }
  subst payload'. destruct (rejected_ok r reason now O St) as [O' A].
  destruct (update_receipt _ _ _ _ _ _ I L Hr A O' S) as (? & ? & _). done.
Qed.

Lemma order_receipt payload target key r :
  load_payload max_bytes (inbox_file d) = Ok payload ->
  record_entry_for_client_order_id payload target = Ok (Some (key, r)) ->
  receipt_at (inbox_file d) key = Some r /\ receipt_ok r /\ target ∈ re_client_order_ids r.
Proof.
  intros L H. destruct (first_receipt _ _ _ _ I (proj1 (loaded _ _ _ I L)) H) as [Hr T].
  destruct (receipt_row _ _ _ I Hr) as (_ & _ & O & _). by apply str_in_spec in T.
Qed.

Lemma confirm_by_order_step target now :
  let d' := snd (mutate max_bytes (confirm_by_order target now) d) in
  file_ok (inbox_file d') /\ evolves (inbox_file d) (inbox_file d').
Proof.
  apply mutate_step; [|done]. intros payload a payload' f' L H S. unfold confirm_by_order in H.
  destruct (record_entry_for_client_order_id payload target) as [[[key r]|]|] eqn:R; try done. cbn [mbind result_bind] in H.
  destruct (order_receipt _ _ _ _ L R) as (Hr & O & T).
  assert (P : payload' = put_record key (confirm_order target now r) payload /\ re_state r <> RECEIVED).
  { destruct (re_state r); try done; destruct (str_in _ _); by simplify_eq. }
  destruct P as [-> St]. destruct (confirm_order_ok r target now O St T) as [O' A].
  destruct (update_receipt _ _ _ _ _ _ I L Hr A O' S) as (? & ? & _). done.
Qed.

Lemma terminate_close_step id now :
  let d' := snd (mutate max_bytes (terminate_close id now) d) in
  file_ok (inbox_file d') /\ evolves (inbox_file d) (inbox_file d').
Proof.
  apply mutate_step; [|done]. intros payload a payload' f' L H S. unfold terminate_close in H.
  destruct (record_entry_for_client_order_id payload id) as [[[key r]|]|] eqn:R; try done. cbn [mbind result_bind] in H.
  destruct (order_receipt _ _ _ _ L R) as (Hr & O & T). destruct (negb _); [done|]. destruct (str_in _ _); [done|].
  injection H as <- <-. destruct (terminated_ok r id now O) as [O' A].
  destruct (update_receipt _ _ _ _ _ _ I L Hr A O' S) as (? & ? & _). done.
Qed.

Lemma reject_by_order_step target reason now :
  let d' := snd (mutate max_bytes (reject_by_order target reason now) d) in
  file_ok (inbox_file d') /\ evolves (inbox_file d) (inbox_file d').
Proof.
  apply mutate_step; [|done]. intros payload a payload' f' L H S. unfold reject_by_order in H.
  destruct (record_entry_for_client_order_id payload target) as [[[key r]|]|] eqn:R; try done. cbn [mbind result_bind] in H.
  destruct (order_receipt _ _ _ _ L R) as (Hr & O & T).
  assert (P : payload' = put_record key (with_reason reason (advance REJECTED now r)) payload
              /\ re_state r <> EXCHANGE_CONFIRMED).
  { destruct (re_state r); try done; destruct (_ && _); by simplify_eq. }
  destruct P as [-> St]. destruct (rejected_ok r reason now O St) as [O' A].
  destruct (update_receipt _ _ _ _ _ _ I L Hr A O' S) as (? & ? & _). done.
Qed.

(** ** Books *)

Lemma foldR_checked {A} (f : unit -> A -> result unit) l u : foldR f tt l = Ok u -> forall x, x ∈ l -> f tt x = Ok tt.
Proof.
  induction l as [|y l IH]; simpl; intros H x J; [by apply not_elem_of_nil in J|].
  destruct (f tt y) as [[]|] eqn:E; [|done]. cbn [mbind result_bind] in H.
  apply elem_of_cons in J as [->|J]; [done | by apply IH].
Qed.

Lemma load_checked f payload :
  load_payload max_bytes f = Ok payload -> exists u, foldR check_book tt (generations_of payload) = Ok u.
Proof.
  destruct f as [| |v]; cbn [load_payload]; [intros H; injection H as <-; by exists tt | done |].
  destruct (size_within_limit _ _); [|done]. cbn [mbind result_bind]. destruct v as [| | | | | | |p]; try done.
  destruct (check_version _); [|done]. cbn [mbind result_bind]. destruct (dget "records" p); try done.
  unfold generations_of. destruct (default (PDict []) (dlookup "position_generations" p)) as [| | | | | | |gens] eqn:G; try done.
  destruct (foldR check_book tt gens) as [u|] eqn:F; [|done]. cbn [mbind result_bind]. intros H. injection H as <-.
  rewrite dlookup_dset_ne by done. rewrite G. by exists u.
Qed.

(** A book of a file that was read: its generation is not negative, and no
    invalidation is ahead of it. *)
Lemma loaded_book f payload book state :
  load_payload max_bytes f = Ok payload -> dlookup book (generations_of payload) = Some state ->
  0 <= generation_in state
  /\ forall operation v, dlookup operation (invalidations_in state) = Some v -> 0 < int_value v <= generation_in state.
Proof.
  intros L B. destruct (load_checked _ _ L) as [u F]. apply dlookup_elem in B.
  pose proof (foldR_checked _ _ _ F _ B) as K. unfold check_book in K. cbn [fst snd] in K.
  destruct (read_three book) as [[[account symbol] side]|]; [|done].
  destruct (position_book_key account symbol side); [|done]. cbn [mbind result_bind] in K. destruct (negb _); [done|].
  destruct state as [| | | | | | |m]; try done. unfold generation_in, invalidations_in. cbn [as_dict].
  destruct (dget "generation" m) as [| |g| | | | |]; cbn [optional_position_generation] in K; try done.
  destruct (g <? 0) eqn:G; [done|]. apply Z.ltb_ge in G. cbn [mbind result_bind int_value] in *. split; [done|].
  destruct (dget "invalidations" m) as [| | | | | | |inv]; try done. intros op v Lv. apply dlookup_elem in Lv.
  pose proof (foldR_checked _ _ _ K _ Lv) as C. unfold check_invalidation in C. cbn [fst snd] in C.
  destruct (position_operation_id op); [|done]. cbn [mbind result_bind] in C.
  destruct v as [| |z| | | | |]; cbn [optional_position_generation] in C; try done.
  destruct (z <? 0); [done|]. cbn [mbind result_bind] in C. destruct ((0 <? z) && (z <=? g)) eqn:E; [|done].
  apply andb_true_iff in E as [E1 E2]. cbn [int_value]. lia.
Qed.

Lemma generation_invalidated operation state : generation_in (invalidated operation state) = generation_in state + 1.
Proof.
  unfold invalidated. unfold generation_in at 1. cbn [as_dict]. rewrite dget_dset_ne by done. by rewrite dget_dset_eq.
Qed.

Lemma invalidation_invalidated operation state op :
  invalidation_in (invalidated operation state) op
  = if String.eqb op operation then Some (generation_in state + 1) else invalidation_in state op.
Proof.
  unfold invalidation_in at 1, invalidations_in at 1, invalidated. cbn [as_dict]. rewrite dget_dset_eq. cbn [as_dict].
  destruct (String.eqb_spec op operation) as [->|N]; [by rewrite dlookup_dset_eq | by rewrite dlookup_dset_ne].
Qed.

Lemma invalidated_le operation state : dlookup operation (invalidations_in state) = None -> book_le state (invalidated operation state).
Proof.
  intros E. split; [rewrite generation_invalidated; lia|]. intros op n H. rewrite invalidation_invalidated.
  destruct (String.eqb_spec op operation) as [->|N]; [|done]. unfold invalidation_in in H. by rewrite E in H.
Qed.

(** Writing the books alone. *)
Lemma save_books payload gens f' :
  load_payload max_bytes (inbox_file d) = Ok payload ->
  (forall book, book_le (book_at (inbox_file d) book) (default new_book (dlookup book gens))) ->
  save_payload max_bytes (dset "position_generations" (PDict gens) payload) = Ok f' ->
  file_ok f' /\ evolves (inbox_file d) f'
  /\ forall book, book_le (default new_book (dlookup book gens)) (book_at f' book).
Proof.
  intros L G H. destruct (loaded _ _ _ I L) as (Er & Eg & [recs Lr] & D & _).
  assert (E : records_of (dset "position_generations" (PDict gens) payload) = receipts (inbox_file d)).
  { unfold records_of in *. by rewrite dget_dset_ne. }
  assert (Gb : forall book, book_of (dset "position_generations" (PDict gens) payload) book
                            = default new_book (dlookup book gens)).
  { intros book. unfold book_of, generations_of. by rewrite dlookup_dset_eq. }
  destruct (save_advanced (inbox_file d) (dset "position_generations" (PDict gens) payload) f') as (I' & Ev & _ & SB); try done.
  - exists recs. by rewrite dlookup_dset_ne.
  - by rewrite dlookup_dset_eq.
  - intros book. by rewrite Gb.
  - intros k. rewrite E. destruct (receipt_at (inbox_file d) k) as [r|] eqn:R.
    + right. destruct (receipt_row _ _ _ I R) as (_ & _ & O & _). exists r, r.
      split_and!; [done | by apply (row_in_file (inbox_file d)) | reflexivity | done].
    + left. split; [by apply receipt_none | done].
  - split_and!; [done..|]. intros book. by rewrite <- Gb.
Qed.

Lemma book_payload payload book :
  load_payload max_bytes (inbox_file d) = Ok payload -> book_of payload book = book_at (inbox_file d) book.
Proof. intros L. destruct (loaded _ _ _ I L) as (_ & Eg & _). unfold book_at, book_of. by rewrite Eg. Qed.

(** What [invalidate_position] writes. *)
Lemma save_invalidated payload book op f' :
  load_payload max_bytes (inbox_file d) = Ok payload ->
  dlookup op (invalidations_in (book_of payload book)) = None ->
  save_payload max_bytes (put_book book (invalidated op (book_of payload book)) payload) = Ok f' ->
  file_ok f' /\ evolves (inbox_file d) f' /\ book_le (invalidated op (book_of payload book)) (book_at f' book).
Proof.
  intros L N S.
  destruct (save_books _ (dset book (invalidated op (book_of payload book)) (generations_of payload)) f' L) as (? & ? & B); [|exact S|].
  - intros book'. rewrite <- (book_payload _ _ L).
    destruct (decide (book' = book)) as [->|D]; [|by rewrite dlookup_dset_ne].
    rewrite dlookup_dset_eq. by apply invalidated_le.
  - specialize (B book). rewrite dlookup_dset_eq in B. done.
Qed.

Lemma invalidate_position_step a i s operation_id :
  let d' := snd (invalidate_position max_bytes a i s operation_id d) in
  file_ok (inbox_file d') /\ evolves (inbox_file d) (inbox_file d').
Proof.
  unfold invalidate_position. unfold mbind, M_bind, mlift.
  destruct (position_book_key a i s) as [book|]; [|by split]. destruct (position_operation_id operation_id) as [op|]; [|by split].
  apply mutate_step; [|done]. intros payload n payload' f' L H S. cbv beta zeta in H. fold (book_of payload book) in H.
  destruct (dlookup op (invalidations_in (book_of payload book))) eqn:E; [done|]. injection H as _ <-.
  destruct (save_invalidated _ _ _ _ L E S) as (? & ? & _). done.
Qed.

Lemma mapR_lookup (f : string * pyval -> result (string * pyval * bool)) l l' book :
  (forall p q, f p = Ok q -> fst (fst q) = fst p) -> mapR f l = Ok l' ->
  match dlookup book l with
  | Some v => exists b w, f (book, v) = Ok (book, w, b) /\ dlookup book (map fst l') = Some w
  | None => dlookup book (map fst l') = None
  end.
Proof.
  intros K E. apply mapR_inv in E. induction E as [|[k v] [[k' w] b] l l' R E IH]; [done|].
  pose proof (K _ _ R) as Kk. cbn in Kk. subst k'. cbn. destruct (String.eqb_spec book k) as [->|]; [|done]. eauto.
Qed.

Lemma invalidate_scope_step a operation_id instrument_ids :
  let d' := snd (invalidate_position_scope max_bytes a operation_id instrument_ids d) in
  file_ok (inbox_file d') /\ evolves (inbox_file d) (inbox_file d').
Proof.
  unfold invalidate_position_scope. unfold mbind, M_bind, mlift. destruct (position_operation_id operation_id) as [op|]; [|by split].
  apply mutate_step; [|done]. intros payload n payload' f' L H S. cbv beta zeta in H.
  set (body := invalidate_in_scope a op (map position_symbol instrument_ids)) in *.
  destruct (mapR body (generations_of payload)) as [books|] eqn:E; [|done]. cbn [mbind result_bind] in H.
  destruct (existsb snd books); [|done]. injection H as _ <-.
  assert (K : forall p q, body p = Ok q -> fst (fst q) = fst p /\ book_le (snd p) (snd (fst q))).
  { intros [k v] q Hq. unfold body, invalidate_in_scope in Hq. cbn [fst snd] in Hq.
    destruct (read_three k) as [[[? ?] ?]|]; [|done]. injection Hq as <-.
    destruct (_ || _); [by split|]. unfold dmem. destruct (dlookup op _) eqn:N; [by split|]. split; [done|].
    by apply invalidated_le. }
  destruct (save_books _ (map fst books) f' L) as (? & ? & _); [|exact S|done]. intros book. rewrite <- (book_payload _ _ L).
  pose proof (mapR_lookup body _ _ book (fun p q Hq => proj1 (K p q Hq)) E) as X. unfold book_of.
  destruct (dlookup book (generations_of payload)) as [v|]; [|by rewrite X].
  destruct X as (b & w & Hw & ->). apply (K _ _ Hw).
Qed.

(** ** Registering *)

Lemma json_object_normal v m : json_object v = Ok m -> Normal (PDict m).
Proof.
  unfold json_object. destruct (dict_of v) as [m0|]; cbn [mbind result_bind]; [|done].
  destruct (json_norm (PDict m0)) as [w|] eqn:E; [|done]. intros [= <-]. pose proof (json_norm_normal _ _ E) as N.
  destruct (norm_lookup _ _ "" E) as (m' & -> & _). exact N.
Qed.

Lemma setdefault_lookup book book' gens :
  default new_book (dlookup book' (setdefault book new_book gens)) = default new_book (dlookup book' gens).
Proof.
  unfold setdefault, dmem. destruct (dlookup book gens) eqn:E; [done|].
  destruct (decide (book' = book)) as [->|N]; [by rewrite dlookup_dset_eq, E | by rewrite dlookup_dset_ne].
Qed.

Lemma setdefault_generation book gens :
  generation_in (dget book (setdefault book new_book gens)) = generation_in (default new_book (dlookup book gens)).
Proof.
  unfold setdefault, dmem, dget. destruct (dlookup book gens) eqn:E; [by rewrite E | by rewrite dlookup_dset_eq].
Qed.

(** A new receipt, bound to a book or not. *)
Lemma save_new payload payload1 r f' :
  load_payload max_bytes (inbox_file d) = Ok payload -> records_of payload1 = records_of payload ->
  is_dict (default (PDict []) (dlookup "position_generations" payload1)) ->
  (forall book, book_of payload1 book = book_at (inbox_file d) book) ->
  receipt_ok r -> bound_ok (inbox_file d) r ->
  receipt_at (inbox_file d) (record_key (re_identity r)) = None ->
  (forall k r', receipt_at (inbox_file d) k = Some r' -> ~ same_key r r') ->
  save_payload max_bytes (put_record (record_key (re_identity r)) r payload1) = Ok f' ->
  file_ok f' /\ evolves (inbox_file d) f' /\ receipt_at f' (record_key (re_identity r)) = Some r.
Proof.
  intros L E Dg G O B No U H. set (key := record_key (re_identity r)) in *.
  pose proof (fun k r' => row_in_put payload1 k key r r' (ok_storable _ O)) as P.
  destruct (loaded _ _ _ I L) as (Er & _).
  assert (Old : forall k r', k <> key -> row_in payload1 k r' <-> receipt_at (inbox_file d) k = Some r').
  { intros k r' N. split.
    - intros (raw & Lk & Ek & S). rewrite E, Er in Lk. destruct (fo_rows _ I _ _ Lk) as (r1 & -> & _ & O1 & _).
      rewrite (normal_fixed (PDict (row_of r1))) in Ek.
      + apply ok_inj in Ek. unfold receipt_at. by rewrite Lk, Ek, record_roundtrip.
      + eapply (json_norm_normal (serialize_record r1)), norm_serialized, O1.
    - intros R. apply (row_in_file (inbox_file d)); [done | by rewrite E | done]. }
  destruct (save_ok (inbox_file d) (put_record key r payload1) f') as (I' & SR & SB); [| | | | |exact H|].
  - apply put_record_records.
  - by rewrite put_record_generations.
  - intros book. by rewrite put_record_book, G.
  - intros k raw Lk. destruct (decide (k = key)) as [->|N].
    + exists r. split_and!; [|done..]. apply P. by rewrite String.eqb_refl.
    + unfold put_record, records_of in Lk. rewrite dget_dset_eq in Lk. cbn [as_dict] in Lk.
      rewrite dlookup_dset_ne in Lk by done. fold (records_of payload1) in Lk. rewrite E, Er in Lk.
      destruct (fo_rows _ I _ _ Lk) as (r1 & -> & K & O1 & B1). exists r1. split_and!; [|done..]. apply P.
      apply String.eqb_neq in N as ->. apply (row_in_file (inbox_file d)); [done | by rewrite E |].
      apply row_receipt; [apply O1 | done].
  - intros k1 r1 k2 r2 W1 W2 SK. apply P in W1, W2.
    destruct (String.eqb_spec k1 key) as [->|N1], (String.eqb_spec k2 key) as [->|N2]; subst; try done.
    + exfalso. apply Old in W2; [|done]. by eapply U.
    + exfalso. apply Old in W1; [|done]. eapply U; [exact W1|]. by destruct SK.
    + apply Old in W1, W2; [|done..]. by eapply (fo_keys _ I).
  - assert (R : forall k r', k <> key -> receipt_at f' k = Some r' <-> receipt_at (inbox_file d) k = Some r').
    { intros k r' N. rewrite SR, P. pose proof N as N'. apply String.eqb_neq in N' as ->. by apply Old. }
    split_and!; [done| |apply SR, P; by rewrite String.eqb_refl]. split.
    + intros k r' Hr. assert (N : k <> key) by (intros ->; congruence). exists r'. split; [by apply R | reflexivity].
    + intros book. rewrite <- G, <- (put_record_book key r). apply SB.
Qed.

Lemma unregistered payload i :
  load_payload max_bytes (inbox_file d) = Ok payload -> record_for_identity payload i = Ok None ->
  receipt_at (inbox_file d) (record_key i) = None.
Proof.
  intros L. destruct (loaded _ _ _ I L) as (Er & _). unfold record_for_identity, dget. rewrite Er. unfold receipt_at.
  destruct (dlookup (record_key i) (receipts (inbox_file d))) as [raw|] eqn:E; [|done].
  destruct (fo_rows _ I _ _ E) as (r & -> & _ & O & _). cbn [default id]. by rewrite record_roundtrip by apply O.
Qed.

Lemma new_receipt_ok i payload_copy now generation side :
  Normal (PDict payload_copy) -> (forall g, generation = Some g -> 0 <= g) ->
  receipt_ok {| re_identity := i; re_state := RECEIVED; re_intent_payload := payload_copy; re_client_order_ids := [];
                re_exchange_confirmed_client_order_ids := []; re_updated_at := now; re_rejection_reason := "";
                re_local_position_generation := generation; re_local_position_side := side;
                re_terminal_client_order_ids := [] |}.
Proof.
  intros N G. split; cbn; [by split | done | by intros [?|?] | | | done]; intros id J; by apply not_elem_of_nil in J.
Qed.

(** What [register] writes for an intent it has not seen. *)
Lemma register_inv payload i payload_copy now a payload' :
  load_payload max_bytes (inbox_file d) = Ok payload -> Normal (PDict payload_copy) ->
  register i payload_copy now payload = Ok (a, Some payload') ->
  exists r payload1, a = REGISTERED /\ payload' = put_record (record_key i) r payload1 /\ re_identity r = i
    /\ re_state r = RECEIVED /\ re_intent_payload r = payload_copy
    /\ receipt_ok r /\ bound_ok (inbox_file d) r /\ records_of payload1 = records_of payload
    /\ is_dict (default (PDict []) (dlookup "position_generations" payload1))
    /\ (forall book, book_of payload1 book = book_at (inbox_file d) book)
    /\ receipt_at (inbox_file d) (record_key i) = None
    /\ (forall k r', receipt_at (inbox_file d) k = Some r' -> ~ same_key r r')
    /\ forall side, is_entry (ii_action i) = true -> entry_side payload_copy = Some side ->
         exists book, position_book_key (ii_account_id i) (ii_instrument_id i) side = Ok book
           /\ re_local_position_generation r = Some (generation_in (book_at (inbox_file d) book)) /\ re_local_position_side r = side.
Proof.
  intros L N H. destruct (loaded _ _ _ I L) as (Er & Eg & _ & D & _). unfold register in H.
  destruct (record_for_identity payload i) as [[r0|]|] eqn:R; [by cbn in H | | done]. cbn [mbind result_bind] in H.
  destruct (record_for_idempotency_key _ _ _) as [[?|]|] eqn:K; [by cbn in H | | done]. cbn [mbind result_bind] in H.
  apply (unregistered _ _ L) in R. apply (first_receipt _ _ _ _ I Er) in K.
  assert (U : forall r, re_identity r = i -> forall k r', receipt_at (inbox_file d) k = Some r' -> ~ same_key r r').
  { intros r Er' k r' Hr [S1 S2]. specialize (K _ _ Hr). cbv beta in K. rewrite Er' in S1, S2.
    rewrite <- S1, <- S2, !String.eqb_refl in K. done. }
  destruct (is_entry (ii_action i)) eqn:A, (entry_side payload_copy) as [side|] eqn:Sd; cbn [mbind result_bind] in H.
  1: { unfold bind_book in H. cbn [new_receipt re_identity re_state re_intent_payload] in H.
       destruct (position_book_key _ _ _) as [book|] eqn:B; [|done]. cbn [mbind result_bind] in H. injection H as <- <-.
       set (gens := setdefault book new_book (generations_of payload)).
       assert (G : generation_in (dget book gens) = generation_in (book_at (inbox_file d) book)).
       { unfold gens. rewrite setdefault_generation. by rewrite <- (book_payload _ _ L). }
       assert (P : 0 <= generation_in (book_at (inbox_file d) book)).
       { rewrite <- (book_payload _ _ L). unfold book_of. destruct (dlookup book (generations_of payload)) eqn:E; [|done].
         by apply (loaded_book _ _ _ _ L E). }
       do 2 eexists. split_and!; [done..| | | | | |done | by apply U |].
       - apply new_receipt_ok; [done|]. intros g [= <-]. by rewrite G.
       - intros g [= <-]. exists book. cbn. split; [done|]. by rewrite G.
       - unfold records_of. by rewrite dget_dset_ne.
       - by rewrite dlookup_dset_eq.
       - intros b. unfold book_of at 1. unfold generations_of at 1. rewrite dlookup_dset_eq. cbn [default id as_dict].
         unfold gens. rewrite setdefault_lookup. by apply book_payload.
       - intros s _ [= <-]. exists book. cbn. rewrite G. done. }
  all: injection H as <- <-; exists (new_receipt i payload_copy now), payload;
    split_and!; try done; try (by apply U); try (by apply new_receipt_ok);
    intros b; by apply book_payload.
Qed.

Lemma register_step i payload_copy now :
  Normal (PDict payload_copy) ->
  let d' := snd (mutate max_bytes (register i payload_copy now) d) in
  file_ok (inbox_file d') /\ evolves (inbox_file d) (inbox_file d').
Proof.
  intros N. apply mutate_step; [|done]. intros payload a payload' f' L H S.
  destruct (register_inv _ _ _ _ _ _ L N H) as (r & payload1 & _ & -> & <- & _ & _ & O & B & E & D & G & R & U & _).
  destruct (save_new _ _ _ _ L E D G O B R U S) as (? & ? & _). done.
Qed.

(** ** Repairing *)

Lemma all_records_inv payload rows r :
  load_payload max_bytes (inbox_file d) = Ok payload -> all_records payload = Ok rows -> r ∈ rows ->
  receipt_at (inbox_file d) (record_key (re_identity r)) = Some r.
Proof.
  intros L H J. destruct (loaded _ _ _ I L) as (Er & _). unfold all_records in H. rewrite Er in H. apply mapR_inv in H.
  apply list_elem_of_lookup in J as [n J]. destruct (Forall2_lookup_r _ _ _ _ _ H J) as ([k raw] & Lk & E). cbn in E.
  apply list_elem_of_lookup_2 in Lk.
  assert (D : dlookup k (receipts (inbox_file d)) = Some raw).
  { apply nodup_dlookup; [|done]. unfold receipts, records_of, dget. pose proof (fo_normal _ I) as N.
    destruct (dlookup "records" (contents (inbox_file d))) as [v|] eqn:V; [|constructor].
    pose proof (normal_lookup _ _ _ N V) as N'. destruct v; try constructor. simpl. by apply normal_nodup. }
  destruct (fo_rows _ I _ _ D) as (r' & -> & -> & O & _). rewrite record_roundtrip in E by apply O. injection E as ->.
  by apply row_receipt; [apply O|].
Qed.

Definition repaired_receipt (t : Z) (r : IntentExecutionRecord) : IntentExecutionRecord :=
  with_reason "inbox_repair_stale_management" (advance REJECTED (isoformat t) r).

Lemma repaired_rows t candidates payload k :
  (forall r, r ∈ candidates -> storable r) ->
  (exists r, r ∈ candidates /\ k = record_key (re_identity r)
     /\ row_in (fold_left (repaired t) candidates payload) k (repaired_receipt t r))
  \/ ((forall r, r ∈ candidates -> k <> record_key (re_identity r))
      /\ dlookup k (records_of (fold_left (repaired t) candidates payload)) = dlookup k (records_of payload)).
Proof.
  revert payload. induction candidates as [|r rest IH]; intros payload S; simpl.
  - right. split; [|done]. intros r J. by apply not_elem_of_nil in J.
  - destruct (IH (repaired t payload r)) as [(r' & J & K & W)|[N E]]; [intros; apply S; by right| |].
    + left. exists r'. split_and!; [by right | done..].
    + destruct (decide (k = record_key (re_identity r))) as [->|D].
      * left. exists r. split_and!; [left | done |]. exists (serialize_record (repaired_receipt t r)).
        assert (St : storable (repaired_receipt t r)) by (apply (S r); left).
        rewrite E, norm_serialized by done. split; [|done]. unfold repaired, put_record.
        unfold records_of. rewrite dget_dset_eq. cbn [as_dict]. apply dlookup_dset_eq.
      * right. split; [intros r' J; apply elem_of_cons in J as [->|J]; auto|]. rewrite E. unfold repaired, put_record.
        unfold records_of at 1. rewrite dget_dset_eq. cbn [as_dict]. by apply dlookup_dset_ne.
Qed.

Lemma repaired_other t candidates payload :
  dlookup "position_generations" (fold_left (repaired t) candidates payload) = dlookup "position_generations" payload
  /\ ((exists recs, dlookup "records" payload = Some (PDict recs)) ->
      exists recs, dlookup "records" (fold_left (repaired t) candidates payload) = Some (PDict recs)).
Proof.
  revert payload. induction candidates as [|r rest IH]; intros payload; simpl; [done|].
  destruct (IH (repaired t payload r)) as [E1 E2]. rewrite E1. unfold repaired at 1.
  rewrite put_record_generations. split; [done|]. intros _. apply E2. apply put_record_records.
Qed.

Lemma eligible_dispatched r t : management_repair_eligible r t = true -> re_state r = DISPATCHED.
Proof. unfold management_repair_eligible. by destruct (re_state r). Qed.

Lemma candidate_inv t payload candidates r :
  load_payload max_bytes (inbox_file d) = Ok payload -> repair_candidates t payload = Ok candidates -> r ∈ candidates ->
  receipt_at (inbox_file d) (record_key (re_identity r)) = Some r /\ receipt_ok r /\ re_state r <> EXCHANGE_CONFIRMED.
Proof.
  intros L C J. unfold repair_candidates in C. destruct (all_records payload) as [rows|] eqn:A; [|done]. injection C as <-.
  apply list_elem_of_In, List.filter_In in J as [J T]. apply list_elem_of_In in J.
  pose proof (all_records_inv _ _ _ L A J) as Hr. destruct (receipt_row _ _ _ I Hr) as (_ & _ & O & _).
  apply eligible_dispatched in T. split_and!; [done..|congruence].
Qed.

Lemma repair_write t payload0 candidates (backup : option string) :
  load_payload max_bytes (inbox_file d) = Ok payload0 -> repair_candidates t payload0 = Ok candidates ->
  let d' := snd (mutate max_bytes (fun payload => Ok ((candidates, backup), Some (fold_left (repaired t) candidates payload))) d) in
  file_ok (inbox_file d') /\ evolves (inbox_file d) (inbox_file d').
Proof.
  intros L0 C. apply mutate_step; [|done].
  intros payload a payload' f' L H S. injection H as _ <-. rewrite L in L0. injection L0 as ->.
  destruct (loaded _ _ _ I L) as (Er & Eg & Lr & D & _). destruct (repaired_other t candidates payload0) as [Og Or].
  destruct (save_advanced (inbox_file d) (fold_left (repaired t) candidates payload0) f') as (? & ? & _); try done.
  - by apply Or.
  - by rewrite Og.
  - intros book. rewrite <- (book_payload _ _ L). unfold book_of, generations_of. by rewrite Og.
  - intros k. destruct (repaired_rows t candidates payload0 k) as [(r & J & -> & W)|[N E]].
    + intros r J. apply (candidate_inv _ _ _ _ L C J).
    + right. destruct (candidate_inv _ _ _ _ L C J) as (Hr & O & St).
      destruct (rejected_ok r "inbox_repair_stale_management" (isoformat t) O St) as [O' A'].
      exists r, (repaired_receipt t r). done.
    + rewrite E, Er. destruct (receipt_at (inbox_file d) k) as [r|] eqn:R; [|left; split; [by apply receipt_none | done]].
      right. destruct (receipt_row _ _ _ I R) as (Lk & _ & O & _). exists r, r. split_and!; [done | | reflexivity | done].
      destruct (row_in_file _ payload0 _ _ I Er R) as (raw & Lr' & Nr & Sr). exists raw. split_and!; try done. by rewrite E.
Qed.
End operations.

Lemma repair_step name now d :
  file_ok (inbox_file d) ->
  let d' := snd (repair_dispatched_management name max_bytes now d) in
  file_ok (inbox_file d') /\ evolves (inbox_file d) (inbox_file d').
Proof.
  intros I. unfold repair_dispatched_management, mget, read_locked, mbind, M_bind.
  set (t := default (clock d) now). destruct (load_payload max_bytes (inbox_file d)) as [payload0|] eqn:L0; cbn [result_bind]; [|by split].
  destruct (repair_candidates t payload0) as [[|c cs]|] eqn:C; [by split| |by split].
  unfold write_backup. destruct (aget _ (backups d)); [by split|].
  match goal with |- context [mutate _ _ ?d1] => by apply (repair_write d1 I t payload0 (c :: cs)) end.
Qed.
End steps.

(** ** Runs *)

(** The operations that can change the file, and the passing of time. *)
Inductive inbox_call :=
  | Register (i : IntentExecutionIdentity) (intent_payload : pyval)
  | BeginDispatch (i : IntentExecutionIdentity) (client_order_ids : list string)
  | Confirm (i : IntentExecutionIdentity)
  | ConfirmOrder (client_order_id : string)
  | CloseTerminal (client_order_id : string)
  | Reject (i : IntentExecutionIdentity) (reason : string)
  | RejectOrder (client_order_id reason : string)
  | Invalidate (account_id instrument_id position_side operation_id : string)
  | InvalidateScope (account_id operation_id : string) (instrument_ids : list string)
  | Repair (now : option Z)
  | Wait (us : Z).

Section runs.
Context (name : string) (max_bytes : Z).

(** The disk after a call, whatever it returns or raises. *)
Definition perform (d : Disk) (c : inbox_call) : Disk :=
  match c with
  | Register i p => snd (register_received max_bytes i p d)
  | BeginDispatch i ids => snd (begin_dispatch max_bytes i ids d)
  | Confirm i => snd (mark_exchange_confirmed max_bytes i d)
  | ConfirmOrder id => snd (mark_exchange_confirmed_by_client_order_id max_bytes id d)
  | CloseTerminal id => snd (mark_close_order_terminal max_bytes id d)
  | Reject i reason => snd (mark_rejected max_bytes i reason d)
  | RejectOrder id reason => snd (mark_rejected_by_client_order_id max_bytes id reason d)
  | Invalidate a i s op => snd (invalidate_position max_bytes a i s op d)
  | InvalidateScope a op l => snd (invalidate_position_scope max_bytes a op l d)
  | Repair now => snd (repair_dispatched_management name max_bytes now d)
  | Wait us => {| inbox_file := inbox_file d; backups := backups d; clock := clock d + us |}
  end.

Definition run : list inbox_call -> Disk -> Disk := fold_left perform.

Definition new_disk (t : Z) : Disk := {| inbox_file := Absent; backups := []; clock := t |}.

Definition steps (d d' : Disk) : Prop := file_ok (inbox_file d') /\ evolves (inbox_file d) (inbox_file d').

Lemma steps_refl d : file_ok (inbox_file d) -> steps d d.
Proof. by split. Qed.

Lemma perform_step d c : file_ok (inbox_file d) -> steps d (perform d c).
Proof.
  intros I. destruct c as [i p|i ids|i|id|id|i reason|id reason|a i s op|a op l|now|us]; simpl perform.
  - unfold register_received, mbind, M_bind, mlift, utc_now. destruct (normalized i); [|by apply steps_refl].
    destruct (json_object p) eqn:J; [|by apply steps_refl]. apply register_step; [done|]. by eapply json_object_normal.
  - unfold begin_dispatch, mbind, M_bind, mlift, utc_now. destruct (normalized i); [|by apply steps_refl].
    destruct (stable_client_order_ids _ _) eqn:S; [|by apply steps_refl].
    destruct (stable_ids_inv _ _ _ S). by apply dispatch_step.
  - unfold mark_exchange_confirmed, mbind, M_bind, mlift, utc_now. destruct (normalized i); [|by apply steps_refl].
    by apply confirm_step.
  - unfold mark_exchange_confirmed_by_client_order_id, mbind, M_bind, utc_now, exists_file.
    destruct (is_empty _); [by apply steps_refl|]. destruct (negb _); [by apply steps_refl|]. by apply confirm_by_order_step.
  - unfold mark_close_order_terminal, mbind, M_bind, utc_now. by apply terminate_close_step.
  - unfold mark_rejected, mbind, M_bind, mlift, utc_now. destruct (normalized i); [|by apply steps_refl].
    destruct (is_empty _); [by apply steps_refl|]. by apply reject_step.
  - unfold mark_rejected_by_client_order_id, mbind, M_bind, utc_now, exists_file.
    destruct (_ || _); [by apply steps_refl|]. destruct (negb _); [by apply steps_refl|]. by apply reject_by_order_step.
  - by apply invalidate_position_step.
  - by apply invalidate_scope_step.
  - by apply repair_step.
  - by apply (steps_refl d).
Qed.

Lemma run_steps calls d : file_ok (inbox_file d) -> steps d (run calls d).
Proof.
  revert d. induction calls as [|c calls IH]; intros d I; [by apply steps_refl|].
  destruct (perform_step d c I) as [I1 E1]. destruct (IH _ I1) as [I2 E2]. split; [done | by etrans].
Qed.

Lemma new_disk_ok t : file_ok (inbox_file (new_disk t)).
Proof.
  split; [by left | by repeat constructor | done |]. intros key r key' r' H. done.
Qed.

Lemma reached calls t : file_ok (inbox_file (run calls (new_disk t))).
Proof. apply run_steps, new_disk_ok. Qed.

(** C6. A receipt of the inbox is never lost, and it is never altered but
    forward: whatever operations ran before, a receipt is well formed (its
    orders are derived from its intent, and it is confirmed only with evidence
    for every one of them); and whatever operations run afterwards, it is still
    there with the same identity, payload and book, its state only moves from
    received to dispatched to confirmed or rejected, and its orders are fixed
    once it has been dispatched. *)
Theorem receipts_durable calls calls' t key r :
  receipt_at (inbox_file (run calls (new_disk t))) key = Some r ->
  key = record_key (re_identity r) /\ receipt_ok r
  /\ exists r', receipt_at (inbox_file (run calls' (run calls (new_disk t)))) key = Some r' /\ advances r r'.
Proof.
  intros H. pose proof (reached calls t) as I. destruct (receipt_row _ _ _ I H) as (_ & K & O & _).
  split_and!; [done..|]. destruct (run_steps calls' _ I) as [_ E]. by apply (ev_receipts _ _ E).
Qed.

(** C37. What the file holds is well typed after any operations: it is a document
    that reads back as it was written, every row of it is the serialised form
    of one well-formed receipt, which [_record_from_raw] gives back exactly, a
    row is kept under the identity of its receipt, and an account never uses an
    idempotency key for two receipts. *)
Theorem inbox_well_typed calls t f :
  inbox_file (run calls (new_disk t)) = f ->
  (f = Absent \/ exists v, f = Json v /\ json_norm v = Ok v)
  /\ (forall key raw, dlookup key (receipts f) = Some raw ->
        exists r, raw = PDict (row_of r) /\ record_from_raw raw = Ok r /\ key = record_key (re_identity r) /\ receipt_ok r)
  /\ (forall key r key' r', receipt_at f key = Some r -> receipt_at f key' = Some r' -> same_key r r' -> key = key').
Proof.
  intros <-. pose proof (reached calls t) as I. split_and!; [| |apply (fo_keys _ I)].
  - destruct (fo_json _ I) as [->|E]; [by left | right]. eexists. split; [exact E|]. apply normal_fixed, (fo_normal _ I).
  - intros key raw H. destruct (fo_rows _ I _ _ H) as (r & -> & K & O & _). exists r.
    split_and!; [done | apply record_roundtrip, O | done..].
Qed.

Lemma ready_inv i ids d d' :
  file_ok (inbox_file d) -> begin_dispatch max_bytes i ids d = (Ok READY, d') ->
  exists n, normalized i = Ok n
    /\ (exists r, receipt_at (inbox_file d) (record_key n) = Some r /\ re_state r = RECEIVED)
    /\ (exists r, receipt_at (inbox_file d') (record_key n) = Some r /\ re_state r = DISPATCHED)
    /\ file_ok (inbox_file d').
Proof.
  intros I H. unfold begin_dispatch, mbind, M_bind, mlift, utc_now in H. destruct (normalized i) as [n|]; [|done]. exists n.
  split; [done|]. destruct (stable_client_order_ids (ii_intent_id n) ids) as [ids'|] eqn:S; [|done].
  destruct (stable_ids_inv _ _ _ S) as [N D].
  destruct (mutate_ok _ _ _ _ _ H) as (payload & L & [[E _]|(payload' & E & Sv)]); unfold dispatch in E;
    (destruct (required_record payload n) as [r|] eqn:R; [|done]); cbn [mbind result_bind] in E;
    destruct (re_state r) eqn:St; try done; try (by destruct (negb _)).
  injection E as <-.
  destruct (required_inv _ _ _ _ I (proj1 (loaded _ _ _ I L)) R) as [Hr Ei]. rewrite <- Ei in D.
  destruct (receipt_row _ _ _ I Hr) as (_ & _ & O & _).
  destruct (dispatched_ok r ids' (isoformat (clock d)) O St N D) as [O' A].
  destruct (update_receipt _ _ _ _ _ _ _ I L Hr A O' Sv) as (I' & _ & Hr'). eauto 10.
Qed.

(** C5. An intent is handed to the exchange once: after [begin_dispatch] has
    answered READY for it, no later call, whatever happened in between, answers
    READY for it again. *)
Theorem dispatched_once calls calls' t i ids d i' ids' :
  begin_dispatch max_bytes i ids (run calls (new_disk t)) = (Ok READY, d) ->
  normalized i' = normalized i ->
  fst (begin_dispatch max_bytes i' ids' (run calls' d)) <> Ok READY.
Proof.
  intros H N H'. destruct (ready_inv _ _ _ _ (reached calls t) H) as (n & En & _ & (r & Hr & St) & I).
  destruct (run_steps calls' d I) as [I' E]. destruct (begin_dispatch max_bytes i' ids' (run calls' d)) as [o d2] eqn:B.
  simpl in H'. subst o. destruct (ready_inv _ _ _ _ I' B) as (n' & En' & (r' & Hr' & St') & _).
  assert (n' = n) by congruence. subst n'. destruct (ev_receipts _ _ E _ _ Hr) as (r2 & Hr2 & A).
  rewrite Hr' in Hr2. injection Hr2 as <-. pose proof (ad_state _ _ A) as La. rewrite St, St' in La.
  by destruct La as [?|[?|[_ ?]]].
Qed.

Lemma invalidate_inv a i s operation_id d n d' :
  file_ok (inbox_file d) -> invalidate_position max_bytes a i s operation_id d = (Ok n, d') ->
  exists book op, position_book_key a i s = Ok book /\ position_operation_id operation_id = Ok op
    /\ file_ok (inbox_file d') /\ evolves (inbox_file d) (inbox_file d')
    /\ invalidation_in (book_at (inbox_file d') book) op = Some n /\ n <= generation_in (book_at (inbox_file d') book).
Proof.
  intros I H. unfold invalidate_position, mbind, M_bind, mlift in H.
  destruct (position_book_key a i s) as [book|]; [|done]. destruct (position_operation_id operation_id) as [op|]; [|done].
  exists book, op. split; [done|]. split; [done|].
  destruct (mutate_ok _ _ _ _ _ H) as (payload & L & [[E Sm]|(payload' & E & Sv)]); cbv beta zeta in E;
    fold (book_of payload book) in E; destruct (dlookup op _) as [v|] eqn:Lo in E; try done.
  - injection E as <-. rewrite Sm. split_and!; [done | reflexivity | |]; rewrite <- (book_payload _ _ I _ _ L).
    + unfold invalidation_in. by rewrite Lo.
    + unfold book_of in *. destruct (dlookup book (generations_of payload)) as [state|] eqn:B; [|done].
      destruct (loaded_book _ _ _ _ _ L B) as [_ X]. cbn [default id] in *. specialize (X _ _ Lo). lia.
  - injection E as <- <-. destruct (save_invalidated _ _ I _ _ _ _ L Lo Sv) as (I' & Ev & [G N]).
    rewrite generation_invalidated in G. split_and!; [done..| |done].
    apply N. by rewrite invalidation_invalidated, String.eqb_refl.
Qed.

(** A close barrier is raised once per operation: repeating an invalidation
    at any later time returns the generation it gave the first time. *)
Theorem invalidation_once calls calls' t a i s op d n n' d' :
  invalidate_position max_bytes a i s op (run calls (new_disk t)) = (Ok n, d) ->
  invalidate_position max_bytes a i s op (run calls' d) = (Ok n', d') ->
  n' = n.
Proof.
  intros H H'. destruct (invalidate_inv _ _ _ _ _ _ _ (reached calls t) H) as (book & o & B & O & I & _ & N & _).
  destruct (run_steps calls' d I) as [I1 E]. destruct (invalidate_inv _ _ _ _ _ _ _ I1 H') as (book' & o' & B' & O' & I' & E' & N' & _).
  simplify_eq. apply (bl_invalidations _ _ (ev_books _ _ E _)) in N. apply (bl_invalidations _ _ (ev_books _ _ E' _)) in N. congruence.
Qed.

Lemma generation_read a i s d book m :
  file_ok (inbox_file d) -> fst (position_generation max_bytes a i s d) = Ok m -> position_book_key a i s = Ok book ->
  generation_in (book_at (inbox_file d) book) = m.
Proof.
  intros I H B. unfold position_generation, mbind, M_bind, mlift, read_locked in H. rewrite B in H. cbn [fst] in H.
  destruct (load_payload max_bytes (inbox_file d)) as [p|] eqn:L; [|done]. cbn [mbind result_bind] in H.
  apply ok_inj in H. fold (book_of p book) in H. by rewrite (book_payload _ _ I _ _ L) in H.
Qed.

(** Closing a position withdraws the entries that were received for it
    before: once an invalidation has raised the generation of a book, an entry
    that was already registered, bound to some book, is denied at that book by
    every later check. *)
Theorem closed_entry_denied calls calls' t key r a i s op m n d intent_id h require_binding :
  receipt_at (inbox_file (run calls (new_disk t))) key = Some r ->
  is_entry (ii_action (re_identity r)) = true -> re_local_position_generation r <> None ->
  uuid_of intent_id = Ok h -> key = a +:+ ":" +:+ uuid_text h ->
  fst (position_generation max_bytes a i s (run calls (new_disk t))) = Ok m ->
  invalidate_position max_bytes a i s op (run calls (new_disk t)) = (Ok n, d) -> m < n ->
  fst (add_position_denial max_bytes a intent_id i s require_binding (run calls' d)) <> Ok None.
Proof.
  intros Hr En Bd Hu Ek Hm H Lt. pose proof (reached calls t) as I0.
  destruct (invalidate_inv _ _ _ _ _ _ _ I0 H) as (book & o & B & O & I & E0 & _ & Le).
  destruct (run_steps calls' d I) as [I1 E1].
  destruct (ev_receipts _ _ (transitivity E0 E1) _ _ Hr) as (r' & Hr' & A).
  destruct (receipt_row _ _ _ I1 Hr') as (Lr & _ & O' & _). destruct (receipt_row _ _ _ I0 Hr) as (_ & _ & _ & Bo).
  destruct (re_local_position_generation r) as [g|] eqn:G; [|done]. destruct (Bo g G) as (book0 & B0 & Lg).
  unfold add_position_denial, mbind, M_bind, mlift, read_locked. rewrite B, Hu. cbn [fst]. rewrite <- Ek.
  destruct (load_payload max_bytes (inbox_file (run calls' d))) as [payload|] eqn:L; [|done]. cbn [mbind result_bind].
  destruct (loaded _ _ _ I1 L) as (Er & _). unfold position_denial, dget. rewrite Er, Lr. cbn [default id].
  rewrite record_roundtrip by apply O'. cbn [mbind result_bind].
  rewrite (ad_identity _ _ A), (ad_generation _ _ A), (ad_side _ _ A), En, G. cbn [negb]. rewrite B0. cbn [mbind result_bind].
  destruct (String.eqb_spec book0 book) as [->|N]; cbn [negb]; [|done].
  pose proof (generation_read _ _ _ _ _ _ I0 Hm B) as Gb. pose proof (bl_generation _ _ (ev_books _ _ E1 book)) as Gm.
  destruct (dlookup book (generations_of payload)) as [state|] eqn:Ls; [|done].
  assert (Gs : generation_in state = generation_in (book_at (inbox_file (run calls' d)) book)).
  { rewrite <- (book_payload _ _ I1 _ _ L). unfold book_of. by rewrite Ls. }
  assert (Ng : (g =? generation_in state) = false) by (apply Z.eqb_neq; lia).
  destruct state; cbn [default id fst]; rewrite ?Ng; intros X; discriminate X.
Qed.
End runs.

(** ** Examples *)

Definition sample_entry : IntentExecutionIdentity :=
  {| ii_account_id := "acct-a"; ii_intent_id := "01234567-89ab-cdef-0123-456789abcdef"; ii_idempotency_key := "key-1";
     ii_instrument_id := "BTCUSDT-PERP.BINANCE"; ii_action := "open_position" |}.
Definition sample_payload : pyval := PDict [("order_plan", PDict [("side", PStr "BUY")])].
Definition sample_order : string := "B0123456789abcdef0123456789abcdef00".
Definition sample_call : inbox_call := Register sample_entry sample_payload.
Definition sample_key : string := "acct-a:01234567-89ab-cdef-0123-456789abcdef".
Abbreviation sample_run calls := (run "inbox.json" 100000 calls (new_disk 1700000000000000)).

Definition state_at (d : Disk) (key : string) : option IntentExecutionState := re_state <$> receipt_at (inbox_file d) key.

Lemma receipts_durable_witness :
  exists r, receipt_at (inbox_file (sample_run [sample_call])) sample_key = Some r /\ receipt_ok r
    /\ state_at (run "inbox.json" 100000 [BeginDispatch sample_entry [sample_order]; ConfirmOrder sample_order]
                     (sample_run [sample_call])) sample_key = Some EXCHANGE_CONFIRMED.
Proof.
  destruct (receipt_at (inbox_file (sample_run [sample_call])) sample_key) as [r|] eqn:E; [|by vm_compute in E].
  destruct (receipts_durable _ _ _ [] _ _ _ E) as (_ & O & _).
  exists r. split_and!; [exact eq_refl | exact O | by vm_compute].
Defined.

Lemma inbox_well_typed_witness :
  exists raw r, dlookup sample_key (receipts (inbox_file (sample_run [sample_call]))) = Some raw
    /\ raw = PDict (row_of r) /\ record_from_raw raw = Ok r.
Proof.
  destruct (dlookup sample_key (receipts (inbox_file (sample_run [sample_call])))) as [raw|] eqn:E; [|by vm_compute in E].
  destruct (inbox_well_typed "inbox.json" 100000 [sample_call] 1700000000000000 _ eq_refl) as (_ & R & _).
  destruct (R _ _ E) as (r & H & B & _). exists raw, r. split; [reflexivity | split; [exact H | exact B]].
Defined.

Definition dispatch_result (calls : list inbox_call) : result IntentDispatchResult :=
  fst (begin_dispatch 100000 sample_entry [sample_order] (sample_run calls)).

Lemma dispatched_once_witness :
  dispatch_result [sample_call] = Ok READY
  /\ fst (begin_dispatch 100000 sample_entry [sample_order]
            (snd (begin_dispatch 100000 sample_entry [sample_order] (sample_run [sample_call])))) <> Ok READY.
Proof.
  assert (E : dispatch_result [sample_call] = Ok READY) by (vm_compute; reflexivity).
  split; [exact E|]. unfold dispatch_result in E.
  destruct (begin_dispatch 100000 sample_entry [sample_order] (sample_run [sample_call])) as [o d] eqn:B.
  cbn [fst] in E. subst o. apply (dispatched_once _ _ _ [] _ _ _ _ _ _ B eq_refl).
Defined.

Lemma invalidation_once_witness :
  exists d, invalidate_position 100000 "acct-a" "BTCUSDT" "LONG" "close-1" (sample_run []) = (Ok 1, d)
    /\ fst (invalidate_position 100000 "acct-a" "BTCUSDT" "LONG" "close-1" d) = Ok 1.
Proof.
  destruct (invalidate_position 100000 "acct-a" "BTCUSDT" "LONG" "close-1" (sample_run [])) as [o d] eqn:B.
  assert (E : o = Ok 1) by (apply (f_equal fst) in B; vm_compute in B; congruence). subst o.
  exists d. split; [reflexivity|].
  destruct (invalidate_position 100000 "acct-a" "BTCUSDT" "LONG" "close-1" d) as [[n|e] d'] eqn:B'.
  - cbn [fst]. f_equal. apply (invalidation_once "inbox.json" _ _ [] _ _ _ _ _ _ _ _ _ B B').
  - exfalso. apply (f_equal snd) in B. vm_compute in B. subst d. vm_compute in B'. discriminate B'.
Defined.

Lemma closed_entry_denied_witness :
  fst (position_generation 100000 "acct-a" "BTCUSDT-PERP" "long" (sample_run [sample_call])) = Ok 0
  /\ exists d, invalidate_position 100000 "acct-a" "BTCUSDT-PERP" "long" "close-1" (sample_run [sample_call]) = (Ok 1, d)
    /\ fst (add_position_denial 100000 "acct-a" "0123456789abcdef0123456789abcdef" "BTCUSDT-PERP" "long" false d) <> Ok None.
Proof.
  split; [vm_compute; reflexivity|].
  destruct (invalidate_position 100000 "acct-a" "BTCUSDT-PERP" "long" "close-1" (sample_run [sample_call])) as [o d] eqn:B.
  assert (E : o = Ok 1) by (apply (f_equal fst) in B; vm_compute in B; congruence). subst o.
  exists d. split; [reflexivity|].
  destruct (receipt_at (inbox_file (sample_run [sample_call])) sample_key) as [r|] eqn:E; [|by vm_compute in E].
  assert (K : bool_decide (is_entry (ii_action (re_identity r)) = true /\ re_local_position_generation r = Some 0) = true).
  { assert (X : match receipt_at (inbox_file (sample_run [sample_call])) sample_key with
                | Some r => bool_decide (is_entry (ii_action (re_identity r)) = true /\ re_local_position_generation r = Some 0)
                | None => false
                end = true) by (vm_compute; reflexivity). by rewrite E in X. }
  apply bool_decide_eq_true in K as [K1 K2].
  apply (closed_entry_denied "inbox.json" 100000 [sample_call] [] 1700000000000000 sample_key r "acct-a" "BTCUSDT-PERP" "long" "close-1" 0 1 d
           "0123456789abcdef0123456789abcdef" "0123456789abcdef0123456789abcdef" false E K1); [congruence | | | | exact B | lia];
    vm_compute; reflexivity.
Defined.

(** An instrument whose symbol ends in a blank before its product makes a book
    whose key [_load_payload] refuses: the entry is registered, and from then
    on every operation raises. *)
Lemma blank_symbol_locks :
  let blank := {| ii_account_id := "acct-a"; ii_intent_id := "01234567-89ab-cdef-0123-456789abcdef"; ii_idempotency_key := "key-1";
                  ii_instrument_id := "BTC -PERP"; ii_action := "open_position" |} in
  fst (register_received 100000 blank sample_payload (sample_run [])) = Ok REGISTERED
  /\ fst (get 100000 blank (sample_run [Register blank sample_payload])) = Raise invalid_generation.
Proof. split; vm_compute; reflexivity. Qed.
