(* ===== verification/Spool.v ===== *)
(** * Spool: the durable event spool of the node

    Models nautilus-node/projection/spool.py: the execution events that wait
    for the control plane, kept in memory and in a file.  The file is its text,
    byte for byte: a write-ahead log of records, one JSON document per line,
    that an acknowledgement replaces by a snapshot.  An append can be cut after
    any number of bytes; [_save_encoded] replaces the file atomically, so that
    a crash leaves the old text or the new one.  Times are UTC instants (the
    mapper makes them aware), a UUID is its thirty-two digits, and the file
    holds ASCII, which is what [json.dumps] writes.  The lock is represented by
    running each operation alone. *)

From Stdlib Require Import ZArith Lia Ascii.
From S2P Require Import Prelude Decimal PyString DecText PyValue PyTime Binary64 Sha256 OrderPlans Json JsonText TimeText.
Open Scope string_scope.
Open Scope Z_scope.

(** ** Envelopes *)

(** [ExecutionEventEnvelopeV1] *)
Record Envelope := {
  en_schema_version : string;
  en_event_id : string;
  en_node_id : string;
  en_account_id : string;
  en_intent_id : option string;
  en_client_order_id : option string;
  en_venue_order_id : option string;
  en_trade_id : option string;
  en_event_type : string;
  en_ts_event : Z;
  en_ts_ingest : Z;
  en_payload : dict }.

Definition validation_error : exn := ValueError "validation error for ExecutionEventEnvelopeV1".

Definition envelope_fields : list string :=
  ["schema_version"; "event_id"; "node_id"; "account_id"; "intent_id"; "client_order_id"; "venue_order_id";
   "trade_id"; "event_type"; "ts_event"; "ts_ingest"; "payload"].

(** [str = Field(min_length=1)] *)
Definition required_text (k : string) (values : dict) : result string :=
  match dlookup k values with
  | Some (PStr s) => if is_empty s then Raise validation_error else Ok s
  | _ => Raise validation_error
  end.

(** [Optional[str] = None] *)
Definition optional_text (k : string) (values : dict) : result (option string) :=
  match dlookup k values with
  | None | Some PNone => Ok None
  | Some (PStr s) => Ok (Some s)
  | Some _ => Raise validation_error
  end.

(** [ExecutionEventEnvelopeV1( **values)], its times and its intent converted. *)
Definition make_envelope (ts_event ts_ingest : Z) (intent_id : option string) (values : dict) : result Envelope :=
  if negb (forallb (fun p => str_in (fst p) envelope_fields) values) then Raise validation_error else
  schema_version ← match dlookup "schema_version" values with
                   | None => Ok "1.0"
                   | Some (PStr s) => if String.eqb s "1.0" then Ok s else Raise validation_error
                   | Some _ => Raise validation_error
                   end;
  event_id ← required_text "event_id" values;
  node_id ← required_text "node_id" values;
  account_id ← required_text "account_id" values;
  client_order_id ← optional_text "client_order_id" values;
  venue_order_id ← optional_text "venue_order_id" values;
  trade_id ← optional_text "trade_id" values;
  event_type ← required_text "event_type" values;
  payload ← match dlookup "payload" values with
            | None => Ok []
            | Some (PDict m) => Ok m
            | Some _ => Raise validation_error
            end;
  Ok {| en_schema_version := schema_version; en_event_id := event_id; en_node_id := node_id;
        en_account_id := account_id; en_intent_id := intent_id; en_client_order_id := client_order_id;
        en_venue_order_id := venue_order_id; en_trade_id := trade_id; en_event_type := event_type;
        en_ts_event := ts_event; en_ts_ingest := ts_ingest; en_payload := payload |}.

Definition opt_str (o : option string) : pyval := match o with Some s => PStr s | None => PNone end.

(** [_envelope_to_payload] *)
Definition envelope_to_payload (e : Envelope) : dict :=
  [("schema_version", PStr (en_schema_version e)); ("event_id", PStr (en_event_id e)); ("node_id", PStr (en_node_id e));
   ("account_id", PStr (en_account_id e)); ("intent_id", opt_str (uuid_text <$> en_intent_id e));
   ("client_order_id", opt_str (en_client_order_id e)); ("venue_order_id", opt_str (en_venue_order_id e));
   ("trade_id", opt_str (en_trade_id e)); ("event_type", PStr (en_event_type e));
   ("ts_event", PStr (isoformat (en_ts_event e))); ("ts_ingest", PStr (isoformat (en_ts_ingest e)));
   ("payload", PDict (en_payload e))].

(** [_datetime_from_iso] *)
Definition datetime_from_iso (v : pyval) : result Z :=
  match v with
  | PStr s => ensure_aware 0 (TsText s)
  | _ => Raise (TypeError "object has no attribute 'replace'")
  end.

Definition field (k : string) (d : dict) : result pyval :=
  match dlookup k d with Some v => Ok v | None => Raise (KeyError k) end.

(** [_envelope_from_payload] *)
Definition envelope_from_payload (payload : pyval) : result Envelope :=
  match payload with
  | PDict values =>
      ts_event ← field "ts_event" values ≫= datetime_from_iso;
      ts_ingest ← field "ts_ingest" values ≫= datetime_from_iso;
      intent_id ← match dget "intent_id" values with
                  | PNone => Ok None
                  | v => Some <$> uuid_of (py_str v)
                  end;
      make_envelope ts_event ts_ingest intent_id values
  | PList [] | PStr EmptyString => Raise (KeyError "ts_event")
  | PList _ | PStr _ => Raise (ValueError "dictionary update sequence element has the wrong length")
  | _ => Raise (TypeError "object is not iterable")
  end.

(** [EVENT_TYPE_ORDER.get(event_type, 100)] *)
Definition event_type_order (event_type : string) : Z :=
  default 100 (aget event_type
    [("OrderSubmitted", 10); ("OrderAccepted", 20); ("OrderPendingUpdate", 30); ("OrderUpdated", 40);
     ("OrderFilled", 50); ("OrderPendingCancel", 60); ("OrderCanceled", 70); ("OrderRejected", 80);
     ("OrderExpired", 90)]).

(** [_event_order_key], compared as the tuples are. *)
Definition event_compare (a b : Envelope) : comparison :=
  match en_ts_event a ?= en_ts_event b with
  | Eq => match event_type_order (en_event_type a) ?= event_type_order (en_event_type b) with
          | Eq => String.compare (en_event_id a) (en_event_id b)
          | c => c
          end
  | c => c
  end.

Definition event_le (a b : Envelope) : bool := match event_compare a b with Gt => false | _ => true end.

Definition sort_events : list Envelope -> list Envelope := sort_by event_le.

(** ** Records *)

Definition newline : ascii := ascii_of_nat 10.
Definition carriage_return : ascii := ascii_of_nat 13.

Definition line (text : string) : string := text +:+ String newline "".

(** [_encode_record] *)
Definition encode_record (payload : dict) : result string :=
  v ← json_norm (PDict payload);
  Ok (line (dumps v)).

Definition CorruptionError (msg : string) : exn := RuntimeError "SpoolCorruptionError" msg.
Definition CapacityError (msg : string) : exn := RuntimeError "SpoolCapacityError" msg.

(** [encoded.splitlines(keepends=True)] of bytes *)
Fixpoint splitlines (s : string) : list string :=
  match s with
  | EmptyString => []
  | String c s' =>
      if Ascii.eqb c newline then String c "" :: splitlines s'
      else if Ascii.eqb c carriage_return then
        match s' with
        | String d s'' => if Ascii.eqb d newline then String c (String d "") :: splitlines s''
                          else String c "" :: splitlines s'
        | EmptyString => [String c ""]
        end
      else match splitlines s' with
           | l :: ls => String c l :: ls
           | [] => [String c ""]
           end
  end.

(** [line[:-1]] of a line that ends with a newline. *)
Fixpoint cut_newline (s : string) : option string :=
  match s with
  | EmptyString => None
  | String c EmptyString => if Ascii.eqb c newline then Some "" else None
  | String c s => String c <$> cut_newline s
  end.

Definition size_of (s : string) : Z := Z.of_nat (String.length s).

(** The loop of [_decode_wal_records] from the record [i] on. *)
Fixpoint decode_lines (i : Z) (lines : list string) : result (list dict * Z) :=
  match lines with
  | [] => Ok ([], 0)
  | l :: lines =>
      match cut_newline l with
      | None => Ok ([], 0)
      | Some raw =>
          let at_record := "execution spool WAL record " +:+ int_str i in
          if is_empty raw then Raise (CorruptionError (at_record +:+ " is empty"))
          else match loads raw with
               | None => Raise (CorruptionError (at_record +:+ " is corrupt"))
               | Some (PDict r) =>
                   '(records, size) ← decode_lines (i + 1) lines;
                   Ok (r :: records, size_of l + size)
               | Some _ => Raise (CorruptionError (at_record +:+ " must be an object"))
               end
      end
  end.

(** [_decode_wal_records]: the records and the size of what is durable. *)
Definition decode_wal_records (encoded : string) : result (list dict * bool * Z) :=
  '(records, durable) ← decode_lines 1 (splitlines encoded);
  Ok (records, false, durable).

(** [_decode_records] *)
Definition decode_records (encoded : string) : result (list dict * bool * Z) :=
  match loads encoded with
  | None => decode_wal_records encoded
  | Some (PDict payload) =>
      if negb (dmem "op" payload) then Ok ([payload], true, size_of encoded)
      else if ends_with (String newline "") encoded then Ok ([payload], false, size_of encoded)
      else Ok ([], false, 0)
  | Some _ => Raise (TypeError "execution spool root must be a JSON object")
  end.

(** ** The state *)

Record Spool := {
  sp_file : option string;
  sp_pending : list Envelope;
  sp_seen : list string;
  sp_size : Z;
  sp_last_append : Z }.

(** [seen[event_id] = None] of a dictionary in insertion order. *)
Definition see (seen : list string) (event_id : string) : list string :=
  if str_in event_id seen then seen else (seen ++ [event_id])%list.

Definition event_ids (events : list Envelope) : list string := map en_event_id events.

(** [for x in v] *)
Definition items_of (v : pyval) : result (list pyval) :=
  match v with
  | PList l => Ok l
  | PDict m => Ok (map (fun p => PStr (fst p)) m)
  | PStr s => Ok (map (fun c => PStr (String c "")) (String.list_ascii_of_string s))
  | _ => Raise (TypeError "object is not iterable")
  end.

(** [_apply_record], on the pending events and the ids seen. *)
Definition apply_record (state : list Envelope * list string) (record : dict) : result (list Envelope * list string) :=
  let operation := py_str (py_or (dget "op" record) (PStr "snapshot")) in
  if String.eqb operation "snapshot" then
    seen ← items_of (default (PList []) (dlookup "seen_event_ids" record));
    items ← items_of (default (PList []) (dlookup "pending" record));
    pending ← mapR envelope_from_payload items;
    Ok (pending, fold_left see (event_ids pending) (fold_left see (map py_str seen) []))
  else if String.eqb operation "append" then
    envelope ← field "event" record ≫= envelope_from_payload;
    if str_in (en_event_id envelope) (snd state) then Ok state
    else Ok ((fst state ++ [envelope])%list, (snd state ++ [en_event_id envelope])%list)
  else Raise (ValueError ("unknown execution spool operation: " +:+ operation)).

Definition append_record (e : Envelope) : dict := [("op", PStr "append"); ("event", PDict (envelope_to_payload e))].

Definition snapshot_record (pending : list Envelope) (seen : list string) : dict :=
  [("op", PStr "snapshot"); ("schema_version", PStr "2.0"); ("seen_event_ids", PList (map PStr seen));
   ("pending", PList (map (fun e => PDict (envelope_to_payload e)) pending))].

(** [self._last_append_size] over the records that are read. *)
Definition append_size (last : Z) (record : dict) : result Z :=
  match dget "op" record with
  | PStr "append" => encoded ← encode_record record; Ok (Z.max last (size_of encoded))
  | _ => Ok last
  end.

Section spool.
Context (max_bytes seen_event_limit : Z).

(** [n / m] of integers: the nearest float. *)
Definition int_ratio (n m : Z) : xdec :=
  if n =? 0 then XFin dzero else
  let e := Z.max (floor_log2 n m - 52) (-1074) in
  XFin (shortest (rdiv ROUND_HALF_EVEN (n * 2 ^ Z.max 0 (- e)) (m * 2 ^ Z.max 0 e), e)).

(** [usage_ratio] and [is_degraded] *)
Definition usage_ratio (s : Spool) : xdec := int_ratio (sp_size s) max_bytes.

Definition is_degraded (degraded_ratio : xdec) (s : Spool) : bool :=
  fgeb (usage_ratio s) degraded_ratio || ((0 <? sp_last_append s) && (max_bytes <? sp_size s + sp_last_append s)).

(** What [__init__] accepts. *)
Definition check_limits (degraded_ratio : xdec) : result unit :=
  if max_bytes <? 1 then Raise (ValueError "max_bytes must be positive")
  else if fgeb (XFin dzero) degraded_ratio || fgeb degraded_ratio (XFin (Dec 1 0))
       then Raise (ValueError "degraded_ratio must be between zero and one")
  else if seen_event_limit <? 1 then Raise (ValueError "seen_event_limit must be positive")
  else Ok tt.

(** [_compact_seen_event_ids] *)
Definition compact_seen_event_ids (pending : list Envelope) (seen : list string) : list string :=
  let acked := List.filter (fun id => negb (str_in id (event_ids pending))) seen in
  let retained := drop (length acked - Z.to_nat seen_event_limit) acked in
  fold_left see (event_ids pending) retained.

(** [_assert_capacity_bytes] *)
Definition assert_capacity_bytes (size : Z) : M Spool unit :=
  if size <=? max_bytes then mret tt
  else mraise (CapacityError ("execution event spool capacity exceeded: " +:+ int_str size +:+ " > "
                              +:+ int_str max_bytes +:+ " bytes")).

(** [_append_encoded] *)
Definition append_encoded (encoded : string) : M Spool unit :=
  mmodify (fun s => {| sp_file := Some (default "" (sp_file s) +:+ encoded); sp_pending := sp_pending s;
                       sp_seen := sp_seen s; sp_size := sp_size s; sp_last_append := sp_last_append s |}).

(** [_save_encoded] and [_truncate_torn_tail]: the text of the file. *)
Definition save_encoded (encoded : string) : M Spool unit :=
  mmodify (fun s => {| sp_file := Some encoded; sp_pending := sp_pending s;
                       sp_seen := sp_seen s; sp_size := sp_size s; sp_last_append := sp_last_append s |}).

Definition truncate_torn_tail (durable_size : Z) : M Spool unit :=
  mmodify (fun s => {| sp_file := String.substring 0 (Z.to_nat durable_size) <$> sp_file s; sp_pending := sp_pending s;
                       sp_seen := sp_seen s; sp_size := sp_size s; sp_last_append := sp_last_append s |}).

Definition set_memory (pending : list Envelope) (seen : list string) (size last : Z) : M Spool unit :=
  mmodify (fun s => {| sp_file := sp_file s; sp_pending := pending; sp_seen := seen; sp_size := size;
                       sp_last_append := last |}).

(** [_commit_state] *)
Definition commit_state (pending : list Envelope) (seen : list string) : M Spool unit :=
  let compacted := compact_seen_event_ids pending seen in
  encoded ← mlift (encode_record (snapshot_record pending compacted));
  _ ← assert_capacity_bytes (size_of encoded);
  _ ← save_encoded encoded;
  s ← mget;
  set_memory pending compacted (size_of encoded) (sp_last_append s).

Definition append_once (e : Envelope) : M Spool bool :=
  s ← mget;
  if str_in (en_event_id e) (sp_seen s) then mret false
  else
    encoded ← mlift (encode_record (append_record e));
    _ ← assert_capacity_bytes (sp_size s + size_of encoded);
    _ ← append_encoded encoded;
    _ ← set_memory (sort_events (sp_pending s ++ [e])) (see (sp_seen s) (en_event_id e))
                   (sp_size s + size_of encoded) (Z.max (sp_last_append s) (size_of encoded));
    mret true.

(** [pending_events(limit)] *)
Definition pending_events (limit : option Z) (s : Spool) : list Envelope :=
  match limit with
  | None => sp_pending s
  | Some n => if n <? 0 then take (length (sp_pending s) - Z.to_nat (- n)) (sp_pending s)
              else take (Z.to_nat n) (sp_pending s)
  end.

Definition mark_acked (acked : list string) : M Spool unit :=
  match acked with
  | [] => mret tt
  | _ =>
      s ← mget;
      commit_state (List.filter (fun e => negb (str_in (en_event_id e) acked)) (sp_pending s)) (sp_seen s)
  end.

(** [_load], on the state that [__init__] has cleared. *)
Definition load : M Spool unit :=
  s ← mget;
  match sp_file s with
  | None | Some EmptyString => mret tt
  | Some encoded =>
      '(records, legacy_snapshot, durable_size) ← mlift (decode_records encoded);
      _ ← (if durable_size <? size_of encoded then truncate_torn_tail durable_size else mret tt);
      last ← mlift (foldR append_size (sp_last_append s) records);
      '(pending, seen) ← mlift (foldR apply_record (sp_pending s, sp_seen s) records);
      let compacted := compact_seen_event_ids pending seen in
      let needs_compaction := negb (bool_decide (compacted = seen)) in
      let pending := sort_events pending in
      let size := Z.min durable_size (size_of encoded) in
      _ ← assert_capacity_bytes size;
      _ ← set_memory pending compacted size last;
      if (legacy_snapshot : bool) || needs_compaction then commit_state pending compacted else mret tt
  end.

(** [__init__] over the file that is there. *)
Definition opened (file : option string) : Spool :=
  {| sp_file := file; sp_pending := []; sp_seen := []; sp_size := 0; sp_last_append := 0 |}.

Definition open_spool (file : option string) : result unit * Spool := load (opened file).

(** What a crash leaves of the file when it interrupts [append_once] after
    [n] bytes of the record were written. *)
Definition interrupted (e : Envelope) (n : nat) (s : Spool) : option string :=
  if str_in (en_event_id e) (sp_seen s) then sp_file s
  else match encode_record (append_record e) with
       | Raise _ => sp_file s
       | Ok encoded =>
           if sp_size s + size_of encoded <=? max_bytes
           then Some (default "" (sp_file s) +:+ String.substring 0 n encoded)
           else sp_file s
       end.

(** The operations, and the crashes between and within them. *)
Inductive spool_call :=
  | Append (e : Envelope)
  | Ack (event_ids : list string)
  | Reopen
  | Crash (e : Envelope) (n : nat).

Definition perform (c : spool_call) (s : Spool) : result bool * Spool :=
  match c with
  | Append e => append_once e s
  | Ack ids => (_ ← mark_acked ids; mret true) s
  | Reopen => (fun p => (fst p ≫= fun _ => Ok true, snd p)) (open_spool (sp_file s))
  | Crash e n => (fun p => (fst p ≫= fun _ => Ok true, snd p)) (open_spool (interrupted e n s))
  end.

Definition run (calls : list spool_call) (s : Spool) : Spool := fold_left (fun s c => snd (perform c s)) calls s.

Definition new_spool : Spool := opened None.
End spool.

(** ** UUIDs and times are read back *)

Lemma substring_join n m k s :
  String.substring n m s +:+ String.substring (n + m) k s = String.substring n (m + k) s.
Proof.
  revert n m k. induction s as [|c s IH]; intros [|n] [|m] [|k]; simpl; try done;
    rewrite ?sapp_cons, ?sapp_nil_l; try done; f_equal; try apply (IH 0%nat).
  all: first [apply (IH n 0%nat) | apply (IH n (S m))].
Qed.

Lemma sforall_substring p n m s : sforall p s = true -> sforall p (String.substring n m s) = true.
Proof.
  revert n m. induction s as [|c s IH]; intros [|n] [|m] H; try done; cbn [String.substring]; simpl in *; bprop;
    rewrite ?H; simpl; auto.
Qed.

Lemma sfilter_app p a b : sfilter p (a +:+ b) = sfilter p a +:+ sfilter p b.
Proof. induction a as [|c a IH]; [done|]. rewrite sapp_cons. simpl. rewrite IH. by destruct (p c). Qed.

Lemma substring_whole s : String.substring 0 (String.length s) s = s.
Proof. induction s as [|c s IH]; simpl; [done | by f_equal]. Qed.

Definition hex_or_dash (c : ascii) : bool := is_hex c || Ascii.eqb c "-".

Lemma remove_sub_none p c p' s :
  p = String c p' -> sforall (fun d => negb (Ascii.eqb d c)) s = true -> remove_sub p 0 s = s.
Proof.
  intros ->. induction s as [|d s IH]; [done|]. intros H. simpl in H. bprop. cbn [remove_sub starts_with].
  rewrite Ascii.eqb_sym. rewrite H. simpl. by rewrite IH.
Qed.

Lemma rstrip_by_none p s : sforall (fun d => negb (p d)) s = true -> rstrip_by p s = s.
Proof.
  induction s as [|d s IH]; [done|]. intros H. simpl in *. bprop. rewrite IH by done. rewrite H. by rewrite andb_false_r.
Qed.

Lemma uuid_text_dashes h : String.length h = 32%nat -> sforall is_hex h = true ->
  sforall hex_or_dash (uuid_text h) = true /\ sfilter (fun c => negb (Ascii.eqb c "-")) (uuid_text h) = h /\ lower h = h.
Proof.
  intros L H. assert (D : forall s, sforall is_hex s = true ->
    sforall hex_or_dash s = true /\ sfilter (fun c => negb (Ascii.eqb c "-")) s = s /\ lower s = s).
  { clear. intros s. induction s as [|c s IH]; [done|]. intros E. simpl in E. bprop. destruct (IH H0) as (A & B & C). simpl.
    unfold lower in *. simpl.
    assert (X : hex_or_dash c = true /\ Ascii.eqb c "-" = false /\ lower_char c = c)
      by (clear -H; by destruct c as [[] [] [] [] [] [] [] []]).
    destruct X as (-> & -> & ->). simpl. by rewrite A, B, C. }
  destruct (D h H) as (_ & _ & Lw). split_and!; [| |done].
  - unfold uuid_text. rewrite !sforall_app.
    rewrite !(fun n m => proj1 (D _ (sforall_substring is_hex n m h H))). done.
  - unfold uuid_text. rewrite !sfilter_app, !(fun n m => proj1 (proj2 (D _ (sforall_substring is_hex n m h H)))). simpl.
    rewrite !sapp_nil_l, (substring_join 16 4 12), (substring_join 12 4 16), (substring_join 8 4 20), (substring_join 0 8 24).
    transitivity (String.substring 0 (String.length h) h); [by rewrite L | apply substring_whole].
Qed.

Lemma uuid_of_text h : uuid_digits h = true -> uuid_of (uuid_text h) = Ok h.
Proof.
  unfold uuid_digits. intros H. bprop. apply Nat.eqb_eq in H. destruct (uuid_text_dashes h H H0) as (D & F & L).
  unfold uuid_of, uuid_hex.
  rewrite (remove_sub_none "urn:" "u" "rn:"), (remove_sub_none "uuid:" "u" "uid:"); try done;
    try (eapply sforall_impl; [|exact D]; intros c; clear; by destruct c as [[] [] [] [] [] [] [] []]).
  assert (B : sforall (fun d => negb (is_brace d)) (uuid_text h) = true)
    by (eapply sforall_impl; [|exact D]; intros c; clear; by destruct c as [[] [] [] [] [] [] [] []]).
  assert (Lb : lstrip_by is_brace (uuid_text h) = uuid_text h).
  { destruct (uuid_text h) as [|c s]; [done|]. simpl in *. bprop. by rewrite H1. }
  rewrite Lb, rstrip_by_none, F, L by done. rewrite H, H0. done.
Qed.

Lemma datetime_from_iso_isoformat t : representable t = true -> datetime_from_iso (PStr (isoformat t)) = Ok t.
Proof. apply ensure_aware_isoformat. Qed.

(** ** The order of events *)

Lemma string_compare_eq a b : String.compare a b = Eq -> a = b.
Proof. apply String.compare_eq_iff. Qed.

Lemma event_compare_flip a b : event_compare b a = CompOpp (event_compare a b).
Proof.
  unfold event_compare. rewrite (Z.compare_antisym (en_ts_event a)).
  destruct (en_ts_event a ?= en_ts_event b); try done. simpl.
  rewrite (Z.compare_antisym (event_type_order (en_event_type a))).
  destruct (event_type_order (en_event_type a) ?= event_type_order (en_event_type b)); try done. simpl.
  apply String.compare_antisym.
Qed.

Lemma event_le_total a b : event_le a b = true \/ event_le b a = true.
Proof. unfold event_le. rewrite (event_compare_flip a b). destruct (event_compare a b); simpl; auto. Qed.

Lemma event_le_key a b : event_le a b = true -> event_le b a = true -> en_event_id a = en_event_id b.
Proof.
  unfold event_le. rewrite (event_compare_flip a b). destruct (event_compare a b) eqn:C; simpl; try done. intros _ _.
  unfold event_compare in C. destruct (_ ?= _) in C; try done. destruct (_ ?= _) in C; try done. by apply string_compare_eq.
Qed.

Lemma compare_le_trans (a b c : string) :
  String.compare a b <> Gt -> String.compare b c <> Gt -> String.compare a c <> Gt.
Proof.
  intros H1 H2. destruct (String.compare a b) eqn:E1; [apply string_compare_eq in E1 as ->; done | | done].
  destruct (String.compare b c) eqn:E2; [apply string_compare_eq in E2 as <-; by rewrite E1 | | done].
  by rewrite (compare_lt_trans _ _ _ E1 E2).
Qed.

#[local] Instance event_le_trans : Transitive (fun a b => event_le a b = true).
Proof.
  intros a b c. unfold event_le.
  assert (L : forall x y, match event_compare x y with Gt => false | _ => true end = true <->
    en_ts_event x < en_ts_event y \/ (en_ts_event x = en_ts_event y /\
      (event_type_order (en_event_type x) < event_type_order (en_event_type y)
       \/ (event_type_order (en_event_type x) = event_type_order (en_event_type y)
           /\ String.compare (en_event_id x) (en_event_id y) <> Gt)))).
  { intros x y. unfold event_compare. destruct (Z.compare_spec (en_ts_event x) (en_ts_event y)) as [->|L|L].
    2,3: split; [intros; (done || by left) | intros; (done || lia)].
    destruct (Z.compare_spec (event_type_order (en_event_type x)) (event_type_order (en_event_type y))) as [->|L|L].
    - destruct (String.compare (en_event_id x) (en_event_id y)); split; try done; try (intros; right; split; [done|]; by right).
      intros [H|[_ [H|[_ H]]]]; [lia.. | done].
    - split; [intros; right; split; [done|]; by left | done].
    - split; [done | intros; lia]. }
  rewrite !L. intros [H1|[E1 [H1|[F1 H1]]]] [H2|[E2 [H2|[F2 H2]]]]; try (left; lia); right; (split; [lia|]); try (left; lia).
  right. split; [lia|]. by eapply compare_le_trans.
Qed.

Lemma sort_events_sorted l : StronglySorted (fun a b => event_le a b = true) (sort_events l).
Proof.
  unfold sort_events, sort_by. apply StronglySorted_merge_sort; [apply _|].
  intros a b. destruct (event_le_total a b); auto.
Qed.

Lemma sort_events_perm l : sort_events l ≡ₚ l.
Proof. apply sort_by_perm. Qed.

Lemma nodup_ids_eq l a b : NoDup (event_ids l) -> a ∈ l -> b ∈ l -> en_event_id a = en_event_id b -> a = b.
Proof.
  unfold event_ids. intros N A B E. apply list_elem_of_lookup in A as [i A], B as [j B].
  assert (i = j) as ->; [|congruence]. eapply NoDup_lookup; [exact N| |];
    rewrite list_lookup_fmap; rewrite ?A, ?B; simpl; rewrite ?E; done.
Qed.

(** Events with distinct ids have one order. *)
Lemma sorted_events_unique l l' :
  StronglySorted (fun a b => event_le a b = true) l -> StronglySorted (fun a b => event_le a b = true) l' ->
  l ≡ₚ l' -> NoDup (event_ids l) -> l = l'.
Proof.
  intros S S' P N. eapply StronglySorted_unique_strong; [|exact S | exact S' | exact P].
  intros a b A B L1 L2. rewrite <- P in B. apply (nodup_ids_eq l); try done. by apply event_le_key.
Qed.

(** ** Texts of one line *)

Definition inline (c : ascii) : bool := negb (Ascii.eqb c newline) && negb (Ascii.eqb c carriage_return).
Definition one_line (s : string) : bool := sforall inline s.

Lemma one_line_app a b : one_line (a +:+ b) = one_line a && one_line b.
Proof. apply sforall_app. Qed.

Lemma digits_one_line s : sforall is_digit s = true -> one_line s = true.
Proof. apply sforall_impl. intros c. by destruct c as [[] [] [] [] [] [] [] []]. Qed.

Lemma one_line_substring n m s : one_line s = true -> one_line (String.substring n m s) = true.
Proof. apply sforall_substring. Qed.

Lemma one_line_digits_of z : 0 <= z -> one_line (digits_of z) = true.
Proof. intros H. by apply digits_one_line, digits_of_digits. Qed.

Lemma one_line_float d : one_line (float_repr d) = true.
Proof.
  unfold float_repr. set (ds := digits_of (Z.abs (coef d))). assert (D : one_line ds = true) by (apply one_line_digits_of; lia).
  assert (Zs : forall k, one_line (zeros k) = true) by (intros; apply digits_one_line, zeros_digits).
  rewrite one_line_app. apply andb_true_iff. split; [by destruct (_ <? 0)|].
  destruct (_ && _); rewrite ?one_line_app.
  - unfold layout. apply andb_true_iff. split; [|by destruct (0 <=? dexp d)].
    destruct (_ <=? 0); [|destruct (_ <=? _)]; rewrite ?one_line_app, ?Zs, ?D; try done.
    by rewrite !one_line_substring by done.
  - rewrite one_line_substring by done. rewrite (one_line_digits_of (Z.abs _)) by lia.
    assert (X : one_line (if (1 <? String.length ds)%nat then "." +:+ String.substring 1 (String.length ds - 1) ds else "") = true).
    { destruct (1 <? _)%nat; [|done]. rewrite one_line_app. by rewrite one_line_substring. }
    rewrite X. by destruct (_ <? 0), (_ <? 10).
Qed.

Lemma one_line_escape s : one_line (escape s) = true.
Proof.
  induction s as [|c s IH]; [done|]. cbn [escape]. rewrite one_line_app, IH, andb_true_r.
  by destruct c as [[] [] [] [] [] [] [] []].
Qed.

Lemma one_line_str s : one_line (dumps_str s) = true.
Proof.
  unfold dumps_str. change (String quote (escape s +:+ String quote "")) with (String quote "" +:+ (escape s +:+ String quote "")).
  by rewrite !one_line_app, one_line_escape.
Qed.

Lemma one_line_join l : Forall (fun s => one_line s = true) l -> one_line (join "," l) = true.
Proof.
  induction 1 as [|s l H F IH]; [done|]. destruct l as [|t l]; [done|]. 
  change (join "," (s :: t :: l)) with (s +:+ "," +:+ join "," (t :: l)). by rewrite !one_line_app, H, IH.
Qed.

Lemma one_line_dumps v : Normal v -> one_line (dumps v) = true.
Proof.
  induction v as [|b|z|d|x|s|l IH|m IH] using pyval_nested; intros N; cbn [dumps]; try done.
  - by destruct b.
  - unfold int_str. rewrite one_line_app, one_line_digits_of by lia. by destruct (_ <? 0).
  - apply one_line_float.
  - by inversion N.
  - apply one_line_str.
  - inversion N as [| | | | |? F|]; subst. rewrite !one_line_app, one_line_join; [done|]. rewrite Forall_map.
    apply Forall_forall. intros v J. rewrite Forall_forall in IH, F. auto.
  - inversion N as [| | | | | |? F _]; subst. rewrite !one_line_app, one_line_join; [done|]. rewrite Forall_map.
    apply Forall_forall. intros p J. rewrite Forall_forall in IH, F. rewrite !one_line_app, one_line_str. simpl. auto.
Qed.

(** ** Floats survive the normal form *)

Lemma floats_kinsert k v d :
  floats_ok v = true -> forallb (fun p => floats_ok (snd p)) d = true ->
  forallb (fun p => floats_ok (snd p)) (kinsert k v d) = true.
Proof.
  intros V D. rewrite forallb_forall in *.
  assert (F : Forall (fun p => floats_ok (snd p) = true) (kinsert k v d)).
  { apply Forall_kinsert; [done|]. apply Forall_forall. intros q Q. apply D. by apply list_elem_of_In. }
  intros p J. apply list_elem_of_In in J. rewrite Forall_forall in F. by apply F.
Qed.

Lemma floats_norm v w : json_norm v = Ok w -> floats_ok v = true -> floats_ok w = true.
Proof.
  revert w. induction v as [|b|z|d|x|s|l IH|m IH] using pyval_nested; intros w H F; simpl in H; simplify_eq; try done.
  - destruct (mapR json_norm l) as [l'|] eqn:E; [|done]. cbn [mbind result_bind] in H. injection H as <-. apply mapR_inv in E.
    simpl in *. induction E as [|v v' l l' Hv E IHl]; [done|]. simpl in *. inversion IH; subst. bprop.
    rewrite IHl by done. by rewrite (H1 _ Hv).
  - destruct (mapR _ m) as [m'|] eqn:E; [|done]. cbn [mbind result_bind] in H. injection H as <-. apply mapR_inv in E.
    cbn [floats_ok] in *. induction E as [|p q m m' Hp E IHm]; [done|]. simpl in F. bprop. inversion IH; subst.
    destruct (json_norm (snd p)) as [v'|] eqn:V; [|done]. cbn [mbind result_bind] in Hp. injection Hp as <-.
    cbn [sort_keys fold_right]. apply floats_kinsert; [by apply H3 | by apply IHm].
Qed.

(** ** The log is read back *)

Lemma splitlines_line d t : one_line d = true -> splitlines (line d +:+ t) = line d :: splitlines t.
Proof.
  unfold line. induction d as [|c d IH]; intros H; [done|]. unfold one_line in *. simpl in H. bprop.
  rewrite !sapp_cons. cbn [splitlines]. unfold inline in H. bprop. rewrite H, H1. by rewrite IH.
Qed.

Lemma splitlines_tail p : one_line p = true -> splitlines p = if is_empty p then [] else [p].
Proof.
  induction p as [|c p IH]; intros H; [done|]. unfold one_line in *. simpl in H. bprop. cbn [splitlines]. unfold inline in H.
  bprop. rewrite H, H1, IH by done. by destruct p.
Qed.

Lemma cut_newline_line d : one_line d = true -> cut_newline (line d) = Some d.
Proof.
  unfold line. induction d as [|c d IH]; intros H; [done|]. unfold one_line in *. simpl in H. bprop.
  rewrite sapp_cons. cbn [cut_newline]. rewrite IH by done. by destruct d.
Qed.

Lemma cut_newline_none p : one_line p = true -> cut_newline p = None.
Proof.
  induction p as [|c p IH]; intros H; [done|]. unfold one_line in *. simpl in H. bprop. cbn [cut_newline]. rewrite IH by done.
  destruct p; [|done]. unfold inline in H. bprop. by rewrite H.
Qed.

Lemma prefix_cases (p q d : string) c : p +:+ q = d +:+ String c "" -> q <> "" -> exists q', d = p +:+ q'.
Proof.
  revert d. induction p as [|a p IH]; intros d E Q; [by exists d|]. rewrite sapp_cons in E.
  destruct d as [|b d].
  - rewrite sapp_nil_l in E. injection E as _ E. destruct p; [by rewrite sapp_nil_l in E | done].
  - rewrite sapp_cons in E. injection E as <- E. destruct (IH _ E Q) as [q' ->]. by exists q'.
Qed.

(** A record that the spool can have written. *)
Record good_record (r : dict) : Prop := {
  gr_normal : Normal (PDict r);
  gr_floats : floats_ok (PDict r) = true;
  gr_op : dmem "op" r = true }.

Definition record_line (r : dict) : string := line (dumps (PDict r)).

Fixpoint log_text (records : list dict) : string :=
  match records with
  | [] => ""
  | r :: records => record_line r +:+ log_text records
  end.

(** What a cut append leaves after the last record. *)
Definition torn (p : string) : Prop := exists r q, good_record r /\ p +:+ q = record_line r /\ q <> "".

Lemma log_text_app rs rs' : log_text (rs ++ rs') = log_text rs +:+ log_text rs'.
Proof. induction rs as [|r rs IH]; simpl; [done|]. by rewrite IH, sapp_assoc. Qed.

Lemma torn_prefix p : torn p -> exists r q, good_record r /\ dumps (PDict r) = p +:+ q.
Proof. intros (r & q & G & E & Q). apply prefix_cases in E as [q' E']; eauto. Qed.

Lemma torn_one_line p : torn p -> one_line p = true.
Proof.
  intros T. destruct (torn_prefix _ T) as (r & q & [N _ _] & E). pose proof (one_line_dumps _ N) as L.
  rewrite E, one_line_app in L. by bprop.
Qed.

Lemma dict_head r : exists s, dumps (PDict r) = String "{" s.
Proof. cbn [dumps]. rewrite sapp_cons. eauto. Qed.

Lemma record_head r : exists s, record_line r = String "{" s.
Proof. unfold record_line, line. destruct (dict_head r) as [s ->]. rewrite sapp_cons. eauto. Qed.

Lemma torn_head p : torn p -> p = "" \/ exists s, p = String "{" s.
Proof.
  intros T. destruct (torn_prefix _ T) as (r & q & _ & E). destruct (dict_head r) as [s D]. rewrite D in E.
  destruct p as [|c p]; [by left|]. right. rewrite sapp_cons in E. injection E as <- _. eauto.
Qed.

Lemma loads_line r : good_record r -> loads (record_line r) = Some (PDict r).
Proof. intros [N F _]. by apply loads_dumps. Qed.

Lemma loads_bare r : good_record r -> loads (dumps (PDict r)) = Some (PDict r).
Proof. intros [N F _]. rewrite <- (sapp_nil_r (dumps _)). by apply loads_dumps. Qed.

(** The first record followed by anything but white space. *)
Lemma loads_more r s : good_record r -> loads (record_line r +:+ String "{" s) = None.
Proof.
  intros [N F _]. unfold record_line, line. rewrite sapp_assoc, sapp_cons, sapp_nil_l. by apply loads_two.
Qed.

Lemma decode_lines_log i rs p :
  Forall good_record rs -> torn p -> decode_lines i (splitlines (log_text rs +:+ p)) = Ok (rs, size_of (log_text rs)).
Proof.
  intros G T. pose proof (torn_one_line _ T) as L. revert i. induction G as [|r rs G F IH]; intros i; cbn [log_text].
  - rewrite sapp_nil_l, splitlines_tail by done. destruct (is_empty p) eqn:E; [done|]. cbn [decode_lines]. by rewrite cut_newline_none.
  - pose proof (one_line_dumps _ (gr_normal _ G)) as D. rewrite sapp_assoc. unfold record_line.
    rewrite splitlines_line by done. cbn [decode_lines]. rewrite cut_newline_line by done.
    destruct (dict_head r) as [s Hs]. rewrite loads_bare by done. rewrite Hs at 1. cbn [is_empty].
    rewrite IH. cbn [mbind result_bind]. unfold size_of. rewrite slength_app. do 2 f_equal. lia.
Qed.

Lemma ends_newline d : ends_with (String newline "") (line d) = true.
Proof.
  unfold ends_with, line. rewrite slength_app. change (String.length (String newline "")) with 1%nat.
  apply andb_true_iff. split; [|apply Nat.leb_le; lia].
  replace (String.length d + 1 - 1)%nat with (String.length d) by lia.
  induction d as [|c d IH]; [done|]. rewrite sapp_cons. exact IH.
Qed.

Lemma no_newline_end p : one_line p = true -> ends_with (String newline "") p = false.
Proof.
  unfold ends_with. intros L. apply andb_false_iff. left. apply String.eqb_neq. intros E.
  pose proof (one_line_substring (String.length p - String.length (String newline "")) (String.length (String newline "")) p L) as X.
  by rewrite <- E in X.
Qed.

(** Whatever was cut, the records that were completed are read. *)
Lemma decode_log rs p :
  Forall good_record rs -> torn p -> log_text rs +:+ p <> "" ->
  decode_records (log_text rs +:+ p) = Ok (rs, false, size_of (log_text rs)).
Proof.
  intros G T N. assert (W : decode_wal_records (log_text rs +:+ p) = Ok (rs, false, size_of (log_text rs))).
  { unfold decode_wal_records. rewrite decode_lines_log by done. done. }
  unfold decode_records. destruct G as [|r rs G F].
  - cbn [log_text] in *. rewrite sapp_nil_l in *. destruct (torn_prefix _ T) as (r & q & G & E). destruct q as [|c q].
    + rewrite sapp_nil_r in E. rewrite <- E, loads_bare by done. rewrite (gr_op _ G). cbn [negb].
      rewrite no_newline_end by (by rewrite E; apply torn_one_line). done.
    + rewrite (loads_cut r p (String c q)); [done | apply G | apply G | done | done].
  - cbn [log_text] in *. destruct rs as [|r' rs].
    + cbn [log_text] in *. rewrite sapp_nil_r in *. destruct (torn_head _ T) as [->|[s ->]].
      * rewrite sapp_nil_r, loads_line by done. rewrite (gr_op _ G). cbn [negb]. unfold record_line at 1. by rewrite ends_newline.
      * rewrite loads_more by done. done.
    + cbn [log_text] in *. destruct (record_head r') as [s Hs]. rewrite Hs, !sapp_assoc, !sapp_cons in *. rewrite loads_more by done. done.
Qed.

(** ** Envelopes are read back *)

(** An envelope that the code can hold: pydantic has validated it, and its
    floats are the ones that their [repr] denotes. *)
Definition envelope_ok (e : Envelope) : bool :=
  String.eqb (en_schema_version e) "1.0" && negb (is_empty (en_event_id e)) && negb (is_empty (en_node_id e))
  && negb (is_empty (en_account_id e)) && negb (is_empty (en_event_type e))
  && match en_intent_id e with Some h => uuid_digits h | None => true end
  && representable (en_ts_event e) && representable (en_ts_ingest e) && floats_ok (PDict (en_payload e)).

(** [json.dumps] takes the payload. *)
Definition serialisable (e : Envelope) : bool := is_ok (json_norm (PDict (en_payload e))).

(** The envelope as it comes back: its payload with the keys in order. *)
Definition canonical (e : Envelope) : Envelope :=
  {| en_schema_version := en_schema_version e; en_event_id := en_event_id e; en_node_id := en_node_id e;
     en_account_id := en_account_id e; en_intent_id := en_intent_id e; en_client_order_id := en_client_order_id e;
     en_venue_order_id := en_venue_order_id e; en_trade_id := en_trade_id e; en_event_type := en_event_type e;
     en_ts_event := en_ts_event e; en_ts_ingest := en_ts_ingest e;
     en_payload := match json_norm (PDict (en_payload e)) with Ok v => as_dict v | Raise _ => en_payload e end |}.

Lemma norm_opt_str o : json_norm (opt_str o) = Ok (opt_str o).
Proof. by destruct o. Qed.

Lemma norm_opt m m' k o : json_norm (PDict m) = Ok (PDict m') -> dlookup k m = Some (opt_str o) -> dlookup k m' = Some (opt_str o).
Proof.
  intros N D. destruct (norm_lookup _ _ k N) as (m1 & E & L). injection E as <-. rewrite D, norm_opt_str in L.
  destruct L as (w & [= <-] & L). done.
Qed.

Lemma payload_norm e : serialisable e = true <-> exists m, json_norm (PDict (envelope_to_payload e)) = Ok (PDict m).
Proof.
  unfold serialisable. split.
  - intros S. destruct (json_norm (PDict (en_payload e))) as [w|] eqn:E; [|done]. apply norm_dict_all.
    unfold envelope_to_payload. repeat constructor; cbn [snd]; rewrite ?norm_opt_str, ?E; by eexists.
  - intros [m N]. destruct (norm_lookup _ _ "payload" N) as (m1 & _ & L).
    change (dlookup _ (envelope_to_payload e)) with (Some (PDict (en_payload e))) in L. cbv beta iota in L.
    destruct L as (w & -> & _). done.
Qed.

(** An envelope is read back from the document it was written to. *)
Lemma envelope_read e m :
  envelope_ok e = true -> json_norm (PDict (envelope_to_payload e)) = Ok (PDict m) ->
  envelope_from_payload (PDict m) = Ok (canonical e).
Proof.
  unfold envelope_ok. intros V N. bprop.
  assert (T : forall k s, dlookup k (envelope_to_payload e) = Some (PStr s) -> dlookup k m = Some (PStr s)) by eauto using norm_text.
  assert (O : forall k o, dlookup k (envelope_to_payload e) = Some (opt_str o) -> dlookup k m = Some (opt_str o)) by eauto using norm_opt.
  assert (P : exists w, json_norm (PDict (en_payload e)) = Ok (PDict w) /\ dlookup "payload" m = Some (PDict w)).
  { destruct (norm_lookup _ _ "payload" N) as (m1 & E & L). injection E as <-.
    change (dlookup _ (envelope_to_payload e)) with (Some (PDict (en_payload e))) in L. destruct L as (w & E & L).
    destruct (norm_lookup _ _ "" E) as (w' & -> & _). eauto. }
  assert (K : forallb (fun p => str_in (fst p) envelope_fields) m = true).
  { apply forallb_forall. intros p J. apply str_in_spec. apply (norm_keys _ _ _ N). apply list_elem_of_fmap. exists p.
    split; [done | by apply list_elem_of_In]. }
  assert (Rt : forall k s, dlookup k (envelope_to_payload e) = Some (PStr s) -> is_empty s = false -> required_text k m = Ok s).
  { intros k s D Ne. unfold required_text. rewrite (T _ _ D). by rewrite Ne. }
  assert (Ro : forall k o, dlookup k (envelope_to_payload e) = Some (opt_str o) -> optional_text k m = Ok o).
  { intros k o D. unfold optional_text. rewrite (O _ _ D). by destruct o. }
  unfold envelope_from_payload, field.
  rewrite (T "ts_event" _ eq_refl), (T "ts_ingest" _ eq_refl). cbn [mbind result_bind].
  rewrite !datetime_from_iso_isoformat by done. cbn [mbind result_bind].
  assert (I : match dget "intent_id" m with PNone => Ok None | v => Some <$> uuid_of (py_str v) end = Ok (en_intent_id e)).
  { unfold dget. rewrite (O "intent_id" _ eq_refl). cbn [default id].
    destruct (en_intent_id e) as [h|]; [|done]. simpl. by rewrite uuid_of_text. }
  rewrite I. cbn [mbind result_bind]. unfold make_envelope. rewrite K. cbn [negb].
  rewrite (T "schema_version" _ eq_refl), H. cbn [String.eqb Ascii.eqb Bool.eqb mbind result_bind].
  rewrite (Rt "event_id" _ eq_refl), (Rt "node_id" _ eq_refl), (Rt "account_id" _ eq_refl), (Rt "event_type" _ eq_refl) by done.
  rewrite (Ro "client_order_id" _ eq_refl), (Ro "venue_order_id" _ eq_refl), (Ro "trade_id" _ eq_refl). cbn [mbind result_bind].
  destruct P as (w & Ew & ->). cbn [mbind result_bind]. unfold canonical. by rewrite Ew, H.
Qed.

Lemma canonical_serialisable e : serialisable e = true -> serialisable (canonical e) = true /\ canonical (canonical e) = canonical e.
Proof.
  unfold serialisable, canonical. destruct (json_norm (PDict (en_payload e))) as [w|] eqn:E; [|done]. intros _. simpl en_payload.
  pose proof (json_norm_normal _ _ E) as N. destruct (norm_lookup _ _ "" E) as (m & -> & _). cbn [as_dict].
  by rewrite !normal_fixed.
Qed.

(** Its document is the one of the envelope. *)
Lemma canonical_payload e : serialisable e = true ->
  json_norm (PDict (envelope_to_payload (canonical e))) = json_norm (PDict (envelope_to_payload e)).
Proof.
  intros S. change (envelope_to_payload (canonical e)) with (take 11 (envelope_to_payload e) ++ [("payload", PDict (en_payload (canonical e)))])%list.
  change (envelope_to_payload e) with (take 11 (envelope_to_payload e) ++ [("payload", PDict (en_payload e))])%list at 2.
  set (front := take 11 _). clearbody front. cbn [json_norm]. erewrite mapR_last; [reflexivity|]. cbn [fst snd].
  cbn [canonical en_payload]. revert S. unfold serialisable. destruct (json_norm (PDict (en_payload e))) as [w|] eqn:E; [|done]. intros _.
  pose proof (json_norm_normal _ _ E) as N. destruct (norm_lookup _ _ "" E) as (m & -> & _). cbn [as_dict].
  by rewrite (normal_fixed (PDict m)).
Qed.

Lemma canonical_ok e : envelope_ok e = true -> envelope_ok (canonical e) = true.
Proof.
  unfold envelope_ok. rewrite !andb_true_iff. intros (H & F). split; [exact H|]. cbn [canonical en_payload].
  destruct (json_norm (PDict (en_payload e))) as [w|] eqn:E; [|done].
  destruct (norm_lookup _ _ "" E) as (m & -> & _). cbn [as_dict]. exact (floats_norm _ _ E F).
Qed.

(** ** Records are read back *)

Lemma envelope_floats e : envelope_ok e = true -> floats_ok (PDict (envelope_to_payload e)) = true.
Proof.
  unfold envelope_ok. rewrite !andb_true_iff. intros (_ & F).
  unfold envelope_to_payload. cbn [floats_ok forallb snd].
  assert (O : forall o, floats_ok (opt_str o) = true) by (by intros [?|]). rewrite ?O. cbn [floats_ok] in F. by rewrite F.
Qed.

Lemma foldR_app {A B} (f : B -> A -> result B) b l l' : foldR f b (l ++ l') = (foldR f b l ≫= fun b => foldR f b l').
Proof. revert b. induction l as [|x l IH]; intros b; simpl; [done|]. destruct (f b x); simpl; auto. Qed.

Lemma encode_inv payload encoded :
  encode_record payload = Ok encoded -> exists r, json_norm (PDict payload) = Ok (PDict r) /\ encoded = record_line r.
Proof.
  unfold encode_record. destruct (json_norm (PDict payload)) as [w|] eqn:E; [|done]. cbn [mbind result_bind]. intros [= <-].
  destruct (norm_lookup _ _ "" E) as (r & -> & _). by exists r.
Qed.

Lemma append_size_ok last r : Normal (PDict r) -> exists n, append_size last r = Ok n.
Proof.
  intros N. unfold append_size. destruct (dget "op" r) as [| | | | |s| |]; eauto.
  assert (X : exists n, (encoded ← encode_record r; Ok (Z.max last (size_of encoded))) = Ok n).
  { unfold encode_record. rewrite normal_fixed by done. cbn [mbind result_bind]. eauto. }
  repeat (destruct s as [|[[] [] [] [] [] [] [] []] s]; eauto).
Qed.

(** What is written for an event, and how it is read. *)
Lemma append_written e encoded :
  envelope_ok e = true -> encode_record (append_record e) = Ok encoded ->
  exists r, encoded = record_line r /\ good_record r /\ serialisable e = true
    /\ forall state, apply_record state r =
         Ok (if str_in (en_event_id e) (snd state) then state
             else ((fst state ++ [canonical e])%list, (snd state ++ [en_event_id e])%list)).
Proof.
  intros V H. destruct (encode_inv _ _ H) as (r & E & ->). exists r. split; [done|].
  assert (L : exists m, json_norm (PDict (envelope_to_payload e)) = Ok (PDict m) /\ dlookup "event" r = Some (PDict m)).
  { destruct (norm_lookup _ _ "event" E) as (r' & R & L). injection R as <-.
    change (dlookup "event" (append_record e)) with (Some (PDict (envelope_to_payload e))) in L. destruct L as (w & N & L).
    destruct (norm_lookup _ _ "" N) as (m & -> & _). eauto. }
  destruct L as (m & N & L). pose proof (norm_text _ _ "op" "append" E eq_refl) as Op.
  split_and!.
  - split; [by eapply json_norm_normal | | by unfold dmem; rewrite Op].
    apply (floats_norm _ _ E). pose proof (envelope_floats _ V) as F. cbn [append_record floats_ok forallb snd andb] in *. by rewrite F.
  - apply payload_norm. eauto.
  - intros state. unfold apply_record, dget. rewrite Op. cbn [default id py_or truthy is_empty negb py_str String.eqb Ascii.eqb Bool.eqb].
    unfold field. rewrite L. cbn [mbind result_bind]. rewrite (envelope_read _ _ V N). cbn [mbind result_bind].
    cbn [canonical en_event_id]. by destruct (str_in _ _).
Qed.

Lemma append_writable e : serialisable e = true -> exists encoded, encode_record (append_record e) = Ok encoded.
Proof.
  intros S. apply payload_norm in S as [m N]. destruct (norm_dict_all (append_record e)) as [r E].
  - repeat constructor; cbn [snd]; rewrite ?N; by eexists.
  - unfold encode_record. rewrite E. by eexists.
Qed.

(** ** The ids that were seen *)

Lemma fold_see l seen : NoDup (seen ++ l) -> fold_left see l seen = (seen ++ l)%list.
Proof.
  revert seen. induction l as [|id l IH]; intros seen N; simpl; [by rewrite app_nil_r|].
  assert (U : str_in id seen = false).
  { apply str_in_false. intros J. apply NoDup_app in N as (_ & D & _). apply (D _ J). left. }
  unfold see at 2. rewrite U. rewrite IH; by rewrite <- app_assoc.
Qed.

Lemma fold_see_known l seen : (forall id, id ∈ l -> id ∈ seen) -> fold_left see l seen = seen.
Proof.
  induction l as [|id l IH]; intros K; simpl; [done|]. unfold see at 2.
  rewrite (proj2 (str_in_spec id seen)) by (apply K; left). apply IH. intros. apply K. by right.
Qed.

Definition unacked (ids : list string) (id : string) : bool := negb (str_in id ids).

(** What was written for a snapshot, and how it is read. *)
Lemma snapshot_written pending seen :
  Forall (fun e => envelope_ok e = true /\ serialisable e = true) pending -> NoDup seen ->
  exists r, encode_record (snapshot_record pending seen) = Ok (record_line r) /\ good_record r
    /\ forall state, apply_record state r = Ok (map canonical pending, fold_left see (event_ids pending) seen).
Proof.
  intros G N.
  assert (X : exists l, mapR json_norm (map (fun e => PDict (envelope_to_payload e)) pending) = Ok l
                /\ mapR envelope_from_payload l = Ok (map canonical pending)
                /\ forallb floats_ok (map (fun e => PDict (envelope_to_payload e)) pending) = true).
  { clear N. induction G as [|e pending [V S] G IH]; [by exists []|]. destruct IH as (l & E & R & F).
    apply payload_norm in S as [m N]. exists (PDict m :: l). cbn [map mapR forallb]. rewrite N. cbn [mbind result_bind].
    rewrite E, (envelope_floats _ V), F. cbn [mbind result_bind mapR]. rewrite (envelope_read _ _ V N). cbn [mbind result_bind].
    by rewrite R. }
  destruct X as (l & E & R & F).
  destruct (norm_dict_all (snapshot_record pending seen)) as [r H].
  { repeat constructor; cbn [snd]; [by eexists..| |].
    - cbn [json_norm]. rewrite mapR_id; [by eexists|]. apply Forall_map, Forall_forall. done.
    - cbn [json_norm]. rewrite E. by eexists. }
  exists r. split; [unfold encode_record; by rewrite H|].
  pose proof (norm_text _ _ "op" "snapshot" H eq_refl) as Op.
  assert (Ls : dlookup "seen_event_ids" r = Some (PList (map PStr seen))).
  { destruct (norm_lookup _ _ "seen_event_ids" H) as (r' & Rr & L). injection Rr as <-.
    change (dlookup _ (snapshot_record pending seen)) with (Some (PList (map PStr seen))) in L. destruct L as (w & Hw & ->).
    cbn [json_norm] in Hw. rewrite mapR_id in Hw; [by injection Hw as <-|]. apply Forall_map, Forall_forall. done. }
  assert (Lp : dlookup "pending" r = Some (PList l)).
  { destruct (norm_lookup _ _ "pending" H) as (r' & Rr & L). injection Rr as <-.
    change (dlookup _ (snapshot_record pending seen)) with (Some (PList (map (fun e => PDict (envelope_to_payload e)) pending))) in L.
    destruct L as (w & Hw & ->). cbn [json_norm] in Hw. rewrite E in Hw. by injection Hw as <-. }
  split.
  - split; [by eapply json_norm_normal | | by unfold dmem; rewrite Op].
    apply (floats_norm _ _ H). cbn [snapshot_record floats_ok forallb snd andb]. rewrite F, andb_true_r.
    clear. by induction seen.
  - intros state. unfold apply_record, dget. rewrite Op. cbn [default id py_or truthy is_empty negb py_str String.eqb Ascii.eqb Bool.eqb].
    rewrite Ls, Lp. cbn [default id items_of mbind result_bind]. rewrite R. cbn [mbind result_bind].
    rewrite map_map. cbn [py_str]. rewrite map_id, (fold_see seen []) by done. cbn [app].
    do 3 f_equal. unfold event_ids. rewrite map_map. done.
Qed.

(** ** The invariant *)

Lemma canonical_ids events : event_ids (map canonical events) = event_ids events.
Proof. unfold event_ids. rewrite map_map. done. Qed.

Lemma canonical_key a b : event_le (canonical a) (canonical b) = event_le a b.
Proof. done. Qed.

Lemma canonical_sorted l :
  StronglySorted (fun a b => event_le a b = true) l -> StronglySorted (fun a b => event_le a b = true) (map canonical l).
Proof. induction 1 as [|a l S IH F]; simpl; constructor; [done|]. rewrite Forall_map. exact F. Qed.

(** Sorting and writing commute. *)
Lemma sort_canonical l : NoDup (event_ids l) -> map canonical (sort_events l) = sort_events (map canonical l).
Proof.
  intros N. apply sorted_events_unique.
  - apply canonical_sorted, sort_events_sorted.
  - apply sort_events_sorted.
  - rewrite !sort_events_perm. done.
  - rewrite canonical_ids. unfold event_ids. rewrite sort_events_perm. exact N.
Qed.

Lemma filter_perm {A} (p : A -> bool) l l' : l ≡ₚ l' -> List.filter p l ≡ₚ List.filter p l'.
Proof.
  induction 1 as [|x l l' P IH|x y l|l l1 l2 P1 IH1 P2 IH2]; simpl; [done|..].
  - destruct (p x); by rewrite IH.
  - destruct (p x), (p y); done || apply perm_swap.
  - by rewrite IH1.
Qed.

Lemma filter_all {A} (p : A -> bool) l : (forall x, x ∈ l -> p x = true) -> List.filter p l = l.
Proof.
  induction l as [|x l IH]; intros H; simpl; [done|]. rewrite (H x) by left. f_equal. apply IH. intros. apply H. by right.
Qed.

Lemma filter_out {A} (p : A -> bool) l : (forall x, x ∈ l -> p x = false) -> List.filter p l = [].
Proof.
  induction l as [|x l IH]; intros H; simpl; [done|]. rewrite (H x) by left. apply IH. intros. apply H. by right.
Qed.

Section invariant.
Context (max_bytes limit : Z) (M0 : 0 <= max_bytes).

Record spool_ok (s : Spool) (records : list dict) (logged : list Envelope) (acked : list string) : Prop := {
  so_file : default "" (sp_file s) = log_text records;
  so_size : sp_size s = size_of (log_text records);
  so_records : Forall good_record records;
  so_replay : foldR apply_record ([], []) records = Ok (logged, (acked ++ event_ids logged)%list);
  so_pending : map canonical (sp_pending s) ≡ₚ logged;
  so_sorted : StronglySorted (fun a b => event_le a b = true) (sp_pending s);
  so_seen : sp_seen s = (acked ++ event_ids logged)%list;
  so_nodup : NoDup (acked ++ event_ids logged);
  so_limit : (length acked <= Z.to_nat limit)%nat;
  so_good : Forall (fun e => envelope_ok e = true /\ serialisable e = true) (sp_pending s);
  so_fits : sp_size s <= max_bytes }.

Lemma so_ids s rs P A : spool_ok s rs P A -> event_ids (sp_pending s) ≡ₚ event_ids P.
Proof. intros I. rewrite <- canonical_ids. unfold event_ids. by rewrite (so_pending _ _ _ _ I). Qed.

Lemma so_distinct s rs P A : spool_ok s rs P A -> NoDup (event_ids (sp_pending s)).
Proof. intros I. rewrite (so_ids _ _ _ _ I). pose proof (so_nodup _ _ _ _ I) as N. apply NoDup_app in N. apply N. Qed.

Lemma new_spool_ok : spool_ok new_spool [] [] [].
Proof. split; cbn; try done; constructor || lia. Qed.

(** Compacting the ids of a spool changes nothing while there are few. *)
Lemma compact_few pending acked :
  NoDup (acked ++ event_ids pending) -> (length acked <= Z.to_nat limit)%nat ->
  compact_seen_event_ids limit pending (acked ++ event_ids pending) = (acked ++ event_ids pending)%list.
Proof.
  intros N L. unfold compact_seen_event_ids. rewrite List.filter_app, filter_all, filter_out, app_nil_r.
  - replace (length acked - Z.to_nat limit)%nat with 0%nat by lia. rewrite drop_0. by apply fold_see.
  - intros x J. apply negb_false_iff. by apply str_in_spec.
  - intros x J. apply negb_true_iff, str_in_false. intros K. apply NoDup_app in N as (_ & D & _). by apply (D x).
Qed.

(** The ids that are kept beside the pending ones. *)
Definition retained (pending : list Envelope) (seen : list string) : list string :=
  let acked := List.filter (unacked (event_ids pending)) seen in
  drop (length acked - Z.to_nat limit) acked.

Lemma compact_seen pending seen :
  NoDup seen -> NoDup (event_ids pending) ->
  compact_seen_event_ids limit pending seen = (retained pending seen ++ event_ids pending)%list
  /\ NoDup (retained pending seen ++ event_ids pending)
  /\ (length (retained pending seen) <= Z.to_nat limit)%nat.
Proof.
  intros N P. assert (D : NoDup (retained pending seen ++ event_ids pending)).
  { apply NoDup_app. unfold retained. split_and!; [| |done].
    - eapply sublist_NoDup; [|apply sublist_drop]. by apply NoDup_ListNoDup, List.NoDup_filter, NoDup_ListNoDup.
    - intros id J. apply (subseteq_drop _ _ id) in J. apply list_elem_of_In, filter_In in J as [_ J].
      unfold unacked in J. apply negb_true_iff in J. by apply str_in_false. }
  split_and!; [|done|].
  - unfold compact_seen_event_ids. fold (unacked (event_ids pending)). fold (retained pending seen). by apply fold_see.
  - unfold retained. rewrite length_drop. lia.
Qed.

(** ** Opening *)

Lemma append_sizes records last : Forall good_record records -> exists n, foldR append_size last records = Ok n.
Proof.
  intros G. revert last. induction G as [|r records G F IH]; intros last; simpl; [by eexists|].
  destruct (append_size_ok last r (gr_normal _ G)) as [n ->]. cbn [mbind result_bind]. apply IH.
Qed.

Lemma size_of_app a b : size_of (a +:+ b) = size_of a + size_of b.
Proof. unfold size_of. rewrite slength_app. lia. Qed.

(** A spool is opened again with what its log holds, whatever record was cut. *)
Lemma open_log s rs P A file p :
  spool_ok s rs P A -> default "" file = log_text rs +:+ p -> torn p ->
  exists s', open_spool max_bytes limit file = (Ok tt, s') /\ spool_ok s' rs P A
    /\ sp_pending s' = map canonical (sp_pending s) /\ sp_seen s' = sp_seen s /\ sp_size s' = sp_size s.
Proof.
  intros I F T. destruct I as [If Is Ir Ip Iq Io Ie In Il Ig Ix].
  assert (Dist : NoDup (event_ids P)) by (apply NoDup_app in In; apply In).
  assert (Sp : sort_events P = map canonical (sp_pending s)).
  { apply sorted_events_unique; [apply sort_events_sorted | by apply canonical_sorted | by rewrite sort_events_perm |].
    unfold event_ids. by rewrite sort_events_perm. }
  assert (Good : Forall (fun e => envelope_ok e = true /\ serialisable e = true) (sort_events P)).
  { rewrite Sp, Forall_map. eapply Forall_impl; [exact Ig|]. intros e [V S]. split; [by apply canonical_ok | by apply canonical_serialisable]. }
  assert (Can : map canonical (sort_events P) = sort_events P).
  { rewrite Sp, map_map. apply map_ext_Forall. eapply Forall_impl; [exact Ig|]. intros e [V S]. by apply canonical_serialisable. }
  unfold open_spool, load, opened, mget, mbind at 1, M_bind at 1. cbn [sp_file].
  destruct (decide (log_text rs +:+ p = "")) as [E|E].
  - assert (rs = []) as ->.
    { destruct rs as [|r rs]; [done|]. cbn [log_text] in E. destruct (record_head r) as [t Ht]. by rewrite Ht in E. }
    injection Ip as <- Ea. destruct A; [|done]. rewrite E in F.
    eexists. split; [destruct file as [[|c t]|]; [reflexivity | done | reflexivity]|].
    cbn [sp_pending sp_seen sp_size opened]. rewrite Is, Ie, <- Sp. split_and!; try done. split; cbn; try done; constructor || lia.
  - assert (Ff : exists t, file = Some t /\ t = log_text rs +:+ p /\ t <> "").
    { destruct file as [t|]; [exists t; cbn in F; by subst | by cbn in F; rewrite <- F in E]. }
    destruct Ff as (t & -> & Et & Nt). destruct t as [|c t]; [done|]. rewrite Et.
    rewrite decode_log by done. destruct (append_sizes rs 0 Ir) as [n Hn].
    assert (Sz : (size_of (log_text rs) <=? max_bytes) = true) by (apply Z.leb_le; lia).
    unfold mlift, mbind, M_bind, assert_capacity_bytes, set_memory, mmodify, truncate_torn_tail, mret, M_ret.
    cbv beta iota zeta. rewrite size_of_app, Z.min_l by (unfold size_of; lia).
    assert (Tr : String.substring 0 (Z.to_nat (size_of (log_text rs))) (log_text rs +:+ p) = log_text rs).
    { apply substring_app_l. unfold size_of. by rewrite Nat2Z.id. }
    destruct (size_of (log_text rs) <? size_of (log_text rs) + size_of p) eqn:C;
      cbn [sp_last_append sp_pending sp_seen sp_file]; rewrite Hn, Ip; rewrite compact_few by done;
      rewrite bool_decide_true by done; rewrite Sz; cbn [negb orb];
      (eexists; split; [reflexivity|]; cbn [sp_pending sp_seen sp_size]; split_and!; try done).
    + split; cbn [sp_file sp_pending sp_seen sp_size fmap option_fmap option_map default id]; try done; try lia.
      * rewrite Can. apply sort_events_perm.
      * apply sort_events_sorted.
    + assert (p = "") as -> by (destruct p; [done | apply Z.ltb_ge in C; unfold size_of in C; simpl in C; lia]).
      split; cbn [sp_file sp_pending sp_seen sp_size fmap option_fmap option_map default id]; try done; try lia.
      * by rewrite sapp_nil_r.
      * rewrite Can. apply sort_events_perm.
      * apply sort_events_sorted.
Qed.
End invariant.

(** ** What the spool promises *)

(** The state as its users see it. *)
Record spool_view := { vw_pending : list Envelope; vw_seen : list string; vw_size : Z }.

Definition view_of (s : Spool) : spool_view :=
  {| vw_pending := map canonical (sp_pending s); vw_seen := sp_seen s; vw_size := sp_size s |}.

Definition written_size (record : dict) : Z := match encode_record record with Ok t => size_of t | Raise _ => 0 end.

(** The event is pending, in its place, and known. *)
Definition added (e : Envelope) (v : spool_view) : spool_view :=
  {| vw_pending := sort_events (vw_pending v ++ [canonical e]); vw_seen := (vw_seen v ++ [en_event_id e])%list;
     vw_size := vw_size v + written_size (append_record e) |}.

Section promises.
Context (max_bytes limit : Z) (M0 : 0 <= max_bytes).

(** An event that is not known, that JSON can carry and that fits. *)
Definition acceptable (e : Envelope) (v : spool_view) : bool :=
  negb (str_in (en_event_id e) (vw_seen v)) && serialisable e
  && (vw_size v + written_size (append_record e) <=? max_bytes).

Definition remaining (ids : list string) (v : spool_view) : list Envelope :=
  List.filter (fun e => negb (str_in (en_event_id e) ids)) (vw_pending v).

Definition snapshot_of (ids : list string) (v : spool_view) : spool_view :=
  let pending := remaining ids v in
  let seen := (retained limit pending (vw_seen v) ++ event_ids pending)%list in
  {| vw_pending := pending; vw_seen := seen; vw_size := written_size (snapshot_record pending seen) |}.

(** What each operation answers and leaves. *)
Inductive spool_spec (v : spool_view) : spool_call -> result bool -> spool_view -> Prop :=
  | spec_added e : acceptable e v = true -> spool_spec v (Append e) (Ok true) (added e v)
  | spec_known e : str_in (en_event_id e) (vw_seen v) = true -> spool_spec v (Append e) (Ok false) v
  | spec_refused e x :
      acceptable e v = false -> str_in (en_event_id e) (vw_seen v) = false -> spool_spec v (Append e) (Raise x) v
  | spec_no_ack : spool_spec v (Ack []) (Ok true) v
  | spec_ack ids :
      ids <> [] -> vw_size (snapshot_of ids v) <= max_bytes -> spool_spec v (Ack ids) (Ok true) (snapshot_of ids v)
  | spec_ack_refused ids x : ids <> [] -> max_bytes < vw_size (snapshot_of ids v) -> spool_spec v (Ack ids) (Raise x) v
  | spec_reopen : spool_spec v Reopen (Ok true) v
  | spec_lost e n :
      acceptable e v = false \/ Z.of_nat n < written_size (append_record e) -> spool_spec v (Crash e n) (Ok true) v
  | spec_kept e n :
      acceptable e v = true -> written_size (append_record e) <= Z.of_nat n -> spool_spec v (Crash e n) (Ok true) (added e v).

Definition valid_call (c : spool_call) : bool :=
  match c with Append e | Crash e _ => envelope_ok e | _ => true end.

Definition reached (s : Spool) : Prop := exists rs P A, spool_ok max_bytes limit s rs P A.

Lemma canonical_twice events :
  Forall (fun e => envelope_ok e = true /\ serialisable e = true) events -> map canonical (map canonical events) = map canonical events.
Proof.
  intros F. rewrite map_map. apply map_ext_Forall. eapply Forall_impl; [exact F|]. intros e [_ S]. by apply canonical_serialisable.
Qed.

(** ** Opening again *)

Lemma torn_nothing : torn "".
Proof.
  exists [("op", PStr "append")], (record_line [("op", PStr "append")]). split_and!; [|done..]. split; [|done..].
  repeat constructor.
Qed.

Lemma open_step s file p :
  reached s -> default "" file = default "" (sp_file s) +:+ p -> torn p ->
  exists s', open_spool max_bytes limit file = (Ok tt, s') /\ reached s' /\ view_of s' = view_of s.
Proof.
  intros (rs & P & A & I) F T. rewrite (so_file _ _ _ _ _ _ I) in F.
  destruct (open_log max_bytes limit M0 s rs P A file p I F T) as (s' & E & I' & Q & Se & Sz).
  exists s'. split_and!; [done | by exists rs, P, A |]. unfold view_of. rewrite Q, Se, Sz.
  by rewrite canonical_twice by apply I.
Qed.

(** ** Appending *)

Lemma acceptable_spec e s :
  envelope_ok e = true -> acceptable e (view_of s) = true <->
  str_in (en_event_id e) (sp_seen s) = false /\ exists encoded, encode_record (append_record e) = Ok encoded
    /\ sp_size s + size_of encoded <= max_bytes.
Proof.
  intros V. unfold acceptable, written_size. cbn [view_of vw_seen vw_size]. rewrite !andb_true_iff, negb_true_iff, Z.leb_le. split.
  - intros [[U S] L]. split; [done|]. destruct (append_writable _ S) as [t E]. rewrite E in L. eauto.
  - intros (U & t & E & L). rewrite E. split_and!; try done. by destruct (append_written _ _ V E) as (? & _ & _ & ? & _).
Qed.

Lemma append_once_accepted e s :
  envelope_ok e = true -> acceptable e (view_of s) = true -> reached s ->
  exists s' encoded, append_once max_bytes e s = (Ok true, s') /\ reached s' /\ view_of s' = added e (view_of s)
    /\ encode_record (append_record e) = Ok encoded /\ default "" (sp_file s') = default "" (sp_file s) +:+ encoded.
Proof.
  intros V Ac (rs & P & A & I). apply acceptable_spec in Ac as (U & encoded & E & L); [|done].
  destruct (append_written _ _ V E) as (r & Er & G & S & Ap).
  pose proof I as [If Is Ir Ip Iq Io Ie In Il Ig Ix].
  assert (Le : (sp_size s + size_of encoded <=? max_bytes) = true) by (by apply Z.leb_le).
  assert (N : NoDup (A ++ event_ids (P ++ [canonical e]))).
  { unfold event_ids in *. rewrite map_app, app_assoc. apply NoDup_app. split_and!; [done | | repeat constructor; by apply not_elem_of_nil].
    intros id J1 J2. apply list_elem_of_singleton in J2 as ->. apply str_in_false in U. apply U. by rewrite Ie. }
  assert (D : NoDup (event_ids (sp_pending s ++ [e]))).
  { rewrite <- canonical_ids, map_app. unfold event_ids. rewrite Iq. cbn [map]. apply NoDup_app in N. apply N. }
  assert (Pm : map canonical (sort_events (sp_pending s ++ [e])) = sort_events (map canonical (sp_pending s) ++ [canonical e])).
  { rewrite sort_canonical by done. by rewrite map_app. }
  eexists _, encoded. split_and!; [| | |done|].
  - unfold append_once, mget, mlift, mbind, M_bind. rewrite U, E.
    unfold assert_capacity_bytes. rewrite Le. reflexivity.
  - exists (rs ++ [r])%list, (P ++ [canonical e])%list, A. split; cbn [sp_file sp_pending sp_seen sp_size default id].
    + rewrite If, log_text_app, Er. cbn [log_text]. by rewrite sapp_nil_r.
    + rewrite Is, Er, log_text_app, size_of_app. cbn [log_text]. by rewrite sapp_nil_r.
    + by apply Forall_app_2; [|constructor].
    + rewrite foldR_app, Ip. cbn [mbind result_bind foldR]. rewrite Ap. cbn [snd fst]. rewrite <- Ie, U. cbn [mbind result_bind].
      unfold event_ids in *. by rewrite map_app, Ie, app_assoc.
    + rewrite Pm, sort_events_perm. by rewrite Iq.
    + apply sort_events_sorted.
    + unfold see. rewrite U. unfold event_ids in *. by rewrite map_app, Ie, app_assoc.
    + done.
    + done.
    + rewrite sort_events_perm. by apply Forall_app_2; [|constructor].
    + lia.
  - unfold view_of, added, written_size. rewrite E. cbn [sp_pending sp_seen sp_size vw_pending vw_seen vw_size].
    unfold see. by rewrite U, Pm.
  - done.
Qed.
(** ** Acknowledging *)

Lemma filter_canonical (p : Envelope -> bool) events :
  (forall e, p (canonical e) = p e) -> List.filter p (map canonical events) = map canonical (List.filter p events).
Proof. intros E. induction events as [|e events IH]; [done|]. cbn [map List.filter]. rewrite E, IH. by destruct (p e). Qed.

Lemma sorted_events_filter (p : Envelope -> bool) l :
  StronglySorted (fun a b => event_le a b = true) l -> StronglySorted (fun a b => event_le a b = true) (List.filter p l).
Proof.
  induction 1 as [|a l S IH F]; simpl; [constructor|]. destruct (p a); [|done]. constructor; [done|].
  rewrite Forall_forall in *. intros b J. apply F. apply list_elem_of_In, filter_In in J as [J _]. by apply list_elem_of_In.
Qed.

Lemma filter_ids (p : Envelope -> bool) l : NoDup (event_ids l) -> NoDup (event_ids (List.filter p l)).
Proof.
  unfold event_ids. induction l as [|a l IH]; simpl; [done|]. intros N. apply NoDup_cons in N as [U N].
  destruct (p a); simpl; [|by apply IH]. constructor; [|by apply IH]. intros J. apply U. clear -J.
  apply list_elem_of_fmap in J as (b & E & J). apply list_elem_of_fmap. exists b. split; [done|].
  apply list_elem_of_In, filter_In in J as [J _]. by apply list_elem_of_In.
Qed.

Lemma snapshot_canonical pending seen :
  Forall (fun e => envelope_ok e = true /\ serialisable e = true) pending ->
  encode_record (snapshot_record (map canonical pending) seen) = encode_record (snapshot_record pending seen).
Proof.
  intros F. assert (X : mapR json_norm (map (fun e => PDict (envelope_to_payload e)) (map canonical pending))
                        = mapR json_norm (map (fun e => PDict (envelope_to_payload e)) pending)).
  { induction F as [|e pending [_ S] F IH]; [done|]. cbn [map mapR]. by rewrite canonical_payload, IH. }
  unfold encode_record. f_equal.
  change (snapshot_record (map canonical pending) seen)
    with (take 3 (snapshot_record pending seen)
          ++ [("pending", PList (map (fun e => PDict (envelope_to_payload e)) (map canonical pending)))])%list.
  change (snapshot_record pending seen)
    with (take 3 (snapshot_record pending seen)
          ++ [("pending", PList (map (fun e => PDict (envelope_to_payload e)) pending))])%list at 2.
  set (front := take 3 _). clearbody front. cbn [json_norm]. erewrite mapR_last; [reflexivity|]. cbn [fst snd json_norm]. by rewrite X.
Qed.

Lemma commit_step s ids :
  reached s -> let pending := List.filter (fun e => negb (str_in (en_event_id e) ids)) (sp_pending s) in
  let '(o, s') := commit_state max_bytes limit pending (sp_seen s) s in
  reached s' /\ ((o = Ok tt /\ view_of s' = snapshot_of ids (view_of s) /\ vw_size (view_of s') <= max_bytes)
                 \/ (exists x, o = Raise x /\ s' = s /\ max_bytes < vw_size (snapshot_of ids (view_of s)))).
Proof.
  intros R. pose proof R as (rs & P & A & I). cbv zeta.
  assert (D : NoDup (event_ids (List.filter (fun e => negb (str_in (en_event_id e) ids)) (sp_pending s))))
    by (eapply filter_ids, so_distinct, I).
  assert (Rm : remaining ids (view_of s) = map canonical (List.filter (fun e => negb (str_in (en_event_id e) ids)) (sp_pending s)))
    by (by apply filter_canonical).
  assert (G : Forall (fun e => envelope_ok e = true /\ serialisable e = true)
                     (List.filter (fun e => negb (str_in (en_event_id e) ids)) (sp_pending s))).
  { pose proof (so_good _ _ _ _ _ _ I) as F. rewrite Forall_forall in *. intros e J. apply F.
    apply list_elem_of_In, filter_In in J as [J _]. by apply list_elem_of_In. }
  pose proof (sorted_events_filter (fun e => negb (str_in (en_event_id e) ids)) _ (so_sorted _ _ _ _ _ _ I)) as So.
  set (pending := List.filter _ (sp_pending s)) in *.
  assert (Ns : NoDup (sp_seen s)) by (rewrite (so_seen _ _ _ _ _ _ I); apply I).
  destruct (compact_seen limit pending (sp_seen s) Ns D) as (C & Nc & Lc).
  destruct (snapshot_written pending (retained limit pending (sp_seen s) ++ event_ids pending) G Nc) as (r & E & Gr & Ap).
  assert (Vw : snapshot_of ids (view_of s)
               = {| vw_pending := map canonical pending; vw_seen := (retained limit pending (sp_seen s) ++ event_ids pending)%list;
                    vw_size := size_of (record_line r) |}).
  { unfold snapshot_of. rewrite Rm. unfold retained. rewrite canonical_ids. cbn [view_of vw_seen].
    fold (retained limit pending (sp_seen s)). f_equal. unfold written_size. by rewrite snapshot_canonical, E by done. }
  unfold commit_state. rewrite C. unfold mlift, mbind, M_bind. rewrite E. unfold assert_capacity_bytes.
  destruct (size_of (record_line r) <=? max_bytes) eqn:L.
  2: { unfold mraise. cbv beta iota. split; [done|]. right. eexists. split_and!; [done..|]. rewrite Vw. by apply Z.leb_gt in L. }
  apply Z.leb_le in L. cbn [mret M_ret save_encoded mmodify mget set_memory]. split.
  - exists [r], (map canonical pending), (retained limit pending (sp_seen s)).
    split; cbn [sp_file sp_pending sp_seen sp_size default id log_text]; rewrite ?sapp_nil_r, ?canonical_ids; try done.
    + by apply Forall_singleton.
    + cbn [foldR]. rewrite Ap, fold_see_known; [done|]. intros id J. apply elem_of_app. by right.
  - left. split; [done|]. unfold view_of at 1. cbn [sp_pending sp_seen sp_size]. split; [by rewrite Vw | done].
Qed.

(** ** Crashes *)

Lemma substring_covers n t : (String.length t <= n)%nat -> String.substring 0 n t = t.
Proof.
  revert n. induction t as [|c t IH]; intros [|n] L; simpl in *; try done; [lia|]. f_equal. apply IH. lia.
Qed.

Lemma crash_step e n s :
  envelope_ok e = true -> reached s ->
  exists s', open_spool max_bytes limit (interrupted max_bytes e n s) = (Ok tt, s') /\ reached s'
    /\ view_of s' = if acceptable e (view_of s) && (written_size (append_record e) <=? Z.of_nat n)
                    then added e (view_of s) else view_of s.
Proof.
  intros V R. destruct (acceptable e (view_of s)) eqn:Ac.
  - destruct (append_once_accepted e s V Ac R) as (s1 & t & _ & R1 & V1 & E & F).
    apply acceptable_spec in Ac as (U & t' & E' & L); [|done]. rewrite E in E'. injection E' as <-.
    unfold interrupted, written_size. rewrite U, E. apply Z.leb_le in L as ->. cbn [andb]. unfold size_of.
    destruct (append_written _ _ V E) as (r & Er & Gr & _).
    destruct (Z.leb_spec (Z.of_nat (String.length t)) (Z.of_nat n)) as [C|C].
    + destruct (open_step s1 (Some (default "" (sp_file s) +:+ String.substring 0 n t)) "" R1) as (s' & Eo & R' & Vo).
      * rewrite substring_covers by lia. by rewrite F, sapp_nil_r.
      * apply torn_nothing.
      * exists s'. by rewrite Vo, V1.
    + destruct (open_step s (Some (default "" (sp_file s) +:+ String.substring 0 n t)) (String.substring 0 n t) R) as (s' & Eo & R' & Vo);
        [done | | by exists s'].
      exists r, (String.substring n (String.length t - n) t). split_and!; [done | |].
      * rewrite <- Er. apply substring_split. lia.
      * intros X. apply (f_equal String.length) in X. rewrite substring_length in X by lia. simpl in X. lia.
  - assert (If : interrupted max_bytes e n s = sp_file s).
    { unfold interrupted. destruct (str_in (en_event_id e) (sp_seen s)) eqn:U; [done|].
      destruct (encode_record (append_record e)) as [t|] eqn:E; [|done].
      destruct (sp_size s + size_of t <=? max_bytes) eqn:L; [|done]. exfalso. apply Z.leb_le in L.
      assert (X : acceptable e (view_of s) = true) by (apply acceptable_spec; eauto). by rewrite Ac in X. }
    rewrite If. destruct (open_step s (sp_file s) "" R) as (s' & Eo & R' & Vo); [by rewrite sapp_nil_r | apply torn_nothing |].
    by exists s'.
Qed.

(** ** Every operation *)

Lemma append_step e s :
  envelope_ok e = true -> reached s ->
  let '(o, s') := append_once max_bytes e s in reached s' /\ spool_spec (view_of s) (Append e) o (view_of s').
Proof.
  intros V R. destruct (acceptable e (view_of s)) eqn:Ac.
  - destruct (append_once_accepted e s V Ac R) as (s' & t & -> & R' & -> & _). split; [done | by constructor].
  - unfold append_once, mget, mlift, mbind, M_bind. destruct (str_in (en_event_id e) (sp_seen s)) eqn:U.
    { split; [done | by apply spec_known]. }
    destruct (encode_record (append_record e)) as [t|x] eqn:E; [|split; [done | by apply spec_refused]].
    unfold assert_capacity_bytes. destruct (sp_size s + size_of t <=? max_bytes) eqn:L.
    + exfalso. apply Z.leb_le in L. assert (X : acceptable e (view_of s) = true) by (apply acceptable_spec; eauto).
      by rewrite Ac in X.
    + split; [done | by apply spec_refused].
Qed.

Lemma spool_step c s :
  valid_call c = true -> reached s ->
  let '(o, s') := perform max_bytes limit c s in reached s' /\ spool_spec (view_of s) c o (view_of s').
Proof.
  intros V R. destruct c as [e|ids| |e n]; cbn [perform valid_call] in *.
  - by apply append_step.
  - destruct ids as [|id ids]; [split; [done | constructor]|].
    pose proof (commit_step s (id :: ids) R) as H. cbv zeta in H. unfold mark_acked, mget, mbind, M_bind.
    destruct (commit_state _ _ _ _ s) as [o s']. destruct H as (R' & [(-> & Vw & L)|(x & -> & -> & L)]).
    + split; [done|]. cbn [mret M_ret]. rewrite Vw in *. by constructor.
    + split; [done | by constructor].
  - destruct (open_step s (sp_file s) "" R) as (s' & E & R' & Vw); [by rewrite sapp_nil_r | apply torn_nothing |].
    rewrite E. cbn. rewrite Vw. split; [done | constructor].
  - destruct (crash_step e n s V R) as (s' & E & R' & Vw). rewrite E. cbn [fst snd mbind result_bind]. split; [done|]. rewrite Vw.
    destruct (acceptable e (view_of s)) eqn:Ac; cbn [andb]; [|constructor; by left].
    destruct (Z.leb_spec (written_size (append_record e)) (Z.of_nat n)); [by constructor | constructor; by right].
Qed.

Lemma run_reached calls s : forallb valid_call calls = true -> reached s -> reached (run max_bytes limit calls s).
Proof.
  revert s. induction calls as [|c calls IH]; intros s V R; [done|]. simpl in V. bprop. cbn [run fold_left]. apply IH; [done|].
  pose proof (spool_step c s H R) as X. destruct (perform max_bytes limit c s). apply X.
Qed.

Lemma new_reached : reached new_spool.
Proof. exists [], [], []. by apply new_spool_ok. Qed.
End promises.

(** C7. The spool does what it promises, crashes included: after any sequence of
    appends, acknowledgements, restarts and writes cut at any byte, the next
    operation answers and leaves exactly what the specification says.  An
    event that is new, serialisable and fits becomes pending and known; a
    known one is answered False; an acknowledgement removes its events and
    keeps the last ids; a restart loses and invents nothing; a cut write counts
    only when the whole record was written.  The file is as long as the spool
    believes and never exceeds its budget. *)
Theorem spool_refines max_bytes limit calls c s o s' :
  0 <= max_bytes -> forallb valid_call calls = true -> valid_call c = true ->
  run max_bytes limit calls new_spool = s -> perform max_bytes limit c s = (o, s') ->
  spool_spec max_bytes limit (view_of s) c o (view_of s')
  /\ size_of (default "" (sp_file s')) = sp_size s' /\ sp_size s' <= max_bytes.
Proof.
  intros M0 V Vc <- E. pose proof (run_reached _ limit M0 calls _ V (new_reached _ limit M0)) as R.
  pose proof (spool_step _ limit M0 c _ Vc R) as X. rewrite E in X. destruct X as [(rs & P & A & I) S].
  split_and!; [done | | by apply I]. by rewrite (so_file _ _ _ _ _ _ I), (so_size _ _ _ _ _ _ I).
Qed.

(** The event is acknowledged by the operation. *)
Definition acks (event_id : string) (c : spool_call) : bool :=
  match c with Ack ids => str_in event_id ids | _ => false end.

Lemma spec_keeps max_bytes limit v c o v' x :
  spool_spec max_bytes limit v c o v' -> x ∈ vw_pending v -> acks (en_event_id x) c = false -> x ∈ vw_pending v'.
Proof.
  intros S J N. destruct S as [e ?| | | |ids ? ?| | | |e n ? ?]; try done; cbn [added snapshot_of vw_pending].
  1, 3: rewrite sort_events_perm; apply elem_of_app; by left.
  apply list_elem_of_In, filter_In. cbn [acks] in N. rewrite N. split; [by apply list_elem_of_In | done].
Qed.

Lemma spec_accepted max_bytes limit v e v' : spool_spec max_bytes limit v (Append e) (Ok true) v' -> v' = added e v.
Proof. by inversion 1. Qed.

Lemma run_keeps max_bytes limit calls s x :
  0 <= max_bytes -> forallb valid_call calls = true -> reached max_bytes limit s ->
  x ∈ map canonical (sp_pending s) -> forallb (fun c => negb (acks (en_event_id x) c)) calls = true ->
  x ∈ map canonical (sp_pending (run max_bytes limit calls s)).
Proof.
  intros M0. revert s. induction calls as [|c calls IH]; intros s V R J N; [done|]. simpl in V, N. bprop. cbn [run fold_left].
  pose proof (spool_step _ limit M0 c s H1 R) as X. destruct (perform max_bytes limit c s) as [o s']. destruct X as [R' S].
  apply IH; try done. by apply (spec_keeps _ _ _ _ _ _ x S).
Qed.

(** C34. An event the spool has accepted is delivered: it stays pending, once,
    through any later appends, acknowledgements of other events, restarts and
    cut writes, until it is acknowledged itself; and as long as it waits,
    offering it again adds nothing. *)
Theorem event_kept max_bytes limit calls calls' e s s1 s2 :
  0 <= max_bytes -> forallb valid_call calls = true -> forallb valid_call calls' = true -> envelope_ok e = true ->
  run max_bytes limit calls new_spool = s -> append_once max_bytes e s = (Ok true, s1) ->
  forallb (fun c => negb (acks (en_event_id e) c)) calls' = true ->
  run max_bytes limit calls' s1 = s2 ->
  canonical e ∈ map canonical (sp_pending s2) /\ NoDup (event_ids (sp_pending s2))
  /\ append_once max_bytes e s2 = (Ok false, s2).
Proof.
  intros M0 V V' Ve <- E N <-. pose proof (run_reached _ limit M0 calls _ V (new_reached _ limit M0)) as R.
  pose proof (append_step _ limit e _ Ve R) as X. rewrite E in X. destruct X as [R1 S].
  pose proof (run_reached _ limit M0 calls' _ V' R1) as R2.
  assert (J : canonical e ∈ map canonical (sp_pending (run max_bytes limit calls' s1))).
  { apply run_keeps; try done. apply spec_accepted in S. apply (f_equal vw_pending) in S. cbn [view_of added vw_pending] in S.
    rewrite S, sort_events_perm. apply elem_of_app. right. by left. }
  destruct R2 as (rs & P & A & I). split_and!; [done | by eapply so_distinct|].
  unfold append_once, mget, mbind, M_bind. rewrite (proj2 (str_in_spec _ _)); [done|].
  rewrite (so_seen _ _ _ _ _ _ I). apply elem_of_app. right.
  rewrite <- (so_ids _ _ _ _ _ _ I). unfold event_ids. apply list_elem_of_fmap in J as (e' & Ee & J).
  apply list_elem_of_fmap. exists e'. split; [by apply (f_equal en_event_id) in Ee | done].
Qed.

(** C36. What is written for an event is read back as that event: the line of
    [_encode_record] decodes to one record, which makes the event pending
    again, every field, time and amount unchanged and only the keys of its
    payload put in order. *)
Theorem event_roundtrip e text :
  envelope_ok e = true -> encode_record (append_record e) = Ok text ->
  exists record, decode_records text = Ok ([record], false, size_of text)
    /\ apply_record ([], []) record = Ok ([canonical e], [en_event_id e]).
Proof.
  intros V E. destruct (append_written _ _ V E) as (r & -> & G & _ & Ap). exists r. split; [|by rewrite Ap].
  assert (L : log_text [r] +:+ "" = record_line r) by (cbn [log_text]; by rewrite !sapp_nil_r).
  rewrite <- L at 1. rewrite decode_log; [by rewrite <- L, sapp_nil_r | by apply Forall_singleton | apply torn_nothing |].
  rewrite L. by destruct (record_head r) as [t ->].
Qed.

(** ** Examples *)

Definition sample_event (id : string) (t : Z) : Envelope :=
  {| en_schema_version := "1.0"; en_event_id := id; en_node_id := "node-a"; en_account_id := "acct-a";
     en_intent_id := Some "0123456789abcdef0123456789abcdef"; en_client_order_id := Some "B0";
     en_venue_order_id := None; en_trade_id := None; en_event_type := "OrderFilled"; en_ts_event := t;
     en_ts_ingest := t + 5; en_payload := [("quantity", PStr "1.5"); ("price", PFloat (Dec 15 (-1)))] |}.

Definition sample_calls : list spool_call :=
  [Append (sample_event "e2" 2000000); Append (sample_event "e1" 1000000); Crash (sample_event "e3" 0) 100; Ack ["e2"]].

Lemma spool_refines_witness :
  exists s o s', run 2000 10 sample_calls new_spool = s /\ perform 2000 10 (Crash (sample_event "e4" 0) 400) s = (o, s')
    /\ event_ids (sp_pending s') = ["e4"; "e1"]
    /\ spool_spec 2000 10 (view_of s) (Crash (sample_event "e4" 0) 400) o (view_of s').
Proof.
  eexists _, _, _. split; [reflexivity|]. split; [apply surjective_pairing|]. split; [vm_compute; reflexivity|].
  apply (spool_refines 2000 10 sample_calls (Crash (sample_event "e4" 0) 400) _ _ _ ltac:(done)
           ltac:(vm_compute; reflexivity) ltac:(vm_compute; reflexivity) eq_refl (surjective_pairing _)).
Defined.

Lemma event_kept_witness :
  exists s1, append_once 4000 (sample_event "e5" 7) (run 4000 10 sample_calls new_spool) = (Ok true, s1)
    /\ canonical (sample_event "e5" 7)
       ∈ map canonical (sp_pending (run 4000 10 [Reopen; Ack ["e1"]; Crash (sample_event "e6" 0) 3; Reopen] s1)).
Proof.
  destruct (append_once 4000 (sample_event "e5" 7) (run 4000 10 sample_calls new_spool)) as [o s1] eqn:E.
  assert (O : o = Ok true) by (apply (f_equal fst) in E; vm_compute in E; congruence). subst o.
  exists s1. split; [reflexivity|].
  apply (event_kept 4000 10 sample_calls [Reopen; Ack ["e1"]; Crash (sample_event "e6" 0) 3; Reopen]
           (sample_event "e5" 7) _ s1 _ ltac:(done) ltac:(vm_compute; reflexivity) ltac:(vm_compute; reflexivity)
           ltac:(vm_compute; reflexivity) eq_refl E ltac:(vm_compute; reflexivity) eq_refl).
Defined.

Lemma event_roundtrip_witness :
  exists text record, encode_record (append_record (sample_event "e1" 1000000)) = Ok text
    /\ decode_records text = Ok ([record], false, size_of text).
Proof.
  destruct (encode_record (append_record (sample_event "e1" 1000000))) as [text|] eqn:E; [|vm_compute in E; discriminate E].
  destruct (event_roundtrip (sample_event "e1" 1000000) text ltac:(vm_compute; reflexivity) E) as (record & D & _).
  exists text, record. split; [reflexivity | exact D].
Defined.

(** A snapshot can be longer than the log it replaces, for it names every
    pending event twice.  A spool that has filled up then refuses the
    acknowledgement that would empty it: 45 events fit, the acknowledgement
    of the first one raises, nothing is removed, and the next event is refused
    too. *)
Definition many_events : list Envelope :=
  map (fun i => sample_event ("0123456789abcdef0123456789abcdef01" +:+ pad 2 (Z.of_nat i)) (Z.of_nat i)) (seq 0 45).

Lemma full_spool_stuck :
  let s := run 18700 4096 (map Append many_events) new_spool in
  let first := "0123456789abcdef0123456789abcdef0100" in
  length (sp_pending s) = 45%nat
  /\ perform 18700 4096 (Ack [first]) s
     = (Raise (CapacityError "execution event spool capacity exceeded: 18943 > 18700 bytes"), s)
  /\ is_ok (fst (append_once 18700 (sample_event "0123456789abcdef0123456789abcdef0145" 45) s)) = false.
Proof. vm_compute. split_and!; reflexivity. Qed.
