(* ===== verification/NodeCommands.v ===== *)
(** * NodeCommands: operator commands on a node

    Models nautilus-node/commands/handler.py: the processor that executes halt,
    resume, set_reducing, cancel_all, close_all and refresh_evidence once per
    command id, and its two stores of command states.  The control plane, the
    lifecycle gate and the execution engine are outside: a class of stateful
    operations [Ports] on a state [X].  The store is a class too, with what
    the processor relies on as its laws; [InMemoryCommandStateStore] and
    [JsonCommandStateStore] are its instances.  A process that dies while it
    executes a command is a step of its own. *)

From Stdlib Require Import ZArith Lia Ascii.
From S2P Require Import Prelude Decimal PyString DecText PyValue Json.
Open Scope string_scope.
Open Scope Z_scope.

(** ** Commands and their states *)

Inductive TradingState := ACTIVE | HALTED | REDUCING.

Definition trading_state_value (s : TradingState) : string :=
  match s with ACTIVE => "ACTIVE" | HALTED => "HALTED" | REDUCING => "REDUCING" end.

Inductive CommandType := HALT | RESUME | SET_REDUCING | CANCEL_ALL | CLOSE_ALL | REFRESH_EVIDENCE.

Definition command_type_value (t : CommandType) : string :=
  match t with
  | HALT => "halt" | RESUME => "resume" | SET_REDUCING => "set_reducing"
  | CANCEL_ALL => "cancel_all" | CLOSE_ALL => "close_all" | REFRESH_EVIDENCE => "refresh_evidence"
  end.

Inductive CommandAckStatus := ACCEPTED | RUNNING | COMPLETED | FAILED.

Definition status_value (s : CommandAckStatus) : string :=
  match s with ACCEPTED => "accepted" | RUNNING => "running" | COMPLETED => "completed" | FAILED => "failed" end.

(** [CommandAckStatus(value)] *)
Definition status_of (v : pyval) : result CommandAckStatus :=
  match v with
  | PStr "accepted" => Ok ACCEPTED
  | PStr "running" => Ok RUNNING
  | PStr "completed" => Ok COMPLETED
  | PStr "failed" => Ok FAILED
  | _ => Raise (ValueError "not a valid CommandAckStatus")
  end.

Record NodeCommand := { nc_command_id : string; nc_type : CommandType; nc_args : dict }.

Record PositionSnapshot := { ps_position_id : string; ps_instrument_id : string }.

(** [result] and [error] are [None] or what was given. *)
Record CommandStateRecord := {
  cr_command_id : string;
  cr_command_type : string;
  cr_status : CommandAckStatus;
  cr_result : pyval;
  cr_error : pyval }.

(** [str(exc)] *)
Definition exn_str (e : exn) : string :=
  match e with
  | ValueError m | TypeError m | RuntimeError _ m => m
  | KeyError k => "'" +:+ k +:+ "'"
  | InvalidOperation => "[<class 'decimal.ConversionSyntax'>]"
  | DivisionByZero => "[<class 'decimal.DivisionByZero'>]"
  end.

(** ** The parties outside *)

Class Ports (X : Type) := {
  ack_command : string -> string -> CommandAckStatus -> pyval -> pyval -> M X unit;
  apply_operator_state : TradingState -> string -> M X unit;
  trading_state : M X TradingState;
  engine_cancel_all : option (list string) -> M X dict;
  wait_for_no_working_orders : M X unit;
  open_positions : option (list string) -> M X (list PositionSnapshot);
  close_position_reduce_only : PositionSnapshot -> M X dict;
  wait_until_flat : list PositionSnapshot -> M X unit }.

(** ** The stores *)

(** [CommandStateStore]: reading does not change the store; a save that raises
    leaves it as it was. *)
Class CommandStateStore (S : Type) := {
  store_get : string -> S -> result (option CommandStateRecord);
  store_save : CommandStateRecord -> S -> result S;
  store_ok : S -> Prop }.

(** The same record, up to what a document keeps of its result. *)
Record same_record (r r' : CommandStateRecord) : Prop := {
  sr_id : cr_command_id r' = cr_command_id r;
  sr_type : cr_command_type r' = cr_command_type r;
  sr_status : cr_status r' = cr_status r;
  sr_result : cr_result r' = cr_result r \/ json_norm (cr_result r) = Ok (cr_result r');
  sr_error : cr_error r' = cr_error r \/ json_norm (cr_error r) = Ok (cr_error r') }.

Class StoreLaws (S : Type) `{CommandStateStore S} := {
  save_ok r s s' : store_ok s -> store_save r s = Ok s' -> store_ok s';
  save_same r s s' : store_ok s -> store_save r s = Ok s' ->
    exists r', store_get (cr_command_id r) s' = Ok (Some r') /\ same_record r r';
  save_other r s s' id : store_ok s -> store_save r s = Ok s' -> id <> cr_command_id r -> store_get id s' = store_get id s }.

(** [InMemoryCommandStateStore] *)
Definition InMemory : Type := list (string * CommandStateRecord).

#[export] Instance in_memory_store : CommandStateStore InMemory := {
  store_get id s := Ok (aget id s);
  store_save r s := Ok (aset (cr_command_id r) r s);
  store_ok _ := True }.

(** [JsonCommandStateStore._load] *)
Definition load_states (file : stored) : result pyval :=
  match file with
  | Absent => Ok (PDict [])
  | Unreadable => Raise (ValueError "Expecting value")
  | Json v => Ok v
  end.

Definition no_attribute : exn := TypeError "object has no attribute 'get'".

(** [raw[k]] *)
Definition subscript (k : string) (raw : pyval) : result pyval :=
  match raw with
  | PDict m => match dlookup k m with Some v => Ok v | None => Raise (KeyError k) end
  | PList _ | PStr _ => Raise (TypeError "indices must be integers or slices, not str")
  | _ => Raise (TypeError "object is not subscriptable")
  end.

(** [JsonCommandStateStore.get] *)
Definition json_get (id : string) (file : stored) : result (option CommandStateRecord) :=
  data ← load_states file;
  match data with
  | PDict m =>
      match dget id m with
      | PNone => Ok None
      | raw =>
          command_id ← subscript "command_id" raw;
          command_type ← subscript "command_type" raw;
          status ← subscript "status" raw ≫= status_of;
          Ok (Some {| cr_command_id := py_str command_id; cr_command_type := py_str command_type; cr_status := status;
                      cr_result := dget "result" (as_dict raw); cr_error := dget "error" (as_dict raw) |})
      end
  | _ => Raise no_attribute
  end.

(** [asdict(record)] with its status *)
Definition record_payload (r : CommandStateRecord) : dict :=
  [("command_id", PStr (cr_command_id r)); ("command_type", PStr (cr_command_type r));
   ("status", PStr (status_value (cr_status r))); ("result", cr_result r); ("error", cr_error r)].

(** [JsonCommandStateStore.save] *)
Definition json_save (r : CommandStateRecord) (file : stored) : result stored :=
  data ← load_states file;
  match data with
  | PDict m => v ← json_norm (PDict (dset (cr_command_id r) (PDict (record_payload r)) m)); Ok (Json v)
  | _ => Raise (TypeError "object does not support item assignment")
  end.

#[export] Instance json_store : CommandStateStore stored := {
  store_get := json_get;
  store_save := json_save;
  store_ok file := match file with Json v => Normal v | _ => True end }.

(** ** The processor *)

(** [_instrument_ids] *)
Definition instrument_ids (args : dict) : result (option (list string)) :=
  match dget "instrument_ids" args with
  | PNone => Ok None
  | PList l =>
      Some <$> mapR (fun v => match v with
                              | PStr s => if is_empty s then Raise (ValueError "instrument_ids must be a list of non-empty strings")
                                          else Ok s
                              | _ => Raise (ValueError "instrument_ids must be a list of non-empty strings")
                              end) l
  | _ => Raise (ValueError "instrument_ids must be a list of non-empty strings")
  end.

Section processor.
Context {X S : Type} `{Ports X} `{CommandStateStore S} (node_id : string).

(** [_cancel_all] *)
Definition cancel_all_command (command : NodeCommand) : M X dict :=
  ids ← mlift (instrument_ids (nc_args command));
  cancel_result ← engine_cancel_all ids;
  _ ← wait_for_no_working_orders;
  state ← trading_state;
  mret [("trading_state", PStr (trading_state_value state)); ("cancel", PDict cancel_result)].

(** [_close_all] *)
Definition close_all_command (command : NodeCommand) : M X dict :=
  ids ← mlift (instrument_ids (nc_args command));
  _ ← apply_operator_state REDUCING ("command " +:+ nc_command_id command +:+ " close_all");
  cancel_result ← engine_cancel_all ids;
  _ ← wait_for_no_working_orders;
  positions ← open_positions ids;
  close_results ← mmapM close_position_reduce_only positions;
  _ ← wait_until_flat positions;
  mret [("trading_state", PStr (trading_state_value REDUCING)); ("cancel", PDict cancel_result);
        ("closed_positions", PList (map PDict close_results))].

(** [_execute] *)
Definition execute (command : NodeCommand) : M X dict :=
  let id := nc_command_id command in
  match nc_type command with
  | HALT =>
      let reason := py_str (py_or (dget "reason" (nc_args command)) (PStr ("command " +:+ id +:+ " halt"))) in
      _ ← apply_operator_state HALTED reason;
      mret [("trading_state", PStr (trading_state_value HALTED))]
  | RESUME =>
      _ ← apply_operator_state ACTIVE ("command " +:+ id +:+ " resume");
      mret [("trading_state", PStr (trading_state_value ACTIVE))]
  | SET_REDUCING =>
      _ ← apply_operator_state REDUCING ("command " +:+ id +:+ " set_reducing");
      mret [("trading_state", PStr (trading_state_value REDUCING))]
  | CANCEL_ALL => cancel_all_command command
  | CLOSE_ALL => close_all_command command
  | REFRESH_EVIDENCE => mret [("evidence_refreshed", PBool true)]
  end.

(** The operations on the two halves of the state. *)
Definition outside {A} (m : M X A) : M (X * S) A := fun w => let '(r, x) := m (fst w) in (r, (x, snd w)).

Definition get_state (id : string) : M (X * S) (option CommandStateRecord) := fun w => (store_get id (snd w), w).

Definition save_state (r : CommandStateRecord) : M (X * S) unit := fun w =>
  match store_save r (snd w) with
  | Ok s => (Ok tt, (fst w, s))
  | Raise e => (Raise e, w)
  end.

(** [_ack] *)
Definition ack (command_id : string) (status : CommandAckStatus) (result error : pyval) : M (X * S) unit :=
  outside (ack_command node_id command_id status result error).

Definition state_record (command : NodeCommand) (status : CommandAckStatus) (result error : pyval) : CommandStateRecord :=
  {| cr_command_id := nc_command_id command; cr_command_type := command_type_value (nc_type command);
     cr_status := status; cr_result := result; cr_error := error |}.

(** [handle] up to the execution: what is known of the command, or [None]
    when it has been accepted. *)
Definition accept (command : NodeCommand) : M (X * S) (option CommandStateRecord) :=
  existing ← get_state (nc_command_id command);
  match existing with
  | Some r =>
      _ ← ack (nc_command_id command) (cr_status r) (cr_result r) (cr_error r);
      mret (Some r)
  | None =>
      _ ← ack (nc_command_id command) ACCEPTED PNone PNone;
      _ ← save_state (state_record command ACCEPTED PNone PNone);
      mret None
  end.

(** [try: result = self._execute(command) except Exception as exc: ...] *)
Definition attempt (command : NodeCommand) : M (X * S) (result dict) := fun w =>
  let '(r, w') := outside (execute command) w in (Ok r, w').

(** The record of an outcome. *)
Definition outcome_record (command : NodeCommand) (outcome : result dict) : CommandStateRecord :=
  match outcome with
  | Ok result => state_record command COMPLETED (PDict result) PNone
  | Raise exc => state_record command FAILED PNone (PStr (exn_str exc))
  end.

(** What follows the execution. *)
Definition finish (command : NodeCommand) (outcome : result dict) : M (X * S) CommandStateRecord :=
  let r := outcome_record command outcome in
  _ ← save_state r;
  _ ← ack (nc_command_id command) (cr_status r) (cr_result r) (cr_error r);
  mret r.

Definition handle (command : NodeCommand) : M (X * S) CommandStateRecord :=
  existing ← accept command;
  match existing with
  | Some r => mret r
  | None => outcome ← attempt command; finish command outcome
  end.

(** ** Runs *)

(** The node handles a command; or it dies while it executes one, with
    the outside in any state. *)
Inductive node_step :=
  | Handle (command : NodeCommand)
  | Dies (command : NodeCommand) (x : X).

(** The command of the step. *)
Definition step_command (c : node_step) : NodeCommand := match c with Handle command | Dies command _ => command end.

Definition node_do (c : node_step) (w : X * S) : X * S :=
  match c with
  | Handle command => snd (handle command w)
  | Dies command x =>
      match accept command w with
      | (Ok None, w') => (x, snd w')
      | (_, w') => w'
      end
  end.

(** The step reaches the execution of its command. *)
Definition executes (c : node_step) (w : X * S) : bool :=
  match fst (accept (step_command c) w) with Ok None => true | _ => false end.

Definition node_run (steps : list node_step) (w : X * S) : X * S := fold_left (fun w c => node_do c w) steps w.

(** The commands that are executed along a run. *)
Fixpoint executions (steps : list node_step) (w : X * S) : list string :=
  match steps with
  | [] => []
  | c :: steps =>
      let rest := executions steps (node_do c w) in
      if executes c w then nc_command_id (step_command c) :: rest else rest
  end.
End processor.

(** ** The stores keep their laws *)

#[export] Instance in_memory_laws : StoreLaws InMemory.
Proof.
  split; cbn.
  - done.
  - intros r s s' _ [= <-]. exists r. rewrite aget_aset_eq. split; [done|]. by split; auto.
  - intros r s s' id _ [= <-] N. by rewrite aget_aset_ne.
Qed.

Lemma status_of_value s : status_of (PStr (status_value s)) = Ok s.
Proof. by destruct s. Qed.

(** What a save leaves under each id. *)
Lemma json_save_inv r file file' :
  store_ok file -> json_save r file = Ok file' ->
  exists m m' raw, load_states file = Ok (PDict m) /\ file' = Json (PDict m') /\ Normal (PDict m')
    /\ json_norm (PDict (record_payload r)) = Ok raw
    /\ forall id, dlookup id m' = if String.eqb id (cr_command_id r) then Some raw else dlookup id m.
Proof.
  unfold json_save. intros I H. destruct (load_states file) as [data|] eqn:L; [|done]. cbn [mbind result_bind] in H.
  destruct data as [| | | | | | |m]; try done.
  assert (N : Normal (PDict m)).
  { destruct file as [| |v]; cbn in *; [injection L as <- | done | by injection L as ->]. repeat constructor. }
  destruct (json_norm (PDict (dset (cr_command_id r) (PDict (record_payload r)) m))) as [v|] eqn:E; [|done].
  cbn [mbind result_bind] in H. injection H as <-.
  destruct (norm_lookup _ _ (cr_command_id r) E) as (m1 & -> & X). rewrite dlookup_dset_eq in X. destruct X as (raw & R & _).
  destruct (norm_dset m (cr_command_id r) _ raw N R) as (m' & E' & Lk). rewrite E in E'. injection E' as ->.
  exists m, m', raw. split_and!; try done. by eapply json_norm_normal.
Qed.

Lemma json_same r file file' :
  store_ok file -> json_save r file = Ok file' ->
  exists r', json_get (cr_command_id r) file' = Ok (Some r') /\ same_record r r'.
Proof.
  intros I H. destruct (json_save_inv _ _ _ I H) as (m & m' & raw & _ & -> & _ & E & L).
  unfold json_get, dget. cbn [load_states mbind result_bind]. rewrite L, String.eqb_refl. cbn [default id].
  destruct (norm_lookup _ _ "" E) as (p & -> & _).
  pose proof (fun k s => norm_text _ _ k s E) as T. pose proof (fun k => norm_lookup _ _ k E) as K.
  unfold subscript. rewrite (T "command_id" _ eq_refl), (T "command_type" _ eq_refl), (T "status" _ eq_refl).
  cbn [mbind result_bind]. rewrite status_of_value. cbn [mbind result_bind as_dict py_str].
  eexists. split; [reflexivity|].
  destruct (K "result") as (p1 & [= <-] & Lr), (K "error") as (p2 & [= <-] & Le).
  change (dlookup "result" (record_payload r)) with (Some (cr_result r)) in Lr.
  change (dlookup "error" (record_payload r)) with (Some (cr_error r)) in Le.
  destruct Lr as (w1 & N1 & L1), Le as (w2 & N2 & L2). split; cbn; unfold dget; rewrite ?L1, ?L2; auto.
Qed.

#[export] Instance json_laws : StoreLaws stored.
Proof.
  split.
  - intros r s s' I H. destruct (json_save_inv r s s' I H) as (m & m' & raw & _ & -> & N & _). exact N.
  - intros r s s' I H. by apply (json_same r s s').
  - intros r s s' id I H N. destruct (json_save_inv r s s' I H) as (m & m' & raw & L & -> & _ & _ & K).
    cbn [store_get json_store]. unfold json_get, dget. rewrite L. cbn [load_states mbind result_bind]. rewrite K.
    apply String.eqb_neq in N as ->. done.
Qed.

(** ** A command is executed once *)

Section once.
Context {X S : Type} `{P : Ports X} `{L : StoreLaws S} (node_id : string).

(** What is known of the command. *)
Definition known (id : string) (s : S) (status : CommandAckStatus) : Prop :=
  exists r, store_get id s = Ok (Some r) /\ cr_status r = status.

Lemma accept_known command r w :
  store_get (nc_command_id command) (snd w) = Ok (Some r) ->
  fst (accept node_id command w) <> Ok None /\ snd (snd (accept node_id command w)) = snd w.
Proof.
  intros E. unfold accept, get_state, ack, outside, mbind, M_bind. rewrite E.
  destruct (ack_command _ _ _ _ _ (fst w)) as [[[]|] x]; done.
Qed.

(** The store after the first half of [handle]. *)
Lemma accept_store command w :
  store_ok (snd w) ->
  let '(o, w') := accept node_id command w in
  (o <> Ok None /\ snd w' = snd w)
  \/ (o = Ok None /\ store_get (nc_command_id command) (snd w) = Ok None
      /\ store_save (state_record command ACCEPTED PNone PNone) (snd w) = Ok (snd w')).
Proof.
  intros I. unfold accept, get_state, ack, outside, save_state, mbind, M_bind.
  destruct (store_get (nc_command_id command) (snd w)) as [[r|]|e] eqn:G.
  - destruct (ack_command _ _ _ _ _ (fst w)) as [[[]|] x]; by left.
  - destruct (ack_command _ _ _ _ _ (fst w)) as [[[]|] x]; cbn [fst snd]; [|by left].
    destruct (store_save _ (snd w)) as [s'|] eqn:Sv; cbn [fst snd]; [by right | by left].
  - by left.
Qed.

(** The store after [finish]. *)
Lemma finish_store command outcome w :
  let w' := snd (finish node_id command outcome w) in
  snd w' = snd w \/ store_save (outcome_record command outcome) (snd w) = Ok (snd w').
Proof.
  cbv zeta. unfold finish, save_state, ack, outside, mbind, M_bind.
  destruct (store_save _ (snd w)) as [s'|] eqn:Sv; cbn [fst snd]; [|by left]. right.
  by destruct (ack_command _ _ _ _ _ (fst w)) as [[[]|] x].
Qed.

Lemma handle_store command w :
  store_ok (snd w) ->
  let w' := snd (handle node_id command w) in
  if executes node_id (Handle command) w
  then exists s, store_get (nc_command_id command) (snd w) = Ok None
       /\ store_save (state_record command ACCEPTED PNone PNone) (snd w) = Ok s
       /\ (snd w' = s \/ exists outcome, store_save (outcome_record command outcome) s = Ok (snd w'))
  else snd w' = snd w.
Proof.
  intros I. pose proof (accept_store command w I) as A. unfold handle, executes, mbind, M_bind, step_command.
  destruct (accept node_id command w) as [o w1]. destruct A as [[N E]|(-> & G & Sv)]; cbn [fst].
  - destruct o as [[r|]|e]; cbn [snd]; done.
  - exists (snd w1). split_and!; [done..|]. unfold attempt, outside. destruct (execute command (fst w1)) as [r x].
    destruct (finish_store command r (x, snd w1)) as [E|E]; cbn [snd] in E; eauto.
Qed.

(** A step keeps what is known, and adds its own command when it executes it. *)
Lemma step_known c w :
  store_ok (snd w) ->
  let w' := node_do node_id c w in
  store_ok (snd w')
  /\ (forall id st, known id (snd w) st -> known id (snd w') st)
  /\ (executes node_id c w = true ->
      store_get (nc_command_id (step_command c)) (snd w) = Ok None
      /\ exists st, known (nc_command_id (step_command c)) (snd w') st
         /\ match c with Dies _ _ => st = ACCEPTED | Handle _ => True end).
Proof.
  intros I. cbv zeta. destruct c as [command|command x].
  - pose proof (handle_store command w I) as A. cbn [node_do step_command].
    destruct (executes node_id (Handle command) w); [|rewrite A; done].
    destruct A as (s & G & Sv & D). pose proof (save_ok _ _ _ I Sv) as Is.
    destruct (save_same _ _ _ I Sv) as (r1 & G1 & R1). cbn [state_record cr_command_id] in G1.
    assert (O : forall id st, known id (snd w) st -> known id s st).
    { intros id st (r & Gr & Es). exists r. split; [|done]. rewrite (save_other _ _ _ id I Sv); [done|].
      cbn [state_record cr_command_id]. intros ->. by rewrite G in Gr. }
    destruct D as [->|[outcome Sv2]].
    + split_and!; [done..|]. intros _. split; [done|]. exists (cr_status r1). split; [by exists r1 | done].
    + destruct (save_same _ _ _ Is Sv2) as (r2 & G2 & R2).
      assert (Id : cr_command_id (outcome_record command outcome) = nc_command_id command) by (by destruct outcome).
      rewrite Id in G2. split_and!; [by eapply save_ok | | intros _; split; [done|]; exists (cr_status r2); split; [by exists r2 | done]].
      intros id st K. destruct (O _ _ K) as (r & Gr & Es). exists r. split; [|done]. rewrite (save_other _ _ _ id Is Sv2); [done|].
      rewrite Id. intros ->. destruct K as (r0 & G0 & _). by rewrite G in G0.
  - pose proof (accept_store command w I) as A. unfold executes. cbn [node_do step_command].
    destruct (accept node_id command w) as [o w1]. cbn [fst]. destruct A as [[N E]|(-> & G & Sv)].
    + destruct o as [[r|]|e]; cbn [snd]; rewrite ?E; done.
    + cbn [snd]. destruct (save_same _ _ _ I Sv) as (r1 & G1 & R1). cbn [state_record cr_command_id] in G1.
      split_and!; [by eapply save_ok | |].
      * intros id st (r & Gr & Es). exists r. split; [|done]. rewrite (save_other _ _ _ id I Sv); [done|].
        cbn [state_record cr_command_id]. intros ->. by rewrite G in Gr.
      * intros _. split; [done|]. exists ACCEPTED. split; [|done]. exists r1. split; [done|]. apply R1.
Qed.

Lemma run_known steps w id st :
  store_ok (snd w) -> known id (snd w) st ->
  store_ok (snd (node_run node_id steps w)) /\ known id (snd (node_run node_id steps w)) st /\ id ∉ executions node_id steps w.
Proof.
  revert w. induction steps as [|c steps IH]; intros w I K; cbn [node_run fold_left executions].
  { split_and!; [done..|]. apply not_elem_of_nil. }
  destruct (step_known c w I) as (I' & O & Ex). destruct (IH _ I' (O _ _ K)) as (I2 & K2 & N).
  split_and!; [done..|]. destruct (executes node_id c w); [|done]. intros J. apply elem_of_cons in J as [->|J]; [|done].
  destruct (Ex eq_refl) as [G _]. destruct K as (r & Gr & _). by rewrite G in Gr.
Qed.

Lemma run_ok steps w : store_ok (snd w) -> store_ok (snd (node_run node_id steps w)).
Proof.
  revert w. induction steps as [|c steps IH]; intros w I; [done|]. cbn [node_run fold_left]. apply IH. by apply step_known.
Qed.
End once.




(** A command whose execution was interrupted stays accepted: it is never
    executed again and never reaches an outcome. *)
Lemma interrupted_stays_accepted {X S : Type} `{Ports X} `{StoreLaws S} node_id steps command x (w : X * S) :
  store_ok (snd w) -> executes node_id (Dies command x) w = true ->
  let w' := node_run node_id steps (node_do node_id (Dies command x) w) in
  known (nc_command_id command) (snd w') ACCEPTED
  /\ nc_command_id command ∉ executions node_id steps (node_do node_id (Dies command x) w).
Proof.
  intros I Ex. cbv zeta. destruct (step_known node_id (Dies command x) w I) as (I' & _ & K).
  destruct (K Ex) as (_ & st & Kn & ->). by destruct (run_known node_id steps _ _ _ I' Kn) as (_ & Kn' & N).
Qed.

(** ** The calls of a command *)

Inductive port_call :=
  | Acked (command_id : string) (status : CommandAckStatus)
  | StateSet (state : TradingState)
  | StateRead
  | CancelSent (ids : option (list string))
  | Awaited
  | Listed (ids : option (list string))
  | CloseSent (p : PositionSnapshot)
  | AwaitedFlat (ps : list PositionSnapshot).

(** The call is noted, whatever it answers. *)
Definition noting {X A} (call : port_call) (m : M X A) : M (X * list port_call) A :=
  fun w => let '(r, x) := m (fst w) in (r, (x, (snd w ++ [call])%list)).

Definition recorded {X} (P : Ports X) : Ports (X * list port_call) := {|
  ack_command node id status result error := noting (Acked id status) (ack_command node id status result error);
  apply_operator_state s reason := noting (StateSet s) (apply_operator_state s reason);
  trading_state := noting StateRead trading_state;
  engine_cancel_all ids := noting (CancelSent ids) (engine_cancel_all ids);
  wait_for_no_working_orders := noting Awaited wait_for_no_working_orders;
  open_positions ids := noting (Listed ids) (open_positions ids);
  close_position_reduce_only p := noting (CloseSent p) (close_position_reduce_only p);
  wait_until_flat ps := noting (AwaitedFlat ps) (wait_until_flat ps) |}.

(** What a close_all of the positions [ps] calls, in order. *)
Definition close_all_calls (ids : option (list string)) (ps : list PositionSnapshot) : list port_call :=
  ([StateSet REDUCING; CancelSent ids; Awaited; Listed ids] ++ map CloseSent ps ++ [AwaitedFlat ps])%list.

Section calls.
Context {X S : Type} (P : Ports X) `{CommandStateStore S} (node_id : string).

(** Closing stops at the first position that raises. *)
Lemma closes_noted ps x calls :
  let '(o, (x', calls')) := mmapM (@close_position_reduce_only _ (recorded P)) ps (x, calls) in
  exists n, calls' = (calls ++ take n (map CloseSent ps))%list /\ (is_ok o = true -> (length ps <= n)%nat).
Proof.
  revert x calls. induction ps as [|p ps IH]; intros x calls; cbn [mmapM].
  - exists 0%nat. cbn. by rewrite app_nil_r.
  - unfold mbind, M_bind. change (@close_position_reduce_only _ (recorded P) p (x, calls))
      with (let '(r, x') := close_position_reduce_only p x in (r, (x', (calls ++ [CloseSent p])%list))).
    destruct (close_position_reduce_only p x) as [[r|e] x1].
    + specialize (IH x1 (calls ++ [CloseSent p])%list).
      destruct (mmapM close_position_reduce_only ps (x1, (calls ++ [CloseSent p])%list)) as [[rs|e] [x2 calls2]];
        destruct IH as (n & -> & Ok); cbn; exists (Datatypes.S n); cbn; rewrite <- app_assoc; (split; [done|]); intros E; [|done].
      specialize (Ok E). lia.
    + cbn. exists 1%nat. cbn. split; [by rewrite take_0 | done].
Qed.

Lemma close_all_noted command ids x calls :
  instrument_ids (nc_args command) = Ok ids ->
  let '(o, (x', calls')) := @close_all_command _ (recorded P) command (x, calls) in
  exists ps n, calls' = (calls ++ take n (close_all_calls ids ps))%list
    /\ (is_ok o = true -> (length (close_all_calls ids ps) <= n)%nat).
Proof.
  intros I. unfold close_all_command, mlift, mbind, M_bind. rewrite I. cbn [recorded apply_operator_state].
  unfold noting at 1. cbn [fst snd].
  destruct (apply_operator_state REDUCING _ x) as [[u|e] x1]; [|cbn; exists [], 1%nat; by split].
  cbn [recorded engine_cancel_all]. unfold noting at 1. cbn [fst snd].
  destruct (engine_cancel_all ids x1) as [[r|e] x2]; [|cbn; exists [], 2%nat; cbn; by rewrite <- app_assoc].
  cbn [recorded wait_for_no_working_orders]. unfold noting at 1. cbn [fst snd].
  destruct (wait_for_no_working_orders x2) as [[u2|e] x3]; [|cbn; exists [], 3%nat; cbn; by rewrite <- !app_assoc].
  cbn [recorded open_positions]. unfold noting at 1. cbn [fst snd].
  destruct (open_positions ids x3) as [[ps|e] x4]; [|cbn; exists [], 4%nat; cbn; by rewrite <- !app_assoc].
  rewrite <- !app_assoc. cbn [app].
  pose proof (closes_noted ps x4 (calls ++ [StateSet REDUCING; CancelSent ids; Awaited; Listed ids])%list) as C.
  destruct (mmapM _ ps _) as [[rs|e] [x5 calls5]]; destruct C as (n & -> & Ok).
  - specialize (Ok eq_refl). cbn [recorded wait_until_flat]. unfold noting at 1. cbn [fst snd].
    assert (T : take n (map CloseSent ps) = map CloseSent ps) by (apply take_ge; by rewrite length_map).
    rewrite T. destruct (wait_until_flat ps x5) as [[u3|e] x6]; cbv beta iota;
      (exists ps, (length (close_all_calls ids ps)); rewrite firstn_all; unfold close_all_calls; by rewrite <- !app_assoc).
  - cbv beta iota. exists ps, (4 + Nat.min n (length ps))%nat. unfold close_all_calls. split; [|done]. rewrite <- app_assoc. f_equal.
    cbn [Nat.add app take]. do 4 f_equal. rewrite take_app, length_map.
    replace (Nat.min n (length ps) - length ps)%nat with 0%nat by lia. rewrite take_0, app_nil_r.
    destruct (Nat.le_ge_cases n (length ps)); [by rewrite Nat.min_l | rewrite Nat.min_r by done].
    rewrite !take_ge; rewrite ?length_map; done.
Qed.
(** A close_all never closes a position while the node could still open
    one, and never says completed before everything it promises was done: its
    calls are, in this order, the acceptance, the switch to REDUCING, the
    cancellation, the wait for no working order, the listing of positions, one
    reduce-only close per listed position and the wait until they are flat; a
    call that raises ends the sequence there and the command failed, and it is
    completed exactly when the whole sequence ran. *)
Theorem close_all_sequence command ids x s r x' calls s' :
  nc_type command = CLOSE_ALL -> instrument_ids (nc_args command) = Ok ids ->
  store_get (nc_command_id command) s = Ok None ->
  @handle _ S (recorded P) _ node_id command ((x, []), s) = (Ok r, ((x', calls), s')) ->
  exists ps n,
    calls = (Acked (nc_command_id command) ACCEPTED :: take n (close_all_calls ids ps)
             ++ [Acked (nc_command_id command) (cr_status r)])%list
    /\ ((cr_status r = COMPLETED /\ (length (close_all_calls ids ps) <= n)%nat) \/ cr_status r = FAILED).
Proof.
  intros T I G Hh. unfold handle, accept, get_state, ack, save_state, outside, mbind, M_bind in Hh. cbn [fst snd] in Hh. rewrite G in Hh.
  cbn [fst snd] in Hh.
  change (@ack_command _ (recorded P) node_id (nc_command_id command) ACCEPTED PNone PNone (x, []))
    with (let '(r, x') := ack_command node_id (nc_command_id command) ACCEPTED PNone PNone x in
          (r, (x', [Acked (nc_command_id command) ACCEPTED]))) in Hh.
  destruct (ack_command node_id (nc_command_id command) ACCEPTED PNone PNone x) as [[u|e] x1]; [|done]. cbn [fst snd] in Hh.
  destruct (store_save _ s) as [s1|]; [|done]. cbn [fst snd mret M_ret] in Hh. unfold attempt, outside, execute in Hh. rewrite T in Hh.
  cbn [fst snd] in Hh. pose proof (close_all_noted command ids x1 [Acked (nc_command_id command) ACCEPTED] I) as C.
  destruct (close_all_command command (x1, [Acked (nc_command_id command) ACCEPTED])) as [o [x2 calls2]].
  destruct C as (ps & n & -> & Cn). unfold finish, save_state, ack, outside, mbind, M_bind in Hh. cbn [fst snd] in Hh.
  destruct (store_save (outcome_record command o) s1) as [s2|]; [|done]. cbn [fst snd] in Hh.
  set (rec := outcome_record command o) in *.
  change (@ack_command _ (recorded P) node_id (nc_command_id command) (cr_status rec) (cr_result rec) (cr_error rec)
            (x2, ([Acked (nc_command_id command) ACCEPTED] ++ take n (close_all_calls ids ps))%list))
    with (let '(r, x') := ack_command node_id (nc_command_id command) (cr_status rec) (cr_result rec) (cr_error rec) x2 in
          (r, (x', (([Acked (nc_command_id command) ACCEPTED] ++ take n (close_all_calls ids ps))
                    ++ [Acked (nc_command_id command) (cr_status rec)])%list))) in Hh.
  destruct (ack_command node_id _ (cr_status rec) _ _ x2) as [[u2|e] x3]; [|done]. cbn in Hh. injection Hh as <- _ <- _.
  exists ps, n. split; [done|]. unfold rec. destruct o; cbn; auto.
Qed.
End calls.

(** ** Examples *)

(** Parties that answer everything: one position is open. *)
Definition sample_position : PositionSnapshot := {| ps_position_id := "p1"; ps_instrument_id := "BTCUSDT-PERP.BINANCE" |}.

#[local] Instance sample_ports : Ports unit := {|
  ack_command _ _ _ _ _ := mret tt;
  apply_operator_state _ _ := mret tt;
  trading_state := mret REDUCING;
  engine_cancel_all _ := mret [("cancelled", PInt 2)];
  wait_for_no_working_orders := mret tt;
  open_positions _ := mret [sample_position];
  close_position_reduce_only _ := mret [];
  wait_until_flat _ := mret tt |}.

Definition sample_command : NodeCommand := {| nc_command_id := "cmd-1"; nc_type := CLOSE_ALL; nc_args := [] |}.


Lemma close_all_sequence_witness :
  exists r calls s', @handle _ stored (recorded sample_ports) _ "node-a" sample_command ((tt, []), Absent) = (Ok r, ((tt, calls), s'))
    /\ exists ps n, calls = (Acked "cmd-1" ACCEPTED :: take n (close_all_calls None ps) ++ [Acked "cmd-1" (cr_status r)])%list.
Proof.
  destruct (@handle _ stored (recorded sample_ports) _ "node-a" sample_command ((tt, []), Absent)) as [o [[u calls] s']] eqn:E.
  assert (O : is_ok o = true) by (apply (f_equal fst) in E; vm_compute in E; by rewrite <- E).
  destruct o as [r|]; [|discriminate O]. destruct u. exists r, calls, s'. split; [reflexivity|].
  destruct (@close_all_sequence unit stored sample_ports json_store "node-a" sample_command None tt Absent r tt calls s' eq_refl eq_refl eq_refl E)
    as (ps & n & C & _). exists ps, n. exact C.
Defined.

(** A halt that was interrupted is never applied: the node only repeats that it
    has accepted it. *)
Definition sample_halt : NodeCommand := {| nc_command_id := "cmd-2"; nc_type := HALT; nc_args := [] |}.

Lemma interrupted_halt_lost :
  let w := node_do "node-a" (Dies sample_halt tt) (tt, Absent) in
  executions "node-a" [Handle sample_halt; Handle sample_halt] w = []
  /\ match handle "node-a" sample_halt w with (Ok r, _) => cr_status r = ACCEPTED | _ => False end.
Proof. vm_compute. done. Qed.
