(* ===== verification/CloseAll.v ===== *)
(** * CloseAll: flattening an account at the venue

    Models nautilus-node/commands/position_identity.py (which snapshots are one
    position), commands/close_all.py and commands/cancel_all.py (closing every
    position and cancelling every order with retries, then verifying with the
    venue).  Snapshots and orders are what a venue hands out, a dictionary or
    an object with attributes; the venue and the routine that closes one
    position are a class of stateful operations on a state [V], with the
    shorter call the code falls back to on a TypeError.  A delay is an
    operation of the venue too, for the venue moves on while the code sleeps. *)

From Stdlib Require Import ZArith Lia Ascii QArith Qabs Lqa.
From S2P Require Import Prelude Decimal PyString DecText PyValue Identifiers Json NodeCommands.
Open Scope string_scope.
Open Scope Z_scope.

(** ** Snapshots *)

Inductive snapshot := Mapping (d : dict) | Attributes (d : dict).

(** [_value] and [_order_field] *)
Definition value_of (s : snapshot) (name : string) : pyval :=
  match s with Mapping d | Attributes d => dget name d end.

(** [a or b or c] *)
Definition first_of (s : snapshot) (names : list string) : pyval :=
  fold_right (fun name rest => py_or (value_of s name) rest) PNone names.

(** [_decimal]: what is not a number counts as zero. *)
Definition decimal_or_zero (v : pyval) : xdec := default (XFin dzero) (to_xdec v).

(** [_decimal_text] *)
Definition decimal_text (x : xdec) : string := xformat_f (xnormalize x).

(** [_hedge_side] *)
Definition hedge_side (s : snapshot) : option string :=
  let mode := upper (py_str (py_or (value_of s "position_mode") (PStr ""))) in
  let raw_side := lower (py_str (py_or (first_of s ["position_side"; "side"]) (PStr ""))) in
  if String.eqb mode "HEDGE" && str_in raw_side ["long"; "short"] then Some raw_side else None.

(** [_canonical_key_from_text] *)
Definition canonical_key_from_text (account_id key : string) : result string :=
  match partition ":" key with
  | (_, false, _) => Ok key
  | (_, true, rest) =>
      let '(symbol, has_side, tail) := partition ":" rest in
      position_key {| pk_account_id := account_id; pk_venue_symbol := symbol;
                      pk_side := if has_side then Some (before ":" tail) else None |}
  end.

(** [position_key_for_snapshot] *)
Definition position_key_for_snapshot (account_id : string) (s : snapshot) : result string :=
  account ← canonical_account_id (Some (py_str (py_or (value_of s "account_id") (PStr account_id))));
  let explicit_key := value_of s "position_key" in
  if truthy explicit_key then canonical_key_from_text account (py_str explicit_key)
  else
    let instrument := first_of s ["instrument_id"; "venue_symbol"; "symbol"] in
    let symbol := canonical_instrument_key (py_str (py_or instrument (PStr ""))) in
    if is_empty symbol then Raise (ValueError "position snapshot missing instrument identity")
    else position_key {| pk_account_id := account; pk_venue_symbol := symbol; pk_side := hedge_side s |}.

(** [_position_id] *)
Definition position_id (account_id : string) (s : snapshot) : result string :=
  let id := first_of s ["position_id"; "id"; "venue_position_id"] in
  if truthy id then Ok (py_str id) else position_key_for_snapshot account_id s.

Definition snapshot_names : list string :=
  ["account_id"; "position_id"; "instrument_id"; "venue_symbol"; "symbol"; "position_side"; "position_mode"; "side";
   "ownership"; "source"; "quantity"; "qty"].

(** The attributes of the names that are there. *)
Definition attributes_of (names : list string) (d : dict) : dict :=
  List.filter (fun p => negb (is_none (snd p))) (map (fun name => (name, dget name d)) names).

(** [_snapshot_to_dict] *)
Definition snapshot_to_dict (s : snapshot) : dict :=
  match s with Mapping d => d | Attributes d => attributes_of snapshot_names d end.

(** [abs(_decimal(_value(snapshot, "quantity") or _value(snapshot, "qty")))] *)
Definition quantity_of (s : snapshot) : xdec := xabs (decimal_or_zero (first_of s ["quantity"; "qty"])).

Definition is_flat (s : snapshot) : bool := xeqb (quantity_of s) (XFin dzero).

Definition append_source (id : string) (item : dict) : dict :=
  dset "source_position_ids" (match dget "source_position_ids" item with
                              | PList l => PList (l ++ [PStr id])
                              | v => v
                              end) item.

(** One round of the loop of [merge_position_snapshots]. *)
Definition merge_snapshot (account_id : string) (merged : list (string * dict)) (s : snapshot)
    : result (list (string * dict)) :=
  if is_flat s then Ok merged
  else
    key ← position_key_for_snapshot account_id s;
    id ← position_id account_id s;
    let item := dset "source_position_ids" (PList [PStr id])
                  (dset "quantity" (PStr (decimal_text (quantity_of s))) (dset "position_key" (PStr key) (snapshot_to_dict s))) in
    match aget key merged with
    | None => Ok (aset key item merged)
    | Some current =>
        larger ← xltb (decimal_or_zero (dget "quantity" current)) (quantity_of s);
        let kept := if larger : bool then dset "source_position_ids" (dget "source_position_ids" current) item else current in
        Ok (aset key (append_source id kept) merged)
    end.

Definition merge_position_snapshots (account_id : string) (snapshots : list snapshot) : result (list dict) :=
  map snd <$> foldR (merge_snapshot account_id) [] snapshots.

Definition key_in (target_keys : list string) (position : dict) : bool :=
  match dget "position_key" position with PStr key => str_in key target_keys | _ => false end.

Definition residual_positions (account_id : string) (target_keys : list string) (snapshots : list snapshot)
    : result (list dict) :=
  positions ← merge_position_snapshots account_id snapshots;
  Ok (List.filter (key_in target_keys) positions).

Definition close_boundary_flat (account_id : string) (target_keys : list string) (venue_positions : list snapshot)
    (db_positions : option (list snapshot)) : result bool :=
  at_venue ← residual_positions account_id target_keys venue_positions;
  match at_venue, db_positions with
  | _ :: _, _ => Ok false
  | [], None => Ok true
  | [], Some db => in_db ← residual_positions account_id target_keys db; Ok (match in_db with [] => true | _ => false end)
  end.

(** ** The venue *)

(** What [close_one] returns: nothing, a dictionary, an object with fields, or
    something else, of which only the text is used. *)
Inductive close_result := CloseNone | CloseDict (d : dict) | CloseObject (d : dict) | CloseOther (text : string).

Class Venue (V : Type) := {
  list_working_orders : option string -> option (list string) -> M V (list snapshot);
  list_working_orders_plain : M V (list snapshot);
  cancel_order : snapshot -> M V pyval;
  cancel_order_by_id : string -> pyval -> M V pyval;
  list_open_positions : string -> M V (list snapshot);
  list_open_positions_plain : M V (list snapshot);
  close_one : string -> string -> dict -> M V close_result;
  close_one_plain : string -> string -> M V close_result;
  venue_sleep : dec -> M V unit }.

(** [CloseAllSettings] and [CancelAllSettings] *)
Record FlattenSettings := {
  fs_max_attempts : Z;
  fs_inter_delay_seconds : dec;
  fs_retry_delay_seconds : dec;
  fs_verify_attempts : Z;
  fs_verify_delay_seconds : dec }.

Definition default_settings : FlattenSettings :=
  {| fs_max_attempts := 3; fs_inter_delay_seconds := Dec 5 (-2); fs_retry_delay_seconds := Dec 5 (-2);
     fs_verify_attempts := 3; fs_verify_delay_seconds := Dec 5 (-2) |}.

(** The tries that follow the first of [max(attempts, 1)]. *)
Definition more_attempts (attempts : Z) : nat := Z.to_nat (Z.max attempts 1 - 1).

Section venue.
Context {V : Type} `{Venue V}.

(** [try: body except TypeError: fallback] *)
Definition on_type_error {A} (body fallback : M V A) : M V A := fun v =>
  match body v with
  | (Raise (TypeError _), v') => fallback v'
  | r => r
  end.

(** [_sleep] *)
Definition sleep (seconds : dec) : M V unit := if dltb dzero seconds then venue_sleep seconds else mret tt.

(** [_list_open_positions] *)
Definition listed_positions (account_id : string) : M V (list snapshot) :=
  on_type_error (list_open_positions account_id) list_open_positions_plain.

(** [_list_working_orders] *)
Definition working_orders (account_id : option string) (ids : option (list string)) : M V (list snapshot) :=
  on_type_error (list_working_orders account_id ids) list_working_orders_plain.

(** ** Cancelling *)

(** [_order_id] *)
Definition order_id (order : snapshot) : result string :=
  let id := first_of order ["order_id"; "venue_order_id"; "client_order_id"; "id"] in
  if truthy id then Ok (py_str id) else Raise (ValueError "working order missing order id").

(** [_order_to_dict] *)
Definition order_to_dict (order : snapshot) : dict :=
  match order with
  | Mapping d => d
  | Attributes d => attributes_of ["order_id"; "venue_order_id"; "client_order_id"; "instrument_id"; "status"] d
  end.

(** [_call_cancel_order] *)
Definition call_cancel_order (order : snapshot) : M V pyval :=
  on_type_error (cancel_order order) (id ← mlift (order_id order); cancel_order_by_id id (value_of order "instrument_id")).

(** The loop of [_cancel_one], with [more] tries after this one. *)
Fixpoint cancel_tries (settings : FlattenSettings) (order : snapshot) (id : string) (attempt : Z) (more : nat) : M V dict :=
  fun v =>
    match call_cancel_order order v with
    | (Ok result, v') =>
        (Ok [("order_id", PStr id); ("status", PStr "cancel_requested"); ("attempts", PInt attempt);
             ("result", if is_dict result then result else PDict [("accepted", PBool true)])], v')
    | (Raise exc, v') =>
        match more with
        | O => (Ok [("order_id", PStr id); ("status", PStr "failed"); ("attempts", PInt attempt);
                    ("error", py_or (PStr (exn_str exc)) (PStr "cancel failed"))], v')
        | S more =>
            (_ ← sleep (fs_retry_delay_seconds settings); cancel_tries settings order id (attempt + 1) more) v'
        end
    end.

(** [_cancel_one] *)
Definition cancel_one (settings : FlattenSettings) (order : snapshot) : M V dict :=
  id ← mlift (order_id order);
  cancel_tries settings order id 1 (more_attempts (fs_max_attempts settings)).

(** [body] for each element, with a delay between two of them. *)
Fixpoint paced {A} (delay : dec) (body : A -> M V dict) (xs : list A) : M V (list dict) :=
  match xs with
  | [] => mret []
  | x :: xs =>
      r ← body x;
      _ ← (match xs with [] => mret tt | _ => sleep delay end);
      rs ← paced delay body xs;
      mret (r :: rs)
  end.

(** The loop of [_verify_no_working_orders] and of [_verify_flat]: what is
    left according to the last look. *)
Fixpoint verify {A} (delay : dec) (look : M V (list A)) (more : nat) : M V (list A) :=
  remaining ← look;
  match remaining, more with
  | [], _ => mret []
  | _, O => mret remaining
  | _, S more => _ ← sleep delay; verify delay look more
  end.

Definition status_text (complete : bool) : pyval := PStr (if complete then "completed" else "partial").

Definition cancel_all (account_id : option string) (ids : option (list string)) (settings : FlattenSettings) : M V dict :=
  initial_orders ← working_orders account_id ids;
  order_results ← paced (fs_inter_delay_seconds settings) (cancel_one settings) initial_orders;
  remaining ← verify (fs_verify_delay_seconds settings) (working_orders account_id ids)
                     (more_attempts (fs_verify_attempts settings));
  mret [("status", status_text (match remaining with [] => true | _ => false end));
        ("orders", PList (map PDict order_results));
        ("remaining_working_orders", PList (map (fun o => PDict (order_to_dict o)) remaining));
        ("verification", PDict [("phase", PStr "venue_final_verification");
                                ("working_order_count", PInt (Z.of_nat (length remaining)))])].

(** ** Closing *)

(** [_result_dict] *)
Definition result_dict (r : close_result) : dict :=
  match r with
  | CloseNone => [("accepted", PBool true)]
  | CloseDict d | CloseObject d => d
  | CloseOther text => [("result", PStr text)]
  end.

(** [result.get("success") is False or result.get("status") in {"failed", "partial"}] *)
Definition refused (result : dict) : Prelude.result bool :=
  match dget "success" result, dget "status" result with
  | PBool false, _ => Ok true
  | _, PStr status => Ok (str_in status ["failed"; "partial"])
  | _, PList _ | _, PDict _ => Raise (TypeError "unhashable type")
  | _, _ => Ok false
  end.

Definition CloseFailed (result : dict) : exn :=
  RuntimeError "RuntimeError" (py_str (py_or (dget "error" result) (py_or (dget "reason" result) (PStr "close failed")))).

(** [_call_close_one] *)
Definition call_close_one (account_id key : string) (position : dict) : M V close_result :=
  on_type_error (close_one account_id key position) (close_one_plain account_id key).

(** The body of the [try] of [_close_position]. *)
Definition close_try (account_id key : string) (position : dict) : M V dict :=
  raw ← call_close_one account_id key position;
  let result := result_dict raw in
  failed ← mlift (refused result);
  if (failed : bool) then mraise (CloseFailed result) else mret result.

(** The loop of [_close_position], with [more] tries after this one. *)
Fixpoint close_tries (settings : FlattenSettings) (account_id key : string) (position : dict) (attempt : Z) (more : nat)
    : M V dict :=
  fun v =>
    match close_try account_id key position v with
    | (Ok result, v') =>
        (Ok [("position_key", PStr key); ("status", PStr "closed"); ("attempts", PInt attempt); ("reduce_only", PBool true);
             ("result", PDict result)], v')
    | (Raise exc, v') =>
        match more with
        | O => (Ok [("position_key", PStr key); ("status", PStr "failed"); ("attempts", PInt attempt);
                    ("reduce_only", PBool true); ("error", py_or (PStr (exn_str exc)) (PStr "close failed"))], v')
        | S more =>
            (_ ← sleep (fs_retry_delay_seconds settings); close_tries settings account_id key position (attempt + 1) more) v'
        end
    end.

(** [position["position_key"]] of a merged position *)
Definition key_of (position : dict) : string := py_str (dget "position_key" position).

(** [_close_position] *)
Definition close_position (settings : FlattenSettings) (account_id : string) (position : dict) : M V dict :=
  close_tries settings account_id (key_of position) position 1 (more_attempts (fs_max_attempts settings)).

(** One look of [_verify_flat]. *)
Definition residual_now (account_id : string) (target_keys : list string) : M V (list dict) :=
  snapshots ← listed_positions account_id;
  mlift (residual_positions account_id target_keys snapshots).

Definition close_all (account_id : string) (positions : option (list snapshot)) (settings : FlattenSettings) : M V dict :=
  snapshots ← match positions with Some l => mret l | None => listed_positions account_id end;
  open_positions ← mlift (merge_position_snapshots account_id snapshots);
  let target_keys := map key_of open_positions in
  results ← paced (fs_inter_delay_seconds settings) (close_position settings account_id) open_positions;
  residual ← verify (fs_verify_delay_seconds settings) (residual_now account_id target_keys)
                    (more_attempts (fs_verify_attempts settings));
  let flat := match residual with [] => true | _ => false end in
  mret [("status", status_text flat); ("positions", PList (map PDict results));
        ("residual_positions", PList (map PDict residual));
        ("verification", PDict [("phase", PStr "venue_final_verification"); ("flat", PBool flat);
                                ("target_position_keys", PList (map PStr target_keys))])].
End venue.

(** ** Which positions there are *)

(** Merged positions are kept under the key they carry. *)
Definition keyed (merged : list (string * dict)) : Prop :=
  NoDup (map fst merged) /\ Forall (fun p => dget "position_key" (snd p) = PStr (fst p)) merged.

Lemma append_source_key id item : dget "position_key" (append_source id item) = dget "position_key" item.
Proof. unfold append_source. by rewrite dget_dset_ne. Qed.

Lemma aset_forall {A} (Q : string * A -> Prop) k v d : Q (k, v) -> Forall Q d -> Forall Q (aset k v d).
Proof.
  intros Qv F. induction F as [|[k' v'] d Qp F IH]; simpl; [by repeat constructor|].
  destruct (String.eqb k k'); by constructor.
Qed.

Lemma aset_elem {A} k k' (v : A) d : k' ∈ map fst (aset k v d) <-> k' = k \/ k' ∈ map fst d.
Proof.
  rewrite aset_keys. destruct (bool_decide_reflect (k ∈ map fst d)) as [J|J].
  - split; [auto|]. by intros [->|].
  - rewrite elem_of_app, list_elem_of_singleton. split; intros [?|?]; auto.
Qed.

(** One round: a flat snapshot is skipped, another one is merged under its key. *)
Lemma merge_snapshot_inv account merged s merged' :
  keyed merged -> merge_snapshot account merged s = Ok merged' ->
  keyed merged' /\ (is_flat s = true /\ merged' = merged
    \/ is_flat s = false /\ exists key, position_key_for_snapshot account s = Ok key
         /\ forall k, k ∈ map fst merged' <-> k = key \/ k ∈ map fst merged).
Proof.
  intros [N F] E. unfold merge_snapshot in E. destruct (is_flat s); [injection E as <-; split; [done | by left]|].
  destruct (position_key_for_snapshot account s) as [key|] eqn:K; [|done]. cbn [mbind result_bind] in E.
  destruct (position_id account s) as [id|]; [|done]. cbn [mbind result_bind] in E.
  set (item := dset "source_position_ids" _ _) in E.
  assert (Ki : dget "position_key" item = PStr key).
  { unfold item. by rewrite dget_dset_ne, dget_dset_ne, dget_dset_eq. }
  assert (X : exists kept, dget "position_key" kept = PStr key /\ merged' = aset key kept merged).
  { destruct (aget key merged) as [current|] eqn:G; [|injection E as <-; by exists item].
    destruct (xltb _ _) as [larger|]; [|done]. cbn [mbind result_bind] in E. injection E as <-.
    eexists. split; [|done]. rewrite append_source_key. destruct larger; [by rewrite dget_dset_ne|].
    apply aget_elem in G. rewrite Forall_forall in F. apply (F _ G). }
  destruct X as (kept & Kk & ->). split.
  - split; [by apply aset_nodup | by apply aset_forall].
  - right. split; [done|]. exists key. split; [done|]. intros k. apply aset_elem.
Qed.

Lemma merge_fold account snapshots merged merged' :
  keyed merged -> foldR (merge_snapshot account) merged snapshots = Ok merged' ->
  keyed merged' /\ forall k, k ∈ map fst merged' <->
    k ∈ map fst merged \/ exists s, s ∈ snapshots /\ is_flat s = false /\ position_key_for_snapshot account s = Ok k.
Proof.
  revert merged. induction snapshots as [|s snapshots IH]; intros merged K E; cbn [foldR] in E.
  - injection E as <-. split; [done|]. intros k. split; [auto|]. intros [?|(s & J & _)]; [done | by apply not_elem_of_nil in J].
  - destruct (merge_snapshot account merged s) as [merged1|] eqn:M; [|done]. cbn [mbind result_bind] in E.
    destruct (merge_snapshot_inv _ _ _ _ K M) as [K1 C]. destruct (IH _ K1 E) as [K2 H2]. split; [done|]. intros k. rewrite H2.
    destruct C as [[Fl ->]|(Fl & key & Ek & H1)].
    + split; [intros [?|(s' & J & F & P)]; [auto|]; right; exists s'; split; [by right | done]|].
      intros [?|(s' & J & F & P)]; [auto|]. apply elem_of_cons in J as [->|J]; [congruence|]. right. by exists s'.
    + rewrite H1. split.
      * intros [[->|?]|(s' & J & F & P)]; [right; exists s; split; [left | done] | auto | right; exists s'; split; [by right | done]].
      * intros [?|(s' & J & F & P)]; [auto|]. apply elem_of_cons in J as [->|J].
        -- left. left. rewrite Ek in P. by injection P.
        -- right. by exists s'.
Qed.

(** Snapshots are merged by identity: each merged position has its own key,
    and the keys are exactly those of the snapshots that are not flat, however
    the venue splits, repeats or orders them. *)
Theorem merged_positions account snapshots positions :
  merge_position_snapshots account snapshots = Ok positions ->
  NoDup (map key_of positions)
  /\ forall key, key ∈ map key_of positions <->
       exists s, s ∈ snapshots /\ is_flat s = false /\ position_key_for_snapshot account s = Ok key.
Proof.
  unfold merge_position_snapshots. intros E. destruct (foldR _ [] snapshots) as [merged|] eqn:M; [|done]. injection E as <-.
  destruct (merge_fold account snapshots [] merged) as [[N F] H]; [split; [constructor | done] | done|].
  assert (X : map key_of (map snd merged) = map fst merged).
  { rewrite map_map. apply map_ext_Forall. eapply Forall_impl; [exact F|]. intros [k item] E. unfold key_of. by rewrite E. }
  rewrite X. split; [done|]. intros key. rewrite H. split; [intros [J|J]; [by apply not_elem_of_nil in J | done] | auto].
Qed.

Lemma merged_key account snapshots positions p :
  merge_position_snapshots account snapshots = Ok positions -> p ∈ positions -> exists key, dget "position_key" p = PStr key.
Proof.
  unfold merge_position_snapshots. intros E J. destruct (foldR _ [] snapshots) as [merged|] eqn:M; [|done]. injection E as <-.
  destruct (merge_fold account snapshots [] merged) as [[N F] H]; [split; [constructor | done] | done|].
  apply list_elem_of_fmap in J as ([k item] & -> & J). rewrite Forall_forall in F. specialize (F _ J). eauto.
Qed.

(** Nothing is left of the targets when none of their snapshots has a quantity. *)
Lemma no_residual account target_keys snapshots :
  residual_positions account target_keys snapshots = Ok [] ->
  forall s key, s ∈ snapshots -> position_key_for_snapshot account s = Ok key -> key ∈ target_keys -> is_flat s = true.
Proof.
  unfold residual_positions. intros E s key J K T. destruct (merge_position_snapshots account snapshots) as [l|] eqn:M; [|done].
  cbn [mbind result_bind] in E. apply ok_inj in E. destruct (is_flat s) eqn:Fl; [done|]. exfalso.
  destruct (merged_positions _ _ _ M) as [_ H].
  assert (X : key ∈ map key_of l) by (apply H; eauto). apply list_elem_of_fmap in X as (p & -> & Jp).
  destruct (merged_key _ _ _ _ M Jp) as [key Kp].
  assert (Y : p ∈ List.filter (key_in target_keys) l); [|rewrite E in Y; by apply not_elem_of_nil in Y].
  apply list_elem_of_In, filter_In. split; [by apply list_elem_of_In|]. unfold key_in. rewrite Kp. apply str_in_spec.
  unfold key_of in T. by rewrite Kp in T.
Qed.

(** ** What is verified *)

Section verified.
Context {V : Type} `{Venue V}.

(** What is left is what the last look found. *)
Lemma verify_last {A} delay (look : M V (list A)) more v remaining v' :
  verify delay look more v = (Ok remaining, v') -> exists v1, look v1 = (Ok remaining, v').
Proof.
  revert v. induction more as [|more IH]; intros v E; cbn [verify] in E; unfold mbind, M_bind in E.
  - destruct (look v) as [[l|e] v1] eqn:L; [|done]. destruct l; injection E as <- <-; eauto.
  - destruct (look v) as [[l|e] v1] eqn:L; [|done]. destruct l as [|x l]; [injection E as <- <-; eauto|].
    destruct (sleep delay v1) as [[u|e] v2]; [|done]. by apply IH in E.
Qed.

(** Where the quantity reads as a number, flat means that it is zero. *)
Lemma flat_reads s x : to_xdec (first_of s ["quantity"; "qty"]) = Some (XFin x) -> is_flat s = true <-> (dval x == 0)%Q.
Proof.
  intros R. unfold is_flat, quantity_of, decimal_or_zero. rewrite R. cbn. unfold xeqb. cbn.
  assert (Z : (dval dzero == 0)%Q) by reflexivity.
  change (match dcompare (dabs x) dzero with Eq => true | _ => false end) with (deqb (dabs x) dzero).
  destruct (Qeq_dec (dval x) 0) as [E|N].
  - split; [done|]. intros _. apply deqb_eq. unfold equiv, dec_equiv. rewrite Z. pose proof (dabs_nonneg x) as P.
    pose proof (dabs_approx x) as A. unfold approx in A. rewrite E in A. change (Qabs (Qabs 0)) with 0%Q in A.
    change (Qabs 0) with 0%Q in A. apply Qabs_Qle_condition in A. lra.
  - split; [|done]. intros F. apply deqb_eq in F. unfold equiv, dec_equiv in F. pose proof (dabs_pos x N). lra.
Qed.

(** C35. A close_all that reports completed has seen the account flat as the code
    reads it: after everything it sent, the venue's own last listing has no
    open quantity for any position that was open when it started, under
    whatever spelling or side convention the venue lists it.  Open and flat
    are the code's: a quantity that reads as a number is flat exactly when it
    is zero, one that cannot be read counts as zero
    ([unreadable_quantity_is_flat]). *)
Theorem close_all_flat account positions settings v report v' :
  close_all account positions settings v = (Ok report, v') -> dget "status" report = PStr "completed" ->
  exists opened listing v1,
    match positions with Some l => opened = l | None => exists v0, listed_positions account v = (Ok opened, v0) end
    /\ listed_positions account v1 = (Ok listing, v')
    /\ (forall s s' key, s ∈ opened -> is_flat s = false -> position_key_for_snapshot account s = Ok key ->
          s' ∈ listing -> position_key_for_snapshot account s' = Ok key -> is_flat s' = true)
    /\ forall s s' key x x', s ∈ opened -> s' ∈ listing ->
         position_key_for_snapshot account s = Ok key -> position_key_for_snapshot account s' = Ok key ->
         to_xdec (first_of s ["quantity"; "qty"]) = Some (XFin x) -> ~ (dval x == 0)%Q ->
         to_xdec (first_of s' ["quantity"; "qty"]) = Some (XFin x') -> (dval x' == 0)%Q.
Proof.
  intros E St. unfold close_all, mlift in E. apply mbind_inv_ok in E as (opened & v0 & O & E).
  apply mbind_inv_ok in E as (open & v1 & M & E). injection M as M <-.
  apply mbind_inv_ok in E as (results & v2 & _ & E). apply mbind_inv_ok in E as (residual & v3 & R & E). injection E as <- <-.
  destruct residual as [|p residual]; [|discriminate St].
  apply verify_last in R as [v4 R]. unfold residual_now, mlift in R. apply mbind_inv_ok in R as (listing & v5 & L & R).
  injection R as R <-. exists opened, listing, v4.
  assert (FL : forall s s' key, s ∈ opened -> is_flat s = false -> position_key_for_snapshot account s = Ok key ->
            s' ∈ listing -> position_key_for_snapshot account s' = Ok key -> is_flat s' = true).
  { intros s s' key J F K J' K'. eapply no_residual; [exact R | exact J' | exact K' |].
    destruct (merged_positions _ _ _ M) as [_ H0]. apply H0. eauto. }
  split_and!; [|done|exact FL|].
  - destruct positions; [by injection O as <- _ | eauto].
  - intros s s' key x x' J J' K K' Q N Q'. apply (flat_reads s' x' Q'). eapply FL; [exact J | | exact K | exact J' | exact K'].
    apply not_true_iff_false. by rewrite (flat_reads s x Q).
Qed.

(** A cancel_all reports what the venue's last listing of working orders
    says, and completed exactly when that listing is empty. *)
Theorem cancel_all_verified account ids settings v report v' :
  cancel_all account ids settings v = (Ok report, v') ->
  exists remaining v1, working_orders account ids v1 = (Ok remaining, v')
    /\ dget "remaining_working_orders" report = PList (map (fun o => PDict (order_to_dict o)) remaining)
    /\ (dget "status" report = PStr "completed" <-> remaining = []).
Proof.
  intros E. unfold cancel_all in E. apply mbind_inv_ok in E as (orders & v0 & _ & E).
  apply mbind_inv_ok in E as (results & v2 & _ & E). apply mbind_inv_ok in E as (remaining & v3 & R & E). injection E as <- <-.
  apply verify_last in R as [v4 R]. exists remaining, v4. split_and!; [done..|]. by destruct remaining.
Qed.

(** ** Tries *)

(** Closing a position takes at most the tries that are allowed, and says
    closed only when the last of them was answered and not refused. *)
Lemma close_tries_bounded settings account key position attempt more v o v' :
  close_tries settings account key position attempt more v = (Ok o, v') ->
  exists n, dget "attempts" o = PInt n /\ attempt <= n <= attempt + Z.of_nat more
    /\ dget "position_key" o = PStr key
    /\ (dget "status" o = PStr "closed" -> exists result v1, close_try account key position v1 = (Ok result, v')).
Proof.
  revert attempt v. induction more as [|more IH]; intros attempt v E; cbn [close_tries] in E;
    destruct (close_try account key position v) as [[result|exc] v1] eqn:T.
  1, 2, 3: injection E as <- <-; exists attempt; split_and!; try done; try lia; eauto.
  apply mbind_inv_ok in E as (u & v2 & _ & E). destruct (IH _ _ E) as (n & A & B & C). exists n. split_and!; try done; try lia; apply C.
Qed.

Lemma paced_results {A} delay (body : A -> M V dict) (Q : A -> dict -> Prop) xs v rs v' :
  (forall x v r v', body x v = (Ok r, v') -> Q x r) -> paced delay body xs v = (Ok rs, v') -> Forall2 Q xs rs.
Proof.
  intros B. revert v rs v'. induction xs as [|x xs IH]; intros v rs v' E; cbn [paced] in E; [injection E as <- _; constructor|].
  apply mbind_inv_ok in E as (r & v1 & R & E). apply mbind_inv_ok in E as (u & v2 & _ & E).
  apply mbind_inv_ok in E as (rs' & v3 & Rs & E). injection E as <- _. constructor; [by eapply B | by eapply IH].
Qed.

(** A close_all answers for every position it found: one result per target,
    in order, each after at least one and at most the allowed number of tries. *)
Theorem close_all_attempts account positions settings v report v' :
  close_all account positions settings v = (Ok report, v') ->
  exists keys results,
    dget "verification" report = PDict [("phase", PStr "venue_final_verification");
      ("flat", PBool (match dget "residual_positions" report with PList [] => true | _ => false end));
      ("target_position_keys", PList (map PStr keys))]
    /\ dget "positions" report = PList (map PDict results)
    /\ Forall2 (fun key r => dget "position_key" r = PStr key
                  /\ exists n, dget "attempts" r = PInt n /\ 1 <= n <= Z.max (fs_max_attempts settings) 1) keys results.
Proof.
  intros E. unfold close_all, mlift in E. apply mbind_inv_ok in E as (opened & v0 & O & E).
  apply mbind_inv_ok in E as (open & v1 & M & E). injection M as M <-.
  apply mbind_inv_ok in E as (results & v2 & P & E). apply mbind_inv_ok in E as (residual & v3 & R & E). injection E as <- <-.
  exists (map key_of open), results. split_and!; [by destruct residual | done |].
  apply (paced_results _ _ (fun p r => dget "position_key" r = PStr (key_of p)
           /\ exists n, dget "attempts" r = PInt n /\ 1 <= n <= Z.max (fs_max_attempts settings) 1)) in P.
  - clear -P. induction P; cbn [map]; by constructor.
  - intros p v4 r v5 C. unfold close_position in C. apply close_tries_bounded in C as (n & A & B & K & _).
    split; [done|]. exists n. split; [done|]. unfold more_attempts in B. lia.
Qed.
End verified.

(** ** Examples *)

(** A venue with positions that a close empties, and that counts the closes;
    [raises] makes the close fail with a TypeError after it was sent. *)
Record SampleVenue := { sv_positions : list snapshot; sv_closes : nat; sv_raises : bool }.

Definition sent (v : SampleVenue) : SampleVenue :=
  {| sv_positions := []; sv_closes := S (sv_closes v); sv_raises := sv_raises v |}.

#[local] Instance sample_venue : Venue SampleVenue := {|
  list_working_orders _ _ := mret [];
  list_working_orders_plain := mret [];
  cancel_order _ := mret PNone;
  cancel_order_by_id _ _ := mret PNone;
  list_open_positions _ := fun v => (Ok (sv_positions v), v);
  list_open_positions_plain := fun v => (Ok (sv_positions v), v);
  close_one _ _ _ := fun v => (if sv_raises v then Raise (TypeError "unsupported operand") else Ok CloseNone, sent v);
  close_one_plain _ _ := fun v => (Ok CloseNone, sent v);
  venue_sleep _ := mret tt |}.

Definition sample_snapshots : list snapshot :=
  [Mapping [("instrument_id", PStr "BTCUSDT-PERP.BINANCE"); ("quantity", PStr "0.5"); ("position_side", PStr "BOTH")];
   Mapping [("symbol", PStr "btcusdt"); ("qty", PStr "-0.3")];
   Mapping [("symbol", PStr "ETHUSDT"); ("qty", PStr "0")]].

Definition closing (raises : bool) : result dict * SampleVenue :=
  close_all "acct-a" None default_settings {| sv_positions := sample_snapshots; sv_closes := 0; sv_raises := raises |}.

Lemma merged_positions_witness :
  exists l, merge_position_snapshots "acct-a" sample_snapshots = Ok l /\ map key_of l = ["acct-a:BTCUSDT"]
    /\ NoDup (map key_of l).
Proof.
  destruct (merge_position_snapshots "acct-a" sample_snapshots) as [l|] eqn:E; [|vm_compute in E; discriminate E].
  destruct (merged_positions _ _ _ E) as [N _]. exists l. split; [reflexivity|]. split; [|exact N].
  vm_compute in E. injection E as <-. reflexivity.
Defined.

Lemma close_all_flat_witness :
  exists report v', closing false = (Ok report, v') /\ dget "status" report = PStr "completed"
    /\ exists listing v1, listed_positions "acct-a" v1 = (Ok listing, v').
Proof.
  unfold closing. set (v := {| sv_positions := sample_snapshots; sv_closes := 0; sv_raises := false |}).
  destruct (close_all "acct-a" None default_settings v) as [o v'] eqn:E.
  assert (S : match o with Ok report => match dget "status" report with PStr s => String.eqb s "completed" | _ => false end
                         | Raise _ => false end = true) by (apply (f_equal fst) in E; vm_compute in E; by rewrite <- E).
  destruct o as [report|]; [|discriminate S]. exists report, v'. split; [reflexivity|].
  assert (S' : dget "status" report = PStr "completed").
  { destruct (dget "status" report); try discriminate S. by apply String.eqb_eq in S as ->. }
  split; [exact S'|]. destruct (close_all_flat _ _ _ _ _ _ E S') as (opened & listing & v1 & _ & L & _). eauto.
Defined.

Lemma cancel_all_verified_witness :
  exists report v', cancel_all None None default_settings (sent {| sv_positions := []; sv_closes := 0; sv_raises := false |})
                    = (Ok report, v')
    /\ exists remaining v1, working_orders None None v1 = (Ok remaining, v').
Proof.
  destruct (cancel_all None None default_settings (sent {| sv_positions := []; sv_closes := 0; sv_raises := false |})) as [o v'] eqn:E.
  assert (O : is_ok o = true) by (apply (f_equal fst) in E; vm_compute in E; by rewrite <- E).
  destruct o as [report|]; [|discriminate O]. exists report, v'. split; [reflexivity|].
  destruct (cancel_all_verified _ _ _ _ _ _ E) as (remaining & v1 & W & _). eauto.
Defined.

Lemma close_all_attempts_witness :
  exists report v', closing true = (Ok report, v') /\ exists results, dget "positions" report = PList (map PDict results).
Proof.
  unfold closing. set (v := {| sv_positions := sample_snapshots; sv_closes := 0; sv_raises := true |}).
  destruct (close_all "acct-a" None default_settings v) as [o v'] eqn:E.
  assert (O : is_ok o = true) by (apply (f_equal fst) in E; vm_compute in E; by rewrite <- E).
  destruct o as [report|]; [|discriminate O]. exists report, v'. split; [reflexivity|].
  destruct (close_all_attempts _ _ _ _ _ _ E) as (keys & results & _ & R & _). eauto.
Defined.

(** A TypeError from within [close_one] is taken for another signature: the
    close is sent a second time, by the call without [reduce_only]. *)
Lemma type_error_closes_twice : sv_closes (snd (closing false)) = 1%nat /\ sv_closes (snd (closing true)) = 2%nat.
Proof. by vm_compute. Qed.

(** A quantity that cannot be read counts as zero, so that a close_all over an
    open position with such a quantity is completed without closing it. *)
Lemma unreadable_quantity_is_flat :
  let v := {| sv_positions := [Mapping [("symbol", PStr "BTCUSDT"); ("quantity", PStr "0,5")]]; sv_closes := 0; sv_raises := false |} in
  match close_all "acct-a" None default_settings v with
  | (Ok report, v') => dget "status" report = PStr "completed" /\ sv_closes v' = 0%nat
  | _ => False
  end.
Proof. by vm_compute. Qed.
