(* ===== verification/PositionRevision.v ===== *)
(** * PositionRevision: which position a decision was made about

    control-plane/api/position_revision.py.  Every book (account, instrument,
    side) and every account has a counter that only grows: closing a book
    advances it, closing an account advances the account's wildcard, and an
    operation advances a counter once.  A snapshot of the counters is taken
    before a model is asked, and [bind_precondition] refuses to act on it
    later when a counter it depends on has moved.  The functions run inside
    their caller's transaction; the two tables are in Store.v. *)

From Stdlib Require Import ZArith Lia Ascii.
From S2P Require Import Prelude Decimal PyString DecText PyValue Json Store.
Open Scope string_scope.
Open Scope Z_scope.

Definition StalePositionRevision (msg : string) : exn := RuntimeError "StalePositionRevision" msg.

(** [s.removesuffix(p)] *)
Definition removesuffix (p s : string) : string :=
  if ends_with p s then String.substring 0 (String.length s - String.length p) s else s.

(** [[A-Z0-9_]] *)
Definition book_char (c : ascii) : bool :=
  let n := nat_of_ascii c in
  ((65 <=? n) && (n <=? 90) || is_digit c || Ascii.eqb c "_")%nat.

(** [re.fullmatch(r"[A-Z0-9_]+", symbol)] *)
Definition book_symbol (symbol : string) : bool := negb (is_empty symbol) && sforall book_char symbol.

Definition _book (instrument_id position_side : pyval) : result (string * string) :=
  let symbol := removesuffix "-PERP.BINANCE" (upper (strip (py_str instrument_id))) in
  let side := upper (strip (py_str position_side)) in
  if negb (book_symbol symbol) then Raise (ValueError "invalid position revision instrument_id")
  else if negb (str_in side ["LONG"; "SHORT"]) then
    Raise (ValueError "position revision side must be LONG or SHORT")
  else Ok (symbol, side).

(** ** Reading the counters *)

Definition book_key (instrument side : string) : string := instrument +:+ "|" +:+ side.

(** One row of the snapshot's query. *)
Definition capture_row (account_id : string) (k : string * string * string) (row : revision_row) (versions : dict) : dict :=
  let '(account, instrument, side) := k in
  if negb (String.eqb account account_id) then versions
  else if String.eqb instrument "*" then dset "account_revision" (PInt (pv_revision row)) versions
  else dset "books" (PDict (dset (book_key instrument side) (PInt (pv_revision row))
                               (as_dict (dget "books" versions)))) versions.

Definition capture_versions (account_id : string) : M Conn dict :=
  rows ← select (fun d => position_revisions (desk d));
  mret (map_fold (capture_row account_id)
          [("account_id", PStr account_id); ("account_revision", PInt 0); ("books", PDict [])] rows).

(** The account's row and the book's row, when they exist. *)
Definition current_rows (account_id instrument side : string) (d : Db) : list (string * revision_row) :=
  (option_list ((fun r => ("*", r)) <$> position_revisions (desk d) !! (account_id, "*", "*"))
   ++ option_list ((fun r => (instrument, r)) <$> position_revisions (desk d) !! (account_id, instrument, side)))%list.

Definition current_row (current : dict) (row : string * revision_row) : dict :=
  let key := if String.eqb (fst row) "*" then "account_revision" else "book_revision" in
  dset key (PInt (pv_revision (snd row))) current.

Definition read_current (account_id : string) (instrument_id side : pyval) : M Conn dict :=
  '(instrument, position_side) ← mlift (_book instrument_id side);
  rows ← select (current_rows account_id instrument position_side);
  mret (foldl current_row
          [("account_id", PStr account_id); ("account_revision", PInt 0); ("book_revision", PInt 0);
           ("instrument_id", PStr instrument); ("position_side", PStr position_side)] rows).

(** [type(revision) is not int or revision < 0] *)
Definition bad_counter (revision : pyval) : bool :=
  match revision with PInt z => z <? 0 | _ => true end.

Definition bind_precondition (account_id : string) (instrument_id position_side expected_versions : pyval)
  : M Conn dict :=
  current ← read_current account_id instrument_id position_side;
  match expected_versions with
  | PNone => mret current
  | PDict expected =>
      if negb (py_eqb (dget "account_id" expected) (PStr account_id)) then
        mraise (StalePositionRevision "position revision snapshot account mismatch")
      else match dget "books" expected with
      | PDict books =>
          let key := book_key (py_str (dget "instrument_id" current)) (py_str (dget "position_side" current)) in
          let account_revision := dget "account_revision" expected in
          let book_revision := default (PInt 0) (dlookup key books) in
          if bad_counter account_revision || bad_counter book_revision then
            mraise (StalePositionRevision "invalid position revision snapshot counter")
          else if negb (py_eqb account_revision (dget "account_revision" current))
                  || negb (py_eqb book_revision (dget "book_revision" current)) then
            mraise (StalePositionRevision "position revision changed since snapshot")
          else mret current
      | _ => mraise (StalePositionRevision "invalid position revision book snapshot")
      end
  | _ => mraise (StalePositionRevision "missing position revision snapshot")
  end.

(** ** Advancing a counter *)

(** A [bigint] column past its largest value. *)
Definition bigint_out_of_range : exn := RuntimeError "NumericValueOutOfRange" "bigint out of range".

(** [INSERT ... ON CONFLICT DO UPDATE SET revision = revision + 1] *)
Definition bump (account_id instrument side : string) : M Conn unit :=
  now ← get_now;
  row ← select (fun d => position_revisions (desk d) !! (account_id, instrument, side));
  let revision := match row with Some r => pv_revision r + 1 | None => 1 end in
  if 2 ^ 63 <=? revision then mraise bigint_out_of_range
  else execute (set_position_revisions
                  (<[(account_id, instrument, side) := {| pv_revision := revision; pv_updated_at := now |}]>)).

Definition _invalidate (account_id instrument side : string) (operation_id : pyval) : M Conn unit :=
  if is_none operation_id || is_empty (strip (py_str operation_id)) then
    mraise (ValueError "position revision invalidation requires operation_id")
  else
    let operation := py_str operation_id in
    now ← get_now;
    existing ← select (fun d => position_revision_invalidations (desk d) !! (account_id, operation));
    match existing with
    | None =>
        _ ← execute (set_position_revision_invalidations (<[(account_id, operation) :=
              {| iv_instrument_id := instrument; iv_position_side := side; iv_created_at := now |}]>));
        bump account_id instrument side
    | Some row =>
        if String.eqb (iv_instrument_id row) instrument && String.eqb (iv_position_side row) side then mret tt
        else mraise (ValueError "position revision operation_id reused for another scope")
    end.

Definition invalidate_book (account_id : string) (instrument_id position_side operation_id : pyval) : M Conn unit :=
  '(instrument, side) ← mlift (_book instrument_id position_side);
  _invalidate account_id instrument side operation_id.

Definition invalidate_account (account_id : string) (operation_id : pyval) : M Conn unit :=
  _invalidate account_id "*" "*" operation_id.

(** ** What the counters mean *)

Definition revision_at (d : Db) (k : string * string * string) : Z :=
  from_option pv_revision 0 (position_revisions (desk d) !! k).

(** The tables' CHECK constraints. *)
Definition book_scope (instrument side : string) : bool :=
  String.eqb instrument "*" && String.eqb side "*" || book_symbol instrument && str_in side ["LONG"; "SHORT"].

Definition revisions_ok (d : Db) : Prop :=
  forall a i s r, position_revisions (desk d) !! (a, i, s) = Some r ->
    book_scope i s = true /\ 0 <= pv_revision r < 2 ^ 63.

(** The snapshot [read_current] returns. *)
Definition precondition (account_id instrument side : string) (account_revision book_revision : Z) : dict :=
  [("account_id", PStr account_id); ("account_revision", PInt account_revision);
   ("book_revision", PInt book_revision); ("instrument_id", PStr instrument); ("position_side", PStr side)].

(** Close a book, or everything an account holds. *)
Inductive close_op :=
  | CloseBook (account_id : string) (instrument_id position_side operation_id : pyval)
  | CloseAccount (account_id : string) (operation_id : pyval).

Definition close_key (o : close_op) : result (string * string * string) :=
  match o with
  | CloseBook a i s _ => '(instrument, side) ← _book i s; Ok (a, instrument, side)
  | CloseAccount a _ => Ok (a, "*", "*")
  end.

Definition close_operation (o : close_op) : string * string :=
  match o with CloseBook a _ _ op => (a, py_str op) | CloseAccount a op => (a, py_str op) end.

(** The operation in a transaction of its caller's. *)
Definition run_close (o : close_op) : M Conn unit :=
  transaction match o with
              | CloseBook a i s op => invalidate_book a i s op
              | CloseAccount a op => invalidate_account a op
              end.

Definition run_closes (os : list close_op) (c : Conn) : Conn := foldl (fun c o => snd (run_close o c)) c os.

(** [o], run on [c], advances the counter of [k]: it succeeds and its operation was not recorded. *)
Definition advances (o : close_op) (c : Conn) (k : string * string * string) : Prop :=
  close_key o = Ok k /\ fst (run_close o c) = Ok tt
  /\ position_revision_invalidations (desk (current c)) !! close_operation o = None.

(** ** Lemmas *)

Lemma book_inv i s I S : _book i s = Ok (I, S) -> book_symbol I = true /\ str_in S ["LONG"; "SHORT"] = true.
Proof.
  unfold _book. destruct (negb (book_symbol _)) eqn:E1; [done|]. destruct (negb (str_in _ _)) eqn:E2; [done|].
  apply negb_false_iff in E1, E2. intros H. apply ok_inj in H. by simplify_eq.
Qed.

Lemma symbol_not_wildcard I : book_symbol I = true -> String.eqb I "*" = false.
Proof. intros H. apply String.eqb_neq. intros ->. done. Qed.

Lemma before_symbol I t : book_symbol I = true -> before "|" (I +:+ String "|" t) = I.
Proof.
  unfold book_symbol. intros [_ H]%andb_true_iff. revert H. induction I as [|x I IH]; intros H; [done|].
  cbn in H. apply andb_true_iff in H as [Hx H]. rewrite sapp_cons. cbn [before].
  rewrite IH by done. destruct (Ascii.eqb x "|") eqn:E; [|done]. apply Ascii.eqb_eq in E as ->. done.
Qed.

Lemma book_key_inj I S I' S' :
  book_symbol I = true -> book_symbol I' = true -> book_key I S = book_key I' S' -> I = I' /\ S = S'.
Proof.
  intros B B' E. assert (I = I') as <-.
  { rewrite <- (before_symbol I S B) at 1. change (I +:+ String "|" S) with (book_key I S). rewrite E.
    by apply before_symbol. }
  split; [done|]. unfold book_key in E. clear -E. induction I as [|x I IH]; cbn in E.
  - by injection E.
  - apply IH. by injection E.
Qed.

Lemma read_current_spec a i s I S c :
  _book i s = Ok (I, S) ->
  read_current a i s c = (Ok (precondition a I S (revision_at (current c) (a, "*", "*"))
                                                 (revision_at (current c) (a, I, S))), c).
Proof.
  intros B. pose proof (symbol_not_wildcard _ (proj1 (book_inv _ _ _ _ B))) as W.
  unfold read_current, revision_at, current_rows, current_row. rewrite B.
  unfold mlift, select, mbind, M_bind. cbv beta iota.
  destruct (_ !! (a, "*", "*")) as [r|], (_ !! (a, I, S)) as [r'|]; cbn -[String.eqb]; rewrite ?W; reflexivity.
Qed.

(** What a snapshot records, and that it records every counter of its account. *)
Definition records (a : string) (m : gmap (string * string * string) revision_row) (v : dict) : Prop :=
  dget "account_id" v = PStr a
  /\ dget "account_revision" v = PInt (from_option pv_revision 0 (m !! (a, "*", "*")))
  /\ exists books, dget "books" v = PDict books /\
     forall I S, book_symbol I = true -> str_in S ["LONG"; "SHORT"] = true ->
       default (PInt 0) (dlookup (book_key I S) books) = PInt (from_option pv_revision 0 (m !! (a, I, S))).

Lemma records_row a m k r v :
  m !! k = None -> (let '(_, i, s) := k in book_scope i s = true) -> records a m v ->
  records a (<[k := r]> m) (capture_row a k r v).
Proof.
  destruct k as [[a' i] s]. intros N K (Ha & Hr & books & Hb & H). unfold capture_row.
  destruct (String.eqb_spec a' a) as [->|Na]; cbn [negb].
  2:{ split_and!; [done | by rewrite lookup_insert_ne by congruence|]. exists books. split; [done|].
      intros I S BI BS. rewrite lookup_insert_ne by congruence. auto. }
  unfold book_scope in K. destruct (String.eqb_spec i "*") as [->|Ni].
  - assert (s = "*") as ->.
    { apply orb_true_iff in K as [K|K]; [by apply andb_true_iff in K as [_ ?%String.eqb_eq]|].
      apply andb_true_iff in K as [K _]. done. }
    split_and!.
    + by rewrite dget_dset_ne by done.
    + by rewrite dget_dset_eq, lookup_insert_eq.
    + exists books. rewrite dget_dset_ne by done. split; [done|]. intros I S BI BS.
      rewrite lookup_insert_ne; [auto|]. intros [= <- <-]. done.
  - cbn in K. apply andb_true_iff in K as [BI' BS'].
    split_and!; [by rewrite dget_dset_ne | rewrite dget_dset_ne by done; rewrite lookup_insert_ne by congruence; done|].
    eexists. rewrite dget_dset_eq. split; [done|]. intros I S BI BS. rewrite Hb. cbn [as_dict].
    destruct (decide ((a, i, s) = (a, I, S))) as [[= <- <-]|Ne].
    + by rewrite dlookup_dset_eq, lookup_insert_eq.
    + rewrite lookup_insert_ne by done. rewrite dlookup_dset_ne; [auto|].
      intros E. apply book_key_inj in E as [-> ->]; done.
Qed.

Lemma capture_spec a c :
  revisions_ok (current c) ->
  exists v, capture_versions a c = (Ok v, c) /\ records a (position_revisions (desk (current c))) v.
Proof.
  intros OK. exists (map_fold (capture_row a) [("account_id", PStr a); ("account_revision", PInt 0); ("books", PDict [])]
                       (position_revisions (desk (current c)))).
  split; [done|]. assert (K : map_Forall (fun k _ => let '(_, i, s) := k in book_scope i s = true) (position_revisions (desk (current c)))).
  { intros [[a' i] s] r L. by destruct (OK _ _ _ _ L). }
  revert K. generalize (position_revisions (desk (current c))) as m.
  apply (map_fold_weak_ind (fun v m => map_Forall (fun k _ => let '(_, i, s) := k in book_scope i s = true) m -> records a m v)).
  - intros _. split_and!; [done..|]. eexists. split; [done|]. intros. by rewrite lookup_empty.
  - intros k r m v N IH K. apply map_Forall_insert in K as [K1 K2]; [|done]. apply records_row; auto.
Qed.

Lemma bind_spec a i s I S v c m :
  _book i s = Ok (I, S) -> records a m v ->
  (forall k r, m !! k = Some r -> 0 <= pv_revision r) ->
  let d := current c in
  let was k := (from_option pv_revision 0 (m !! k)) in
  bind_precondition a i s (PDict v) c
  = if (was (a, "*", "*") =? revision_at d (a, "*", "*")) && (was (a, I, S) =? revision_at d (a, I, S))
    then (Ok (precondition a I S (revision_at d (a, "*", "*")) (revision_at d (a, I, S))), c)
    else (Raise (StalePositionRevision "position revision changed since snapshot"), c).
Proof.
  intros B (Ha & Hr & books & Hb & H) NN d was. pose proof (book_inv _ _ _ _ B) as [BI BS].
  assert (P : forall k, (was k <? 0) = false).
  { intros k. apply Z.ltb_ge. unfold was. destruct (m !! k) eqn:E; cbn; [by eapply NN | lia]. }
  unfold bind_precondition, mbind, M_bind. rewrite (read_current_spec a i s I S c B). fold d. cbv beta iota.
  change (dget "account_revision" (precondition _ _ _ ?x _)) with (PInt x).
  change (dget "book_revision" (precondition _ _ _ _ ?x)) with (PInt x).
  change (dget "instrument_id" (precondition _ ?x _ _ _)) with (PStr x).
  change (dget "position_side" (precondition _ _ ?x _ _)) with (PStr x).
  cbn [py_str]. rewrite Ha, Hb, Hr, (H I S BI BS). unfold py_eqb at 1. rewrite String.eqb_refl. cbn [negb].
  unfold bad_counter. fold (was (a, "*", "*")) (was (a, I, S)). rewrite !P. cbn [orb].
  rewrite !py_eqb_int. fold (revision_at d (a, "*", "*")).
  destruct (was (a, "*", "*") =? _), (was (a, I, S) =? _); reflexivity.
Qed.


(** ** Histories of closes *)

Lemma idle_run_close o c : idle (snd (run_close o c)).
Proof. apply transaction_idle. Qed.

Lemma idle_run_closes os c : idle c -> idle (run_closes os c).
Proof. revert c. induction os as [|o os IH]; intros c I; [done|]. apply IH, idle_run_close. Qed.

Lemma run_closes_cons o os c : run_closes (o :: os) c = run_closes os (snd (run_close o c)).
Proof. done. Qed.

Lemma keeps_bump a i s : keeps_committed (bump a i s).
Proof. unfold bump. keeps. Qed.

Lemma keeps_invalidate a i s op : keeps_committed (_invalidate a i s op).
Proof. unfold _invalidate. keeps. apply keeps_bump. Qed.

(** The two scopes of a close come to one [_invalidate]. *)
Lemma run_close_key o a i s :
  close_key o = Ok (a, i, s) ->
  exists op, close_operation o = (a, py_str op) /\ forall c, run_close o c = transaction (_invalidate a i s op) c.
Proof.
  destruct o as [a' i' s' op|a' op]; cbn [close_key]; intros K.
  - destruct (_book i' s') as [[I S]|e] eqn:B; [|done]. apply ok_inj in K. simplify_eq. exists op. split; [done|]. intros c.
    unfold run_close, invalidate_book, transaction, mlift, mbind, M_bind. by rewrite B.
  - apply ok_inj in K. simplify_eq. by exists op.
Qed.

Lemma close_key_scope o a i s : close_key o = Ok (a, i, s) -> book_scope i s = true.
Proof.
  destruct o as [a' i' s' op|a' op]; cbn [close_key]; intros K.
  - destruct (_book i' s') as [[I S]|e] eqn:B; [|done]. apply ok_inj in K. simplify_eq.
    apply book_inv in B as [BI BS]. unfold book_scope. by rewrite BI, BS, orb_true_r.
  - apply ok_inj in K. by simplify_eq.
Qed.

(** A close that fails leaves the database as it was. *)
Lemma run_close_fails o c e : idle c -> fst (run_close o c) = Raise e -> current (snd (run_close o c)) = current c.
Proof.
  intros I F. unfold run_close in *. destruct (transaction _ c) as [r c'] eqn:T. cbn in *. subst r.
  apply transaction_atomic in T as [_ ->]; [done|]. destruct o; unfold invalidate_book, invalidate_account; keeps;
  apply keeps_invalidate.
Qed.

(** The database after a new invalidation. *)
Definition advanced (a i s op : string) (now : Z) (d : Db) : Db :=
  set_position_revisions (<[(a, i, s) := {| pv_revision := revision_at d (a, i, s) + 1; pv_updated_at := now |}]>)
    (set_position_revision_invalidations
       (<[(a, op) := {| iv_instrument_id := i; iv_position_side := s; iv_created_at := now |}]>) d).

Lemma advanced_ok a i s op now d :
  revisions_ok d -> book_scope i s = true -> revision_at d (a, i, s) + 1 < 2 ^ 63 ->
  revisions_ok (advanced a i s op now d).
Proof.
  intros OK SC O a' i' s' r. cbn. destruct (decide ((a, i, s) = (a', i', s'))) as [[= <- <- <-]|Nk].
  - rewrite lookup_insert_eq. intros [= <-]. cbn. split; [done|]. split; [|done].
    unfold revision_at. destruct (_ !! (a, i, s)) as [r|] eqn:E; cbn; [|lia]. destruct (OK _ _ _ _ E). lia.
  - rewrite lookup_insert_ne by done. apply OK.
Qed.

Lemma invalidation_inv a i s op c c1 :
  _invalidate a i s op c = (Ok tt, c1) ->
  (exists now, position_revision_invalidations (desk (current c)) !! (a, py_str op)
               = Some {| iv_instrument_id := i; iv_position_side := s; iv_created_at := now |}) /\ c1 = c
  \/ position_revision_invalidations (desk (current c)) !! (a, py_str op) = None
     /\ current c1 = advanced a i s (py_str op) (clock c) (current c)
     /\ revision_at (current c) (a, i, s) + 1 < 2 ^ 63.
Proof.
  unfold _invalidate. destruct (is_none op || _); [done|]. intros T. run_inv.
  destruct (_ !! (a, py_str op)) as [row|] eqn:L.
  { left. destruct row as [i' s' now]. cbn in T. destruct (String.eqb_spec i' i) as [->|]; [|done].
    destruct (String.eqb_spec s' s) as [->|]; [|done]. cbn in T. run_inv. split; [by exists now | done]. }
  right. unfold bump in T. run_inv. unfold execute, advanced, revision_at in *. rewrite Hcur in T. cbn in T.
  destruct (_ !! (a, i, s)) as [r|] eqn:E; cbn.
  - destruct (2 ^ 63 <=? _) eqn:O; [done|]. apply Z.leb_gt in O. simplify_eq/=. rewrite Hcur, Hclk. split_and!; [done..|lia].
  - simplify_eq/=. rewrite Hcur, Hclk. split_and!; [done..|lia].
Qed.

(** One close: it moves the counter of its key by one if it is new, and
    nothing if it is a replay or it fails. *)
Lemma run_close_step o c :
  idle c -> revisions_ok (current c) ->
  let c' := snd (run_close o c) in
  (exists k, advances o c k
     /\ (forall k', revision_at (current c') k' = revision_at (current c) k' + (if decide (k' = k) then 1 else 0))
     /\ (exists now, position_revision_invalidations (desk (current c'))
                     = <[close_operation o := {| iv_instrument_id := k.1.2; iv_position_side := k.2; iv_created_at := now |}]>
                         (position_revision_invalidations (desk (current c))))
     /\ revisions_ok (current c'))
  \/ ((forall k, ~ advances o c k) /\ current c' = current c).
Proof.
  intros I OK c'. destruct (fst (run_close o c)) as [[]|e] eqn:F.
  2:{ right. split; [intros k (_ & Hk & _); congruence | by eapply run_close_fails]. }
  destruct (close_key o) as [[[a i] s]|e] eqn:K.
  2:{ destruct o as [a i s op|a op]; cbn in K; [|done]. unfold run_close, transaction, invalidate_book, mlift, mbind, M_bind in F.
      destruct (_book i s) as [[? ?]|?]; [done|]. by cbn in F. }
  destruct (run_close_key _ _ _ _ K) as (op & HO & HR). pose proof (close_key_scope _ _ _ _ K) as SC.
  assert (A : forall k, advances o c k -> position_revision_invalidations (desk (current c)) !! (a, py_str op) = None).
  { intros k (_ & _ & N). by rewrite HO in N. }
  subst c'. rewrite HO. rewrite HR in F |- *. destruct (transaction _ c) as [r c'] eqn:T. cbn [fst snd] in *. subst r.
  apply transaction_inv_ok in T as (c1 & T & ->). cbn [commit current].
  destruct (invalidation_inv _ _ _ _ _ _ T) as [[[now N] ->]|(N & -> & O)].
  { right. split; [|done]. intros k Hk. by rewrite (A k Hk) in N. }
  left. exists (a, i, s). split_and!.
  - split_and!; [done | | by rewrite HO]. rewrite HR. unfold transaction. by rewrite T.
  - intros k'. unfold revision_at at 1, advanced. cbn. destruct (decide (k' = (a, i, s))) as [->|Nk].
    + by rewrite lookup_insert_eq.
    + rewrite lookup_insert_ne by done. unfold revision_at. lia.
  - by exists (clock c).
  - by apply advanced_ok.
Qed.

Lemma revisions_run_close o c : idle c -> revisions_ok (current c) -> revisions_ok (current (snd (run_close o c))).
Proof. intros I OK. destruct (run_close_step o c I OK) as [(k & _ & _ & _ & H)|[_ ->]]; done. Qed.

(** A counter never falls, and it grew exactly when some close advanced it. *)
Lemma revision_history k os c :
  idle c -> revisions_ok (current c) ->
  revision_at (current c) k <= revision_at (current (run_closes os c)) k
  /\ (revision_at (current c) k < revision_at (current (run_closes os c)) k
      <-> exists os1 o os2, os = (os1 ++ o :: os2)%list /\ advances o (run_closes os1 c) k).
Proof.
  revert c. induction os as [|o os IH]; intros c I OK.
  { cbn. split; [lia|]. split; [lia|]. intros (os1 & o & os2 & E & _). by destruct os1. }
  rewrite run_closes_cons. destruct (IH (snd (run_close o c))) as [G E];
    [apply idle_run_close | by apply revisions_run_close |].
  assert (L : (exists os1 o' os2, o :: os = (os1 ++ o' :: os2)%list /\ advances o' (run_closes os1 c) k)
              <-> advances o c k \/ exists os1 o' os2, os = (os1 ++ o' :: os2)%list
                                    /\ advances o' (run_closes os1 (snd (run_close o c))) k).
  { split.
    - intros ([|o1 os1] & o' & os2 & [= -> ->] & A); [by left|]. right. by exists os1, o', os2.
    - intros [A|(os1 & o' & os2 & -> & A)]; [by exists [], o, os | by exists (o :: os1), o', os2]. }
  rewrite L, <- E. destruct (run_close_step o c I OK) as [(k0 & A & Hk & _ & _)|[N Hc]].
  - specialize (Hk k). destruct (decide (k = k0)) as [->|Nk].
    + split; [lia|]. split; [by left | lia].
    + split; [lia|]. split; [intros; right; lia|]. intros [[A' _]|?]; [|lia]. destruct A as [A _]. congruence.
  - rewrite Hc in *. split; [lia|]. split; [by right|]. intros [A|?]; [by apply N in A | lia].
Qed.

(** C39. A snapshot is honoured exactly as long as nothing it depends on was
    closed.  Take the snapshot of an account, then run any history of book and
    account closes, each in its transaction: binding the snapshot to a book
    afterwards succeeds, with the counters it was taken at, if no close since
    advanced the account's counter or the book's; otherwise it raises
    [StalePositionRevision] and changes nothing. *)
Theorem snapshot_binds a i s I S c os :
  idle c -> revisions_ok (current c) -> _book i s = Ok (I, S) ->
  exists v, capture_versions a c = (Ok v, c) /\
  let c' := run_closes os c in
  let closed := exists os1 o os2, os = (os1 ++ o :: os2)%list
                  /\ (advances o (run_closes os1 c) (a, "*", "*") \/ advances o (run_closes os1 c) (a, I, S)) in
  (~ closed /\ bind_precondition a i s (PDict v) c'
               = (Ok (precondition a I S (revision_at (current c) (a, "*", "*")) (revision_at (current c) (a, I, S))), c'))
  \/ (closed /\ bind_precondition a i s (PDict v) c'
                = (Raise (StalePositionRevision "position revision changed since snapshot"), c')).
Proof.
  intros Hc OK B. destruct (capture_spec a c OK) as (v & Hv & R). exists v. split; [done|]. cbv zeta.
  rewrite (bind_spec a i s I S v _ _ B R) by (intros [[? ?] ?] r L; destruct (OK _ _ _ _ L); lia).
  fold (revision_at (current c) (a, "*", "*")) (revision_at (current c) (a, I, S)).
  destruct (revision_history (a, "*", "*") os c Hc OK) as [G1 E1].
  destruct (revision_history (a, I, S) os c Hc OK) as [G2 E2].
  destruct (Z.eqb_spec (revision_at (current c) (a, "*", "*")) (revision_at (current (run_closes os c)) (a, "*", "*"))) as [W|W],
    (Z.eqb_spec (revision_at (current c) (a, I, S)) (revision_at (current (run_closes os c)) (a, I, S))) as [K|K]; cbn [andb].
  1: left; split; [|by rewrite W, K].
  2,3,4: right; split; [|done].
  - intros (os1 & o & os2 & -> & [A|A]).
    + pose proof (proj2 E1 (ex_intro _ os1 (ex_intro _ o (ex_intro _ os2 (conj eq_refl A))))). lia.
    + pose proof (proj2 E2 (ex_intro _ os1 (ex_intro _ o (ex_intro _ os2 (conj eq_refl A))))). lia.
  - destruct E2 as [(os1 & o & os2 & ? & ?) _]; [lia|]. exists os1, o, os2. auto.
  - destruct E1 as [(os1 & o & os2 & ? & ?) _]; [lia|]. exists os1, o, os2. auto.
  - destruct E1 as [(os1 & o & os2 & ? & ?) _]; [lia|]. exists os1, o, os2. auto.
Qed.

(** A recorded operation stays recorded with its scope. *)
Lemma invalidations_kept k r os c :
  idle c -> revisions_ok (current c) ->
  position_revision_invalidations (desk (current c)) !! k = Some r ->
  position_revision_invalidations (desk (current (run_closes os c))) !! k = Some r.
Proof.
  revert c. induction os as [|o os IH]; intros c I OK L; [done|]. rewrite run_closes_cons.
  apply IH; [apply idle_run_close | by apply revisions_run_close|].
  destruct (run_close_step o c I OK) as [(k0 & (_ & _ & N) & _ & [now ->] & _)|[_ ->]]; [|done].
  rewrite lookup_insert_ne; [done|]. intros E. rewrite E in N. congruence.
Qed.

(** A close that succeeded left its operation recorded with its scope. *)
Lemma run_close_recorded o c :
  fst (run_close o c) = Ok tt ->
  exists a i s op now, close_key o = Ok (a, i, s) /\ close_operation o = (a, py_str op)
    /\ (forall c', run_close o c' = transaction (_invalidate a i s op) c')
    /\ is_none op || is_empty (strip (py_str op)) = false
    /\ position_revision_invalidations (desk (current (snd (run_close o c)))) !! (a, py_str op)
       = Some {| iv_instrument_id := i; iv_position_side := s; iv_created_at := now |}.
Proof.
  intros F. destruct (close_key o) as [[[a i] s]|e] eqn:K.
  2:{ destruct o as [a i s op|a op]; cbn in K; [|done]. unfold run_close, transaction, invalidate_book, mlift, mbind, M_bind in F.
      destruct (_book i s) as [[? ?]|?]; [done|]. by cbn in F. }
  destruct (run_close_key _ _ _ _ K) as (op & HO & HR). rewrite HR in F |- *.
  destruct (transaction _ c) as [r c'] eqn:T. cbn [fst snd] in *. subst r.
  apply transaction_inv_ok in T as (c1 & T & ->). cbn [commit current].
  assert (NB : is_none op || is_empty (strip (py_str op)) = false).
  { unfold _invalidate in T. by destruct (is_none op || _). }
  destruct (invalidation_inv _ _ _ _ _ _ T) as [[[now N] ->]|(N & -> & O)].
  - by exists a, i, s, op, now.
  - exists a, i, s, op, (clock c). split_and!; [done..|]. cbn. by rewrite lookup_insert_eq.
Qed.

(** A close is counted once.  When a close has succeeded, submitting the
    same operation again, whatever other closes ran in between, succeeds
    without advancing any counter; and reusing its operation id for another
    scope of the account is refused. *)
Theorem close_once o c os :
  idle c -> revisions_ok (current c) -> fst (run_close o c) = Ok tt ->
  let c1 := run_closes os (snd (run_close o c)) in
  fst (run_close o c1) = Ok tt /\ current (snd (run_close o c1)) = current c1
  /\ forall o', close_operation o' = close_operation o -> is_ok (close_key o') = true -> close_key o' <> close_key o ->
       (exists msg, fst (run_close o' c1) = Raise (ValueError msg))
       /\ current (snd (run_close o' c1)) = current c1.
Proof.
  intros I OK F c1. destruct (run_close_recorded o c F) as (a & i & s & op & now & K & HO & HR & NB & L).
  apply (invalidations_kept _ _ os) in L; [|apply idle_run_close | by apply revisions_run_close]. fold c1 in L.
  assert (I1 : idle c1) by (apply idle_run_closes, idle_run_close).
  split_and!.
  - rewrite HR. unfold transaction, _invalidate, get_now, select, mbind, M_bind. rewrite NB. cbv beta iota.
    rewrite L. cbn. by rewrite !String.eqb_refl.
  - rewrite HR. unfold transaction, _invalidate, get_now, select, mbind, M_bind. rewrite NB. cbv beta iota.
    rewrite L. cbn. by rewrite !String.eqb_refl.
  - intros o' HO' K' N. destruct (close_key o') as [[[a' i'] s']|] eqn:E; [|done].
    destruct (run_close_key _ _ _ _ E) as (op' & HOp & HR'). rewrite HO, HO' in *.
    injection HOp as <- HOp. assert (R : exists msg, fst (run_close o' c1) = Raise (ValueError msg)).
    { rewrite HR'. unfold transaction, _invalidate, get_now, select, mbind, M_bind.
      destruct (is_none op' || _); [by eexists|]. cbv beta iota. rewrite <- HOp, L.
      cbn [iv_instrument_id iv_position_side].
      destruct (String.eqb_spec i i') as [->|]; [|by eexists]. destruct (String.eqb_spec s s') as [->|]; [|by eexists].
      by rewrite K in N. }
    split; [done|]. destruct R as [msg R]. by eapply run_close_fails.
Qed.

(** ** Examples *)

Definition desk_now : Conn := connect empty_db (seconds 1000).

Definition close_btc : close_op := CloseBook "main" (PStr "btcusdt-perp.binance") (PStr "long") (PStr "op-1").

Example desk_revisions_ok : revisions_ok (current desk_now).
Proof. intros a i s r H. cbn in H. by rewrite lookup_empty in H. Qed.

Example snapshot_binds_witness :
  exists v, capture_versions "main" desk_now = (Ok v, desk_now) /\
  let c' := run_closes [close_btc; close_btc] desk_now in
  bind_precondition "main" (PStr "ETHUSDT") (PStr "LONG") (PDict v) c' = (Ok (precondition "main" "ETHUSDT" "LONG" 0 0), c')
  /\ bind_precondition "main" (PStr "BTCUSDT") (PStr "LONG") (PDict v) c'
     = (Raise (StalePositionRevision "position revision changed since snapshot"), c').
Proof.
  destruct (snapshot_binds "main" (PStr "ETHUSDT") (PStr "LONG") "ETHUSDT" "LONG" desk_now [close_btc; close_btc])
    as (v & Hv & _); [done | apply desk_revisions_ok | reflexivity |].
  exists v. split; [exact Hv|]. injection Hv as <-. vm_compute. by split.
Defined.

Example close_once_witness :
  let c1 := run_closes [CloseAccount "main" (PStr "op-2")] (snd (run_close close_btc desk_now)) in
  fst (run_close close_btc c1) = Ok tt
  /\ revision_at (current (snd (run_close close_btc c1))) ("main", "BTCUSDT", "LONG") = 1
  /\ fst (run_close (CloseAccount "main" (PStr "op-1")) c1)
     = Raise (ValueError "position revision operation_id reused for another scope").
Proof.
  destruct (close_once close_btc desk_now [CloseAccount "main" (PStr "op-2")]) as (H & Hc & _);
    [done | apply desk_revisions_ok | reflexivity |].
  split; [exact H|]. rewrite Hc. vm_compute. by split.
Defined.
