(* ===== verification/OperatorCommands.v ===== *)
(** * OperatorCommands: kill switch, cancel-all and close-all commands

    control-plane/commands/commands.py and the three endpoints of
    control-plane/api/read_api.py that a node meets a command through: the
    writer fence ([_require_node_writer]), the poll ([node_commands]) and the
    acknowledgement ([ack_node_command]) with its rollup.  A command is one
    row and one acknowledgement row per target node; its status is recomputed
    from them whenever one changes.  Issuing a close of everything advances
    the position revisions of the accounts (PositionRevision.v) in the same
    transaction, and a halt, reduce or resume sets the risk mode there.
    Request parsing and authentication are not modelled: the operations take
    the node and account that [require_node] established. *)

From Stdlib Require Import ZArith Lia Ascii.
From S2P Require Import Prelude Decimal PyString DecText PyValue Json Store Sha256 PositionRevision.
Open Scope string_scope.
Open Scope Z_scope.

Definition CommandError (msg : string) : exn := RuntimeError "CommandError" msg.

Definition HTTPException (status : Z) (detail : string) : exn :=
  RuntimeError ("HTTPException " +:+ int_str status) detail.

(** [sorted(set(l))] *)
Definition sorted_strings (l : list string) : list string := sort_by String.leb (remove_dups l).

(** [for x in v] *)
Definition py_iter (v : pyval) : result (list pyval) :=
  match v with
  | PList l => Ok l
  | PStr s => Ok (map (fun c => PStr (String c EmptyString)) (String.list_ascii_of_string s))
  | PDict m => Ok (map (fun p => PStr (fst p)) m)
  | _ => Raise (TypeError "object is not iterable")
  end.

(** ** Issuing a command *)

Definition MODE_FOR_TYPE (command_type : string) : option string :=
  if String.eqb command_type "HALT" then Some "HALTED"
  else if String.eqb command_type "REDUCE" then Some "REDUCING"
  else if String.eqb command_type "RESUME" then Some "ACTIVE"
  else None.

Definition TERMINAL_STATUSES : list string := ["completed"; "partial"; "failed"].

(** [ck_operator_commands_type] *)
Definition COMMAND_TYPES : list string := ["HALT"; "REDUCE"; "RESUME"; "CANCEL_ALL"; "CLOSE_ALL"; "REFRESH_EVIDENCE"].

Record CommandRequest := {
  cq_command_type : string;
  cq_requested_by : string;
  cq_reason : string;
  cq_idempotency_key : string;
  cq_target_nodes : list string;
  cq_scope : dict;
  cq_ack_timeout_seconds : Z;
  cq_invalidate_accounts : list string }.

Record Issued := { is_command_id : string; is_status : string; is_idempotent : bool }.

Definition command_with_key (key : string) (d : Db) : option (string * operator_command_row) :=
  hd_error (filter (fun p => oc_idempotency_key (snd p) = key) (map_to_list (operator_commands (desk d)))).

Definition pending_command (q : CommandRequest) (now : Z) : operator_command_row := {|
  oc_command_type := cq_command_type q; oc_scope := cq_scope q; oc_status := "pending";
  oc_requested_by := cq_requested_by q; oc_reason := cq_reason q;
  oc_idempotency_key := cq_idempotency_key q; oc_created_at := now; oc_completed_at := None |}.

Definition insert_command (command_id : string) (q : CommandRequest) : M Conn unit :=
  now ← get_now;
  _ ← check (str_in (cq_command_type q) COMMAND_TYPES) "ck_operator_commands_type";
  execute (set_operator_commands (<[command_id := pending_command q now]>)).

Definition unique_violation (name : string) : exn := RuntimeError "UniqueViolation" name.

Definition pending_ack (ack_timeout_seconds now : Z) : ack_row := {|
  na_status := "pending"; na_detail := None; na_result := []; na_ack_at := None;
  na_expires_at := Some (now + seconds ack_timeout_seconds); na_created_at := now |}.

Definition insert_ack (command_id : string) (ack_timeout_seconds : Z) (node : string) : M Conn unit :=
  now ← get_now;
  existing ← select (fun d => command_node_acks (desk d) !! (command_id, node));
  match existing with
  | Some _ => mraise (unique_violation "command_node_acks_pkey")
  | None => execute (set_command_node_acks (<[(command_id, node) := pending_ack ack_timeout_seconds now]>))
  end.

(** The risk mode a halt, reduce or resume gives every instrument of its scope. *)
Definition apply_mode (q : CommandRequest) : M Conn unit :=
  match MODE_FOR_TYPE (cq_command_type q) with
  | Some mode =>
      if truthy (dget "account_id" (cq_scope q)) then
        instruments ← mlift (py_iter (default (PList []) (dlookup "instruments" (cq_scope q))));
        mfor instruments (fun instrument =>
          set_mode (py_str (dget "account_id" (cq_scope q))) (py_str instrument) mode)
      else mret tt
  | None => mret tt
  end.

Definition set_command (f : operator_command_row -> operator_command_row) (command_id : string) : Db -> Db :=
  set_operator_commands (fun t => match t !! command_id with Some r => <[command_id := f r]> t | None => t end).

Definition with_status (status : string) (completed_at : option Z) (r : operator_command_row) : operator_command_row := {|
  oc_command_type := oc_command_type r; oc_scope := oc_scope r; oc_status := status;
  oc_requested_by := oc_requested_by r; oc_reason := oc_reason r;
  oc_idempotency_key := oc_idempotency_key r; oc_created_at := oc_created_at r; oc_completed_at := completed_at |}.

Definition invalidated_accounts (q : CommandRequest) : list string :=
  if String.eqb (cq_command_type q) "CLOSE_ALL" then sorted_strings (cq_invalidate_accounts q) else [].

(** The body of the transaction of [issue_command]. *)
Definition issue_body (q : CommandRequest) : M Conn Issued :=
  existing ← select (command_with_key (cq_idempotency_key q));
  match existing with
  | Some (command_id, row) =>
      mret {| is_command_id := command_id; is_status := oc_status row; is_idempotent := true |}
  | None =>
      command_id ← uuid4;
      _ ← insert_command command_id q;
      _ ← mfor (cq_target_nodes q) (insert_ack command_id (cq_ack_timeout_seconds q));
      _ ← mfor (invalidated_accounts q) (fun account_id => invalidate_account account_id (PStr command_id));
      _ ← apply_mode q;
      match cq_target_nodes q with
      | [] =>
          now ← get_now;
          _ ← execute (set_command (with_status "completed" (Some now)) command_id);
          mret {| is_command_id := command_id; is_status := "completed"; is_idempotent := false |}
      | _ => mret {| is_command_id := command_id; is_status := "pending"; is_idempotent := false |}
      end
  end.

Definition issue_command (q : CommandRequest) : M Conn Issued := transaction (issue_body q).

(** ** Acknowledgements, as commands.py records them *)

Definition acks_of (command_id : string) (d : Db) : list (string * ack_row) :=
  omap (fun p => if String.eqb (fst (fst p)) command_id then Some (snd (fst p), snd p) else None)
    (map_to_list (command_node_acks (desk d))).

Definition ack_statuses (command_id : string) (d : Db) : list string :=
  map (fun p => na_status (snd p)) (acks_of command_id d).

Definition aggregate (statuses : list string) : string :=
  if forallb (String.eqb "acked") statuses then "completed"
  else if forallb (String.eqb "failed") statuses then "failed"
  else if existsb (String.eqb "pending") statuses then
    if existsb (String.eqb "acked") statuses then "acknowledged" else "pending"
  else "partial".

(** [UPDATE operator_commands SET status=..., completed_at=CASE ...] *)
Definition write_status (new_status : string) (now : Z) : string -> Db -> Db :=
  set_command (fun r => with_status new_status
    (if str_in new_status TERMINAL_STATUSES && negb (bool_decide (is_Some (oc_completed_at r)))
     then Some now else oc_completed_at r) r).

Definition _recompute (command_id : string) : M Conn unit :=
  statuses ← select (ack_statuses command_id);
  now ← get_now;
  execute (write_status (aggregate statuses) now command_id).

Record CommandStatus := {
  cs_command_id : string;
  cs_status : string;
  cs_command_type : string;
  cs_completed : bool;
  cs_acks : list (string * string) }.

Definition get_status (command_id : string) : M Conn CommandStatus :=
  row ← select (fun d => operator_commands (desk d) !! command_id);
  match row with
  | None => mraise (CommandError ("unknown command " +:+ command_id))
  | Some row =>
      acks ← select (fun d => sort_by (fun a b => String.leb (fst a) (fst b)) (acks_of command_id d));
      mret {| cs_command_id := command_id; cs_status := oc_status row; cs_command_type := oc_command_type row;
              cs_completed := str_in (oc_status row) TERMINAL_STATUSES;
              cs_acks := map (fun p => (fst p, na_status (snd p))) acks |}
  end.

Definition with_ack (status : string) (detail : option string) (result : dict) (now : Z) (r : ack_row) : ack_row := {|
  na_status := status; na_detail := detail; na_result := result; na_ack_at := Some now;
  na_expires_at := na_expires_at r; na_created_at := na_created_at r |}.

(** The UPDATE of one acknowledgement, and the number of rows it met. *)
Definition update_ack (command_id node_id : string) (f : ack_row -> ack_row) : M Conn Z :=
  row ← select (fun d => command_node_acks (desk d) !! (command_id, node_id));
  match row with
  | Some r => _ ← execute (set_command_node_acks (<[(command_id, node_id) := f r]>)); mret 1
  | None => mret 0
  end.

Definition record_ack_body (command_id node_id status : string) (detail : option string) : M Conn unit :=
  now ← get_now;
  rowcount ← update_ack command_id node_id (fun r => with_ack status detail (na_result r) now r);
  if negb (rowcount =? 1) then
    mraise (CommandError ("unknown command/node " +:+ command_id +:+ "/" +:+ node_id))
  else _recompute command_id.

Definition record_ack (command_id node_id status : string) (detail : option string) : M Conn CommandStatus :=
  if negb (str_in status ["acked"; "failed"]) then mraise (ValueError ("invalid ack status '" +:+ status +:+ "'"))
  else
    _ ← transaction (record_ack_body command_id node_id status detail);
    get_status command_id.

(** [status='pending' AND expires_at IS NOT NULL AND expires_at <= now()] *)
Definition ack_expired (now : Z) (r : ack_row) : bool :=
  String.eqb (na_status r) "pending" && match na_expires_at r with Some e => e <=? now | None => false end.

Definition expire_timeouts : M Conn (list string) :=
  transaction (
    now ← get_now;
    expired ← select (fun d => filter (fun p => ack_expired now (snd p) = true) (map_to_list (command_node_acks (desk d))));
    _ ← execute (set_command_node_acks (fmap (fun r =>
          if ack_expired now r then with_ack "failed" (coalesce (na_detail r) (Some "ack timeout")) (na_result r) now r
          else r)));
    let command_ids := sorted_strings (map (fun p => fst (fst p)) expired) in
    _ ← mfor command_ids _recompute;
    mret command_ids).

(** ** The writer fence *)

Definition writer_fence (detail : string) : exn := HTTPException 409 detail.

(** A header: [None] when absent. *)
Abbreviation header := (option string).

Definition absent (h : header) : bool := match h with None => true | Some s => is_empty s end.

Record WriterHeaders := {
  wh_redis_fencing_epoch : header;
  wh_runtime_generation : header;
  wh_lease_fencing_token : header }.

(** The version of a UUID, which only the RFC 4122 variant has. *)
Definition uuid_version4 (hex : string) : bool :=
  String.eqb (String.substring 12 1 hex) "4" && str_in (String.substring 16 1 hex) ["8"; "9"; "a"; "b"].

Definition _writer_fencing_token (value : header) : result Z :=
  let normalized := strip (default "" value) in
  if negb (sforall is_digit normalized) || is_empty normalized || String.eqb (String.substring 0 1 normalized) "0" then
    Raise (writer_fence "lease fencing token is invalid")
  else match parse_int normalized with
       | Some z => Ok z
       | None => Raise (writer_fence "lease fencing token is invalid")
       end.

Definition _node_writer_header_identity (h : WriterHeaders) : result (option (string * string * Z)) :=
  let absents := [absent (wh_redis_fencing_epoch h); absent (wh_runtime_generation h); absent (wh_lease_fencing_token h)] in
  if forallb id absents then Ok None
  else if existsb id absents then Raise (writer_fence "node writer identity is incomplete")
  else
    let epoch := strip (default "" (wh_redis_fencing_epoch h)) in
    match uuid_hex epoch with
    | Some hex =>
        if negb (uuid_version4 hex) || negb (String.eqb (uuid_text hex) epoch) then
          Raise (writer_fence "redis fencing epoch is invalid")
        else
          let generation := strip (default "" (wh_runtime_generation h)) in
          if is_empty generation then Raise (writer_fence "runtime generation is invalid")
          else token ← _writer_fencing_token (wh_lease_fencing_token h); Ok (Some (epoch, generation, token))
    | None => Raise (writer_fence "redis fencing epoch is invalid")
    end.

Definition _require_node_writer (node_id account_id : string) (h : WriterHeaders) : M Conn unit :=
  active_epoch ← select (fun d => active_fencing_epoch (desk d));
  identity ← mlift (_node_writer_header_identity h);
  match active_epoch, identity with
  | None, None => mret tt
  | None, Some _ => mraise (HTTPException 503 "active redis fencing epoch is unavailable")
  | Some _, None => mraise (writer_fence "node writer identity is required")
  | Some active_epoch, Some (epoch, generation, token) =>
      if negb (String.eqb epoch active_epoch) then mraise (writer_fence "redis fencing epoch mismatch")
      else
        row ← select (fun d => node_writers (desk d) !! (node_id, account_id));
        match row with
        | None => mraise (writer_fence "node writer heartbeat is missing")
        | Some row =>
            if negb (String.eqb (strip (default "" (wr_redis_fencing_epoch row))) epoch) then
              mraise (writer_fence "redis fencing epoch mismatch")
            else if negb (String.eqb (strip (default "" (wr_runtime_generation row))) generation) then
              mraise (writer_fence "runtime generation mismatch")
            else if negb (bool_decide (wr_lease_fencing_token row = Some token)) then
              mraise (writer_fence "lease fencing token mismatch")
            else mret tt
        end
  end.

(** ** The node's endpoints *)

Definition _NODE_COMMAND_TYPE_MAP (command_type : string) : string :=
  if String.eqb command_type "HALT" then "halt"
  else if String.eqb command_type "RESUME" then "resume"
  else if String.eqb command_type "REDUCE" then "set_reducing"
  else if String.eqb command_type "CANCEL_ALL" then "cancel_all"
  else if String.eqb command_type "CLOSE_ALL" then "close_all"
  else if String.eqb command_type "REFRESH_EVIDENCE" then "refresh_evidence"
  else lower command_type.

Definition NODE_COMMAND_POLL_LIMIT : nat := 64.

Record PolledCommand := { pc_command_id : string; pc_type : string; pc_args : dict; pc_issued_at : Z }.

(** The commands whose acknowledgement by [node_id] is pending, for [account_id]. *)
Definition pending_commands (node_id account_id : string) (d : Db) : list (string * operator_command_row) :=
  omap (fun p : (string * string) * ack_row =>
          if String.eqb (snd (fst p)) node_id && String.eqb (na_status (snd p)) "pending" then
            match operator_commands (desk d) !! fst (fst p) with
            | Some oc => if bool_decide (json_text "account_id" (oc_scope oc) = Some account_id) then Some (fst (fst p), oc) else None
            | None => None
            end
          else None)
    (map_to_list (command_node_acks (desk d))).

Definition node_commands (node_id account_id : string) (h : WriterHeaders) : M Conn (list PolledCommand) :=
  _ ← _require_node_writer node_id account_id h;
  rows ← select (fun d => take NODE_COMMAND_POLL_LIMIT
            (sort_by (fun a b => oc_created_at (snd a) <=? oc_created_at (snd b)) (pending_commands node_id account_id d)));
  mret (map (fun p => {| pc_command_id := fst p; pc_type := _NODE_COMMAND_TYPE_MAP (oc_command_type (snd p));
                         pc_args := oc_scope (snd p); pc_issued_at := oc_created_at (snd p) |}) rows).

Definition _COMMAND_ACK_STATUSES : list string := ["accepted"; "running"; "completed"; "failed"].

Definition _command_ack_transition_allowed (current_status requested_status : string) : bool :=
  if String.eqb current_status requested_status then true
  else
    let allowed :=
      if String.eqb current_status "pending" then ["accepted"; "running"; "completed"; "failed"]
      else if String.eqb current_status "accepted" then ["running"; "completed"; "failed"]
      else if String.eqb current_status "running" then ["completed"; "failed"]
      else if String.eqb current_status "acked" then ["completed"]
      else [] in
    str_in requested_status allowed.

Definition rollup (statuses : list string) : string :=
  if forallb (String.eqb "completed") statuses then "completed"
  else if forallb (String.eqb "failed") statuses then "failed"
  else if forallb (fun s => str_in s ["completed"; "failed"]) statuses then "partial"
  else if existsb (String.eqb "running") statuses then "running"
  else if existsb (fun s => str_in s ["accepted"; "completed"]) statuses then "accepted"
  else if existsb (String.eqb "acked") statuses then "acknowledged"
  else "pending".

Definition _recompute_operator_command_status (command_id : string) : M Conn unit :=
  statuses ← select (ack_statuses command_id);
  now ← get_now;
  execute (write_status (rollup statuses) now command_id).

(** [body.get("result")], which must be an object. *)
Definition ack_result (body : dict) : result dict :=
  match dget "result" body with
  | PNone => Ok []
  | PDict m => Ok m
  | _ => Raise (HTTPException 400 "command ack result must be an object")
  end.

Definition ack_detail (body : dict) : option string :=
  let detail := if is_none (dget "error" body) then dget "detail" body else dget "error" body in
  if is_none detail then None else Some (py_str detail).

(** What [ack_node_command] does between opening and committing. *)
Definition ack_body (node_id account_id command_id : string) (h : WriterHeaders)
    (status : string) (detail : option string) (result : dict) : M Conn unit :=
  _ ← _require_node_writer node_id account_id h;
  row ← select (fun d =>
          match command_node_acks (desk d) !! (command_id, node_id), operator_commands (desk d) !! command_id with
          | Some r, Some oc =>
              if bool_decide (json_text "account_id" (oc_scope oc) = Some account_id) then Some r else None
          | _, _ => None
          end);
  match row with
  | None => mraise (HTTPException 404 "unknown command/node/account binding")
  | Some row =>
      if negb (_command_ack_transition_allowed (na_status row) status) then
        mraise (HTTPException 409 "invalid command ack transition")
      else
        now ← get_now;
        _ ← update_ack command_id node_id (fun r =>
              with_ack status (coalesce detail (na_detail r)) (dupdate (na_result r) result) now r);
        _recompute_operator_command_status command_id
  end.

Definition ack_node_command (node_id account_id command_id : string) (h : WriterHeaders) (body : dict) : M Conn unit :=
  let status := lower (strip (py_str (py_or (dget "status" body) (PStr "")))) in
  if negb (str_in status _COMMAND_ACK_STATUSES) then mraise (HTTPException 400 "invalid command ack status")
  else
    result ← mlift (ack_result body);
    transaction (ack_body node_id account_id command_id h status (ack_detail body) result).

(** ** A status as a function of the acknowledgements *)

Lemma forallb_elem {A} (p : A -> bool) l l' : (forall x, x ∈ l <-> x ∈ l') -> forallb p l = forallb p l'.
Proof.
  intros E. apply eq_true_iff_eq. rewrite !forallb_forall. setoid_rewrite <- list_elem_of_In.
  split; intros H x Hx; apply H, E, Hx.
Qed.

Lemma existsb_elem {A} (p : A -> bool) l l' : (forall x, x ∈ l <-> x ∈ l') -> existsb p l = existsb p l'.
Proof.
  intros E. apply eq_true_iff_eq. rewrite !existsb_exists. setoid_rewrite <- list_elem_of_In.
  split; intros (x & Hx & P); exists x; (split; [by apply E | done]).
Qed.

Lemma aggregate_elem l l' : (forall s, s ∈ l <-> s ∈ l') -> aggregate l = aggregate l'.
Proof. intros E. unfold aggregate. by rewrite !(forallb_elem _ l l' E), !(existsb_elem _ l l' E). Qed.

Lemma rollup_elem l l' : (forall s, s ∈ l <-> s ∈ l') -> rollup l = rollup l'.
Proof. intros E. unfold rollup. by rewrite !(forallb_elem _ l l' E), !(existsb_elem _ l l' E). Qed.

(** A rollup is terminal when every node is done. *)
Lemma rollup_terminal l :
  str_in (rollup l) TERMINAL_STATUSES = forallb (fun s => str_in s ["completed"; "failed"]) l.
Proof.
  unfold rollup.
  assert (I : forall x, str_in x ["completed"; "failed"] = true ->
    forallb (String.eqb x) l = true -> forallb (fun s => str_in s ["completed"; "failed"]) l = true).
  { intros x Hx. rewrite !forallb_forall. intros H y Hy. by rewrite <- (proj1 (String.eqb_eq _ _) (H y Hy)). }
  destruct (forallb (String.eqb "completed") l) eqn:E1; [by rewrite (I "completed" eq_refl E1)|].
  destruct (forallb (String.eqb "failed") l) eqn:E2; [by rewrite (I "failed" eq_refl E2)|].
  destruct (forallb (fun s => _) l) eqn:E3; [done|]. by repeat case_match.
Qed.

Lemma ack_statuses_elem s cid d :
  s ∈ ack_statuses cid d <-> exists node r, command_node_acks (desk d) !! (cid, node) = Some r /\ na_status r = s.
Proof.
  unfold ack_statuses, acks_of. rewrite list_elem_of_fmap. setoid_rewrite list_elem_of_omap. split.
  - intros ([node r] & -> & [[cid' node'] r'] & H & E). cbn in E. apply elem_of_map_to_list in H.
    destruct (String.eqb_spec cid' cid) as [->|]; [|done]. injection E as <- <-. by exists node', r'.
  - intros (node & r & H & <-). exists (node, r). split; [done|]. exists ((cid, node), r).
    split; [by apply elem_of_map_to_list|]. cbn. by rewrite String.eqb_refl.
Qed.

Lemma forallb_eqb x l : forallb (String.eqb x) l = true <-> Forall (fun s => s = x) l.
Proof.
  rewrite forallb_forall, Forall_forall. setoid_rewrite <- list_elem_of_In. setoid_rewrite String.eqb_eq. naive_solver.
Qed.

Lemma rollup_completed l : rollup l = "completed" <-> Forall (fun s => s = "completed") l.
Proof.
  rewrite <- forallb_eqb. unfold rollup. destruct (forallb (String.eqb "completed") l); [done|].
  split; [|done]. repeat case_match; done.
Qed.

Lemma rollup_terminal_all l :
  str_in (rollup l) TERMINAL_STATUSES = true <-> Forall (fun s => s = "completed" \/ s = "failed") l.
Proof.
  rewrite rollup_terminal, forallb_forall, Forall_forall. setoid_rewrite <- list_elem_of_In. setoid_rewrite str_in_spec.
  setoid_rewrite elem_of_cons. setoid_rewrite list_elem_of_singleton. done.
Qed.

(** ** What the operations leave alone *)

(** The commands and their acknowledgements stay, and no id is drawn twice. *)
Definition commands_kept (s s' : Conn) : Prop :=
  operator_commands (desk (current s')) = operator_commands (desk (current s))
  /\ command_node_acks (desk (current s')) = command_node_acks (desk (current s))
  /\ uuids s <= uuids s' /\ clock s' = clock s /\ committed s' = committed s.

#[export] Instance commands_kept_preorder : PreOrder commands_kept.
Proof.
  split; [intros s; split_and!; done || lia|].
  intros s s1 s2 (A & B & C & D & E) (A' & B' & C' & D' & E'). split_and!; [congruence | congruence | lia | congruence..].
Qed.

Lemma kept_execute f :
  (forall d, operator_commands (desk (f d)) = operator_commands (desk d)) ->
  (forall d, command_node_acks (desk (f d)) = command_node_acks (desk d)) -> within commands_kept (execute f).
Proof. intros A B s. split_and!; cbn; auto; lia. Qed.

Lemma kept_uuid4 : within commands_kept uuid4.
Proof. intros s. split_and!; cbn; auto; lia. Qed.

#[local] Hint Resolve kept_execute kept_uuid4 : keeps.

Lemma kept_invalidate a i s op : within commands_kept (_invalidate a i s op).
Proof. unfold _invalidate, bump. within. Qed.

Lemma kept_set_mode a i m : within commands_kept (set_mode a i m).
Proof. unfold set_mode. within. Qed.

#[local] Hint Resolve kept_invalidate kept_set_mode : keeps.

Lemma kept_apply_mode q : within commands_kept (apply_mode q).
Proof. unfold apply_mode. within. Qed.

Lemma insert_acks cid t nodes c u c' :
  mfor nodes (insert_ack cid t) c = (Ok u, c') ->
  NoDup nodes /\ (forall node, node ∈ nodes -> command_node_acks (desk (current c)) !! (cid, node) = None)
  /\ (forall k, command_node_acks (desk (current c')) !! k
               = if decide (k.1 = cid /\ k.2 ∈ nodes) then Some (pending_ack t (clock c))
                 else command_node_acks (desk (current c)) !! k)
  /\ operator_commands (desk (current c')) = operator_commands (desk (current c))
  /\ position_revision_invalidations (desk (current c')) = position_revision_invalidations (desk (current c))
  /\ position_revisions (desk (current c')) = position_revisions (desk (current c))
  /\ uuids c' = uuids c /\ clock c' = clock c /\ committed c' = committed c.
Proof.
  revert c. induction nodes as [|n nodes IH]; intros c H.
  { cbn [mfor] in H. run_inv. split_and!; try done; [by apply NoDup_nil_2 | by intros ? E%elem_of_nil |]. intros k.
    rewrite decide_False; [done|]. by intros [_ E%elem_of_nil]. }
  cbn [mfor] in H. apply mbind_inv_ok in H as ([] & c1 & H1 & H). unfold insert_ack in H1. run_inv.
  destruct (_ !! (cid, n)) as [r|] eqn:L; [done|]. unfold execute in H1. injection H1 as <-. 
  destruct (IH _ H) as (N & F & K & C & P1 & P2 & U & T & M). cbn in *.
  assert (Nn : n ∉ nodes). { intros E. specialize (F n E). by rewrite lookup_insert_eq in F. }
  split_and!; try done; [by apply NoDup_cons | |].
  - intros m [->|E]%elem_of_cons; [done|]. specialize (F m E). rewrite lookup_insert_ne in F; [done|]. congruence.
  - intros [k1 k2]. rewrite K. cbn [fst snd]. destruct (decide (k1 = cid /\ k2 ∈ nodes)) as [[-> E]|E].
    + rewrite decide_True; [done|]. split; [done | by right].
    + destruct (decide ((cid, n) = (k1, k2))) as [[= <- <-]|E2].
      * rewrite lookup_insert_eq, decide_True; [done|]. split; [done | by left].
      * rewrite lookup_insert_ne by done. rewrite decide_False; [done|]. intros [-> [->|?]%elem_of_cons]; [done|]. by apply E.
Qed.

Lemma invalidate_accounts cid accounts c u c' :
  NoDup accounts ->
  (forall a, a ∈ accounts -> position_revision_invalidations (desk (current c)) !! (a, cid) = None) ->
  mfor accounts (fun account_id => invalidate_account account_id (PStr cid)) c = (Ok u, c') ->
  (forall k, revision_at (current c') k
            = revision_at (current c) k + (if decide (k.1.1 ∈ accounts /\ k.1.2 = "*" /\ k.2 = "*") then 1 else 0))
  /\ (revisions_ok (current c) -> revisions_ok (current c')).
Proof.
  revert c. induction accounts as [|a accounts IH]; intros c N F H.
  { cbn [mfor] in H. run_inv. split; [|done]. intros k. rewrite decide_False; [lia|]. by intros [E%elem_of_nil _]. }
  cbn [mfor] in H. apply mbind_inv_ok in H as ([] & c1 & H1 & H). apply NoDup_cons in N as [Na N].
  destruct (invalidation_inv _ _ _ _ _ _ H1) as [[[now L] _]|(_ & E & O)]; [by rewrite F in L by left|].
  destruct (IH c1 N) as [G K]; [|exact H|].
  { intros b Hb. rewrite E. cbn. rewrite lookup_insert_ne by (intros [= <-]; done). apply F. by right. }
  split; [|intros OK; apply K; rewrite E; by apply advanced_ok].
  intros k. rewrite G, E. destruct k as [[k1 k2] k3]. unfold revision_at at 1, advanced. cbn.
  destruct (decide ((a, "*", "*") = (k1, k2, k3))) as [[= <- <- <-]|Nk].
  - rewrite lookup_insert_eq. cbn. rewrite decide_False by (by intros [? _]).
    rewrite decide_True by (split; [by left | done]). unfold revision_at. lia.
  - rewrite lookup_insert_ne by done. fold (revision_at (current c) (k1, k2, k3)). f_equal.
    destruct (decide (k1 ∈ accounts /\ _)) as [(E1 & -> & ->)|E1].
    + rewrite decide_True; [done|]. split; [by right | done].
    + rewrite decide_False; [done|]. intros [[->|?]%elem_of_cons [-> ->]]; [done|]. by apply E1.
Qed.

Lemma sorted_strings_elem x l : x ∈ sorted_strings l <-> x ∈ l.
Proof. unfold sorted_strings. by rewrite sort_by_perm, elem_of_remove_dups. Qed.

Lemma sorted_strings_nodup l : NoDup (sorted_strings l).
Proof. unfold sorted_strings. rewrite sort_by_perm. apply NoDup_remove_dups. Qed.

Lemma invalidated_nodup q : NoDup (invalidated_accounts q).
Proof. unfold invalidated_accounts. destruct (String.eqb _ _); [apply sorted_strings_nodup | apply NoDup_nil_2]. Qed.

Definition revisions_kept (s s' : Conn) : Prop :=
  position_revisions (desk (current s')) = position_revisions (desk (current s)).

#[export] Instance revisions_kept_preorder : PreOrder revisions_kept.
Proof. split; [done | intros s s1 s2 A B; unfold revisions_kept in *; congruence]. Qed.

Lemma revisions_execute f :
  (forall d, position_revisions (desk (f d)) = position_revisions (desk d)) -> within revisions_kept (execute f).
Proof. intros A s. apply A. Qed.

Lemma revisions_uuid4 : within revisions_kept uuid4.
Proof. done. Qed.

#[local] Hint Resolve revisions_execute revisions_uuid4 : keeps.

Lemma revisions_apply_mode q : within revisions_kept (apply_mode q).
Proof. unfold apply_mode, set_mode. within. Qed.

(** ** Issuing *)

Lemma insert_command_inv cid q c u c' :
  insert_command cid q c = (Ok u, c') ->
  str_in (cq_command_type q) COMMAND_TYPES = true
  /\ c' = {| committed := committed c; uuids := uuids c; clock := clock c;
             current := set_operator_commands (<[cid := pending_command q (clock c)]>) (current c) |}.
Proof.
  unfold insert_command, get_now, check, execute, mbind, M_bind. destruct (str_in _ _); [|done].
  intros H. by injection H as _ <-.
Qed.

Lemma mark_completed_inv cid t c u c' :
  execute (set_command (with_status "completed" t) cid) c = (Ok u, c') ->
  c' = {| committed := committed c; uuids := uuids c; clock := clock c;
          current := set_command (with_status "completed" t) cid (current c) |}.
Proof. unfold execute. intros H. by injection H as _ <-. Qed.

(** What issuing a command that is not a replay leaves behind. *)
Record issued (q : CommandRequest) (c : Conn) (cid : string) (c' : Conn) : Prop := {
  is_new : command_with_key (cq_idempotency_key q) (current c) = None;
  is_commands : operator_commands (desk (current c'))
    = <[cid := match cq_target_nodes q with
               | [] => with_status "completed" (Some (clock c)) (pending_command q (clock c))
               | _ => pending_command q (clock c)
               end]> (operator_commands (desk (current c)));
  is_nodes : NoDup (cq_target_nodes q);
  is_fresh : forall node, node ∈ cq_target_nodes q -> command_node_acks (desk (current c)) !! (cid, node) = None;
  is_acks : forall k, command_node_acks (desk (current c')) !! k
    = if decide (k.1 = cid /\ k.2 ∈ cq_target_nodes q) then Some (pending_ack (cq_ack_timeout_seconds q) (clock c))
      else command_node_acks (desk (current c)) !! k;
  is_revisions :
    (forall a, a ∈ invalidated_accounts q -> position_revision_invalidations (desk (current c)) !! (a, cid) = None) ->
    (forall k, revision_at (current c') k
               = revision_at (current c) k + (if decide (k.1.1 ∈ invalidated_accounts q /\ k.1.2 = "*" /\ k.2 = "*") then 1 else 0))
    /\ (revisions_ok (current c) -> revisions_ok (current c'));
  is_uuids : uuids c < uuids c';
  is_idle : idle c' }.

Lemma issue_inv q c r c' :
  issue_command q c = (Ok r, c') ->
  (exists cid row, command_with_key (cq_idempotency_key q) (current c) = Some (cid, row)
     /\ r = {| is_command_id := cid; is_status := oc_status row; is_idempotent := true |} /\ c' = commit c)
  \/ (r = {| is_command_id := "uuid-" +:+ int_str (uuids c);
             is_status := match cq_target_nodes q with [] => "completed" | _ => "pending" end; is_idempotent := false |}
      /\ issued q c (is_command_id r) c').
Proof.
  intros H. apply transaction_inv_ok in H as (c1 & H & ->). apply mbind_inv_ok in H as (ex & c0 & H0 & H).
  apply select_inv in H0 as [-> ->]. destruct (command_with_key _ _) as [[cid row]|] eqn:K.
  { run_inv. left. by exists cid, row. }
  right. apply mbind_inv_ok in H as (cid & c0 & H0 & H). unfold uuid4 in H0. injection H0 as <- <-.
  set (cid := "uuid-" +:+ int_str (uuids c)) in *.
  apply mbind_inv_ok in H as ([] & c2 & H2 & H). apply insert_command_inv in H2 as [V ->].
  apply mbind_inv_ok in H as ([] & c3 & H3 & H). apply insert_acks in H3 as (N & F & A & C & P1 & P2 & U & T & _).
  apply mbind_inv_ok in H as ([] & c4 & H4 & H).
  assert (R4 := H4). apply (within_ok commands_kept) in H4 as (C4 & A4 & U4 & T4 & _); [|apply within_mfor; [apply _|]; intros; apply kept_invalidate].
  apply mbind_inv_ok in H as ([] & c5 & H5 & H). assert (R5 := H5).
  apply (within_ok _ _ _ _ _ (kept_apply_mode q)) in H5 as (C5 & A5 & U5 & T5 & _).
  apply (within_ok _ _ _ _ _ (revisions_apply_mode q)) in R5. unfold revisions_kept in R5.
  cbn in F, A, C, U, T, P1, P2.
  assert (RV : (forall a, a ∈ invalidated_accounts q -> position_revision_invalidations (desk (current c)) !! (a, cid) = None) ->
    (forall k, revision_at (current c5) k
               = revision_at (current c) k + (if decide (k.1.1 ∈ invalidated_accounts q /\ k.1.2 = "*" /\ k.2 = "*") then 1 else 0))
    /\ (revisions_ok (current c) -> revisions_ok (current c5))).
  { intros Fi. destruct (invalidate_accounts cid (invalidated_accounts q) c3 tt c4) as [G K'];
      [apply invalidated_nodup | by rewrite P1 | exact R4|].
    unfold revision_at, revisions_ok in *. rewrite R5. split; [intros k; by rewrite G, P2 | intros O; apply K'; by rewrite P2]. }
  assert (CC : operator_commands (desk (current c5)) = <[cid := pending_command q (clock c)]> (operator_commands (desk (current c))))
    by congruence.
  assert (AA : command_node_acks (desk (current c5)) = command_node_acks (desk (current c3))) by congruence.
  assert (TT : clock c5 = clock c) by congruence. assert (UU : uuids c < uuids c5) by lia.
  destruct (cq_target_nodes q) as [|n ns] eqn:TN.
  - apply mbind_inv_ok in H as (t & c6 & H6 & H). apply get_now_inv in H6 as [-> ->].
    apply mbind_inv_ok in H as (u & c6 & H6 & H). apply mark_completed_inv in H6 as ->.
    apply mret_inv in H as [<- <-]. split; [done|]. cbn [is_command_id].
    split; rewrite ?TN; cbn; try done; [|by rewrite AA; apply A].
    by rewrite CC, lookup_insert_eq, insert_insert_eq, TT.
  - apply mret_inv in H as [<- <-]. split; [done|]. cbn [is_command_id].
    split; rewrite ?TN; cbn; try done. by rewrite AA; apply A.
Qed.

Lemma command_with_key_some key d cid row :
  command_with_key key d = Some (cid, row) ->
  operator_commands (desk d) !! cid = Some row /\ oc_idempotency_key row = key.
Proof.
  unfold command_with_key. intros H. assert (E : (cid, row) ∈ filter (fun p => oc_idempotency_key (snd p) = key)
    (map_to_list (operator_commands (desk d)))) by (destruct (filter _ _); [done|]; injection H as ->; by left).
  apply list_elem_of_filter in E as [E1 E2]. by apply elem_of_map_to_list in E2.
Qed.

Lemma command_with_key_none key d :
  command_with_key key d = None ->
  forall cid row, operator_commands (desk d) !! cid = Some row -> oc_idempotency_key row <> key.
Proof.
  unfold command_with_key. intros H cid row L E.
  assert (I : (cid, row) ∈ filter (fun p => oc_idempotency_key (snd p) = key) (map_to_list (operator_commands (desk d)))).
  { apply list_elem_of_filter. split; [done|]. by apply elem_of_map_to_list. }
  destruct (filter _ _); [by apply elem_of_nil in I | done].
Qed.

(** ** Reachable databases *)

(** A status computed from the acknowledgements: it does not depend on their
    order, and it is terminal when every one of them is final. *)
Class Rollup (f : list string -> string) (final : string -> bool) := {
  rollup_same : forall l l', (forall s, s ∈ l <-> s ∈ l') -> f l = f l';
  rollup_final : forall l, str_in (f l) TERMINAL_STATUSES = forallb final l;
  rollup_none : f [] = "completed";
  rollup_pending : f ["pending"] = "pending" }.

Definition node_done (s : string) : bool := str_in s ["completed"; "failed"].
Definition ack_done (s : string) : bool := negb (String.eqb "pending" s).

#[export] Instance rollup_rollup : Rollup rollup node_done.
Proof. split; [apply rollup_elem | apply rollup_terminal | done..]. Qed.

Lemma aggregate_terminal l : str_in (aggregate l) TERMINAL_STATUSES = forallb ack_done l.
Proof.
  unfold aggregate.
  assert (I : forall x, x <> "pending" -> forallb (String.eqb x) l = true -> forallb ack_done l = true).
  { intros x Hx. rewrite !forallb_forall. intros H y Hy. apply H, String.eqb_eq in Hy as <-.
    unfold ack_done. apply negb_true_iff, String.eqb_neq. congruence. }
  destruct (forallb (String.eqb "acked") l) eqn:E1; [by rewrite (I "acked")|].
  destruct (forallb (String.eqb "failed") l) eqn:E2; [by rewrite (I "failed")|].
  assert (N : forallb ack_done l = negb (existsb (String.eqb "pending") l)).
  { clear. unfold ack_done. induction l as [|x l IH]; [done|]. cbn [forallb existsb]. by rewrite IH, negb_orb. }
  rewrite N. destruct (existsb (String.eqb "pending") l); [by case_match | done].
Qed.

#[export] Instance aggregate_rollup : Rollup aggregate ack_done.
Proof. split; [apply aggregate_elem | apply aggregate_terminal | done..]. Qed.

Section invariant.
Context (f : list string -> string) (final : string -> bool) `{!Rollup f final}.

(** One command: its status is that of its acknowledgements, and it has a
    completion time once that is terminal. *)
Definition command_ok (d : Db) (cid : string) (oc : operator_command_row) : Prop :=
  oc_status oc = f (ack_statuses cid d)
  /\ (is_Some (oc_completed_at oc) <-> str_in (oc_status oc) TERMINAL_STATUSES = true).

Record commands_ok (c : Conn) : Prop := {
  co_idle : idle c;
  co_status : forall cid oc, operator_commands (desk (current c)) !! cid = Some oc -> command_ok (current c) cid oc;
  co_acks : forall cid node r, command_node_acks (desk (current c)) !! (cid, node) = Some r ->
              is_Some (operator_commands (desk (current c)) !! cid);
  co_fresh : forall n, uuids c <= n -> operator_commands (desk (current c)) !! ("uuid-" +:+ int_str n) = None;
  co_keys : forall cid oc cid' oc', operator_commands (desk (current c)) !! cid = Some oc ->
              operator_commands (desk (current c)) !! cid' = Some oc' ->
              oc_idempotency_key oc = oc_idempotency_key oc' -> cid = cid' }.

(** Steps that leave the two tables alone. *)
Lemma commands_ok_kept c c' :
  idle c' -> operator_commands (desk (current c')) = operator_commands (desk (current c)) ->
  command_node_acks (desk (current c')) = command_node_acks (desk (current c)) -> uuids c <= uuids c' ->
  commands_ok c -> commands_ok c'.
Proof.
  intros I C A U [_ S K F Q].
  assert (E : forall cid, f (ack_statuses cid (current c')) = f (ack_statuses cid (current c))).
  { intros cid. apply rollup_same. intros s. by rewrite !ack_statuses_elem, A. }
  split; rewrite ?C, ?A; [done | | done | intros n Hn; apply F; lia | done].
  intros cid oc L. unfold command_ok. rewrite E. by apply S.
Qed.

Lemma statuses_unrelated cid d d' :
  (forall node, command_node_acks (desk d') !! (cid, node) = command_node_acks (desk d) !! (cid, node)) ->
  f (ack_statuses cid d') = f (ack_statuses cid d).
Proof. intros H. apply rollup_same. intros s. rewrite !ack_statuses_elem. by setoid_rewrite H. Qed.

Lemma pending_statuses cid d nodes t now :
  nodes <> [] ->
  (forall node r, command_node_acks (desk d) !! (cid, node) = Some r <-> node ∈ nodes /\ r = pending_ack t now) ->
  f (ack_statuses cid d) = "pending".
Proof.
  intros N H. rewrite <- (rollup_pending (f := f)). apply rollup_same. intros s. rewrite ack_statuses_elem, list_elem_of_singleton.
  setoid_rewrite H. split; [by intros (? & ? & [_ ->] & <-)|]. intros ->. destruct nodes as [|n ns]; [done|].
  exists n, (pending_ack t now). split; [|done]. split; [by left | done].
Qed.

Lemma no_statuses cid d :
  (forall node, command_node_acks (desk d) !! (cid, node) = None) -> f (ack_statuses cid d) = "completed".
Proof.
  intros H. rewrite <- (rollup_none (f := f)). apply rollup_same. intros s. rewrite ack_statuses_elem.
  split; [|by intros ?%elem_of_nil]. intros (node & r & E & _). by rewrite H in E.
Qed.

Lemma aged_issue q : within aged (issue_body q).
Proof. unfold issue_body, insert_command, insert_ack, invalidate_account, _invalidate, bump, apply_mode, set_mode. within. Qed.

Lemma issue_ok q c r c' : commands_ok c -> issue_command q c = (r, c') -> commands_ok c'.
Proof.
  intros OK H. assert (I : idle c') by (pose proof (transaction_idle (issue_body q) c) as I; unfold issue_command in H; by rewrite H in I).
  destruct r as [r|e].
  2:{ destruct (transaction_undone _ _ _ _ (aged_issue q) (co_idle _ OK) H) as [E U].
      apply (commands_ok_kept c); [done | by rewrite E.. | done | done]. }
  apply issue_inv in H as [(cid & row & _ & _ & ->)|[-> H]].
  { by apply (commands_ok_kept c). }
  cbn [is_command_id] in H. set (cid := "uuid-" +:+ int_str (uuids c)) in *.
  destruct OK as [_ S K F Q], H as [New C N Fr A _ U _].
  assert (Fc : operator_commands (desk (current c)) !! cid = None) by (apply F; lia).
  assert (Fa : forall node, command_node_acks (desk (current c)) !! (cid, node) = None).
  { intros node. destruct (_ !! (cid, node)) as [r|] eqn:E; [|done]. apply K in E as [? E]. congruence. }
  split; [done| | | |].
  - intros cid' oc L. rewrite C in L. destruct (decide (cid = cid')) as [<-|Nc].
    + rewrite lookup_insert_eq in L. injection L as <-. unfold command_ok.
      destruct (cq_target_nodes q) as [|n ns] eqn:T; cbn.
      * rewrite no_statuses; [split; [done|]; split; [done | by intros _; eexists]|].
        intros node. rewrite A, decide_False; [done|]. cbn. by intros [_ ?%elem_of_nil].
      * rewrite (pending_statuses _ _ (n :: ns) (cq_ack_timeout_seconds q) (clock c)); [|done|].
        { split; [done|]. split; [by intros [? ?] | done]. }
        intros node r. rewrite A. cbn [fst snd]. destruct (decide (cid = cid /\ node ∈ n :: ns)) as [[_ E]|E].
        -- split; [by intros [= <-] | by intros [_ ->]].
        -- rewrite Fa. split; [done|]. intros [? _]. by destruct E.
    + rewrite lookup_insert_ne in L by done. unfold command_ok.
      rewrite (statuses_unrelated cid' (current c)); [by apply S|].
      intros node. rewrite A, decide_False; [done|]. cbn. by intros [<- _].
  - intros cid' node r L. rewrite A in L. rewrite C. destruct (decide (cid = cid')) as [<-|Nc].
    + rewrite lookup_insert_eq. by eexists.
    + rewrite lookup_insert_ne by done. rewrite decide_False in L by (by intros [<- _]). by eapply K.
  - intros n Hn. rewrite C, lookup_insert_ne; [apply F; lia|]. intros E%uuid_inj. lia.
  - assert (KQ : forall cid' oc, operator_commands (desk (current c)) !! cid' = Some oc ->
               oc_idempotency_key oc <> cq_idempotency_key q) by by apply command_with_key_none.
    assert (KN : forall x, oc_idempotency_key match cq_target_nodes q with
               | [] => with_status "completed" x (pending_command q (clock c)) | _ => pending_command q (clock c) end
               = cq_idempotency_key q) by by destruct (cq_target_nodes q).
    intros cid1 oc1 cid2 oc2. rewrite C, !lookup_insert_Some.
    intros [[<- <-]|[N1 L1]] [[<- <-]|[N2 L2]] E; rewrite ?KN in E; [done | by destruct (KQ _ _ L2 (eq_sym E)) | by destruct (KQ _ _ L1 E) |].
    by eapply Q.
Qed.

(** One acknowledgement changes, and its command is recomputed. *)
Lemma recompute_ok c cid node r r' now c' :
  commands_ok c -> command_node_acks (desk (current c)) !! (cid, node) = Some r ->
  (final (na_status r) = true -> final (na_status r') = true) ->
  let d := set_command_node_acks (<[(cid, node) := r']>) (current c) in
  idle c' -> uuids c <= uuids c' -> current c' = write_status (f (ack_statuses cid d)) now cid d ->
  commands_ok c'.
Proof.
  intros [_ S K F Q] L M d I U Hc. destruct (K _ _ _ L) as [oc Loc]. destruct (S _ _ Loc) as [S1 S2].
  assert (C : operator_commands (desk (current c'))
              = <[cid := with_status (f (ack_statuses cid d))
                    (if str_in (f (ack_statuses cid d)) TERMINAL_STATUSES && negb (bool_decide (is_Some (oc_completed_at oc)))
                     then Some now else oc_completed_at oc) oc]> (operator_commands (desk (current c)))).
  { rewrite Hc. unfold write_status, set_command. cbn. by rewrite Loc. }
  assert (A : command_node_acks (desk (current c')) = <[(cid, node) := r']> (command_node_acks (desk (current c)))) by by rewrite Hc.
  assert (E : f (ack_statuses cid (current c')) = f (ack_statuses cid d)).
  { apply statuses_unrelated. intros m. by rewrite A. }
  assert (T : str_in (f (ack_statuses cid (current c))) TERMINAL_STATUSES = true ->
              str_in (f (ack_statuses cid d)) TERMINAL_STATUSES = true).
  { rewrite !(rollup_final (f := f)), !forallb_forall. intros H s Hs.
    apply list_elem_of_In, ack_statuses_elem in Hs as (m & x & Hx & <-). unfold d in Hx. cbn in Hx.
    destruct (decide ((cid, node) = (cid, m))) as [[= <-]|Nm].
    - rewrite lookup_insert_eq in Hx. injection Hx as <-. apply M, H, list_elem_of_In, ack_statuses_elem. by exists node, r.
    - rewrite lookup_insert_ne in Hx by done. apply H, list_elem_of_In, ack_statuses_elem. by exists m, x. }
  split; [done| | | |].
  - intros cid' oc' L'. rewrite C in L'. destruct (decide (cid = cid')) as [<-|Nc].
    + rewrite lookup_insert_eq in L'. injection L' as <-. unfold command_ok. rewrite E. cbn. split; [done|].
      destruct (str_in (f (ack_statuses cid d)) TERMINAL_STATUSES) eqn:E1; cbn [andb].
      * split; [done|]. intros _. destruct (oc_completed_at oc); cbn; [by eexists | by eexists].
      * rewrite S2, S1. split; [|done]. intros H. by specialize (T H).
    + rewrite lookup_insert_ne in L' by done. unfold command_ok.
      rewrite (statuses_unrelated cid' (current c)); [by apply S|].
      intros m. rewrite A, lookup_insert_ne; [done|]. congruence.
  - intros cid' m x. rewrite A, C, lookup_insert_is_Some. intros Hx.
    destruct (decide (cid = cid')) as [->|Nc]; [by left | right]. split; [done|].
    rewrite lookup_insert_ne in Hx by congruence. by eapply K.
  - intros n Hn. rewrite C, lookup_insert_ne; [apply F; lia|]. intros ->. rewrite F in Loc; [done | lia].
  - intros cid1 oc1 cid2 oc2. rewrite C, !lookup_insert_Some.
    intros [[<- <-]|[N1 L1]] [[<- <-]|[N2 L2]] Ek; cbn in Ek; [done|..]; by eapply Q.
Qed.

End invariant.

(** ** Node acknowledgements *)

Lemma require_node_writer_reads node account h c : snd (_require_node_writer node account h c) = c.
Proof.
  unfold _require_node_writer, select, mlift, mraise, mbind, M_bind. destruct (_node_writer_header_identity h) as [i|e]; [|done].
  repeat (case_match; simplify_eq/=; try done).
Qed.

Lemma update_ack_inv cid node g c n c' :
  update_ack cid node g c = (Ok n, c') ->
  match command_node_acks (desk (current c)) !! (cid, node) with
  | Some r => n = 1 /\ c' = {| committed := committed c; uuids := uuids c; clock := clock c;
                              current := set_command_node_acks (<[(cid, node) := g r]>) (current c) |}
  | None => n = 0 /\ c' = c
  end.
Proof.
  unfold update_ack, select, execute, mbind, M_bind, mret, M_ret. cbn.
  destruct (_ !! (cid, node)); intros [= <- <-]; done.
Qed.

Lemma ack_body_inv node account cid h status detail result c u c' :
  ack_body node account cid h status detail result c = (Ok u, c') ->
  _require_node_writer node account h c = (Ok tt, c)
  /\ exists row, command_node_acks (desk (current c)) !! (cid, node) = Some row
     /\ _command_ack_transition_allowed (na_status row) status = true
     /\ let d := set_command_node_acks (<[(cid, node) :=
                   with_ack status (coalesce detail (na_detail row)) (dupdate (na_result row) result) (clock c) row]>) (current c) in
        c' = {| committed := committed c; uuids := uuids c; clock := clock c;
                current := write_status (rollup (ack_statuses cid d)) (clock c) cid d |}.
Proof.
  intros H. unfold ack_body in H. apply mbind_inv_ok in H as ([] & c1 & H1 & H).
  pose proof (require_node_writer_reads node account h c) as E. rewrite H1 in E. cbn in E. subst c1. split; [done|].
  apply mbind_inv_ok in H as (row & c1 & H2 & H). apply select_inv in H2 as [-> ->].
  destruct (_ !! (cid, node)) as [row|] eqn:L; [|done]. destruct (operator_commands _ !! cid) as [oc|]; [|done].
  destruct (bool_decide _); [|done]. destruct (_command_ack_transition_allowed _ _) eqn:T; [|done]. cbn [negb] in H.
  exists row. split_and!; [done..|]. apply mbind_inv_ok in H as (t & c1 & H3 & H). apply get_now_inv in H3 as [-> ->].
  apply mbind_inv_ok in H as (n & c1 & H3 & H). apply update_ack_inv in H3. rewrite L in H3. destruct H3 as [-> ->].
  unfold _recompute_operator_command_status, select, get_now, execute, mbind, M_bind in H. by injection H as _ <-.
Qed.

Lemma aged_ack_body node account cid h status detail result :
  within aged (ack_body node account cid h status detail result).
Proof.
  unfold ack_body, _recompute_operator_command_status, update_ack. apply within_bind; [apply _| |intros []; within].
  intros c. by rewrite require_node_writer_reads.
Qed.

(** An acknowledgement was written, or nothing was. *)
Lemma ack_node_command_cases node account cid h body c r c' :
  idle c -> ack_node_command node account cid h body c = (r, c') ->
  (r <> Ok tt /\ current c' = current c /\ uuids c <= uuids c' /\ idle c')
  \/ exists status detail result s, str_in status _COMMAND_ACK_STATUSES = true /\ r = Ok tt
       /\ ack_body node account cid h status detail result c = (Ok tt, s) /\ c' = commit s.
Proof.
  intros I. unfold ack_node_command. set (status := lower _).
  destruct (str_in status _) eqn:S; cbn [negb]; [|intros [= <- <-]; left; split_and!; done || lia].
  destruct (ack_result body) as [result|e] eqn:R; [|intros [= <- <-]; left; split_and!; done || lia].
  cbn [mlift mbind M_bind]. unfold mlift, mbind, M_bind. destruct (transaction _ c) as [r1 c1] eqn:T. intros [= <- <-].
  destruct r1 as [[]|e].
  - right. apply transaction_inv_ok in T as (s & T & ->). by exists status, (ack_detail body), result, s.
  - left. pose proof (transaction_idle (ack_body node account cid h status (ack_detail body) result) c) as I'.
    rewrite T in I'. destruct (transaction_undone _ _ _ _ (aged_ack_body _ _ _ _ _ _ _) I T). by split_and!.
Qed.

Lemma node_done_kept s s' : _command_ack_transition_allowed s s' = true -> node_done s = true -> s' = s.
Proof.
  unfold _command_ack_transition_allowed. destruct (String.eqb_spec s s') as [->|N]; [done|].
  intros A D. unfold node_done in D. apply str_in_spec in D. elim_in D; done.
Qed.

(** What the control plane and its nodes do to the commands: issue one,
    acknowledge one, or something that touches neither table. *)
Inductive desk_step (c c' : Conn) : Prop :=
  | step_issue q r : issue_command q c = (r, c') -> desk_step c c'
  | step_node_ack node account cid h body r : ack_node_command node account cid h body c = (r, c') -> desk_step c c'
  | step_elsewhere :
      idle c' -> operator_commands (desk (current c')) = operator_commands (desk (current c)) ->
      command_node_acks (desk (current c')) = command_node_acks (desk (current c)) -> uuids c <= uuids c' ->
      desk_step c c'.

Lemma desk_step_ok c c' : commands_ok rollup c -> desk_step c c' -> commands_ok rollup c'.
Proof.
  intros OK [q r H|node account cid h body r H|I C A U].
  - by eapply (issue_ok rollup node_done).
  - pose proof (co_idle _ _ OK) as I. destruct (ack_node_command_cases _ _ _ _ _ _ _ _ I H)
      as [(_ & E & U & I')|(status & detail & result & s & _ & _ & B & ->)].
    + apply (commands_ok_kept _ node_done c); [done | by rewrite E.. | done | done].
    + apply ack_body_inv in B as (_ & row & L & T & ->).
      eapply (recompute_ok _ node_done _ cid node row); [done | done | | done | done | reflexivity].
      intros D. cbn. by rewrite (node_done_kept _ _ T D).
  - by apply (commands_ok_kept _ node_done c).
Qed.

Lemma desk_steps_ok c c' : commands_ok rollup c -> rtc desk_step c c' -> commands_ok rollup c'.
Proof. intros OK H. revert OK. induction H; eauto using desk_step_ok. Qed.

(** ** All the writers

    [record_ack] and [expire_timeouts] of commands.py write the same rows as
    the nodes' endpoint and compute the status with [aggregate]. *)

Inductive command_step (c c' : Conn) : Prop :=
  | step_desk : desk_step c c' -> command_step c c'
  | step_record cid node status detail r : record_ack cid node status detail c = (r, c') -> command_step c c'
  | step_expire r : expire_timeouts c = (r, c') -> command_step c c'.

(** The status of one command is what one of the two functions makes of its
    acknowledgements, and a terminal one has its time. *)
Definition rolled_up (d : Db) (cid : string) (oc : operator_command_row) : Prop :=
  (oc_status oc = rollup (ack_statuses cid d) \/ oc_status oc = aggregate (ack_statuses cid d))
  /\ (str_in (oc_status oc) TERMINAL_STATUSES = true -> is_Some (oc_completed_at oc)).

Definition all_rolled_up (d : Db) : Prop :=
  forall cid oc, operator_commands (desk d) !! cid = Some oc -> rolled_up d cid oc.

Definition acks_known (d : Db) : Prop :=
  forall cid node r, command_node_acks (desk d) !! (cid, node) = Some r -> is_Some (operator_commands (desk d) !! cid).

Definition ids_fresh (c : Conn) : Prop :=
  forall n, uuids c <= n -> operator_commands (desk (current c)) !! ("uuid-" +:+ int_str n) = None.

Record commands_sound (c : Conn) : Prop := {
  cs_idle : idle c;
  cs_rolled : all_rolled_up (current c);
  cs_known : acks_known (current c);
  cs_fresh : ids_fresh c }.

Lemma commands_ok_sound c : commands_ok rollup c -> commands_sound c.
Proof.
  intros [I S K F _]. split; [done | | done | done]. intros cid oc L. destruct (S _ _ L) as [E T].
  split; [by left | by apply T].
Qed.

(** A command whose acknowledgements are what they were. *)
Lemma rolled_up_same d d' cid oc :
  (forall node, command_node_acks (desk d') !! (cid, node) = command_node_acks (desk d) !! (cid, node)) ->
  rolled_up d cid oc -> rolled_up d' cid oc.
Proof.
  intros A [S T]. split; [|done].
  by rewrite (statuses_unrelated rollup node_done cid d d' A), (statuses_unrelated aggregate ack_done cid d d' A).
Qed.

Lemma commands_sound_kept c c' :
  idle c' -> operator_commands (desk (current c')) = operator_commands (desk (current c)) ->
  command_node_acks (desk (current c')) = command_node_acks (desk (current c)) -> uuids c <= uuids c' ->
  commands_sound c -> commands_sound c'.
Proof.
  intros I C A U [_ S K F]. split; [done | | |].
  - intros cid oc L. rewrite C in L. apply (rolled_up_same (current c)); [by intros node; rewrite A | by apply S].
  - intros cid node r. rewrite A, C. apply K.
  - intros n Hn. rewrite C. apply F. lia.
Qed.

(** Recomputing a command, with either function. *)
Definition recompute_with (f : list string -> string) (now : Z) (cid : string) (d : Db) : Db :=
  write_status (f (ack_statuses cid d)) now cid d.

Lemma recomputed_acks f now cid d : command_node_acks (desk (recompute_with f now cid d)) = command_node_acks (desk d).
Proof. done. Qed.

Lemma recomputed_lookup f now cid d cid' :
  operator_commands (desk (recompute_with f now cid d)) !! cid'
  = (if decide (cid = cid') then (fun oc => with_status (f (ack_statuses cid d))
        (if str_in (f (ack_statuses cid d)) TERMINAL_STATUSES && negb (bool_decide (is_Some (oc_completed_at oc)))
         then Some now else oc_completed_at oc) oc) else id) <$> operator_commands (desk d) !! cid'.
Proof.
  unfold recompute_with, write_status, set_command. cbn. destruct (operator_commands (desk d) !! cid) as [oc|] eqn:L.
  - destruct (decide (cid = cid')) as [<-|N]; [by rewrite lookup_insert_eq, L | by rewrite lookup_insert_ne, option_fmap_id].
  - destruct (decide (cid = cid')) as [<-|N]; [by rewrite L | by rewrite option_fmap_id].
Qed.

Lemma recomputed_known f now cid d cid' :
  is_Some (operator_commands (desk (recompute_with f now cid d)) !! cid') <-> is_Some (operator_commands (desk d) !! cid').
Proof. by rewrite recomputed_lookup, fmap_is_Some. Qed.

Lemma recomputed_rolled f now cid d cid' :
  f = rollup \/ f = aggregate ->
  (cid' <> cid -> forall oc, operator_commands (desk d) !! cid' = Some oc -> rolled_up d cid' oc) ->
  forall oc, operator_commands (desk (recompute_with f now cid d)) !! cid' = Some oc ->
  rolled_up (recompute_with f now cid d) cid' oc.
Proof.
  intros F R oc L. rewrite recomputed_lookup in L.
  assert (A : forall g final, Rollup g final -> g (ack_statuses cid' (recompute_with f now cid d)) = g (ack_statuses cid' d))
    by (intros g final ?; by apply (statuses_unrelated g final)).
  unfold rolled_up. rewrite (A rollup node_done _), (A aggregate ack_done _).
  destruct (decide (cid = cid')) as [<-|N].
  - destruct (operator_commands (desk d) !! cid) as [oc'|]; [|done]. injection L as <-. cbn. split.
    + by destruct F as [-> | ->]; [left | right].
    + intros ->. by destruct (oc_completed_at oc').
  - rewrite option_fmap_id in L. apply R; congruence.
Qed.

(** Recomputing several commands: those not among them must be right before. *)
Definition recompute_all (now : Z) (ids : list string) (d : Db) : Db :=
  fold_left (fun d cid => recompute_with aggregate now cid d) ids d.

Lemma recomputed_all now ids d :
  (forall cid oc, cid ∉ ids -> operator_commands (desk d) !! cid = Some oc -> rolled_up d cid oc) ->
  all_rolled_up (recompute_all now ids d)
  /\ command_node_acks (desk (recompute_all now ids d)) = command_node_acks (desk d)
  /\ forall cid, is_Some (operator_commands (desk (recompute_all now ids d)) !! cid) <-> is_Some (operator_commands (desk d) !! cid).
Proof.
  revert d. induction ids as [|x ids IH]; intros d R; cbn.
  - split_and!; [|done|done]. intros cid oc. apply R, not_elem_of_nil.
  - destruct (IH (recompute_with aggregate now x d)) as (A & B & C).
    { intros cid oc N. apply recomputed_rolled; [by right|]. intros Nx oc'. apply R. by apply not_elem_of_cons. }
    split_and!; [exact A | exact B | intros cid; etransitivity; [apply C | apply recomputed_known]].
Qed.

Lemma recompute_run cid c :
  _recompute cid c = (Ok tt, {| committed := committed c; uuids := uuids c; clock := clock c;
                                current := recompute_with aggregate (clock c) cid (current c) |}).
Proof. done. Qed.

(** One acknowledgement is overwritten, and its command recomputed. *)
Lemma recompute_sound f now c c' cid node r r' :
  f = rollup \/ f = aggregate -> commands_sound c -> command_node_acks (desk (current c)) !! (cid, node) = Some r ->
  idle c' -> uuids c <= uuids c' ->
  current c' = recompute_with f now cid (set_command_node_acks (<[(cid, node) := r']>) (current c)) ->
  commands_sound c'.
Proof.
  intros F [_ S K Fr] L I U E. split; [done | | |]; rewrite ?E.
  - intros cid' oc. apply recomputed_rolled; [done|]. intros N oc' Lc. apply (rolled_up_same (current c)); [|by apply S].
    intros m. cbn. rewrite lookup_insert_ne; congruence.
  - intros cid' m x Lx. apply recomputed_known. rewrite recomputed_acks in Lx. cbn in Lx |- *.
    destruct (decide ((cid, node) = (cid', m))) as [[= <- <-]|N]; [by eapply K | rewrite lookup_insert_ne in Lx by done; by eapply K].
  - intros n Hn. apply eq_None_not_Some. rewrite E, recomputed_known. cbn. rewrite Fr by lia. by intros [? ?].
Qed.

Lemma recompute_each ids c :
  mfor ids _recompute c = (Ok tt, {| committed := committed c; uuids := uuids c; clock := clock c;
                                     current := recompute_all (clock c) ids (current c) |}).
Proof. revert c. induction ids as [|x ids IH]; intros c; [by destruct c|]. cbn. unfold mbind, M_bind. by rewrite recompute_run, IH. Qed.

Lemma get_status_reads cid c : snd (get_status cid c) = c.
Proof. unfold get_status, select, mbind, M_bind, mret, M_ret, mraise. by destruct (_ !! cid). Qed.

Lemma aged_record_body cid node status detail : within aged (record_ack_body cid node status detail).
Proof. unfold record_ack_body, _recompute, update_ack. within. Qed.

Lemma record_sound cid node status detail c r c' :
  commands_sound c -> record_ack cid node status detail c = (r, c') -> commands_sound c'.
Proof.
  intros OK. unfold record_ack. destruct (negb _); [by intros [= _ <-]|]. unfold mbind, M_bind.
  destruct (transaction _ c) as [x c1] eqn:T. intros H.
  assert (S : commands_sound c1); [|destruct x as [u|e]; [|by injection H as _ <-];
    pose proof (get_status_reads cid c1) as E; rewrite H in E; by subst].
  pose proof (transaction_idle (record_ack_body cid node status detail) c) as I. rewrite T in I. destruct x as [u|e].
  - apply transaction_inv_ok in T as (s & B & ->). unfold record_ack_body in B.
    apply mbind_inv_ok in B as (t & c1 & B1 & B). apply get_now_inv in B1 as [-> ->].
    apply mbind_inv_ok in B as (n & c1 & B1 & B). apply update_ack_inv in B1.
    destruct (_ !! (cid, node)) as [row|] eqn:L; destruct B1 as [-> ->]; [|done].
    unfold _recompute, select, get_now, execute, mbind, M_bind in B. injection B as _ <-.
    by eapply (recompute_sound aggregate); [right| exact OK | exact L | exact I | done |].
  - destruct (transaction_undone _ _ _ _ (aged_record_body _ _ _ _) (cs_idle _ OK) T) as [E U].
    by apply (commands_sound_kept c); rewrite ?E.
Qed.

(** A command none of whose acknowledgements expires keeps them. *)
Lemma expired_known now d cid node :
  cid ∉ sorted_strings (map (fun p => fst (fst p)) (filter (fun p : _ * ack_row => ack_expired now (snd p) = true)
    (map_to_list (command_node_acks (desk d))))) ->
  forall r, command_node_acks (desk d) !! (cid, node) = Some r -> ack_expired now r = false.
Proof.
  intros N r L. destruct (ack_expired now r) eqn:E; [|done]. exfalso. apply N, sorted_strings_elem, list_elem_of_fmap.
  exists ((cid, node), r). split; [done|]. apply list_elem_of_filter. split; [done|]. by apply elem_of_map_to_list.
Qed.

Lemma expire_sound c r c' : commands_sound c -> expire_timeouts c = (r, c') -> commands_sound c'.
Proof.
  intros [I S K F]. unfold expire_timeouts, transaction, get_now, select, execute, mbind, M_bind, mret, M_ret. cbn.
  rewrite recompute_each. intros [= _ <-]. cbn. set (now := clock c). set (g := fun r => if ack_expired now r then _ else r).
  set (ids := sorted_strings _). set (d := set_command_node_acks (fmap g) (current c)).
  destruct (recomputed_all now ids d) as (A & B & C).
  { intros cid oc N L. apply (rolled_up_same (current c)); [|by apply S]. intros node. unfold d. cbn. rewrite lookup_fmap.
    destruct (_ !! (cid, node)) as [x|] eqn:Lx; [|done]. cbn. unfold g. by rewrite (expired_known _ _ _ _ N _ Lx). }
  split; [done | exact A | |].
  - intros cid node x. cbn. rewrite B, C. unfold d. cbn. rewrite lookup_fmap. intros (y & Hy & _)%fmap_Some. by eapply K.
  - intros n Hn. cbn in *. apply eq_None_not_Some. rewrite C. cbn. rewrite F by done. by intros [? ?].
Qed.

Lemma issue_sound q c r c' : commands_sound c -> issue_command q c = (r, c') -> commands_sound c'.
Proof.
  intros OK H. assert (I : idle c') by (pose proof (transaction_idle (issue_body q) c) as I; unfold issue_command in H; by rewrite H in I).
  destruct r as [r|e].
  2:{ destruct (transaction_undone _ _ _ _ (aged_issue q) (cs_idle _ OK) H) as [E U].
      by apply (commands_sound_kept c); rewrite ?E. }
  apply issue_inv in H as [(cid & row & _ & _ & ->)|[-> H]]; [by apply (commands_sound_kept c)|].
  cbn [is_command_id] in H. set (cid := "uuid-" +:+ int_str (uuids c)) in *.
  destruct OK as [_ S K F], H as [_ C _ _ A _ U _].
  assert (Fc : operator_commands (desk (current c)) !! cid = None) by (apply F; lia).
  assert (Fa : forall node, command_node_acks (desk (current c)) !! (cid, node) = None).
  { intros node. destruct (_ !! (cid, node)) as [r|] eqn:E; [|done]. apply K in E as [? E]. rewrite Fc in E. done. }
  assert (Other : forall cid', cid <> cid' -> forall node,
    command_node_acks (desk (current c')) !! (cid', node) = command_node_acks (desk (current c)) !! (cid', node)).
  { intros cid' N node. rewrite A, decide_False; [done|]. cbn. by intros [<- _]. }
  split; [done | | |].
  - intros cid' oc L. rewrite C in L. destruct (decide (cid = cid')) as [<-|N].
    + rewrite lookup_insert_eq in L. injection L as <-. unfold rolled_up. destruct (cq_target_nodes q) as [|n ns] eqn:T; cbn.
      * rewrite (no_statuses rollup node_done); [by split; [left | eexists]|].
        intros node. rewrite A, decide_False; [done|]. cbn. by intros [_ ?%elem_of_nil].
      * rewrite (pending_statuses rollup node_done _ _ (n :: ns) (cq_ack_timeout_seconds q) (clock c)); [by split; [left|] | done|].
        intros node r. rewrite A. cbn [fst snd]. destruct (decide (cid = cid /\ node ∈ n :: ns)) as [[_ E]|E].
        -- split; [by intros [= <-] | by intros [_ ->]].
        -- rewrite Fa. split; [done|]. intros [? _]. by destruct E.
    + rewrite lookup_insert_ne in L by done. apply (rolled_up_same (current c)); [by apply Other | by apply S].
  - intros cid' node r L. rewrite C, lookup_insert_is_Some. destruct (decide (cid = cid')) as [<-|N]; [by left | right].
    split; [done|]. rewrite Other in L by done. by eapply K.
  - intros n Hn. rewrite C, lookup_insert_ne; [apply F; lia|]. intros E%uuid_inj. lia.
Qed.

Lemma command_step_sound c c' : commands_sound c -> command_step c c' -> commands_sound c'.
Proof.
  intros OK [[q r H|node account cid h body r H|I C A U]|cid node status detail r H|r H].
  - by eapply issue_sound.
  - destruct (ack_node_command_cases _ _ _ _ _ _ _ _ (cs_idle _ OK) H)
      as [(_ & E & U & I)|(status & detail & result & s & _ & _ & B & ->)].
    + by apply (commands_sound_kept c); rewrite ?E.
    + apply ack_body_inv in B as (_ & row & L & T & ->).
      by eapply (recompute_sound rollup); [left | exact OK | exact L | done | done |].
  - by apply (commands_sound_kept c).
  - by eapply record_sound.
  - by eapply expire_sound.
Qed.

Lemma command_steps_sound c c' : commands_sound c -> rtc command_step c c' -> commands_sound c'.
Proof. intros OK H. revert OK. induction H; eauto using command_step_sound. Qed.

(** C12. A command says what its acknowledgements amount to.  After any history
    of issued commands, node acknowledgements, [record_ack] and
    [expire_timeouts], each run as one transaction, the status of every command
    is the [rollup] or the [aggregate] of its present acknowledgements, and a
    terminal one has a completion time.  While commands are only issued and
    acknowledged by their nodes, as the control plane does, the status is the
    [rollup]: [completed] exactly when each node reported [completed], with a
    completion time exactly when each reported [completed] or [failed]. *)
Theorem command_rollup c c' cid oc :
  commands_ok rollup c -> rtc command_step c c' ->
  operator_commands (desk (current c')) !! cid = Some oc ->
  let nodes P := forall node r, command_node_acks (desk (current c')) !! (cid, node) = Some r -> P (na_status r) in
  (oc_status oc = rollup (ack_statuses cid (current c')) \/ oc_status oc = aggregate (ack_statuses cid (current c')))
  /\ (str_in (oc_status oc) TERMINAL_STATUSES = true -> is_Some (oc_completed_at oc) /\ nodes (fun s => s <> "pending"))
  /\ (rtc desk_step c c' ->
        oc_status oc = rollup (ack_statuses cid (current c'))
        /\ (oc_status oc = "completed" <-> nodes (fun s => s = "completed"))
        /\ (is_Some (oc_completed_at oc) <-> nodes (fun s => s = "completed" \/ s = "failed"))).
Proof.
  intros OK H L nodes.
  assert (N : forall P, nodes P <-> Forall P (ack_statuses cid (current c'))).
  { intros P. rewrite Forall_forall. split.
    - intros A s (node & r & E & <-)%ack_statuses_elem. by eapply A.
    - intros A node r E. apply A, ack_statuses_elem. by exists node, r. }
  apply command_steps_sound in H; [|by apply commands_ok_sound]. destruct (cs_rolled _ H _ _ L) as [S T]. split_and!; [done | |].
  - intros Tm. split; [by apply T|]. apply N, Forall_forall. intros s Hs ->. apply list_elem_of_In in Hs.
    destruct S as [S|S]; rewrite S in Tm; [rewrite rollup_terminal in Tm | rewrite aggregate_terminal in Tm];
      by apply (proj1 (forallb_forall _ _) Tm) in Hs.
  - intros D. apply desk_steps_ok in D; [|done]. destruct (co_status _ _ D _ _ L) as [S' T'].
    split; [done|]. rewrite !N, T', S'. split; [apply rollup_completed | apply rollup_terminal_all].
Qed.

(** A command and its acknowledgements are never lost, and what is final stays. *)
Definition survives (cid : string) (oc : operator_command_row) (c c' : Conn) : Prop :=
  exists oc', operator_commands (desk (current c')) !! cid = Some oc'
  /\ oc_idempotency_key oc' = oc_idempotency_key oc /\ oc_command_type oc' = oc_command_type oc
  /\ oc_scope oc' = oc_scope oc
  /\ (str_in (oc_status oc) TERMINAL_STATUSES = true ->
      oc_status oc' = oc_status oc /\ oc_completed_at oc' = oc_completed_at oc)
  /\ forall node r, command_node_acks (desk (current c)) !! (cid, node) = Some r ->
       exists r', command_node_acks (desk (current c')) !! (cid, node) = Some r'
         /\ (node_done (na_status r) = true -> na_status r' = na_status r).

Lemma survives_same cid oc c c' :
  operator_commands (desk (current c)) !! cid = Some oc ->
  operator_commands (desk (current c')) !! cid = Some oc ->
  (forall node r, command_node_acks (desk (current c)) !! (cid, node) = Some r ->
     command_node_acks (desk (current c')) !! (cid, node) = Some r) ->
  survives cid oc c c'.
Proof. intros L L' A. exists oc. split_and!; try done. intros node r H. apply A in H. by exists r. Qed.

Lemma survives_trans cid oc oc1 c c1 c2 :
  operator_commands (desk (current c1)) !! cid = Some oc1 ->
  survives cid oc c c1 -> survives cid oc1 c1 c2 -> survives cid oc c c2.
Proof.
  intros L1 (o1 & L & K1 & T1 & S1 & F1 & A1) (o2 & L2 & K2 & T2 & S2 & F2 & A2). simplify_eq.
  exists o2. split_and!; [done | congruence..| |].
  - intros H. destruct (F1 H) as [E1 E1']. rewrite <- E1 in H. destruct (F2 H) as [E2 E2']. by rewrite E2, E2'.
  - intros node r H. destruct (A1 _ _ H) as (r1 & H1 & D1). destruct (A2 _ _ H1) as (r2 & H2 & D2).
    exists r2. split; [done|]. intros D. rewrite <- (D1 D). apply D2. by rewrite D1.
Qed.

Lemma issue_survives q c r c' cid oc :
  commands_ok rollup c -> issue_command q c = (r, c') -> operator_commands (desk (current c)) !! cid = Some oc ->
  survives cid oc c c'.
Proof.
  intros OK H L. destruct r as [r|e].
  2:{ destruct (transaction_undone _ _ _ _ (aged_issue q) (co_idle _ _ OK) H) as [E U].
      by apply survives_same; rewrite ?E. }
  apply issue_inv in H as [(cid' & row & _ & _ & ->)|[-> H]]; [by apply survives_same|].
  cbn [is_command_id] in H. destruct H as [_ C _ Fr A _ U _].
  assert (N : cid <> "uuid-" +:+ int_str (uuids c)).
  { intros ->. rewrite (co_fresh _ _ OK) in L; [done | lia]. }
  apply survives_same; [done | by rewrite C, lookup_insert_ne | intros node r E].
  rewrite A, decide_False; [done|]. by intros [? _].
Qed.

Lemma ack_survives node account cid' h status detail result c s cid oc :
  commands_ok rollup c -> ack_body node account cid' h status detail result c = (Ok tt, s) ->
  operator_commands (desk (current c)) !! cid = Some oc -> survives cid oc c (commit s).
Proof.
  intros OK H L. destruct (co_status _ _ OK _ _ L) as [S1 S2].
  apply ack_body_inv in H as (_ & row & Lr & T & ->). cbn [commit current].
  set (r' := with_ack status _ _ _ row). set (d := set_command_node_acks _ (current c)).
  assert (AK : forall node0 r, command_node_acks (desk (current c)) !! (cid, node0) = Some r ->
            exists x, command_node_acks (desk d) !! (cid, node0) = Some x /\ (node_done (na_status r) = true -> na_status x = na_status r)).
  { intros n r Hr. unfold d. cbn. destruct (decide ((cid', node) = (cid, n))) as [[= -> ->]|Nn].
    - rewrite lookup_insert_eq. simplify_eq. exists r'. split; [done|]. cbn. apply node_done_kept, T.
    - rewrite lookup_insert_ne by done. by exists r. }
  destruct (decide (cid' = cid)) as [->|Nc].
  - eexists. unfold write_status, set_command. cbn. rewrite L, lookup_insert_eq. split; [done|]. cbn.
    split_and!; [done..| |exact AK]. intros Tm. rewrite S1, rollup_terminal in Tm.
    assert (E : rollup (ack_statuses cid d) = rollup (ack_statuses cid (current c))).
    { apply rollup_elem. rewrite forallb_forall in Tm. intros s. rewrite !ack_statuses_elem.
      assert (D : forall n r, command_node_acks (desk (current c)) !! (cid, n) = Some r -> node_done (na_status r) = true).
      { intros n r Hr. apply Tm, list_elem_of_In, ack_statuses_elem. by exists n, r. }
      split; intros (n & r & Hr & <-).
      - unfold d in Hr. cbn in Hr. destruct (decide ((cid, node) = (cid, n))) as [[= <-]|Nn].
        + rewrite lookup_insert_eq in Hr. injection Hr as <-. exists node, row. split; [done|]. cbn.
          symmetry. apply node_done_kept; [exact T | by eapply D].
        + rewrite lookup_insert_ne in Hr by done. by exists n, r.
      - destruct (AK _ _ Hr) as (x & Hx & E). exists n, x. split; [done | by eapply E, D]. }
    fold d. rewrite E, <- S1. split; [done|]. rewrite S1, rollup_terminal. rewrite Tm. cbn [andb].
    destruct (oc_completed_at oc) eqn:O; [done|]. destruct S2 as [_ [? ?]]; [by rewrite S1, rollup_terminal | done].
  - exists oc. unfold write_status, set_command. cbn. split_and!; [|done..|exact AK].
    by destruct (_ !! cid'); [rewrite lookup_insert_ne|].
Qed.

Lemma desk_step_survives c c' cid oc :
  commands_ok rollup c -> desk_step c c' -> operator_commands (desk (current c)) !! cid = Some oc ->
  survives cid oc c c'.
Proof.
  intros OK [q r H|node account cid' h body r H|I C A U] L.
  - by eapply issue_survives.
  - destruct (ack_node_command_cases _ _ _ _ _ _ _ _ (co_idle _ _ OK) H)
      as [(_ & E & _ & _)|(status & detail & result & s & _ & _ & B & ->)].
    + by apply survives_same; rewrite ?E.
    + by eapply ack_survives.
  - by apply survives_same; rewrite ?C, ?A.
Qed.

Lemma desk_steps_survive c c' cid oc :
  commands_ok rollup c -> rtc desk_step c c' -> operator_commands (desk (current c)) !! cid = Some oc ->
  survives cid oc c c'.
Proof.
  intros OK H. revert oc OK. induction H as [|c c1 c2 S _ IH]; intros oc OK L; [by apply survives_same|].
  pose proof (desk_step_survives _ _ _ _ OK S L) as S1. destruct S1 as (oc1 & L1 & R1).
  apply (survives_trans cid oc oc1 c c1 c2 L1); [by exists oc1|]. apply IH; [by eapply desk_step_ok | done].
Qed.

(** A command is issued once and settles once.  After an issue has
    succeeded, whatever else is issued, acknowledged or written, submitting a
    command with the same idempotency key returns the first command with its
    present status and writes nothing; and once that status is terminal it
    never changes again, nor does the completion time. *)
Theorem command_issued_once q r c c1 c2 :
  commands_ok rollup c -> issue_command q c = (Ok r, c1) -> rtc desk_step c1 c2 ->
  let cid := is_command_id r in
  exists oc, operator_commands (desk (current c2)) !! cid = Some oc
  /\ (forall q', cq_idempotency_key q' = cq_idempotency_key q ->
        issue_command q' c2 = (Ok {| is_command_id := cid; is_status := oc_status oc; is_idempotent := true |}, commit c2))
  /\ (str_in (oc_status oc) TERMINAL_STATUSES = true ->
      forall c3, rtc desk_step c2 c3 -> exists oc', operator_commands (desk (current c3)) !! cid = Some oc'
        /\ oc_status oc' = oc_status oc /\ oc_completed_at oc' = oc_completed_at oc).
Proof.
  intros OK H R cid. assert (OK1 : commands_ok rollup c1) by by eapply (issue_ok rollup node_done).
  assert (I : exists oc1, operator_commands (desk (current c1)) !! cid = Some oc1
                /\ oc_idempotency_key oc1 = cq_idempotency_key q).
  { apply issue_inv in H as [(x & row & K & E & ->)|[E H]]; subst cid r.
    - apply command_with_key_some in K. by exists row.
    - destruct H as [_ C _ _ _ _ _ _]. rewrite C, lookup_insert_eq. eexists. split; [done|]. by destruct (cq_target_nodes q). }
  destruct I as (oc1 & L1 & K1). destruct (desk_steps_survive _ _ _ _ OK1 R L1) as (oc & L & K & _ & _ & _ & _).
  assert (OK2 : commands_ok rollup c2) by by eapply desk_steps_ok.
  exists oc. split_and!; [done| |].
  - intros q' Eq. unfold issue_command, transaction, issue_body, select, mbind, M_bind.
    destruct (command_with_key (cq_idempotency_key q') (current c2)) as [[x row]|] eqn:W.
    + apply command_with_key_some in W as [Lx Kx].
      assert (x = cid) as -> by (eapply (co_keys _ _ OK2); [done..|congruence]). by simplify_eq.
    + exfalso. by eapply (command_with_key_none _ _ W); [exact L | congruence].
  - intros T c3 R3. destruct (desk_steps_survive _ _ _ _ OK2 R3 L) as (oc3 & L3 & _ & _ & _ & F & _).
    destruct (F T) as [E1 E2]. by exists oc3.
Qed.

(** C13. Only the current writer of a node touches its commands.  With a
    fencing epoch active, a node whose headers do not carry that epoch and the
    generation and lease token of the node's latest heartbeat cannot
    acknowledge a command, whatever the body, and cannot read its commands;
    both raise, and the database stays as it is. *)
Theorem superseded_writer_refused node account h c epoch row :
  idle c -> active_fencing_epoch (desk (current c)) = Some epoch ->
  node_writers (desk (current c)) !! (node, account) = Some row ->
  (forall token, wr_lease_fencing_token row = Some token ->
     strip (default "" (wr_redis_fencing_epoch row)) = epoch ->
     _node_writer_header_identity h <> Ok (Some (epoch, strip (default "" (wr_runtime_generation row)), token))) ->
  (forall cid body, exists e c', ack_node_command node account cid h body c = (Raise e, c') /\ current c' = current c)
  /\ exists e, node_commands node account h c = (Raise e, c).
Proof.
  intros I A W N. assert (F : exists e, _require_node_writer node account h c = (Raise e, c)).
  { unfold _require_node_writer, select, mlift, mraise, mbind, M_bind.
    destruct (_node_writer_header_identity h) as [[[[e' g] t]|]|x]; rewrite ?A; cbv beta iota; [|by eexists..].
    destruct (String.eqb_spec e' epoch) as [->|]; cbn [negb]; [|by eexists]. rewrite W. cbv beta iota.
    destruct (String.eqb_spec (strip (default "" (wr_redis_fencing_epoch row))) epoch) as [E|]; cbn [negb]; [|by eexists].
    destruct (String.eqb_spec (strip (default "" (wr_runtime_generation row))) g) as [G|]; cbn [negb]; [|by eexists].
    destruct (bool_decide_reflect (wr_lease_fencing_token row = Some t)) as [T|]; cbn [negb]; [|by eexists].
    exfalso. apply (N t T E). by rewrite G. }
  destruct F as [e F]. split.
  - intros cid body. destruct (ack_node_command node account cid h body c) as [r c'] eqn:H.
    destruct (ack_node_command_cases _ _ _ _ _ _ _ _ I H) as [(R & E & _)|(st & de & re & s & _ & _ & B & _)].
    + destruct r as [[]|x]; [done|]. by exists x, c'.
    + apply ack_body_inv in B as [B _]. by rewrite F in B.
  - exists e. unfold node_commands, mbind, M_bind. by rewrite F.
Qed.

(** ** Closing everything *)

(** C14. Closing everything cancels the decisions made before it.  When a
    CLOSE_ALL that names an account has been issued, no snapshot of that
    account taken before can be bound to any of its books any more, whatever
    other closes follow: every attempt raises [StalePositionRevision]. *)
Theorem close_all_stales_snapshots q r c c1 a i s I S os :
  idle c -> revisions_ok (current c) ->
  (forall b, position_revision_invalidations (desk (current c)) !! (b, "uuid-" +:+ int_str (uuids c)) = None) ->
  _book i s = Ok (I, S) ->
  cq_command_type q = "CLOSE_ALL" -> a ∈ cq_invalidate_accounts q ->
  issue_command q c = (Ok r, c1) -> is_idempotent r = false ->
  exists v, capture_versions a c = (Ok v, c) /\
  let c2 := run_closes os c1 in
  bind_precondition a i s (PDict v) c2
  = (Raise (StalePositionRevision "position revision changed since snapshot"), c2).
Proof.
  intros Ic OK Fr B T A H N. destruct (capture_spec a c OK) as (v & Hv & R). exists v. split; [done|]. cbv zeta.
  rewrite (bind_spec a i s I S v _ _ B R) by (intros [[? ?] ?] x L; destruct (OK _ _ _ _ L); lia).
  apply issue_inv in H as [(x & row & _ & -> & _)|[-> H]]; [done|]. cbn [is_command_id] in H.
  destruct (is_revisions _ _ _ _ H) as [G K]; [intros b _; apply Fr|].
  destruct (revision_history (a, "*", "*") os c1 (is_idle _ _ _ _ H) (K OK)) as [M _].
  specialize (G (a, "*", "*")). rewrite decide_True in G.
  2:{ cbn. split; [|done]. unfold invalidated_accounts. rewrite T. by apply sorted_strings_elem. }
  fold (revision_at (current c) (a, "*", "*")).
  destruct (Z.eqb_spec (revision_at (current c) (a, "*", "*")) (revision_at (current (run_closes os c1)) (a, "*", "*"))); [lia | done].
Qed.

(** ** Two acknowledgements at once

    [record_ack] updates its node's row, reads the rows of the command and
    writes the status, and takes no lock on the other nodes' rows.  When two
    of them overlap under READ COMMITTED, each sees its own update and not the
    other's, and the second to commit overwrites the status of the first with
    what it read. *)

Definition acked_row (command_id node_id : string) (now : Z) : Db -> Db :=
  set_command_node_acks (alter (fun r => with_ack "acked" None (na_result r) now r) (command_id, node_id)).

Definition racing_acks (command_id node1 node2 : string) (now : Z) (d : Db) : Db :=
  let seen1 := acked_row command_id node1 now d in
  let seen2 := acked_row command_id node2 now d in
  let after1 := write_status (aggregate (ack_statuses command_id seen1)) now command_id seen1 in
  write_status (aggregate (ack_statuses command_id seen2)) now command_id (acked_row command_id node2 now after1).

(** ** Examples *)

Definition halt_all : CommandRequest := {|
  cq_command_type := "HALT"; cq_requested_by := "op-1"; cq_reason := "kill switch"; cq_idempotency_key := "k1";
  cq_target_nodes := ["node-a"; "node-b"];
  cq_scope := [("account_id", PStr "main"); ("instruments", PList [PStr "BTCUSDT"])];
  cq_ack_timeout_seconds := 30; cq_invalidate_accounts := [] |}.

Definition close_main : CommandRequest := {|
  cq_command_type := "CLOSE_ALL"; cq_requested_by := "risk_admin"; cq_reason := "close"; cq_idempotency_key := "k2";
  cq_target_nodes := ["node-a"]; cq_scope := [("account_id", PStr "main")];
  cq_ack_timeout_seconds := 30; cq_invalidate_accounts := ["main"] |}.

Definition halted : Conn := snd (issue_command halt_all desk_now).

Definition no_headers : WriterHeaders :=
  {| wh_redis_fencing_epoch := None; wh_runtime_generation := None; wh_lease_fencing_token := None |}.

Definition done_by (node : string) (c : Conn) : Conn :=
  snd (ack_node_command node "main" "uuid-0" no_headers [("status", PStr " Completed ")] c).

Definition halt_done : Conn := done_by "node-b" (done_by "node-a" halted).

Lemma no_commands_ok : commands_ok rollup desk_now.
Proof. split; [done|..]; cbn; intros *; rewrite ?lookup_empty; done. Qed.

Lemma halt_done_steps : rtc desk_step desk_now halted /\ rtc desk_step halted halt_done.
Proof.
  split.
  - eapply rtc_once, step_issue. apply surjective_pairing.
  - eapply rtc_l; [eapply step_node_ack, surjective_pairing|]. eapply rtc_once, step_node_ack, surjective_pairing.
Qed.

(** The kill switch is on as soon as the command is issued, and the command is
    complete only when both nodes have said so. *)
Example halt_completes :
  mode_in (current halted) "main" "BTCUSDT" = "HALTED"
  /\ map (fun c => oc_status <$> operator_commands (desk (current c)) !! "uuid-0") [halted; done_by "node-a" halted; halt_done]
     = [Some "pending"; Some "accepted"; Some "completed"].
Proof. vm_compute. by split. Qed.

Definition both_acked : Conn :=
  snd (record_ack "uuid-0" "node-b" "acked" None (snd (record_ack "uuid-0" "node-a" "acked" None halted))).

Lemma both_acked_steps : rtc command_step desk_now both_acked.
Proof.
  eapply rtc_l; [apply step_desk; eapply (step_issue _ _ halt_all); apply surjective_pairing|].
  eapply rtc_l; [eapply (step_record _ _ "uuid-0" "node-a" "acked" None); apply surjective_pairing|].
  apply rtc_once. eapply (step_record _ _ "uuid-0" "node-b" "acked" None). apply surjective_pairing.
Qed.

Example command_rollup_witness :
  exists oc, operator_commands (desk (current both_acked)) !! "uuid-0" = Some oc
  /\ oc_status oc = "completed"
  /\ (oc_status oc = rollup (ack_statuses "uuid-0" (current both_acked))
      \/ oc_status oc = aggregate (ack_statuses "uuid-0" (current both_acked))).
Proof.
  destruct (operator_commands (desk (current both_acked)) !! "uuid-0") as [oc|] eqn:E; [|vm_compute in E; discriminate E].
  exists oc. split; [reflexivity|]. split; [vm_compute in E; by injection E as <-|].
  exact (proj1 (command_rollup desk_now both_acked "uuid-0" oc no_commands_ok both_acked_steps E)).
Defined.

Example command_issued_once_witness :
  exists oc, operator_commands (desk (current halt_done)) !! "uuid-0" = Some oc
  /\ issue_command halt_all halt_done
     = (Ok {| is_command_id := "uuid-0"; is_status := oc_status oc; is_idempotent := true |}, commit halt_done).
Proof.
  destruct (issue_command halt_all desk_now) as [[r|e] c1] eqn:E; [|vm_compute in E; discriminate E].
  assert (R : is_command_id r = "uuid-0") by (vm_compute in E; by injection E as <- _).
  assert (C : c1 = halted) by (unfold halted; by rewrite E). subst c1.
  destruct (command_issued_once halt_all r desk_now halted halt_done no_commands_ok E (proj2 halt_done_steps))
    as (oc & L & H & _).
  exists oc. rewrite R in L, H. split; [exact L|]. by apply H.
Defined.

Definition old_writer : WriterHeaders := {|
  wh_redis_fencing_epoch := Some "123e4567-e89b-42d3-a456-426614174000";
  wh_runtime_generation := Some "gen-1"; wh_lease_fencing_token := Some "7" |}.

(** The node restarted since: generation two holds lease token eight. *)
Definition fenced : Conn := connect
  (set_desk (fun k => {|
    operator_commands := operator_commands k; command_node_acks := command_node_acks k;
    position_revisions := position_revisions k; position_revision_invalidations := position_revision_invalidations k;
    signal_dispatch_tasks := signal_dispatch_tasks k; message_processing_runs := message_processing_runs k;
    active_fencing_epoch := Some "123e4567-e89b-42d3-a456-426614174000";
    node_writers := {[("node-a", "main") := {|
      wr_redis_fencing_epoch := Some "123e4567-e89b-42d3-a456-426614174000";
      wr_runtime_generation := Some "gen-2"; wr_lease_fencing_token := Some 8 |}]};
    raw_payloads := raw_payloads k; order_management_settings := order_management_settings k;
    order_management_setting_versions := order_management_setting_versions k |}) (current halted)) (seconds 1001).

Definition new_writer : WriterHeaders := {|
  wh_redis_fencing_epoch := Some "123e4567-e89b-42d3-a456-426614174000";
  wh_runtime_generation := Some "gen-2"; wh_lease_fencing_token := Some "8" |}.

Example superseded_writer_refused_witness :
  (exists e c', ack_node_command "node-a" "main" "uuid-0" old_writer [("status", PStr "completed")] fenced = (Raise e, c')
                /\ current c' = current fenced)
  /\ fst (ack_node_command "node-a" "main" "uuid-0" new_writer [("status", PStr "completed")] fenced) = Ok tt.
Proof.
  split; [|vm_compute; reflexivity].
  destruct (superseded_writer_refused "node-a" "main" old_writer fenced "123e4567-e89b-42d3-a456-426614174000"
    {| wr_redis_fencing_epoch := Some "123e4567-e89b-42d3-a456-426614174000";
       wr_runtime_generation := Some "gen-2"; wr_lease_fencing_token := Some 8 |}) as [H _];
    [reflexivity | vm_compute; reflexivity | vm_compute; reflexivity | | apply H].
  intros token E _. injection E as <-. vm_compute. intros F. discriminate F.
Defined.

Example close_all_stales_snapshots_witness :
  exists v, capture_versions "main" halted = (Ok v, halted) /\
  let c2 := run_closes [] (snd (issue_command close_main halted)) in
  bind_precondition "main" (PStr "BTCUSDT") (PStr "LONG") (PDict v) c2
  = (Raise (StalePositionRevision "position revision changed since snapshot"), c2).
Proof.
  destruct (issue_command close_main halted) as [[r|e] c1] eqn:E; [|vm_compute in E; discriminate E].
  apply (close_all_stales_snapshots close_main r halted c1 "main" _ _ "BTCUSDT" "LONG" []);
    [reflexivity | | | reflexivity | reflexivity | by left | exact E | vm_compute in E; by injection E as <- _].
  - intros a i s x H. vm_compute in H. destruct a as [|? ?]; discriminate H.
  - intros b. vm_compute. by destruct b.
Defined.

(** Both nodes acknowledged, the command says otherwise, and nothing will
    recompute it: an acknowledgement that is not pending does not expire. *)
Lemma racing_acks_stuck :
  let d := racing_acks "uuid-0" "node-a" "node-b" (seconds 1001) (current halted) in
  ack_statuses "uuid-0" d = ["acked"; "acked"]
  /\ oc_status <$> operator_commands (desk d) !! "uuid-0" = Some "acknowledged"
  /\ forall now, fst (expire_timeouts (connect d now)) = Ok [].
Proof.
  intros d. split; [vm_compute; reflexivity|]. split; [vm_compute; reflexivity|]. intros now.
  vm_compute. reflexivity.
Qed.

(** The two rollups of the same rows: a node that timed out beside one that is
    still running. *)
Lemma rollups_disagree :
  aggregate ["running"; "failed"] = "partial" /\ rollup ["running"; "failed"] = "running".
Proof. done. Qed.
