(* ===== verification/Claims.v ===== *)
(** * Claims: who is processing a message

    hermes-worker/queue/claims.py: runs of the table message_processing_runs
    (Store.v).  A worker claims the oldest message waiting in the outbox under
    a lease, marks its run as processing, and ends it as succeeded or failed
    while the lease lasts; a run whose lease passed is timed out by the next
    claim.  The schema check ([_assert_schema_compatible]) compares the live
    database with the migrations, which the model takes as given; the row
    locks are represented by running transactions one after another. *)

From Stdlib Require Import ZArith Lia.
From S2P Require Import Prelude Decimal PyString DecText PyValue Store.
Open Scope string_scope.
Open Scope Z_scope.

Definition ACTIVE_STATUSES : list string := ["started"; "processing"].

Definition PROCESSING_PURPOSE_LEGACY : string := "legacy".
Definition PROCESSING_PURPOSE_SHADOW : string := "shadow".
Definition PROCESSING_PURPOSE_SIGNAL : string := "signal".

Record ProcessingRun := {
  pu_processing_run_id : string;
  pu_raw_message_id : string;
  pu_worker_id : option string;
  pu_status : string;
  pu_lease_expires_at : option Z;
  pu_started_at : Z;
  pu_finished_at : option Z;
  pu_error : option string;
  pu_attempt : Z;
  pu_claim_token : option string;
  pu_account_id : option string;
  pu_processing_purpose : string }.

Definition QueueStateError (msg : string) : exn := RuntimeError "QueueStateError" msg.
Definition StaleClaimError (msg : string) : exn := RuntimeError "StaleClaimError" msg.

Definition _run_from_row (p : string * processing_run_row) : ProcessingRun := {|
  pu_processing_run_id := fst p; pu_raw_message_id := mr_raw_message_id (snd p); pu_worker_id := mr_worker_id (snd p);
  pu_status := mr_status (snd p); pu_lease_expires_at := mr_lease_expires_at (snd p);
  pu_started_at := mr_started_at (snd p); pu_finished_at := mr_finished_at (snd p); pu_error := mr_error (snd p);
  pu_attempt := mr_attempt (snd p); pu_claim_token := mr_claim_token (snd p); pu_account_id := mr_account_id (snd p);
  pu_processing_purpose := mr_processing_purpose (snd p) |}.

(** [str(error)[:2000]] *)
Definition _format_error (error : string) : string := String.substring 0 2000 error.

(** ** The table *)

Definition active (r : processing_run_row) : bool := str_in (mr_status r) ACTIVE_STATUSES.

(** [lease_expires_at > t]; a missing lease is not. *)
Definition lease_after (t : Z) (lease : option Z) : bool := match lease with Some e => t <? e | None => false end.

(** [lease_expires_at <= t]; a missing lease is not. *)
Definition lease_passed (t : Z) (lease : option Z) : bool := match lease with Some e => e <=? t | None => false end.

(** [UPDATE message_processing_runs SET ... WHERE p RETURNING ...] *)
Definition update_runs (p : string -> processing_run_row -> bool) (f : processing_run_row -> processing_run_row)
  : M Conn (list (string * processing_run_row)) :=
  rows ← select (fun d => map (fun kr => (fst kr, f (snd kr)))
            (filter (fun kr => p (fst kr) (snd kr) = true) (map_to_list (message_processing_runs (desk d)))));
  _ ← execute (set_message_processing_runs (map_imap (fun k r => Some (if p k r then f r else r))));
  mret rows.

Definition end_run (status : string) (finished_at : option Z) (error : option string) (r : processing_run_row)
  : processing_run_row := {|
  mr_raw_message_id := mr_raw_message_id r; mr_worker_id := mr_worker_id r; mr_status := status;
  mr_lease_expires_at := mr_lease_expires_at r; mr_started_at := mr_started_at r; mr_finished_at := finished_at;
  mr_error := error; mr_attempt := mr_attempt r; mr_claim_token := mr_claim_token r;
  mr_account_id := mr_account_id r; mr_processing_purpose := mr_processing_purpose r |}.

Definition with_lease (lease : option Z) (r : processing_run_row) : processing_run_row := {|
  mr_raw_message_id := mr_raw_message_id r; mr_worker_id := mr_worker_id r; mr_status := mr_status r;
  mr_lease_expires_at := lease; mr_started_at := mr_started_at r; mr_finished_at := mr_finished_at r;
  mr_error := mr_error r; mr_attempt := mr_attempt r; mr_claim_token := mr_claim_token r;
  mr_account_id := mr_account_id r; mr_processing_purpose := mr_processing_purpose r |}.

(** The unique indexes of active runs (db/migrations/0021): one per message and
    purpose, and for signals one per message and account. *)
Definition index_conflict (new r : processing_run_row) : bool :=
  active new && active r && String.eqb (mr_raw_message_id new) (mr_raw_message_id r)
  && String.eqb (mr_processing_purpose new) (mr_processing_purpose r)
  && (negb (String.eqb (mr_processing_purpose new) "signal") || bool_decide (mr_account_id new = mr_account_id r)).

(** [ck_signal_run_account] *)
Definition signal_account (r : processing_run_row) : bool :=
  negb (String.eqb (mr_processing_purpose r) "signal")
  || match mr_account_id r with Some a => negb (is_empty a) | None => false end.

Definition insert_run (processing_run_id : string) (row : processing_run_row) : M Conn unit :=
  rows ← select (fun d => map_to_list (message_processing_runs (desk d)));
  known ← select (fun d => bool_decide (is_Some (raw_messages d !! mr_raw_message_id row)));
  _ ← check (signal_account row) "ck_signal_run_account";
  _ ← check known "message_processing_runs_raw_message_id_fkey";
  if existsb (fun kr => index_conflict row (snd kr)) rows then
    mraise (RuntimeError "UniqueViolation" "uq_message_processing_runs_active")
  else execute (set_message_processing_runs (<[processing_run_id := row]>)).

(** [SELECT COALESCE(MAX(attempt), 0)] *)
Definition max_attempt (p : processing_run_row -> bool) (d : Db) : Z :=
  foldr Z.max 0 (map (fun kr => mr_attempt (snd kr))
    (filter (fun kr => p (snd kr) = true) (map_to_list (message_processing_runs (desk d))))).

Definition _insert_run_audit (run : ProcessingRun) (event_type : string) (payload : dict) : M Conn unit :=
  _ ← uuid4;
  now ← get_now;
  execute (set_audit_events (fun t => (t ++ [{|
    au_event_type := event_type; au_aggregate_type := "raw_message"; au_aggregate_id := pu_raw_message_id run;
    au_actor := pu_worker_id run; au_trace_id := None; au_raw_message_id := Some (pu_raw_message_id run);
    au_intent_id := None;
    au_payload := dupdate [("processing_run_id", PStr (pu_processing_run_id run)); ("status", PStr (pu_status run))] payload;
    au_created_at := now |}])%list)).

(** ** Claiming *)

Definition _expire_timed_out_runs : M Conn unit :=
  now ← get_now;
  rows ← update_runs (fun _ r => active r && lease_passed now (mr_lease_expires_at r))
           (fun r => end_run "hermes_timeout" (Some now) (coalesce (mr_error r) (Some "lease expired before completion")) r);
  mfor rows (fun row => _insert_run_audit (_run_from_row row) "message_processing.hermes_timeout" []).

Definition active_for (raw_message_id purpose : string) (d : Db) : list (string * processing_run_row) :=
  filter (fun kr => String.eqb (mr_raw_message_id (snd kr)) raw_message_id && active (snd kr)
                    && String.eqb (mr_processing_purpose (snd kr)) purpose = true)
    (map_to_list (message_processing_runs (desk d))).

Definition waiting (d : Db) (ob : outbox_row) : bool :=
  String.eqb (ob_status ob) "pending" && String.eqb (ob_aggregate_type ob) "raw_message"
  && match active_for (ob_aggregate_id ob) "legacy" d with [] => true | _ => false end.

Definition oldest_outbox (a b : outbox_row) : bool :=
  (ob_created_at a <? ob_created_at b) || (ob_created_at a =? ob_created_at b) && String.leb (ob_id a) (ob_id b).

(** The outbox row, and the message it names when there is one. *)
Definition _select_claim_candidate : M Conn (option (outbox_row * option string)) :=
  select (fun d =>
    (fun ob => (ob, (fun _ => ob_aggregate_id ob) <$> raw_messages d !! ob_aggregate_id ob))
      <$> hd_error (sort_by oldest_outbox (filter (fun ob => waiting d ob = true) (outbox_events d)))).

Definition _assert_no_active_run (raw_message_id purpose : string) : M Conn unit :=
  rows ← select (active_for raw_message_id purpose);
  match rows with
  | [] => mret tt
  | (id, _) :: _ => mraise (QueueStateError ("raw message " +:+ raw_message_id +:+ " already has active "
                      +:+ purpose +:+ " processing run " +:+ id))
  end.

(** What a claim that found a waiting message inserts. *)
Definition claimed_row (worker_id raw_message_id claim_token : string) (lease_seconds attempt now : Z) : processing_run_row := {|
  mr_raw_message_id := raw_message_id; mr_worker_id := Some worker_id; mr_status := "started";
  mr_lease_expires_at := Some (now + seconds lease_seconds); mr_started_at := now; mr_finished_at := None;
  mr_error := None; mr_attempt := attempt; mr_claim_token := Some claim_token; mr_account_id := None;
  mr_processing_purpose := PROCESSING_PURPOSE_LEGACY |}.

Definition legacy_attempts (raw_message_id : string) : Db -> Z :=
  max_attempt (fun r => String.eqb (mr_raw_message_id r) raw_message_id
                        && String.eqb (mr_processing_purpose r) PROCESSING_PURPOSE_LEGACY).

(** The run inserted for the waiting row [ob]. *)
Definition start_run (worker_id : string) (lease_seconds : Z) (ob : outbox_row) (raw_message_id : string) : M Conn ProcessingRun :=
  _ ← _assert_no_active_run raw_message_id PROCESSING_PURPOSE_LEGACY;
  attempts ← select (legacy_attempts raw_message_id);
  claim_token ← uuid4;
  processing_run_id ← uuid4;
  now ← get_now;
  let row := claimed_row worker_id raw_message_id claim_token lease_seconds (attempts + 1) now in
  _ ← insert_run processing_run_id row;
  let run := _run_from_row (processing_run_id, row) in
  _ ← _insert_run_audit run "message_processing.started"
        [("outbox_event_id", PStr (ob_id ob)); ("lease_seconds", PInt lease_seconds);
         ("attempt", PInt (attempts + 1)); ("claim_token", PStr claim_token)];
  mret run.

Definition claim_body (worker_id : string) (lease_seconds : Z) : M Conn (option ProcessingRun) :=
  _ ← _expire_timed_out_runs;
  candidate ← _select_claim_candidate;
  match candidate with
  | None => mret None
  | Some (ob, None) =>
      mraise (QueueStateError ("pending outbox event " +:+ ob_id ob +:+ " references missing raw message " +:+ ob_aggregate_id ob))
  | Some (ob, Some raw_message_id) => run ← start_run worker_id lease_seconds ob raw_message_id; mret (Some run)
  end.

Definition claim (worker_id : string) (lease_seconds : Z) : M Conn (option ProcessingRun) :=
  if is_empty worker_id then mraise (ValueError "worker_id is required")
  else if lease_seconds <=? 0 then mraise (ValueError "lease_seconds must be positive")
  else transaction (claim_body worker_id lease_seconds).

(** ** Running and ending a claim *)

(** The run moved to 'processing', with a new lease when one is given. *)
Definition processing (now : Z) (lease_seconds : option Z) (r : processing_run_row) : processing_run_row :=
  let r := end_run "processing" (mr_finished_at r) (mr_error r) r in
  match lease_seconds with Some s => with_lease (Some (now + seconds s)) r | None => r end.

Definition processing_body (processing_run_id : string) (lease_seconds : option Z) : M Conn ProcessingRun :=
  now ← get_now;
  rows ← update_runs (fun id r => String.eqb id processing_run_id && String.eqb (mr_status r) "started"
                                  && lease_after now (mr_lease_expires_at r)) (processing now lease_seconds);
  match rows with
  | [] => mraise (QueueStateError ("processing run " +:+ processing_run_id +:+ " is not an active started run"))
  | row :: _ =>
      let run := _run_from_row row in
      _ ← _insert_run_audit run "message_processing.processing" [];
      mret run
  end.

Definition mark_processing (processing_run_id : string) (lease_seconds : option Z) : M Conn ProcessingRun :=
  if match lease_seconds with Some s => s <=? 0 | None => false end then
    mraise (ValueError "lease_seconds must be positive")
  else transaction (processing_body processing_run_id lease_seconds).

Definition finish_body (processing_run_id status : string) (error claim_token : option string) : M Conn ProcessingRun :=
  now ← get_now;
  rows ← update_runs (fun id r => String.eqb id processing_run_id
                          && match claim_token with Some t => bool_decide (mr_claim_token r = Some t) | None => true end
                          && active r && lease_after now (mr_lease_expires_at r))
           (end_run status (Some now) (_format_error <$> error));
  match rows with
  | [] => match claim_token with
          | Some _ => mraise (StaleClaimError ("processing run " +:+ processing_run_id +:+ " rejected stale or expired claim_token"))
          | None => mraise (QueueStateError ("processing run " +:+ processing_run_id +:+ " is not active or its lease expired"))
          end
  | row :: _ =>
      let run := _run_from_row row in
      _ ← _insert_run_audit run ("message_processing." +:+ status) [];
      mret run
  end.

Definition _finish_run (processing_run_id status : string) (error claim_token : option string) : M Conn ProcessingRun :=
  transaction (finish_body processing_run_id status error claim_token).

Definition complete_run (processing_run_id : string) (claim_token : option string) : M Conn ProcessingRun :=
  _finish_run processing_run_id "succeeded" None claim_token.

Definition fail_run (processing_run_id error : string) (claim_token : option string) : M Conn ProcessingRun :=
  if is_empty error then mraise (ValueError "error is required")
  else _finish_run processing_run_id "hermes_failed" (Some error) claim_token.

Definition outbox_failed_body (raw_message_id error : string) : M Conn ProcessingRun :=
  now ← get_now;
  rows ← update_runs (fun _ r => String.eqb (mr_raw_message_id r) raw_message_id && active r
                                 && String.eqb (mr_processing_purpose r) "legacy")
           (end_run "outbox_failed" (Some now) (Some (_format_error error)));
  row ← match rows with
        | row :: _ => mret row
        | [] =>
            processing_run_id ← uuid4;
            let row := {|
              mr_raw_message_id := raw_message_id; mr_worker_id := Some "outbox_publisher"; mr_status := "outbox_failed";
              mr_lease_expires_at := Some now; mr_started_at := now; mr_finished_at := Some now;
              mr_error := Some (_format_error error); mr_attempt := 0; mr_claim_token := None; mr_account_id := None;
              mr_processing_purpose := PROCESSING_PURPOSE_LEGACY |} in
            _ ← insert_run processing_run_id row;
            mret (processing_run_id, row)
        end;
  let run := _run_from_row row in
  _ ← _insert_run_audit run "message_processing.outbox_failed" [];
  mret run.

Definition mark_outbox_failed (raw_message_id error : string) : M Conn ProcessingRun :=
  if is_empty error then mraise (ValueError "error is required")
  else transaction (outbox_failed_body raw_message_id error).

(** ** Lemmas *)

(** The queue tables stay, and no id is drawn twice. *)
Definition queue_kept (s s' : Conn) : Prop :=
  message_processing_runs (desk (current s')) = message_processing_runs (desk (current s))
  /\ signal_dispatch_tasks (desk (current s')) = signal_dispatch_tasks (desk (current s))
  /\ raw_messages (current s') = raw_messages (current s) /\ outbox_events (current s') = outbox_events (current s)
  /\ clock s' = clock s /\ uuids s <= uuids s' /\ committed s' = committed s.

#[export] Instance queue_kept_preorder : PreOrder queue_kept.
Proof.
  split; [intros s; split_and!; done || lia|].
  intros s s1 s2 (A & B & C & D & E & F & G) (A' & B' & C' & D' & E' & F' & G').
  split_and!; first [congruence | lia].
Qed.

Lemma queue_audit f : within queue_kept (execute (set_audit_events f)).
Proof. intros s. split_and!; done || (cbn; lia). Qed.

Lemma queue_uuid4 : within queue_kept uuid4.
Proof. intros s. split_and!; done || (cbn; lia). Qed.

#[export] Hint Resolve queue_audit queue_uuid4 : keeps.

Lemma queue_run_audit run t p : within queue_kept (_insert_run_audit run t p).
Proof. unfold _insert_run_audit. within. Qed.

#[export] Hint Resolve queue_run_audit : keeps.

(** The connection after the tables of runs changed. *)
Definition with_runs (f : gmap string processing_run_row -> gmap string processing_run_row) (c : Conn) : Conn :=
  {| committed := committed c; current := set_message_processing_runs f (current c); uuids := uuids c; clock := clock c |}.

Definition updated (p : string -> processing_run_row -> bool) (f : processing_run_row -> processing_run_row)
    (t : gmap string processing_run_row) : gmap string processing_run_row :=
  map_imap (fun k r => Some (if p k r then f r else r)) t.

Lemma update_runs_run p f c :
  exists rows, update_runs p f c = (Ok rows, with_runs (updated p f) c)
  /\ forall kr, kr ∈ rows <-> exists r, message_processing_runs (desk (current c)) !! fst kr = Some r
                                /\ p (fst kr) r = true /\ snd kr = f r.
Proof.
  eexists. split; [done|]. intros [k r']. rewrite list_elem_of_fmap. split.
  - intros ([k0 r] & [= -> ->] & [P L]%list_elem_of_filter). apply elem_of_map_to_list in L. by exists r.
  - intros (r & L & P & E). cbn in *. subst r'. exists (k, r). split; [done|]. apply list_elem_of_filter.
    split; [done|]. by apply elem_of_map_to_list.
Qed.

Lemma updated_lookup p f t k : updated p f t !! k = (fun r => if p k r then f r else r) <$> t !! k.
Proof. unfold updated. rewrite map_lookup_imap. by destruct (t !! k). Qed.

Lemma max_attempt_le p d k r :
  message_processing_runs (desk d) !! k = Some r -> p r = true -> mr_attempt r <= max_attempt p d.
Proof.
  intros L P. unfold max_attempt.
  assert (I : mr_attempt r ∈ map (fun kr => mr_attempt (snd kr))
    (filter (fun kr => p (snd kr) = true) (map_to_list (message_processing_runs (desk d))))).
  { apply list_elem_of_fmap. exists (k, r). split; [done|]. apply list_elem_of_filter. split; [done|]. by apply elem_of_map_to_list. }
  revert I. generalize (map (fun kr => mr_attempt (snd kr)) (filter (fun kr => p (snd kr) = true) (map_to_list (message_processing_runs (desk d))))).
  induction l as [|x l IH]; intros I; [by apply elem_of_nil in I|]. cbn. apply elem_of_cons in I as [->|I]; [lia|]. specialize (IH I). lia.
Qed.

Lemma active_for_none m purpose d :
  active_for m purpose d = [] ->
  forall k r, message_processing_runs (desk d) !! k = Some r -> active r = true -> mr_raw_message_id r = m ->
    mr_processing_purpose r <> purpose.
Proof.
  intros E k r L A M P. assert (I : (k, r) ∈ active_for m purpose d).
  { apply list_elem_of_filter. cbn. rewrite M, P, A, !String.eqb_refl. split; [done|]. by apply elem_of_map_to_list. }
  rewrite E in I. by apply elem_of_nil in I.
Qed.

Lemma insert_run_run id row c :
  signal_account row = true -> is_Some (raw_messages (current c) !! mr_raw_message_id row) ->
  (forall k r, message_processing_runs (desk (current c)) !! k = Some r -> index_conflict row r = false) ->
  insert_run id row c = (Ok tt, with_runs (<[id := row]>) c).
Proof.
  intros S R N. unfold insert_run, select, mbind, M_bind, check. rewrite S, bool_decide_true by done. cbn [mret M_ret].
  destruct (existsb _ _) eqn:E; [|done]. apply existsb_exists in E as ([k r] & I & E). cbn in E.
  apply list_elem_of_In, elem_of_map_to_list in I. by rewrite (N k r I) in E.
Qed.

Lemma audit_run run t p c : exists c', _insert_run_audit run t p c = (Ok tt, c') /\ queue_kept c c'.
Proof. eexists. split; [done|]. exact (queue_run_audit run t p c). Qed.

Lemma audits_run rows t p c :
  exists c', mfor rows (fun row => _insert_run_audit (_run_from_row row) t p) c = (Ok tt, c') /\ queue_kept c c'.
Proof.
  revert c. induction rows as [|row rows IH]; intros c; [by exists c|].
  destruct (audit_run (_run_from_row row) t p c) as (c1 & E & K), (IH c1) as (c2 & E2 & K2).
  exists c2. split; [|by transitivity c1]. cbn [mfor]. unfold mbind, M_bind. by rewrite E.
Qed.

(** A run the next claim times out. *)
Definition timed_out (now : Z) : gmap string processing_run_row -> gmap string processing_run_row :=
  updated (fun _ r => active r && lease_passed now (mr_lease_expires_at r))
    (fun r => end_run "hermes_timeout" (Some now) (coalesce (mr_error r) (Some "lease expired before completion")) r).

Lemma expire_run c :
  exists c', _expire_timed_out_runs c = (Ok tt, c') /\ queue_kept (with_runs (timed_out (clock c)) c) c'.
Proof.
  unfold _expire_timed_out_runs, get_now, mbind, M_bind.
  destruct (update_runs_run (fun _ r => active r && lease_passed (clock c) (mr_lease_expires_at r))
    (fun r => end_run "hermes_timeout" (Some (clock c)) (coalesce (mr_error r) (Some "lease expired before completion")) r) c)
    as (rows & -> & _).
  cbv beta iota. change (with_runs (updated _ _) c) with (with_runs (timed_out (clock c)) c).
  destruct (audits_run rows "message_processing.hermes_timeout" [] (with_runs (timed_out (clock c)) c)) as (c' & E & K).
  by exists c'.
Qed.

(** The state the queue is in: no unique index is violated, and ids still to be
    drawn are not in use. *)
Record runs_ok (c : Conn) : Prop := {
  ro_idle : idle c;
  ro_index : forall k r k' r', message_processing_runs (desk (current c)) !! k = Some r ->
     message_processing_runs (desk (current c)) !! k' = Some r' -> index_conflict r r' = true -> k = k';
  ro_fresh : forall n, uuids c <= n -> message_processing_runs (desk (current c)) !! ("uuid-" +:+ int_str n) = None }.

Lemma start_run_run worker_id lease_seconds ob m c :
  active_for m "legacy" (current c) = [] -> is_Some (raw_messages (current c) !! m) ->
  let token := "uuid-" +:+ int_str (uuids c) in
  let id := "uuid-" +:+ int_str (uuids c + 1) in
  let row := claimed_row worker_id m token lease_seconds (legacy_attempts m (current c) + 1) (clock c) in
  exists c', start_run worker_id lease_seconds ob m c = (Ok (_run_from_row (id, row)), c')
    /\ queue_kept (with_runs (<[id := row]>) c) c'.
Proof.
  intros A R token id row. unfold start_run, _assert_no_active_run, select, uuid4, get_now, mbind, M_bind.
  rewrite (A : active_for m PROCESSING_PURPOSE_LEGACY (current c) = []). cbv beta iota. cbn [mret M_ret uuids clock current committed]. fold token id row.
  rewrite insert_run_run; [|done|done|].
  2:{ intros k r L. cbn in L. destruct (index_conflict row r) eqn:X; [|done]. unfold index_conflict in X.
      rewrite !andb_true_iff, !String.eqb_eq in X. destruct X as [[[[_ X1] X2] X3] _].
      by destruct (active_for_none _ _ _ A k r L X1). }
  match goal with |- context [_insert_run_audit ?run ?t ?p ?s] => destruct (audit_run run t p s) as (c' & -> & K) end.
  exists c'. split; [done|]. etransitivity; [|exact K]. split_and!; done || (cbn; lia).
Qed.

(** A claim takes the oldest waiting message and cannot fail on another
    claim.  It first times out every run whose lease has passed.  Then, if no
    message of the outbox waits, it returns nothing; if the oldest waiting row
    names a message that does not exist, it raises and the database stays as it
    was; otherwise it inserts exactly one run, for that message, under a lease
    from now, with an attempt above every earlier one, and no run of the
    message that is still active is left beside it. *)
Theorem claim_outcome worker_id lease_seconds c :
  runs_ok c -> worker_id <> "" -> 0 < lease_seconds ->
  let now := clock c in
  let d := set_message_processing_runs (timed_out now) (current c) in
  let waiting_rows := filter (fun ob => waiting d ob = true) (outbox_events (current c)) in
  exists r c', claim worker_id lease_seconds c = (r, c') /\
  match hd_error (sort_by oldest_outbox waiting_rows) with
  | None => r = Ok None /\ message_processing_runs (desk (current c')) = timed_out now (message_processing_runs (desk (current c)))
  | Some ob =>
      match raw_messages (current c) !! ob_aggregate_id ob with
      | None => (exists msg, r = Raise (QueueStateError msg)) /\ current c' = current c
      | Some _ => exists id token,
          let row := claimed_row worker_id (ob_aggregate_id ob) token lease_seconds
                       (legacy_attempts (ob_aggregate_id ob) d + 1) now in
          r = Ok (Some (_run_from_row (id, row)))
          /\ message_processing_runs (desk (current c))  !! id = None
          /\ message_processing_runs (desk (current c'))
             = <[id := row]> (timed_out now (message_processing_runs (desk (current c))))
          /\ (forall k r', k <> id -> message_processing_runs (desk (current c')) !! k = Some r' -> active r' = true ->
                mr_raw_message_id r' = ob_aggregate_id ob -> mr_processing_purpose r' <> PROCESSING_PURPOSE_LEGACY)
      end
  end.
Proof.
  intros [I U F] W L now d rows. unfold claim.
  destruct (is_empty worker_id) eqn:E; [destruct worker_id; done|]. rewrite (proj2 (Z.leb_gt _ _) L).
  unfold transaction, claim_body, _select_claim_candidate, select, mbind, M_bind.
  destruct (expire_run c) as (c1 & -> & (K1 & K2 & K3 & K4 & K5 & K6 & K7)). cbv beta iota. cbn in K1, K2, K3, K4, K5, K6, K7.
  assert (WE : forall ob, waiting (current c1) ob = waiting d ob).
  { intros ob. unfold waiting, active_for. by rewrite K1. }
  assert (RE : filter (fun ob => waiting (current c1) ob = true) (outbox_events (current c1)) = rows).
  { rewrite K4. apply list_filter_iff. intros ob. by rewrite WE. }
  rewrite RE. destruct (hd_error (sort_by oldest_outbox rows)) as [ob|] eqn:H; cbn [fmap option_fmap option_map].
  2:{ by eexists _, _. }
  rewrite K3. destruct (raw_messages (current c) !! ob_aggregate_id ob) as [rm|] eqn:RM; cbn [fmap option_fmap option_map].
  2:{ eexists _, _. split; [done|]. split; [by eexists|]. cbn. by rewrite K7, I. }
  assert (Wob : waiting d ob = true).
  { assert (In : ob ∈ rows) by (rewrite <- (sort_by_perm oldest_outbox rows); destruct (sort_by _ rows); [done|]; injection H as ->; by left).
    by apply list_elem_of_filter in In as [? _]. }
  assert (A : active_for (ob_aggregate_id ob) "legacy" (current c1) = []).
  { rewrite <- WE in Wob. unfold waiting in Wob. destruct (active_for _ _ _); [done|]. by rewrite andb_false_r in Wob. }
  destruct (start_run_run worker_id lease_seconds ob (ob_aggregate_id ob) c1 A) as (c2 & -> & (Q1 & _)); [by rewrite K3, RM|].
  cbn in Q1. rewrite K1 in Q1.
  assert (LA : legacy_attempts (ob_aggregate_id ob) (current c1) = legacy_attempts (ob_aggregate_id ob) d).
  { unfold legacy_attempts, max_attempt. by rewrite K1. }
  rewrite LA, K5 in *. eexists _, _. split; [done|]. eexists _, _. split; [done|]. split; [apply F; lia|].
  split; [exact Q1|]. intros k r' N L' Ac M. cbn in L'. rewrite Q1, lookup_insert_ne in L' by done.
  apply (active_for_none _ _ _ A k r'); [by rewrite K1 | done..].
Qed.

(** ** Histories of runs *)

(** How a run has ended, if it has: completed or failed under its unexpired
    lease, timed out once the lease had passed, or given up by the outbox. *)
Definition well_ended (r : processing_run_row) : Prop :=
  active r = true \/ exists t, mr_finished_at r = Some t
  /\ ((mr_status r ∈ ["succeeded"; "hermes_failed"] /\ lease_after t (mr_lease_expires_at r) = true)
      \/ (mr_status r = "hermes_timeout" /\ lease_passed t (mr_lease_expires_at r) = true)
      \/ (mr_status r = "outbox_failed" /\ mr_processing_purpose r = "legacy")).

(** An update of the table touches active runs only, never who they are for, and
    ends a run in one of these ways. *)
Definition settles (p : string -> processing_run_row -> bool) (f : processing_run_row -> processing_run_row) : Prop :=
  (forall k r, p k r = true -> active r = true /\ well_ended (f r))
  /\ forall r, mr_raw_message_id (f r) = mr_raw_message_id r /\ mr_processing_purpose (f r) = mr_processing_purpose r
       /\ mr_account_id (f r) = mr_account_id r.

(** What a transaction does to the table, with ids below [u]. *)
Inductive table_step (u : Z) (t : gmap string processing_run_row) : gmap string processing_run_row -> Prop :=
  | ts_update p f : settles p f -> table_step u t (updated p f t)
  | ts_insert n row : n < u -> t !! ("uuid-" +:+ int_str n) = None -> well_ended row ->
      (forall k r, t !! k = Some r -> index_conflict row r = false) -> table_step u t (<["uuid-" +:+ int_str n := row]> t).

Definition index_unique (t : gmap string processing_run_row) : Prop :=
  forall k r k' r', t !! k = Some r -> t !! k' = Some r' -> index_conflict r r' = true -> k = k'.

Lemma index_conflict_sym a b : index_conflict a b = index_conflict b a.
Proof.
  unfold index_conflict. rewrite (andb_comm (active a)). rewrite (String.eqb_sym (mr_raw_message_id a)).
  rewrite (String.eqb_sym (mr_processing_purpose a)).
  destruct (active b && active a), (String.eqb (mr_raw_message_id b) _); try done. cbn.
  destruct (String.eqb_spec (mr_processing_purpose b) (mr_processing_purpose a)) as [->|]; [|done]. cbn.
  f_equal. by apply bool_decide_ext.
Qed.

Lemma table_step_unique u t t' : table_step u t t' -> index_unique t -> index_unique t'.
Proof.
  intros [p f [P K]|n row _ Fr _ N] U k r k' r' L L' X.
  - rewrite updated_lookup in L, L'. destruct (t !! k) as [x|] eqn:E, (t !! k') as [x'|] eqn:E'; try done.
    cbn in L, L'. injection L as <-. injection L' as <-. apply (U k x k' x' E E').
    assert (A : forall k x, active (if p k x then f x else x) = true -> active x = true).
    { intros k0 x0. destruct (p k0 x0) eqn:Q; [intros _; by eapply P | done]. }
    assert (Q : forall k x, mr_raw_message_id (if p k x then f x else x) = mr_raw_message_id x
              /\ mr_processing_purpose (if p k x then f x else x) = mr_processing_purpose x
              /\ mr_account_id (if p k x then f x else x) = mr_account_id x).
    { intros k0 x0. destruct (p k0 x0); [apply K | done]. }
    unfold index_conflict in *. destruct (Q k x) as (Q1 & Q2 & Q3), (Q k' x') as (Q4 & Q5 & Q6).
    rewrite Q1, Q2, Q3, Q4, Q5, Q6 in X.
    rewrite !andb_true_iff in *. destruct X as [[[[A1 A2] ?] ?] ?]. split_and!; try done; by eapply A.
  - rewrite lookup_insert_Some in L, L'. destruct L as [[<- <-]|[_ L]], L' as [[<- <-]|[_ L']]; [done| | |by eapply U].
    + by rewrite (N _ _ L') in X.
    + rewrite index_conflict_sym in X. by rewrite (N _ _ L) in X.
Qed.

Lemma table_step_settled u t t' k r :
  table_step u t t' -> t !! k = Some r -> active r = false -> t' !! k = Some r.
Proof.
  intros [p f [P K]|n row _ Fr _ N] L A.
  - rewrite updated_lookup, L. cbn. destruct (p k r) eqn:Q; [|done]. apply P in Q as [Q _]. congruence.
  - rewrite lookup_insert_ne; [done|]. intros <-. congruence.
Qed.

Lemma table_step_ended u t t' :
  table_step u t t' -> (forall k r, t !! k = Some r -> well_ended r) -> forall k r, t' !! k = Some r -> well_ended r.
Proof.
  intros [p f [P K]|n row _ Fr W N] H k r L.
  - rewrite updated_lookup in L. destruct (t !! k) as [x|] eqn:E; [|done]. injection L as <-.
    destruct (p k x) eqn:Q; [by apply (P k x Q) | by eapply H].
  - apply lookup_insert_Some in L as [[_ <-]|[_ L]]; [done | by eapply H].
Qed.

Lemma table_step_fresh u t t' n :
  table_step u t t' -> u <= n -> t !! ("uuid-" +:+ int_str n) = None -> t' !! ("uuid-" +:+ int_str n) = None.
Proof.
  intros [p f _|m row Lt Fr _ N] U L; [by rewrite updated_lookup, L|].
  rewrite lookup_insert_ne; [done|]. intros E%uuid_inj. lia.
Qed.

Lemma insert_run_inv id row c u c' :
  insert_run id row c = (Ok u, c') ->
  c' = with_runs (<[id := row]>) c
  /\ forall k r, message_processing_runs (desk (current c)) !! k = Some r -> index_conflict row r = false.
Proof.
  unfold insert_run, select, check, mbind, M_bind. destruct (signal_account row); [|done]. destruct (bool_decide _); [|done].
  cbn [mret M_ret]. destruct (existsb _ _) eqn:E; [done|]. intros [= <- <-]. split; [done|]. intros k r L.
  destruct (index_conflict row r) eqn:X; [|done]. rewrite <- E. symmetry. apply existsb_exists. exists (k, r).
  split; [|done]. by apply list_elem_of_In, elem_of_map_to_list.
Qed.

(** The table of runs, as [c] sees it. *)
Abbreviation runs c := (message_processing_runs (desk (current c))).

(** An operation of the queue, up to its commit. *)
Definition moves_runs {A} (m : M Conn A) : Prop :=
  forall c a c', (forall n, uuids c <= n -> runs c !! ("uuid-" +:+ int_str n) = None) ->
    m c = (Ok a, c') -> rtc (table_step (uuids c')) (runs c) (runs c').

Lemma settles_end s t e p :
  (forall k r, p k r = true -> active r = true
     /\ ((s ∈ ["succeeded"; "hermes_failed"] /\ lease_after t (mr_lease_expires_at r) = true)
         \/ (s = "hermes_timeout" /\ lease_passed t (mr_lease_expires_at r) = true)
         \/ (s = "outbox_failed" /\ mr_processing_purpose r = "legacy"))) ->
  settles p (fun r => end_run s (Some t) (e r) r).
Proof. intros H. split; [|done]. intros k r P. destruct (H k r P) as [A E]. split; [done|]. right. by exists t. Qed.

Definition drawn (c : Conn) : Conn :=
  {| committed := committed c; current := current c; uuids := uuids c + 1; clock := clock c |}.

Lemma uuid4_run c a c' : uuid4 c = (Ok a, c') -> a = "uuid-" +:+ int_str (uuids c) /\ c' = drawn c.
Proof. unfold uuid4. by intros [= <- <-]. Qed.

Lemma audit_inv run t p c u c' : _insert_run_audit run t p c = (Ok u, c') -> queue_kept c c'.
Proof. apply within_ok, queue_run_audit. Qed.

Lemma assert_no_active_inv m p c u c' : _assert_no_active_run m p c = (Ok u, c') -> c' = c.
Proof. unfold _assert_no_active_run, select, mbind, M_bind. destruct (active_for _ _ _) as [|[? ?] ?]; [by intros [= _ <-] | done]. Qed.

Lemma moves_start_run w l ob m : moves_runs (start_run w l ob m).
Proof.
  intros c a c' Fr H. unfold start_run in H. apply mbind_inv_ok in H as ([] & c1 & H1 & H).
  apply assert_no_active_inv in H1 as ->.
  apply mbind_inv_ok in H as (n & c1 & H1 & H). apply select_inv in H1 as [-> ->].
  apply mbind_inv_ok in H as (token & c1 & H1 & H). apply uuid4_run in H1 as [-> ->].
  apply mbind_inv_ok in H as (id & c1 & H1 & H). apply uuid4_run in H1 as [-> ->].
  apply mbind_inv_ok in H as (now & c1 & H1 & H). apply get_now_inv in H1 as [-> ->].
  apply mbind_inv_ok in H as ([] & c1 & H1 & H). apply insert_run_inv in H1 as [-> N].
  apply mbind_inv_ok in H as ([] & c2 & H1 & H). apply audit_inv in H1 as (E & _ & _ & _ & _ & U & _).
  apply mret_inv in H as [_ <-]. rewrite E. cbn in *. apply rtc_once, ts_insert; [lia | apply Fr; lia | by left | exact N].
Qed.

Lemma moves_claim w l : moves_runs (claim_body w l).
Proof.
  intros c a c' Fr H. unfold claim_body in H. apply mbind_inv_ok in H as ([] & c1 & H1 & H).
  destruct (expire_run c) as (c2 & E & (K & _ & _ & _ & _ & U & _)). rewrite E in H1. injection H1 as ->.
  assert (S : forall u, table_step u (runs c) (runs c1)).
  { intros u. rewrite K. apply ts_update, settles_end. intros k r [? ?]%andb_true_iff. by auto. }
  assert (F1 : forall n, uuids c1 <= n -> runs c1 !! ("uuid-" +:+ int_str n) = None).
  { intros n Hn. cbn in U. eapply (table_step_fresh (uuids c)); [apply S | lia | apply Fr; lia]. }
  apply mbind_inv_ok in H as (cand & c2' & H2 & H). apply select_inv in H2 as [-> ->].
  destruct (_ <$> hd_error _) as [[ob [m|]]|]; [|done|].
  - apply mbind_inv_ok in H as (run & c3 & H3 & H). apply mret_inv in H as [_ <-].
    eapply rtc_l; [apply S | by eapply moves_start_run].
  - apply mret_inv in H as [_ <-]. apply rtc_once, S.
Qed.

Lemma update_runs_inv p f c rows c' : update_runs p f c = (Ok rows, c') -> c' = with_runs (updated p f) c
  /\ forall kr, kr ∈ rows -> exists r, runs c !! fst kr = Some r /\ p (fst kr) r = true /\ snd kr = f r.
Proof.
  intros H. destruct (update_runs_run p f c) as (rows' & E & R). rewrite E in H. injection H as <- <-.
  split; [done|]. intros kr I. by apply R.
Qed.

Lemma moves_finish id status e tok :
  status ∈ ["succeeded"; "hermes_failed"] -> moves_runs (finish_body id status e tok).
Proof.
  intros St c a c' Fr H. unfold finish_body in H. apply mbind_inv_ok in H as (now & c1 & H1 & H).
  apply get_now_inv in H1 as [-> ->]. apply mbind_inv_ok in H as (rows & c1 & H1 & H).
  apply update_runs_inv in H1 as [-> _]. destruct rows as [|row rows]; [by destruct tok|].
  apply mbind_inv_ok in H as ([] & c1 & H1 & H). apply audit_inv in H1 as (E & _). apply mret_inv in H as [_ <-].
  rewrite E. apply rtc_once, ts_update, settles_end. intros k r. rewrite !andb_true_iff. tauto.
Qed.

Lemma moves_outbox_failed m e : moves_runs (outbox_failed_body m e).
Proof.
  intros c a c' Fr H. unfold outbox_failed_body in H. apply mbind_inv_ok in H as (now & c1 & H1 & H).
  apply get_now_inv in H1 as [-> ->]. apply mbind_inv_ok in H as (rows & c1 & H1 & H).
  apply update_runs_inv in H1 as [-> _]. apply mbind_inv_ok in H as (row & c1 & H1 & H).
  apply mbind_inv_ok in H as ([] & c2 & H2 & H). apply audit_inv in H2 as (E & _ & _ & _ & _ & U & _).
  apply mret_inv in H as [_ <-]. rewrite E.
  assert (S : forall u, table_step u (runs c) (updated (fun _ r => String.eqb (mr_raw_message_id r) m && active r
             && String.eqb (mr_processing_purpose r) "legacy") (end_run "outbox_failed" (Some (clock c)) (Some (_format_error e))) (runs c))).
  { intros u. apply ts_update, settles_end. intros k r. rewrite !andb_true_iff, !String.eqb_eq. tauto. }
  destruct rows as [|row' rows].
  - apply mbind_inv_ok in H1 as (id & c3 & H3 & H1). apply uuid4_run in H3 as [-> ->].
    apply mbind_inv_ok in H1 as ([] & c3 & H3 & H1). apply insert_run_inv in H3 as [-> N]. apply mret_inv in H1 as [_ <-].
    cbn in U, N |- *. eapply rtc_l; [apply S|]. apply rtc_once, ts_insert; [lia | | right; exists (clock c); cbn; by auto | exact N].
    rewrite updated_lookup, Fr by lia. done.
  - apply mret_inv in H1 as [_ <-]. apply rtc_once, S.
Qed.

Lemma moves_processing id l : moves_runs (processing_body id l).
Proof.
  intros c a c' Fr H. unfold processing_body in H. apply mbind_inv_ok in H as (now & c1 & H1 & H).
  apply get_now_inv in H1 as [-> ->]. apply mbind_inv_ok in H as (rows & c1 & H1 & H).
  apply update_runs_inv in H1 as [-> _]. destruct rows as [|row rows]; [done|].
  apply mbind_inv_ok in H as ([] & c1 & H1 & H). apply audit_inv in H1 as (E & _). apply mret_inv in H as [_ <-].
  rewrite E. apply rtc_once, ts_update. split; [|intros r; unfold processing; by destruct l].
  intros k r. rewrite !andb_true_iff, !String.eqb_eq. intros [[_ S] _]. unfold active. rewrite S. split; [done|].
  left. unfold processing, active. by destruct l.
Qed.

Lemma aged_audit run t p : within aged (_insert_run_audit run t p).
Proof. unfold _insert_run_audit. within. Qed.
#[export] Hint Resolve aged_audit : keeps.

Lemma aged_update_runs p f : within aged (update_runs p f).
Proof. unfold update_runs. within. Qed.
#[export] Hint Resolve aged_update_runs : keeps.

Lemma aged_insert_run id row : within aged (insert_run id row).
Proof. unfold insert_run. within. Qed.
#[export] Hint Resolve aged_insert_run : keeps.

Lemma aged_claim w l : within aged (claim_body w l).
Proof. unfold claim_body, _expire_timed_out_runs, _select_claim_candidate, start_run, _assert_no_active_run. within. Qed.
Lemma aged_finish id s e t : within aged (finish_body id s e t).
Proof. unfold finish_body. within. Qed.
Lemma aged_processing id l : within aged (processing_body id l).
Proof. unfold processing_body. within. Qed.
Lemma aged_outbox_failed m e : within aged (outbox_failed_body m e).
Proof. unfold outbox_failed_body. within. Qed.

(** What the workers and the outbox publisher do to the runs. *)
Inductive claim_step (c c' : Conn) : Prop :=
  | step_claim w l r : claim w l c = (r, c') -> claim_step c c'
  | step_processing id l r : mark_processing id l c = (r, c') -> claim_step c c'
  | step_complete id t r : complete_run id t c = (r, c') -> claim_step c c'
  | step_fail id e t r : fail_run id e t c = (r, c') -> claim_step c c'
  | step_outbox_failed m e r : mark_outbox_failed m e c = (r, c') -> claim_step c c'
  | step_waits : idle c' -> runs c' = runs c -> uuids c <= uuids c' -> claim_step c c'.

(** A step keeps the queue in order, leaves runs that have ended alone, and ends
    a run only as it should. *)
Definition all_well_ended (c : Conn) : Prop := forall k r, runs c !! k = Some r -> well_ended r.

Definition orderly (c c' : Conn) : Prop :=
  runs_ok c' /\ (forall k r, runs c !! k = Some r -> active r = false -> runs c' !! k = Some r)
  /\ (all_well_ended c -> all_well_ended c').

Lemma orderly_same c c' : runs_ok c -> idle c' -> runs c' = runs c -> uuids c <= uuids c' -> orderly c c'.
Proof.
  intros [I U F] I' E L. unfold orderly, all_well_ended. split; [|by rewrite E]. split; [done|..]; rewrite E; [done|]. intros n Hn. apply F. lia.
Qed.

Lemma transaction_orderly {A} (m : M Conn A) c r c' :
  moves_runs m -> within aged m -> runs_ok c -> transaction m c = (r, c') -> orderly c c'.
Proof.
  intros MV AG OK H. assert (I : idle c') by (pose proof (transaction_idle m c) as I; by rewrite H in I).
  destruct OK as [Ic U F]. destruct r as [a|e].
  - apply transaction_inv_ok in H as (s & H & ->). pose proof (within_ok _ _ _ _ _ AG H) as [_ L].
    pose proof (MV c a s F H) as T. cbn [commit uuids] in *.
    assert (G : index_unique (runs s) /\ (forall n, uuids s <= n -> runs s !! ("uuid-" +:+ int_str n) = None)
                /\ (forall k r, runs c !! k = Some r -> active r = false -> runs s !! k = Some r)
                /\ (all_well_ended c -> all_well_ended s)).
    { unfold all_well_ended. clear H MV AG I. assert (F' : forall n, uuids s <= n -> runs c !! ("uuid-" +:+ int_str n) = None) by (intros n Hn; apply F; lia).
      clear F L. revert U F'. generalize (uuids s), (runs c), (runs s), T. clear. intros u t t' T.
      induction T as [t|t t1 t' S _ IH]; intros U F; [done|].
      destruct IH as (U' & F1 & K & W); [by eapply table_step_unique | intros n Hn; by eapply table_step_fresh, F|].
      split_and!; [done..| |].
      - intros k r L A. apply K; [by eapply table_step_settled | done].
      - intros H. by eapply W, table_step_ended. }
    destruct G as (G1 & G2 & G3). split; [by split | exact G3].
  - destruct (transaction_undone _ _ _ _ AG Ic H) as [E L]. apply orderly_same; [by split | done | by rewrite E | done].
Qed.

Lemma raise_orderly {A} (x : result A) c r c' : runs_ok c -> (x, c) = (r, c') -> orderly c c'.
Proof. intros OK [= _ <-]. apply orderly_same; [done | apply OK | done | lia]. Qed.

Lemma claim_step_orderly c c' : runs_ok c -> claim_step c c' -> orderly c c'.
Proof.
  intros OK [w l r H|id l r H|id t r H|id e t r H|m e r H|I E L].
  - unfold claim in H. destruct (is_empty w); [by eapply (raise_orderly _ c)|].
    destruct (l <=? 0); [by eapply (raise_orderly _ c)|]. eapply transaction_orderly; eauto using moves_claim, aged_claim.
  - unfold mark_processing in H. destruct (match l with Some s => s <=? 0 | None => false end); [by eapply (raise_orderly _ c)|].
    eapply transaction_orderly; eauto using moves_processing, aged_processing.
  - eapply transaction_orderly; [apply moves_finish; by left | apply aged_finish | done..].
  - unfold fail_run in H. destruct (is_empty e); [by eapply (raise_orderly _ c)|].
    eapply transaction_orderly; [apply moves_finish; by right; left | apply aged_finish | done..].
  - unfold mark_outbox_failed in H. destruct (is_empty e); [by eapply (raise_orderly _ c)|].
    eapply transaction_orderly; eauto using moves_outbox_failed, aged_outbox_failed.
  - by apply orderly_same.
Qed.

Lemma claim_steps_orderly c c' : runs_ok c -> rtc claim_step c c' -> orderly c c'.
Proof.
  intros OK H. revert OK. induction H as [c|c c1 c2 S _ IH]; intros OK; [by apply orderly_same; [|apply OK| |lia]|].
  destruct (claim_step_orderly _ _ OK S) as (OK1 & K1 & W1). destruct (IH OK1) as (OK2 & K2 & W2).
  split_and!; [done | | by auto]. intros k r L A. apply K2; [by apply K1 | done].
Qed.

(** No row meets the condition of an update. *)
Lemma update_runs_none p f c :
  (forall k r, runs c !! k = Some r -> p k r = false) -> update_runs p f c = (Ok [], with_runs (updated p f) c).
Proof.
  intros N. destruct (update_runs_run p f c) as ([|kr rows] & E & R); [done|]. exfalso.
  destruct (proj1 (R kr)) as (r & L & P & _); [by left|]. by rewrite (N _ _ L) in P.
Qed.

Lemma finish_refused id status e t c :
  idle c -> (forall r, runs c !! id = Some r -> active r = false) ->
  exists x c', _finish_run id status e t c = (Raise x, c') /\ current c' = current c.
Proof.
  intros I N. destruct (_finish_run id status e t c) as [[a|x] c'] eqn:H.
  - exfalso. unfold _finish_run, transaction, finish_body, get_now, mbind, M_bind in H. rewrite update_runs_none in H.
    + by destruct t.
    + intros k r L. destruct (String.eqb_spec k id) as [->|]; [|done]. rewrite (N _ L). by rewrite andb_false_r.
  - exists x, c'. split; [done|]. by apply (transaction_undone _ _ _ _ (aged_finish id status e t) I H).
Qed.

Lemma processing_refused id l c :
  idle c -> (forall r, runs c !! id = Some r -> active r = false) ->
  exists x c', mark_processing id l c = (Raise x, c') /\ current c' = current c.
Proof.
  intros I N. unfold mark_processing. destruct (match l with Some s => s <=? 0 | None => false end); [by eexists _, c|].
  destruct (transaction (processing_body id l) c) as [[a|x] c'] eqn:H.
  - exfalso. unfold transaction, processing_body, get_now, mbind, M_bind in H. rewrite update_runs_none in H; [done|].
    intros k r L. destruct (String.eqb_spec k id) as [->|]; [|done]. specialize (N _ L). cbn.
    destruct (String.eqb_spec (mr_status r) "started") as [S|]; [|done]. unfold active in N. by rewrite S in N.
  - exists x, c'. split; [done|]. by apply (transaction_undone _ _ _ _ (aged_processing id l) I H).
Qed.

Lemma finish_inv id status e t c run c' :
  str_in status ACTIVE_STATUSES = false -> _finish_run id status e t c = (Ok run, c') ->
  exists r, runs c !! id = Some r /\ active r = true /\ lease_after (clock c) (mr_lease_expires_at r) = true
  /\ (forall token, t = Some token -> mr_claim_token r = Some token)
  /\ exists r', runs c' !! id = Some r' /\ mr_status r' = status /\ active r' = false.
Proof.
  intros S H. apply transaction_inv_ok in H as (s & H & ->). unfold finish_body in H.
  apply mbind_inv_ok in H as (now & c1 & H1 & H). apply get_now_inv in H1 as [-> ->].
  apply mbind_inv_ok in H as (rows & c1 & H1 & H). apply update_runs_inv in H1 as [-> R].
  destruct rows as [|row rows]; [by destruct t|]. destruct (R row) as (r & L & P & _); [by left|].
  apply mbind_inv_ok in H as ([] & c1 & H1 & H). apply audit_inv in H1 as (E & _). apply mret_inv in H as [_ <-].
  pose proof P as P'. rewrite !andb_true_iff, String.eqb_eq in P'. destruct P' as [[[Ek T] A] Lx]. rewrite Ek in *.
  exists r. split_and!; [done..| |].
  - intros token ->. by apply bool_decide_eq_true in T.
  - exists (end_run status (Some (clock c)) (_format_error <$> e) r). cbn [commit current]. rewrite E. cbn.
    rewrite updated_lookup, L. cbn. rewrite P. split; [done|]. split; [done|]. exact S.
Qed.

(** A run ends once, and only in the ways it may.  Completing or failing a
    run succeeds only while the run is active, under its unexpired lease, and
    with the token of its claim when one is given; the run then has its final
    status, and whatever claims, completions, failures, timeouts, outbox
    failures and waits follow, it keeps that row: completing, failing or
    marking it again always raises and changes nothing.  Every run that has
    ended after them ended in one of three ways: completed or failed while its
    lease had not expired, timed out once it had, or, for a legacy run, given
    up by the outbox. *)
Theorem run_ends_once id failure token c run c1 c2 :
  runs_ok c -> all_well_ended c ->
  match failure with Some e => fail_run id e token | None => complete_run id token end c = (Ok run, c1) ->
  rtc claim_step c1 c2 ->
  (exists r, runs c !! id = Some r /\ active r = true /\ lease_after (clock c) (mr_lease_expires_at r) = true
     /\ forall t, token = Some t -> mr_claim_token r = Some t)
  /\ runs c2 !! id = runs c1 !! id
  /\ (exists r, runs c2 !! id = Some r /\ mr_status r = match failure with Some _ => "hermes_failed" | None => "succeeded" end)
  /\ (forall t, exists x c3, complete_run id t c2 = (Raise x, c3) /\ current c3 = current c2)
  /\ (forall e t, exists x c3, fail_run id e t c2 = (Raise x, c3) /\ current c3 = current c2)
  /\ (forall l, exists x c3, mark_processing id l c2 = (Raise x, c3) /\ current c3 = current c2)
  /\ all_well_ended c2.
Proof.
  intros OK WE H R. set (status := match failure with Some _ => "hermes_failed" | None => "succeeded" end).
  assert (F : exists e, _finish_run id status e token c = (Ok run, c1)).
  { destruct failure as [e|]; [|by eexists]. unfold fail_run in H. destruct (is_empty e); [done | by eexists]. }
  destruct F as [e F]. assert (O1 : orderly c c1).
  { eapply (transaction_orderly (finish_body id status e token)); [|apply aged_finish|done|exact F].
    apply moves_finish. subst status. destruct failure; [by right; left | by left]. }
  destruct O1 as (O1 & _ & W1).
  destruct (finish_inv id status e token c run c1) as (r & L & A & Lx & T & r' & L' & S' & A');
    [by destruct failure | done|].
  destruct (claim_steps_orderly _ _ O1 R) as (O2 & K & W2). pose proof (K _ _ L' A') as L2.
  assert (N : forall x, runs c2 !! id = Some x -> active x = false) by (intros x Lx'; congruence).
  pose proof (ro_idle _ O2) as I2. split_and!.
  - by exists r.
  - by rewrite L2, L'.
  - by exists r'.
  - intros t. exact (finish_refused id "succeeded" None t c2 I2 N).
  - intros e' t. unfold fail_run. destruct (is_empty e'); [by eexists _, c2 | exact (finish_refused id "hermes_failed" (Some e') t c2 I2 N)].
  - intros l. exact (processing_refused id l c2 I2 N).
  - by apply W2, W1.
Qed.

(** ** Examples *)

Definition raw_17 : raw_message_row :=
  {| rm_source := "telegram"; rm_channel_id := "-100"; rm_source_message_id := "17"; rm_author_id := None |}.

Definition queued : outbox_row := {|
  ob_id := "ob-1"; ob_status := "pending"; ob_aggregate_type := "raw_message"; ob_aggregate_id := "m-17";
  ob_event_type := "queued_for_hermes"; ob_payload := []; ob_trace_id := None; ob_attempts := 0;
  ob_next_attempt_at := None; ob_published_at := None; ob_failed_at := None; ob_error := None; ob_created_at := seconds 900 |}.

Definition inbox_db : Db :=
  set_outbox_events (fun _ => [queued]) (set_raw_messages (<["m-17" := raw_17]>) empty_db).

Definition inbox_conn : Conn := connect inbox_db (seconds 1000).

Lemma inbox_conn_ok : runs_ok inbox_conn.
Proof. split; [done|..]; cbn; intros *; rewrite ?lookup_empty; done. Qed.

Example claim_outcome_witness :
  exists run c', claim "worker-1" 30 inbox_conn = (Ok (Some run), c')
  /\ pu_raw_message_id run = "m-17" /\ pu_attempt run = 1 /\ pu_lease_expires_at run = Some (seconds 1030)
  /\ fst (claim "worker-2" 30 c') = Ok None.
Proof.
  destruct (claim_outcome "worker-1" 30 inbox_conn inbox_conn_ok) as (r & c' & E & _); [discriminate | reflexivity|].
  destruct r as [[run|]|x]; [|exfalso; vm_compute in E; discriminate E..].
  exists run, c'. split; [exact E|]. vm_compute in E. injection E as <- <-. split_and!; vm_compute; reflexivity.
Defined.

Example run_ends_once_witness :
  let c := snd (claim "worker-1" 30 inbox_conn) in
  let c1 := snd (complete_run "uuid-1" (Some "uuid-0") c) in
  (exists r, runs c1 !! "uuid-1" = Some r /\ mr_status r = "succeeded")
  /\ exists x c3, complete_run "uuid-1" (Some "uuid-0") c1 = (Raise x, c3) /\ current c3 = current c1.
Proof.
  cbv zeta. destruct (claim "worker-1" 30 inbox_conn) as [r c] eqn:C. cbn [snd].
  destruct (claim_step_orderly _ _ inbox_conn_ok (step_claim _ _ _ _ _ C)) as (OK & _ & WE).
  specialize (WE ltac:(intros k x L; vm_compute in L; by destruct k)).
  destruct (complete_run "uuid-1" (Some "uuid-0") c) as [[run|x] c1] eqn:E.
  2:{ exfalso. vm_compute in C. injection C as _ <-. vm_compute in E. discriminate E. }
  destruct (run_ends_once "uuid-1" None (Some "uuid-0") c run c1 c1 OK WE E (rtc_refl _ _)) as (_ & _ & S & H & _).
  split; [exact S | apply H].
Defined.
