(* ===== verification/SignalQueue.v ===== *)
(** * SignalQueue: one claim at a time per account

    hermes-worker/queue/signal_queue.py: the tasks of the table
    signal_dispatch_tasks (Store.v), one per message version and account.  A
    worker claims a task of an account that has no live claim, works under a
    lease with a token of its own, and either ends the task or freezes an
    execution request in it and leaves it reconciling until an operator has
    accepted the request or both leases have passed (SignalHandoff.v).

    The code reads three clocks: [now()], the start of the transaction,
    [clock_timestamp()], the server's clock when a statement runs, and the
    worker's own [datetime.now].  The world of the model is the connection with
    a record of these readings; each statement that calls [clock_timestamp()]
    takes one reading.  Advisory and row locks are represented by running the
    transactions one after another, and [_assert_schema] is left out: the
    tables are those of the migrations.  The trigger of db/migrations/0021,
    which protects purpose, request and intent of a task, never fires: every
    statement here changes a task as [row_kept] allows. *)

From Stdlib Require Import ZArith Lia.
From S2P Require Import Prelude Decimal PyString DecText PyValue Json Store External PositionRevision Claims.
Open Scope string_scope.
Open Scope Z_scope.

Definition OPEN_SIGNAL_TTL_SECONDS : Z := 30 * 60.
Definition DEFAULT_ACTION : string := "evaluate".
Definition DEFAULT_ACCOUNT_ID : string := "unassigned".
Definition SIGNAL_TERMINAL : list string := ["shadow_dispatched"; "expired"; "failed"; "skipped"].

(** ** Clocks *)

(** The n-th reading of the server's and of the worker's clock. *)
Record Wall := { reading : nat; server_clock : nat -> Z; worker_clock : nat -> Z }.

Definition tick (w : Wall) : Wall :=
  {| reading := S (reading w); server_clock := server_clock w; worker_clock := worker_clock w |}.

Abbreviation World := (Wall * Conn)%type.

(** [clock_timestamp()] *)
Definition clock_timestamp : M World Z := fun w => (Ok (server_clock (fst w) (reading (fst w))), (tick (fst w), snd w)).

(** [datetime.now(timezone.utc)] in the worker. *)
Definition utc_now : M World Z := fun w => (Ok (worker_clock (fst w) (reading (fst w))), (tick (fst w), snd w)).

(** [with conn:], whose first statement fixes [now()]. *)
Definition in_transaction {A} (m : M World A) : M World A :=
  transaction_in (fun w =>
    let '(now, c) := (server_clock (fst w) (reading (fst w)), snd w) in
    m (tick (fst w), {| committed := committed c; current := current c; uuids := uuids c; clock := now |})).

(** ** Tasks *)

Record SignalTask := {
  sk_task_id : string;
  sk_raw_message_id : string;
  sk_source : source_identity;
  sk_action : string;
  sk_status : string;
  sk_attempt : Z;
  sk_claim_token : option string;
  sk_related_task_id : option string;
  sk_processing_run_id : option string;
  sk_expires_at : option Z;
  sk_lease_expires_at : option Z;
  sk_worker_id : option string;
  sk_disposition : option string;
  sk_disposition_reason : option string;
  sk_processing_purpose : string;
  sk_execution_context : option dict;
  sk_execution_request : option dict;
  sk_operator_intent_id : option string }.

Definition sk_account_id (t : SignalTask) : string := si_account_id (sk_source t).

Definition _task_from_row (task_id : string) (r : task_row) : SignalTask := {|
  sk_task_id := task_id; sk_raw_message_id := to_raw_message_id (st_origin r); sk_source := to_source (st_origin r);
  sk_action := to_action (st_origin r); sk_status := tu_status (st_outcome r); sk_attempt := tc_attempt (st_claim r);
  sk_claim_token := tc_claim_token (st_claim r); sk_related_task_id := to_related_task_id (st_origin r);
  sk_processing_run_id := tc_processing_run_id (st_claim r); sk_expires_at := to_expires_at (st_origin r);
  sk_lease_expires_at := tc_lease_expires_at (st_claim r); sk_worker_id := tc_worker_id (st_claim r);
  sk_disposition := tu_disposition (st_outcome r); sk_disposition_reason := tu_disposition_reason (st_outcome r);
  sk_processing_purpose := to_processing_purpose (st_origin r); sk_execution_context := te_context (st_execution r);
  sk_execution_request := te_request (st_execution r); sk_operator_intent_id := te_operator_intent_id (st_execution r) |}.

Definition row_account (r : task_row) : string := si_account_id (to_source (st_origin r)).

#[export] Instance source_identity_eq_dec : EqDecision source_identity.
Proof. solve_decision. Defined.

(** SQL's [a = b], which a NULL never satisfies. *)
Definition sql_eq (a b : option string) : bool :=
  match a, b with Some a, Some b => String.eqb a b | _, _ => false end.

Definition with_outcome (status : string) (disposition reason : option string) (shadow_result : dict) (now : Z)
    (r : task_row) : task_row := {|
  st_origin := st_origin r; st_claim := st_claim r; st_execution := st_execution r; st_updated_at := now;
  st_outcome := {| tu_status := status; tu_disposition := disposition; tu_disposition_reason := reason;
                   tu_shadow_result := shadow_result |} |}.

Definition with_shadow_result (shadow_result : dict) (now : Z) (r : task_row) : task_row :=
  with_outcome (tu_status (st_outcome r)) (tu_disposition (st_outcome r)) (tu_disposition_reason (st_outcome r))
    shadow_result now r.

Definition with_worker (worker_id : option string) (r : task_row) : task_row := {|
  st_origin := st_origin r; st_outcome := st_outcome r; st_execution := st_execution r; st_updated_at := st_updated_at r;
  st_claim := {| tc_processing_run_id := tc_processing_run_id (st_claim r); tc_attempt := tc_attempt (st_claim r);
                 tc_claim_token := tc_claim_token (st_claim r); tc_worker_id := worker_id;
                 tc_lease_expires_at := tc_lease_expires_at (st_claim r) |} |}.

Definition with_execution (request context : option dict) (now : Z) (r : task_row) : task_row := {|
  st_origin := st_origin r; st_claim := st_claim r; st_outcome := st_outcome r; st_updated_at := now;
  st_execution := {| te_request := request; te_context := context;
                     te_operator_intent_id := te_operator_intent_id (st_execution r) |} |}.

Definition task_at (task_id : string) (d : Db) : option task_row := signal_dispatch_tasks (desk d) !! task_id.

(** [UPDATE signal_dispatch_tasks SET ... WHERE task_id = ... AND p RETURNING ...] *)
Definition update_task (task_id : string) (p : task_row -> bool) (f : task_row -> task_row) : M Conn (option task_row) :=
  row ← select (task_at task_id);
  match row with
  | Some r => if p r then _ ← execute (set_signal_dispatch_tasks (<[task_id := f r]>)); mret (Some (f r)) else mret None
  | None => mret None
  end.

(** The same, for a statement that reads [clock_timestamp()] and other rows. *)
Definition update_task_now (task_id : string) (p : Z -> Db -> task_row -> bool) (f : Z -> task_row -> task_row)
  : M World (option task_row) :=
  t ← clock_timestamp;
  d ← on_conn (select id);
  on_conn (update_task task_id (p t d) (f t)).

Definition _insert_audit (event_type : string) (raw_message_id : option string) (actor : string) (payload : dict) : M Conn unit :=
  _ ← uuid4;
  now ← get_now;
  execute (set_audit_events (fun t => (t ++ [{|
    au_event_type := event_type; au_aggregate_type := "signal_dispatch_task";
    au_aggregate_id := py_str (py_or (dget "task_id" payload) (from_option PStr PNone raw_message_id));
    au_actor := Some actor; au_trace_id := None; au_raw_message_id := raw_message_id; au_intent_id := None;
    au_payload := payload; au_created_at := now |}])%list)).

Definition opt_value (o : option string) : pyval := from_option PStr PNone o.

Definition _shadow_payload (expired : bool) (semantic stages : option dict) : dict :=
  let payload := [("mode", PStr "shadow"); ("operator_submitted", PBool false); ("exchange_submitted", PBool false);
    ("live_order", PBool false); ("outbox_published", PBool false); ("legacy_outbox_consumed", PBool false);
    ("expired", PBool expired)] in
  let payload := match semantic with Some s => dset "semantic" (PDict s) payload | None => payload end in
  match stages with Some s => dset "stages" (PDict s) payload | None => payload end.

(** ** Enqueueing *)

Definition identity_key (s : source_identity) : string :=
  dumps (PList [PStr (si_source_platform s); PStr (si_channel_id s); PStr (si_source_message_id s);
                PStr (si_edit_version s); PStr (si_account_id s)]).

Definition _validate_purpose (purpose : string) : result unit :=
  if str_in purpose [PROCESSING_PURPOSE_SHADOW; PROCESSING_PURPOSE_SIGNAL] then Ok tt
  else Raise (ValueError "processing_purpose must be shadow or signal").

(** [(v or default).strip() or default] *)
Definition resolved (v : option string) (dflt : string) : string :=
  let s := strip (default dflt (str_or v None)) in if is_empty s then dflt else s.

Record EnqueueRequest := {
  eq_raw_message_id : string;
  eq_source_platform : string;
  eq_channel_id : string;
  eq_source_message_id : string;
  eq_edit_version : string;
  eq_account_id : option string;
  eq_action : option string;
  eq_expires_at : option Z;
  eq_skipped_reason : option string;
  eq_processing_purpose : string }.

Record EnqueueResult := {
  en_task_id : string;
  en_inserted : bool;
  en_related_task_id : option string;
  en_identity_key : string;
  en_status : string }.

Definition newest_task (a b : string * task_row) : bool :=
  let ca := to_created_at (st_origin (snd a)) in let cb := to_created_at (st_origin (snd b)) in
  (cb <? ca) || (ca =? cb) && String.leb (fst b) (fst a).

(** The same message of the same account in another version. *)
Definition same_message (s : source_identity) (r : task_row) : bool :=
  let o := to_source (st_origin r) in
  String.eqb (si_source_platform o) (si_source_platform s) && String.eqb (si_channel_id o) (si_channel_id s)
  && String.eqb (si_source_message_id o) (si_source_message_id s) && String.eqb (si_account_id o) (si_account_id s).

Definition _lookup_related_task_id (s : source_identity) : M Conn (option string) :=
  select (fun d => fst <$> hd_error (sort_by newest_task
    (filter (fun kr => same_message s (snd kr) && negb (String.eqb (si_edit_version (to_source (st_origin (snd kr)))) (si_edit_version s)) = true)
       (map_to_list (signal_dispatch_tasks (desk d)))))).

Definition task_with_source (s : source_identity) (d : Db) : option (string * task_row) :=
  hd_error (filter (fun kr => to_source (st_origin (snd kr)) = s) (map_to_list (signal_dispatch_tasks (desk d)))).

Definition new_task (q : EnqueueRequest) (s : source_identity) (related_task_id : option string) (now : Z) : task_row := {|
  st_origin := {| to_source := s; to_identity_key := identity_key s; to_action := resolved (eq_action q) DEFAULT_ACTION;
    to_raw_message_id := eq_raw_message_id q; to_related_task_id := related_task_id; to_expires_at := eq_expires_at q;
    to_processing_purpose := eq_processing_purpose q; to_created_at := now |};
  st_claim := {| tc_processing_run_id := None; tc_attempt := 0; tc_claim_token := None; tc_worker_id := None;
    tc_lease_expires_at := None |};
  st_outcome := match str_or (eq_skipped_reason q) None with
    | Some reason => {| tu_status := "skipped"; tu_disposition := Some "skipped"; tu_disposition_reason := Some reason;
                        tu_shadow_result := [] |}
    | None => {| tu_status := "pending"; tu_disposition := Some "pending";
                 tu_disposition_reason := Some (if String.eqb (eq_processing_purpose q) PROCESSING_PURPOSE_SIGNAL
                   then "signal_queued" else "shadow_queued_legacy_still_live");
                 tu_shadow_result := [] |}
    end;
  st_execution := {| te_request := None; te_context := None; te_operator_intent_id := None |};
  st_updated_at := now |}.

Definition enqueue_signal_task (q : EnqueueRequest) : M Conn EnqueueResult :=
  _ ← mlift (_validate_purpose (eq_processing_purpose q));
  let account := resolved (eq_account_id q) DEFAULT_ACCOUNT_ID in
  if String.eqb (eq_processing_purpose q) PROCESSING_PURPOSE_SIGNAL && String.eqb account DEFAULT_ACCOUNT_ID then
    mraise (ValueError "signal processing requires an explicit account_id")
  else
    let s := {| si_source_platform := eq_source_platform q; si_channel_id := eq_channel_id q;
                si_source_message_id := eq_source_message_id q; si_edit_version := eq_edit_version q;
                si_account_id := account |} in
    let key := identity_key s in
    related ← _lookup_related_task_id s;
    task_id ← uuid4;
    now ← get_now;
    existing ← select (task_with_source s);
    match existing with
    | Some (id, row) =>
        if negb (String.eqb (to_processing_purpose (st_origin row)) (eq_processing_purpose q)) then
          mraise (QueueStateError "existing source identity has a different processing_purpose; automatic promotion is forbidden")
        else mret {| en_task_id := id; en_inserted := false; en_related_task_id := to_related_task_id (st_origin row);
                     en_identity_key := key; en_status := tu_status (st_outcome row) |}
    | None =>
        known ← select (fun d => bool_decide (is_Some (raw_messages d !! eq_raw_message_id q)));
        _ ← check known "signal_dispatch_tasks_raw_message_id_fkey";
        let row := new_task q s related now in
        _ ← execute (set_signal_dispatch_tasks (<[task_id := row]>));
        _ ← _insert_audit "signal.enqueued" (Some (eq_raw_message_id q)) "ingress"
              [("task_id", PStr task_id); ("identity_key", PStr key); ("account_id", PStr account);
               ("action", PStr (to_action (st_origin row))); ("edit_version", PStr (eq_edit_version q));
               ("related_task_id", opt_value related); ("status", PStr (tu_status (st_outcome row)));
               ("processing_purpose", PStr (eq_processing_purpose q))];
        mret {| en_task_id := task_id; en_inserted := true; en_related_task_id := related;
                en_identity_key := key; en_status := tu_status (st_outcome row) |}
    end.

(** ** Claiming *)

(** A task that keeps its account busy at [t]. *)
Definition busy (t : Z) (r : task_row) : bool :=
  String.eqb (tu_status (st_outcome r)) "reconciling"
  || String.eqb (tu_status (st_outcome r)) "leased"
     && (lease_after t (tc_lease_expires_at (st_claim r)) || bool_decide (is_Some (te_request (st_execution r)))).

Definition account_busy (t : Z) (account_id : string) (d : Db) : bool :=
  existsb (fun kr => String.eqb (row_account (snd kr)) account_id && busy t (snd kr))
    (map_to_list (signal_dispatch_tasks (desk d))).

Definition _account_has_live_lease (account_id : string) : M World bool :=
  t ← clock_timestamp;
  on_conn (select (account_busy t account_id)).

(** [status IN ('pending', 'leased') AND execution_request IS NULL AND (status =
    'pending' OR lease_expires_at IS NULL OR lease_expires_at <= now)] *)
Definition claimable_at (now : Z) (r : task_row) : bool :=
  let status := tu_status (st_outcome r) in
  str_in status ["pending"; "leased"] && negb (bool_decide (is_Some (te_request (st_execution r))))
  && (String.eqb status "pending" || negb (lease_after now (tc_lease_expires_at (st_claim r)))).

Definition first_task (a b : string * task_row) : bool :=
  let ca := to_created_at (st_origin (snd a)) in let cb := to_created_at (st_origin (snd b)) in
  (ca <? cb) || (ca =? cb) && String.leb (fst a) (fst b).

Definition candidates (account_id : option string) (skip_accounts : list string) (purpose : string) (now t : Z) (d : Db)
  : list (string * task_row) :=
  filter (fun kr =>
      claimable_at now (snd kr) && String.eqb (to_processing_purpose (st_origin (snd kr))) purpose
      && negb (account_busy t (row_account (snd kr)) d)
      && match str_or account_id None with Some a => String.eqb (row_account (snd kr)) a | None => true end
      && negb (str_in (row_account (snd kr)) skip_accounts) = true)
    (map_to_list (signal_dispatch_tasks (desk d))).

Definition _peek_claim_candidate (account_id : option string) (skip_accounts : list string) (purpose : string)
  : M World (option (string * task_row)) :=
  now ← on_conn get_now;
  t ← clock_timestamp;
  on_conn (select (fun d => hd_error (sort_by first_task (candidates account_id skip_accounts purpose now t d)))).

(** The worker's clock is read only for a lease. *)
Definition _row_is_claimable (task : SignalTask) : M World bool :=
  match sk_execution_request task with
  | Some _ => mret false
  | None =>
      if String.eqb (sk_status task) "pending" then mret true
      else if negb (String.eqb (sk_status task) "leased") then mret false
      else match sk_lease_expires_at task with
           | None => mret true
           | Some lease => now ← utc_now; mret (lease <=? now)
           end
  end.

Definition _task_ttl_expired (task : SignalTask) (open_ttl_seconds : option Z) : M World bool :=
  now ← utc_now;
  mret match sk_expires_at task, open_ttl_seconds with
       | None, Some ttl => ttl <=? 0
       | None, None => false
       | Some expires, None => expires <=? now
       | Some expires, Some ttl => expires - seconds OPEN_SIGNAL_TTL_SECONDS + seconds ttl <=? now
       end.

Definition _dispose_expired (task : SignalTask) (worker_id : string) : M Conn unit :=
  now ← get_now;
  _ ← match sk_processing_run_id task with
      | Some run_id =>
          rows ← update_runs (fun id r => String.eqb id run_id && active r)
            (fun r => end_run "skipped" (Some now) (coalesce (mr_error r) (Some "signal_ttl_exceeded")) r);
          mret tt
      | None => mret tt
      end;
  row ← update_task (sk_task_id task) (fun r => str_in (tu_status (st_outcome r)) ["pending"; "leased"])
          (fun r => with_worker (Some worker_id)
             (with_outcome "expired" (Some "expired") (Some "signal_ttl_exceeded") (_shadow_payload true None None) now r));
  match row with
  | None => mret tt
  | Some r =>
      _insert_audit "signal.expired" (Some (to_raw_message_id (st_origin r))) worker_id
        [("task_id", PStr (sk_task_id task)); ("disposition_reason", PStr "signal_ttl_exceeded");
         ("account_id", PStr (row_account r)); ("processing_run_id", opt_value (tc_processing_run_id (st_claim r)))]
  end.

Definition signal_attempts (task : SignalTask) : Db -> Z :=
  max_attempt (fun r => String.eqb (mr_raw_message_id r) (sk_raw_message_id task)
                        && String.eqb (mr_processing_purpose r) (sk_processing_purpose task)
                        && bool_decide (mr_account_id r = Some (sk_account_id task))).

Definition signal_run (task : SignalTask) (worker_id claim_token : string) (lease_seconds attempt now : Z)
  : processing_run_row := {|
  mr_raw_message_id := sk_raw_message_id task; mr_worker_id := Some worker_id; mr_status := "started";
  mr_lease_expires_at := Some (now + seconds lease_seconds); mr_started_at := now; mr_finished_at := None;
  mr_error := None; mr_attempt := attempt; mr_claim_token := Some claim_token;
  mr_account_id := Some (sk_account_id task); mr_processing_purpose := sk_processing_purpose task |}.

Definition leased_row (worker_id claim_token processing_run_id : string) (lease_seconds attempt now : Z) (r : task_row)
  : task_row := {|
  st_origin := st_origin r;
  st_claim := {| tc_processing_run_id := Some processing_run_id; tc_attempt := attempt;
                 tc_claim_token := Some claim_token; tc_worker_id := Some worker_id;
                 tc_lease_expires_at := Some (now + seconds lease_seconds) |};
  st_outcome := {| tu_status := "leased"; tu_disposition := tu_disposition (st_outcome r);
                   tu_disposition_reason := tu_disposition_reason (st_outcome r);
                   tu_shadow_result := tu_shadow_result (st_outcome r) |};
  st_execution := {| te_request := None; te_context := None;
                     te_operator_intent_id := te_operator_intent_id (st_execution r) |};
  st_updated_at := now |}.

Definition _lease_task (task : SignalTask) (worker_id : string) (lease_seconds : Z) : M Conn SignalTask :=
  now ← get_now;
  _ ← match sk_processing_run_id task with
      | Some run_id =>
          rows ← update_runs (fun id r => String.eqb id run_id && active r && lease_passed now (mr_lease_expires_at r))
            (fun r => end_run "hermes_timeout" (Some now) (coalesce (mr_error r) (Some "lease expired before completion")) r);
          mret tt
      | None => mret tt
      end;
  attempts ← select (signal_attempts task);
  let next_attempt := attempts + 1 in
  claim_token ← uuid4;
  processing_run_id ← uuid4;
  _ ← insert_run processing_run_id (signal_run task worker_id claim_token lease_seconds next_attempt now);
  row ← update_task (sk_task_id task) (claimable_at now)
          (leased_row worker_id claim_token processing_run_id lease_seconds next_attempt now);
  match row with
  | None => mraise (QueueStateError ("signal task " +:+ sk_task_id task +:+ " disappeared during claim"))
  | Some r =>
      _ ← _insert_audit "signal.claimed" (Some (to_raw_message_id (st_origin r))) worker_id
            [("task_id", PStr (sk_task_id task)); ("processing_run_id", PStr processing_run_id);
             ("attempt", PInt next_attempt); ("claim_token", PStr claim_token); ("account_id", PStr (row_account r));
             ("lease_seconds", PInt lease_seconds)];
      mret (_task_from_row (sk_task_id task) r)
  end.

(** What one candidate comes to. *)
Inductive attempt_outcome := Skipped | Disposed | Claimed (task : SignalTask).

(** The loop's body for the candidate [task_id], after its account's lock. *)
Definition try_candidate (worker_id : string) (lease_seconds : Z) (open_ttl_seconds : option Z) (purpose : string)
    (task_id account_id : string) : M World attempt_outcome :=
  live ← _account_has_live_lease account_id;
  if live : bool then mret Skipped
  else
    locked ← on_conn (select (task_at task_id));
    match locked with
    | None => mret Skipped
    | Some row =>
        let fresh := _task_from_row task_id row in
        if negb (String.eqb (sk_processing_purpose fresh) purpose) then mret Skipped
        else
          claimable ← _row_is_claimable fresh;
          if negb claimable then mret Skipped
          else
            expired ← _task_ttl_expired fresh open_ttl_seconds;
            if expired : bool then _ ← on_conn (_dispose_expired fresh worker_id); mret Disposed
            else leased ← on_conn (_lease_task fresh worker_id lease_seconds); mret (Claimed leased)
    end.

(** [while True], with [fuel] rounds; [claim_terminates] shows that the number
    of tasks is enough. *)
Definition out_of_fuel : exn := RuntimeError "OutOfFuel" "claim loop".

Fixpoint claim_loop (fuel : nat) (worker_id : string) (lease_seconds : Z) (account_id : option string)
    (open_ttl_seconds : option Z) (purpose : string) (skipped_accounts : list string) : M World (option SignalTask) :=
  match fuel with
  | O => mraise out_of_fuel
  | S fuel =>
      candidate ← _peek_claim_candidate account_id skipped_accounts purpose;
      match candidate with
      | None => mret None
      | Some (task_id, row) =>
          outcome ← try_candidate worker_id lease_seconds open_ttl_seconds purpose task_id (row_account row);
          match outcome with
          | Claimed leased => mret (Some leased)
          | Disposed => claim_loop fuel worker_id lease_seconds account_id open_ttl_seconds purpose skipped_accounts
          | Skipped => claim_loop fuel worker_id lease_seconds account_id open_ttl_seconds purpose
                         (row_account row :: skipped_accounts)
          end
      end
  end.

Definition claim_signal_task (worker_id : string) (lease_seconds : Z) (account_id : option string)
    (open_ttl_seconds : option Z) (purpose : string) : M World (option SignalTask) :=
  _ ← mlift (_validate_purpose purpose);
  if is_empty worker_id then mraise (ValueError "worker_id is required")
  else if lease_seconds <=? 0 then mraise (ValueError "lease_seconds must be positive")
  else in_transaction (
    tasks ← on_conn (select (fun d => size (signal_dispatch_tasks (desk d))));
    claim_loop (S tasks) worker_id lease_seconds account_id open_ttl_seconds purpose []).

(** ** Ending a claim *)

(** The statement that ends the run of the claim, which must be current. *)
Definition finish_claim_run (run_id : option string) (claim_token run_status : string) (now : Z) : M World unit :=
  match str_or run_id None with
  | Some run_id =>
      t ← clock_timestamp;
      rows ← on_conn (update_runs (fun id r => String.eqb id run_id && sql_eq (mr_claim_token r) (Some claim_token)
                && active r && lease_after t (mr_lease_expires_at r))
              (fun r => end_run run_status (Some now) (mr_error r) r));
      match rows with
      | [_] => mret tt
      | _ => mraise (StaleClaimError ("processing run " +:+ run_id +:+ " rejected stale claim"))
      end
  | None => mret tt
  end.

Definition complete_body (task_id claim_token status : string) (disposition disposition_reason : option string)
    (shadow_result : dict) (run_status : string) : M World SignalTask :=
  now ← on_conn get_now;
  row ← update_task_now task_id (fun t _ r => sql_eq (tc_claim_token (st_claim r)) (Some claim_token)
                    && String.eqb (tu_status (st_outcome r)) "leased" && lease_after t (tc_lease_expires_at (st_claim r)))
          (fun _ r => with_outcome status disposition disposition_reason
                      (dupdate (tu_shadow_result (st_outcome r)) shadow_result) now r);
  match row with
  | None => mraise (StaleClaimError ("signal task " +:+ task_id +:+ " rejected stale or expired claim_token"))
  | Some r =>
      let task := _task_from_row task_id r in
      _ ← finish_claim_run (sk_processing_run_id task) claim_token run_status now;
      _ ← on_conn (_insert_audit ("signal." +:+ status) (Some (sk_raw_message_id task))
            (default "signal-worker" (str_or (sk_worker_id task) None))
            [("task_id", PStr task_id); ("claim_token", opt_value (sk_claim_token task));
             ("processing_run_id", opt_value (sk_processing_run_id task)); ("attempt", PInt (sk_attempt task));
             ("account_id", PStr (sk_account_id task)); ("disposition_reason", opt_value disposition_reason);
             ("shadow_result", PDict shadow_result); ("outbox_written", PBool false); ("operator_submitted", PBool false)]);
      mret task
  end.

Definition complete_signal_task (task_id claim_token status : string) (disposition disposition_reason : option string)
    (shadow_result : dict) : M World SignalTask :=
  if is_empty claim_token then mraise (ValueError "claim_token is required")
  else if negb (str_in status SIGNAL_TERMINAL) then mraise (ValueError ("status '" +:+ status +:+ "' is not a terminal signal status"))
  else if String.eqb status "filled" || bool_decide (disposition = Some "filled") then
    mraise (ValueError "G2 shadow must not mark filled; G3 owns venue fills")
  else
    let run_status := if String.eqb status "shadow_dispatched" then "succeeded"
                      else if String.eqb status "failed" then "hermes_failed" else "skipped" in
    in_transaction (complete_body task_id claim_token status disposition disposition_reason shadow_result run_status).

Definition fail_signal_task (task_id claim_token : string) (disposition_reason : string) (shadow_result : dict)
  : M World SignalTask :=
  complete_signal_task task_id claim_token "failed" (Some "failed") (Some disposition_reason)
    (match shadow_result with
     | [] => [("operator_submitted", PBool false); ("outbox_published", PBool false)]
     | _ => shadow_result
     end).

Record ShadowDispatchResult := {
  sd_status : string;
  sd_task : SignalTask;
  sd_disposition_reason : string }.

(** [semantic] is [None] when it is not a dictionary. *)
Definition shadow_dispatch (task : SignalTask) (semantic stages : option dict) (open_ttl_seconds : option Z)
  : M World ShadowDispatchResult :=
  match str_or (sk_claim_token task) None with
  | None => mraise (StaleClaimError "shadow dispatch requires a claim_token")
  | Some claim_token =>
      if negb (match semantic with Some s => truthy (dget "action" s) | None => false end) then
        mraise (ValueError "semantic shadow requires action")
      else
        expired ← _task_ttl_expired task open_ttl_seconds;
        if expired : bool then
          _ ← complete_signal_task (sk_task_id task) claim_token "expired" (Some "rejected") (Some "signal_ttl_exceeded")
                (_shadow_payload true semantic stages);
          mret {| sd_status := "expired"; sd_task := task; sd_disposition_reason := "signal_ttl_exceeded" |}
        else
          _ ← complete_signal_task (sk_task_id task) claim_token "shadow_dispatched" (Some "pending")
                (Some "shadow_only_legacy_still_live") (_shadow_payload false semantic stages);
          mret {| sd_status := "shadow_dispatched"; sd_task := task;
                  sd_disposition_reason := "shadow_only_legacy_still_live" |}
  end.

(** ** Handing a task to the operator ingress *)

(** The run of the task's current claim. *)
Definition current_run (r : task_row) (d : Db) : option processing_run_row :=
  tc_processing_run_id (st_claim r) ≫= fun id => message_processing_runs (desk d) !! id.

Definition run_leased (t : Z) (r : task_row) (d : Db) : bool :=
  match current_run r d with Some u => lease_after t (mr_lease_expires_at u) | None => false end.

(** The claim [task] holds is the one the row has. *)
Definition same_claim (task : SignalTask) (r : task_row) : bool :=
  sql_eq (tc_processing_run_id (st_claim r)) (sk_processing_run_id task)
  && sql_eq (tc_claim_token (st_claim r)) (sk_claim_token task) && (tc_attempt (st_claim r) =? sk_attempt task).

(** The run belongs to the claim and to the task. *)
Definition run_matches (r : task_row) (u : processing_run_row) : bool :=
  sql_eq (mr_claim_token u) (tc_claim_token (st_claim r)) && (mr_attempt u =? tc_attempt (st_claim r))
  && sql_eq (mr_account_id u) (Some (row_account r)) && String.eqb (mr_raw_message_id u) (to_raw_message_id (st_origin r))
  && String.eqb (mr_processing_purpose u) "signal" && active u.

Definition claim_current (task : SignalTask) (t : Z) (r : task_row) (d : Db) : bool :=
  String.eqb (row_account r) (sk_account_id task) && same_claim task r
  && String.eqb (to_processing_purpose (st_origin r)) "signal" && String.eqb (tu_status (st_outcome r)) "leased"
  && negb (bool_decide (is_Some (te_request (st_execution r)))) && lease_after t (tc_lease_expires_at (st_claim r))
  && match current_run r d with
     | Some u => run_matches r u && lease_after t (mr_lease_expires_at u)
     | None => false
     end.

Definition lock_execution_claim (task : SignalTask) : M World SignalTask :=
  if negb (String.eqb (sk_processing_purpose task) PROCESSING_PURPOSE_SIGNAL) then
    mraise (StaleClaimError "execution requires a signal-purpose task")
  else
    t ← clock_timestamp;
    found ← on_conn (select (fun d => match task_at (sk_task_id task) d with
                                       | Some r => claim_current task t r d | None => false end));
    if found : bool then mret task
    else mraise (StaleClaimError "execution rejected stale, expired or mismatched signal claim").

Definition store_execution_context (task : SignalTask) (versions : dict) : M World unit :=
  if negb (py_eqb (dget "account_id" versions) (PStr (sk_account_id task))) then
    mraise (ValueError "execution context account does not match task")
  else
    row ← update_task_now (sk_task_id task)
            (fun t d r => same_claim task r && String.eqb (tu_status (st_outcome r)) "leased"
               && negb (bool_decide (is_Some (te_context (st_execution r))))
               && negb (bool_decide (is_Some (te_request (st_execution r))))
               && lease_after t (tc_lease_expires_at (st_claim r)) && run_leased t r d)
            (fun t r => with_execution (te_request (st_execution r)) (Some versions) t r);
    match row with
    | Some _ => mret tt
    | None => mraise (StaleClaimError "execution context already captured or claim expired")
    end.

Definition decision_body (task : SignalTask) (semantic stages snapshot : dict) : M World unit :=
  _ ← lock_execution_claim task;
  row ← update_task_now (sk_task_id task)
          (fun t d r => lease_after t (tc_lease_expires_at (st_claim r)) && run_leased t r d)
          (with_shadow_result [("mode", PStr "signal"); ("semantic", PDict semantic); ("stages", PDict stages);
             ("snapshot", PDict snapshot); ("operator_submitted", PBool false); ("outbox_published", PBool false)]);
  match row with
  | Some _ => mret tt
  | None => mraise (StaleClaimError "claim expired before decision persistence")
  end.

Definition record_signal_decision (task : SignalTask) (semantic stages snapshot : dict) : M World unit :=
  in_transaction (decision_body task semantic stages snapshot).

(** hermes-worker/worker.py: the versions of the account's books, captured
    under the claim before the model is asked. *)
Definition context_body (task : SignalTask) : M World dict :=
  _ ← lock_execution_claim task;
  versions ← on_conn (capture_versions (sk_account_id task));
  _ ← store_execution_context task versions;
  mret versions.

Definition capture_context (task : SignalTask) : M World dict := in_transaction (context_body task).

(** [shadow_result #>> '{semantic,decision,decision_id}'] *)
Definition decision_id_of (shadow_result : dict) : option string :=
  json_text "decision_id" (as_dict (dget "decision" (as_dict (dget "semantic" shadow_result)))).

(** A [decision_id] of the body as a text parameter. *)
Definition text_param (v : pyval) : result (option string) :=
  match v with
  | PNone => Ok None
  | PStr s => Ok (Some s)
  | _ => Raise (RuntimeError "UndefinedFunction" "operator does not exist")
  end.

(** The claim that the body names is the task's. *)
Definition claims_task (task : SignalTask) (claim : dict) : bool :=
  py_eqb (dget "task_id" claim) (PStr (sk_task_id task))
  && py_eqb (dget "processing_run_id" claim) (opt_value (sk_processing_run_id task))
  && py_eqb (dget "claim_token" claim) (opt_value (sk_claim_token task))
  && py_eqb (dget "attempt" claim) (PInt (sk_attempt task)).

Definition register_body (task : SignalTask) (body : dict) : M World SignalTask :=
  _ ← lock_execution_claim task;
  decision_id ← mlift (text_param (dget "decision_id" body));
  row ← update_task_now (sk_task_id task)
          (fun t d r => bool_decide (is_Some (te_context (st_execution r)))
             && sql_eq (decision_id_of (tu_shadow_result (st_outcome r))) decision_id
             && lease_after t (tc_lease_expires_at (st_claim r)) && run_leased t r d)
          (fun t r => with_execution (Some body) (te_context (st_execution r)) t
             (with_outcome "reconciling" (Some "pending") (Some "operator_result_pending")
                (tu_shadow_result (st_outcome r)) t r));
  match row with
  | None => mraise (StaleClaimError "request registration requires current context and persisted decision")
  | Some r =>
      _ ← on_conn (_insert_audit "signal.execution_registered" (Some (sk_raw_message_id task))
            (default "signal-worker" (str_or (sk_worker_id task) None))
            [("task_id", PStr (sk_task_id task)); ("processing_run_id", opt_value (sk_processing_run_id task));
             ("account_id", PStr (sk_account_id task)); ("attempt", PInt (sk_attempt task));
             ("decision_id", dget "decision_id" body); ("outbox_written", PBool false)]);
      mret (_task_from_row (sk_task_id task) r)
  end.

Definition register_execution_request (task : SignalTask) (body : dict) : M World SignalTask :=
  match dget "signal_claim" body with
  | PDict claim =>
      if negb (claims_task task claim) then mraise (StaleClaimError "registered request does not match task claim")
      else if negb (py_eqb (dget "account_id" body) (PStr (sk_account_id task))) then
        mraise (ValueError "registered request account does not match task")
      else in_transaction (register_body task body)
  | _ => mraise (StaleClaimError "registered request does not match task claim")
  end.

Definition oldest_update (a b : string * task_row) : bool :=
  let ua := st_updated_at (snd a) in let ub := st_updated_at (snd b) in
  (ua <? ub) || (ua =? ub) && String.leb (fst a) (fst b).

Definition next_reconciling_task (account_id : option string) : M World (option SignalTask) :=
  in_transaction (on_conn (select (fun d =>
    (fun kr => _task_from_row (fst kr) (snd kr)) <$> hd_error (sort_by oldest_update
      (filter (fun kr => let r := snd kr in
          String.eqb (to_processing_purpose (st_origin r)) "signal"
          && str_in (tu_status (st_outcome r)) ["leased"; "reconciling"]
          && bool_decide (is_Some (te_request (st_execution r)))
          && match account_id with Some a => String.eqb (row_account r) a | None => true end = true)
        (map_to_list (signal_dispatch_tasks (desk d)))))))).

(** [a == b] and [a = b] of optional objects. *)
Definition same_request (a b : option dict) : bool :=
  match a, b with Some a, Some b => py_eqb (PDict a) (PDict b) | None, None => true | _, _ => false end.

Definition sql_same_request (a b : option dict) : bool :=
  match a, b with Some a, Some b => py_eqb (PDict a) (PDict b) | _, _ => false end.

(** The claim of [task_id] and of its run have both expired with no operation. *)
Definition expired_unbound (t : Z) (r : task_row) (d : Db) : bool :=
  String.eqb (to_processing_purpose (st_origin r)) "signal"
  && negb (bool_decide (is_Some (te_operator_intent_id (st_execution r))))
  && str_in (tu_status (st_outcome r)) ["leased"; "reconciling"]
  && lease_passed t (tc_lease_expires_at (st_claim r))
  && match current_run r d with
     | Some u => run_matches r u && lease_passed t (mr_lease_expires_at u)
     | None => false
     end.

(** The statement that expires both, and reports the task when it did. *)
Definition expire_unbound (task_id : string) : M World (option task_row) :=
  t ← clock_timestamp;
  d ← on_conn (select id);
  match task_at task_id d with
  | Some r =>
      if expired_unbound t r d then
        _ ← on_conn (update_runs (fun k _ => bool_decide (tc_processing_run_id (st_claim r) = Some k))
              (end_run "hermes_timeout" (Some t) (Some "claim_expired_without_operation")));
        on_conn (update_task task_id (fun r => str_in (tu_status (st_outcome r)) ["leased"; "reconciling"])
          (fun r => with_outcome "expired" (Some "rejected") (Some "claim_expired_without_operation")
             (dupdate (tu_shadow_result (st_outcome r))
                [("operator_submitted", PBool false); ("operator_result", PStr "expired_without_operation")]) t r))
      else mret None
  | None => mret None
  end.

(** The statement that leaves the task reconciling with an unknown result. *)
Definition leave_reconciling (task : SignalTask) (detail : string) : M World (option task_row) :=
  update_task_now (sk_task_id task)
    (fun _ _ r => same_claim task r && sql_same_request (te_request (st_execution r)) (sk_execution_request task)
                  && str_in (tu_status (st_outcome r)) ["leased"; "reconciling"])
    (fun t r => with_outcome "reconciling" (Some "pending") (Some (String.substring 0 500 detail))
       (dupdate (tu_shadow_result (st_outcome r)) [("operator_submitted", PNone); ("operator_result", PStr "unknown")]) t r).

(** [SELECT ... WHERE task_id = ...] of a task that must exist. *)
Definition read_task (task_id : string) : M Conn SignalTask :=
  row ← select (task_at task_id);
  match row with
  | Some r => mret (_task_from_row task_id r)
  | None => mraise (StaleClaimError "registered signal task disappeared")
  end.

Definition note_detail (task : SignalTask) (operator_detail : option dict) : M Conn unit :=
  match operator_detail with
  | Some od =>
      _ ← update_task (sk_task_id task) (fun _ => true) (fun r =>
            with_shadow_result (dupdate (tu_shadow_result (st_outcome r)) [("operator_detail", PDict od)]) (st_updated_at r) r);
      mret tt
  | None => mret tt
  end.

(** The task expires with its run, or stays with an unknown result. *)
Definition settle_uncertain (task : SignalTask) (detail : string) : M World SignalTask :=
  expired ← expire_unbound (sk_task_id task);
  match expired with
  | Some r =>
      _ ← on_conn (_insert_audit "signal.expired_without_operation" (Some (sk_raw_message_id task))
            (default "signal-worker" (str_or (sk_worker_id task) None))
            [("task_id", PStr (sk_task_id task)); ("processing_run_id", opt_value (sk_processing_run_id task));
             ("account_id", PStr (sk_account_id task)); ("reason", PStr "claim_expired_without_operation")]);
      mret (_task_from_row (sk_task_id task) r)
  | None =>
      row ← leave_reconciling task detail;
      match row with
      | Some r => mret (_task_from_row (sk_task_id task) r)
      | None => on_conn (read_task (sk_task_id task))
      end
  end.

Definition uncertainty_body (task : SignalTask) (detail : string) (operator_detail : option dict) : M World SignalTask :=
  stored ← on_conn (read_task (sk_task_id task));
  if bool_decide (is_Some (sk_operator_intent_id stored)) || str_in (sk_status stored) SIGNAL_TERMINAL then mret stored
  else if negb (bool_decide (sk_claim_token stored = sk_claim_token task)) || negb (sk_attempt stored =? sk_attempt task)
          || negb (bool_decide (sk_processing_run_id stored = sk_processing_run_id task))
          || negb (same_request (sk_execution_request stored) (sk_execution_request task)) then
    mraise (StaleClaimError "signal reconciliation claim changed")
  else
    run ← on_conn (select (fun d => sk_processing_run_id task ≫= fun k => message_processing_runs (desk d) !! k));
    match run with
    | None => mraise (StaleClaimError "signal reconciliation run disappeared")
    | Some _ => _ ← on_conn (note_detail task operator_detail); settle_uncertain task detail
    end.

Definition record_operator_uncertainty (task : SignalTask) (detail : string) (operator_detail : option dict)
  : M World SignalTask := in_transaction (uncertainty_body task detail operator_detail).

(** ** Frames *)

Abbreviation tasks c := (signal_dispatch_tasks (desk (current c))).

(** The reading the next statement gets. *)
Definition now_at (w : World) : Z := server_clock (fst w) (reading (fst w)).

Definition same_clocks (u u' : Wall) : Prop :=
  server_clock u' = server_clock u /\ worker_clock u' = worker_clock u /\ (reading u <= reading u')%nat.

(** Clocks are only read, ids only drawn, and nothing is committed. *)
Definition older (w w' : World) : Prop := same_clocks (fst w) (fst w') /\ aged (snd w) (snd w').

(** The server's clock does not go back. *)
Definition monotone (u : Wall) : Prop := forall i j, (i <= j)%nat -> server_clock u i <= server_clock u j.

(** A task that no operation changes again: ended, or accepted by the operator ingress. *)
Definition settled (r : task_row) : bool :=
  str_in (tu_status (st_outcome r)) SIGNAL_TERMINAL
  || String.eqb (tu_status (st_outcome r)) "dispatched" && bool_decide (is_Some (te_operator_intent_id (st_execution r))).

(** What a statement may do to a task: never to one that is settled, and never
    to the identity of a task, to its registered request with its context, or
    to the intent it was accepted for. *)
Definition row_kept (r r' : task_row) : Prop :=
  st_origin r' = st_origin r /\ (settled r = true -> r' = r)
  /\ (forall q, te_request (st_execution r) = Some q ->
       te_request (st_execution r') = Some q /\ te_context (st_execution r') = te_context (st_execution r))
  /\ (forall i, te_operator_intent_id (st_execution r) = Some i -> te_operator_intent_id (st_execution r') = Some i).

#[export] Instance row_kept_preorder : PreOrder row_kept.
Proof.
  split; [done|]. intros r r1 r2 (A & B & C & D) (A' & B' & C' & D'). split_and!; [congruence|..].
  - intros S. specialize (B S). subst r1. by apply B'.
  - intros q Q. destruct (C q Q) as [Q1 X1]. destruct (C' q Q1) as [Q2 X2]. split; congruence.
  - auto.
Qed.

(** No task has an id that is still to be drawn. *)
Definition tasks_fresh (c : Conn) : Prop := forall n, uuids c <= n -> tasks c !! ("uuid-" +:+ int_str n) = None.

Definition tasks_kept (c c' : Conn) : Prop :=
  aged c c' /\ (tasks_fresh c -> tasks_fresh c' /\ forall k r, tasks c !! k = Some r ->
                  exists r', tasks c' !! k = Some r' /\ row_kept r r').

#[export] Instance tasks_kept_preorder : PreOrder tasks_kept.
Proof.
  split; [intros c; split; [done|]; intros F; split; [done|]; intros k r L; by exists r|].
  intros c c1 c2 [A K] [A' K']. split; [by etransitivity|]. intros F. destruct (K F) as [F1 K1]. destruct (K' F1) as [F2 K2].
  split; [done|]. intros k r L. destruct (K1 k r L) as (r1 & L1 & R1). destruct (K2 k r1 L1) as (r2 & L2 & R2).
  exists r2. split; [done | by etransitivity].
Qed.

(** The same of the whole world. *)
Definition kept (w w' : World) : Prop := same_clocks (fst w) (fst w') /\ tasks_kept (snd w) (snd w').

#[export] Instance same_clocks_preorder : PreOrder same_clocks.
Proof. split; [done|]. intros u u1 u2 (A & B & C) (A' & B' & C'). split_and!; [congruence..|lia]. Qed.

#[export] Instance kept_preorder : PreOrder kept.
Proof. split; [by intros w|]. intros w w1 w2 [A B] [A' B']. split; by etransitivity. Qed.

(** Nothing but the listed accounts becomes busy: what is busy later, at any
    later time, was busy when the run began. *)
Definition calm (w w' : World) : Prop :=
  same_clocks (fst w) (fst w') /\ (monotone (fst w) -> forall k r' t, tasks (snd w') !! k = Some r' -> now_at w' <= t ->
    busy t r' = true -> exists r, tasks (snd w) !! k = Some r /\ busy (now_at w) r = true /\ row_account r = row_account r').

Lemma same_clocks_monotone u u' : same_clocks u u' -> monotone u -> monotone u'.
Proof. intros (A & _ & _) M i j. rewrite A. apply M. Qed.

Lemma now_forward w w' : same_clocks (fst w) (fst w') -> monotone (fst w) -> now_at w <= now_at w'.
Proof. intros (A & _ & B) M. unfold now_at. rewrite A. by apply M. Qed.

Lemma busy_earlier t0 t r : t0 <= t -> busy t r = true -> busy t0 r = true.
Proof.
  unfold busy, lease_after. intros L. rewrite !orb_true_iff, !andb_true_iff, !orb_true_iff.
  intros [B|[B [C|C]]]; [by left|right; split; [done|left]|right; split; [done|by right]].
  destruct (tc_lease_expires_at (st_claim r)); [|done]. apply Z.ltb_lt. apply Z.ltb_lt in C. lia.
Qed.

#[export] Instance calm_preorder : PreOrder calm.
Proof.
  split.
  - intros w. split; [done|]. intros _ k r t L T B. exists r. split_and!; [done| |done]. by eapply busy_earlier.
  - intros w w1 w2 [A K] [A' K']. split; [by etransitivity|]. intros M k r' t L T B.
    destruct (K' (same_clocks_monotone _ _ A M) k r' t L T B) as (r1 & L1 & B1 & E1).
    destruct (K M k r1 _ L1 (Z.le_refl _) B1) as (r & L0 & B0 & E0). exists r. split_and!; [done..|congruence].
Qed.

(** *** Statements *)

(** A statement that leaves the tasks alone. *)
Definition tasks_same (c c' : Conn) : Prop := aged c c' /\ tasks c' = tasks c.

#[export] Instance tasks_same_preorder : PreOrder tasks_same.
Proof. split; [done|]. intros c c1 c2 [A B] [A' B']. split; [by etransitivity | congruence]. Qed.

Lemma same_kept c c' : tasks_same c c' -> tasks_kept c c'.
Proof.
  intros [A E]. split; [done|]. intros F. unfold tasks_fresh. rewrite E. split; [intros n N; apply F; destruct A; lia|].
  intros k r L. by exists r.
Qed.

Lemma same_calm u c c' : tasks_same c c' -> calm (u, c) (u, c').
Proof.
  intros [A E]. split; [done|]. intros M k r t. cbn. rewrite E. intros L T B. exists r. split_and!; [done| |done]. by eapply busy_earlier.
Qed.

(** At one moment, with no clock read: nothing becomes busy. *)
Definition quiet (c c' : Conn) : Prop :=
  forall k r' t, tasks c' !! k = Some r' -> busy t r' = true ->
    exists r, tasks c !! k = Some r /\ busy t r = true /\ row_account r = row_account r'.

#[export] Instance quiet_preorder : PreOrder quiet.
Proof.
  split; [intros c k r t L B; by exists r|]. intros c c1 c2 K K' k r2 t L B.
  destruct (K' k r2 t L B) as (r1 & L1 & B1 & E1). destruct (K k r1 t L1 B1) as (r & L0 & B0 & E0).
  exists r. split_and!; [done..|congruence].
Qed.

Lemma within_same_kept {A} (m : M Conn A) : within tasks_same m -> within tasks_kept m.
Proof. intros H c. apply same_kept, H. Qed.

Lemma within_same_quiet {A} (m : M Conn A) : within tasks_same m -> within quiet m.
Proof. intros H c k r t. destruct (H c) as [_ ->]. intros L B. by exists r. Qed.

Lemma conn_kept {A} (m : M Conn A) : within tasks_kept m -> within kept (on_conn m).
Proof. intros H [u c]. unfold on_conn. cbn. specialize (H c). by destruct (m c) as [r c']. Qed.

Lemma conn_calm {A} (m : M Conn A) : within quiet m -> within calm (on_conn m).
Proof.
  intros H [u c]. unfold on_conn. cbn. specialize (H c). destruct (m c) as [r c']. split; [done|].
  intros M k r' t L T B. destruct (H k r' t L B) as (r0 & L0 & B0 & E0). exists r0. split_and!; [done| |done].
  by eapply busy_earlier.
Qed.

#[export] Hint Resolve within_same_kept within_same_quiet : keeps.

Lemma tick_clocks u : same_clocks u (tick u).
Proof. split_and!; cbn; try done. lia. Qed.

Lemma tick_calm u c : calm (u, c) (tick u, c).
Proof.
  pose proof (tick_clocks u) as T. split; [done|]. intros M k r t L N B. exists r. split_and!; [done| |done].
  eapply busy_earlier, B. pose proof (now_forward (u, c) (tick u, c) T M). lia.
Qed.

Lemma clock_kept : within kept clock_timestamp.
Proof. intros [u c]. split; [apply tick_clocks | reflexivity]. Qed.
Lemma clock_calm : within calm clock_timestamp.
Proof. intros [u c]. apply tick_calm. Qed.
Lemma utc_kept : within kept utc_now.
Proof. intros [u c]. split; [apply tick_clocks | reflexivity]. Qed.
Lemma utc_calm : within calm utc_now.
Proof. intros [u c]. apply tick_calm. Qed.

#[export] Hint Resolve conn_kept conn_calm clock_kept clock_calm utc_kept utc_calm : keeps.

Lemma tasks_same_uuid4 : within tasks_same uuid4.
Proof. intros c. split; [split; [done | cbn; lia] | done]. Qed.
Lemma tasks_same_execute f : (forall d, signal_dispatch_tasks (desk (f d)) = signal_dispatch_tasks (desk d)) -> within tasks_same (execute f).
Proof. intros H c. split; [split; [done | cbn; lia] | apply H]. Qed.
Lemma tasks_same_audits f : within tasks_same (execute (set_audit_events f)).
Proof. by apply tasks_same_execute. Qed.
Lemma tasks_same_runs f : within tasks_same (execute (set_message_processing_runs f)).
Proof. by apply tasks_same_execute. Qed.

#[export] Hint Resolve tasks_same_uuid4 tasks_same_audits tasks_same_runs : keeps.

Lemma tasks_same_audit e m a p : within tasks_same (_insert_audit e m a p).
Proof. unfold _insert_audit. within. Qed.
Lemma tasks_same_update_runs p f : within tasks_same (update_runs p f).
Proof. unfold update_runs. within. Qed.
Lemma tasks_same_insert_run k r : within tasks_same (insert_run k r).
Proof. unfold insert_run. within. Qed.

#[export] Hint Resolve tasks_same_audit tasks_same_update_runs tasks_same_insert_run : keeps.

(** [update_task] changes the one row, if its condition holds. *)
Lemma update_task_cases k p f c x c' :
  update_task k p f c = (x, c') ->
  x = Ok None /\ c' = c
  \/ exists r, tasks c !! k = Some r /\ p r = true /\ x = Ok (Some (f r))
     /\ c' = {| committed := committed c; current := set_signal_dispatch_tasks (<[k := f r]>) (current c); uuids := uuids c; clock := clock c |}.
Proof.
  unfold update_task, task_at, select, mbind, M_bind. cbv beta iota. intros H.
  destruct (tasks c !! k) as [r|] eqn:L; [destruct (p r) eqn:P|]; injection H as <- <-; [right; by exists r|by left..].
Qed.

Lemma update_kept k p f c x c' :
  (forall r, tasks c !! k = Some r -> p r = true -> row_kept r (f r)) -> update_task k p f c = (x, c') -> tasks_kept c c'.
Proof.
  intros K H. destruct (update_task_cases _ _ _ _ _ _ H) as [[_ ->]|(r & L & P & _ & ->)]; [reflexivity|].
  split; [split; [done | cbn; lia]|]. intros F. split.
  - intros n N. cbn. destruct (decide (k = "uuid-" +:+ int_str n)) as [->|D].
    + exfalso. rewrite (F n N) in L. done.
    + rewrite lookup_insert_ne by done. by apply F.
  - intros k' r' L'. cbn. destruct (decide (k = k')) as [<-|D].
    + rewrite lookup_insert_eq. exists (f r). split; [done|]. rewrite L in L'. injection L' as <-. by apply K.
    + rewrite lookup_insert_ne by done. by exists r'.
Qed.

Lemma update_calm u u' k p f c x c' :
  same_clocks u u' ->
  (forall r, tasks c !! k = Some r -> p r = true -> busy (now_at (u, c)) r = true /\ row_account (f r) = row_account r) ->
  update_task k p f c = (x, c') -> calm (u, c) (u', c').
Proof.
  intros T K H. split; [done|]. intros M k' r' t. cbn. intros L' N B.
  pose proof (now_forward (u, c) (u', c') T M) as Ft.
  destruct (update_task_cases _ _ _ _ _ _ H) as [[_ ->]|(r & L & P & _ & ->)];
    [exists r'; split_and!; [done| |done]; eapply busy_earlier, B; lia|].
  revert L'. cbn. destruct (decide (k = k')) as [<-|D].
  - rewrite lookup_insert_eq. intros [= <-]. destruct (K r L P) as [B0 E]. by exists r.
  - rewrite lookup_insert_ne by done. intros L'. exists r'. split_and!; [done| |done]. eapply busy_earlier, B. lia.
Qed.

Lemma update_task_kept k p f : (forall r, p r = true -> row_kept r (f r)) -> within tasks_kept (update_task k p f).
Proof. intros K c. destruct (update_task k p f c) as [x c'] eqn:H. eapply update_kept, H. auto. Qed.

Lemma update_task_quiet k p f :
  (forall r t, p r = true -> busy t (f r) = true -> busy t r = true /\ row_account (f r) = row_account r) ->
  within quiet (update_task k p f).
Proof.
  intros K c. destruct (update_task k p f c) as [x c'] eqn:H. cbn.
  destruct (update_task_cases _ _ _ _ _ _ H) as [[_ ->]|(r & L & P & _ & ->)]; [reflexivity|].
  intros k' r' t. cbn. destruct (decide (k = k')) as [<-|D].
  - rewrite lookup_insert_eq. intros [= <-] B. destruct (K r t P B) as [B0 E]. by exists r.
  - rewrite lookup_insert_ne by done. intros L' B. by exists r'.
Qed.

Lemma update_now_kept k p f : (forall t d r, p t d r = true -> row_kept r (f t r)) -> within kept (update_task_now k p f).
Proof. intros K. unfold update_task_now. within. apply conn_kept, update_task_kept. intros r. apply K. Qed.

Lemma update_now_calm k p f :
  (forall t0 d r t, p t0 d r = true -> busy t (f t0 r) = true -> busy t r = true /\ row_account (f t0 r) = row_account r) ->
  within calm (update_task_now k p f).
Proof. intros K. unfold update_task_now. within. apply conn_calm, update_task_quiet. intros r t. apply K. Qed.

(** *** Rows *)

Lemma not_settled r : str_in (tu_status (st_outcome r)) ["pending"; "leased"; "reconciling"] = true -> settled r = false.
Proof.
  unfold settled, str_in, SIGNAL_TERMINAL. cbn [existsb]. generalize (tu_status (st_outcome r)). intros st.
  rewrite !orb_true_iff, !String.eqb_eq. by intros [->|[->|[->|]]].
Qed.

Lemma leased_not_settled r : String.eqb (tu_status (st_outcome r)) "leased" = true -> settled r = false.
Proof. intros S. apply not_settled. unfold str_in. cbn [existsb]. by rewrite S, orb_true_r. Qed.

(** Changing the outcome of an open task keeps the rest of it. *)
Lemma outcome_kept status d n sr now r : settled r = false -> row_kept r (with_outcome status d n sr now r).
Proof. intros S. unfold row_kept. rewrite S. by split_and!. Qed.

Lemma worker_kept w r : settled r = false -> row_kept r (with_worker w r).
Proof. intros S. unfold row_kept. rewrite S. by split_and!. Qed.

Lemma execution_kept q x now r :
  settled r = false -> te_request (st_execution r) = None -> row_kept r (with_execution q x now r).
Proof. intros S N. unfold row_kept. rewrite S, N. by split_and!. Qed.

Lemma outcome_ends status d n sr now t r :
  str_in status ["leased"; "reconciling"] = false -> busy t (with_outcome status d n sr now r) = false.
Proof.
  unfold busy. cbn. intros S. destruct (String.eqb_spec status "leased") as [->|]; [done|].
  by destruct (String.eqb_spec status "reconciling") as [->|].
Qed.

Lemma str_in_of x l l' : str_in x l = true -> forallb (fun y => str_in y l') l = true -> str_in x l' = true.
Proof.
  unfold str_in. intros I F. apply existsb_exists in I as (y & Iy & E). apply String.eqb_eq in E as ->.
  rewrite forallb_forall in F. by apply F.
Qed.

Lemma terminal_ends status : str_in status SIGNAL_TERMINAL = true -> str_in status ["leased"; "reconciling"] = false.
Proof.
  unfold str_in, SIGNAL_TERMINAL. cbn [existsb]. intros H.
  destruct (String.eqb_spec status "leased") as [->|]; [done|]. by destruct (String.eqb_spec status "reconciling") as [->|].
Qed.

(** *** Operations *)

Lemma kept_dispose task w : within tasks_kept (_dispose_expired task w).
Proof.
  unfold _dispose_expired. within. apply update_task_kept. intros r P.
  assert (S : settled r = false) by (apply not_settled; by eapply str_in_of).
  unfold row_kept. rewrite S. by split_and!.
Qed.

Lemma quiet_dispose task w : within quiet (_dispose_expired task w).
Proof. unfold _dispose_expired. within. apply update_task_quiet. by intros r t _ B. Qed.

Lemma claimable_open now r : claimable_at now r = true -> settled r = false /\ te_request (st_execution r) = None.
Proof.
  unfold claimable_at. rewrite !andb_true_iff, negb_true_iff, bool_decide_eq_false. intros [[S N] _]. split.
  - apply not_settled. by eapply str_in_of.
  - by apply eq_None_not_Some.
Qed.

Lemma kept_lease task w l : within tasks_kept (_lease_task task w l).
Proof.
  unfold _lease_task. within. apply update_task_kept. intros r P. destruct (claimable_open _ _ P) as [S N].
  unfold row_kept. rewrite S, N. by split_and!.
Qed.

#[export] Hint Resolve kept_dispose quiet_dispose kept_lease : keeps.

Lemma kept_live a : within kept (_account_has_live_lease a).
Proof. unfold _account_has_live_lease. within. Qed.
Lemma calm_live a : within calm (_account_has_live_lease a).
Proof. unfold _account_has_live_lease. within. Qed.
Lemma kept_peek a s p : within kept (_peek_claim_candidate a s p).
Proof. unfold _peek_claim_candidate. within. Qed.
Lemma calm_peek a s p : within calm (_peek_claim_candidate a s p).
Proof. unfold _peek_claim_candidate. within. Qed.
Lemma kept_claimable t : within kept (_row_is_claimable t).
Proof. unfold _row_is_claimable. within. Qed.
Lemma calm_claimable t : within calm (_row_is_claimable t).
Proof. unfold _row_is_claimable. within. Qed.
Lemma kept_ttl t o : within kept (_task_ttl_expired t o).
Proof. unfold _task_ttl_expired. within. Qed.
Lemma calm_ttl t o : within calm (_task_ttl_expired t o).
Proof. unfold _task_ttl_expired. within. Qed.

#[export] Hint Resolve kept_live calm_live kept_peek calm_peek kept_claimable calm_claimable kept_ttl calm_ttl : keeps.

Lemma kept_try w l o p k a : within kept (try_candidate w l o p k a).
Proof. unfold try_candidate. within. Qed.

#[export] Hint Resolve kept_try : keeps.

Lemma kept_loop n w l a o p s : within kept (claim_loop n w l a o p s).
Proof. revert s. induction n as [|n IH]; intros s; cbn [claim_loop]; within; apply IH. Qed.

#[export] Hint Resolve kept_loop : keeps.

Lemma kept_finish id t rs now : within kept (finish_claim_run id t rs now).
Proof. unfold finish_claim_run. within. Qed.
Lemma calm_finish id t rs now : within calm (finish_claim_run id t rs now).
Proof. unfold finish_claim_run. within. Qed.

#[export] Hint Resolve kept_finish calm_finish : keeps.

Lemma kept_complete k t st d n sr rs : within kept (complete_body k t st d n sr rs).
Proof.
  unfold complete_body. within. apply update_now_kept. intros t0 d0 r P. apply outcome_kept, leased_not_settled.
  by apply andb_true_iff in P as [[_ P]%andb_true_iff _].
Qed.

Lemma calm_complete k t st d n sr rs : str_in st SIGNAL_TERMINAL = true -> within calm (complete_body k t st d n sr rs).
Proof.
  intros T. unfold complete_body. within. apply update_now_calm. intros t0 d0 r t1 _ B.
  rewrite outcome_ends in B by by apply terminal_ends. done.
Qed.

(** *** Under the lock of a claim *)

Lemma lock_claim_inv task u c x w' :
  lock_execution_claim task (u, c) = (x, w') ->
  (exists e, x = Raise e) /\ kept (u, c) w' /\ calm (u, c) w'
  \/ x = Ok task /\ w' = (tick u, c)
     /\ exists r, tasks c !! sk_task_id task = Some r /\ claim_current task (now_at (u, c)) r (current c) = true.
Proof.
  unfold lock_execution_claim. destruct (negb _).
  { intros [= <- <-]. left. split; [by eexists|]. split; reflexivity. }
  unfold clock_timestamp, on_conn, select, mbind, M_bind, task_at. cbn. intros H.
  destruct (tasks c !! sk_task_id task) as [r|] eqn:L.
  2:{ injection H as <- <-. left. split; [by eexists|]. split; [apply (clock_kept (u, c)) | apply (tick_calm u c)]. }
  destruct (claim_current _ _ _ _) eqn:C; injection H as <- <-.
  - right. split_and!; [done..|]. by exists r.
  - left. split; [by eexists|]. split; [apply (clock_kept (u, c)) | apply (tick_calm u c)].
Qed.

Lemma claim_current_open task t r d :
  claim_current task t r d = true ->
  tu_status (st_outcome r) = "leased" /\ te_request (st_execution r) = None
  /\ lease_after t (tc_lease_expires_at (st_claim r)) = true /\ settled r = false /\ busy t r = true.
Proof.
  unfold claim_current. rewrite !andb_true_iff, negb_true_iff, bool_decide_eq_false, !String.eqb_eq. intros [[[[[_ _] S] N] L] _].
  split_and!; [done|by apply eq_None_not_Some|done|by apply leased_not_settled, String.eqb_eq|].
  unfold busy. by rewrite S, L.
Qed.

(** An update right after the lock changes a task that is leased, busy and has no request. *)
Lemma locked_update {A} task k p f (rest : option task_row -> M World A) :
  k = sk_task_id task ->
  (forall t d r, settled r = false -> te_request (st_execution r) = None -> p t d r = true -> row_kept r (f t r)) ->
  (forall x, within kept (rest x) /\ within calm (rest x)) ->
  within kept (_ ← lock_execution_claim task; x ← update_task_now k p f; rest x)
  /\ within calm (_ ← lock_execution_claim task; x ← update_task_now k p f; rest x).
Proof.
  intros -> K R.
  assert (G : forall w, kept w (snd ((_ ← lock_execution_claim task; x ← update_task_now (sk_task_id task) p f; rest x) w))
                     /\ calm w (snd ((_ ← lock_execution_claim task; x ← update_task_now (sk_task_id task) p f; rest x) w))).
  2:{ split; intros w; apply G. }
  intros [u c]. destruct (lock_execution_claim task (u, c)) as [x w1] eqn:E.
  unfold mbind, M_bind. rewrite E.
  destruct (lock_claim_inv _ _ _ _ _ E) as [([e ->] & Hk & Hc)|(-> & -> & r & L & C)]; [done|].
  destruct (claim_current_open _ _ _ _ C) as (S & N & La & St & B). clear E.
  set (m := update_task_now (sk_task_id task) p f).
  assert (M : kept (u, c) (snd (m (tick u, c))) /\ calm (u, c) (snd (m (tick u, c)))).
  { unfold m, update_task_now, clock_timestamp, on_conn, select, mbind, M_bind. cbn [fst snd]. cbv beta iota.
    destruct (update_task _ _ _ c) as [x' c'] eqn:U. cbn [snd]. split.
    - split; [exact (transitivity (tick_clocks u) (tick_clocks (tick u)))|]. cbn [snd].
      eapply update_kept, U. intros r' L' P. rewrite L in L'. injection L' as <-. by apply K in P.
    - eapply update_calm, U; [exact (transitivity (tick_clocks u) (tick_clocks (tick u)))|].
      intros r' L' P. rewrite L in L'. injection L' as <-. split; [done|]. apply K in P; [|done..].
      destruct P as [E _]. unfold row_account. by rewrite E. }
  fold m. destruct (m (tick u, c)) as [[x'|e] w2]; cbn [snd] in *; [|done]. destruct (R x') as [Rk Rc].
  split; etransitivity; [apply M|apply Rk|apply M|apply Rc].
Qed.

Lemma kept_lock task : within kept (lock_execution_claim task).
Proof. unfold lock_execution_claim. within. Qed.
Lemma calm_lock task : within calm (lock_execution_claim task).
Proof. unfold lock_execution_claim. within. Qed.

#[export] Hint Resolve kept_lock calm_lock : keeps.

Lemma moves_decision task sem st sn : within kept (decision_body task sem st sn) /\ within calm (decision_body task sem st sn).
Proof.
  unfold decision_body. apply (locked_update task); [done| |intros x; split; within].
  intros t d r S _ _. by apply outcome_kept.
Qed.

Lemma moves_register task body : within kept (register_body task body) /\ within calm (register_body task body).
Proof.
  unfold register_body. destruct (text_param (dget "decision_id" body)) as [id|e].
  2:{ split; (apply within_bind; [apply _ | auto with keeps | intros t]); [exact (within_raise kept e) | exact (within_raise calm e)]. }
  refine (locked_update task _ _ _ _ eq_refl _ _); [|intros x; split; within].
  intros t d r S N _. unfold row_kept. rewrite S, N. by split_and!.
Qed.

Lemma store_row t d task r :
  same_claim task r && String.eqb (tu_status (st_outcome r)) "leased"
  && negb (bool_decide (is_Some (te_context (st_execution r)))) && negb (bool_decide (is_Some (te_request (st_execution r))))
  && lease_after t (tc_lease_expires_at (st_claim r)) && run_leased t r d = true ->
  settled r = false /\ te_request (st_execution r) = None.
Proof.
  rewrite !andb_true_iff, !negb_true_iff, !bool_decide_eq_false. intros [[[[[_ S] _] N] _] _].
  split; [by apply leased_not_settled | by apply eq_None_not_Some].
Qed.

Lemma kept_store task v : within kept (store_execution_context task v).
Proof.
  unfold store_execution_context. within. apply update_now_kept. intros t' d r [S N]%store_row.
  unfold row_kept. rewrite S, N. by split_and!.
Qed.

Lemma calm_store task v : within calm (store_execution_context task v).
Proof. unfold store_execution_context. within. by apply update_now_calm. Qed.

#[export] Hint Resolve kept_store calm_store : keeps.

Lemma kept_context task : within kept (context_body task).
Proof. unfold context_body, capture_versions. within. apply conn_kept. within. Qed.
Lemma calm_context task : within calm (context_body task).
Proof. unfold context_body, capture_versions. within. apply conn_calm. within. Qed.

Lemma kept_expire k : within kept (expire_unbound k).
Proof.
  unfold expire_unbound. within. apply conn_kept, update_task_kept. intros r' P. apply outcome_kept, not_settled. by eapply str_in_of.
Qed.
Lemma calm_expire k : within calm (expire_unbound k).
Proof. unfold expire_unbound. within. apply conn_calm, update_task_quiet. by intros r' t' _ B. Qed.

Lemma kept_leave task x : within kept (leave_reconciling task x).
Proof.
  unfold leave_reconciling. apply update_now_kept. intros t d r [_ P]%andb_true_iff. apply outcome_kept, not_settled. by eapply str_in_of.
Qed.

Lemma calm_leave task x : within calm (leave_reconciling task x).
Proof.
  unfold leave_reconciling. apply update_now_calm. intros t0 d r t P _. split; [|done].
  rewrite !andb_true_iff in P. destruct P as [[_ Q] S]. unfold busy. unfold str_in in S. cbn [existsb] in S.
  destruct (te_request (st_execution r)); [|done]. destruct (String.eqb _ "reconciling"); [done|].
  rewrite !orb_false_r in S. rewrite S. by rewrite orb_true_r.
Qed.

#[export] Hint Resolve kept_expire calm_expire kept_leave calm_leave : keeps.

Lemma kept_read k : within tasks_same (read_task k).
Proof. unfold read_task. within. Qed.

#[export] Hint Resolve kept_read : keeps.

Lemma moves_settle task x : within kept (settle_uncertain task x) /\ within calm (settle_uncertain task x).
Proof. unfold settle_uncertain. split; within. Qed.

Lemma quiet_note task od : within quiet (note_detail task od).
Proof. unfold note_detail. within. by apply update_task_quiet. Qed.

Lemma calm_uncertainty task x od : within calm (uncertainty_body task x od).
Proof.
  pose proof quiet_note. pose proof (fun t x => proj2 (moves_settle t x)). unfold uncertainty_body. within; auto with keeps.
Qed.

Lemma read_run k (u : Wall) c :
  on_conn (read_task k) (u, c) = match tasks c !! k with
    | Some r => (Ok (_task_from_row k r), (u, c))
    | None => (Raise (StaleClaimError "registered signal task disappeared"), (u, c))
    end.
Proof. unfold on_conn, read_task, select, task_at, mbind, M_bind. cbn. by destruct (tasks c !! k). Qed.

Lemma note_kept task od c :
  (forall r, tasks c !! sk_task_id task = Some r -> settled r = false) -> tasks_kept c (snd (note_detail task od c)).
Proof.
  intros S. unfold note_detail. destruct od as [od|]; [|reflexivity]. unfold mbind, M_bind.
  destruct (update_task _ _ _ c) as [x' c'] eqn:U.
  assert (K : tasks_kept c c') by (eapply update_kept, U; intros r L _; by apply outcome_kept, S). by destruct x'.
Qed.

Lemma kept_uncertainty task x od : within kept (uncertainty_body task x od).
Proof.
  intros [u c]. unfold uncertainty_body. unfold mbind at 1, M_bind at 1. rewrite read_run.
  destruct (tasks c !! sk_task_id task) as [r|] eqn:L; [|reflexivity]. cbv beta iota.
  destruct (_ || _) eqn:G1; [reflexivity|]. destruct (_ || _ || _ || _); [reflexivity|].
  unfold mbind at 1, M_bind at 1, on_conn at 1, select. cbn [fst snd]. destruct (sk_processing_run_id task ≫= _); [|reflexivity].
  apply orb_false_iff in G1 as [I T]. cbn in I, T.
  assert (S : forall r', tasks c !! sk_task_id task = Some r' -> settled r' = false).
  { intros r' L'. rewrite L in L'. injection L' as <-. unfold settled. rewrite T, I. by rewrite andb_false_r. }
  pose proof (note_kept task od c S) as N. unfold mbind, M_bind, on_conn. cbn [fst snd].
  destruct (note_detail task od c) as [[[]|e] c']; cbn [snd] in *; [|done].
  transitivity (u, c'); [done|]. apply (moves_settle task x).
Qed.

Lemma new_task_quiet q s rel now t : busy t (new_task q s rel now) = false.
Proof. unfold busy, new_task. cbn. by destruct (str_or (eq_skipped_reason q) None). Qed.

(** The connection after a task was inserted under the next id. *)
Definition with_new_task (row : task_row) (c : Conn) : Conn := {|
  committed := committed c;
  current := set_signal_dispatch_tasks (<["uuid-" +:+ int_str (uuids c) := row]>) (current c);
  uuids := uuids c + 1; clock := clock c |}.

Lemma insert_new_kept row c : tasks_kept c (with_new_task row c).
Proof.
  split; [split; [done | cbn; lia]|]. intros F. split.
  - intros n N. cbn in N. cbn. rewrite lookup_insert_ne; [apply F; lia|]. intros E%uuid_inj. lia.
  - intros k r L. exists r. split; [|done]. cbn. rewrite lookup_insert_ne; [done|]. intros <-. rewrite F in L; [done | lia].
Qed.

Lemma insert_new_quiet row c : (forall t, busy t row = false) -> quiet c (with_new_task row c).
Proof.
  intros B k r t. cbn. destruct (decide ("uuid-" +:+ int_str (uuids c) = k)) as [<-|D].
  - rewrite lookup_insert_eq. intros [= <-] B'. by rewrite B in B'.
  - rewrite lookup_insert_ne by done. intros L B'. by exists r.
Qed.

(** Enqueueing leaves the tasks alone, or inserts one and audits it. *)
Lemma enqueue_cases q c :
  (exists n, snd (enqueue_signal_task q c) = {| committed := committed c; current := current c; uuids := uuids c + n; clock := clock c |} /\ 0 <= n)
  \/ exists s rel, let row := new_task q s rel (clock c) in
       tasks_same (with_new_task row c) (snd (enqueue_signal_task q c)).
Proof.
  assert (Z0 : exists n, c = {| committed := committed c; current := current c; uuids := uuids c + n; clock := clock c |} /\ 0 <= n).
  { exists 0. rewrite Z.add_0_r. split; [by destruct c | lia]. }
  unfold enqueue_signal_task, mbind at 1, M_bind at 1, mlift. destruct (_validate_purpose _); [|by left].
  destruct (_ && _); [by left|]. set (s := {| si_source_platform := _ |}).
  unfold _lookup_related_task_id. set (rel := fun d : Db => fst <$> _).
  unfold mbind, M_bind, select, uuid4, get_now. cbv beta iota. cbn [current uuids committed clock].
  destruct (task_with_source s (current c)) as [[id row]|].
  { destruct (negb _); left; exists 1; cbn; (split; [done | lia]). }
  destruct (bool_decide _); cbn [check mret M_ret mraise]; cbv beta iota; [right|left; exists 1; cbn; (split; [done|lia])].
  exists s, (rel (current c)). cbv zeta. unfold execute at 1. cbv beta iota. cbn [current uuids committed clock].
  match goal with |- context [_insert_audit ?e ?m ?a ?p ?c1] =>
    pose proof (tasks_same_audit e m a p c1) as S; destruct (_insert_audit e m a p c1) as [[[]|x] c2] end; exact S.
Qed.

Lemma kept_enqueue q : within tasks_kept (enqueue_signal_task q).
Proof.
  intros c. destruct (enqueue_cases q c) as [(n & -> & N)|(s & rel & S)].
  - apply same_kept. split; [split; [done | cbn; lia] | done].
  - etransitivity; [apply insert_new_kept | by apply same_kept].
Qed.

Lemma quiet_enqueue q : within quiet (enqueue_signal_task q).
Proof.
  intros c. destruct (enqueue_cases q c) as [(n & -> & N)|(s & rel & [_ S])]; [by intros k r t L B; exists r|].
  etransitivity; [apply insert_new_quiet; intros t; apply new_task_quiet|]. intros k r t. rewrite S. intros L B. by exists r.
Qed.

(** ** One claim at a time *)

(** No two tasks of an account are busy. *)
Definition one_live (w : World) : Prop := forall k1 k2 r1 r2,
  tasks (snd w) !! k1 = Some r1 -> tasks (snd w) !! k2 = Some r2 -> row_account r1 = row_account r2 ->
  busy (now_at w) r1 = true -> busy (now_at w) r2 = true -> k1 = k2.

Lemma calm_one_live w w' : monotone (fst w) -> calm w w' -> one_live w -> one_live w'.
Proof.
  intros M [_ K] O k1 k2 r1 r2 L1 L2 A B1 B2.
  destruct (K M k1 r1 _ L1 (Z.le_refl _) B1) as (r1' & L1' & B1' & E1).
  destruct (K M k2 r2 _ L2 (Z.le_refl _) B2) as (r2' & L2' & B2' & E2).
  eapply (O k1 k2 r1' r2'); try done. congruence.
Qed.

Lemma account_busy_false t a d k r :
  account_busy t a d = false -> signal_dispatch_tasks (desk d) !! k = Some r -> row_account r = a -> busy t r = false.
Proof.
  intros B L E. unfold account_busy in B. apply not_true_iff_false in B. apply not_true_iff_false. intros T. apply B.
  apply existsb_exists. exists (k, r). split.
  - apply list_elem_of_In. by apply elem_of_map_to_list.
  - cbn. by rewrite E, String.eqb_refl, T.
Qed.

(** Every other task is as it was. *)
Definition others_same (k : string) (c c' : Conn) : Prop :=
  forall k' r, k' <> k -> tasks c' !! k' = Some r -> tasks c !! k' = Some r.

#[export] Instance others_same_preorder k : PreOrder (others_same k).
Proof. split; [by intros c k' r|]. intros c c1 c2 A B k' r D L. by apply A, B. Qed.

Lemma within_others {A} k (m : M Conn A) : within tasks_same m -> within (others_same k) m.
Proof. intros H c k' r _. by destruct (H c) as [_ ->]. Qed.

#[export] Hint Resolve within_others : keeps.

Lemma update_others k p f : within (others_same k) (update_task k p f).
Proof.
  intros c k' r D. destruct (update_task _ _ _ c) as [x c'] eqn:U. cbn.
  destruct (update_task_cases _ _ _ _ _ _ U) as [[_ ->]|(r0 & L & _ & _ & ->)]; [done|]. cbn. by rewrite lookup_insert_ne.
Qed.

Lemma lease_others task w l : within (others_same (sk_task_id task)) (_lease_task task w l).
Proof. unfold _lease_task. within. apply update_others. Qed.

(** A run that only reads. *)
Definition looks (w w' : World) : Prop := same_clocks (fst w) (fst w') /\ snd w' = snd w.

#[export] Instance looks_preorder : PreOrder looks.
Proof. split; [done|]. intros w w1 w2 [A B] [A' B']. split; [by etransitivity | congruence]. Qed.

Lemma looks_clock : within looks clock_timestamp.
Proof. intros [u c]. split; [apply tick_clocks | done]. Qed.
Lemma looks_utc : within looks utc_now.
Proof. intros [u c]. split; [apply tick_clocks | done]. Qed.
Lemma looks_select {A} (f : Db -> A) : within looks (on_conn (select f)).
Proof. by intros [u c]. Qed.
Lemma looks_now : within looks (on_conn get_now).
Proof. by intros [u c]. Qed.

#[export] Hint Resolve looks_clock looks_utc looks_select looks_now : keeps.

Lemma looks_claimable t : within looks (_row_is_claimable t).
Proof. unfold _row_is_claimable. within. Qed.
Lemma looks_ttl t o : within looks (_task_ttl_expired t o).
Proof. unfold _task_ttl_expired. within. Qed.
Lemma looks_peek a s p : within looks (_peek_claim_candidate a s p).
Proof. unfold _peek_claim_candidate. within. Qed.

(** Reading a row that is there cannot fail. *)
Lemma claimable_run t w : exists b w', _row_is_claimable t w = (Ok b, w') /\ looks w w'.
Proof.
  pose proof (looks_claimable t w) as K. unfold _row_is_claimable in *.
  destruct (sk_execution_request t); [by eexists _, _|]. destruct (String.eqb _ "pending"); [by eexists _, _|].
  destruct (negb _); [by eexists _, _|]. destruct (sk_lease_expires_at t); by eexists _, _.
Qed.

Lemma ttl_run t o w : exists b w', _task_ttl_expired t o w = (Ok b, w') /\ looks w w'.
Proof. pose proof (looks_ttl t o w) as K. eexists _, _. split; [done | exact K]. Qed.

Lemma dispose_run task w c : exists c1, _dispose_expired task w c = (Ok tt, c1).
Proof.
  assert (U : forall k p f c, exists o c1, update_task k p f c = (Ok o, c1)).
  { intros k p f c0. destruct (update_task k p f c0) as [y c2] eqn:U.
    destruct (update_task_cases _ _ _ _ _ _ U) as [[-> _]|(? & _ & _ & -> & _)]; by eexists _, _. }
  unfold _dispose_expired, get_now, mbind, M_bind.
  destruct (sk_processing_run_id task) as [run|]; [edestruct update_runs_run as (rows & -> & _)|];
    cbn [mret M_ret]; edestruct U as (o & c1 & ->); by destruct o; eexists.
Qed.

(** What a candidate that is there comes to: it is passed over, or disposed of,
    or leased, the last two with no busy task of its account. *)
Lemma try_cases w l o p k a u c x w' r :
  try_candidate w l o p k a (u, c) = (x, w') -> tasks c !! k = Some r ->
  (x = Ok Skipped /\ looks (u, c) w')
  \/ exists u', same_clocks u u' /\ account_busy (now_at (u, c)) a (current c) = false
     /\ ((exists c1, _dispose_expired (_task_from_row k r) w c = (Ok tt, c1) /\ x = Ok Disposed /\ w' = (u', c1))
         \/ exists y c1, _lease_task (_task_from_row k r) w l c = (y, c1) /\ w' = (u', c1)
              /\ x = match y with Ok task => Ok (Claimed task) | Raise e => Raise e end).
Proof.
  intros H L. unfold try_candidate in H. unfold mbind at 1, M_bind at 1 in H.
  unfold _account_has_live_lease, clock_timestamp, on_conn at 1, select at 1 in H. unfold mbind at 1, M_bind at 1 in H. cbn [fst snd] in H.
  change (server_clock u (reading u)) with (now_at (u, c)) in H.
  destruct (account_busy (now_at (u, c)) a (current c)) eqn:B.
  { injection H as <- <-. left. split; [done|]. split; [apply tick_clocks | done]. }
  unfold mbind at 1, M_bind at 1, on_conn at 1, select at 1, task_at in H. cbn [fst snd] in H. rewrite L in H. cbv beta iota in H.
  set (fresh := _task_from_row k r) in *. destruct (negb (String.eqb (sk_processing_purpose fresh) p)).
  { injection H as <- <-. left. split; [done|]. split; [apply tick_clocks | done]. }
  destruct (claimable_run fresh (tick u, c)) as (b & [u1 c1] & E1 & [C1 S1]). cbn in C1, S1. subst c1.
  unfold mbind at 1, M_bind at 1 in H. rewrite E1 in H.
  assert (T1 : same_clocks u u1) by exact (transitivity (tick_clocks u) C1).
  destruct (negb b); [injection H as <- <-; by left|].
  destruct (ttl_run fresh o (u1, c)) as (e & [u2 c2] & E2 & [C2 S2]). cbn in C2, S2. subst c2.
  unfold mbind at 1, M_bind at 1 in H. rewrite E2 in H.
  assert (T2 : same_clocks u u2) by exact (transitivity T1 C2).
  right. exists u2. split_and!; [done..|]. destruct e.
  - left. unfold mbind, M_bind, on_conn in H. cbn [fst snd] in H.
    destruct (dispose_run fresh w c) as [c1 D]. rewrite D in H. injection H as <- <-. by exists c1.
  - right. unfold mbind, M_bind, on_conn in H. cbn [fst snd] in H.
    destruct (_lease_task fresh w l c) as [y c1] eqn:D. exists y, c1.
    by destruct y; injection H as <- <-.
Qed.

Lemma peek_run a s p (u : Wall) c :
  exists o, _peek_claim_candidate a s p (u, c) = (Ok o, (tick u, c))
  /\ match o with
     | Some (k, r) => tasks c !! k = Some r /\ claimable_at (clock c) r = true /\ str_in (row_account r) s = false
     | None => True
     end.
Proof.
  eexists. split; [done|]. set (l := candidates _ _ _ _ _ _). destruct (hd_error (sort_by first_task l)) as [[k r]|] eqn:H; [|done].
  assert (I : (k, r) ∈ l).
  { rewrite <- (sort_by_perm first_task l). destruct (sort_by first_task l); [done|]. injection H as ->. by left. }
  apply list_elem_of_filter in I as [I L]. apply elem_of_map_to_list in L.
  cbn in I. rewrite !andb_true_iff, !negb_true_iff in I. by destruct I as [[[[I1 _] _] _] I2].
Qed.

Lemma looks_kept w w' : looks w w' -> kept w w'.
Proof. destruct w, w'. cbn. intros [T E]. cbn in E. subst. by split. Qed.

Lemma looks_calm w w' : looks w w' -> calm w w'.
Proof.
  destruct w as [u c], w' as [u' c']. intros [T E]. cbn in T, E. subst c'. split; [done|]. intros M k r t L N B.
  exists r. split_and!; [done| |done]. eapply busy_earlier, B. pose proof (now_forward (u, c) (u', c) T M). lia.
Qed.

Lemma disposed_calm task w u u' c c1 :
  same_clocks u u' -> _dispose_expired task w c = (Ok tt, c1) -> calm (u, c) (u', c1).
Proof.
  intros T D. transitivity (u', c); [by apply looks_calm|].
  pose proof (conn_calm _ (quiet_dispose task w) (u', c)) as K. unfold on_conn in K. cbn [fst snd] in K. by rewrite D in K.
Qed.

(** The task leased is the only busy one of its account. *)
Lemma leased_one_live k r w l u u' c y c1 :
  same_clocks u u' -> monotone u -> tasks_fresh c -> one_live (u, c) -> tasks c !! k = Some r ->
  account_busy (now_at (u, c)) (row_account r) (current c) = false ->
  _lease_task (_task_from_row k r) w l c = (y, c1) -> one_live (u', c1).
Proof.
  intros T M F O L B H. set (task := _task_from_row k r) in *.
  pose proof (lease_others task w l c) as Ot. pose proof (kept_lease task w l c) as [_ K]. rewrite H in Ot, K. cbn in Ot, K.
  destruct (K F) as [_ K']. destruct (K' k r L) as (r' & L' & E & _). pose proof (now_forward (u, c) (u', c1) T M) as N.
  assert (G : forall k2 r2, k2 <> k -> tasks c1 !! k2 = Some r2 -> row_account r2 = row_account r' -> busy (now_at (u', c1)) r2 = false).
  { intros k2 r2 D L2 A. apply not_true_iff_false. intros B2. apply (Ot _ _ D) in L2.
    apply (busy_earlier (now_at (u, c))) in B2; [|lia].
    rewrite (account_busy_false _ _ _ _ _ B L2) in B2; [done|]. rewrite A. unfold row_account. by rewrite E. }
  intros k1 k2 r1 r2 L1 L2 A B1 B2. cbn in L1, L2. destruct (decide (k1 = k)) as [->|D1], (decide (k2 = k)) as [->|D2]; [done|..].
  - rewrite L' in L1. injection L1 as <-. rewrite (G k2 r2) in B2; done.
  - rewrite L' in L2. injection L2 as <-. rewrite (G k1 r1) in B1; done.
  - apply (Ot _ _ D1) in L1. apply (Ot _ _ D2) in L2. eapply O; [exact L1|exact L2|done|exact (busy_earlier _ _ _ N B1)|exact (busy_earlier _ _ _ N B2)].
Qed.

Lemma loop_one_live n w l a o p s u c y w' :
  monotone u -> tasks_fresh c -> one_live (u, c) -> claim_loop n w l a o p s (u, c) = (Ok y, w') -> one_live w'.
Proof.
  revert s u c. induction n as [|n IH]; intros s u c M F O H; cbn [claim_loop] in H; [done|].
  unfold mbind at 1, M_bind at 1 in H. destruct (peek_run a s p u c) as ([[k r]|] & E & P); rewrite E in H.
  2:{ injection H as _ <-. eapply calm_one_live, O; [done | apply tick_calm]. }
  destruct P as (L & _ & _). unfold mbind at 1, M_bind at 1 in H.
  destruct (try_candidate w l o p k (row_account r) (tick u, c)) as [x w1] eqn:T.
  assert (M1 : monotone (tick u)) by exact M.
  assert (O1 : one_live (tick u, c)) by (eapply calm_one_live, O; [done | apply tick_calm]).
  destruct (try_cases _ _ _ _ _ _ _ _ _ _ _ T L) as [[-> K]|(u' & U & B & [(c1 & D & -> & ->)|(y' & c1 & D & -> & ->)])].
  - destruct w1 as [u1 c1]. pose proof K as [U E1]. cbn in U, E1. subst c1. eapply IH, H; [by eapply same_clocks_monotone | done|].
    eapply calm_one_live, O1; [done | by apply looks_calm].
  - eapply IH, H; [by eapply same_clocks_monotone| |].
    + pose proof (kept_dispose (_task_from_row k r) w c) as [_ K]. rewrite D in K. by apply K.
    + eapply calm_one_live, O1; [done | by eapply disposed_calm].
  - destruct y' as [task|e]; [|done]. injection H as _ <-. eapply (leased_one_live k r w l (tick u)); eauto.
Qed.

(** ** Termination *)

(** The tasks the loop may still come to. *)
Definition open_tasks (skipped : list string) (t : gmap string task_row) : nat :=
  size (filter (fun kr => str_in (tu_status (st_outcome (snd kr))) ["pending"; "leased"]
                          && negb (str_in (row_account (snd kr)) skipped) = true) t).

Lemma fewer_open s s' t t' k r :
  t !! k = Some r -> str_in (tu_status (st_outcome r)) ["pending"; "leased"] = true -> str_in (row_account r) s = false ->
  (forall x, str_in x s = true -> str_in x s' = true) ->
  (forall k' r', t' !! k' = Some r' -> t !! k' = Some r' \/ str_in (tu_status (st_outcome r')) ["pending"; "leased"] = false) ->
  (forall r', t' !! k = Some r' -> str_in (tu_status (st_outcome r')) ["pending"; "leased"] = false \/ str_in (row_account r') s' = true) ->
  (open_tasks s' t' < open_tasks s t)%nat.
Proof.
  intros L S A Sub Old Gone. unfold open_tasks. apply map_subset_size, map_subset_alt. split.
  - apply map_subseteq_spec. intros k' r' [L' P]%map_lookup_filter_Some. cbn in P. apply andb_true_iff in P as [P Q].
    apply map_lookup_filter_Some. destruct (Old k' r' L') as [L0|N]; [|congruence]. split; [done|]. cbn. rewrite P. cbn.
    apply negb_true_iff. apply negb_true_iff in Q. apply not_true_iff_false. intros X. by rewrite (Sub _ X) in Q.
  - exists k. split; [|exists r; apply map_lookup_filter_Some; split; [done|]; cbn; by rewrite S, A].
    apply map_lookup_filter_None. right. intros r' L' P. cbn in P. apply andb_true_iff in P as [P Q]. apply negb_true_iff in Q.
    destruct (Gone r' L') as [N|N]; congruence.
Qed.

(** [m] never raises [e]. *)
Definition never {S A} (e : exn) (m : M S A) : Prop := forall s, fst (m s) <> Raise e.

Lemma never_bind {S A B} e (m : M S A) (k : A -> M S B) : never e m -> (forall a, never e (k a)) -> never e (m ≫= k).
Proof.
  intros H K s. unfold mbind, M_bind. specialize (H s). destruct (m s) as [[a|x] s']; cbn in *; [apply K|].
  intros [= ->]. by apply H.
Qed.

Lemma lease_never task w l : never out_of_fuel (_lease_task task w l).
Proof.
  assert (U : forall k p f, never out_of_fuel (update_task k p f)).
  { intros k p f s. destruct (update_task k p f s) as [y c2] eqn:E.
    by destruct (update_task_cases _ _ _ _ _ _ E) as [[-> _]|(? & _ & _ & -> & _)]. }
  unfold _lease_task, update_runs, insert_run, check, _insert_audit.
  repeat first [ match goal with |- forall _, _ => intro end | match goal with |- never _ (_ ≫= _) => apply never_bind end
    | apply U | solve [intros ?; cbn; discriminate] | case_match ].
Qed.

Lemma dispose_others task w : within (others_same (sk_task_id task)) (_dispose_expired task w).
Proof. unfold _dispose_expired. within. apply update_others. Qed.

Lemma update_task_run k p f c r :
  tasks c !! k = Some r -> p r = true ->
  update_task k p f c = (Ok (Some (f r)), {| committed := committed c;
    current := set_signal_dispatch_tasks (<[k := f r]>) (current c); uuids := uuids c; clock := clock c |}).
Proof.
  intros L P. destruct (update_task k p f c) as [x c'] eqn:H. unfold update_task, task_at, select, mbind, M_bind in H.
  rewrite L, P in H. by injection H as <- <-.
Qed.

(** A task disposed of is expired. *)
Lemma disposed_row k r w c c1 :
  _dispose_expired (_task_from_row k r) w c = (Ok tt, c1) -> tasks c !! k = Some r ->
  str_in (tu_status (st_outcome r)) ["pending"; "leased"] = true ->
  forall r', tasks c1 !! k = Some r' -> tu_status (st_outcome r') = "expired".
Proof.
  intros D L S. unfold _dispose_expired in D. apply mbind_inv_ok in D as (now & c2 & [-> ->]%get_now_inv & D).
  apply mbind_inv_ok in D as ([] & c2 & H & D).
  assert (E : tasks c2 = tasks c).
  { revert H. cbn [sk_processing_run_id _task_from_row]. destruct (tc_processing_run_id _) as [run|]; [|by intros [= <-]].
    intros (rows & c3 & H & [= <-])%mbind_inv_ok. by destruct (within_ok _ _ _ _ _ (tasks_same_update_runs _ _) H). }
  apply mbind_inv_ok in D as (row & c3 & U & D). rewrite <- E in L.
  rewrite (update_task_run _ _ _ _ r) in U by done. injection U as <- <-.
  destruct (within_ok _ _ _ _ _ (tasks_same_audit _ _ _ _) D) as [_ A]. intros r'. rewrite A. cbn. rewrite lookup_insert_eq.
  by intros [= <-].
Qed.

(** With fuel for every task it may come to, the loop ends, with the same
    result for all such fuel. *)
Lemma loop_ends w l a o p n : forall m s u c,
  (open_tasks s (tasks c) < n)%nat -> (open_tasks s (tasks c) < m)%nat ->
  claim_loop n w l a o p s (u, c) = claim_loop m w l a o p s (u, c)
  /\ fst (claim_loop n w l a o p s (u, c)) <> Raise out_of_fuel.
Proof.
  induction n as [|n IH]; intros m s u c Hn Hm; [lia|]. destruct m as [|m]; [lia|]. cbn [claim_loop].
  unfold mbind at 1 3 5, M_bind at 1 3 5. destruct (peek_run a s p u c) as ([[k r]|] & E & P); rewrite E; [|done].
  destruct P as (L & C & A). unfold claimable_at in C. rewrite !andb_true_iff in C. destruct C as [[C _] _].
  unfold mbind, M_bind. destruct (try_candidate w l o p k (row_account r) (tick u, c)) as [x w1] eqn:T.
  destruct (try_cases _ _ _ _ _ _ _ _ _ _ _ T L) as [[-> K]|(u' & U & B & [(c1 & D & -> & ->)|(y' & c1 & D & -> & ->)])].
  - destruct w1 as [u1 c1]. destruct K as [_ K]. cbn in K. subst c1.
    assert (F : (open_tasks (row_account r :: s) (tasks c) < open_tasks s (tasks c))%nat).
    { eapply (fewer_open s _ _ _ k r); try done; [|by intros k' r'; left|].
      - intros x X. unfold str_in in *. cbn [existsb]. by rewrite X, orb_true_r.
      - intros r' L'. rewrite L in L'. injection L' as <-. right. unfold str_in. cbn [existsb]. by rewrite String.eqb_refl. }
    apply IH; lia.
  - pose proof (disposed_row _ _ _ _ _ D L C) as Gone.
    assert (F : (open_tasks s (tasks c1) < open_tasks s (tasks c))%nat).
    { eapply (fewer_open s _ _ _ k r); try done.
      - intros k' r' L'. destruct (decide (k' = k)) as [->|N]; [right; by rewrite (Gone r' L')|left].
        pose proof (dispose_others (_task_from_row k r) w c) as Ot. rewrite D in Ot. by apply Ot.
      - intros r' L'. left. by rewrite (Gone r' L'). }
    apply IH; lia.
  - destruct y' as [task|e]; [done|]. split; [done|]. pose proof (lease_never (_task_from_row k r) w l c) as N.
    rewrite D in N. cbn. intros [= ->]. by apply N.
Qed.

(** C38. The loop of [claim_signal_task] ends.  It goes round once more for every
    candidate it passes over, whose account it then skips, and for every expired
    task it disposes of, so the number of tasks bounds its rounds: with one
    round more than that it returns or raises for a reason of its own, never for
    want of fuel, and any larger number of rounds gives the same result and the
    same world. *)
Theorem claim_terminates worker_id lease_seconds account_id open_ttl_seconds purpose (u : Wall) c n :
  (size (tasks c) < n)%nat ->
  claim_loop n worker_id lease_seconds account_id open_ttl_seconds purpose [] (u, c)
    = claim_loop (S (size (tasks c))) worker_id lease_seconds account_id open_ttl_seconds purpose [] (u, c)
  /\ fst (claim_signal_task worker_id lease_seconds account_id open_ttl_seconds purpose (u, c)) <> Raise out_of_fuel.
Proof.
  assert (B : forall t, (open_tasks [] t <= size t)%nat).
  { intros t. unfold open_tasks. apply map_subseteq_size, map_filter_subseteq. }
  intros N. split; [apply loop_ends; specialize (B (tasks c)); lia|].
  unfold claim_signal_task, mbind at 1, M_bind at 1, mlift. destruct (_validate_purpose purpose) as [v|e] eqn:V.
  2:{ unfold _validate_purpose in V. destruct (str_in _ _); [done|]. by injection V as <-. }
  destruct (is_empty worker_id); [done|]. destruct (_ <=? 0); [done|].
  unfold in_transaction, transaction_in, mbind, M_bind, on_conn, select. cbn [fst snd]. set (c1 := {| clock := _ |}).
  pose proof (loop_ends worker_id lease_seconds account_id open_ttl_seconds purpose (S (size (tasks c1))) (S (size (tasks c1))) [] (tick u) c1) as [_ E].
  1-2: specialize (B (tasks c1)); lia.
  fold c1. cbn [current c1] in *. by destruct (claim_loop _ _ _ _ _ _ _ _) as [[?|?] ?].
Qed.

(** ** The queue as a system *)

(** What holds between transactions. *)
Record sound (w : World) : Prop := {
  so_clock : monotone (fst w);
  so_idle : idle (snd w);
  so_fresh : tasks_fresh (snd w);
  so_live : one_live w }.

(** Every task stays, as [row_kept] says. *)
Definition tasks_stay (c c' : Conn) : Prop :=
  forall k r, tasks c !! k = Some r -> exists r', tasks c' !! k = Some r' /\ row_kept r r'.

#[export] Instance tasks_stay_preorder : PreOrder tasks_stay.
Proof.
  split; [intros c k r L; by exists r|]. intros c c1 c2 K K' k r L. destruct (K k r L) as (r1 & L1 & R1).
  destruct (K' k r1 L1) as (r2 & L2 & R2). exists r2. split; [done | by etransitivity].
Qed.

Definition moves (w w' : World) : Prop := sound w' /\ tasks_stay (snd w) (snd w').

(** The world in which a transaction's first statement runs. *)
Definition started (w : World) : World :=
  (tick (fst w), {| committed := committed (snd w); current := current (snd w); uuids := uuids (snd w); clock := now_at w |}).

Lemma started_calm w : calm w (started w).
Proof. destruct w as [u c]. exact (tick_calm u c). Qed.

Lemma sound_same w u' c' :
  sound w -> same_clocks (fst w) u' -> idle c' -> tasks c' = tasks (snd w) -> uuids (snd w) <= uuids c' -> moves w (u', c').
Proof.
  intros [M I F O] T I' E U. split; [|intros k r L; cbn [snd]; rewrite E; by exists r]. split; [|done|..].
  - by eapply same_clocks_monotone.
  - intros n N. cbn [snd] in *. rewrite E. apply F. lia.
  - pose proof (now_forward w (u', c') T M) as N. intros k1 k2 r1 r2. cbn [snd]. rewrite E. intros L1 L2 A B1 B2.
    eapply O; [exact L1|exact L2|done|exact (busy_earlier _ _ _ N B1)|exact (busy_earlier _ _ _ N B2)].
Qed.

Lemma commit_one_live u c : one_live (u, c) -> one_live (u, commit c).
Proof. intros O k1 k2 r1 r2. exact (O k1 k2 r1 r2). Qed.

Lemma transaction_moves {A} (m : M World A) w x w' :
  within kept m -> (forall a w1, sound w -> m (started w) = (Ok a, w1) -> one_live w1) ->
  sound w -> in_transaction m w = (x, w') -> moves w w'.
Proof.
  intros K L S H. pose proof S as [M I F O]. unfold in_transaction, transaction_in in H. fold (started w) in H.
  change (m (tick (fst w), _)) with (m (started w)) in H. specialize (K (started w)). specialize (L). 
  destruct (m (started w)) as [y [u1 c1]] eqn:E. cbn [fst snd] in *. destruct K as [T [[C U] K]]. cbn [fst snd started] in *.
  assert (T1 : same_clocks (fst w) u1) by exact (transitivity (tick_clocks (fst w)) T).
  destruct y as [a|e]; injection H as <- <-.
  - destruct (K F) as [F1 St]. split; [|exact St]. split; [by eapply same_clocks_monotone|done|exact F1|].
    apply commit_one_live. by eapply L.
  - apply sound_same; [done|done|done| |exact U]. cbn. by rewrite C, <- I.
Qed.

Lemma calm_transaction {A} (m : M World A) w x w' :
  within kept m -> within calm m -> sound w -> in_transaction m w = (x, w') -> moves w w'.
Proof.
  intros K C. apply transaction_moves; [done|]. intros a w1 S E. pose proof (within_ok _ _ _ _ _ C E) as C1.
  eapply (calm_one_live w w1), S; [apply S|]. etransitivity; [apply started_calm | done].
Qed.

(** What the queue's operations, and the transactions of others, do to the
    world, whatever they are called with and however they end. *)
Inductive queue_step (w w' : World) : Prop :=
| step_enqueue q x : in_transaction (on_conn (enqueue_signal_task q)) w = (x, w') -> queue_step w w'
| step_claim_signal worker lease account ttl purpose x :
    claim_signal_task worker lease account ttl purpose w = (x, w') -> queue_step w w'
| step_complete id token status d n sr x : complete_signal_task id token status d n sr w = (x, w') -> queue_step w w'
| step_fail id token n sr x : fail_signal_task id token n sr w = (x, w') -> queue_step w w'
| step_shadow task sem st ttl x : shadow_dispatch task sem st ttl w = (x, w') -> queue_step w w'
| step_context task x : capture_context task w = (x, w') -> queue_step w w'
| step_decision task sem st sn x : record_signal_decision task sem st sn w = (x, w') -> queue_step w w'
| step_register task body x : register_execution_request task body w = (x, w') -> queue_step w w'
| step_next account x : next_reconciling_task account w = (x, w') -> queue_step w w'
| step_uncertain task detail od x : record_operator_uncertainty task detail od w = (x, w') -> queue_step w w'
| step_elsewhere : same_clocks (fst w) (fst w') -> idle (snd w') -> tasks (snd w') = tasks (snd w) ->
    uuids (snd w) <= uuids (snd w') -> queue_step w w'.

Lemma sound_looks w w' : sound w -> looks w w' -> moves w w'.
Proof.
  destruct w' as [u' c']. intros S [T E]. cbn in E. subst c'. by apply sound_same; [|exact T|apply S| |].
Qed.

Lemma moves_complete id token status d n sr w x w' :
  sound w -> complete_signal_task id token status d n sr w = (x, w') -> moves w w'.
Proof.
  intros S H. unfold complete_signal_task in H. assert (R : moves w w) by by apply sound_looks.
  destruct (is_empty token); [by injection H as _ <-|].
  destruct (str_in status SIGNAL_TERMINAL) eqn:T; cbn [negb] in H; [|by injection H as _ <-].
  destruct (_ || _) in H; [by injection H as _ <-|].
  eapply calm_transaction, H; [apply kept_complete | by apply calm_complete | done].
Qed.

Lemma moves_claim_signal worker lease account ttl purpose w x w' :
  sound w -> claim_signal_task worker lease account ttl purpose w = (x, w') -> moves w w'.
Proof.
  intros S H. unfold claim_signal_task, mbind at 1, M_bind at 1, mlift in H. assert (R : moves w w) by by apply sound_looks.
  destruct (_validate_purpose purpose); [|by injection H as _ <-].
  destruct (is_empty worker); [by injection H as _ <-|]. destruct (_ <=? 0); [by injection H as _ <-|].
  eapply transaction_moves, H; [within| |done]. intros a' w1 _ E. unfold mbind, M_bind, on_conn, select in E. cbn [fst snd started] in E.
  eapply loop_one_live, E; [apply S|apply S|]. eapply calm_one_live, S; [apply S | apply (started_calm w)].
Qed.

Lemma queue_step_moves w w' : sound w -> queue_step w w' -> moves w w'.
Proof.
  intros S H. assert (R : moves w w) by by apply sound_looks.
  destruct H as [q x H|wk l a ttl p x H|id tk st d n sr x H|id tk n sr x H|task sem st ttl x H|task x H|task sem st sn x H|task b x H|a x H|task dt od x H|T I E U].
  - eapply calm_transaction, H; [apply conn_kept, kept_enqueue | apply conn_calm, quiet_enqueue | done].
  - by eapply moves_claim_signal.
  - by eapply moves_complete.
  - by eapply moves_complete.
  - unfold shadow_dispatch in H. destruct (str_or _ _) as [token|]; [|by injection H as _ <-].
    destruct (negb _); [by injection H as _ <-|]. unfold mbind at 1, M_bind at 1 in H.
    destruct (ttl_run task ttl w) as (b & w1 & E1 & L). rewrite E1 in H. pose proof (sound_looks _ _ S L) as [S1 T1].
    destruct b; unfold mbind, M_bind in H; destruct (complete_signal_task _ _ _ _ _ _ w1) as [y w2] eqn:C;
      destruct (moves_complete _ _ _ _ _ _ _ _ _ S1 C) as [S2 T2]; (split; [by destruct y; injection H as _ <-|]);
      (etransitivity; [exact T1|]); by destruct y; injection H as _ <-.
  - eapply calm_transaction, H; [apply kept_context | apply calm_context | done].
  - eapply calm_transaction, H; [apply moves_decision | apply moves_decision | done].
  - unfold register_execution_request in H. destruct (dget _ _); try (by injection H as _ <-).
    destruct (negb _); [by injection H as _ <-|]. destruct (negb _); [by injection H as _ <-|].
    eapply calm_transaction, H; [apply moves_register | apply moves_register | done].
  - eapply calm_transaction, H; [within | within | done].
  - eapply calm_transaction, H; [apply kept_uncertainty | apply calm_uncertainty | done].
  - destruct w' as [u' c']. by apply sound_same.
Qed.

(** ** Ending a task *)

Abbreviation runs_of c := (message_processing_runs (desk (current c))).

Lemma update_now_inv k p f (w w' : World) o :
  update_task_now k p f w = (Ok o, w') ->
  fst w' = tick (fst w) /\ update_task k (p (now_at w) (current (snd w))) (f (now_at w)) (snd w) = (Ok o, snd w').
Proof.
  unfold update_task_now, clock_timestamp, on_conn, select, mbind, M_bind. cbn [fst snd]. unfold id.
  fold (now_at w). destruct (update_task _ _ _ _) as [y c'] eqn:U. intros [= -> <-]. cbn [fst snd]. done.
Qed.

Lemma queue_task_audit e m a p : within queue_kept (_insert_audit e m a p).
Proof. unfold _insert_audit. within. Qed.

(** The statement that ends a claim's run, when it must change one row. *)
Lemma end_one_run p f c row c' :
  update_runs p f c = (Ok [row], c') -> tasks c' = tasks c /\ exists u, runs_of c !! fst row = Some u /\ p (fst row) u = true
  /\ runs_of c' !! fst row = Some (f u).
Proof.
  intros H. destruct (update_runs_run p f c) as (rows & E & R). rewrite E in H. injection H as -> <-. split; [done|].
  destruct (proj1 (R row)) as (u & L & P & _); [by left|]. exists u. split_and!; [done..|].
  cbn. by rewrite updated_lookup, L; cbn; rewrite P.
Qed.

Lemma finish_run_inv id token rs now (w w' : World) :
  finish_claim_run id token rs now w = (Ok tt, w') ->
  tasks (snd w') = tasks (snd w) /\ forall k, str_or id None = Some k ->
    exists u, runs_of (snd w) !! k = Some u /\ mr_claim_token u = Some token /\ active u = true
    /\ runs_of (snd w') !! k = Some (end_run rs (Some now) (mr_error u) u).
Proof.
  unfold finish_claim_run. destruct (str_or id None) as [k|]; [|by intros [_ <-]%mret_inv].
  intros (t & w1 & H0 & H1)%mbind_inv_ok. unfold clock_timestamp in H0. injection H0 as <- <-.
  apply mbind_inv_ok in H1 as (rows & w2 & H0 & H1). apply on_conn_inv in H0 as [H0 _].
  destruct rows as [|row [|]]; [done| |done]. apply mret_inv in H1 as [_ <-].
  destruct (end_one_run _ _ _ _ _ H0) as (T & u & Lu & Pu & Lu'). split; [done|]. intros k' [= <-].
  rewrite !andb_true_iff, String.eqb_eq in Pu. destruct Pu as [[[Ek Q] A] _]. rewrite Ek in Lu, Lu'.
  exists u. split_and!; [done| |done|done].
  unfold sql_eq in Q. destruct (mr_claim_token u); [|done]. by apply String.eqb_eq in Q as ->.
Qed.

(** What ending a task under its claim did: the task was leased, under that
    token, and its lease had not passed; it has its final outcome now; and its
    run, which was active under the same token, has ended with it. *)
Lemma complete_inv id token status d n sr rs w task w' :
  in_transaction (complete_body id token status d n sr rs) w = (Ok task, w') ->
  exists r t, tasks (snd w) !! id = Some r /\ tc_claim_token (st_claim r) = Some token /\ tu_status (st_outcome r) = "leased"
  /\ t = server_clock (fst w) (S (reading (fst w))) /\ lease_after t (tc_lease_expires_at (st_claim r)) = true
  /\ tasks (snd w') !! id = Some (with_outcome status d n (dupdate (tu_shadow_result (st_outcome r)) sr) (now_at w) r)
  /\ forall k, str_or (tc_processing_run_id (st_claim r)) None = Some k ->
       exists u, runs_of (snd w) !! k = Some u /\ mr_claim_token u = Some token /\ active u = true
       /\ runs_of (snd w') !! k = Some (end_run rs (Some (now_at w)) (mr_error u) u).
Proof.
  intros H. apply transaction_in_inv in H as (w1 & H & ->). fold (started w) in H. cbn [snd].
  change (complete_body id token status d n sr rs (started w) = (Ok task, w1)) in H.
  unfold complete_body in H. apply mbind_inv_ok in H as (now & w2 & H1 & H). apply on_conn_inv in H1 as [H1 F1].
  apply get_now_inv in H1 as [-> C1]. destruct w2 as [u2 c2]. cbn [fst snd started clock] in *. subst u2 c2.
  apply mbind_inv_ok in H as (row & w2 & H1 & H). apply update_now_inv in H1 as [F1 U]. destruct row as [r0|]; [|done].
  destruct (update_task_cases _ _ _ _ _ _ U) as [[? _]|(r & L & P & [= ->] & E2)]; [done|]. cbn [snd current fst] in L, P.
  rewrite !andb_true_iff, String.eqb_eq in P. destruct P as [[P1 P2] P3].
  assert (Tk : tc_claim_token (st_claim r) = Some token).
  { unfold sql_eq in P1. destruct (tc_claim_token _); [|done]. by apply String.eqb_eq in P1 as ->. }
  cbn [sk_processing_run_id _task_from_row with_outcome st_claim] in H.
  apply mbind_inv_ok in H as ([] & w3 & H1 & H). apply mbind_inv_ok in H as ([] & w4 & H2 & H).
  apply mret_inv in H as [_ <-]. apply on_conn_inv in H2 as [H2 _].
  destruct (within_ok _ _ _ _ _ (queue_task_audit _ _ _ _) H2) as (R4 & T4 & _).
  destruct (finish_run_inv _ _ _ _ _ _ H1) as [T3 G]. exists r. eexists. split_and!; [exact L|exact Tk|exact P2|reflexivity|exact P3|..]; cbn [snd commit current].
  - rewrite T4, T3, E2. cbn. by rewrite lookup_insert_eq.
  - intros k K. destruct (G k K) as (u & Lu & Q & A & Lu'). exists u. rewrite E2 in Lu. rewrite R4. by split_and!.
Qed.

(** A task that is settled, or held under another token, cannot be ended. *)
Lemma complete_refused id token status d n sr w :
  idle (snd w) ->
  (forall r, tasks (snd w) !! id = Some r -> settled r = true \/ tc_claim_token (st_claim r) <> Some token) ->
  exists x w', complete_signal_task id token status d n sr w = (Raise x, w') /\ current (snd w') = current (snd w).
Proof.
  intros I N. unfold complete_signal_task. destruct (is_empty token); [by eexists _, w|].
  destruct (negb _); [by eexists _, w|]. destruct (_ || _); [by eexists _, w|]. set (rs := if String.eqb status _ then _ else _).
  pose proof (kept_complete id token status d n sr rs (started w)) as [_ [[C _] _]].
  destruct (in_transaction _ w) as [[task|x] w'] eqn:H.
  - exfalso. destruct (complete_inv _ _ _ _ _ _ _ _ _ _ H) as (r & t & L & T & S & _). destruct (N r L) as [F|F]; [|done].
    rewrite leased_not_settled in F by by apply String.eqb_eq. done.
  - exists x, w'. split; [done|]. unfold in_transaction, transaction_in in H. fold (started w) in H.
    change (complete_body id token status d n sr rs (tick (fst w), _)) with (complete_body id token status d n sr rs (started w)) in H.
    destruct (complete_body id token status d n sr rs (started w)) as [[task|y] w1]; [done|].
    injection H as _ <-. cbn [snd rollback current] in *. by rewrite C.
Qed.

(** ** Examples *)

(** A second passes between readings, and an hour before the [late]-th. *)
Definition wall (late : nat) : Wall := {|
  reading := 0;
  server_clock := fun n => seconds (1000 + Z.of_nat n + (if (n <? late)%nat then 0 else 3600));
  worker_clock := fun n => seconds (1000 + Z.of_nat n + (if (n <? late)%nat then 0 else 3600)) |}.

Definition request_17 (account : string) : EnqueueRequest := {|
  eq_raw_message_id := "m-17"; eq_source_platform := "telegram"; eq_channel_id := "-100"; eq_source_message_id := "17";
  eq_edit_version := "1"; eq_account_id := Some account; eq_action := None; eq_expires_at := None;
  eq_skipped_reason := None; eq_processing_purpose := "signal" |}.

Definition world_17 (late : nat) : World := (wall late, connect (set_raw_messages (<["m-17" := raw_17]>) empty_db) 0).

(** Run [m] on the second component's world. *)
Definition then_run {A} (m : M World A) (w : World) : World := snd (m w).

Definition analysed : dict := [("decision", PDict [("decision_id", PStr "d-1")])].

Definition registered_body (task : SignalTask) : dict :=
  [("account_id", PStr (sk_account_id task)); ("decision_id", PStr "d-1");
   ("signal_claim", PDict [("task_id", PStr (sk_task_id task)); ("processing_run_id", opt_value (sk_processing_run_id task));
      ("claim_token", opt_value (sk_claim_token task)); ("attempt", PInt (sk_attempt task))])].

(** A task enqueued and claimed. *)
Definition claimed_17 (late : nat) : result (option SignalTask) * World :=
  claim_signal_task "worker-1" 60 None None "signal"
    (then_run (in_transaction (on_conn (enqueue_signal_task (request_17 "acct-a")))) (world_17 late)).

(** The claim followed through to a registered request. *)
Definition registered_17 (late : nat) : result SignalTask * World :=
  match claimed_17 late with
  | (Ok (Some task), w) =>
      register_execution_request task (registered_body task)
        (then_run (record_signal_decision task analysed [] []) (then_run (capture_context task) w))
  | (_, w) => (Raise out_of_fuel, w)
  end.


Example claim_terminates_witness :
  let w := then_run (in_transaction (on_conn (enqueue_signal_task (request_17 "acct-a")))) (world_17 100) in
  claim_loop 7 "worker-1" 60 None None "signal" [] w = claim_loop 2 "worker-1" 60 None None "signal" [] w
  /\ match fst (claim_loop 2 "worker-1" 60 None None "signal" [] w) with Ok (Some t) => sk_task_id t = "uuid-0" | _ => False end.
Proof.
  cbv zeta. destruct (then_run (in_transaction (on_conn (enqueue_signal_task (request_17 "acct-a")))) (world_17 100)) as [u c] eqn:E.
  assert (S : size (tasks c) = 1%nat) by (apply (f_equal snd) in E; cbn [snd] in E; rewrite <- E; vm_compute; reflexivity).
  split.
  - destruct (claim_terminates "worker-1" 60 None None "signal" u c 7) as [H _]; [lia|]. by rewrite S in H.
  - rewrite <- E. vm_compute. reflexivity.
Defined.

(** The same world for a connection whose transaction begins at [s]. *)
Definition at_time (s : Z) (c : Conn) : Conn :=
  {| committed := committed c; current := current c; uuids := uuids c; clock := seconds s |}.

Definition uncertain_status (w : World) (t : result SignalTask) : option string :=
  match t with
  | Ok task => match fst (record_operator_uncertainty task "no answer" None w) with Ok t => Some (sk_status t) | Raise _ => None end
  | Raise _ => None
  end.

(** A claim of the legacy queue ends every run whose lease has passed, the runs
    of signal tasks included.  A registered task whose operator never answered
    expires with its run once both leases have passed; when a legacy worker
    claims in between, its run is no longer active, so it stays reconciling and
    no later call can expire it, and its account is given no other claim. *)
Lemma legacy_claim_blocks_account :
  let w := snd (registered_17 15) in let t := fst (registered_17 15) in
  let w1 : World := (fst w, snd (claim "legacy-worker" 30 (at_time 9000 (snd w)))) in
  uncertain_status w t = Some "expired"
  /\ uncertain_status w1 t = Some "reconciling"
  /\ match t with
     | Ok task =>
         let w2 := then_run (record_operator_uncertainty task "no answer" None) w1 in
         let w3 := then_run (in_transaction (on_conn (enqueue_signal_task
                     {| eq_raw_message_id := "m-17"; eq_source_platform := "telegram"; eq_channel_id := "-100";
                        eq_source_message_id := "17"; eq_edit_version := "2"; eq_account_id := Some "acct-a";
                        eq_action := None; eq_expires_at := None; eq_skipped_reason := None;
                        eq_processing_purpose := "signal" |}))) w2 in
         uncertain_status w2 t = Some "reconciling"
         /\ fst (claim_signal_task "worker-2" 60 None None "signal" w3) = Ok None
     | Raise _ => False
     end.
Proof. vm_compute. split_and!; reflexivity. Qed.

(** A shadow run is unique per message, not per account: while one account's
    shadow task of a message is claimed, the claim of another account's task of
    the same message fails, and with it every claim of the queue it is first in. *)
Lemma shadow_accounts_collide :
  let shadow a m := {| eq_raw_message_id := m; eq_source_platform := "telegram"; eq_channel_id := "-100";
    eq_source_message_id := m; eq_edit_version := "1"; eq_account_id := Some a; eq_action := None; eq_expires_at := None;
    eq_skipped_reason := None; eq_processing_purpose := "shadow" |} in
  let enqueue q := then_run (in_transaction (on_conn (enqueue_signal_task q))) in
  let w0 : World := (wall 100, connect (set_raw_messages (<["m-18" := raw_17]>) (set_raw_messages (<["m-17" := raw_17]>) empty_db)) 0) in
  let w1 := enqueue (shadow "acct-c" "m-18") (enqueue (shadow "acct-b" "m-17") (enqueue (shadow "acct-a" "m-17") w0)) in
  let w2 := then_run (claim_signal_task "worker-1" 60 None None "shadow") w1 in
  fst (claim_signal_task "worker-2" 60 None None "shadow" w2)
    = Raise (RuntimeError "UniqueViolation" "uq_message_processing_runs_active")
  /\ match fst (claim_signal_task "worker-2" 60 (Some "acct-c") None "shadow" w2) with
     | Ok (Some t) => sk_raw_message_id t = "m-18"
     | _ => False
     end.
Proof. vm_compute. split_and!; reflexivity. Qed.
