(* ===== verification/SignalHandoff.v ===== *)
(** * SignalHandoff: from a registered request to one operation

    control-plane/api/signal_handoff.py.  The operator ingress of read_api.py
    loads the request a signal task has registered ([load_request]), creates a
    trade intent, and accepts the operation ([accept_operation]), all in one
    transaction: the task is bound to the intent and its run ends.  What the
    ingress does in between is an argument [create] of the composed handoff.

    A request is compared by the SHA-256 of its canonical JSON, less the fields
    that a renewed claim changes.  JSON numbers of the model are finite, so
    [allow_nan=False] never raises; a statement that calls [clock_timestamp()]
    several times takes one reading. *)

From Stdlib Require Import ZArith Lia.
From S2P Require Import Prelude Decimal PyString DecText PyValue PyTime Json Sha256 TimeText Store External PositionRevision Claims SignalQueue.
Open Scope string_scope.
Open Scope Z_scope.

Definition SOURCE_FIELDS : list string :=
  ["source_platform"; "channel_id"; "source_message_id"; "edit_version"; "account_id"].
Definition _TRANSPORT : list string := ["task_id"; "processing_run_id"; "attempt"; "claim_token"].

Definition SignalHandoffError (code detail : string) (status_code : Z) : exn :=
  RuntimeError ("SignalHandoffError " +:+ int_str status_code +:+ " " +:+ code) detail.

Definition _uuid (v : pyval) (field : string) : result string :=
  match uuid_hex (py_str v) with
  | Some h => Ok (uuid_text h)
  | None => Raise (SignalHandoffError "invalid_signal_claim" (field +:+ " must be a UUID") 400)
  end.

(** [{key: value for key, value in d.items() if key not in _TRANSPORT}] *)
Definition without_transport (d : dict) : dict := filter (fun p => str_in (fst p) _TRANSPORT = false) d.

Definition semantic_body (body : dict) : dict :=
  let semantic := without_transport body in
  match dget "signal_claim" semantic with
  | PDict claim => dset "signal_claim" (PDict (without_transport claim)) semantic
  | _ => semantic
  end.

Definition canonical_request_hash (body : dict) : result string :=
  match json_norm (PDict (semantic_body body)) with
  | Ok v => Ok (sha256_hex (dumps v))
  | Raise _ => Raise (SignalHandoffError "invalid_signal_request" "execution request must contain finite JSON values" 400)
  end.

(** [task[field]] *)
Definition source_field (s : source_identity) (field : string) : string :=
  if String.eqb field "source_platform" then si_source_platform s
  else if String.eqb field "channel_id" then si_channel_id s
  else if String.eqb field "source_message_id" then si_source_message_id s
  else if String.eqb field "edit_version" then si_edit_version s
  else si_account_id s.

Record HandoffContext := {
  hc_task_id : string;
  hc_account_id : string;
  hc_raw_message_id : string;
  hc_processing_run_id : string;
  hc_attempt : Z;
  hc_claim_token : string;
  hc_source_identity : source_identity;
  hc_stable_action_or_leg_id : string;
  hc_idempotency_key : string;
  hc_request_hash : string;
  hc_execution_request : dict;
  hc_expected_versions : dict;
  hc_operator_intent_id : option string;
  hc_locked : bool;
  hc_source_deadline : option Z }.

Definition hc_existing_operation (c : HandoffContext) : bool := bool_decide (is_Some (hc_operator_intent_id c)).

(** The request's own identifiers, once they are well formed. *)
Record Claim := {
  cl_task_id : string;
  cl_processing_run_id : string;
  cl_claim_token : string;
  cl_raw_message_id : string;
  cl_attempt : Z;
  cl_stable : string }.

Definition read_claim (account_id : string) (body : dict) : result (Claim * dict) :=
  match dget "signal_claim" body, dget "source_identity" body with
  | PDict claim, PDict source =>
      if negb (py_eqb (dget "account_id" body) (PStr account_id)) || negb (py_eqb (dget "account_id" source) (PStr account_id)) then
        Raise (SignalHandoffError "signal_account_mismatch" "authenticated account does not match signal request" 403)
      else
        task_id ← _uuid (dget "task_id" claim) "task_id";
        run_id ← _uuid (dget "processing_run_id" claim) "processing_run_id";
        token ← _uuid (dget "claim_token" claim) "claim_token";
        raw_id ← _uuid (dget "raw_message_id" body) "raw_message_id";
        match dget "attempt" claim, dget "stable_action_or_leg_id" claim with
        | PInt attempt, PStr stable =>
            if (attempt <? 1) || is_empty (strip stable) then
              Raise (SignalHandoffError "invalid_signal_claim" "positive attempt and stable_action_or_leg_id are required" 400)
            else Ok ({| cl_task_id := task_id; cl_processing_run_id := run_id; cl_claim_token := token;
                        cl_raw_message_id := raw_id; cl_attempt := attempt; cl_stable := stable |}, source)
        | _, _ => Raise (SignalHandoffError "invalid_signal_claim" "positive attempt and stable_action_or_leg_id are required" 400)
        end
  | _, _ => Raise (SignalHandoffError "invalid_signal_claim" "signal_claim and source_identity are required" 400)
  end.

Definition source_matches (source : dict) (cl : Claim) (r : task_row) : bool :=
  forallb (fun field => py_eqb (dget field source) (PStr (source_field (to_source (st_origin r)) field))) SOURCE_FIELDS
  && String.eqb (to_raw_message_id (st_origin r)) (cl_raw_message_id cl).

(** The run and the task both stand for the claim the request names. *)
Definition claim_stands (account_id : string) (cl : Claim) (r : task_row) (run : option processing_run_row) : bool :=
  match run with
  | None => false
  | Some u =>
      String.eqb (mr_processing_purpose u) "signal" && bool_decide (mr_account_id u = Some account_id)
      && String.eqb (mr_raw_message_id u) (cl_raw_message_id cl)
      && bool_decide (mr_claim_token u = Some (cl_claim_token cl)) && (mr_attempt u =? cl_attempt cl)
      && bool_decide (tc_processing_run_id (st_claim r) = Some (cl_processing_run_id cl))
      && bool_decide (tc_claim_token (st_claim r) = Some (cl_claim_token cl)) && (tc_attempt (st_claim r) =? cl_attempt cl)
  end.

(** Status and both leases, at [checked_at]. *)
Definition claim_unexpired (checked_at : Z) (r : task_row) (u : processing_run_row) : bool :=
  str_in (tu_status (st_outcome r)) ["leased"; "reconciling"] && active u
  && lease_after checked_at (tc_lease_expires_at (st_claim r)) && lease_after checked_at (mr_lease_expires_at u).

Definition minutes (n : Z) : Z := seconds (60 * n).

(** [datetime.fromisoformat(str(raw_payload->>'source_ts'))], when it is aware. *)
Definition source_time (payload : option dict) : option datetime :=
  payload ≫= fun p =>
  match fromisoformat (replace_Z (default "None" (json_text "source_ts" p))) with
  | Ok t => match utc_offset_us t with Some _ => Some t | None => None end
  | Raise _ => None
  end.

Definition is_entry (body : dict) : bool :=
  py_eqb (dget "action" body) (PStr "open_position") || py_eqb (dget "action" body) (PStr "add_position").

(** The deadline of an entry; other actions have none. *)
Definition entry_deadline (body : dict) (payload : option dict) (checked_at : Z) : result (option Z) :=
  if negb (is_entry body) then Ok None
  else match source_time payload with
  | None => Raise (SignalHandoffError "signal_source_time_unknown"
              "entry source timestamp is unknown; receive/ingest time cannot substitute" 409)
  | Some source_ts =>
      if negb (representable (wall_us source_ts + minutes 30)) then Raise (RuntimeError "OverflowError" "date value out of range")
      else
        let deadline := aware source_ts + minutes 30 in
        if (deadline <=? checked_at) || (checked_at + minutes 5 <? aware source_ts) then
          Raise (SignalHandoffError "signal_source_expired" "entry source timestamp is expired or invalid" 409)
        else Ok (Some deadline)
  end.

(** Another version of the message has an operation. *)
Definition edited_operation (task_id : string) (r : task_row) (d : Db) : bool :=
  existsb (fun kr => same_message (to_source (st_origin r)) (snd kr) && negb (String.eqb (fst kr) task_id)
                     && bool_decide (is_Some (te_operator_intent_id (st_execution (snd kr)))))
    (map_to_list (signal_dispatch_tasks (desk d))).

(** The checks of a request that has no operation yet. *)
Definition check_new (cl : Claim) (body : dict) (r : task_row) (u : processing_run_row) : M World (option Z) :=
  checked_at ← clock_timestamp;
  if negb (claim_unexpired checked_at r u) then
    mraise (SignalHandoffError "stale_signal_claim" "signal execution requires a current unexpired claim" 409)
  else if match to_expires_at (st_origin r) with Some e => e <=? checked_at | None => false end then
    mraise (SignalHandoffError "expired_signal" "signal task has expired" 409)
  else
    d ← on_conn (select id);
    deadline ← mlift (entry_deadline body (raw_payloads (desk d) !! cl_raw_message_id cl) checked_at);
    if is_entry body && edited_operation (cl_task_id cl) r d then
      mraise (SignalHandoffError "signal_edit_requires_reconciliation"
                "edited source already has an operation; reconcile before increasing risk" 409)
    else mret deadline.

Definition idempotency_key (s : source_identity) (stable : string) : string :=
  sha256_hex (dumps (PList (map (fun f => PStr (source_field s f)) SOURCE_FIELDS ++ [PStr stable])%list)).

Definition load_request (account_id : string) (body : dict) (lock : bool) : M World HandoffContext :=
  '(cl, source) ← mlift (read_claim account_id body);
  task ← on_conn (select (task_at (cl_task_id cl)));
  match task with
  | None => mraise (SignalHandoffError "signal_task_not_found" "signal task does not exist" 404)
  | Some r =>
      if negb (String.eqb (row_account r) account_id) then
        mraise (SignalHandoffError "signal_account_mismatch" "authenticated account does not own signal task" 403)
      else if negb (String.eqb (to_processing_purpose (st_origin r)) "signal") then
        mraise (SignalHandoffError "invalid_signal_purpose" "shadow tasks cannot submit signal operations" 409)
      else if negb (source_matches source cl r) then
        mraise (SignalHandoffError "signal_source_mismatch" "source identity does not match persisted task" 409)
      else match te_request (st_execution r), te_context (st_execution r) with
      | Some request, Some context =>
          request_hash ← mlift (canonical_request_hash body);
          registered_hash ← mlift (canonical_request_hash request);
          if negb (String.eqb request_hash registered_hash) then
            mraise (SignalHandoffError "signal_payload_mismatch" "signal payload differs from the registered execution request" 409)
          else
            run ← on_conn (select (fun d => message_processing_runs (desk d) !! cl_processing_run_id cl));
            match run with
            | Some u =>
                if negb (claim_stands account_id cl r (Some u)) then
                  mraise (SignalHandoffError "stale_signal_claim" "claim does not match the current signal task and run" 409)
                else
                  deadline ← (match te_operator_intent_id (st_execution r) with
                              | None => check_new cl body r u
                              | Some _ => mret None
                              end);
                  mret {| hc_task_id := cl_task_id cl; hc_account_id := account_id; hc_raw_message_id := cl_raw_message_id cl;
                          hc_processing_run_id := cl_processing_run_id cl; hc_attempt := cl_attempt cl;
                          hc_claim_token := cl_claim_token cl; hc_source_identity := to_source (st_origin r);
                          hc_stable_action_or_leg_id := cl_stable cl;
                          hc_idempotency_key := idempotency_key (to_source (st_origin r)) (cl_stable cl);
                          hc_request_hash := request_hash; hc_execution_request := request; hc_expected_versions := context;
                          hc_operator_intent_id := te_operator_intent_id (st_execution r); hc_locked := lock;
                          hc_source_deadline := deadline |}
            | None => mraise (SignalHandoffError "stale_signal_claim" "claim does not match the current signal task and run" 409)
            end
      | _, _ => mraise (SignalHandoffError "signal_request_unregistered" "signal execution request/context has not been registered" 409)
      end
  end.

(** ** Accepting *)

(** The joined rows the statement accepts, at [t]. *)
Definition eligible (t : Z) (ctx : HandoffContext) (intent_id : string) (r : task_row) (d : Db) : bool :=
  match trade_intents d !! intent_id, current_run r d with
  | Some i, Some u =>
      String.eqb (ti_account_id i) (row_account r) && String.eqb (row_account r) (hc_account_id ctx)
      && String.eqb (to_processing_purpose (st_origin r)) "signal" && String.eqb (mr_processing_purpose u) "signal"
      && sql_eq (mr_account_id u) (Some (row_account r)) && String.eqb (mr_raw_message_id u) (to_raw_message_id (st_origin r))
      && negb (bool_decide (is_Some (te_operator_intent_id (st_execution r))))
      && str_in (tu_status (st_outcome r)) ["leased"; "reconciling"] && active u
      && sql_eq (tc_processing_run_id (st_claim r)) (Some (hc_processing_run_id ctx))
      && sql_eq (tc_claim_token (st_claim r)) (Some (hc_claim_token ctx)) && sql_eq (mr_claim_token u) (Some (hc_claim_token ctx))
      && (tc_attempt (st_claim r) =? hc_attempt ctx) && (mr_attempt u =? hc_attempt ctx)
      && lease_after t (tc_lease_expires_at (st_claim r)) && lease_after t (mr_lease_expires_at u)
      && match to_expires_at (st_origin r) with Some e => t <? e | None => true end
      && (t <? ti_valid_until i)
      && match hc_source_deadline ctx with Some e => t <? e | None => true end
  | _, _ => false
  end.

Definition with_intent (intent_id : string) (now : Z) (r : task_row) : task_row := {|
  st_origin := st_origin r; st_claim := st_claim r; st_updated_at := now;
  st_outcome := {| tu_status := "dispatched"; tu_disposition := tu_disposition (st_outcome r);
                   tu_disposition_reason := tu_disposition_reason (st_outcome r);
                   tu_shadow_result := tu_shadow_result (st_outcome r) |};
  st_execution := {| te_request := te_request (st_execution r); te_context := te_context (st_execution r);
                     te_operator_intent_id := Some intent_id |} |}.

(** The one statement: the run ends and the task is bound. *)
Definition bind_operation (ctx : HandoffContext) (intent_id : string) : M World (option task_row) :=
  t ← clock_timestamp;
  d ← on_conn (select id);
  match task_at (hc_task_id ctx) d with
  | Some r =>
      if eligible t ctx intent_id r d then
        _ ← on_conn (update_runs (fun k _ => bool_decide (tc_processing_run_id (st_claim r) = Some k))
              (fun u => end_run "succeeded" (Some t) (mr_error u) u));
        on_conn (update_task (hc_task_id ctx) (fun r => negb (bool_decide (is_Some (te_operator_intent_id (st_execution r))))
                                && str_in (tu_status (st_outcome r)) ["leased"; "reconciling"]) (with_intent intent_id t))
      else mret None
  | None => mret None
  end.

Definition accept_operation (ctx : HandoffContext) (intent_id : string) : M World unit :=
  intent_id ← mlift (_uuid (PStr intent_id) "intent_id");
  if negb (hc_locked ctx) then
    mraise (SignalHandoffError "signal_handoff_unlocked" "accept_operation requires load_request(lock=True)" 409)
  else if hc_existing_operation ctx then
    if bool_decide (hc_operator_intent_id ctx = Some intent_id) then mret tt
    else mraise (SignalHandoffError "signal_operation_conflict" "signal task already accepted another intent" 409)
  else
    bound ← bind_operation ctx intent_id;
    match bound with
    | Some _ => mret tt
    | None => mraise (SignalHandoffError "stale_signal_claim" "signal claim expired or changed before accepting operation" 409)
    end.

(** The ingress: [create] inserts the intent, and gives its id. *)
Definition handoff (create : HandoffContext -> M World string) (account_id : string) (body : dict) : M World string :=
  in_transaction (
    ctx ← load_request account_id body true;
    intent_id ← create ctx;
    _ ← accept_operation ctx intent_id;
    mret intent_id).

(** ** Renewed claims *)

Lemma without_transport_dset f v d : str_in f _TRANSPORT = true -> without_transport (dset f v d) = without_transport d.
Proof.
  intros T. unfold without_transport. induction d as [|[k w] d IH]; cbn [dset].
  - rewrite filter_cons_False; [done|]. cbn. congruence.
  - destruct (String.eqb_spec f k) as [->|D].
    + rewrite !filter_cons_False; [done|cbn; congruence..].
    + rewrite !(filter_cons _ (k, w)). by rewrite IH.
Qed.

Lemma without_transport_keep f v d : str_in f _TRANSPORT = false -> without_transport (dset f v d) = dset f v (without_transport d).
Proof.
  intros T. unfold without_transport. induction d as [|[k w] d IH]; cbn [dset].
  - by rewrite filter_cons_True.
  - destruct (String.eqb_spec f k) as [<-|D].
    + rewrite !filter_cons_True by done. cbn [dset]. by rewrite String.eqb_refl.
    + rewrite !(filter_cons _ (k, w)). rewrite IH. case_decide; [|done]. cbn [dset].
      destruct (String.eqb_spec f k); [done|]. done.
Qed.

Lemma without_transport_update d e :
  Forall (fun p => str_in (fst p) _TRANSPORT = true) e -> without_transport (dupdate d e) = without_transport d.
Proof.
  unfold dupdate. revert d. induction e as [|[k v] e IH]; intros d F; [done|]. inversion F; subst. cbn.
  rewrite IH by done. by apply without_transport_dset.
Qed.

Lemma dset_dset k v w d : dset k v (dset k w d) = dset k v d.
Proof.
  induction d as [|[k' x] d IH]; cbn [dset]; [by rewrite String.eqb_refl|].
  destruct (String.eqb_spec k k') as [->|D]; cbn [dset]; [by rewrite String.eqb_refl|].
  destruct (String.eqb_spec k k'); [done|]. by rewrite IH.
Qed.

Lemma without_transport_get k d : str_in k _TRANSPORT = false -> dget k (without_transport d) = dget k d.
Proof.
  intros T. unfold dget, without_transport. f_equal. induction d as [|[k' v] d IH]; [done|]. rewrite filter_cons. case_decide as D; cbn in *.
  - by rewrite IH.
  - rewrite IH. destruct (String.eqb_spec k k') as [->|]; [congruence | done].
Qed.

(** A request keeps its hash when its claim is renewed: new task, run, attempt
    and token, in the request or in its claim, leave it as it was, so a retry
    under a new claim is recognised as the same request. *)
Theorem renewed_hash body claim renewal renewal' :
  dget "signal_claim" body = PDict claim ->
  Forall (fun p => str_in (fst p) _TRANSPORT = true) renewal -> Forall (fun p => str_in (fst p) _TRANSPORT = true) renewal' ->
  canonical_request_hash (dset "signal_claim" (PDict (dupdate claim renewal)) (dupdate body renewal'))
    = canonical_request_hash body.
Proof.
  intros C R R'. set (body' := dset _ _ _).
  assert (E : semantic_body body' = semantic_body body); [|unfold canonical_request_hash; by rewrite E].
  unfold semantic_body, body'. rewrite without_transport_keep, without_transport_update by done.
  rewrite without_transport_get, C by done. rewrite dget_dset_eq. cbv iota. rewrite dset_dset. by rewrite without_transport_update.
Qed.

(** ** Frames *)

Lemma intent_kept intent_id t r :
  negb (bool_decide (is_Some (te_operator_intent_id (st_execution r)))) && str_in (tu_status (st_outcome r)) ["leased"; "reconciling"] = true ->
  row_kept r (with_intent intent_id t r).
Proof.
  rewrite andb_true_iff, negb_true_iff, bool_decide_eq_false. intros [N S].
  assert (T : settled r = false) by (apply not_settled; by eapply str_in_of).
  apply eq_None_not_Some in N. unfold row_kept. rewrite T, N. by split_and!.
Qed.

Lemma kept_bind ctx i : within kept (bind_operation ctx i).
Proof. unfold bind_operation. within. apply conn_kept, update_task_kept. intros r'. apply intent_kept. Qed.

Lemma calm_bind ctx i : within calm (bind_operation ctx i).
Proof. unfold bind_operation. within. apply conn_calm, update_task_quiet. by intros r' t' _ B. Qed.

#[export] Hint Resolve kept_bind calm_bind : keeps.

Lemma kept_accept ctx i : within kept (accept_operation ctx i).
Proof. unfold accept_operation. within. Qed.
Lemma calm_accept ctx i : within calm (accept_operation ctx i).
Proof. unfold accept_operation. within. Qed.

Lemma looks_load account body lock : within looks (load_request account body lock).
Proof. unfold load_request, check_new. within. Qed.

(** The ingress between loading and accepting leaves the signal tasks alone. *)
Definition aside (w w' : World) : Prop := same_clocks (fst w) (fst w') /\ tasks_same (snd w) (snd w').

Lemma aside_kept w w' : aside w w' -> kept w w'.
Proof. intros [T S]. split; [done | by apply same_kept]. Qed.

Lemma aside_calm w w' : aside w w' -> calm w w'.
Proof.
  destruct w as [u c], w' as [u' c']. intros [T S]. transitivity (u', c); [by apply looks_calm | by apply same_calm].
Qed.

Definition leaves_tasks (create : HandoffContext -> M World string) : Prop := forall ctx, within aside (create ctx).

Lemma handoff_moves create account body w x w' :
  leaves_tasks create -> sound w -> handoff create account body w = (x, w') -> moves w w'.
Proof.
  intros C S H. pose proof (fun ctx s => aside_kept _ _ (C ctx s)) as K. pose proof (fun ctx s => aside_calm _ _ (C ctx s)) as Q.
  eapply calm_transaction, H; [| |done].
  - apply within_bind; [apply _|intros s; by apply looks_kept, looks_load|intros ctx].
    apply within_bind; [apply _|intros s; apply K|intros i]. pose proof kept_accept. within; auto with keeps.
  - apply within_bind; [apply _|intros s; by apply looks_calm, looks_load|intros ctx].
    apply within_bind; [apply _|intros s; apply Q|intros i]. pose proof calm_accept. within; auto with keeps.
Qed.

(** ** One operation per task *)

(** A request as [load_request] reads it: its claim, the task, the run and the
    registered request it names. *)
Record loads_as (account_id : string) (body : dict) (d : Db) (cl : Claim) (r : task_row) (u : processing_run_row) : Prop := {
  la_claim : exists source, read_claim account_id body = Ok (cl, source) /\ source_matches source cl r = true;
  la_task : signal_dispatch_tasks (desk d) !! cl_task_id cl = Some r;
  la_account : row_account r = account_id;
  la_purpose : to_processing_purpose (st_origin r) = "signal";
  la_request : exists request h, te_request (st_execution r) = Some request
    /\ canonical_request_hash body = Ok h /\ canonical_request_hash request = Ok h;
  la_run : message_processing_runs (desk d) !! cl_processing_run_id cl = Some u;
  la_stands : claim_stands account_id cl r (Some u) = true }.

(** The further checks of a request with no operation, at [t]. *)
Record checked (body : dict) (d : Db) (cl : Claim) (r : task_row) (u : processing_run_row) (t : Z) : Prop := {
  ck_unexpired : claim_unexpired t r u = true;
  ck_ttl : forall e, to_expires_at (st_origin r) = Some e -> t < e;
  ck_entry : is_entry body = true -> edited_operation (cl_task_id cl) r d = false
    /\ exists source_ts, source_time (raw_payloads (desk d) !! cl_raw_message_id cl) = Some source_ts
       /\ t < aware source_ts + minutes 30 /\ aware source_ts <= t + minutes 5 }.

Lemma check_new_inv cl body r u (w w' : World) deadline :
  check_new cl body r u w = (Ok deadline, w') -> checked body (current (snd w)) cl r u (now_at w).
Proof.
  destruct w as [v c]. unfold check_new, clock_timestamp, on_conn, select, mlift, mbind, M_bind. cbn [fst snd].
  change (server_clock v (reading v)) with (now_at (v, c)). generalize (now_at (v, c)). intros t.
  destruct (claim_unexpired t r u) eqn:C; [|done]. cbn [negb].
  destruct (match to_expires_at (st_origin r) with Some e => e <=? t | None => false end) eqn:X; [done|].
  unfold id. destruct (entry_deadline _ _ _) as [dl|e] eqn:D; [|done].
  destruct (is_entry body && edited_operation _ _ _) eqn:G; [done|]. intros _. split; [done|..].
  - intros e E. rewrite E in X. apply Z.leb_gt in X. lia.
  - intros E. rewrite E in G. cbn in G. split; [done|]. unfold entry_deadline in D. rewrite E in D. cbn [negb] in D.
    destruct (source_time _) as [ts|]; [|done]. exists ts. destruct (representable _); [|done]. cbn [negb] in D.
    destruct ((_ <=? _) || (_ <? _)) eqn:B; [done|]. apply orb_false_iff in B as [B1 B2]. split; [done|].
    apply Z.leb_gt in B1. apply Z.ltb_ge in B2. lia.
Qed.

Lemma load_inv account_id body lock (w w' : World) ctx :
  load_request account_id body lock w = (Ok ctx, w') ->
  exists cl r u, loads_as account_id body (current (snd w)) cl r u
  /\ (te_operator_intent_id (st_execution r) = None -> checked body (current (snd w)) cl r u (now_at w))
  /\ hc_task_id ctx = cl_task_id cl /\ hc_processing_run_id ctx = cl_processing_run_id cl
  /\ hc_operator_intent_id ctx = te_operator_intent_id (st_execution r).
Proof.
  destruct w as [v c]. unfold load_request. intros ([cl source] & w1 & [Rc ->]%mlift_inv & H)%mbind_inv_ok. cbv beta iota in H.
  apply mbind_inv_ok in H as (task & w1 & H1 & H). apply on_conn_inv in H1 as [[-> C1]%select_inv F1].
  destruct w1 as [v1 c1]. cbn [fst snd] in *. subst v1 c1. unfold task_at in H.
  destruct (tasks c !! _) as [r|] eqn:L; [|done]. destruct (String.eqb_spec (row_account r) account_id) as [A|]; [|done].
  cbn [negb] in H. destruct (String.eqb_spec (to_processing_purpose (st_origin r)) "signal") as [P|]; [|done]. cbn [negb] in H.
  destruct (source_matches source cl r) eqn:S; [|done]. cbn [negb] in H.
  destruct (te_request _) as [q|] eqn:Q; [|done]. destruct (te_context _) as [x|]; [|done].
  apply mbind_inv_ok in H as (h & w1 & [Hh ->]%mlift_inv & H). apply mbind_inv_ok in H as (h' & w1 & [Hh' ->]%mlift_inv & H).
  destruct (String.eqb_spec h h') as [<-|]; [|done]. cbn [negb] in H.
  apply mbind_inv_ok in H as (run & w1 & H1 & H). apply on_conn_inv in H1 as [[-> C1]%select_inv F1].
  destruct w1 as [v1 c1]. cbn [fst snd] in *. subst v1 c1. destruct (runs_of c !! _) as [u|] eqn:Lu; [|done].
  destruct (claim_stands _ _ _ _) eqn:St; [|done]. cbn [negb] in H.
  apply mbind_inv_ok in H as (dl & w1 & H1 & H). apply mret_inv in H as [<- <-].
  exists cl, r, u. split_and!; [|..]; try done.
  - split; try done; [by exists source | by exists q, h].
  - intros N. rewrite N in H1. by apply check_new_inv in H1.
Qed.

Lemma bind_inv ctx i (w w' : World) row :
  bind_operation ctx i w = (Ok (Some row), w') ->
  exists r, tasks (snd w) !! hc_task_id ctx = Some r /\ eligible (now_at w) ctx i r (current (snd w)) = true
  /\ tasks (snd w') = <[hc_task_id ctx := with_intent i (now_at w) r]> (tasks (snd w))
  /\ forall k u, runs_of (snd w) !! k = Some u -> tc_processing_run_id (st_claim r) = Some k ->
       runs_of (snd w') !! k = Some (end_run "succeeded" (Some (now_at w)) (mr_error u) u).
Proof.
  destruct w as [v c]. unfold bind_operation. intros (t & w1 & H1 & H)%mbind_inv_ok.
  unfold clock_timestamp in H1. injection H1 as <- <-. apply mbind_inv_ok in H as (d & w1 & H1 & H).
  apply on_conn_inv in H1 as [[-> C1]%select_inv F1]. destruct w1 as [v1 c1]. cbn [fst snd] in *. subst v1 c1.
  change (server_clock v (reading v)) with (now_at (v, c)) in *. revert H. unfold task_at, id. generalize (now_at (v, c)). intros t H.
  destruct (tasks c !! hc_task_id ctx) as [r|] eqn:L; [|done]. destruct (eligible _ _ _ _ _) eqn:E; [|done].
  apply mbind_inv_ok in H as (rows & w1 & H1 & H). apply on_conn_inv in H1 as [H1 _]. apply on_conn_inv in H as [H _].
  destruct (update_runs_run (fun k _ => bool_decide (tc_processing_run_id (st_claim r) = Some k))
              (fun u => end_run "succeeded" (Some t) (mr_error u) u) c) as (rs & R & _).
  cbn [fst snd] in *. rewrite R in H1. injection H1 as <- H1.
  destruct (update_task_cases _ _ _ _ _ _ H) as [[? _]|(r' & L' & _ & _ & ->)]; [done|]. rewrite <- H1 in L'. cbn in L'.
  rewrite L in L'. injection L' as <-. exists r. split_and!; [done..|by cbn; rewrite <- H1|].
  intros k u Lu K. cbn. rewrite <- H1. cbn. rewrite updated_lookup, Lu. cbn. by rewrite bool_decide_true.
Qed.

Lemma accept_inv ctx intent (w w' : World) :
  accept_operation ctx intent w = (Ok tt, w') ->
  exists i, _uuid (PStr intent) "intent_id" = Ok i
  /\ match hc_operator_intent_id ctx with
     | Some e => e = i /\ w' = w
     | None => exists r, tasks (snd w) !! hc_task_id ctx = Some r /\ eligible (now_at w) ctx i r (current (snd w)) = true
         /\ tasks (snd w') = <[hc_task_id ctx := with_intent i (now_at w) r]> (tasks (snd w))
         /\ exists u, runs_of (snd w') !! hc_processing_run_id ctx = Some u /\ mr_status u = "succeeded"
     end.
Proof.
  unfold accept_operation. intros (i & w1 & [U ->]%mlift_inv & H)%mbind_inv_ok. exists i. split; [done|].
  destruct (negb (hc_locked ctx)); [done|]. unfold hc_existing_operation in H. destruct (hc_operator_intent_id ctx) as [e|] eqn:E.
  - rewrite bool_decide_true in H by by eexists. destruct (bool_decide (Some e = Some i)) eqn:D; [|done].
    apply bool_decide_eq_true in D. injection D as ->. by injection H as <-.
  - rewrite bool_decide_false in H by by intros [? ?]. apply mbind_inv_ok in H as ([row|] & w1 & H1 & H); [|done].
    apply mret_inv in H as [_ <-]. destruct (bind_inv _ _ _ _ _ H1) as (r & L & El & T & R). exists r. split_and!; [done..|].
    unfold eligible in El. destruct (trade_intents _ !! i); [|done]. destruct (current_run r _) as [u|] eqn:Cu; [|done].
    rewrite !andb_true_iff in El. decompose [and] El. clear El.
    match goal with K : sql_eq (tc_processing_run_id (st_claim r)) _ = true |- _ => unfold sql_eq in K; destruct (tc_processing_run_id (st_claim r)) as [k|] eqn:P; [apply String.eqb_eq in K|done] end.
    unfold current_run in Cu. rewrite P in Cu. cbn in Cu. subst k. eexists. split; [by apply (R _ u)|done].
Qed.

Lemma transaction_run {A} (m : M World A) w a w' :
  in_transaction m w = (Ok a, w') -> exists w1, m (started w) = (Ok a, w1) /\ tasks (snd w') = tasks (snd w1) /\ runs_of (snd w') = runs_of (snd w1).
Proof.
  unfold in_transaction, transaction_in. fold (started w). change (m (tick (fst w), _)) with (m (started w)).
  destruct (m (started w)) as [[b|e] w1]; intros H; [|done]. injection H as -> <-. by exists w1.
Qed.

(** A handoff loads a request and accepts the operation for it. *)
Lemma handoff_inv create account_id body (w w' : World) intent_id :
  leaves_tasks create -> handoff create account_id body w = (Ok intent_id, w') ->
  exists cl r u, loads_as account_id body (current (snd w)) cl r u
  /\ (te_operator_intent_id (st_execution r) = None -> exists t, checked body (current (snd w)) cl r u t)
  /\ exists ctx w2 w3, hc_task_id ctx = cl_task_id cl /\ hc_processing_run_id ctx = cl_processing_run_id cl
     /\ hc_operator_intent_id ctx = te_operator_intent_id (st_execution r)
     /\ tasks (snd w2) = tasks (snd w) /\ accept_operation ctx intent_id w2 = (Ok tt, w3)
     /\ tasks (snd w') = tasks (snd w3) /\ runs_of (snd w') = runs_of (snd w3).
Proof.
  intros C (w0 & H & ET & ER)%transaction_run.
  apply mbind_inv_ok in H as (ctx & w1 & H1 & H). pose proof (within_ok _ _ _ _ _ (looks_load account_id body true) H1) as [_ E1].
  destruct (load_inv _ _ _ _ _ _ H1) as (cl & r & u & La & Ck & Ht & Hr & Hi).
  change (current (snd (started w))) with (current (snd w)) in *.
  apply mbind_inv_ok in H as (intent & w2 & H2 & H). pose proof (within_ok _ _ _ _ _ (C ctx) H2) as [_ [_ E2]].
  apply mbind_inv_ok in H as ([] & w3 & H3 & H). apply mret_inv in H as [<- <-].
  exists cl, r, u. split; [exact La|]. split; [intros N; eexists; by apply Ck|].
  exists ctx, w2, w3. split_and!; try done. by rewrite E2, E1.
Qed.

(** C4. The account's operation for a request is the one its task is bound to.
    When a handoff succeeds, the request names a task of that account and
    purpose, from the same source, by its current claim, and equals the request
    the task had registered, up to a renewed claim.  Either the task was bound
    already, to this intent, and no task changes; or it was bound to none,
    neither it nor its run had ended, both leases and the task's own deadline
    were still to come, an entry was no older than thirty minutes with no
    operation on another version of its message, and now the task is dispatched
    with this intent, every other task is as it was, and the run has succeeded. *)
Theorem handoff_binds create account_id body (w w' : World) intent_id :
  leaves_tasks create -> handoff create account_id body w = (Ok intent_id, w') ->
  exists cl r u i, loads_as account_id body (current (snd w)) cl r u /\ _uuid (PStr intent_id) "intent_id" = Ok i
  /\ match te_operator_intent_id (st_execution r) with
     | Some e => e = i /\ tasks (snd w') = tasks (snd w)
     | None => (exists t, checked body (current (snd w)) cl r u t)
         /\ (exists t, lease_after t (tc_lease_expires_at (st_claim r)) = true
               /\ tasks (snd w') = <[cl_task_id cl := with_intent i t r]> (tasks (snd w)))
         /\ exists u', runs_of (snd w') !! cl_processing_run_id cl = Some u' /\ mr_status u' = "succeeded"
     end.
Proof.
  intros C H. destruct (handoff_inv _ _ _ _ _ _ C H) as (cl & r & u & La & Ck & ctx & w2 & w3 & Ht & Hr & Hi & E & H3 & ET & ER).
  rewrite ET, ER. destruct (accept_inv _ _ _ _ H3) as (i & U & K). exists cl, r, u, i. split; [exact La|]. split; [exact U|].
  rewrite Hi in K. destruct (te_operator_intent_id (st_execution r)) as [e|] eqn:N.
  - destruct K as [-> ->]. done.
  - destruct K as (r' & L & El & T & R). rewrite Ht, E in L. rewrite (la_task _ _ _ _ _ _ La) in L. injection L as <-.
    rewrite Hr in R. rewrite Ht, E in T. split_and!; [by apply Ck| |done].
    exists (now_at w2). split; [|done]. unfold eligible in El. destruct (trade_intents _ !! i); [|done].
    destruct (current_run r _); [|done]. rewrite !andb_true_iff in El. by decompose [and] El.
Qed.

(** ** The queue and the ingress together *)

Inductive system_step (w w' : World) : Prop :=
| by_queue : queue_step w w' -> system_step w w'
| by_ingress create account_id body x : leaves_tasks create -> handoff create account_id body w = (x, w') -> system_step w w'.

Lemma system_moves w w' : sound w -> rtc system_step w w' -> moves w w'.
Proof.
  intros S R. revert S. induction R as [w|w w1 w2 St _ IH]; intros S; [by apply sound_looks|].
  assert (M : moves w w1) by (destruct St; [by apply queue_step_moves | by eapply handoff_moves]).
  destruct M as [S1 T1]. destruct (IH S1) as [S2 T2]. split; [done | by etransitivity].
Qed.

(** C3. One claim at a time per account.  Whatever the workers, the operators and
    the others that write to the database do, in whatever order and however
    they end, no two tasks of an account are ever leased or reconciling at
    once: not now, and not at any later time. *)
Theorem account_exclusive w w' k1 k2 r1 r2 t :
  sound w -> rtc system_step w w' ->
  tasks (snd w') !! k1 = Some r1 -> tasks (snd w') !! k2 = Some r2 -> row_account r1 = row_account r2 ->
  now_at w' <= t -> busy t r1 = true -> busy t r2 = true -> k1 = k2.
Proof.
  intros S R L1 L2 A N B1 B2. destruct (system_moves _ _ S R) as [S' _].
  eapply (so_live _ S'); eauto using busy_earlier.
Qed.

(** C11. What a task has come to is final.  A task that has ended, or was accepted
    for an operation, keeps its row through everything the workers and the
    operators do.  It cannot be ended again, under any token; and a handoff of
    its request either raises or gives the operation it was accepted for, so a
    task that expired, failed or was skipped never gets one. *)
Theorem settled_for_good w w' k r :
  sound w -> tasks (snd w) !! k = Some r -> settled r = true -> rtc system_step w w' ->
  tasks (snd w') !! k = Some r
  /\ (forall token status d n sr, exists x w2,
        complete_signal_task k token status d n sr w' = (Raise x, w2) /\ current (snd w2) = current (snd w'))
  /\ (forall create account_id body intent_id w2 cl source,
        leaves_tasks create -> read_claim account_id body = Ok (cl, source) -> cl_task_id cl = k ->
        handoff create account_id body w' = (Ok intent_id, w2) ->
        exists i, _uuid (PStr intent_id) "intent_id" = Ok i /\ te_operator_intent_id (st_execution r) = Some i).
Proof.
  intros S L Se R. destruct (system_moves _ _ S R) as [S' T]. destruct (T k r L) as (r' & L' & _ & F & _).
  rewrite (F Se) in L'. clear F r'. split_and!; [done| |].
  - intros token status d n sr. apply complete_refused; [apply S'|]. intros r' Lr. rewrite L' in Lr. injection Lr as <-. by left.
  - intros create a body intent w2 cl source C Rc K H. destruct (handoff_inv _ _ _ _ _ _ C H) as (cl' & r' & u & La & Op & ctx & w3 & w4 & _ & _ & Hi & _ & A & _).
    destruct (accept_inv _ _ _ _ A) as (i & U & Q). exists i. split; [done|]. destruct (la_claim _ _ _ _ _ _ La) as (source' & Rc' & _). rewrite Rc in Rc'. injection Rc' as <- <-.
    pose proof (la_task _ _ _ _ _ _ La) as Lt. rewrite K, L' in Lt. injection Lt as <-.
    rewrite Hi in Q. destruct (te_operator_intent_id _) as [e|]; [by destruct Q as [-> _]|]. exfalso. destruct (Op eq_refl) as [t Ck].
    pose proof (ck_unexpired _ _ _ _ _ _ Ck) as X. unfold claim_unexpired in X. rewrite !andb_true_iff in X.
    destruct X as [[[X _] _] _]. rewrite not_settled in Se; [done|]. by eapply str_in_of.
Qed.

(** ** Examples *)

Definition uuid_of (c : string) : string := "0a0a0a0a-0000-4000-8000-00000000000" +:+ c.

Definition signal_body : dict := [
  ("account_id", PStr "acct-a"); ("action", PStr "open_position"); ("raw_message_id", PStr (uuid_of "1"));
  ("decision_id", PStr "d-1"); ("symbol", PStr "BTCUSDT");
  ("source_identity", PDict [("source_platform", PStr "telegram"); ("channel_id", PStr "-100");
     ("source_message_id", PStr "17"); ("edit_version", PStr "1"); ("account_id", PStr "acct-a")]);
  ("signal_claim", PDict [("task_id", PStr (uuid_of "2")); ("processing_run_id", PStr (uuid_of "3"));
     ("claim_token", PStr (uuid_of "4")); ("attempt", PInt 1); ("stable_action_or_leg_id", PStr "leg-1")])].

Definition task_2 : task_row := {|
  st_origin := {| to_source := {| si_source_platform := "telegram"; si_channel_id := "-100"; si_source_message_id := "17";
                    si_edit_version := "1"; si_account_id := "acct-a" |};
    to_identity_key := "key"; to_action := "evaluate"; to_raw_message_id := uuid_of "1"; to_related_task_id := None;
    to_expires_at := None; to_processing_purpose := "signal"; to_created_at := seconds 900 |};
  st_claim := {| tc_processing_run_id := Some (uuid_of "3"); tc_attempt := 1; tc_claim_token := Some (uuid_of "4");
    tc_worker_id := Some "worker-1"; tc_lease_expires_at := Some (seconds 1100) |};
  st_outcome := {| tu_status := "reconciling"; tu_disposition := Some "pending";
    tu_disposition_reason := Some "operator_result_pending"; tu_shadow_result := [] |};
  st_execution := {| te_request := Some signal_body; te_context := Some [("account_id", PStr "acct-a")];
    te_operator_intent_id := None |};
  st_updated_at := seconds 950 |}.

Definition run_3 : processing_run_row := {|
  mr_raw_message_id := uuid_of "1"; mr_worker_id := Some "worker-1"; mr_status := "started";
  mr_lease_expires_at := Some (seconds 1100); mr_started_at := seconds 940; mr_finished_at := None; mr_error := None;
  mr_attempt := 1; mr_claim_token := Some (uuid_of "4"); mr_account_id := Some "acct-a"; mr_processing_purpose := "signal" |}.

(** A registered task of acct-a, at 00:16:40. *)
Definition registered_world : World := (wall 1000, connect (set_desk (fun _ => {|
  operator_commands := ∅; command_node_acks := ∅; position_revisions := ∅; position_revision_invalidations := ∅;
  signal_dispatch_tasks := {[uuid_of "2" := task_2]}; message_processing_runs := {[uuid_of "3" := run_3]};
  active_fencing_epoch := None; node_writers := ∅;
  raw_payloads := {[uuid_of "1" := [("source_ts", PStr "1970-01-01T00:15:00Z")]]};
  order_management_settings := ∅; order_management_setting_versions := ∅ |}) empty_db) 0).

(** The ingress's intent. *)
Definition new_intent (ctx : HandoffContext) : intent_row := {|
  ti_hermes_decision_id := "d-1"; ti_risk_decision_id := "risk-1"; ti_account_id := hc_account_id ctx;
  ti_instrument_id := "BTCUSDT"; ti_action := "open_position"; ti_status := "approved"; ti_order_plan := [];
  ti_risk_budget := []; ti_target_position_id := None; ti_valid_until := seconds 5000;
  ti_idempotency_key := hc_idempotency_key ctx; ti_approved_at := None; ti_updated_at := 0 |}.

Definition create_intent (intent_id : string) (ctx : HandoffContext) : M World string :=
  _ ← on_conn (execute (set_trade_intents (<[intent_id := new_intent ctx]>)));
  mret intent_id.

Lemma create_leaves intent_id : leaves_tasks (create_intent intent_id).
Proof.
  intros ctx [u c]. split; [done|].
  exact (tasks_same_execute (set_trade_intents (<[intent_id := new_intent ctx]>)) (fun _ => eq_refl) c).
Qed.

Lemma wall_monotone late : monotone (wall late).
Proof.
  intros i j L. unfold wall. cbn [server_clock]. unfold seconds. destruct (Nat.ltb_spec i late), (Nat.ltb_spec j late); lia.
Qed.

Lemma registered_sound : sound registered_world.
Proof.
  assert (F : forall n, tasks (snd registered_world) !! ("uuid-" +:+ int_str n) = None).
  { intros n. cbn. apply lookup_singleton_ne. discriminate. }
  split; [apply wall_monotone|done|intros n _; apply F|].
  intros k1 k2 r1 r2. cbn. rewrite !lookup_singleton_Some. by intros [<- _] [<- _].
Qed.

Lemma world_17_sound late : sound (world_17 late).
Proof.
  split; [apply wall_monotone|done|intros n _; apply lookup_empty|].
  intros k1 k2 r1 r2. cbn. by rewrite lookup_empty.
Qed.

Example renewed_hash_witness :
  let renewed := dset "signal_claim" (PDict [("task_id", PStr (uuid_of "2")); ("processing_run_id", PStr (uuid_of "8"));
     ("claim_token", PStr (uuid_of "9")); ("attempt", PInt 2); ("stable_action_or_leg_id", PStr "leg-1")]) signal_body in
  canonical_request_hash renewed = canonical_request_hash signal_body.
Proof.
  cbv zeta. exact (renewed_hash signal_body
    [("task_id", PStr (uuid_of "2")); ("processing_run_id", PStr (uuid_of "3")); ("claim_token", PStr (uuid_of "4"));
     ("attempt", PInt 1); ("stable_action_or_leg_id", PStr "leg-1")]
    [("processing_run_id", PStr (uuid_of "8")); ("claim_token", PStr (uuid_of "9")); ("attempt", PInt 2)] []
    eq_refl ltac:(by repeat constructor) ltac:(by constructor)).
Defined.

Example handoff_binds_witness :
  let w' := snd (handoff (create_intent (uuid_of "5")) "acct-a" signal_body registered_world) in
  (exists t, tasks (snd w') = <[uuid_of "2" := with_intent (uuid_of "5") t task_2]> (tasks (snd registered_world)))
  /\ exists u', runs_of (snd w') !! uuid_of "3" = Some u' /\ mr_status u' = "succeeded".
Proof.
  cbv zeta. destruct (handoff (create_intent (uuid_of "5")) "acct-a" signal_body registered_world) as [x w'] eqn:H.
  assert (X : x = Ok (uuid_of "5")) by (apply (f_equal fst) in H; cbn [fst] in H; rewrite <- H; vm_compute; reflexivity). subst x.
  destruct (handoff_binds _ _ _ _ _ _ (create_leaves _) H) as (cl & r & u & i & La & U & K). cbn [snd].
  vm_compute in U. injection U as <-.
  destruct (la_claim _ _ _ _ _ _ La) as (src & Rc & _). vm_compute in Rc. injection Rc as <- <-.
  pose proof (la_task _ _ _ _ _ _ La) as Lt. vm_compute in Lt. injection Lt as <-. cbn [st_execution te_operator_intent_id] in K.
  destruct K as (_ & (t & _ & T) & R). split; [exists t; exact T | exact R].
Defined.

Example account_exclusive_witness :
  let w := snd (claimed_17 100) in
  match tasks (snd w) !! "uuid-0" with
  | Some r => busy (now_at w) r = true /\ "uuid-0" = "uuid-0"
  | None => False
  end.
Proof.
  cbv zeta. set (w1 := then_run (in_transaction (on_conn (enqueue_signal_task (request_17 "acct-a")))) (world_17 100)).
  assert (R : rtc system_step (world_17 100) (snd (claimed_17 100))).
  { eapply rtc_l with w1; [|eapply rtc_once].
    - apply by_queue. eapply step_enqueue. unfold w1, then_run. apply surjective_pairing.
    - apply by_queue. eapply step_claim_signal. unfold claimed_17. fold w1. apply surjective_pairing. }
  destruct (tasks (snd (snd (claimed_17 100))) !! "uuid-0") as [r|] eqn:L; [|vm_compute in L; discriminate L].
  assert (B : busy (now_at (snd (claimed_17 100))) r = true).
  { revert L. vm_compute. intros L. injection L as <-. reflexivity. }
  split; [exact B|]. exact (account_exclusive (world_17 100) (snd (claimed_17 100)) "uuid-0" "uuid-0" r r _
    (world_17_sound 100) R L L eq_refl (Z.le_refl _) B B).
Defined.

Example settled_for_good_witness :
  let w' := snd (handoff (create_intent (uuid_of "5")) "acct-a" signal_body registered_world) in
  exists r, tasks (snd w') !! uuid_of "2" = Some r /\ te_operator_intent_id (st_execution r) = Some (uuid_of "5")
  /\ exists x w2, complete_signal_task (uuid_of "2") (uuid_of "4") "failed" None None [] w' = (Raise x, w2)
       /\ current (snd w2) = current (snd w').
Proof.
  cbv zeta.
  assert (V : (fun r => (settled r, te_operator_intent_id (st_execution r)))
                <$> tasks (snd (snd (handoff (create_intent (uuid_of "5")) "acct-a" signal_body registered_world))) !! uuid_of "2"
              = Some (true, Some (uuid_of "5"))) by (vm_compute; reflexivity).
  destruct (handoff (create_intent (uuid_of "5")) "acct-a" signal_body registered_world) as [x w'] eqn:H. cbn [snd] in *.
  assert (S : sound w') by exact (proj1 (handoff_moves _ _ _ _ _ _ (create_leaves _) registered_sound H)). clear H.
  destruct (tasks (snd w') !! uuid_of "2") as [r|] eqn:L; [|discriminate V]. injection V as Se I.
  destruct (settled_for_good w' w' (uuid_of "2") r S L Se (rtc_refl _ _)) as (_ & K & _).
  exists r. split; [reflexivity|]. split; [exact I|]. apply K.
Defined.
