(* ===== verification/Publisher.v ===== *)
(** * Publisher: delivering the outbox

    control-plane/outbox/publisher.py: pending rows of outbox_events (Store.v)
    are handed to a sink, oldest first, and marked as published, or as failed
    when the sink raises.  The sink is outside the repository: a class states
    what its contract in the source asks, that it applies an event once per
    idempotency key.  A process may die after a delivery and before the commit;
    the row is then pending still and is delivered again.  Row locks are
    represented by running the transactions one after another. *)

From Stdlib Require Import ZArith Lia.
From S2P Require Import Prelude Decimal PyString DecText PyValue Sha256 Store External Claims.
Open Scope string_scope.
Open Scope Z_scope.

Record OutboxEvent := {
  oe_outbox_event_id : string;
  oe_status : string;
  oe_aggregate_type : string;
  oe_aggregate_id : string;
  oe_event_type : string;
  oe_payload : dict;
  oe_trace_id : option string;
  oe_attempts : Z;
  oe_created_at : Z }.

Definition idempotency_key (e : OutboxEvent) : string := oe_outbox_event_id e.

Definition OutboxStateError (msg : string) : exn := RuntimeError "OutboxStateError" msg.

Definition _event_from_row (r : outbox_row) : OutboxEvent := {|
  oe_outbox_event_id := ob_id r; oe_status := ob_status r; oe_aggregate_type := ob_aggregate_type r;
  oe_aggregate_id := ob_aggregate_id r; oe_event_type := ob_event_type r; oe_payload := ob_payload r;
  oe_trace_id := ob_trace_id r; oe_attempts := ob_attempts r; oe_created_at := ob_created_at r |}.

(** [exc.__class__.__name__] and [str(exc)] *)
Definition exn_class (e : exn) : string :=
  match e with
  | ValueError _ => "ValueError"
  | KeyError _ => "KeyError"
  | TypeError _ => "TypeError"
  | InvalidOperation => "InvalidOperation"
  | DivisionByZero => "DivisionByZero"
  | RuntimeError c _ => c
  end.

Definition exn_str (e : exn) : string :=
  match e with
  | ValueError m | TypeError m | RuntimeError _ m => m
  | KeyError k => "'" +:+ k +:+ "'"
  | InvalidOperation => "[<class 'decimal.ConversionSyntax'>]"
  | DivisionByZero => "[<class 'decimal.DivisionByZero'>]"
  end.

(** [f"{exc.__class__.__name__}: {exc}"[:2000]] *)
Definition _format_error (e : exn) : string := String.substring 0 2000 (exn_class e +:+ ": " +:+ exn_str e).

(** [UPDATE outbox_events SET ... WHERE outbox_event_id = ... AND status =
    'pending'], with the number of rows it changed. *)
Definition update_pending (outbox_event_id : string) (f : outbox_row -> outbox_row) : M Conn nat :=
  let hit := fun r => String.eqb (ob_id r) outbox_event_id && String.eqb (ob_status r) "pending" in
  n ← select (fun d => length (filter (fun r => hit r = true) (outbox_events d)));
  _ ← execute (set_outbox_events (map (fun r => if hit r then f r else r)));
  mret n.

Definition failed_row (error : string) (now : Z) (r : outbox_row) : outbox_row := {|
  ob_id := ob_id r; ob_status := "failed"; ob_aggregate_type := ob_aggregate_type r; ob_aggregate_id := ob_aggregate_id r;
  ob_event_type := ob_event_type r; ob_payload := ob_payload r; ob_trace_id := ob_trace_id r;
  ob_attempts := ob_attempts r + 1; ob_next_attempt_at := ob_next_attempt_at r; ob_published_at := ob_published_at r;
  ob_failed_at := Some now; ob_error := Some error; ob_created_at := ob_created_at r |}.

Definition published_row (now : Z) (r : outbox_row) : outbox_row := {|
  ob_id := ob_id r; ob_status := "published"; ob_aggregate_type := ob_aggregate_type r; ob_aggregate_id := ob_aggregate_id r;
  ob_event_type := ob_event_type r; ob_payload := ob_payload r; ob_trace_id := ob_trace_id r;
  ob_attempts := ob_attempts r + 1; ob_next_attempt_at := ob_next_attempt_at r; ob_published_at := Some now;
  ob_failed_at := None; ob_error := None; ob_created_at := ob_created_at r |}.

Definition _insert_outbox_audit (event : OutboxEvent) (event_type : string) (payload : dict) : M Conn unit :=
  let raw_message_id := if String.eqb (oe_aggregate_type event) "raw_message" then uuid_text <$> uuid_hex (oe_aggregate_id event)
                        else None in
  _ ← uuid4;
  now ← get_now;
  execute (set_audit_events (fun t => (t ++ [{|
    au_event_type := event_type; au_aggregate_type := oe_aggregate_type event; au_aggregate_id := oe_aggregate_id event;
    au_actor := Some "outbox_publisher"; au_trace_id := oe_trace_id event; au_raw_message_id := raw_message_id;
    au_intent_id := None;
    au_payload := dupdate [("outbox_event_id", PStr (oe_outbox_event_id event)); ("outbox_event_type", PStr (oe_event_type event))] payload;
    au_created_at := now |}])%list)).

Definition due (now : Z) (r : outbox_row) : bool :=
  String.eqb (ob_status r) "pending" && match ob_next_attempt_at r with None => true | Some t => t <=? now end.

Definition _select_event_for_update (event_id : string) : M Conn OutboxEvent :=
  row ← select (fun d => List.find (fun r => String.eqb (ob_id r) event_id) (outbox_events d));
  match row with
  | Some r => mret (_event_from_row r)
  | None => mraise (OutboxStateError ("outbox event " +:+ event_id +:+ " does not exist"))
  end.

Section publisher.
Context {X : Type} (deliver : OutboxEvent -> M X unit).

Definition mark_failed (event : OutboxEvent) (e : exn) : M Conn string :=
  now ← get_now;
  n ← update_pending (oe_outbox_event_id event) (failed_row (_format_error e) now);
  if negb (n =? 1)%nat then
    mraise (OutboxStateError ("failed to mark outbox event " +:+ oe_outbox_event_id event +:+ " as failed"))
  else
    _ ← _insert_outbox_audit event "outbox.failed" [("error", PStr (_format_error e)); ("attempt", PInt (oe_attempts event + 1))];
    mret "failed".

Definition mark_published (event : OutboxEvent) : M Conn string :=
  now ← get_now;
  n ← update_pending (oe_outbox_event_id event) (published_row now);
  if negb (n =? 1)%nat then
    mraise (OutboxStateError ("failed to mark outbox event " +:+ oe_outbox_event_id event +:+ " as published"))
  else
    _ ← _insert_outbox_audit event "outbox.published" [("attempt", PInt (oe_attempts event + 1))];
    mret "published".

Definition _deliver_locked_event (event : OutboxEvent) : M (X * Conn) string :=
  delivered ← try_except (_ ← on_external (deliver event); mret None) (fun e => mret (Some e));
  match delivered with
  | Some e => on_conn (mark_failed event e)
  | None => on_conn (mark_published event)
  end.

Definition next_body : M (X * Conn) string :=
  now ← on_conn get_now;
  row ← on_conn (select (fun d => hd_error (sort_by oldest_outbox (filter (fun r => due now r = true) (outbox_events d)))));
  match row with
  | None => mret "empty"
  | Some r => _deliver_locked_event (_event_from_row r)
  end.

Definition _publish_next_pending : M (X * Conn) string := transaction_in next_body.

(** [for _ in range(limit)] *)
Fixpoint publish_loop (limit : nat) (published : Z) : M (X * Conn) Z :=
  match limit with
  | O => mret published
  | S limit =>
      result ← _publish_next_pending;
      if String.eqb result "empty" then mret published
      else publish_loop limit (if String.eqb result "published" then published + 1 else published)
  end.

(** [OutboxPublisher(sink, batch_size=...)] *)
Definition make_publisher (batch_size : Z) : result Z :=
  if batch_size <=? 0 then Raise (ValueError "batch_size must be positive") else Ok batch_size.

Definition publish_pending_once (default_size : Z) (batch_size : option Z) : M (X * Conn) Z :=
  let limit := match batch_size with None | Some 0 => default_size | Some n => n end in
  if limit <=? 0 then mraise (ValueError "batch_size must be positive") else publish_loop (Z.to_nat limit) 0.

Definition event_body (event_id : string) : M (X * Conn) string :=
  event ← on_conn (_select_event_for_update event_id);
  if String.eqb (oe_status event) "published" then mret "already_published"
  else if negb (String.eqb (oe_status event) "pending") then
    mraise (OutboxStateError ("outbox event " +:+ oe_outbox_event_id event +:+ " is " +:+ oe_status event +:+ ", not pending"))
  else _deliver_locked_event event.

Definition publish_event (event_id : string) : M (X * Conn) string := transaction_in (event_body event_id).

(** The process dies before the transaction commits: what the sink has is kept,
    what the database has is undone. *)
Definition cut {A} (m : M (X * Conn) A) (w : X * Conn) : X * Conn :=
  let w' := snd (m w) in (fst w', rollback (snd w')).

End publisher.

(** ** The sink's contract *)

(** An event the sink was given is applied once per key; an attempt that raised
    may have been applied or not. *)
Definition applied (effects : list string) (key : string) : list string :=
  if decide (key ∈ effects) then effects else (effects ++ [key])%list.

Class IdempotentSink {X} (deliver : OutboxEvent -> M X unit) := {
  effects : X -> list string;
  deliver_applies e x x' : deliver e x = (Ok tt, x') -> effects x' = applied (effects x) (idempotency_key e);
  deliver_raises e x ex x' : deliver e x = (Raise ex, x') ->
    effects x' = effects x \/ effects x' = applied (effects x) (idempotency_key e) }.

Lemma applied_in l k : k ∈ applied l k.
Proof. unfold applied. case_decide; [done|]. apply elem_of_app. right. by left. Qed.

Lemma applied_mono l k k' : k' ∈ l -> k' ∈ applied l k.
Proof. unfold applied. case_decide; [done|]. intros E. apply elem_of_app. by left. Qed.

Lemma applied_nodup l k : NoDup l -> NoDup (applied l k).
Proof.
  unfold applied. case_decide as D; [done|]. intros N. apply NoDup_app. split_and!; [done| |apply NoDup_singleton].
  intros x I J. apply list_elem_of_singleton in J as ->. done.
Qed.

Lemma applied_prefix l k : l `prefix_of` applied l k.
Proof. unfold applied. case_decide; [done | by apply prefix_app_r]. Qed.

(** ** One delivery *)

Abbreviation rows c := (outbox_events (current c)).

Definition pending_row (id : string) (r : outbox_row) : bool := String.eqb (ob_id r) id && String.eqb (ob_status r) "pending".

Definition with_rows (f : outbox_row -> outbox_row) (id : string) (t : list outbox_row) : list outbox_row :=
  map (fun r => if pending_row id r then f r else r) t.

Lemma pending_once (t : list outbox_row) r :
  NoDup (map ob_id t) -> r ∈ t -> ob_status r = "pending" ->
  length (filter (fun r' => pending_row (ob_id r) r' = true) t) = 1%nat.
Proof.
  intros N I S. induction t as [|r' t IH]; [by apply elem_of_nil in I|]. cbn in N. apply NoDup_cons in N as [D N].
  assert (F : forall t, ob_id r ∉ map ob_id t -> filter (fun r' => pending_row (ob_id r) r' = true) t = []).
  { clear. intros t D. apply length_zero_iff_nil, length_zero_iff_nil. destruct (filter _ t) as [|y l] eqn:E; [done|]. exfalso.
    assert (I : y ∈ filter (fun r' => pending_row (ob_id r) r' = true) t) by (rewrite E; by left).
    apply list_elem_of_filter in I as [P I]. unfold pending_row in P. apply andb_true_iff in P as [P _]. apply String.eqb_eq in P.
    apply D. rewrite <- P. apply list_elem_of_fmap. by exists y. }
  apply elem_of_cons in I as [<-|I].
  - rewrite filter_cons_True by by (unfold pending_row; rewrite String.eqb_refl, S). cbn. by rewrite F.
  - rewrite filter_cons_False; [by apply IH|]. unfold pending_row. intros P. apply andb_true_iff in P as [P _].
    apply String.eqb_eq in P. apply D. rewrite P. apply list_elem_of_fmap. by exists r.
Qed.

Lemma update_pending_run f c r :
  NoDup (map ob_id (rows c)) -> r ∈ rows c -> ob_status r = "pending" ->
  update_pending (ob_id r) f c = (Ok 1%nat, {| committed := committed c;
    current := set_outbox_events (map (fun r' => if pending_row (ob_id r) r' then f r' else r')) (current c);
    uuids := uuids c; clock := clock c |}).
Proof.
  intros N I S. unfold update_pending, select, execute, mbind, M_bind. cbv beta iota.
  pose proof (pending_once _ _ N I S) as L. unfold pending_row in L. by rewrite L.
Qed.

Lemma publisher_audit e t p : within aged (_insert_outbox_audit e t p).
Proof. unfold _insert_outbox_audit. within. Qed.

Section delivery.
Context {X : Type} (deliver : OutboxEvent -> M X unit).

(** What handing a pending row to the sink comes to. *)
Lemma locked_run (x : X) c r :
  NoDup (map ob_id (rows c)) -> r ∈ rows c -> ob_status r = "pending" ->
  let '(res, x') := deliver (_event_from_row r) x in
  exists c', _deliver_locked_event deliver (_event_from_row r) (x, c)
     = (Ok (match res with Ok _ => "published" | Raise _ => "failed" end), (x', c'))
  /\ rows c' = with_rows (match res with Ok _ => published_row (clock c) | Raise e => failed_row (_format_error e) (clock c) end) (ob_id r) (rows c)
  /\ committed c' = committed c /\ uuids c <= uuids c' /\ clock c' = clock c.
Proof.
  intros N I S. unfold _deliver_locked_event, try_except, on_external, mbind, M_bind. cbn [fst snd].
  destruct (deliver (_event_from_row r) x) as [[[]|e] x'] eqn:D; cbn [fst snd mret M_ret]; unfold on_conn; cbn [fst snd];
    unfold mark_published, mark_failed, get_now, mbind, M_bind; cbv beta iota;
    change (oe_outbox_event_id (_event_from_row r)) with (ob_id r); rewrite update_pending_run by done; cbn [Nat.eqb negb];
    eexists; (split; [done|]); cbn; split_and!; done || lia.
Qed.
End delivery.

(** ** Every published event, once *)

Section exactly_once.
Context {X : Type} (deliver : OutboxEvent -> M X unit) `{!IdempotentSink deliver}.

(** The events that a writer other than the publisher marks as published: the
    Hermes worker does so for the raw messages it has decided. *)
Context (others : string -> Prop).

(** Ids are a primary key, and the sink has applied what is published, unless
    another writer marked it. *)
Record outbox_ok (w : X * Conn) : Prop := {
  oo_idle : idle (snd w);
  oo_ids : NoDup (map ob_id (rows (snd w)));
  oo_once : NoDup (effects (fst w));
  oo_applied : forall r, r ∈ rows (snd w) -> ob_status r = "published" -> ~ others (ob_id r) ->
    ob_id r ∈ effects (fst w) }.

Lemma with_rows_ids f id t : (forall r, ob_id (f r) = ob_id r) -> map ob_id (with_rows f id t) = map ob_id t.
Proof. intros K. unfold with_rows. rewrite map_map. apply map_ext. intros r. by destruct (pending_row id r). Qed.

Lemma delivered_effects r x :
  let '(res, x') := deliver (_event_from_row r) x in
  (effects x' = effects x \/ effects x' = applied (effects x) (ob_id r)) /\ (res = Ok tt -> ob_id r ∈ effects x').
Proof.
  destruct (deliver (_event_from_row r) x) as [[[]|e] x'] eqn:D.
  - apply deliver_applies in D. rewrite D. split; [by right|]. intros _. apply applied_in.
  - apply deliver_raises in D. by split.
Qed.

Lemma effects_grow r x :
  let x' := snd (deliver (_event_from_row r) x) in
  effects x `prefix_of` effects x' /\ (NoDup (effects x) -> NoDup (effects x')).
Proof.
  pose proof (delivered_effects r x) as D. destruct (deliver (_event_from_row r) x) as [res x']. cbn. destruct D as [[-> | ->] _].
  - done.
  - split; [apply applied_prefix | apply applied_nodup].
Qed.

(** A delivery that is committed, and one that is cut. *)
Lemma delivered_ok x c r w' s :
  outbox_ok (x, c) -> r ∈ rows c -> ob_status r = "pending" ->
  _deliver_locked_event deliver (_event_from_row r) (x, c) = (Ok s, w') ->
  outbox_ok (fst w', commit (snd w')) /\ effects x `prefix_of` effects (fst w').
Proof.
  intros [I N O A] R S H. pose proof (locked_run deliver x c r N R S) as L. pose proof (delivered_effects r x) as E.
  pose proof (effects_grow r x) as G. destruct (deliver (_event_from_row r) x) as [res x']. cbn in G. destruct G as [P D].
  destruct L as (c' & L & Rows & _). rewrite L in H. injection H as <- <-. cbn [fst snd] in *. split; [|done].
  split; cbn [fst snd commit current]; [done| |by apply D|].
  - rewrite Rows. rewrite with_rows_ids; [done|]. by destruct res.
  - intros r' I' S' T'. rewrite Rows in I'. unfold with_rows in I'. apply list_elem_of_fmap in I' as (r0 & -> & I0).
    destruct (pending_row (ob_id r) r0) eqn:Pr.
    + unfold pending_row in Pr. apply andb_true_iff in Pr as [Pr _]. apply String.eqb_eq in Pr.
      destruct res as [[]|e]; [|done]. cbn. rewrite Pr. by apply E.
    + apply (elem_of_prefix _ _ _ (A r0 I0 S' T') P).
Qed.

(** A row the next delivery can take. *)
Lemma next_run x c :
  (filter (fun r => due (clock c) r = true) (rows c) = [] /\ next_body deliver (x, c) = (Ok "empty", (x, c)))
  \/ exists r, r ∈ rows c /\ due (clock c) r = true /\ next_body deliver (x, c) = _deliver_locked_event deliver (_event_from_row r) (x, c).
Proof.
  set (l := filter _ _).
  assert (E : next_body deliver (x, c) = match hd_error (sort_by oldest_outbox l) with
    | None => (Ok "empty", (x, c)) | Some r => _deliver_locked_event deliver (_event_from_row r) (x, c) end).
  { unfold next_body, on_conn at 1 2, get_now, select, mbind, M_bind. cbn [fst snd]. fold l. by destruct (hd_error _). }
  destruct (hd_error (sort_by oldest_outbox l)) as [r|] eqn:H; rewrite E; clear E.
  - right. exists r. assert (I : r ∈ l).
    { rewrite <- (sort_by_perm oldest_outbox l). destruct (sort_by oldest_outbox l); [done|]. injection H as ->. by left. }
    apply list_elem_of_filter in I as [D I]. split_and!; [exact I|exact D|reflexivity].
  - left. split; [|done]. apply Permutation_nil. rewrite <- (sort_by_perm oldest_outbox l). by destruct (sort_by oldest_outbox l).
Qed.

Lemma due_pending now r : due now r = true -> ob_status r = "pending".
Proof. unfold due. intros P. apply andb_true_iff in P as [P _]. by apply String.eqb_eq in P. Qed.

Lemma event_run id x c :
  (exists y, event_body deliver id (x, c) = (y, (x, c)))
  \/ exists r, r ∈ rows c /\ ob_status r = "pending" /\ event_body deliver id (x, c) = _deliver_locked_event deliver (_event_from_row r) (x, c).
Proof.
  assert (E : event_body deliver id (x, c) = match List.find (fun r => String.eqb (ob_id r) id) (rows c) with
    | None => (Raise (OutboxStateError ("outbox event " +:+ id +:+ " does not exist")), (x, c))
    | Some r => (if String.eqb (ob_status r) "published" then mret "already_published"
                 else if negb (String.eqb (ob_status r) "pending") then
                   mraise (OutboxStateError ("outbox event " +:+ ob_id r +:+ " is " +:+ ob_status r +:+ ", not pending"))
                 else _deliver_locked_event deliver (_event_from_row r)) (x, c) end).
  { unfold event_body, _select_event_for_update, on_conn, select, mbind, M_bind. cbn [fst snd]. by destruct (List.find _ _). }
  rewrite E. clear E. destruct (List.find _ _) as [r|] eqn:F; [|left; by eexists].
  destruct (String.eqb_spec (ob_status r) "published"); [left; by eexists|].
  destruct (String.eqb_spec (ob_status r) "pending") as [S|]; [|left; by eexists]. right. exists r.
  split_and!; [apply find_some in F as [F _]; by apply list_elem_of_In|exact S|reflexivity].
Qed.

Lemma rollback_ok x x' c c' :
  outbox_ok (x, c) -> committed c' = committed c -> effects x `prefix_of` effects x' -> NoDup (effects x') ->
  outbox_ok (x', rollback c').
Proof.
  intros [I N O A] E P D. cbn in I. split; cbn [fst snd rollback current committed]; [done|by rewrite E, <- I|done|].
  intros r Ir S T. rewrite E, <- I in Ir. eapply elem_of_prefix; [by apply A | done].
Qed.

(** A transaction around one delivery, committed or not. *)
Lemma one_delivery {A} (m : M (X * Conn) A) (k : string -> A) w :
  outbox_ok w ->
  (exists y, m w = (y, w))
  \/ (exists r, r ∈ rows (snd w) /\ ob_status r = "pending" /\
      m w = (let '(s, w') := _deliver_locked_event deliver (_event_from_row r) w in (match s with Ok s => Ok (k s) | Raise e => Raise e end, w'))) ->
  (forall x w', transaction_in m w = (x, w') -> outbox_ok w' /\ effects (fst w) `prefix_of` effects (fst w'))
  /\ outbox_ok (cut m w) /\ effects (fst w) `prefix_of` effects (fst (cut m w)).
Proof.
  destruct w as [x c]. intros OK [[y E]|(r & Ir & S & E)].
  - assert (R : outbox_ok (x, rollback c)) by by eapply rollback_ok; [|..]; try apply OK.
    assert (C : outbox_ok (x, commit c)) by (destruct OK; by split).
    unfold cut, transaction_in. rewrite E. cbn [fst snd]. split; [|done]. intros z w' H. by destruct y; injection H as _ <-.
  - pose proof (locked_run deliver x c r (oo_ids _ OK) Ir S) as L. pose proof (effects_grow r x) as G.
    destruct (deliver (_event_from_row r) x) as [res x'] eqn:D. cbn in G. destruct G as [P N], L as (c' & L & _ & Cc & _).
    unfold cut, transaction_in. rewrite E, L. cbn [fst snd]. split.
    + intros z w' H. injection H as _ <-. by apply (delivered_ok x c r (x', c') _ OK Ir S L).
    + split; [|done]. eapply rollback_ok; [exact OK|done|done|]. apply N, OK.
Qed.

Lemma whole {A} (p : result A * (X * Conn)) : p = (let '(s, w') := p in (match s with Ok s => Ok s | Raise e => Raise e end, w')).
Proof. by destruct p as [[?|?] ?]. Qed.

Lemma next_ok w :
  outbox_ok w ->
  (forall x w', _publish_next_pending deliver w = (x, w') -> outbox_ok w' /\ effects (fst w) `prefix_of` effects (fst w'))
  /\ outbox_ok (cut (next_body deliver) w) /\ effects (fst w) `prefix_of` effects (fst (cut (next_body deliver) w)).
Proof.
  intros OK. apply (one_delivery (next_body deliver) (fun s => s)); [done|]. destruct w as [x c].
  destruct (next_run x c) as [[_ E]|(r & I & D & E)]; [left; by eexists|right]. exists r. split_and!; [done|by eapply due_pending|].
  rewrite E. apply whole.
Qed.

Lemma event_ok id w :
  outbox_ok w ->
  (forall x w', publish_event deliver id w = (x, w') -> outbox_ok w' /\ effects (fst w) `prefix_of` effects (fst w'))
  /\ outbox_ok (cut (event_body deliver id) w) /\ effects (fst w) `prefix_of` effects (fst (cut (event_body deliver id) w)).
Proof.
  intros OK. apply (one_delivery (event_body deliver id) (fun s => s)); [done|]. destruct w as [x c].
  destruct (event_run id x c) as [E|(r & I & S & E)]; [by left|right]. exists r. split_and!; [done..|]. rewrite E. apply whole.
Qed.

Lemma loop_ok n p w x w' :
  outbox_ok w -> publish_loop deliver n p w = (x, w') -> outbox_ok w' /\ effects (fst w) `prefix_of` effects (fst w').
Proof.
  revert p w. induction n as [|n IH]; intros p w OK H; cbn [publish_loop] in H; [by injection H as _ <-|].
  unfold mbind, M_bind in H. destruct (_publish_next_pending deliver w) as [y w1] eqn:E.
  destruct (proj1 (next_ok w OK) y w1 E) as [OK1 P1]. destruct y as [s|e]; [|by injection H as _ <-].
  destruct (String.eqb s "empty"); [by injection H as _ <-|]. destruct (IH _ _ OK1 H) as [OK2 P2]. split; [done | by etransitivity].
Qed.

(** A pass or a single publication; either cut short by the end of the process;
    and the work of others, who never mark an event as published but the raw
    messages the Hermes worker consumes. *)
Inductive outbox_step (w w' : X * Conn) : Prop :=
| step_pass size batch x : publish_pending_once deliver size batch w = (x, w') -> outbox_step w w'
| step_next x : _publish_next_pending deliver w = (x, w') -> outbox_step w w'
| step_event id x : publish_event deliver id w = (x, w') -> outbox_step w w'
| step_next_cut : w' = cut (next_body deliver) w -> outbox_step w w'
| step_event_cut id : w' = cut (event_body deliver id) w -> outbox_step w w'
| step_others : fst w' = fst w -> idle (snd w') -> NoDup (map ob_id (rows (snd w'))) ->
    (forall r', r' ∈ rows (snd w') -> ob_status r' = "published" -> ~ others (ob_id r') ->
       exists r, r ∈ rows (snd w) /\ ob_id r = ob_id r' /\ ob_status r = "published" /\ ~ others (ob_id r)) ->
    outbox_step w w'.

Lemma outbox_step_ok w w' : outbox_ok w -> outbox_step w w' -> outbox_ok w' /\ effects (fst w) `prefix_of` effects (fst w').
Proof.
  intros OK [size batch x H|x H|id x H| -> |id -> |Fx I N K].
  - unfold publish_pending_once in H. cbv zeta in H. destruct (_ <=? 0); [by injection H as _ <-|]. by eapply loop_ok.
  - by eapply (proj1 (next_ok w OK)).
  - by eapply (proj1 (event_ok id w OK)).
  - apply (next_ok w OK).
  - apply (event_ok id w OK).
  - rewrite Fx. split; [|done]. split; [done|done|rewrite Fx; apply OK|]. intros r' I' S T. rewrite Fx.
    destruct (K r' I' S T) as (r & Ir & <- & S' & T'). by apply OK.
Qed.

Lemma outbox_steps_ok w w' : outbox_ok w -> rtc outbox_step w w' -> outbox_ok w' /\ effects (fst w) `prefix_of` effects (fst w').
Proof.
  intros OK R. revert OK. induction R as [w|w w1 w2 S _ IH]; intros OK; [done|].
  destruct (outbox_step_ok _ _ OK S) as [OK1 P1]. destruct (IH OK1) as [OK2 P2]. split; [done | by etransitivity].
Qed.

Lemma nodup_count (l : list string) x : NoDup l -> x ∈ l -> length (filter (fun k => k = x) l) = 1%nat.
Proof.
  intros N I. induction l as [|y l IH]; [by apply elem_of_nil in I|]. apply NoDup_cons in N as [D N].
  rewrite filter_cons. case_decide as E; [subst y|].
  - cbn. f_equal. apply length_zero_iff_nil. destruct (filter _ l) as [|z k] eqn:F; [done|]. exfalso.
    assert (J : z ∈ filter (fun k => k = x) l) by (rewrite F; by left). by apply list_elem_of_filter in J as [-> J].
  - apply elem_of_cons in I as [->|I]; [done|]. by apply IH.
Qed.

Lemma find_by_id (t : list outbox_row) r :
  NoDup (map ob_id t) -> r ∈ t -> List.find (fun r' => String.eqb (ob_id r') (ob_id r)) t = Some r.
Proof.
  intros N I. induction t as [|y t IH]; [by apply elem_of_nil in I|]. cbn in N. apply NoDup_cons in N as [D N]. cbn.
  apply elem_of_cons in I as [<-|I]; [by rewrite String.eqb_refl|]. destruct (String.eqb_spec (ob_id y) (ob_id r)) as [E|]; [|by apply IH].
  exfalso. apply D. rewrite E. apply list_elem_of_fmap. by exists r.
Qed.

(** C9. Delivered at least once, applied at most once.  For a sink that applies
    an idempotency key once, however often it is delivered ([IdempotentSink]),
    whatever passes and single publications run, and wherever the process dies
    between a delivery and its commit: an event marked as published, of any
    kind, has been applied by the sink exactly once, unless it is one of those
    another writer marks itself, as the Hermes worker does for a raw message it
    has decided; no event is applied twice; what was applied stays applied, in
    its order; and publishing an event again that is published, by whomever,
    calls no sink and changes nothing. *)
Theorem published_exactly_once w w' :
  outbox_ok w -> rtc outbox_step w w' ->
  (forall r, r ∈ rows (snd w') -> ob_status r = "published" ->
     (~ others (ob_id r) -> length (filter (fun k => k = ob_id r) (effects (fst w'))) = 1%nat)
     /\ publish_event deliver (ob_id r) w' = (Ok "already_published", (fst w', commit (snd w'))))
  /\ NoDup (effects (fst w')) /\ effects (fst w) `prefix_of` effects (fst w').
Proof.
  intros OK R. destruct (outbox_steps_ok _ _ OK R) as [[I N O A] P]. split_and!; [|done..]. intros r Ir S. split.
  - intros T. apply nodup_count; [exact O | by apply A].
  - unfold publish_event, transaction_in, event_body, _select_event_for_update, on_conn, select, mbind, M_bind.
    rewrite (find_by_id _ r) by done. cbn. by rewrite S.
Qed.

End exactly_once.

(** ** A pass empties what is due *)

Section drain.
Context {X : Type} (deliver : OutboxEvent -> M X unit).

Definition due_rows (c : Conn) : list outbox_row := filter (fun r => due (clock c) r = true) (rows c).

Lemma with_rows_other f id t : id ∉ map ob_id t -> with_rows f id t = t.
Proof.
  unfold with_rows. induction t as [|r t IH]; [done|]. cbn [map]. intros [D1 D2]%not_elem_of_cons. rewrite IH by done.
  unfold pending_row. by destruct (String.eqb_spec (ob_id r) id) as [<-|].
Qed.

(** The row delivered is due no more; the others stay as they are. *)
Lemma one_fewer now f t r :
  NoDup (map ob_id t) -> r ∈ t -> due now r = true -> due now (f r) = false ->
  length (filter (fun r => due now r = true) t) = S (length (filter (fun r => due now r = true) (with_rows f (ob_id r) t))).
Proof.
  intros N I D F. induction t as [|y t IH]; [by apply elem_of_nil in I|]. cbn in N. apply NoDup_cons in N as [Ny N].
  change (with_rows f (ob_id r) (y :: t)) with ((if pending_row (ob_id r) y then f y else y) :: with_rows f (ob_id r) t).
  apply elem_of_cons in I as [<-|I].
  - replace (pending_row (ob_id r) r) with true by by (unfold pending_row; rewrite String.eqb_refl, (due_pending _ _ D)).
    rewrite with_rows_other by done. rewrite filter_cons_True by done. by rewrite filter_cons_False by by rewrite F.
  - unfold pending_row at 1. destruct (String.eqb_spec (ob_id y) (ob_id r)) as [E|]; cbn [andb].
    + exfalso. apply Ny. rewrite E. apply list_elem_of_fmap. by exists r.
    + rewrite !(filter_cons _ y). case_decide; cbn [length]; by rewrite (IH N I).
Qed.

Lemma loop_drains n p x c :
  NoDup (map ob_id (rows c)) -> (length (due_rows c) < n)%nat ->
  exists q x' c', publish_loop deliver n p (x, c) = (Ok q, (x', c'))
  /\ due_rows c' = [] /\ clock c' = clock c /\ p <= q <= p + Z.of_nat (length (due_rows c)).
Proof.
  revert p x c. induction n as [|n IH]; intros p x c N L; [lia|]. cbn [publish_loop].
  unfold mbind, M_bind, _publish_next_pending at 1, transaction_in.
  destruct (next_run deliver x c) as [[Z0 E]|(r & I & D & E)]; rewrite E.
  - exists p, x, (commit c). cbn. unfold due_rows in *. cbn [commit current clock]. rewrite Z0. split_and!; done || (cbn; lia).
  - pose proof (locked_run deliver x c r N I (due_pending _ _ D)) as R. destruct (deliver (_event_from_row r) x) as [res x'].
    destruct R as (c' & R & Rows & _ & _ & Ck). rewrite R. cbn [fst snd].
    set (f := match res with Ok _ => published_row (clock c) | Raise e => failed_row (_format_error e) (clock c) end) in *.
    assert (Len : length (due_rows c) = S (length (due_rows (commit c')))).
    { unfold due_rows. cbn [commit current clock]. rewrite Ck, Rows. apply one_fewer; [done..|]. subst f. by destruct res. }
    assert (Ne : String.eqb (match res with Ok _ => "published" | Raise _ => "failed" end) "empty" = false) by by destruct res.
    rewrite Ne. match goal with |- context [publish_loop deliver n ?p1 _] =>
      destruct (IH p1 x' (commit c')) as (q & x2 & c2 & H & Z2 & C2 & B) end.
    + cbn. rewrite Rows. rewrite with_rows_ids; [done|]. subst f. by destruct res.
    + lia.
    + exists q, x2, c2. rewrite H. cbn [commit clock] in C2. split_and!; [done|done|congruence|..]; destruct res; cbn [String.eqb] in B; cbn in B; lia.
Qed.
End drain.

(** One pass is enough.  A pass whose batch exceeds the number of events that
    are due returns, whatever the sink does with each of them, and leaves no
    event due: an event the sink takes is published, an event it refuses is
    marked as failed and does not stop the ones behind it. *)
Theorem pass_drains {X} (deliver : OutboxEvent -> M X unit) size x c :
  NoDup (map ob_id (rows c)) -> Z.of_nat (length (due_rows c)) < size ->
  exists n x' c', publish_pending_once deliver size None (x, c) = (Ok n, (x', c'))
  /\ due_rows c' = [] /\ 0 <= n <= Z.of_nat (length (due_rows c)).
Proof.
  intros N L. unfold publish_pending_once. cbv zeta. rewrite (proj2 (Z.leb_gt size 0)) by lia.
  destruct (loop_drains deliver (Z.to_nat size) 0 x c N) as (q & x' & c' & H & Z0 & _ & B); [lia|].
  exists q, x', c'. split_and!; [done|done|lia|lia].
Qed.

(** ** Examples *)

(** A sink that keeps the keys it has seen, and is down for some events. *)
Definition log_deliver (down : list string) (e : OutboxEvent) : M (list string) unit := fun seen =>
  if str_in (idempotency_key e) down then (Raise (RuntimeError "ConnectionError" "sink is down"), seen)
  else (Ok tt, applied seen (idempotency_key e)).

#[export] Instance log_sink down : IdempotentSink (log_deliver down).
Proof.
  refine {| effects := fun seen : list string => seen |}.
  - intros e x x'. unfold log_deliver. destruct (str_in _ _); [done|]. by intros [= <-].
  - intros e x ex x'. unfold log_deliver. destruct (str_in _ _); [|done]. intros [= _ <-]. by left.
Defined.

Definition outbox_event (id : string) (created_at : Z) : outbox_row := {|
  ob_id := id; ob_status := "pending"; ob_aggregate_type := "trade_intent"; ob_aggregate_id := "i-" +:+ id;
  ob_event_type := "trade_intent.approved"; ob_payload := []; ob_trace_id := None; ob_attempts := 0;
  ob_next_attempt_at := None; ob_published_at := None; ob_failed_at := None; ob_error := None; ob_created_at := created_at |}.

Definition outbox_world : list string * Conn :=
  ([], connect (set_outbox_events (fun _ => [outbox_event "b" 2; outbox_event "a" 1; outbox_event "c" 3]) empty_db) (seconds 10)).

Lemma outbox_world_ok down : @outbox_ok _ _ (log_sink down) (fun _ => False) outbox_world.
Proof.
  split; [done|apply (bool_decide_unpack _); vm_compute; exact I|apply NoDup_nil_2|].
  intros r I S. exfalso. cbn in I. rewrite !elem_of_cons in I. destruct I as [->|[->|[->|I]]]; [done..|by apply elem_of_nil in I].
Qed.

(** The process dies after the first delivery; the next pass delivers that event
    again, and the sink has it once. *)
Example published_exactly_once_witness :
  let w' := snd (publish_pending_once (log_deliver ["b"]) 100 None (cut (next_body (log_deliver ["b"])) outbox_world)) in
  fst w' = ["a"; "c"]
  /\ map (fun r => (ob_id r, ob_status r)) (rows (snd w')) = [("b", "failed"); ("a", "published"); ("c", "published")]
  /\ length (filter (fun k => k = "a") (fst w')) = 1%nat.
Proof.
  cbv zeta. set (w1 := cut (next_body (log_deliver ["b"])) outbox_world).
  assert (R : rtc (outbox_step (log_deliver ["b"]) (fun _ => False)) outbox_world (snd (publish_pending_once (log_deliver ["b"]) 100 None w1))).
  { eapply rtc_l with w1; [by apply step_next_cut|]. apply rtc_once. eapply step_pass. apply surjective_pairing. }
  destruct (published_exactly_once _ _ _ _ (outbox_world_ok ["b"]) R) as (P & _ & _).
  split; [vm_compute; reflexivity|]. split; [vm_compute; reflexivity|].
  destruct (List.find (fun r => String.eqb (ob_id r) "a") (rows (snd (snd (publish_pending_once (log_deliver ["b"]) 100 None w1)))))
    as [r|] eqn:F; [|vm_compute in F; discriminate F].
  assert (I : r ∈ rows (snd (snd (publish_pending_once (log_deliver ["b"]) 100 None w1)))) by (apply find_some in F as [F _]; by apply list_elem_of_In).
  vm_compute in F. injection F as <-. exact (proj1 (P _ I eq_refl) (fun F => F)).
Defined.

Example pass_drains_witness :
  exists n x' c', publish_pending_once (log_deliver ["b"]) 100 None outbox_world = (Ok n, (x', c')) /\ due_rows c' = [] /\ n = 2.
Proof.
  destruct (pass_drains (log_deliver ["b"]) 100 [] (snd outbox_world)) as (n & x' & c' & H & D & _).
  - apply (bool_decide_unpack _). vm_compute. exact I.
  - vm_compute. reflexivity.
  - exists n, x', c'. split; [exact H|]. split; [exact D|]. apply (f_equal fst) in H. vm_compute in H. by injection H as <-.
Defined.

(** Nothing ever sets [next_attempt_at], and a failed event is due no more: one
    exception of the sink is the last delivery of the event, though the sink
    comes back and passes go on. *)
Lemma failed_never_retried :
  let w1 := snd (publish_pending_once (log_deliver ["b"]) 100 None outbox_world) in
  let '(n, w2) := publish_pending_once (log_deliver []) 100 None w1 in
  n = Ok 0 /\ fst w2 = ["a"; "c"] /\ ob_status <$> List.find (fun r => String.eqb (ob_id r) "b") (rows (snd w2)) = Some "failed".
Proof. vm_compute. split_and!; reflexivity. Qed.
