(* ===== verification/SignalOperator.v ===== *)
(** * SignalOperator: the request a decision becomes

    hermes-worker/signal_operator.py: a decision of the model, already
    validated against its schema, becomes the body of one operator request, or
    none when it does not trade.  [task] is a [SignalTask]; numbers of a
    decision are integers and finite floats, as its JSON has them; an integer
    too large for a float, on which [math.isfinite] would raise, is not. *)

From Stdlib Require Import ZArith Lia Ascii.
From S2P Require Import Prelude Decimal PyString DecText PyValue Json Sha256 Store External PositionRevision Claims NodeLimits SignalQueue SignalHandoff.
Open Scope string_scope.
Open Scope Z_scope.

Definition _NO_TRADE : list string := ["hold"; "ignore"; "needs_review"].
Definition _ENTRIES : list string := ["open_position"; "add_position"].
Definition _MANAGEMENT : list string := ["close_position"; "move_stop_loss"].
Definition _UNSUPPORTED : list (string * string) := [
  ("partial_close", "HermesDecisionV1 has no explicit close quantity");
  ("replace_take_profits", "HermesDecisionV1 has no take-profit quantities");
  ("move_stop_to_entry", "HermesDecisionV1 has no verified position entry cost")].

(** [v in {...}] of texts; a list or a dictionary cannot be hashed. *)
Definition in_set (v : pyval) (l : list string) : result bool :=
  match v with
  | PStr s => Ok (str_in s l)
  | PList _ => Raise (TypeError "unhashable type: 'list'")
  | PDict _ => Raise (TypeError "unhashable type: 'dict'")
  | _ => Ok false
  end.

Definition _text (value : pyval) (name : string) : result string :=
  match value with
  | PStr s => if is_empty (strip s) || negb (String.eqb s (strip s)) then
                Raise (ValueError (name +:+ " requires an explicit nonempty string")) else Ok s
  | _ => Raise (ValueError (name +:+ " requires an explicit nonempty string"))
  end.

Definition _positive (value : pyval) (name : string) : result dec :=
  match value with
  | PInt z => if z <=? 0 then Raise (ValueError (name +:+ " requires a finite positive number")) else Ok (dec_of_int z)
  | PFloat d => if dleb d dzero then Raise (ValueError (name +:+ " requires a finite positive number")) else Ok d
  | _ => Raise (ValueError (name +:+ " requires an explicit positive number"))
  end.

Definition _entry (intent : dict) : result pyval :=
  match dget "entry" intent with
  | PDict entry =>
      known ← in_set (dget "type" entry) ["market"; "limit"; "zone"];
      if negb known then Raise (ValueError "entry.type must explicitly be market, limit or zone")
      else
        _ ← (if py_eqb (dget "type" entry) (PStr "limit") then
               _ ← _positive (dget "price" entry) "entry.price"; Ok tt else Ok tt);
        _ ← (if py_eqb (dget "type" entry) (PStr "zone") then
               lower ← _positive (dget "price_min" entry) "entry.price_min";
               upper ← _positive (dget "price_max" entry) "entry.price_max";
               if dltb upper lower then Raise (ValueError "entry.price_min must not exceed entry.price_max") else Ok tt
             else Ok tt);
        Ok (PDict entry)
  | _ => Raise (ValueError "entry requires an explicit entry object")
  end.

(** [re.fullmatch(r"([A-Z0-9]+USDT)(?:\.PERP(?:\.BINANCE)?)?", s)], its first group. *)
Definition symbol_char (c : ascii) : bool :=
  is_digit c || ((65 <=? Z.of_nat (nat_of_ascii c)) && (Z.of_nat (nat_of_ascii c) <=? 90)).

Definition usdt_symbol (s : string) : option string :=
  let base := if ends_with ".PERP.BINANCE" s then removesuffix ".PERP.BINANCE" s
              else if ends_with ".PERP" s then removesuffix ".PERP" s else s in
  if sforall symbol_char base && ends_with "USDT" base && (4 <? String.length base)%nat then Some base else None.

(** The action to submit, [None] for a decision that does not trade. *)
Definition trade_action (classification : dict) : result (option string) :=
  let action := dget "action" classification in
  no_trade ← in_set action _NO_TRADE;
  if no_trade : bool then Ok None
  else if negb (match dget "ambiguous" classification with PBool false => true | _ => false end) then
    Raise (ValueError "ambiguous trading decision cannot be submitted")
  else
    talk ← in_set (dget "message_type" classification) ["analysis"; "noise"; "ambiguous"];
    if talk : bool then Raise (ValueError "non-trading message cannot carry an executable action")
    else match action with
    | PStr a =>
        match List.find (fun p => String.eqb (fst p) a) _UNSUPPORTED with
        | Some (_, reason) => Raise (ValueError ("unsupported action " +:+ a +:+ ": " +:+ reason))
        | None => if str_in a _ENTRIES || str_in a _MANAGEMENT then Ok (Some a)
                  else Raise (ValueError ("unsupported action: " +:+ a))
        end
    | v => Raise (ValueError ("unsupported action: " +:+ py_str v))
    end.

(** One field of the source identity. *)
Definition identity_field (s : source_identity) (name : string) : result (string * pyval) :=
  value ← _text (PStr (source_field s name)) ("task." +:+ name);
  if contains "|" value then Raise (ValueError ("task." +:+ name +:+ " contains the business identity delimiter"))
  else Ok (name, PStr value).

Definition client_ref (task_id channel message_id : string) : string :=
  let numeric_channel := lstrip_by (fun c => Ascii.eqb c "-") channel in
  if isdigit numeric_channel && isdigit message_id then "tg-sig-c" +:+ numeric_channel +:+ "-m" +:+ message_id
  else "shadow:" +:+ task_id.

(** The intent of a decision for one account, checked against the task's. *)
Definition account_intent (decision : dict) (account_id : string) : result dict :=
  if String.eqb account_id "unassigned" then Raise (ValueError "task.account_id must be assigned")
  else match dget "intent" decision with
  | PDict intent =>
      if negb (py_eqb (dget "account_scope" intent) (PStr "single")) then
        Raise (ValueError "account_scope must be single for an account-scoped task")
      else if negb (py_eqb (dget "target_account_id" intent) (PStr account_id)) then
        Raise (ValueError "target_account_id must match task.account_id")
      else if bool_decide (is_Some (dlookup "route" decision)) || bool_decide (is_Some (dlookup "route" intent)) then
        Raise (ValueError "route override is unsupported; task owns account routing")
      else Ok intent
  | _ => Raise (ValueError "intent is required")
  end.

(** [signal_claim] of the body, from the task's claim and the decision. *)
Definition claim_fields (task : SignalTask) (decision : dict) (stable : string) : result (string * string * dict) :=
  task_id ← _text (PStr (sk_task_id task)) "task.task_id";
  run_id ← _text (opt_value (sk_processing_run_id task)) "task.processing_run_id";
  raw_message_id ← _text (PStr (sk_raw_message_id task)) "task.raw_message_id";
  claim_token ← _text (opt_value (sk_claim_token task)) "task.claim_token";
  if sk_attempt task <? 1 then Raise (ValueError "task.attempt requires a positive integer")
  else if negb (py_eqb (dget "processing_run_id" decision) (PStr run_id)) then
    Raise (ValueError "decision.processing_run_id must match task.processing_run_id")
  else if negb (py_eqb (dget "raw_message_id" decision) (PStr raw_message_id)) then
    Raise (ValueError "decision.raw_message_id must match task.raw_message_id")
  else
    decision_id ← _text (dget "decision_id" decision) "decision.decision_id";
    Ok (decision_id, raw_message_id,
        [("task_id", PStr task_id); ("processing_run_id", PStr run_id); ("claim_token", PStr claim_token);
         ("attempt", PInt (sk_attempt task)); ("stable_action_or_leg_id", PStr stable)]).

(** [body[key] = _text(value)], when there is a value. *)
Definition optional_text (value : pyval) (key name : string) (body : dict) : result dict :=
  match value with
  | PNone => Ok body
  | v => s ← _text v name; Ok (dset key (PStr s) body)
  end.

Definition take_profits_of (intent : dict) : result (list pyval) :=
  match dget "take_profits" intent with
  | PList prices => mapR (fun price => _ ← _positive price "take_profits[]"; Ok price) prices
  | _ => Raise (ValueError "take_profits must be a list")
  end.

Definition entry_part (intent : dict) (body : dict) : result dict :=
  entry ← _entry intent;
  let body := dset "entry" entry body in
  _ ← _positive (dget "stop_loss" intent) "stop_loss for risk sizing";
  let body := dset "stop_loss" (dget "stop_loss" intent) body in
  prices ← take_profits_of intent;
  let body := dset "take_profits" (PList prices) body in
  match dget "leverage" intent with
  | PNone => Ok body
  | leverage => _ ← _positive leverage "leverage"; Ok (dset "leverage" leverage body)
  end.

Definition management_part (action side : string) (entry_ref : option string) (intent : dict) (body : dict) : result dict :=
  ref ← _text (opt_value entry_ref) "management entry_ref";
  let body := dset "position_side" (PStr side) (dset "entry_ref" (PStr ref) body) in
  if String.eqb action "move_stop_loss" then
    _ ← _positive (dget "stop_loss" intent) "stop_loss";
    Ok (dset "stop_loss" (dget "stop_loss" intent) body)
  else Ok body.

Definition common_body (task : SignalTask) (action symbol side decision_id raw_message_id : string) (identity claim : dict) : dict :=
  let s := sk_source task in
  let service := "hermes-signal:" +:+ si_source_platform s in
  [("account_id", PStr (si_account_id s)); ("action", PStr action); ("intended_action", PStr action);
   ("symbol", PStr symbol); ("side", PStr side);
   ("reason", PStr ("Validated Hermes decision " +:+ decision_id +:+ " for signal task " +:+ sk_task_id task));
   ("source", PStr service); ("created_by_service", PStr service); ("source_message_id", PStr (si_source_message_id s));
   ("source_channel", PStr (si_channel_id s)); ("channel", PStr (si_channel_id s)); ("source_identity", PDict identity);
   ("authorized_by_type", PStr "channel"); ("authorized_by_id", PStr (si_channel_id s));
   ("client_ref", PStr (client_ref (sk_task_id task) (si_channel_id s) (si_source_message_id s)));
   ("decision_id", PStr decision_id); ("raw_message_id", PStr raw_message_id); ("signal_claim", PDict claim)].

Definition build_trade (task : SignalTask) (decision : dict) (entry_ref : option string) (action : string) : result dict :=
  identity ← mapR (identity_field (sk_source task)) SOURCE_FIELDS;
  intent ← account_intent decision (sk_account_id task);
  let stable := join "|" (map (source_field (sk_source task)) SOURCE_FIELDS ++ [action])%list in
  '(decision_id, raw_message_id, claim) ← claim_fields task decision stable;
  raw_symbol ← _text (dget "instrument_symbol" intent) "instrument_symbol";
  match usdt_symbol raw_symbol with
  | None => Raise (ValueError "instrument_symbol must explicitly identify a USDT instrument")
  | Some symbol =>
      known ← in_set (dget "side" intent) ["long"; "short"];
      if negb known then Raise (ValueError "side must explicitly identify long or short")
      else
        let side := py_str (dget "side" intent) in
        let body := common_body task action symbol side decision_id raw_message_id identity claim in
        body ← optional_text (dget "target_position_id" intent) "target_position_id" "target_position_id" body;
        body ← optional_text (dget "valid_until" intent) "valid_until" "valid_until" body;
        body ← optional_text (opt_value entry_ref) "entry_ref" "entry_ref" body;
        if str_in action _ENTRIES then entry_part intent body else management_part action side entry_ref intent body
  end.

Definition build_operator_request (task : SignalTask) (decision : dict) (entry_ref : option string) : result (option dict) :=
  match dget "classification" decision with
  | PDict classification =>
      action ← trade_action classification;
      match action with
      | None => Ok None
      | Some action => body ← build_trade task decision entry_ref action; Ok (Some body)
      end
  | _ => Raise (ValueError "classification is required")
  end.

(** ** Texts *)

Lemma rstrip_empty s : is_empty (rstrip s) = sforall is_space s.
Proof. induction s as [|c s IH]; [done|]. cbn. rewrite <- IH. destruct (rstrip s); cbn; [by destruct (is_space c) | by rewrite andb_false_r]. Qed.

Lemma strip_empty s : is_empty (strip s) = sforall is_space s.
Proof.
  unfold strip. rewrite rstrip_empty. induction s as [|c s IH]; [done|]. cbn. destruct (is_space c) eqn:E; [done|]. cbn. by rewrite E.
Qed.

Lemma text_inv value name s : _text value name = Ok s -> value = PStr s /\ is_empty (strip s) = false.
Proof.
  unfold _text. destruct value; try done. destruct (is_empty (strip s0)) eqn:E; [done|]. cbn.
  destruct (negb _); [done|]. by intros [= <-].
Qed.

Lemma join_nonblank sep a l : is_empty (strip a) = false -> is_empty (strip (join sep (a :: l))) = false.
Proof.
  rewrite !strip_empty. intros A. destruct l; [done|]. cbn [join]. rewrite sforall_app. by rewrite A.
Qed.

Definition no_bar (s : string) : bool := sforall (fun c => negb (Ascii.eqb c "|")) s.

Lemma no_bar_cons c s : no_bar (String c s) = true -> c <> "|"%char /\ no_bar s = true.
Proof. intros [H K]%andb_true_iff. split; [|exact K]. by apply Ascii.eqb_neq, negb_true_iff. Qed.

Lemma contains_bar s : contains "|" s = false -> no_bar s = true.
Proof.
  induction s as [|c s IH]; [done|].
  change (contains "|" (String c s)) with (starts_with "|" (String c s) || contains "|" s). intros [H1 H2]%orb_false_iff.
  change (no_bar (String c s)) with (negb (Ascii.eqb c "|") && no_bar s). rewrite (IH H2), andb_true_r.
  apply negb_true_iff, Ascii.eqb_neq. intros ->. by destruct s.
Qed.

Lemma bar_inj a b x y :
  no_bar a = true -> no_bar b = true -> a +:+ String "|" x = b +:+ String "|" y -> a = b /\ x = y.
Proof.
  revert b. induction a as [|c a IH]; intros [|c' b] A B E.
  - by injection E as ->.
  - injection E as <- _. by apply no_bar_cons in B as [B _].
  - injection E as -> _. by apply no_bar_cons in A as [A _].
  - injection E as -> E. apply no_bar_cons in A as [_ A], B as [_ B]. by destruct (IH b A B E) as [-> ->].
Qed.

(** ** What a built request has *)

(** The fields that fix where a request goes. *)
Record addressed (task : SignalTask) (action stable decision_id : string) (body : dict) : Prop := {
  ad_account : dget "account_id" body = PStr (sk_account_id task);
  ad_action : dget "action" body = PStr action;
  ad_decision : dget "decision_id" body = PStr decision_id;
  ad_raw : dget "raw_message_id" body = PStr (sk_raw_message_id task);
  ad_source : dget "source_identity" body
    = PDict (map (fun n => (n, PStr (source_field (sk_source task) n))) SOURCE_FIELDS);
  ad_claim : dget "signal_claim" body
    = PDict [("task_id", PStr (sk_task_id task)); ("processing_run_id", opt_value (sk_processing_run_id task));
             ("claim_token", opt_value (sk_claim_token task)); ("attempt", PInt (sk_attempt task));
             ("stable_action_or_leg_id", PStr stable)] }.

Definition address_keys : list string :=
  ["account_id"; "action"; "decision_id"; "raw_message_id"; "source_identity"; "signal_claim"].

Lemma addressed_dset task action stable d body k v :
  str_in k address_keys = false -> addressed task action stable d body -> addressed task action stable d (dset k v body).
Proof.
  intros N [A B D R S C].
  assert (G : forall k', str_in k' address_keys = true -> dget k' (dset k v body) = dget k' body).
  { intros k' I. apply dget_dset_ne. intros <-. congruence. }
  split; rewrite G; done.
Qed.

Lemma addressed_optional task action stable d value k name body body' :
  str_in k address_keys = false -> addressed task action stable d body ->
  optional_text value k name body = Ok body' -> addressed task action stable d body'.
Proof.
  intros N A H. unfold optional_text in H.
  destruct value; first [by injection H as <- | apply rbind_inv_ok in H as (s' & _ & H); injection H as <-; by apply addressed_dset].
Qed.

Lemma addressed_entry task action stable d intent body body' :
  addressed task action stable d body -> entry_part intent body = Ok body' -> addressed task action stable d body'.
Proof.
  intros A H. unfold entry_part in H. apply rbind_inv_ok in H as (entry & _ & H). apply rbind_inv_ok in H as (? & _ & H).
  apply rbind_inv_ok in H as (prices & _ & H).
  assert (A' : addressed task action stable d (dset "take_profits" (PList prices) (dset "stop_loss" (dget "stop_loss" intent) (dset "entry" entry body)))).
  { by repeat apply addressed_dset. }
  destruct (dget "leverage" intent); first [by injection H as <- | apply rbind_inv_ok in H as (? & _ & H); injection H as <-; by apply addressed_dset].
Qed.

Lemma addressed_management task action stable d side ref intent body body' :
  addressed task action stable d body -> management_part action side ref intent body = Ok body' -> addressed task action stable d body'.
Proof.
  intros A H. unfold management_part in H. apply rbind_inv_ok in H as (r & _ & H).
  destruct (String.eqb action "move_stop_loss"); [apply rbind_inv_ok in H as (? & _ & H)|]; injection H as <-; by repeat apply addressed_dset.
Qed.

Lemma identity_inv s identity :
  mapR (identity_field s) SOURCE_FIELDS = Ok identity ->
  identity = map (fun n => (n, PStr (source_field s n))) SOURCE_FIELDS /\ is_empty (strip (si_source_platform s)) = false
  /\ Forall (fun n => no_bar (source_field s n) = true) SOURCE_FIELDS.
Proof.
  assert (F : forall n x, identity_field s n = Ok x -> x = (n, PStr (source_field s n))
    /\ is_empty (strip (source_field s n)) = false /\ no_bar (source_field s n) = true).
  { intros n x H. unfold identity_field in H. apply rbind_inv_ok in H as (v & T & H). apply text_inv in T as [[= <-] E].
    destruct (contains _ _) eqn:B; [done|]. injection H as <-. split_and!; [done|done|by apply contains_bar]. }
  intros M. apply mapR_inv in M. unfold SOURCE_FIELDS in *.
  repeat match goal with H : Forall2 _ (_ :: _) _ |- _ => inversion H; clear H; subst end.
  match goal with H : Forall2 _ [] _ |- _ => inversion H; subst end.
  repeat match goal with H : identity_field _ _ = Ok _ |- _ => apply F in H as (-> & ? & ?) end.
  split_and!; [done|done|by repeat constructor].
Qed.

Lemma build_inv task decision ref body :
  build_operator_request task decision ref = Ok (Some body) ->
  exists action stable d, addressed task action stable d body
  /\ str_in action (_ENTRIES ++ _MANAGEMENT) = true /\ dget "decision_id" decision = PStr d
  /\ is_empty (strip stable) = false
  /\ stable = join "|" (map (source_field (sk_source task)) SOURCE_FIELDS ++ [action])%list
  /\ Forall (fun n => no_bar (source_field (sk_source task) n) = true) SOURCE_FIELDS /\ 1 <= sk_attempt task
  /\ is_Some (sk_processing_run_id task) /\ is_Some (sk_claim_token task).
Proof.
  unfold build_operator_request. destruct (dget "classification" decision) as [| | | | | | |cl]; try done.
  intros ([action|] & T & H)%rbind_inv_ok; [|done]. apply rbind_inv_ok in H as (body' & H & [= <-]).
  unfold build_trade in H. apply rbind_inv_ok in H as (identity & I & H). apply identity_inv in I as (-> & Pl & Bars).
  apply rbind_inv_ok in H as (intent & _ & H). cbv zeta in H. set (stable := join _ _) in H.
  apply rbind_inv_ok in H as ([[d raw] claim] & C & H). apply rbind_inv_ok in H as (sym & _ & H).
  destruct (usdt_symbol sym) as [symbol|]; [|done]. apply rbind_inv_ok in H as (known & _ & H). destruct (negb known); [done|].
  unfold claim_fields in C. apply rbind_inv_ok in C as (t & [[= <-] _]%text_inv & C).
  apply rbind_inv_ok in C as (run & [Ru _]%text_inv & C). apply rbind_inv_ok in C as (rw & [[= <-] _]%text_inv & C).
  apply rbind_inv_ok in C as (tok & [To _]%text_inv & C). destruct (Z.ltb_spec (sk_attempt task) 1) as [|At]; [done|].
  destruct (negb _); [done|]. destruct (negb _); [done|]. apply rbind_inv_ok in C as (d' & [Dd _]%text_inv & C).
  injection C as <- <- <-.
  exists action, stable, d'. split_and!; [| |exact Dd|by apply join_nonblank|reflexivity|exact Bars|lia|..].
  - set (b0 := common_body _ _ _ _ _ _ _ _) in H.
    assert (A0 : addressed task action stable d' b0) by (split; try done; unfold b0; cbn; by rewrite Ru, To).
    apply rbind_inv_ok in H as (b1 & H1 & H). apply addressed_optional with (1 := eq_refl) (2 := A0) in H1.
    apply rbind_inv_ok in H as (b2 & H2 & H). apply addressed_optional with (1 := eq_refl) (2 := H1) in H2.
    apply rbind_inv_ok in H as (b3 & H3 & H). apply addressed_optional with (1 := eq_refl) (2 := H2) in H3.
    destruct (str_in action _ENTRIES); [exact (addressed_entry _ _ _ _ _ _ _ H3 H) | exact (addressed_management _ _ _ _ _ _ _ _ _ H3 H)].
  - unfold trade_action in T. apply rbind_inv_ok in T as (n & _ & T). destruct n; [done|]. destruct (negb _); [done|].
    apply rbind_inv_ok in T as (tk & _ & T). destruct tk; [done|]. destruct (dget "action" cl); try done.
    destruct (List.find _ _) as [[? ?]|]; [done|]. destruct (str_in s _ENTRIES || str_in s _MANAGEMENT) eqn:E; [|done].
    injection T as <-. unfold str_in in *. by rewrite existsb_app.
  - destruct (sk_processing_run_id task); [by eexists|done].
  - destruct (sk_claim_token task); [by eexists|done].
Qed.

(** ** The request the queue and the ingress take *)

(** UUID columns are shown as canonical text. *)
Definition canonical (s : string) : Prop := uuid_text <$> uuid_hex s = Some s.

Lemma uuid_canonical s field : canonical s -> _uuid (PStr s) field = Ok s.
Proof. unfold canonical, _uuid. cbn. destruct (uuid_hex s); [|done]. by intros [= ->]. Qed.

Lemma py_eqb_str s : py_eqb (PStr s) (PStr s) = true.
Proof. apply String.eqb_refl. Qed.

Lemma addressed_claim task action stable d body run token :
  addressed task action stable d body ->
  sk_processing_run_id task = Some run -> sk_claim_token task = Some token ->
  canonical (sk_task_id task) -> canonical run -> canonical token -> canonical (sk_raw_message_id task) ->
  1 <= sk_attempt task -> is_empty (strip stable) = false ->
  read_claim (sk_account_id task) body
    = Ok ({| cl_task_id := sk_task_id task; cl_processing_run_id := run; cl_claim_token := token;
             cl_raw_message_id := sk_raw_message_id task; cl_attempt := sk_attempt task; cl_stable := stable |},
          map (fun n => (n, PStr (source_field (sk_source task) n))) SOURCE_FIELDS).
Proof.
  intros [A _ _ R S C] Run Tok Ct Cr Ck Cm At St. unfold read_claim. rewrite C, S, A, R, Run, Tok. cbn [opt_value].
  change (dget "account_id" (map _ SOURCE_FIELDS)) with (PStr (sk_account_id task)). rewrite py_eqb_str. cbn [negb orb].
  cbn -[_uuid]. rewrite !uuid_canonical by done. cbn. rewrite (proj2 (Z.ltb_ge (sk_attempt task) 1)) by lia. by rewrite St.
Qed.

(** C40. A request built for a task is one the queue and the ingress take for that
    task.  Whatever the decision says, the registration finds the claim, the
    account and the decision it compares, and goes on to its transaction; the
    ingress, authenticated as the account of the task, reads from the request
    the claim of the task, finds the source identity and the message that the
    task has stored, and, for every run that matches the task, that the claim
    stands. *)
Theorem built_request_accepted task_id r decision entry_ref body :
  let task := _task_from_row task_id r in
  build_operator_request task decision entry_ref = Ok (Some body) ->
  Forall canonical (task_id :: to_raw_message_id (st_origin r)
    :: option_list (tc_processing_run_id (st_claim r)) ++ option_list (tc_claim_token (st_claim r))) ->
  register_execution_request task body = in_transaction (register_body task body)
  /\ dget "decision_id" body = dget "decision_id" decision
  /\ exists cl source, read_claim (row_account r) body = Ok (cl, source)
     /\ cl_task_id cl = task_id /\ source_matches source cl r = true
     /\ forall u, run_matches r u = true -> claim_stands (row_account r) cl r (Some u) = true.
Proof.
  cbv zeta. intros B C. destruct (build_inv _ _ _ _ B) as (action & stable & d & Ad & _ & Dd & St & _ & _ & At & [run Run] & [token Tok]).
  cbn in Run, Tok. rewrite Run, Tok in C. cbn in C.
  apply Forall_cons in C as [Ct C]. apply Forall_cons in C as [Cm C]. apply Forall_cons in C as [Cr C]. apply Forall_cons in C as [Ck _].
  split_and!.
  - unfold register_execution_request. rewrite (ad_claim _ _ _ _ _ Ad), (ad_account _ _ _ _ _ Ad). cbn [sk_account_id].
    rewrite py_eqb_str. unfold claims_task. cbn. rewrite Run, Tok. cbn. rewrite !String.eqb_refl.
    assert (X : py_eqb (PInt (tc_attempt (st_claim r))) (PInt (tc_attempt (st_claim r))) = true) by by rewrite py_eqb_int, Z.eqb_refl.
    cbn in X. by rewrite X.
  - by rewrite Dd, (ad_decision _ _ _ _ _ Ad).
  - eexists _, _. split; [by apply (addressed_claim _ _ _ _ _ run token Ad)|]. split; [done|]. split.
    + unfold source_matches. cbn. by rewrite !String.eqb_refl.
    + intros u M. unfold run_matches in M. rewrite Run, Tok in M || rewrite Tok in M.
      unfold claim_stands. cbn. rewrite Run, Tok. destruct (mr_claim_token u) as [tok'|]; [|done]. destruct (mr_account_id u) as [acct|]; [|by rewrite !andb_false_r in M].
      cbn in M. rewrite !andb_true_iff in M. destruct M as (((((T & A) & Ac) & Rw) & P) & _). rewrite P, Rw, A, Z.eqb_refl.
      apply String.eqb_eq in T as ->. apply String.eqb_eq in Ac as ->. rewrite !bool_decide_true by done. done.
Qed.

(** ** The identity of an action *)

Definition stable_id (body : dict) : pyval := dget "stable_action_or_leg_id" (as_dict (dget "signal_claim" body)).

Lemma stable_inj s s' a a' :
  Forall (fun n => no_bar (source_field s n) = true) SOURCE_FIELDS ->
  Forall (fun n => no_bar (source_field s' n) = true) SOURCE_FIELDS ->
  join "|" (map (source_field s) SOURCE_FIELDS ++ [a])%list = join "|" (map (source_field s') SOURCE_FIELDS ++ [a'])%list ->
  s = s' /\ a = a'.
Proof.
  intros B B' E. destruct s as [p c m e k], s' as [p' c' m' e' k'].
  unfold SOURCE_FIELDS in *. rewrite !Forall_cons in B, B'. cbn in B, B', E.
  destruct B as (B1 & B2 & B3 & B4 & B5 & _), B' as (C1 & C2 & C3 & C4 & C5 & _).
  apply bar_inj in E as [-> E]; [|done..]. apply bar_inj in E as [-> E]; [|done..]. apply bar_inj in E as [-> E]; [|done..].
  apply bar_inj in E as [-> E]; [|done..]. by apply bar_inj in E as [-> E].
Qed.

(** C10. The stable id of an action, from which the ingress derives the key that
    makes an operation happen once, is the identity of the action: two requests
    built for whatever tasks, claims and decisions have the same stable id
    exactly when they come from the same edit of the same message for the same
    account and ask for the same action. *)
Theorem stable_action_identity task task' decision decision' entry_ref entry_ref' body body' :
  build_operator_request task decision entry_ref = Ok (Some body) ->
  build_operator_request task' decision' entry_ref' = Ok (Some body') ->
  stable_id body = stable_id body' <-> sk_source task = sk_source task' /\ dget "action" body = dget "action" body'.
Proof.
  intros B B'. destruct (build_inv _ _ _ _ B) as (a & st & d & [_ A _ _ _ C] & _ & _ & _ & -> & N & _).
  destruct (build_inv _ _ _ _ B') as (a' & st' & d' & [_ A' _ _ _ C'] & _ & _ & _ & -> & N' & _).
  unfold stable_id. rewrite A, A', C, C'. cbn [as_dict]. split.
  - intros E. injection E as E. by destruct (stable_inj _ _ _ _ N N' E) as [-> ->].
  - by intros [-> [= ->]].
Qed.

(** ** Examples *)

Definition open_decision (stop : Z) : dict := [
  ("decision_id", PStr (uuid_of "6")); ("processing_run_id", PStr (uuid_of "3")); ("raw_message_id", PStr (uuid_of "1"));
  ("classification", PDict [("action", PStr "open_position"); ("ambiguous", PBool false); ("message_type", PStr "signal")]);
  ("intent", PDict [("account_scope", PStr "single"); ("target_account_id", PStr "acct-a"); ("instrument_symbol", PStr "BTCUSDT.PERP");
     ("side", PStr "long"); ("entry", PDict [("type", PStr "market")]); ("stop_loss", PInt stop); ("take_profits", PList [PInt 70000])])].

Definition open_request (stop : Z) : dict :=
  match build_operator_request (_task_from_row (uuid_of "2") task_2) (open_decision stop) None with
  | Ok (Some body) => body
  | _ => []
  end.

Lemma open_request_built : build_operator_request (_task_from_row (uuid_of "2") task_2) (open_decision 60000) None
  = Ok (Some (open_request 60000)).
Proof. vm_compute. reflexivity. Qed.

Example built_request_accepted_witness :
  dget "symbol" (open_request 60000) = PStr "BTCUSDT"
  /\ exists cl source, read_claim "acct-a" (open_request 60000) = Ok (cl, source)
     /\ claim_stands "acct-a" cl task_2 (Some run_3) = true.
Proof.
  split; [vm_compute; reflexivity|].
  destruct (built_request_accepted (uuid_of "2") task_2 (open_decision 60000) None (open_request 60000)) as (_ & _ & cl & source & R & _ & _ & K).
  - exact open_request_built.
  - repeat constructor; vm_compute; reflexivity.
  - exists cl, source. split; [exact R|]. apply K. vm_compute. reflexivity.
Defined.

Example stable_action_identity_witness : stable_id (open_request 60000) = stable_id (open_request 61000).
Proof.
  apply (stable_action_identity (_task_from_row (uuid_of "2") task_2) (_task_from_row (uuid_of "2") task_2)
           (open_decision 60000) (open_decision 61000) None None).
  - exact open_request_built.
  - vm_compute. reflexivity.
  - split; vm_compute; reflexivity.
Defined.

(** An action that V1 cannot express is refused, and one that does not trade
    makes no request. *)
Example decisions_not_submitted :
  let classified action := dset "classification" (PDict [("action", PStr action); ("ambiguous", PBool false)]) (open_decision 60000) in
  let build d := build_operator_request (_task_from_row (uuid_of "2") task_2) d None in
  build (classified "hold") = Ok None
  /\ build (classified "partial_close") = Raise (ValueError "unsupported action partial_close: HermesDecisionV1 has no explicit close quantity")
  /\ build (classified "close_position") = Raise (ValueError "management entry_ref requires an explicit nonempty string")
  /\ build (dset "route" (PStr "elsewhere") (open_decision 60000))
     = Raise (ValueError "route override is unsupported; task owns account routing").
Proof. vm_compute. split_and!; reflexivity. Qed.
