(* ===== verification/SettingsSchema.v ===== *)
(** * SettingsSchema: the descriptor of the business settings

    control-plane/settings/schema.py and the file it loads,
    packages/contracts/v1/order_management_settings.v1.json: categories of
    fields, each with a type, a default and bounds; settings are dictionaries
    of categories of values, checked against the descriptor.  A descriptor here
    is one whose categories are objects of objects, whose enums are arrays and
    whose bounds are numbers, as the file's are; Python raises on others.
    Numbers of settings are integers and finite floats, as JSON has them. *)

From Stdlib Require Import ZArith Lia.
From S2P Require Import Prelude Decimal PyString DecText PyValue Json.
Open Scope string_scope.
Open Scope Z_scope.

Record FieldError := { fe_path : string; fe_message : string }.

Definition _error (path message : string) : FieldError := {| fe_path := path; fe_message := message |}.

Definition EXPECTED_CATEGORIES : list string :=
  ["general"; "entry"; "protection"; "money"; "price_monitor"; "reconciliation"; "emergency"; "notifications"; "advanced"].
Definition ALLOWED_TYPES : list string := ["number"; "integer"; "boolean"; "string"; "enum"].
Definition ALLOWED_APPLY_MODES : list string := ["hot_reload"; "restart_required"].

Definition SettingsValidationError : exn := RuntimeError "SettingsValidationError" "settings validation failed".

(** ** Values *)

(** [v == s] for a text [s]. *)
Definition is_text (v : pyval) (s : string) : bool := py_eqb v (PStr s).

Definition one_of (v : pyval) (l : list string) : bool := existsb (is_text v) l.

(** [value in values] *)
Definition in_list (v : pyval) (values : pyval) : bool :=
  match values with PList l => existsb (py_eqb v) l | _ => false end.

(** [a < b] of numbers. *)
Definition num_ltb (a b : pyval) : bool :=
  match number_of a, number_of b with
  | Some x, Some y => match xcompare x y with Some Lt => true | _ => false end
  | _, _ => false
  end.

Definition is_number (v : pyval) : bool := match v with PInt _ | PFloat _ => true | _ => false end.

Definition field_path (category field_name : string) : string := category +:+ "." +:+ field_name.

(** Whether the value has the type of the field, with the message if not. *)
Definition type_error (value : pyval) (field : dict) : option string :=
  let field_type := dget "type" field in
  if is_text field_type "boolean" then match value with PBool _ => None | _ => Some "value must be boolean" end
  else if is_text field_type "integer" then match value with PInt _ => None | _ => Some "value must be integer" end
  else if is_text field_type "number" then if is_number value then None else Some "value must be number"
  else if is_text field_type "string" then match value with PStr _ => None | _ => Some "value must be string" end
  else if is_text field_type "enum" then
    let enum_values := py_or (dget "enum" field) (PList []) in
    match value with
    | PStr _ => if in_list value enum_values then None else Some ("value must be one of " +:+ py_str enum_values)
    | _ => Some ("value must be one of " +:+ py_str enum_values)
    end
  else None.

Definition bound_errors (value : pyval) (field : dict) : list string :=
  if is_number value then
    let minimum := dget "min" field in
    let maximum := dget "max" field in
    ((if negb (is_none minimum) && num_ltb value minimum then ["value must be >= " +:+ py_str minimum] else [])
     ++ (if negb (is_none maximum) && num_ltb maximum value then ["value must be <= " +:+ py_str maximum] else []))%list
  else [].

Definition _validate_value (category field_name : string) (value : pyval) (field : dict) : list FieldError :=
  let path := field_path category field_name in
  match type_error value field with
  | Some message => [_error path message]
  | None => map (_error path) (bound_errors value field)
  end.

(** ** Descriptors *)

Definition categories_of (descriptor : dict) : dict := as_dict (dget "categories" descriptor).

Definition fields_of (descriptor : dict) (category : string) : dict := as_dict (dget category (categories_of descriptor)).

(** [iter_field_descriptors]: category, field name and field, in the order of
    [EXPECTED_CATEGORIES]. *)
Definition iter_field_descriptors (descriptor : dict) : list (string * string * dict) :=
  flat_map (fun category =>
    flat_map (fun p => match snd p with PDict field => [(category, fst p, field)] | _ => [] end)
      (fields_of descriptor category)) EXPECTED_CATEGORIES.

Definition when {A} (b : bool) (x : A) : list A := if b then [x] else [].

(** The set of texts shown sorted. *)
Definition names_str (l : list string) : string := py_str (PList (map PStr (sort_by String.leb l))).

Definition field_errors (category field_name : string) (field : dict) : list FieldError :=
  let path := field_path category field_name in
  let field_type := dget "type" field in
  let default_ := dget "default" field in
  let enum_values := dget "enum" field in
  (when (negb (one_of field_type ALLOWED_TYPES)) (_error path ("type must be one of " +:+ names_str ALLOWED_TYPES))
   ++ when (negb (dmem "unit" field)) (_error path "unit required")
   ++ (if negb (dmem "default" field) then [_error path "default required"]
       else
         when (negb (one_of (dget "apply_mode" field) ALLOWED_APPLY_MODES))
           (_error path ("apply_mode must be one of " +:+ names_str ALLOWED_APPLY_MODES))
         ++ when (match dget "scope_overridable" field with PBool _ => false | _ => true end)
              (_error path "scope_overridable must be boolean")
         ++ when (match default (PBool false) (dlookup "secret" field) with PBool false => false | _ => true end)
              (_error path "business settings must not be secret fields")
         ++ _validate_value category field_name default_ field
         ++ (if is_text field_type "enum" then
               match enum_values with
               | PList (_ :: _) => when (negb (in_list default_ enum_values)) (_error path "enum default must be listed in enum")
               | _ => [_error path "enum fields require a non-empty enum array"]
               end
             else [])))%list.

Definition descriptor_errors (descriptor : dict) : list FieldError :=
  (when (negb (is_text (dget "schema_version" descriptor) "1.0")) (_error "$" "schema_version must be 1.0")
   ++ when (negb (is_text (dget "kind" descriptor) "settings-descriptor")) (_error "$" "kind must be settings-descriptor")
   ++ match dget "categories" descriptor with
      | PDict categories =>
          when (negb (forallb (fun k => str_in k EXPECTED_CATEGORIES) (map fst categories)
                      && forallb (fun k => dmem k categories) EXPECTED_CATEGORIES))
            (_error "categories" ("categories must be exactly " +:+ names_str EXPECTED_CATEGORIES))
          ++ flat_map (fun '(category, field_name, field) => field_errors category field_name field)
               (iter_field_descriptors descriptor)
      | _ => [_error "categories" "categories must be an object"]
      end)%list.

Definition validate_descriptor (descriptor : dict) : result unit :=
  match descriptor_errors descriptor with [] => Ok tt | _ => Raise SettingsValidationError end.

(** packages/contracts/v1/order_management_settings.v1.json *)
Definition setting_field (head : dict) (hot_reload scope_overridable : bool) : pyval :=
  PDict (head ++ [("apply_mode", PStr (if hot_reload then "hot_reload" else "restart_required"));
                  ("scope_overridable", PBool scope_overridable); ("secret", PBool false)])%list.

Definition boolean_field (value : bool) : bool -> bool -> pyval :=
  setting_field [("type", PStr "boolean"); ("unit", PStr "flag"); ("default", PBool value)].

Definition string_field (unit value : string) : bool -> bool -> pyval :=
  setting_field [("type", PStr "string"); ("unit", PStr unit); ("default", PStr value)].

Definition enum_field (unit value : string) (values : list string) : bool -> bool -> pyval :=
  setting_field [("type", PStr "enum"); ("unit", PStr unit); ("default", PStr value); ("enum", PList (map PStr values))].

Definition number_field (type unit : string) (value minimum maximum : pyval) : bool -> bool -> pyval :=
  setting_field [("type", PStr type); ("unit", PStr unit); ("default", value); ("min", minimum); ("max", maximum)].

Definition order_management_settings_v1 : dict := [
  ("$id", PStr "https://trader-bot.local/contracts/v1/order_management_settings.v1.json"); ("schema_version", PStr "1.0"); ("title", PStr "OrderManagementSettingsV1");
  ("kind", PStr "settings-descriptor"); ("description", PStr "Reference descriptor for order-management business settings. This is not a message-instance JSON Schema and is intentionally excluded from the contracts-v1 message snapshot gate.");
  ("categories", PDict [
  ("general", PDict [
    ("order_manager_enabled", boolean_field false true true);
    ("execution_mode", enum_field "mode" "shadow" ["shadow"; "testnet"; "live"] false true);
    ("risk_posture", enum_field "state" "HALTED" ["ACTIVE"; "REDUCING"; "HALTED"] true true);
    ("allowed_instruments", string_field "csv_symbols" "" false true);
    ("default_account_id", string_field "account_id" "" false false);
    ("max_concurrent_execution_jobs", number_field "integer" "jobs" (PInt 1) (PInt 1) (PInt 100) true true);
    ("intent_ttl_seconds", number_field "integer" "seconds" (PInt 300) (PInt 1) (PInt 86400) true true);
    ("idempotency_retention_days", number_field "integer" "days" (PInt 30) (PInt 1) (PInt 365) true false);
    ("default_command_timeout_seconds", number_field "integer" "seconds" (PInt 30) (PInt 1) (PInt 3600) true true)]);
  ("entry", PDict [
    ("default_order_type", enum_field "order_type" "limit" ["market"; "limit"; "zone"] true true);
    ("time_in_force", enum_field "tif" "GTC" ["GTC"; "IOC"; "FOK"; "GTD"] true true);
    ("post_only", boolean_field false true true);
    ("max_slippage_bps", number_field "number" "bps" (PInt 25) (PInt 0) (PInt 1000) true true);
    ("limit_offset_bps", number_field "number" "bps" (PInt 5) (PInt 0) (PInt 1000) true true);
    ("unfilled_timeout_seconds", number_field "integer" "seconds" (PInt 60) (PInt 1) (PInt 86400) true true);
    ("reprice_interval_seconds", number_field "integer" "seconds" (PInt 10) (PInt 1) (PInt 3600) true true);
    ("max_reprices", number_field "integer" "count" (PInt 3) (PInt 0) (PInt 100) true true);
    ("max_submit_retries", number_field "integer" "count" (PInt 3) (PInt 0) (PInt 100) true true);
    ("submit_retry_backoff_seconds", number_field "number" "seconds" (PInt 1) (PInt 0) (PInt 3600) true true);
    ("partial_fill_policy", enum_field "policy" "cancel_remainder" ["keep_remainder"; "cancel_remainder"; "convert_remainder_to_market"; "abort_and_reduce_filled"] true true);
    ("minimum_fill_ratio", number_field "number" "ratio" (PFloat (Dec 95 (-2))) (PInt 0) (PInt 1) true true);
    ("partial_fill_timeout_seconds", number_field "integer" "seconds" (PInt 30) (PInt 1) (PInt 86400) true true);
    ("market_conversion_max_slippage_bps", number_field "number" "bps" (PInt 50) (PInt 0) (PInt 2000) true true)]);
  ("protection", PDict [
    ("require_stop", boolean_field true true true);
    ("stop_order_type", enum_field "order_type" "stop_market" ["stop_market"; "stop_limit"] true true);
    ("stop_trigger_basis", enum_field "price_basis" "mark" ["mark"; "last"] true true);
    ("protection_install_timeout_seconds", number_field "integer" "seconds" (PInt 15) (PInt 1) (PInt 3600) true true);
    ("take_profit_ladder", string_field "json" "" true true);
    ("breakeven_enabled", boolean_field false true true);
    ("breakeven_trigger_r", number_field "number" "r_multiple" (PInt 1) (PInt 0) (PInt 100) true true);
    ("breakeven_offset_bps", number_field "number" "bps" (PInt 0) (PInt (-1000)) (PInt 1000) true true);
    ("trailing_stop_enabled", boolean_field false true true);
    ("trailing_activation_r", number_field "number" "r_multiple" (PFloat (Dec 15 (-1))) (PInt 0) (PInt 100) true true);
    ("trailing_callback_rate", number_field "number" "percent" (PFloat (Dec 5 (-1))) (PInt 0) (PInt 100) true true);
    ("trailing_min_step_bps", number_field "number" "bps" (PInt 5) (PInt 0) (PInt 10000) true true);
    ("trailing_update_rate_limit_seconds", number_field "integer" "seconds" (PInt 5) (PInt 1) (PInt 3600) true true);
    ("partial_close_default_fraction", number_field "number" "ratio" (PFloat (Dec 25 (-2))) (PInt 0) (PInt 1) true true);
    ("replace_protection_behavior", enum_field "policy" "cancel_replace" ["cancel_replace"; "amend_in_place"] true true);
    ("protection_repair_policy", enum_field "policy" "reducing" ["halt"; "reducing"; "auto_repair"; "alert_only"] true true)]);
  ("money", PDict [
    ("sizing_mode", enum_field "mode" "fixed_risk" ["fixed_risk"; "fixed_notional"; "equity_fraction"] true true);
    ("fixed_notional", number_field "number" "quote_currency" (PInt 0) (PInt 0) (PInt 1000000000) true true);
    ("equity_fraction", number_field "number" "ratio" (PInt 0) (PInt 0) (PInt 1) true true);
    ("risk_per_trade_pct", number_field "number" "percent" (PInt 0) (PInt 0) (PInt 10) true true);
    ("max_notional_per_order", number_field "number" "quote_currency" (PInt 0) (PInt 0) (PInt 1000000000) true true);
    ("max_leverage", number_field "number" "multiple" (PInt 1) (PInt 1) (PInt 125) true true);
    ("max_open_positions", number_field "integer" "count" (PInt 0) (PInt 0) (PInt 1000) true true);
    ("max_instrument_exposure", number_field "number" "quote_currency" (PInt 0) (PInt 0) (PInt 1000000000) true true);
    ("max_correlated_exposure", number_field "number" "quote_currency" (PInt 0) (PInt 0) (PInt 1000000000) true true);
    ("max_total_risk_pct", number_field "number" "percent" (PInt 0) (PInt 0) (PInt 100) true true);
    ("minimum_free_margin_pct", number_field "number" "percent" (PInt 100) (PInt 0) (PInt 100) true true);
    ("reserve_balance_pct", number_field "number" "percent" (PInt 100) (PInt 0) (PInt 100) true true);
    ("daily_loss_limit_pct", number_field "number" "percent" (PInt 0) (PInt 0) (PInt 100) true true);
    ("max_drawdown_pct", number_field "number" "percent" (PInt 0) (PInt 0) (PInt 100) true true);
    ("loss_cooldown_minutes", number_field "integer" "minutes" (PInt 1440) (PInt 0) (PInt 10080) true true);
    ("risk_reservation_ttl_seconds", number_field "integer" "seconds" (PInt 300) (PInt 1) (PInt 86400) true true)]);
  ("price_monitor", PDict [
    ("market_data_stale_seconds", number_field "integer" "seconds" (PInt 10) (PInt 1) (PInt 3600) true true);
    ("account_data_stale_seconds", number_field "integer" "seconds" (PInt 15) (PInt 1) (PInt 3600) true true);
    ("execution_event_stale_seconds", number_field "integer" "seconds" (PInt 30) (PInt 1) (PInt 3600) true true);
    ("projection_lag_threshold_ms", number_field "integer" "milliseconds" (PInt 5000) (PInt 1) (PInt 600000) true true);
    ("reconciliation_stale_seconds", number_field "integer" "seconds" (PInt 300) (PInt 1) (PInt 86400) true true);
    ("price_deviation_bps", number_field "number" "bps" (PInt 200) (PInt 0) (PInt 10000) true true);
    ("evaluation_interval_seconds", number_field "integer" "seconds" (PInt 5) (PInt 1) (PInt 3600) true true);
    ("protection_watchdog_interval_seconds", number_field "integer" "seconds" (PInt 10) (PInt 1) (PInt 3600) true true);
    ("disconnect_action", enum_field "action" "halt" ["halt"; "reducing"; "hold"] true true)]);
  ("reconciliation", PDict [
    ("startup_reconciliation_required", boolean_field true false true);
    ("reconciliation_interval_seconds", number_field "integer" "seconds" (PInt 300) (PInt 1) (PInt 86400) true true);
    ("orphan_order_policy", enum_field "policy" "halt" ["halt"; "cancel"; "adopt"; "ignore"] true true);
    ("external_position_policy", enum_field "policy" "halt" ["halt"; "reduce"; "adopt"; "ignore"] true true);
    ("drift_policy", enum_field "policy" "halt" ["halt"; "reducing"; "auto_repair"; "alert_only"] true true);
    ("auto_adopt_enabled", boolean_field false true true);
    ("retry_limit", number_field "integer" "count" (PInt 3) (PInt 0) (PInt 100) true true);
    ("retry_backoff_seconds", number_field "number" "seconds" (PInt 1) (PInt 0) (PInt 3600) true true);
    ("restart_recovery_mode", enum_field "mode" "halt_until_reconciled" ["halt_until_reconciled"; "resume_after_reconcile"] false true)]);
  ("emergency", PDict [
    ("cancel_batch_size", number_field "integer" "orders" (PInt 10) (PInt 1) (PInt 1000) true true);
    ("close_batch_size", number_field "integer" "positions" (PInt 5) (PInt 1) (PInt 1000) true true);
    ("inter_order_delay_ms", number_field "integer" "milliseconds" (PInt 250) (PInt 0) (PInt 60000) true true);
    ("command_max_retries", number_field "integer" "count" (PInt 3) (PInt 0) (PInt 100) true true);
    ("verify_timeout_seconds", number_field "integer" "seconds" (PInt 30) (PInt 1) (PInt 86400) true true);
    ("close_all_final_state", enum_field "state" "flat" ["flat"; "cancelled_and_flat"] true true);
    ("allow_close_while_halted", boolean_field true true true);
    ("command_retention_days", number_field "integer" "days" (PInt 30) (PInt 1) (PInt 3650) false false)]);
  ("notifications", PDict [
    ("order_accepted_enabled", boolean_field true true true);
    ("order_rejected_enabled", boolean_field true true true);
    ("order_filled_enabled", boolean_field true true true);
    ("partial_fill_enabled", boolean_field true true true);
    ("protection_missing_enabled", boolean_field true true true);
    ("stale_market_enabled", boolean_field true true true);
    ("stale_account_enabled", boolean_field true true true);
    ("reconciliation_drift_enabled", boolean_field true true true);
    ("daily_loss_enabled", boolean_field true true true);
    ("drawdown_enabled", boolean_field true true true);
    ("emergency_command_results_enabled", boolean_field true true true);
    ("notification_channels", string_field "csv_channels" "dashboard" true true);
    ("severity_routing", string_field "routing_policy" "critical:operator,high:operator,medium:dashboard" true true)]);
  ("advanced", PDict [
    ("outbox_batch_size", number_field "integer" "events" (PInt 100) (PInt 1) (PInt 10000) true false);
    ("spool_max_items", number_field "integer" "items" (PInt 10000) (PInt 0) (PInt 1000000) false false);
    ("spool_max_age_seconds", number_field "integer" "seconds" (PInt 3600) (PInt 1) (PInt 2592000) true false);
    ("reducer_replay_window_hours", number_field "integer" "hours" (PInt 24) (PInt 1) (PInt 8760) false false);
    ("event_retention_days", number_field "integer" "days" (PInt 90) (PInt 1) (PInt 3650) false false);
    ("rate_limit_per_minute", number_field "integer" "requests_per_minute" (PInt 60) (PInt 1) (PInt 100000) true true);
    ("diagnostics_bundle_enabled", boolean_field true true false);
    ("import_export_enabled", boolean_field true true false)])])].

Definition load_descriptor (file : dict) : result dict := _ ← validate_descriptor file; Ok file.

Definition default_settings (descriptor : dict) : dict :=
  fold_left (fun defaults '(category, field_name, field) =>
      dset category (PDict (dset field_name (dget "default" field) (as_dict (dget category defaults)))) defaults)
    (iter_field_descriptors descriptor) (map (fun category => (category, PDict [])) EXPECTED_CATEGORIES).

Definition field_descriptor (category field_name : string) (descriptor : dict) : result dict :=
  match dlookup field_name (fields_of descriptor category) with
  | Some field => Ok (as_dict field)
  | None => Raise (KeyError ("unknown setting field " +:+ field_path category field_name))
  end.

(** ** Settings *)

Record Validation := { va_errors : list FieldError; va_normalized : dict }.

Definition va_valid (v : Validation) : bool := match va_errors v with [] => true | _ => false end.

(** One field: its errors, and the value to keep. *)
Definition validate_field (partial : bool) (category : string) (raw known_fields : dict) (field_name : string)
    : list FieldError * dict :=
  if negb (dmem field_name known_fields) then ([_error (field_path category field_name) "unknown settings field"], [])
  else
    let value := dget field_name raw in
    if is_none value && partial then ([], [(field_name, PNone)])
    else match _validate_value category field_name value (as_dict (dget field_name known_fields)) with
    | [] => ([], [(field_name, value)])
    | errors => (errors, [])
    end.

(** [for x in xs: ...], the errors and entries of each in turn. *)
Fixpoint gather {A} (f : A -> list FieldError * dict) (xs : list A) : list FieldError * dict :=
  match xs with
  | [] => ([], [])
  | x :: xs => let '(e, d) := f x in let '(es, ds) := gather f xs in ((e ++ es)%list, (d ++ ds)%list)
  end.

Definition validate_category (partial : bool) (descriptor settings : dict) (category : string) : list FieldError * dict :=
  if negb (dmem category (categories_of descriptor)) then ([_error category "unknown settings category"], [])
  else match default (PDict []) (dlookup category settings) with
  | PDict raw =>
      let known_fields := fields_of descriptor category in
      let '(errors, normalized) :=
        gather (validate_field partial category raw known_fields) (if partial then map fst raw else map fst known_fields) in
      (errors, match normalized with [] => [] | _ => [(category, PDict normalized)] end)
  | PNone => if partial then ([], []) else ([_error category "category settings must be an object"], [])
  | _ => ([_error category "category settings must be an object"], [])
  end.

Definition validate_settings (settings : pyval) (descriptor : dict) (partial : bool) : Validation :=
  match settings with
  | PDict settings =>
      let '(errors, normalized) :=
        gather (validate_category partial descriptor settings)
          (if partial then map fst settings else map fst (categories_of descriptor)) in
      {| va_errors := errors; va_normalized := normalized |}
  | _ => {| va_errors := [_error "$" "settings must be an object"]; va_normalized := [] |}
  end.

Definition validate_settings_or_raise (settings : pyval) (descriptor : dict) (partial : bool) : result dict :=
  let v := validate_settings settings descriptor partial in
  if va_valid v then Ok (va_normalized v) else Raise SettingsValidationError.

(** [{"category.field": value}] *)
Definition flatten_settings (settings : dict) : dict :=
  fold_left (fun flat p => match snd p with
    | PDict fields => fold_left (fun flat q => dset (field_path (fst p) (fst q)) (snd q) flat) fields flat
    | _ => flat
    end) settings [].

(** [cleaned.setdefault(category, {})[field_name] = value] *)
Definition keep_field (category field_name : string) (value : pyval) (cleaned : dict) : dict :=
  dset category (PDict (dset field_name value (as_dict (dget category cleaned)))) cleaned.

(** The fields that [keep] admits, category by category. *)
Definition select_fields (keep : string -> string -> bool) (settings : dict) : dict :=
  fold_left (fun cleaned p => match snd p with
    | PDict fields => fold_left (fun cleaned q =>
        if keep (fst p) (fst q) then keep_field (fst p) (fst q) (snd q) cleaned else cleaned) fields cleaned
    | _ => cleaned
    end) settings [].

(** A field the descriptor knows and does not mark as a secret. *)
Definition public_field (descriptor : dict) (category field_name : string) : bool :=
  match dget field_name (fields_of descriptor category) with
  | PNone => false
  | field => negb (truthy (default (PBool false) (dlookup "secret" (as_dict field))))
  end.

Definition without_secret_fields (settings descriptor : dict) : dict := select_fields (public_field descriptor) settings.

(** ** The file is a descriptor *)

Lemma descriptor_loads : load_descriptor order_management_settings_v1 = Ok order_management_settings_v1.
Proof. vm_compute. reflexivity. Qed.

(** ** Lookups *)

Lemma dlookup_keys k d : k ∈ map fst d <-> is_Some (dlookup k d).
Proof.
  induction d as [|[k' v] d IH]; cbn.
  - split; [by intros ?%elem_of_nil | by intros [? [=]]].
  - rewrite elem_of_cons, IH. destruct (String.eqb_spec k k') as [->|N].
    + split; [by eexists | by left].
    + split; [by intros [?|?] | by right].
Qed.

Lemma dlookup_none k d : k ∉ map fst d -> dlookup k d = None.
Proof. rewrite dlookup_keys. destruct (dlookup k d); [|done]. intros N. exfalso. apply N. by eexists. Qed.

Lemma dget_some k d v : dlookup k d = Some v -> dget k d = v.
Proof. unfold dget. by intros ->. Qed.

Lemma dlookup_app k d d' : dlookup k (d ++ d')%list = match dlookup k d with Some v => Some v | None => dlookup k d' end.
Proof. induction d as [|[k' v] d IH]; [done|]. cbn. by destruct (String.eqb k k'). Qed.

Lemma dlookup_dpop k k' d : dlookup k (dpop k' d) = if String.eqb k k' then None else dlookup k d.
Proof.
  induction d as [|[k2 v] d IH]; [by cbn; destruct (String.eqb k k')|].
  change (dpop k' ((k2, v) :: d)) with (if negb (String.eqb k' k2) then (k2, v) :: dpop k' d else dpop k' d). cbn [dlookup].
  destruct (String.eqb_spec k' k2) as [->|N]; cbn [negb dlookup]; rewrite IH; destruct (String.eqb_spec k k2) as [->|];
    [done|done| |done]. by destruct (String.eqb_spec k2 k') as [->|].
Qed.

Lemma dlookup_dset k k' v d : dlookup k (dset k' v d) = if String.eqb k k' then Some v else dlookup k d.
Proof. destruct (String.eqb_spec k k') as [->|N]; [apply dlookup_dset_eq | by apply dlookup_dset_ne]. Qed.

(** Entries made key by key. *)
Definition keyed (g : string -> dict) : Prop := forall k, exists o : option pyval, g k = from_option (fun v => [(k, v)]) [] o.

Lemma flat_map_lookup g l k : keyed g -> dlookup k (flat_map g l) = if str_in k l then dlookup k (g k) else None.
Proof.
  intros K. induction l as [|k' l IH]; [done|]. cbn [flat_map]. rewrite dlookup_app, IH.
  change (str_in k (k' :: l)) with (String.eqb k k' || str_in k l).
  destruct (K k') as [o E]. rewrite E. destruct (String.eqb_spec k k') as [->|N]; cbn [orb].
  - rewrite E. destruct o; cbn; [by rewrite String.eqb_refl|]. by destruct (str_in k' l).
  - destruct o; cbn; [|done]. destruct (String.eqb_spec k k'); done.
Qed.

Lemma flat_map_nodup g l : keyed g -> NoDup l -> NoDup (map fst (flat_map g l)).
Proof.
  intros K. induction 1 as [|k l N _ IH]; [by constructor|]. cbn [flat_map]. rewrite map_app.
  destruct (K k) as [[v|] E]; rewrite E; [|exact IH]. cbn. constructor; [|exact IH].
  intros I. apply N. clear -I K. induction l as [|k' l IH]; [by apply elem_of_nil in I|]. cbn [flat_map] in I.
  rewrite map_app, elem_of_app in I. destruct (K k') as [o E]. rewrite E in I. destruct I as [I|I]; [|right; by apply IH].
  destruct o; [|by apply elem_of_nil in I]. apply list_elem_of_singleton in I. cbn in I. subst. by left.
Qed.

Lemma gather_flat {A} (f : A -> list FieldError * dict) xs :
  gather f xs = (flat_map (fun x => fst (f x)) xs, flat_map (fun x => snd (f x)) xs).
Proof. induction xs as [|x xs IH]; [done|]. cbn. rewrite IH. by destruct (f x). Qed.

Lemma flat_map_nil {A B} (f : A -> list B) xs : flat_map f xs = [] <-> Forall (fun x => f x = []) xs.
Proof.
  induction xs as [|x xs IH]; cbn; [split; [by constructor | done]|]. rewrite Forall_cons, <- IH. split.
  - intros E. by apply app_eq_nil in E.
  - by intros [-> ->].
Qed.

(** ** Valid settings *)

Definition setting (category field_name : string) (settings : dict) : option pyval :=
  dlookup field_name (as_dict (dget category settings)).

(** A value that a field of the descriptor may be set to, or unset. *)
Definition setting_ok (d : dict) (category name : string) (v : pyval) : Prop :=
  dmem name (fields_of d category) = true
  /\ (v = PNone \/ _validate_value category name v (as_dict (dget name (fields_of d category))) = []).

Definition category_ok (d : dict) (category : string) (v : pyval) : Prop :=
  dmem category (categories_of d) = true
  /\ (v = PNone \/ exists raw, v = PDict raw /\ forall name x, dlookup name raw = Some x -> setting_ok d category name x).

Definition valid (d s : dict) : Prop := forall category v, dlookup category s = Some v -> category_ok d category v.

(** What a JSON object is: each key once, in each of its categories. *)
Definition unique (s : dict) : Prop :=
  NoDup (map fst s) /\ forall category raw, dlookup category s = Some (PDict raw) -> NoDup (map fst raw).

Section validation.
Context (d : dict).

Lemma field_valid category raw name x :
  dlookup name raw = Some x ->
  fst (validate_field true category raw (fields_of d category) name) = [] <-> setting_ok d category name x.
Proof.
  intros L. unfold validate_field, setting_ok. rewrite (dget_some _ _ _ L), andb_true_r.
  destruct (dmem name (fields_of d category)); cbn [negb]; [|split; [done | by intros [? _]]].
  destruct x; cbn [is_none]; try (split; [by intros _; split; [|left] | done]);
    (destruct (_validate_value _ _ _ _) eqn:E; cbn; split; [by intros _; split; [|right] | done | done | by intros [_ [?|?]]]).
Qed.

Lemma field_kept category raw name :
  fst (validate_field true category raw (fields_of d category) name) = [] -> name ∈ map fst raw ->
  snd (validate_field true category raw (fields_of d category) name) = [(name, dget name raw)].
Proof.
  unfold validate_field. destruct (dmem name (fields_of d category)); cbn [negb]; [|done]. rewrite andb_true_r.
  destruct (dget name raw); cbn [is_none]; try done; by destruct (_validate_value _ _ _ _).
Qed.

Lemma fields_keyed category raw : keyed (fun name => snd (validate_field true category raw (fields_of d category) name)).
Proof.
  intros name. unfold validate_field. destruct (negb _); [by exists None|]. destruct (is_none _ && _); [by exists (Some PNone)|].
  destruct (_validate_value _ _ _ _); [by eexists (Some _) | by exists None].
Qed.

Lemma category_valid s category v :
  dlookup category s = Some v -> fst (validate_category true d s category) = [] <-> category_ok d category v.
Proof.
  intros L. unfold validate_category, category_ok. rewrite L. destruct (dmem category (categories_of d)); cbn [negb]; [|split; [done | by intros [? _]]].
  destruct v as [| | | | | | |raw]; cbn; try (split; [done | by intros [_ [?|(? & ? & _)]]]).
  - split; [by intros _; split; [|left] | done].
  - rewrite gather_flat. cbn. rewrite flat_map_nil, Forall_forall. split.
    + intros F. split; [done|]. right. exists raw. split; [done|]. intros name x Lx. apply (field_valid _ raw); [done|]. apply F.
      apply dlookup_keys. by eexists.
    + intros [_ [?|(raw' & [= <-] & F)]]; [done|]. intros name [x Lx]%dlookup_keys. apply (field_valid _ raw _ x); [done|]. by apply F.
Qed.

(** A dictionary passes exactly when it is valid. *)
Lemma validate_iff s : va_valid (validate_settings (PDict s) d true) = true <-> valid d s.
Proof.
  unfold va_valid, validate_settings. rewrite gather_flat. cbn. split.
  - intros E category v L. apply (category_valid s); [done|]. destruct (flat_map _ _) eqn:F; [|done].
    apply flat_map_nil in F. rewrite Forall_forall in F. apply F, dlookup_keys. by eexists.
  - intros V. assert (E : flat_map (fun c => fst (validate_category true d s c)) (map fst s) = []); [|by rewrite E].
    apply flat_map_nil, Forall_forall. intros c [v L]%dlookup_keys. apply (category_valid s c v L). by apply V.
Qed.

Lemma categories_keyed s : keyed (fun c => snd (validate_category true d s c)).
Proof.
  intros c. unfold validate_category. destruct (negb _); [by exists None|].
  destruct (default _ _); try (by exists None). rewrite gather_flat. cbn. destruct (flat_map _ _); [by exists None | by eexists (Some _)].
Qed.

(** What is kept of valid settings says the same of every field. *)
Lemma normalized_setting s c f : valid d s -> setting c f (va_normalized (validate_settings (PDict s) d true)) = setting c f s.
Proof.
  intros V. unfold setting, validate_settings. rewrite gather_flat. cbn. unfold dget. rewrite (flat_map_lookup _ _ _ (categories_keyed s)).
  destruct (str_in c (map fst s)) eqn:I.
  - apply str_in_spec, dlookup_keys in I as [v L]. rewrite L. cbn [default from_option id]. pose proof (V c v L) as Ok_.
    pose proof (proj2 (category_valid s c v L) Ok_) as E. destruct Ok_ as [K R]. unfold validate_category in *. rewrite K, L in *. cbn in *.
    destruct v as [| | | | | | |raw]; try done. rewrite gather_flat in *. cbn in *.
    assert (N : flat_map (fun name => snd (validate_field true c raw (fields_of d c) name)) (map fst raw) = map (fun name => (name, dget name raw)) (map fst raw)).
    { rewrite flat_map_nil, Forall_forall in E. clear -E.
      assert (S : forall l, (forall n, n ∈ l -> n ∈ map fst raw) ->
        flat_map (fun name => snd (validate_field true c raw (fields_of d c) name)) l = map (fun name => (name, dget name raw)) l).
      { induction l as [|n l IH]; [done|]. intros S. cbn. rewrite field_kept; [|apply E, S; by left|apply S; by left].
        rewrite IH; [done|]. intros m J. apply S. by right. }
      by apply S. }
    assert (G : dlookup f (map (fun name => (name, dget name raw)) (map fst raw)) = dlookup f raw).
    { rewrite <- N, (flat_map_lookup _ _ _ (fields_keyed c raw)). destruct (str_in f (map fst raw)) eqn:J.
      - apply str_in_spec in J. rewrite field_kept; [|rewrite flat_map_nil, Forall_forall in E; by apply E|done]. cbn. rewrite String.eqb_refl.
        apply dlookup_keys in J as [x X]. by rewrite (dget_some _ _ _ X), X.
      - apply str_in_false in J. by rewrite dlookup_none. }
    rewrite N. rewrite <- G. by destruct (map _ (map fst raw)) eqn:M; cbn; [|rewrite String.eqb_refl].
  - apply str_in_false in I. by rewrite (dlookup_none _ _ I).
Qed.

Lemma normalized_valid s : valid d s -> valid d (va_normalized (validate_settings (PDict s) d true)).
Proof.
  intros V c v L. unfold validate_settings in L. rewrite gather_flat in L. cbn in L. rewrite (flat_map_lookup _ _ _ (categories_keyed s)) in L.
  destruct (str_in c (map fst s)) eqn:I; [|done]. apply str_in_spec, dlookup_keys in I as [v0 L0]. pose proof (V c v0 L0) as [K R].
  pose proof (proj2 (category_valid s c v0 L0) (conj K R)) as E. split; [exact K|]. right.
  unfold validate_category in *. rewrite K, L0 in *. cbn in *. destruct v0 as [| | | | | | |raw]; try done. rewrite gather_flat in *. cbn in *.
  destruct R as [?|(raw' & [= <-] & R)]; [done|].
  destruct (flat_map (fun x => snd _) (map fst raw)) as [|p n] eqn:N; [done|]. cbn in L. rewrite String.eqb_refl in L. injection L as <-.
  exists (p :: n). split; [done|]. intros name x X. rewrite <- N, (flat_map_lookup _ _ _ (fields_keyed c raw)) in X.
  destruct (str_in name (map fst raw)) eqn:J; [|done]. apply str_in_spec in J.
  rewrite field_kept in X; [|rewrite flat_map_nil, Forall_forall in E; by apply E|done]. cbn in X. rewrite String.eqb_refl in X. injection X as <-.
  apply R. apply dlookup_keys in J as [y Y]. by rewrite (dget_some _ _ _ Y).
Qed.

Lemma normalized_unique s : unique s -> unique (va_normalized (validate_settings (PDict s) d true)).
Proof.
  intros [U W]. unfold validate_settings. rewrite gather_flat. cbn. split; [by apply flat_map_nodup; [apply categories_keyed|]|].
  intros c raw L. rewrite (flat_map_lookup _ _ _ (categories_keyed s)) in L. destruct (str_in c (map fst s)) eqn:I; [|done].
  apply str_in_spec, dlookup_keys in I as [v0 L0]. unfold validate_category in L. rewrite L0 in L. cbn in L.
  destruct (negb _); [done|]. destruct v0 as [| | | | | | |raw0]; try done. rewrite gather_flat in L. cbn in L.
  destruct (flat_map _ (map fst raw0)) as [|p n] eqn:N; [done|]. cbn in L. rewrite String.eqb_refl in L. injection L as <-.
  rewrite <- N. apply flat_map_nodup; [apply fields_keyed | by apply (W c)].
Qed.
End validation.
