(* ===== verification/Security.v ===== *)
(** * Security: roles, dangerous operations and what the audit log may hold

    control-plane/security/permissions.py, audit.py and dangerous_ops.py: an
    actor is a dictionary with an id and a role, a role allows a set of
    operations, a dangerous operation also asks for a request id, a reason and
    a confirmation and leaves an audit row, and what goes into the log is
    redacted first.  The audit_events row keeps the columns of Store.v.  A guard
    is modelled on the actor it checks; the form that wraps a function calls
    the same guard on the actor among its arguments.  A request is a mapping,
    and its row goes to the database, not to a sink that stands in for it. *)

From Stdlib Require Import ZArith Lia Ascii.
From S2P Require Import Prelude Decimal PyString DecText PyValue Json Sha256 Store.
Open Scope string_scope.
Open Scope Z_scope.

(** ** permissions.py *)

Definition AuthRequired (msg : string) : exn := RuntimeError "AuthRequired" msg.
Definition PermissionDenied (msg : string) : exn := RuntimeError "PermissionDenied" msg.

Inductive Role := VIEWER | REVIEWER | RISK_ADMIN | SYSTEM_OBSERVER | NAUTILUS_NODE.

Inductive Operation :=
  | DASHBOARD_READ | REPORTS_READ | RISK_READ | SIGNAL_READ | AUDIT_READ | REVIEW_DECISION_WRITE | KILL_SWITCH | CLOSE_ALL
  | PAIR_LOCK_WRITE | RISK_OVERRIDE_WRITE | LIVE_GATE_APPROVAL | EXECUTION_EVENT_WRITE | NODE_HEARTBEAT_WRITE
  | EXECUTION_ACK_WRITE.

#[export] Instance Role_eq_dec : EqDecision Role.
Proof. solve_decision. Defined.
#[export] Instance Operation_eq_dec : EqDecision Operation.
Proof. solve_decision. Defined.

Definition all_roles : list (string * Role) :=
  [("viewer", VIEWER); ("reviewer", REVIEWER); ("risk_admin", RISK_ADMIN); ("system_observer", SYSTEM_OBSERVER);
   ("nautilus_node", NAUTILUS_NODE)].

Definition all_operations : list (string * Operation) :=
  [("dashboard_read", DASHBOARD_READ); ("reports_read", REPORTS_READ); ("risk_read", RISK_READ); ("signal_read", SIGNAL_READ);
   ("audit_read", AUDIT_READ); ("review_decision_write", REVIEW_DECISION_WRITE); ("kill_switch", KILL_SWITCH);
   ("close_all", CLOSE_ALL); ("pair_lock_write", PAIR_LOCK_WRITE); ("risk_override_write", RISK_OVERRIDE_WRITE);
   ("live_gate_approval", LIVE_GATE_APPROVAL); ("execution_event_write", EXECUTION_EVENT_WRITE);
   ("node_heartbeat_write", NODE_HEARTBEAT_WRITE); ("execution_ack_write", EXECUTION_ACK_WRITE)].

(** [Enum(value)] *)
Definition enum_value {A} (members : list (string * A)) (cls value : string) : result A :=
  match List.find (fun p => String.eqb (fst p) value) members with
  | Some (_, x) => Ok x
  | None => Raise (ValueError ("'" +:+ value +:+ "' is not a valid " +:+ cls))
  end.

Definition _role (value : string) : result Role := enum_value all_roles "Role" value.
Definition _operation (value : string) : result Operation := enum_value all_operations "Operation" value.

Definition TOKEN_ENV_VARS : list string :=
  ["RISK_ADMIN_TOKEN"; "VIEWER_TOKEN"; "REVIEWER_TOKEN"; "SYSTEM_OBSERVER_TOKEN"; "NAUTILUS_NODE_TOKEN"].
Definition REQUIRED_SECRET_ENV_VARS : list string := "CONTROL_PLANE_AUTH_SECRET" :: TOKEN_ENV_VARS.

Definition READS : list Operation := [DASHBOARD_READ; REPORTS_READ; RISK_READ; SIGNAL_READ].
Definition NODE_WRITES : list Operation := [EXECUTION_EVENT_WRITE; NODE_HEARTBEAT_WRITE; EXECUTION_ACK_WRITE].

Definition ROLE_PERMISSIONS (r : Role) : list Operation :=
  match r with
  | VIEWER => READS
  | REVIEWER => READS ++ [REVIEW_DECISION_WRITE]
  | RISK_ADMIN => filter (fun o => o ∉ NODE_WRITES) (map snd all_operations)
  | SYSTEM_OBSERVER => READS ++ [AUDIT_READ]
  | NAUTILUS_NODE => NODE_WRITES
  end.

(** The environment, from names to values. *)
Abbreviation environ := (list (string * string)).

Fixpoint getenv (env : environ) (name : string) : string :=
  match env with
  | [] => ""
  | (k, v) :: env => if String.eqb name k then v else getenv env name
  end.

Definition validate_required_secrets (env : environ) : result unit :=
  let missing := filter (fun name => is_empty (strip (getenv env name)) = true) REQUIRED_SECRET_ENV_VARS in
  match missing with
  | _ :: _ => Raise (ValueError ("missing required security environment variables: " +:+ join ", " missing))
  | [] =>
      if bool_decide (NoDup (map (fun name => strip (getenv env name)) TOKEN_ENV_VARS)) then Ok tt
      else Raise (ValueError "security token values must be unique")
  end.

Record User := { us_actor_id : string; us_role : string }.

Definition nonblank (v : pyval) : option string :=
  match v with PStr s => if is_empty (strip s) then None else Some s | _ => None end.

Definition require_user (actor : option dict) : result User :=
  match nonblank (dget "actor_id" (default [] actor)), nonblank (dget "role" (default [] actor)) with
  | Some actor_id, Some role =>
      match _role role with
      | Ok _ => Ok {| us_actor_id := actor_id; us_role := role |}
      | Raise _ => Raise (PermissionDenied "unknown role")
      end
  | _, _ => Raise (AuthRequired "login required")
  end.

Definition has_permission (role operation : string) : bool :=
  match _role role, _operation operation with
  | Ok r, Ok o => bool_decide (o ∈ ROLE_PERMISSIONS r)
  | _, _ => false
  end.

(** [require_permission(operation)(actor)] *)
Definition require_permission (operation : string) (actor : option dict) : result User :=
  _ ← _operation operation;
  user ← require_user actor;
  if negb (has_permission (us_role user) operation) then Raise (PermissionDenied "permission denied") else Ok user.

(** ** audit.py *)

(** [SECRET_KEY_RE.search(key)] *)
Definition KEY_WORDS : list string :=
  ["authorization"; "cookie"; "password"; "passwd"; "secret"; "token"; "jwt"; "api_key"; "api-key"; "apikey";
   "exchange_key"; "exchange-key"; "exchangekey"].

Definition secret_key (key : string) : bool := existsb (fun w => contains w (lower key)) KEY_WORDS.

(** The words of [SECRET_VALUE_RE]. *)
Definition VALUE_WORDS : list string :=
  ["password"; "passwd"; "secret"; "token"; "jwt"; "api_key"; "api-key"; "apikey"; "exchange_key"; "exchange-key"; "exchangekey"].

Definition drop_text (n : nat) (s : string) : string := String.substring n (String.length s - n) s.

(** A match of [SECRET_VALUE_RE] at the head of a text: the word, and what
    follows the match. *)
Definition secret_assignment (s : string) : option (string * string) :=
  match List.find (fun w => starts_with w (lower s)) VALUE_WORDS with
  | None => None
  | Some w =>
      match lstrip (drop_text (String.length w) s) with
      | String c rest =>
          if Ascii.eqb c ":" || Ascii.eqb c "=" then
            match lstrip rest with
            | String d value =>
                if Ascii.eqb d "," then None
                else Some (String.substring 0 (String.length w) s, lstrip_by (fun c => negb (Ascii.eqb c "," || is_space c)) value)
            | EmptyString => None
            end
          else None
      | EmptyString => None
      end
  end.

(** [SECRET_VALUE_RE.sub(...)]; the fuel is more than the length of the text. *)
Fixpoint redact_text (fuel : nat) (s : string) : string :=
  match fuel, s with
  | S fuel, String c rest =>
      match secret_assignment s with
      | Some (word, tail) => word +:+ "=[REDACTED]" +:+ redact_text fuel tail
      | None => String c (redact_text fuel rest)
      end
  | _, _ => s
  end.

Definition REDACTED : pyval := PStr "[REDACTED]".

Fixpoint redact_payload (value : pyval) : pyval :=
  match value with
  | PDict m => PDict (map (fun p => (fst p, if secret_key (fst p) then REDACTED else redact_payload (snd p))) m)
  | PList l => PList (map redact_payload l)
  | PStr s => PStr (redact_text (S (String.length s)) s)
  | v => v
  end.

Definition _trace_uuid (value : option string) : option string := v ← value; uuid_text <$> uuid_hex v.

(** [AuditEventWriter(conn).write(event)] *)
Definition record_audit_event (event_type aggregate_type aggregate_id actor : string) (payload : dict) (trace_id : option string)
    : M Conn unit :=
  _ ← uuid4;
  now ← get_now;
  execute (set_audit_events (fun t => (t ++ [{|
    au_event_type := event_type; au_aggregate_type := aggregate_type; au_aggregate_id := aggregate_id;
    au_actor := Some actor; au_trace_id := _trace_uuid trace_id; au_raw_message_id := None; au_intent_id := None;
    au_payload := as_dict (redact_payload (PDict payload)); au_created_at := now |}])%list)).

(** [dict(payload or {})]; a list of pairs is refused here. *)
Definition dict_of (v : pyval) : result dict :=
  match v with
  | PDict d => Ok d
  | PStr s => if is_empty s then Ok [] else Raise (ValueError "dictionary update sequence element #0 has length 1; 2 is required")
  | v => if truthy v then Raise (TypeError "cannot convert dictionary update sequence") else Ok []
  end.

Definition dangerous_operation_payload (request_id reason : string) (actor : User) (operation : string) (payload : pyval) (now : Z)
    : result dict :=
  payload ← dict_of payload;
  Ok (as_dict (redact_payload (PDict [
    ("request_id", PStr request_id); ("reason", PStr reason);
    ("actor", PDict [("actor_id", PStr (us_actor_id actor)); ("role", PStr (us_role actor))]);
    ("operation", PStr operation); ("timestamp", PStr (isoformat now)); ("dangerous_operation", PBool true);
    ("payload", PDict payload)]))).

(** ** dangerous_ops.py *)

Record DangerousOperationRequest := {
  dr_request_id : string;
  dr_reason : string;
  dr_confirm : bool;
  dr_payload : pyval }.

Record DangerousOperationDecision := {
  dd_allowed : bool;
  dd_operation : string;
  dd_request_id : string;
  dd_actor_id : string;
  dd_actor_role : string }.

Definition DangerousOperationValidationError (msg : string) : exn := RuntimeError "DangerousOperationValidationError" msg.

(** A request given as a mapping. *)
Definition _coerce_request (request : dict) : DangerousOperationRequest := {|
  dr_request_id := py_str (default (PStr "") (dlookup "request_id" request));
  dr_reason := py_str (default (PStr "") (dlookup "reason" request));
  dr_confirm := truthy (default (PBool false) (dlookup "confirm" request));
  dr_payload := default (PDict []) (dlookup "payload" request) |}.

Definition _validate_request (request : DangerousOperationRequest) : result unit :=
  if is_empty (strip (dr_request_id request)) then Raise (DangerousOperationValidationError "request_id required")
  else if is_empty (strip (dr_reason request)) then Raise (DangerousOperationValidationError "reason required")
  else if negb (dr_confirm request) then Raise (DangerousOperationValidationError "confirmation required")
  else Ok tt.

(** With a connection for the audit log. *)
Definition require_dangerous_operation (actor : option dict) (operation : string) (request : dict) (aggregate_id : string)
    : M Conn DangerousOperationDecision :=
  user ← mlift (require_permission operation actor);
  let dangerous_request := _coerce_request request in
  _ ← mlift (_validate_request dangerous_request);
  now ← get_now;
  audit_payload ← mlift (dangerous_operation_payload (dr_request_id dangerous_request) (dr_reason dangerous_request) user operation
                         (dr_payload dangerous_request) now);
  _ ← record_audit_event operation "dangerous_operation" (if is_empty aggregate_id then operation else aggregate_id)
        (us_actor_id user) audit_payload (Some (py_str (dget "request_id" audit_payload)));
  mret {| dd_allowed := true; dd_operation := operation; dd_request_id := dr_request_id dangerous_request; dd_actor_id := us_actor_id user;
          dd_actor_role := us_role user |}.

(** ** What the log shows *)

Arguments secret_key : simpl never.

(** Values that differ only under the keys of secrets. *)
#[warnings="-register-all"]
Inductive masked : pyval -> pyval -> Prop :=
  | masked_same v : masked v v
  | masked_list l l' : Forall2 masked l l' -> masked (PList l) (PList l')
  | masked_dict m m' : Forall2 (fun p q => fst p = fst q /\ (secret_key (fst p) = true \/ masked (snd p) (snd q))) m m' -> masked (PDict m) (PDict m').

Lemma redact_masked : forall v v', masked v v' -> redact_payload v = redact_payload v'.
Proof.
  fix IH 3. intros v v' [w|l l' F|m m' F]; [done| |]; cbn; f_equal.
  - induction F as [|x x' l l' H _ E]; [done|]. cbn. by rewrite (IH _ _ H), E.
  - induction F as [|[k x] [k' x'] m m' [K H] _ E]; [done|]. cbn in *. subst k'. rewrite E. f_equal. f_equal.
    destruct H as [->|H]; [done|]. by rewrite (IH _ _ H).
Qed.

(** Every value under the key of a secret, at any depth, reads as redacted. *)
Fixpoint hides (v : pyval) : bool :=
  match v with
  | PDict m => forallb (fun p => if secret_key (fst p) then match snd p with PStr s => String.eqb s "[REDACTED]" | _ => false end
                                 else hides (snd p)) m
  | PList l => forallb hides l
  | _ => true
  end.

Lemma redact_hides : forall v, hides (redact_payload v) = true.
Proof.
  fix IH 1. intros v. destruct v as [|b|z|d|x|s|l|m]; [reflexivity..| |]; cbn.
  - induction l as [|x l E]; [done|]. cbn. by rewrite IH, E.
  - induction m as [|[k x] m E]; [done|]. cbn. rewrite E. destruct (secret_key k) eqn:K; cbn; [reflexivity|]. by rewrite IH.
Qed.

Definition audit_row_of (event_type aggregate_type aggregate_id actor : string) (payload : dict) (trace_id : option string) (now : Z)
    : audit_row := {|
  au_event_type := event_type; au_aggregate_type := aggregate_type; au_aggregate_id := aggregate_id;
  au_actor := Some actor; au_trace_id := _trace_uuid trace_id; au_raw_message_id := None; au_intent_id := None;
  au_payload := as_dict (redact_payload (PDict payload)); au_created_at := now |}.

Lemma record_run e t i a p tr c :
  record_audit_event e t i a p tr c = (Ok tt, {| committed := committed c;
    current := set_audit_events (fun l => (l ++ [audit_row_of e t i a p tr (clock c)])%list) (current c); uuids := uuids c + 1; clock := clock c |}).
Proof. done. Qed.

Definition OPERATOR_ONLY : list string := ["kill_switch"; "close_all"; "pair_lock_write"; "risk_override_write"; "live_gate_approval"].

Lemma operator_only operation role : str_in operation OPERATOR_ONLY = true -> has_permission role operation = true -> role = "risk_admin".
Proof.
  unfold has_permission, _role, enum_value, all_roles. cbn [List.find fst].
  destruct (String.eqb_spec "risk_admin" role) as [<-|]; [done|]. intros O P. exfalso.
  apply str_in_spec in O. unfold OPERATOR_ONLY in O. rewrite !elem_of_cons in O.
  repeat (destruct (String.eqb _ role); [destruct O as [->|[->|[->|[->|[->|O]]]]]; [vm_compute in P; discriminate P..|by apply elem_of_nil in O]|]).
  discriminate P.
Qed.

Lemma require_permission_inv operation actor user :
  require_permission operation actor = Ok user -> has_permission (us_role user) operation = true.
Proof.
  unfold require_permission. intros H. apply rbind_inv_ok in H as (o & _ & H). apply rbind_inv_ok in H as (u & _ & H).
  destruct (has_permission (us_role u) operation) eqn:P; [|done]. by injection H as <-.
Qed.

(** C20. No dangerous operation without a trace, no trace with a secret.  An
    operation that is let through was asked for by a user whose role allows it,
    for kill switch, close all, locks, overrides and the live gate the risk
    admin alone, with a request id, a reason and a confirmation; it leaves
    exactly one row in the audit log, by that user, in which every value under
    the key of a secret is redacted; an operation that is refused leaves the
    database as it was. *)
Theorem dangerous_operation_gated actor operation request aggregate_id c :
  match require_dangerous_operation actor operation request aggregate_id c with
  | (Ok d, c') => exists user, require_permission operation actor = Ok user
      /\ has_permission (us_role user) operation = true
      /\ (str_in operation OPERATOR_ONLY = true -> us_role user = "risk_admin")
      /\ truthy (dget "confirm" request) = true /\ is_empty (strip (dd_request_id d)) = false
      /\ is_empty (strip (dr_reason (_coerce_request request))) = false
      /\ exists row, current c' = set_audit_events (fun t => (t ++ [row])%list) (current c)
         /\ au_event_type row = operation /\ au_actor row = Some (us_actor_id user) /\ hides (PDict (au_payload row)) = true
  | (Raise _, c') => c' = c
  end.
Proof.
  unfold require_dangerous_operation, mlift, mbind, M_bind. destruct (require_permission operation actor) as [user|e] eqn:P; [|done].
  cbv beta iota zeta. destruct (_validate_request (_coerce_request request)) as [[]|e] eqn:V; [|done].
  cbn [get_now]. cbv beta iota. destruct (dangerous_operation_payload _ _ _ _ _ _) as [payload|e]; [|done].
  rewrite record_run. cbn [mret M_ret current]. pose proof (require_permission_inv _ _ _ P) as R. exists user.
  unfold _validate_request in V. destruct (is_empty (strip (dr_request_id _))) eqn:E1; [done|]. destruct (is_empty (strip (dr_reason _))) eqn:E2; [done|].
  destruct (dr_confirm _) eqn:Cf; [|done]. split_and!; [done|done|intros O; by eapply operator_only| |done|done|].
  - unfold _coerce_request in Cf. cbn in Cf. unfold dget. by destruct (dlookup "confirm" request).
  - eexists. split; [reflexivity|]. split_and!; [done|done|]. apply (redact_hides (PDict _)).
Qed.

(** The log does not depend on secrets.  Two payloads that differ only in
    values under the keys of secrets, at any depth, leave the same row and the
    same database. *)
Theorem audit_hides_secrets event_type aggregate_type aggregate_id actor p p' trace_id c :
  masked (PDict p) (PDict p') ->
  record_audit_event event_type aggregate_type aggregate_id actor p trace_id c
  = record_audit_event event_type aggregate_type aggregate_id actor p' trace_id c.
Proof. intros M. rewrite !record_run. unfold audit_row_of. by rewrite (redact_masked _ _ M). Qed.

(** ** Examples *)

Definition login (user password : string) : dict := [("user", PStr user); ("auth", PDict [("Password", PStr password)])].

Example audit_hides_secrets_witness :
  forall c, record_audit_event "login" "user" "u-1" "gateway" (login "ann" "hunter2") None c
          = record_audit_event "login" "user" "u-1" "gateway" (login "ann" "letmein") None c.
Proof.
  intros c. apply (audit_hides_secrets "login" "user" "u-1" "gateway" (login "ann" "hunter2") (login "ann" "letmein") None c).
  apply masked_dict. constructor; [split; [reflexivity|right; apply masked_same]|].
  constructor; [|constructor]. split; [reflexivity|]. right. apply masked_dict. constructor; [|constructor]. split; [reflexivity|].
  left. vm_compute. reflexivity.
Defined.

Example assignments_redacted :
  redact_payload (PList [PStr "retry with Token : abc, key=1"; PStr "api_key=xyz then"; PStr "tokens are fine"])
  = PList [PStr "retry with Token=[REDACTED], key=1"; PStr "api_key=[REDACTED] then"; PStr "tokens are fine"].
Proof. vm_compute. reflexivity. Qed.

Example roles_checked :
  require_permission "close_all" (Some [("actor_id", PStr "v"); ("role", PStr "viewer")]) = Raise (PermissionDenied "permission denied")
  /\ require_permission "close_all" (Some [("actor_id", PStr "n"); ("role", PStr "nautilus_node")]) = Raise (PermissionDenied "permission denied")
  /\ require_permission "close_all" None = Raise (AuthRequired "login required")
  /\ is_ok (require_permission "close_all" (Some [("actor_id", PStr "r"); ("role", PStr "risk_admin")])) = true.
Proof. vm_compute. split_and!; reflexivity. Qed.
