(* ===== verification/Settings.v ===== *)
(** * Settings: versions, scopes and permissions of the business settings

    control-plane/settings/: permissions.py, resolver.py, versioning.py,
    service.py, publisher.py, import_export.py, apply_plan.py, with
    audit/settings_audit.py and the consumer of the node,
    nautilus-node/runtime/settings_consumer.py.  A scope, global, an account's
    or an instrument's, has versions of settings; a patch, a rollback or an
    import appends one, under the version the caller has seen, writes an audit
    row and enqueues settings.changed.  The effective value of a field is that
    of the most specific scope which sets it, or the descriptor's default.
    [descriptor] is the loaded file; expected versions are integers.  The audit
    columns that repeat what the payload of the row holds are not kept. *)

From Stdlib Require Import ZArith Lia Ascii.
From S2P Require Import Prelude Decimal PyString DecText PyValue Json Sha256 Store External Identifiers Binary64 SettingsSchema Security.
Open Scope string_scope.
Open Scope Z_scope.

Definition descriptor : dict := order_management_settings_v1.

(** ** permissions.py *)

Definition SettingsPermissionDenied (msg : string) : exn := RuntimeError "SettingsPermissionDenied" msg.

Definition SETTINGS_ROLE_PERMISSIONS (role : string) : list string :=
  if String.eqb role "viewer" then ["read"; "validate"; "export"]
  else if String.eqb role "operator" then ["read"; "validate"; "export"; "patch"]
  else if String.eqb role "risk_admin" then ["read"; "validate"; "export"; "patch"; "rollback"; "import"]
  else [].

Definition RISK_INCREASE_FIELDS : list (string * string) := map (pair "money")
  ["fixed_notional"; "equity_fraction"; "risk_per_trade_pct"; "max_notional_per_order"; "max_leverage"; "max_open_positions";
   "max_instrument_exposure"; "max_correlated_exposure"; "max_total_risk_pct"; "daily_loss_limit_pct"; "max_drawdown_pct"].
Definition RISK_DECREASE_FIELDS : list (string * string) := map (pair "money") ["minimum_free_margin_pct"; "reserve_balance_pct"].

(** [DISCONNECT_ACTION_RANK.get(str(action), 0)] *)
Definition DISCONNECT_ACTION_RANK (action : pyval) : Z :=
  let a := py_str action in
  if String.eqb a "halt" then 0 else if String.eqb a "reducing" then 1 else if String.eqb a "hold" then 2 else 0.

Definition has_settings_permission (role operation : string) : bool := str_in operation (SETTINGS_ROLE_PERMISSIONS role).

(** One layer over another: fields that the lower one knows, when they are set. *)
Definition merge_field (category field_name : string) (value : pyval) (merged : dict) : dict :=
  if is_none value || negb (dmem field_name (as_dict (dget category merged))) then merged
  else dset category (PDict (dset field_name value (as_dict (dget category merged)))) merged.

Definition merge_layer (settings merged : dict) : dict :=
  fold_left (fun merged p => match snd p with
    | PDict fields => if dmem (fst p) merged then fold_left (fun merged q => merge_field (fst p) (fst q) (snd q) merged) fields merged
                      else merged
    | _ => merged
    end) settings merged.

Definition _with_defaults (settings : dict) : dict := merge_layer settings (default_settings descriptor).

Definition _path (settings : dict) (path : string * string) : pyval := default PNone (setting (fst path) (snd path) settings).

(** [float(value)], zero when it is no number. *)
Definition _number (value : pyval) : xdec :=
  let of_dec x := match x with XFin d => float_of_dec d | x => x end in
  match value with
  | PBool b => XFin (dec_of_int (if b then 1 else 0))
  | PInt z => float_of_dec (dec_of_int z)
  | PFloat d => XFin d
  | PDec x => of_dec x
  | PStr s => if contains "snan" (lower s) then XFin dzero else default (XFin dzero) (of_dec <$> parse_dec s)
  | _ => XFin dzero
  end.

(** [a > b] of floats. *)
Definition float_gtb (a b : xdec) : bool := match xcompare a b with Some Gt => true | _ => false end.

Definition requires_live_risk_confirmation (before_settings after_settings : dict) : bool :=
  let before := _with_defaults before_settings in
  let after := _with_defaults after_settings in
  let live s := is_text (_path s ("general", "execution_mode")) "live" in
  if negb (live after) && negb (live before) then false
  else
    existsb (fun path => float_gtb (_number (_path after path)) (_number (_path before path))) RISK_INCREASE_FIELDS
    || existsb (fun path => float_gtb (_number (_path before path)) (_number (_path after path))) RISK_DECREASE_FIELDS
    || (match _path before ("protection", "require_stop"), _path after ("protection", "require_stop") with
        | PBool true, PBool false => true | _, _ => false end)
    || (DISCONNECT_ACTION_RANK (_path before ("price_monitor", "disconnect_action"))
        <? DISCONNECT_ACTION_RANK (_path after ("price_monitor", "disconnect_action"))).

(** [str(v or ...).strip()] *)
Definition stripped (v : pyval) : string := strip (py_str (py_or v (PStr ""))).

Definition assert_can_read_settings (actor : dict) (operation : string) : result User :=
  let actor_id := stripped (dget "actor_id" actor) in
  let role := stripped (dget "role" actor) in
  if is_empty actor_id || is_empty role then Raise (SettingsPermissionDenied "settings actor required")
  else if negb (has_settings_permission role operation) then
    Raise (SettingsPermissionDenied (role +:+ " cannot " +:+ operation +:+ " order-management settings"))
  else Ok {| us_actor_id := actor_id; us_role := role |}.

Definition assert_can_write_settings (actor : dict) (operation : string) (before_settings after_settings : dict)
    (confirm operator_signoff : pyval) : result User :=
  user ← assert_can_read_settings actor operation;
  if requires_live_risk_confirmation before_settings after_settings then
    if negb (match confirm with PBool true => true | _ => false end) || is_empty (stripped operator_signoff) then
      Raise (SettingsPermissionDenied "live risk relaxation requires confirm=true and operator_signoff")
    else Ok user
  else Ok user.

(** ** resolver.py *)

Definition SYSTEM_SCOPE : string := "system_default".
Definition GLOBAL_SCOPE : string := "global".
Definition ACCOUNT_SCOPE : string := "account".
Definition INSTRUMENT_SCOPE : string := "instrument".
Definition GLOBAL_SCOPE_KEY : string := "global".

Definition canonical_scope_key (scope : string) (scope_key : option string) : result string :=
  let scope_value := lower (strip scope) in
  if String.eqb scope_value GLOBAL_SCOPE then Ok GLOBAL_SCOPE_KEY
  else if String.eqb scope_value ACCOUNT_SCOPE then canonical_account_id (Some (default "" scope_key))
  else if String.eqb scope_value INSTRUMENT_SCOPE then Ok (canonical_instrument_key (default "" scope_key))
  else Raise (ValueError ("unsupported settings scope '" +:+ scope +:+ "'")).

Definition scope_chain (account_id instrument_id : option string) : result (list (string * string)) :=
  account ← (match account_id with
             | Some a => key ← canonical_scope_key ACCOUNT_SCOPE (Some a); Ok [(ACCOUNT_SCOPE, key)]
             | None => Ok []
             end);
  instrument ← (match instrument_id with
                | Some i => key ← canonical_scope_key INSTRUMENT_SCOPE (Some i); Ok [(INSTRUMENT_SCOPE, key)]
                | None => Ok []
                end);
  Ok ((GLOBAL_SCOPE, GLOBAL_SCOPE_KEY) :: account ++ instrument)%list.

Definition target_scope (account_id instrument_id : option string) : string :=
  match instrument_id, account_id with
  | Some _, _ => INSTRUMENT_SCOPE
  | None, Some _ => ACCOUNT_SCOPE
  | None, None => GLOBAL_SCOPE
  end.

(** Resolved values, and the scope each comes from. *)
Abbreviation resolved := (dict * gmap (string * string) string)%type.

Definition resolve_field (scope category field_name : string) (value : pyval) (r : resolved) : resolved :=
  if is_none value || negb (dmem field_name (as_dict (dget category (fst r)))) then r
  else (merge_field category field_name value (fst r), <[(category, field_name) := scope]> (snd r)).

Definition _merge_layer (scope : string) (settings : dict) (r : resolved) : resolved :=
  fold_left (fun r p => match snd p with
    | PDict fields => if dmem (fst p) (fst r)
                      then fold_left (fun r q => resolve_field scope (fst p) (fst q) (snd q) r) fields r else r
    | _ => r
    end) settings r.

Record EffectiveField := {
  ef_value : pyval;
  ef_source_scope : string;
  ef_inherited : bool;
  ef_errors : list FieldError;
  ef_apply_mode : pyval }.

Definition resolve_effective_settings (layers : gmap (string * string) dict) (account_id instrument_id : option string)
    : result (list (string * list (string * EffectiveField))) :=
  chain ← scope_chain account_id instrument_id;
  let '(values, sources) :=
    fold_left (fun r s => _merge_layer (fst s) (default [] (layers !! s)) r) chain (default_settings descriptor, ∅) in
  let current_target := target_scope account_id instrument_id in
  Ok (map (fun c => (fst c, map (fun f =>
        let value := default PNone (setting (fst c) (fst f) values) in
        let source_scope := default SYSTEM_SCOPE (sources !! (fst c, fst f)) in
        (fst f, {| ef_value := value; ef_source_scope := source_scope;
                   ef_inherited := negb (String.eqb source_scope current_target);
                   ef_errors := va_errors (validate_settings (PDict [(fst c, PDict [(fst f, value)])]) descriptor true);
                   ef_apply_mode := dget "apply_mode" (as_dict (snd f)) |}))
      (as_dict (snd c)))) (categories_of descriptor)).

Definition extract_values (r : list (string * list (string * EffectiveField))) : dict :=
  map (fun c => (fst c, PDict (map (fun f => (fst f, ef_value (snd f))) (snd c)))) r.

(** ** versioning.py *)

Abbreviation scoped := (string * string)%type.

Record CurrentSettings := { cu_version : Z; cu_settings : dict }.

(** [ORDER BY version DESC LIMIT 1] of a scope's rows. *)
Definition latest_version {A} (s : scoped) (t : gmap (string * string * Z) A) : option (Z * A) :=
  hd_error (sort_by (fun a b => fst b <=? fst a)
    (omap (fun kr : (string * string * Z) * A => if decide (fst (fst kr) = s) then Some (snd (fst kr), snd kr) else None)
      (map_to_list t))).

Definition get_current_settings (s : scoped) : M Conn CurrentSettings :=
  row ← select (fun d => latest_version s (order_management_settings (desk d)));
  match row with
  | Some (version, r) => mret {| cu_version := version; cu_settings := os_settings r |}
  | None => mret {| cu_version := 0; cu_settings := [] |}
  end.

Definition unique_violation (name : string) : exn := RuntimeError "UniqueViolation" name.

Definition insert_settings_version (s : scoped) (version : Z) (previous_version : option Z) (settings : dict)
    (changed_by reason request_id : string) : M Conn unit :=
  now ← get_now;
  _ ← uuid4;
  taken ← select (fun d => order_management_settings (desk d) !! (s, version));
  if version <=? 0 then mraise (check_violation "ck_order_management_settings_version")
  else if bool_decide (is_Some taken) then mraise (unique_violation "uq_order_management_settings_scope_version")
  else
    _ ← execute (set_order_management_settings (<[(s, version) := {|
          os_settings := settings; os_created_by := changed_by; os_reason := reason; os_request_id := request_id;
          os_created_at := now |}]>));
    _ ← uuid4;
    taken ← select (fun d => order_management_setting_versions (desk d) !! (s, version));
    if bool_decide (is_Some taken) then mraise (unique_violation "uq_order_management_setting_versions_scope_version")
    else execute (set_order_management_setting_versions (<[(s, version) := {|
           sv_previous_version := previous_version; sv_settings := settings; sv_changed_by := changed_by; sv_reason := reason;
           sv_request_id := request_id; sv_created_at := now |}]>)).

Definition list_versions (s : scoped) : M Conn (list (Z * setting_version_row)) :=
  select (fun d => sort_by (fun a b => fst b <=? fst a)
    (omap (fun kr : (string * string * Z) * setting_version_row =>
             if decide (fst (fst kr) = s) then Some (snd (fst kr), snd kr) else None)
      (map_to_list (order_management_setting_versions (desk d))))).

Definition get_version (s : scoped) (version : Z) : M Conn setting_version_row :=
  row ← select (fun d => order_management_setting_versions (desk d) !! (s, version));
  match row with
  | Some r => mret r
  | None => mraise (KeyError ("settings version not found: " +:+ fst s +:+ ":" +:+ snd s +:+ ":" +:+ int_str version))
  end.

Record SettingsChange := { sc_path : string; sc_before : pyval; sc_after : pyval }.

(** The keys of both, sorted. *)
Definition all_paths (before after : dict) : list string :=
  sort_by String.leb (remove_dups (map fst before ++ map fst after)).

Definition diff_settings (before after : dict) : list SettingsChange :=
  let flat_before := flatten_settings before in
  let flat_after := flatten_settings after in
  flat_map (fun path =>
      let b := dget path flat_before in
      let a := dget path flat_after in
      if py_eqb b a then [] else [{| sc_path := path; sc_before := b; sc_after := a |}])
    (all_paths flat_before flat_after).

(** ** audit/settings_audit.py *)

(** SHA-1, which uuid5 hashes with. *)
Definition rotl (n x : Z) : Z := rotr (32 - n) x.

Definition sha1_step (n : nat) (w : Z) (h : list Z) : list Z :=
  match h with
  | [a; b; c; d; e] =>
      let '(f, k) :=
        if (n <? 20)%nat then (Z.lor (Z.land b c) (Z.land (w32 (Z.lnot b)) d), 0x5A827999)
        else if (n <? 40)%nat then (Z.lxor (Z.lxor b c) d, 0x6ED9EBA1)
        else if (n <? 60)%nat then (Z.lor (Z.lor (Z.land b c) (Z.land b d)) (Z.land c d), 0x8F1BBCDC)
        else (Z.lxor (Z.lxor b c) d, 0xCA62C1D6) in
      [w32 (rotl 5 a + f + e + k + w); a; rotl 30 b; c; d]
  | _ => h
  end.

(** The eighty words of a block, the latest first. *)
Fixpoint sha1_words (n : nat) (latest : list Z) : list Z :=
  match n with
  | O => latest
  | S n => sha1_words n (rotl 1 (Z.lxor (Z.lxor (nth 2 latest 0) (nth 7 latest 0)) (Z.lxor (nth 13 latest 0) (nth 15 latest 0))) :: latest)
  end.

Fixpoint sha1_rounds (n : nat) (ws h : list Z) : list Z :=
  match ws with [] => h | w :: ws => sha1_rounds (S n) ws (sha1_step n w h) end.

Definition sha1_block (h block : list Z) : list Z :=
  zip_with (fun x y => w32 (x + y)) h (sha1_rounds 0 (rev (sha1_words 64 (rev block))) h).

Fixpoint sha1_digest (fuel : nat) (h w : list Z) : list Z :=
  match fuel, w with
  | S fuel, _ :: _ => sha1_digest fuel (sha1_block h (take 16 w)) (drop 16 w)
  | _, _ => h
  end.

Definition sha1_hex (m : list Z) : string :=
  let w := words (pad_message m) in
  String.concat "" (map hex_word (sha1_digest (length w) [0x67452301; 0xEFCDAB89; 0x98BADCFE; 0x10325476; 0xC3D2E1F0] w)).

(** [NAMESPACE_URL.bytes] *)
Definition NAMESPACE_URL : list Z :=
  [0x6b; 0xa7; 0xb8; 0x11; 0x9d; 0xad; 0x11; 0xd1; 0x80; 0xb4; 0x00; 0xc0; 0x4f; 0xd4; 0x30; 0xc8].

(** The digit that marks the variant: its two high bits are 10. *)
Definition variant_digit (c : ascii) : ascii :=
  hex_digit (8 + Z.land (if is_digit c then Z.of_nat (nat_of_ascii c) - 48 else Z.of_nat (nat_of_ascii c) - 87) 3).

Definition uuid5 (namespace : list Z) (name : string) : string :=
  let h := sha1_hex (namespace ++ bytes_of name)%list in
  uuid_text (String.substring 0 12 h +:+ "5" +:+ String.substring 13 3 h
             +:+ match String.get 16 h with Some c => String (variant_digit c) "" | None => "" end +:+ String.substring 17 15 h).

Definition request_id_uuid (request_id : string) : string :=
  let value := strip request_id in
  match uuid_hex value with
  | Some h => uuid_text h
  | None => uuid5 NAMESPACE_URL ("order-management-settings:" +:+ value)
  end.

Definition user_dict (u : User) : dict := [("actor_id", PStr (us_actor_id u)); ("role", PStr (us_role u))].

Definition record_settings_audit (actor : User) (action target : string) (before_state after_state : dict) (reason request_id : string)
    : M Conn unit :=
  _ ← uuid4;
  now ← get_now;
  execute (set_audit_events (fun t => (t ++ [{|
    au_event_type := action; au_aggregate_type := "order_management_settings"; au_aggregate_id := target;
    au_actor := Some (us_actor_id actor); au_trace_id := Some (request_id_uuid request_id); au_raw_message_id := None;
    au_intent_id := None;
    au_payload := as_dict (redact_payload (PDict [
      ("actor", PDict (user_dict actor)); ("action", PStr action); ("target", PStr target);
      ("before_state", PDict before_state); ("after_state", PDict after_state); ("reason", PStr reason);
      ("request_id", PStr request_id)]));
    au_created_at := now |}])%list)).

(** ** publisher.py *)

Definition publish_settings_changed (s : scoped) (version : Z) (settings : dict) (request_id : string) : M Conn string :=
  enqueue_order_management_event "order_management_settings" (fst s +:+ ":" +:+ snd s) "settings.changed" request_id
    [("scope", PStr (fst s)); ("scope_key", PStr (snd s)); ("version", PInt version); ("settings", PDict settings)]
    (Some request_id).

(** ** import_export.py *)

(** [SECRET_NAME_RE.search(name)] *)
Definition secret_name (name : string) : bool :=
  existsb (fun w => contains w (lower name)) ["secret"; "token"; "api_key"; "api-key"; "apikey"; "password"; "credential"].

Definition sanitize_export (settings : dict) : dict :=
  select_fields (fun category field_name => negb (secret_name field_name) && public_field descriptor category field_name) settings.

Definition export_payload (s : scoped) (version : Z) (settings : dict) (environment : string) (now : Z) : dict :=
  [("schema_version", PStr "1.0"); ("exported_at", PStr (isoformat now)); ("environment", PStr environment);
   ("scope", PStr (fst s)); ("scope_key", PStr (snd s)); ("version", PInt version); ("settings", PDict (sanitize_export settings))].

Record ImportValidation := {
  iv_errors : list FieldError;
  iv_warnings : list string;
  iv_settings : dict }.

Definition validate_import_payload (payload : dict) (current_environment : string) (before_settings : dict) : ImportValidation :=
  let settings := dget "settings" payload in
  let validation := validate_settings (PDict (as_dict settings)) descriptor true in
  let payload_environment := stripped (dget "environment" payload) in
  {| iv_errors := va_errors validation;
     iv_warnings := (when (negb (is_empty payload_environment) && negb (String.eqb payload_environment current_environment)) "environment_mismatch"
                     ++ when (is_dict settings && requires_live_risk_confirmation before_settings (as_dict settings)) "risk_relaxation")%list;
     iv_settings := if va_valid validation then va_normalized validation else [] |}.

(** ** service.py *)

Definition SettingsServiceError (code message : string) (status_code : Z) : exn :=
  RuntimeError ("SettingsServiceError " +:+ int_str status_code +:+ " " +:+ code) message.

Definition set_or_pop (name : string) (value : pyval) (target : dict) : dict :=
  if is_none value then dpop name target else dset name value target.

Definition apply_patch_to_settings (current_settings patch : dict) : dict :=
  fold_left (fun merged p => match snd p with
    | PDict fields =>
        match fold_left (fun target q => set_or_pop (fst q) (snd q) target) fields (as_dict (dget (fst p) merged)) with
        | [] => dpop (fst p) merged
        | target => dset (fst p) (PDict target) merged
        end
    | _ => merged
    end) patch current_settings.

Definition _scope (scope : string) (scope_key : option string) : result scoped :=
  let scope_value := lower (strip (if is_empty scope then "global" else scope)) in
  match canonical_scope_key scope_value scope_key with
  | Ok key => Ok (scope_value, key)
  | Raise (ValueError m) => Raise (SettingsServiceError "invalid_scope" m 400)
  | Raise e => Raise e
  end.

Definition get_settings (scope : string) (scope_key : option string) : M Conn (scoped * CurrentSettings) :=
  s ← mlift (_scope scope scope_key);
  current ← get_current_settings s;
  mret (s, current).

Definition fetch_latest_settings_by_scope (account_id instrument_id : option string) : M Conn (gmap (string * string) dict) :=
  chain ← mlift (scope_chain account_id instrument_id);
  select (fun d => fold_left (fun rows s =>
      match latest_version s (order_management_settings (desk d)) with
      | Some (_, r) => <[s := os_settings r]> rows
      | None => rows
      end) chain ∅).

Definition get_effective (account_id instrument_id : option string) : M Conn (list (string * list (string * EffectiveField))) :=
  layers ← fetch_latest_settings_by_scope account_id instrument_id;
  mlift (resolve_effective_settings layers account_id instrument_id).

(** What the caller of a change supplies. *)
Record ChangeRequest := {
  cr_scope : string;
  cr_scope_key : option string;
  cr_expected_version : option Z;
  cr_reason : string;
  cr_request_id : string;
  cr_actor : dict;
  cr_confirm : pyval;
  cr_operator_signoff : pyval }.

Record ChangeResult := {
  ch_scope : scoped;
  ch_version : Z;
  ch_previous_version : option Z;
  ch_settings : dict;
  ch_outbox_event_id : string }.

(** [current["version"] or None] *)
Definition version_or_none (v : Z) : option Z := if v =? 0 then None else Some v.

(** The writes of a change: the version, its audit row and its event. *)
Definition write_change (s : scoped) (user : User) (action : string) (current : CurrentSettings) (after_settings : dict)
    (r : ChangeRequest) : M Conn ChangeResult :=
  let version := cu_version current + 1 in
  _ ← insert_settings_version s version (version_or_none (cu_version current)) after_settings (us_actor_id user)
        (cr_reason r) (cr_request_id r);
  _ ← record_settings_audit user action (fst s +:+ ":" +:+ snd s) (cu_settings current) after_settings (cr_reason r) (cr_request_id r);
  outbox_event_id ← publish_settings_changed s version after_settings (cr_request_id r);
  mret {| ch_scope := s; ch_version := version; ch_previous_version := version_or_none (cu_version current);
          ch_settings := after_settings; ch_outbox_event_id := outbox_event_id |}.

Definition version_conflict : exn := SettingsServiceError "version_conflict" "settings version conflict" 409.

Definition patch_body (s : scoped) (normalized : dict) (expected_version : Z) (r : ChangeRequest) : M Conn ChangeResult :=
  current ← get_current_settings s;
  if negb (cu_version current =? expected_version) then mraise version_conflict
  else
    let after_settings := apply_patch_to_settings (cu_settings current) normalized in
    if negb (va_valid (validate_settings (PDict after_settings) descriptor true)) then
      mraise (SettingsServiceError "validation_failed" "resulting settings failed validation" 400)
    else
      user ← mlift (assert_can_write_settings (cr_actor r) "patch" (cu_settings current) after_settings (cr_confirm r)
                      (cr_operator_signoff r));
      write_change s user "settings.patch" current after_settings r.

Definition patch_settings (patch : dict) (r : ChangeRequest) : M Conn ChangeResult :=
  match cr_expected_version r with
  | None => mraise (SettingsServiceError "expected_version_required" "expected_version is required" 400)
  | Some expected_version =>
      if is_empty (strip (cr_reason r)) then mraise (SettingsServiceError "reason_required" "reason is required" 400)
      else if is_empty (strip (cr_request_id r)) then mraise (SettingsServiceError "request_id_required" "request_id is required" 400)
      else
        s ← mlift (_scope (cr_scope r) (cr_scope_key r));
        let validation := validate_settings (PDict patch) descriptor true in
        if negb (va_valid validation) then
          mraise (SettingsServiceError "validation_failed" "settings patch failed validation" 400)
        else transaction (patch_body s (va_normalized validation) expected_version r)
  end.

(** [service.get_version] *)
Definition version_of (s : scoped) (version : Z) : M Conn setting_version_row :=
  try_except (get_version s version)
    (fun e => match e with KeyError k => mraise (SettingsServiceError "version_not_found" k 404) | e => mraise e end).

Definition diff_versions (scope : string) (scope_key : option string) (from_version to_version : Z) : M Conn (list SettingsChange) :=
  s ← mlift (_scope scope scope_key);
  before ← version_of s from_version;
  after ← version_of s to_version;
  mret (diff_settings (sv_settings before) (sv_settings after)).

(** [int(v)] of a version that may be missing. *)
Definition int_version (v : option Z) : result Z :=
  match v with Some n => Ok n | None => Raise (TypeError "int() argument must not be 'NoneType'") end.

Definition rollback_body (s : scoped) (after_settings : dict) (r : ChangeRequest) : M Conn ChangeResult :=
  current ← get_current_settings s;
  expected_version ← mlift (int_version (cr_expected_version r));
  if negb (cu_version current =? expected_version) then mraise version_conflict
  else
    user ← mlift (assert_can_write_settings (cr_actor r) "rollback" (cu_settings current) after_settings (cr_confirm r)
                    (cr_operator_signoff r));
    write_change s user "settings.rollback" current after_settings r.

Definition rollback_settings (target_version : option Z) (r : ChangeRequest) : M Conn ChangeResult :=
  if negb (match cr_confirm r with PBool true => true | _ => false end) then
    mraise (SettingsServiceError "confirmation_required" "rollback requires confirm=true" 400)
  else if is_empty (strip (cr_reason r)) then mraise (SettingsServiceError "reason_required" "reason is required" 400)
  else if is_empty (strip (cr_request_id r)) then mraise (SettingsServiceError "request_id_required" "request_id is required" 400)
  else
    s ← mlift (_scope (cr_scope r) (cr_scope_key r));
    target ← mlift (int_version target_version);
    row ← version_of s target;
    transaction (rollback_body s (sv_settings row) r).

Definition export_settings (scope : string) (scope_key : option string) (environment : string) : M Conn dict :=
  s ← mlift (_scope scope scope_key);
  current ← get_current_settings s;
  now ← get_now;
  mret (export_payload s (cu_version current) (cu_settings current) environment now).

Definition validate_import (payload : dict) (current_environment scope : string) (scope_key : option string) : M Conn ImportValidation :=
  s ← mlift (_scope scope scope_key);
  current ← get_current_settings s;
  mret (validate_import_payload payload current_environment (cu_settings current)).

Definition import_settings (payload : dict) (current_environment : string) (r : ChangeRequest) : M Conn ChangeResult :=
  validation ← validate_import payload current_environment (cr_scope r) (cr_scope_key r);
  match iv_errors validation with
  | _ :: _ => mraise (SettingsServiceError "validation_failed" "settings import failed validation" 400)
  | [] =>
      _ ← mlift (assert_can_write_settings (cr_actor r) "import" [] [] PNone PNone);
      patch_settings (iv_settings validation) r
  end.

(** The effective version is never known here: it is always None. *)
Record RuntimeStatus := { rt_scope : scoped; rt_desired_version : Z; rt_status : string }.

Definition runtime_status (scope : string) (scope_key : option string) : M Conn RuntimeStatus :=
  current ← get_settings scope scope_key;
  let version := cu_version (snd current) in
  mret {| rt_scope := fst current; rt_desired_version := version;
          rt_status := if version =? 0 then "not_published" else "pending_ack" |}.

(** ** apply_plan.py *)

Record ApplyPlan := { ap_hot_reload : list SettingsChange; ap_restart_required : list SettingsChange }.

(** Category and field of a path. *)
Definition path_field (path : string) : string * string := (before "." path, drop_text (S (String.length (before "." path))) path).

Definition build_apply_plan (before after : dict) : ApplyPlan :=
  let mode c := match field_descriptor (fst (path_field (sc_path c))) (snd (path_field (sc_path c))) descriptor with
                | Ok field => dget "apply_mode" field
                | Raise _ => PNone
                end in
  let changes := diff_settings before after in
  {| ap_hot_reload := filter (fun c => is_text (mode c) "hot_reload" = true) changes;
     ap_restart_required := filter (fun c => is_text (mode c) "restart_required" = true) changes |}.

(** ** runtime/settings_consumer.py *)

Record SettingsConsumer := {
  sn_desired_version : option Z;
  sn_effective_version : option Z;
  sn_effective_settings : dict;
  sn_findings : list (option Z * option Z * list FieldError) }.

Definition fresh_consumer : SettingsConsumer := {|
  sn_desired_version := None; sn_effective_version := None; sn_effective_settings := []; sn_findings := [] |}.

(** [apply_event] of an event whose version is an integer. *)
Definition apply_event (event : dict) : M SettingsConsumer bool := fun c =>
  if negb (is_text (dget "event_type" event) "settings.changed") then (Ok false, c)
  else
    let payload := as_dict (py_or (dget "payload" event) (PDict [])) in
    let settings := py_or (dget "settings" payload) (PDict []) in
    let desired := match dget "version" payload with PInt v => Some v | _ => None end in
    let validation := validate_settings settings descriptor true in
    if negb (va_valid validation) then
      (Ok false, {| sn_desired_version := desired; sn_effective_version := sn_effective_version c;
                    sn_effective_settings := sn_effective_settings c;
                    sn_findings := (desired, sn_effective_version c, va_errors validation) :: sn_findings c |})
    else
      (Ok true, {| sn_desired_version := desired; sn_effective_version := desired; sn_effective_settings := as_dict settings;
                   sn_findings := sn_findings c |}).

#[local] Opaque descriptor.

(** ** Patching *)

Lemma set_or_pop_lookup f k v t : dlookup f (set_or_pop k v t) = if String.eqb f k then (if is_none v then None else Some v) else dlookup f t.
Proof. unfold set_or_pop. destruct (is_none v); [apply dlookup_dpop | apply dlookup_dset]. Qed.

Lemma set_fields_lookup f fields t :
  NoDup (map fst fields) ->
  dlookup f (fold_left (fun target q => set_or_pop (fst q) (snd q) target) fields t)
  = match dlookup f fields with Some v => if is_none v then None else Some v | None => dlookup f t end.
Proof.
  revert t. induction fields as [|[k v] fields IH]; intros t N; [done|]. cbn in N. apply NoDup_cons in N as [D N]. cbn [fold_left fst snd].
  rewrite IH by done. rewrite set_or_pop_lookup. cbn [dlookup]. destruct (String.eqb_spec f k) as [->|]; [|done].
  by rewrite (dlookup_none _ _ D).
Qed.

(** One category of a patch. *)
Definition patch_category (merged : dict) (p : string * pyval) : dict :=
  match snd p with
  | PDict fields =>
      match fold_left (fun target q => set_or_pop (fst q) (snd q) target) fields (as_dict (dget (fst p) merged)) with
      | [] => dpop (fst p) merged
      | target => dset (fst p) (PDict target) merged
      end
  | _ => merged
  end.

Lemma apply_patch_fold cur patch : apply_patch_to_settings cur patch = fold_left patch_category patch cur.
Proof. done. Qed.

Lemma patch_category_setting c f merged p :
  (forall fields, snd p = PDict fields -> NoDup (map fst fields)) ->
  setting c f (patch_category merged p)
  = match (if String.eqb c (fst p) then snd p else PNone) with
    | PDict fields => match dlookup f fields with Some v => if is_none v then None else Some v | None => setting c f merged end
    | _ => setting c f merged
    end.
Proof.
  intros N. destruct p as [k v]. unfold patch_category. cbn [fst snd] in *. destruct v as [| | | | | | |fields]; try (by destruct (String.eqb c k)).
  pose proof (set_fields_lookup f fields (as_dict (dget k merged)) (N _ eq_refl)) as L. unfold setting, dget in *.
  destruct (fold_left _ fields _) as [|q target]; [rewrite dlookup_dpop | rewrite dlookup_dset]; destruct (String.eqb_spec c k) as [->|]; done.
Qed.

(** A patched field has the value of the patch, is unset by a null, and is
    otherwise as it was. *)
Lemma patched_setting c f cur patch :
  unique patch ->
  setting c f (apply_patch_to_settings cur patch)
  = match setting c f patch with Some v => if is_none v then None else Some v | None => setting c f cur end.
Proof.
  intros [U W]. rewrite apply_patch_fold. revert cur W U. induction patch as [|[k v] patch IH]; intros cur W U; [done|].
  cbn in U. apply NoDup_cons in U as [D U]. cbn [fold_left].
  assert (W' : forall category raw, dlookup category patch = Some (PDict raw) -> NoDup (map fst raw)).
  { intros category raw L. apply (W category). cbn. destruct (String.eqb_spec category k) as [->|]; [|done].
    by rewrite (dlookup_none _ _ D) in L. }
  rewrite IH by done. rewrite patch_category_setting.
  - unfold setting, dget. cbn [dlookup fst snd]. destruct (String.eqb_spec c k) as [->|]; [|done].
    rewrite (dlookup_none _ _ D). cbn. by destruct v.
  - intros fields E. cbn in E. subst. apply (W k). cbn. by rewrite String.eqb_refl.
Qed.

Lemma dlookup_set_or_pop_some f k v t x :
  dlookup f (set_or_pop k v t) = Some x -> (f = k /\ x = v) \/ dlookup f t = Some x.
Proof.
  rewrite set_or_pop_lookup. destruct (String.eqb_spec f k) as [->|]; [|by right]. destruct (is_none v); [done|]. intros [= ->]. by left.
Qed.

(** Valid settings stay valid under a valid patch. *)
Lemma patched_valid cur patch : valid descriptor cur -> valid descriptor patch -> unique patch -> valid descriptor (apply_patch_to_settings cur patch).
Proof.
  intros Vc Vp [U W]. rewrite apply_patch_fold. revert cur Vc. induction patch as [|[k v] patch IH]; intros cur Vc; [done|].
  cbn in U. apply NoDup_cons in U as [D U]. cbn [fold_left].
  assert (T : forall c x, dlookup c patch = Some x -> dlookup c ((k, v) :: patch) = Some x).
  { intros c x L. cbn. destruct (String.eqb_spec c k) as [->|]; [|done]. by rewrite (dlookup_none _ _ D) in L. }
  apply IH; [intros c x L; apply (Vp c), T, L | done | intros c raw L; apply (W c), T, L |].
  assert (Hd : dlookup k ((k, v) :: patch) = Some v) by (cbn; by rewrite String.eqb_refl).
  unfold patch_category. cbn [fst snd]. destruct v as [| | | | | | |fields]; try done. specialize (Vp k _ Hd). destruct Vp as [K F].
  destruct F as [?|(fields' & [= <-] & F)]; [done|].
  assert (G : forall name x, dlookup name (fold_left (fun target q => set_or_pop (fst q) (snd q) target) fields (as_dict (dget k cur))) = Some x ->
    setting_ok descriptor k name x).
  { intros name x. rewrite set_fields_lookup by by apply (W k).
    destruct (dlookup name fields) as [y|] eqn:Ly; [destruct (is_none y); [done|]; intros [= <-]; by apply F|].
    unfold dget. destruct (dlookup k cur) as [w|] eqn:Lw; [|done]. destruct (Vc k w Lw) as [_ [->|(raw & -> & R)]]; [done|]. apply R. }
  destruct (fold_left _ fields _) as [|q target]; intros c x L.
  - rewrite dlookup_dpop in L. destruct (String.eqb c k); [done|]. by apply Vc.
  - rewrite dlookup_dset in L. destruct (String.eqb_spec c k) as [->|]; [|by apply Vc]. injection L as <-. split; [done|]. right. by eexists.
Qed.

(** ** Layers *)

(** The value a layer sets. *)
Definition set_in (settings : dict) (c f : string) : option pyval :=
  match setting c f settings with Some v => if is_none v then None else Some v | None => None end.

Lemma merge_field_setting c f k n v m :
  setting c f (merge_field k n v m)
  = if String.eqb c k && String.eqb f n && negb (is_none v) && bool_decide (is_Some (setting k n m)) then Some v else setting c f m.
Proof.
  unfold merge_field, dmem, setting. destruct (is_none v); [by rewrite andb_false_r|]. cbn [orb negb]. rewrite andb_true_r.
  destruct (dlookup n (as_dict (dget k m))) as [y|] eqn:L; cbn [negb].
  - rewrite bool_decide_true by by eexists. rewrite andb_true_r. unfold dget. rewrite dlookup_dset.
    destruct (String.eqb_spec c k) as [->|]; [|done]. cbn [andb from_option id as_dict]. rewrite dlookup_dset.
    by destruct (String.eqb f n).
  - rewrite bool_decide_false by by intros [? ?]. by rewrite andb_false_r.
Qed.

(** A field of what is resolved so far: its value and where it comes from. *)
Definition field_at (c f : string) (r : resolved) : option pyval * option string := (setting c f (fst r), snd r !! (c, f)).

(** A layer over what the lower layers give. *)
Definition over (scope : string) (o : option pyval) (x : option pyval * option string) : option pyval * option string :=
  match o with
  | Some v => if is_none v then x else match fst x with Some _ => (Some v, Some scope) | None => x end
  | None => x
  end.

Lemma resolve_field_at c f scope k n v r :
  field_at c f (resolve_field scope k n v r) = if String.eqb c k && String.eqb f n then over scope (Some v) (field_at c f r) else field_at c f r.
Proof.
  unfold resolve_field, field_at, over. destruct r as [m src]. cbn [fst snd].
  destruct (is_none v) eqn:Nv; cbn [orb]; [by destruct (_ && _)|].
  unfold dmem. destruct (dlookup n (as_dict (dget k m))) as [y|] eqn:L; cbn [negb fst snd].
  - rewrite merge_field_setting, Nv. fold (setting k n m) in L. rewrite L, bool_decide_true by by eexists. cbn [negb]. rewrite !andb_true_r.
    destruct (String.eqb_spec c k) as [->|]; [destruct (String.eqb_spec f n) as [->|]|]; cbn [andb].
    + by rewrite L, lookup_insert_eq.
    + by rewrite lookup_insert_ne by congruence.
    + by rewrite lookup_insert_ne by congruence.
  - destruct (String.eqb_spec c k) as [->|]; [destruct (String.eqb_spec f n) as [->|]|]; cbn [andb]; [|done..].
    unfold setting. by rewrite L.
Qed.

Lemma resolve_fields_at c f scope k fields r :
  NoDup (map fst fields) ->
  field_at c f (fold_left (fun r q => resolve_field scope k (fst q) (snd q) r) fields r)
  = if String.eqb c k then over scope (dlookup f fields) (field_at c f r) else field_at c f r.
Proof.
  revert r. induction fields as [|[n v] fields IH]; intros r N; [by destruct (String.eqb c k)|].
  cbn in N. apply NoDup_cons in N as [D N]. cbn [fold_left fst snd]. rewrite IH, resolve_field_at by done.
  destruct (String.eqb c k); cbn [andb]; [|done]. cbn [dlookup]. destruct (String.eqb_spec f n) as [->|]; [|done].
  by rewrite (dlookup_none _ _ D).
Qed.

Lemma over_unknown scope o x : fst x = None -> over scope o x = x.
Proof. intros E. unfold over. destruct o; [|done]. destruct (is_none _); [done|]. by rewrite E. Qed.

Lemma merge_layer_at c f scope s r : unique s -> field_at c f (_merge_layer scope s r) = over scope (setting c f s) (field_at c f r).
Proof.
  intros [U W]. unfold _merge_layer. revert r W U. induction s as [|[k v] s IH]; intros r W U; [done|].
  cbn in U. apply NoDup_cons in U as [D U]. cbn [fold_left fst snd]. rewrite IH; [| |done].
  - assert (E : field_at c f (match v with PDict fields => if dmem k (fst r) then fold_left (fun r q => resolve_field scope k (fst q) (snd q) r) fields r else r | _ => r end)
                = if String.eqb c k then over scope (dlookup f (as_dict v)) (field_at c f r) else field_at c f r).
    { destruct v as [| | | | | | |fields]; try (by destruct (String.eqb c k)). destruct (dmem k (fst r)) eqn:M.
      - apply resolve_fields_at, (W k). cbn. by rewrite String.eqb_refl.
      - destruct (String.eqb_spec c k) as [->|]; [|done]. rewrite over_unknown; [done|]. unfold field_at, setting, dget, dmem in *. cbn.
        by destruct (dlookup k (fst r)). }
    rewrite E. unfold setting, dget. cbn [dlookup]. destruct (String.eqb_spec c k) as [->|]; [|done]. by rewrite (dlookup_none _ _ D).
  - intros category raw L. apply (W category). cbn. destruct (String.eqb_spec category k) as [->|]; [|done]. by rewrite (dlookup_none _ _ D) in L.
Qed.

(** The most specific scope of a chain that sets a field, with the value. *)
Definition most_specific (layer : string * string -> dict) (chain : list (string * string)) (c f : string) : option (pyval * string) :=
  hd_error (omap (fun s => (fun v => (v, fst s)) <$> set_in (layer s) c f) (rev chain)).

Lemma most_specific_snoc layer chain s c f :
  most_specific layer (chain ++ [s])%list c f
  = match set_in (layer s) c f with Some v => Some (v, fst s) | None => most_specific layer chain c f end.
Proof. unfold most_specific. rewrite rev_app_distr. cbn. by destruct (set_in _ c f). Qed.

Lemma most_specific_ext layer layer' chain c f :
  (forall s, s ∈ chain -> layer s = layer' s) -> most_specific layer chain c f = most_specific layer' chain c f.
Proof.
  induction chain as [|s chain IH] using rev_ind; intros E; [done|]. rewrite !most_specific_snoc, IH, E; [done| |].
  - apply elem_of_app. right. by left.
  - intros s' I. apply E, elem_of_app. by left.
Qed.

Definition top_layer (layers : gmap (string * string) dict) (s : string * string) : dict := default [] (layers !! s).

Lemma layers_at layers chain c f values :
  (forall s, unique (top_layer layers s)) -> is_Some (setting c f values) ->
  field_at c f (fold_left (fun r s => _merge_layer (fst s) (default [] (layers !! s)) r) chain (values, ∅))
  = match most_specific (top_layer layers) chain c f with Some (v, scope) => (Some v, Some scope) | None => (setting c f values, None) end.
Proof.
  intros U [x X]. induction chain as [|s chain IH] using rev_ind; [by unfold field_at; cbn; rewrite lookup_empty|].
  rewrite fold_left_app, most_specific_snoc. cbn [fold_left]. rewrite merge_layer_at, IH by apply U. fold (top_layer layers s).
  unfold over, set_in. destruct (setting c f (top_layer layers s)) as [v|]; [|done]. destruct (is_none v); [done|].
  destruct (most_specific (top_layer layers) chain c f) as [[v' s']|]; cbn; by rewrite ?X.
Qed.

Lemma unique_nil : unique [].
Proof. split; [constructor | by intros ? ?]. Qed.

(** ** The fields of the file *)

Definition file_fields : list (string * string * dict) :=
  flat_map (fun c => map (fun f => (fst c, fst f, as_dict (snd f))) (as_dict (snd c))) (categories_of descriptor).

Lemma file_field c f field : (c, f, field) ∈ file_fields ->
  setting c f (default_settings descriptor) = Some (dget "default" field) /\ setting_ok descriptor c f (dget "default" field)
  /\ as_dict (dget f (fields_of descriptor c)) = field /\ secret_name f = false /\ public_field descriptor c f = true.
Proof.
  intros I.
  assert (E : map (fun x => setting (fst (fst x)) (snd (fst x)) (default_settings descriptor)) file_fields
            = map (fun x => Some (dget "default" (snd x))) file_fields) by (vm_compute; reflexivity).
  assert (E2 : map (fun x => as_dict (dget (snd (fst x)) (fields_of descriptor (fst (fst x))))) file_fields = map snd file_fields)
    by (vm_compute; reflexivity).
  assert (E3 : forallb (fun x => dmem (snd (fst x)) (fields_of descriptor (fst (fst x)))
      && (match _validate_value (fst (fst x)) (snd (fst x)) (dget "default" (snd x)) (snd x) with [] => true | _ => false end)
      && negb (secret_name (snd (fst x))) && public_field descriptor (fst (fst x)) (snd (fst x))) file_fields = true) by (vm_compute; reflexivity).
  apply list_elem_of_In in I. rewrite forallb_forall in E3. specialize (E3 _ I). cbn [fst snd] in E3. rewrite !andb_true_iff in E3.
  destruct E3 as [[[K V] S] P]. pose proof (proj1 map_ext_in_iff E _ I) as F. pose proof (proj1 map_ext_in_iff E2 _ I) as F2. cbn [fst snd] in F, F2.
  split_and!; [done| |done|by apply negb_true_iff|done]. split; [done|]. right. rewrite F2. clear -V. revert V. generalize (_validate_value c f (dget "default" field) field). by intros [|].
Qed.

(** ** What a change writes *)

(** The tables of settings stay as they are. *)
Definition desk_kept (c c' : Conn) : Prop := desk (current c') = desk (current c).

#[export] Instance desk_kept_preorder : PreOrder desk_kept.
Proof. split; [done|]. intros a b c H K. unfold desk_kept in *. congruence. Qed.

Lemma desk_kept_uuid4 : within desk_kept uuid4.
Proof. done. Qed.
Lemma desk_kept_outbox f : within desk_kept (execute (set_outbox_events f)).
Proof. done. Qed.
Lemma desk_kept_audit f : within desk_kept (execute (set_audit_events f)).
Proof. done. Qed.

#[local] Hint Resolve desk_kept_uuid4 desk_kept_outbox desk_kept_audit : keeps.

Lemma desk_kept_publish s v st rid : within desk_kept (publish_settings_changed s v st rid).
Proof. apply within_enqueue; [apply _|done..]. Qed.

Lemma desk_kept_record u a t b n r q : within desk_kept (record_settings_audit u a t b n r q).
Proof. unfold record_settings_audit. within. Qed.

Lemma dsetdefault_get k k' v d : k <> k' -> dget k (dsetdefault k' v d) = dget k d.
Proof. intros N. unfold dsetdefault. destruct (dmem k' d); [done | by apply dget_dset_ne]. Qed.

Lemma inject_payload p t c d c' k :
  inject_trace_context p t c = (Ok d, c') -> k <> "trace_id" -> k <> "request_id" -> dget k d = dget k p.
Proof.
  unfold inject_trace_context. intros H N1 N2. apply mbind_inv_ok in H as ([trace req] & c1 & _ & H). apply mret_inv in H as [<- _].
  rewrite dsetdefault_get by done. destruct req; [by rewrite dsetdefault_get | done].
Qed.

Definition settings_event_id (s : scoped) (request_id : string) : string :=
  deterministic_outbox_event_id "order_management_settings" (fst s +:+ ":" +:+ snd s) "settings.changed" request_id.

Definition announced (id : string) (d : Db) : bool := existsb (fun o => String.eqb (ob_id o) id) (outbox_events d).

(** The event of a version. *)
Definition announces (s : scoped) (version : Z) (settings : dict) (id : string) (o : outbox_row) : Prop :=
  ob_id o = id /\ ob_status o = "pending" /\ ob_event_type o = "settings.changed"
  /\ dget "scope" (ob_payload o) = PStr (fst s) /\ dget "scope_key" (ob_payload o) = PStr (snd s)
  /\ dget "version" (ob_payload o) = PInt version /\ dget "settings" (ob_payload o) = PDict settings.

Lemma publish_inv s version settings request_id c id c' :
  publish_settings_changed s version settings request_id c = (Ok id, c') ->
  id = settings_event_id s request_id /\ audit_events (current c') = audit_events (current c)
  /\ (if announced id (current c) then outbox_events (current c') = outbox_events (current c)
      else exists o, outbox_events (current c') = (outbox_events (current c) ++ [o])%list /\ announces s version settings id o).
Proof.
  unfold publish_settings_changed, enqueue_order_management_event. intros H. apply mbind_inv_ok in H as ([] & a1 & H1 & H).
  apply mlift_inv in H1 as [_ H1]. subst a1. apply mbind_inv_ok in H as (p & a2 & H2 & H).
  pose proof (inject_trace_frame _ _ _ _ _ H2) as [E2 _].
  apply mbind_inv_ok in H as (p2 & a3 & H3 & H). apply mbind_inv_ok in H3 as (r & a4 & H4 & H3). apply mlift_inv in H4 as [_ H4]. subst a4.
  apply mret_inv in H3 as [<- <-]. apply mbind_inv_ok in H as (now & a5 & H5 & H). apply get_now_inv in H5 as [_ ->].
  apply mbind_inv_ok in H as ([] & a6 & H6 & H). apply mret_inv in H as [<- <-]. apply execute_inv in H6 as [E6 _].
  split; [done|]. rewrite E6, E2. split; [done|]. unfold announced. cbn.
  fold (settings_event_id s request_id). destruct (existsb _ (outbox_events (current c))) eqn:X; [done|].
  eexists. split; [reflexivity|]. unfold announces. cbn [ob_id ob_status ob_event_type ob_payload].
  assert (G : forall k, k <> "trace_id" -> k <> "request_id" -> dget k (dsetdefault "request_id" (PStr r) p)
      = dget k [("scope", PStr (fst s)); ("scope_key", PStr (snd s)); ("version", PInt version); ("settings", PDict settings)]).
  { intros k N1 N2. rewrite dsetdefault_get by done. by eapply inject_payload. }
  split_and!; try done; by rewrite G.
Qed.

Abbreviation stored c := (order_management_settings (desk (current c))).
Abbreviation versions c := (order_management_setting_versions (desk (current c))).

Lemma insert_version_inv s v prev st by_ reason rid c c' :
  insert_settings_version s v prev st by_ reason rid c = (Ok tt, c') ->
  0 < v /\ stored c !! (s, v) = None
  /\ (exists r, stored c' = <[(s, v) := r]> (stored c) /\ os_settings r = st)
  /\ (exists r, versions c' = <[(s, v) := r]> (versions c) /\ sv_settings r = st /\ sv_previous_version r = prev)
  /\ outbox_events (current c') = outbox_events (current c) /\ audit_events (current c') = audit_events (current c).
Proof.
  unfold insert_settings_version. intros H. apply mbind_inv_ok in H as (now & c1 & H1 & H). apply get_now_inv in H1 as [_ ->].
  apply mbind_inv_ok in H as (i & c1 & H1 & H). apply uuid4_inv in H1 as [E1 _].
  apply mbind_inv_ok in H as (taken & c2 & H2 & H). apply select_inv in H2 as [-> ->]. rewrite E1 in H.
  destruct (v <=? 0) eqn:P; [done|]. destruct (bool_decide _) eqn:B; [done|]. apply bool_decide_eq_false in B.
  apply mbind_inv_ok in H as ([] & c3 & H3 & H). apply execute_inv in H3 as [E3 _].
  apply mbind_inv_ok in H as (j & c4 & H4 & H). apply uuid4_inv in H4 as [E4 _].
  apply mbind_inv_ok in H as (taken & c5 & H5 & H). apply select_inv in H5 as [-> ->].
  destruct (bool_decide _); [done|]. apply execute_inv in H as [E5 _]. rewrite E5, E4, E3, E1. cbn.
  split; [lia|]. split; [by apply eq_None_not_Some|]. split_and!; [by eexists|by eexists|done|done].
Qed.

(** What a change leaves of the tables. *)
Record changed (action : string) (s : scoped) (current_ : CurrentSettings) (after : dict) (r : ChangeRequest) (c c' : Conn) (res : ChangeResult) : Prop := {
  cd_fresh : stored c !! (s, cu_version current_ + 1) = None;
  cd_positive : 0 < cu_version current_ + 1;
  cd_stored : exists row, stored c' = <[(s, cu_version current_ + 1) := row]> (stored c) /\ os_settings row = after;
  cd_versions : exists row, versions c' = <[(s, cu_version current_ + 1) := row]> (versions c)
    /\ sv_settings row = after /\ sv_previous_version row = version_or_none (cu_version current_);
  cd_result : ch_scope res = s /\ ch_version res = cu_version current_ + 1 /\ ch_settings res = after
    /\ ch_previous_version res = version_or_none (cu_version current_);
  cd_event : if announced (settings_event_id s (cr_request_id r)) (current c) then outbox_events (current c') = outbox_events (current c)
    else exists o, outbox_events (current c') = (outbox_events (current c) ++ [o])%list
         /\ announces s (cu_version current_ + 1) after (settings_event_id s (cr_request_id r)) o;
  cd_audit : exists a, audit_events (current c') = (audit_events (current c) ++ [a])%list /\ au_event_type a = action }.

Lemma write_change_inv s u action cu after r c res c' :
  write_change s u action cu after r c = (Ok res, c') -> changed action s cu after r c c' res.
Proof.
  unfold write_change. intros H. apply mbind_inv_ok in H as ([] & c1 & H1 & H). pose proof (insert_version_inv _ _ _ _ _ _ _ _ _ H1) as (P & F & S1 & V1 & O1 & A1).
  apply mbind_inv_ok in H as ([] & c2 & H2 & H). pose proof (within_ok _ _ _ _ _ (desk_kept_record _ _ _ _ _ _ _) H2) as K2.
  apply mbind_inv_ok in H as (id & c3 & H3 & H). pose proof (within_ok _ _ _ _ _ (desk_kept_publish _ _ _ _) H3) as K3.
  destruct (publish_inv _ _ _ _ _ _ _ H3) as (-> & A3 & E3). apply mret_inv in H as [<- <-].
  assert (O2 : outbox_events (current c2) = outbox_events (current c1) /\ exists a, audit_events (current c2) = (audit_events (current c1) ++ [a])%list /\ au_event_type a = action).
  { unfold record_settings_audit in H2. apply mbind_inv_ok in H2 as (i & d1 & G1 & H2). apply uuid4_inv in G1 as [U1 _].
    apply mbind_inv_ok in H2 as (now & d2 & G2 & H2). apply get_now_inv in G2 as [_ ->]. apply execute_inv in H2 as [E _].
    rewrite E, U1. split; [reflexivity|]. eexists. split; reflexivity. }
  destruct O2 as [O2 A2]. unfold desk_kept in K2, K3.
  split; [exact F|exact P|by rewrite K3, K2|by rewrite K3, K2|done| |].
  - unfold announced in *. rewrite O2, O1 in E3. exact E3.
  - destruct A2 as (a & A2 & T). exists a. by rewrite A3, A2, A1.
Qed.

(** ** The history of a scope *)

Lemma latest_spec {A} (s : scoped) (t : gmap (string * string * Z) A) :
  match latest_version s t with
  | Some (v, r) => t !! (s, v) = Some r /\ forall v' r', t !! (s, v') = Some r' -> v' <= v
  | None => forall v, t !! (s, v) = None
  end.
Proof.
  unfold latest_version. set (rows := omap _ (map_to_list t)).
  assert (I : forall v r, (v, r) ∈ rows <-> t !! (s, v) = Some r).
  { intros v r. unfold rows. rewrite list_elem_of_omap. split.
    - intros ([[s' v'] r'] & J & E). cbn in E. case_decide; [|done]. injection E as -> ->. subst. by apply elem_of_map_to_list.
    - intros L. exists ((s, v), r). split; [by apply elem_of_map_to_list|]. cbn. by rewrite decide_True. }
  destruct (hd_error (sort_by _ rows)) as [[v r]|] eqn:H.
  - apply sort_by_hd in H as [J M].
    + split; [by apply I|]. intros v' r' L. apply I in L. specialize (M _ L). cbn in M. lia.
    + intros a b. cbn. destruct (Z.leb_spec (fst b) (fst a)); [by left|]. right. lia.
    + intros a b d. cbn. lia.
  - intros v. destruct (t !! (s, v)) as [r|] eqn:L; [|done]. apply I in L. pose proof (sort_by_perm (fun a b => fst b <=? fst a) rows) as P.
    rewrite <- P in L. destruct (sort_by _ rows); [by apply elem_of_nil in L|done].
Qed.

Definition current_of (d : Db) (s : scoped) : CurrentSettings :=
  match latest_version s (order_management_settings (desk d)) with
  | Some (version, r) => {| cu_version := version; cu_settings := os_settings r |}
  | None => {| cu_version := 0; cu_settings := [] |}
  end.

Lemma get_current_run s c : get_current_settings s c = (Ok (current_of (current c) s), c).
Proof. unfold get_current_settings, select, current_of, mbind, M_bind. by destruct (latest_version _ _) as [[? ?]|]. Qed.

(** Versions 1 to [n], each in both tables, each following the one before. *)
Record history (d : Db) (s : scoped) (n : Z) : Prop := {
  hi_count : 0 <= n;
  hi_stored : forall v, is_Some (order_management_settings (desk d) !! (s, v)) <-> 1 <= v <= n;
  hi_versions : forall v, is_Some (order_management_setting_versions (desk d) !! (s, v)) <-> 1 <= v <= n;
  hi_agree : forall v r w, order_management_settings (desk d) !! (s, v) = Some r -> order_management_setting_versions (desk d) !! (s, v) = Some w ->
    sv_settings w = os_settings r /\ sv_previous_version w = version_or_none (v - 1);
  hi_valid : forall v r, order_management_settings (desk d) !! (s, v) = Some r -> valid descriptor (os_settings r) /\ unique (os_settings r) }.

Definition histories (d : Db) : Prop := forall s, exists n, history d s n.

Lemma current_history d s n :
  history d s n -> cu_version (current_of d s) = n
  /\ (forall r, order_management_settings (desk d) !! (s, n) = Some r -> cu_settings (current_of d s) = os_settings r)
  /\ valid descriptor (cu_settings (current_of d s)) /\ unique (cu_settings (current_of d s)).
Proof.
  intros H. unfold current_of. pose proof (latest_spec s (order_management_settings (desk d))) as L.
  destruct (latest_version _ _) as [[v r]|]; cbn.
  - destruct L as [L M]. assert (v = n) as ->.
    { pose proof (proj1 (hi_stored _ _ _ H v) ltac:(by eexists)). destruct (proj2 (hi_stored _ _ _ H n) ltac:(lia)) as [r' L']. specialize (M _ _ L'). lia. }
    split_and!; [done| |by eapply (hi_valid _ _ _ H)..]. intros r' L'. rewrite L in L'. by injection L' as ->.
  - pose proof (hi_count _ _ _ H). assert (n = 0) as ->.
    { destruct (decide (n = 0)); [done|]. destruct (proj2 (hi_stored _ _ _ H n) ltac:(lia)) as [r' L']. by rewrite L in L'. }
    split_and!; [done|intros r L'; by rewrite L in L'|done|apply unique_nil].
Qed.

Lemma changed_history action s after r c c' res :
  histories (current c) -> changed action s (current_of (current c) s) after r c c' res ->
  valid descriptor after -> unique after -> histories (current c').
Proof.
  intros H C V U s'. destruct (H s') as [n N].
  destruct (cd_stored _ _ _ _ _ _ _ _ C) as (row & S & <-), (cd_versions _ _ _ _ _ _ _ _ C) as (w & W & Ws & Wp).
  destruct (decide (s' = s)) as [->|D].
  - destruct (current_history _ _ _ N) as (E & _). rewrite E in *. exists (n + 1).
    assert (I : forall v, v <> n + 1 -> (s, n + 1) <> (s, v)) by (intros v Nv [= Ev]; lia).
    split; [pose proof (hi_count _ _ _ N); lia|..]; rewrite ?S, ?W.
    + intros v. destruct (decide (v = n + 1)) as [->|Nv].
      * rewrite lookup_insert_eq. split; [|by eexists]. pose proof (hi_count _ _ _ N). lia.
      * rewrite lookup_insert_ne by by apply I. rewrite (hi_stored _ _ _ N). lia.
    + intros v. destruct (decide (v = n + 1)) as [->|Nv].
      * rewrite lookup_insert_eq. split; [|by eexists]. pose proof (hi_count _ _ _ N). lia.
      * rewrite lookup_insert_ne by by apply I. rewrite (hi_versions _ _ _ N). lia.
    + intros v x y. destruct (decide (v = n + 1)) as [->|Nv].
      * rewrite !lookup_insert_eq. intros [= <-] [= <-]. split; [done|]. by replace (n + 1 - 1) with n by lia.
      * rewrite !lookup_insert_ne by by apply I. apply (hi_agree _ _ _ N).
    + intros v x. destruct (decide (v = n + 1)) as [->|Nv].
      * rewrite lookup_insert_eq. by intros [= <-].
      * rewrite lookup_insert_ne by by apply I. apply (hi_valid _ _ _ N).
  - assert (I : forall v v' : Z, (s, v) <> (s', v')) by congruence.
    exists n. split; [by apply (hi_count _ _ _ N)|..]; rewrite ?S, ?W.
    + intros v. rewrite lookup_insert_ne by done. apply (hi_stored _ _ _ N).
    + intros v. rewrite lookup_insert_ne by done. apply (hi_versions _ _ _ N).
    + intros v x y. rewrite !lookup_insert_ne by done. apply (hi_agree _ _ _ N).
    + intros v x. rewrite lookup_insert_ne by done. apply (hi_valid _ _ _ N).
Qed.

(** Rows are only added. *)
Definition rows_kept (c c' : Conn) : Prop :=
  (forall k r, stored c !! k = Some r -> stored c' !! k = Some r) /\ (forall k w, versions c !! k = Some w -> versions c' !! k = Some w).

#[export] Instance rows_kept_preorder : PreOrder rows_kept.
Proof. split; [done|]. intros a b c [A B] [C D]. split; auto. Qed.

Lemma changed_rows action s after r c c' res :
  histories (current c) -> changed action s (current_of (current c) s) after r c c' res -> rows_kept c c'.
Proof.
  intros H C. destruct (H s) as [n N]. destruct (current_history _ _ _ N) as (E & _).
  destruct (cd_stored _ _ _ _ _ _ _ _ C) as (row & S & _), (cd_versions _ _ _ _ _ _ _ _ C) as (w & W & _).
  pose proof (cd_fresh _ _ _ _ _ _ _ _ C) as F. rewrite E in *. split; intros k x L.
  - rewrite S, lookup_insert_ne; [done|]. intros <-. by rewrite F in L.
  - rewrite W, lookup_insert_ne; [done|]. intros <-. pose proof (proj1 (hi_versions _ _ _ N (n + 1)) ltac:(by eexists)). lia.
Qed.

(** ** Patches, rollbacks and imports *)

Lemma dset_nodup k v d : NoDup (map fst d) -> NoDup (map fst (dset k v d)).
Proof.
  induction d as [|[k' v'] d IH]; cbn; [by intros; apply NoDup_singleton|]. intros [D N]%NoDup_cons.
  destruct (String.eqb_spec k k') as [->|Ne]; cbn; [by constructor|]. constructor; [|by apply IH].
  rewrite dlookup_keys, dlookup_dset_ne by congruence. by rewrite <- dlookup_keys.
Qed.

Lemma dpop_nodup k d : NoDup (map fst d) -> NoDup (map fst (dpop k d)).
Proof.
  induction d as [|[k' v'] d IH]; cbn; [done|]. intros [D N]%NoDup_cons. destruct (negb _); [|by apply IH]. cbn. constructor; [|by apply IH].
  rewrite dlookup_keys. fold (dpop k d). rewrite dlookup_dpop. destruct (String.eqb k' k); [by intros [? ?]|]. by rewrite <- dlookup_keys.
Qed.

Lemma patched_unique cur patch : unique cur -> unique (apply_patch_to_settings cur patch).
Proof.
  rewrite apply_patch_fold. revert cur. induction patch as [|[k v] patch IH]; intros cur [U W]; [by split|]. cbn [fold_left]. apply IH.
  unfold patch_category. cbn [fst snd]. destruct v as [| | | | | | |fields]; try by split.
  assert (T : NoDup (map fst (fold_left (fun target q => set_or_pop (fst q) (snd q) target) fields (as_dict (dget k cur))))).
  { assert (T0 : NoDup (map fst (as_dict (dget k cur)))).
    { unfold dget. destruct (dlookup k cur) as [x|] eqn:L; cbn; [|constructor]. destruct x; cbn; try constructor. by apply (W k). }
    revert T0. generalize (as_dict (dget k cur)). clear. induction fields as [|[n x] fields IH]; intros t T; [done|]. cbn. apply IH.
    unfold set_or_pop. destruct (is_none x); [by apply dpop_nodup | by apply dset_nodup]. }
  destruct (fold_left _ fields _) as [|q target].
  - split; [by apply dpop_nodup|]. intros c raw. rewrite dlookup_dpop. destruct (String.eqb c k); [done|]. apply W.
  - split; [by apply dset_nodup|]. intros c raw. rewrite dlookup_dset. destruct (String.eqb c k); [|apply W]. by intros [= <-].
Qed.

(** What a change needs: its scope, its version and its permission. *)
Record granted (action operation : string) (r : ChangeRequest) (c c' : Conn) (res : ChangeResult) (s : scoped) (after : dict) : Prop := {
  gr_scope : _scope (cr_scope r) (cr_scope_key r) = Ok s;
  gr_version : cr_expected_version r = Some (cu_version (current_of (current c) s));
  gr_allowed : exists user, assert_can_write_settings (cr_actor r) operation (cu_settings (current_of (current c) s)) after
    (cr_confirm r) (cr_operator_signoff r) = Ok user;
  gr_changed : changed action s (current_of (current c) s) after r c c' res;
  gr_idle : idle c' }.

Lemma patch_inv patch r c res c' :
  patch_settings patch r c = (Ok res, c') ->
  valid descriptor patch /\ exists s,
    let after := apply_patch_to_settings (cu_settings (current_of (current c) s)) (va_normalized (validate_settings (PDict patch) descriptor true)) in
    granted "settings.patch" "patch" r c c' res s after /\ valid descriptor after.
Proof.
  unfold patch_settings. destruct (cr_expected_version r) as [e|] eqn:Ev; [|done]. destruct (is_empty _); [done|]. destruct (is_empty _); [done|].
  intros H. apply mbind_inv_ok in H as (s & c1 & H1 & H). apply mlift_inv in H1 as [Sc ->].
  cbv zeta in H. destruct (negb _) eqn:V in H; [done|]. apply negb_false_iff, validate_iff in V. split; [done|]. exists s. cbv zeta.
  unfold transaction in H. destruct (patch_body _ _ _ _ _) as [[res'|ex] c2] eqn:B; [|done]. injection H as -> <-.
  unfold patch_body in B. unfold mbind at 1, M_bind at 1 in B. rewrite get_current_run in B.
  destruct (negb _) eqn:E in B; [done|]. apply negb_false_iff, Z.eqb_eq in E. cbv zeta in B. set (after := apply_patch_to_settings _ _) in *.
  destruct (negb _) eqn:A in B; [done|]. apply negb_false_iff, validate_iff in A.
  apply mbind_inv_ok in B as (user & c3 & H3 & B). apply mlift_inv in H3 as [P ->]. apply write_change_inv in B.
  split; [|done]. split; [done|by rewrite Ev, E|by eexists| |done]. destruct B. by split.
Qed.

Lemma version_of_inv s v c w c' : version_of s v c = (Ok w, c') -> versions c !! (s, v) = Some w /\ c' = c.
Proof.
  unfold version_of, get_version, try_except, select, mbind, M_bind. cbv beta iota. destruct (versions c !! (s, v)) as [x|]; cbn; [|done].
  by intros [= -> ->].
Qed.

Lemma rollback_inv target r c res c' :
  rollback_settings target r c = (Ok res, c') ->
  cr_confirm r = PBool true /\ exists s v w, target = Some v /\ versions c !! (s, v) = Some w
  /\ granted "settings.rollback" "rollback" r c c' res s (sv_settings w).
Proof.
  unfold rollback_settings. destruct (negb _) eqn:Cf; [done|]. apply negb_false_iff in Cf.
  destruct (is_empty _); [done|]. destruct (is_empty _); [done|].
  intros H. apply mbind_inv_ok in H as (s & c1 & H1 & H). apply mlift_inv in H1 as [Sc ->].
  apply mbind_inv_ok in H as (v & c2 & H2 & H). apply mlift_inv in H2 as [T ->].
  apply mbind_inv_ok in H as (w & c3 & H3 & H). apply version_of_inv in H3 as [L ->]. split; [by destruct (cr_confirm r) as [|[]| | | | | |]|].
  exists s, v, w. split; [by destruct target; [injection T as ->|]|]. split; [done|].
  unfold transaction in H. destruct (rollback_body _ _ _ _) as [[res'|ex] c4] eqn:B; [|done]. injection H as -> <-.
  unfold rollback_body in B. unfold mbind at 1, M_bind at 1 in B. rewrite get_current_run in B.
  apply mbind_inv_ok in B as (e & c5 & H5 & B). apply mlift_inv in H5 as [Ev ->]. destruct (negb _) eqn:E in B; [done|]. apply negb_false_iff, Z.eqb_eq in E.
  apply mbind_inv_ok in B as (user & c6 & H6 & B). apply mlift_inv in H6 as [P ->]. apply write_change_inv in B.
  split; [done| |by eexists| |done].
  - destruct (cr_expected_version r); [injection Ev as ->; by rewrite E | done].
  - destruct B. by split.
Qed.

(** A change that raises leaves the database as it was. *)
Lemma aged_write_change s u a cu after r : within aged (write_change s u a cu after r).
Proof.
  unfold write_change. apply within_bind; [apply _| |intros _].
  { unfold insert_settings_version. within. }
  apply within_bind; [apply _|unfold record_settings_audit; within|intros _]. apply within_bind; [apply _| |intros ?; apply within_ret, _].
  apply within_enqueue; [apply _|apply aged_uuid4|intros f; apply aged_execute].
Qed.

#[local] Hint Resolve aged_write_change : keeps.

Definition untouched (c c' : Conn) : Prop := current c' = current c /\ idle c'.

Lemma raised_transaction {A} (m : M Conn A) c e c' : within aged m -> idle c -> transaction m c = (Raise e, c') -> untouched c c'.
Proof.
  intros W I H. split; [by apply (transaction_undone _ _ _ _ W I H)|]. pose proof (transaction_idle m c) as T. by rewrite H in T.
Qed.

Lemma patch_raised patch r c e c' : idle c -> patch_settings patch r c = (Raise e, c') -> untouched c c'.
Proof.
  intros I. unfold patch_settings. destruct (cr_expected_version r); [|by intros [= _ <-]].
  destruct (is_empty _); [by intros [= _ <-]|]. destruct (is_empty _); [by intros [= _ <-]|].
  unfold mlift, mbind at 1, M_bind at 1. destruct (_scope _ _); [|by intros [= _ <-]]. cbv zeta. destruct (negb _); [by intros [= _ <-]|].
  apply raised_transaction; [|done]. unfold patch_body, get_current_settings. within.
Qed.

Lemma rollback_raised target r c e c' : idle c -> rollback_settings target r c = (Raise e, c') -> untouched c c'.
Proof.
  intros I. unfold rollback_settings. destruct (negb _); [by intros [= _ <-]|].
  destruct (is_empty _); [by intros [= _ <-]|]. destruct (is_empty _); [by intros [= _ <-]|].
  unfold mbind at 1, M_bind at 1, mlift at 1. destruct (_scope _ _) as [s|]; [|by intros [= _ <-]].
  unfold mbind at 1, M_bind at 1, mlift at 1. destruct (int_version target) as [v|]; [|by intros [= _ <-]].
  unfold mbind at 1, M_bind at 1. destruct (version_of s v c) as [[w|x] c1] eqn:L.
  - apply version_of_inv in L as [_ ->]. apply raised_transaction; [|done]. unfold rollback_body, get_current_settings. within.
  - intros [= _ <-]. revert L. unfold version_of, get_version, try_except, select, mbind, M_bind. cbv beta iota.
    destruct (versions c !! (s, v)); cbn; by intros [= _ <-].
Qed.

Lemma validate_import_run payload env scope scope_key c :
  validate_import payload env scope scope_key c
  = match _scope scope scope_key with
    | Ok s => (Ok (validate_import_payload payload env (cu_settings (current_of (current c) s))), c)
    | Raise e => (Raise e, c)
    end.
Proof.
  unfold validate_import, mlift, mbind, M_bind. destruct (_scope scope scope_key) as [s|e]; [|done]. cbv beta iota. by rewrite get_current_run.
Qed.

Lemma import_run payload env r c :
  import_settings payload env r c
  = match _scope (cr_scope r) (cr_scope_key r) with
    | Ok s =>
        let iv := validate_import_payload payload env (cu_settings (current_of (current c) s)) in
        match iv_errors iv, assert_can_write_settings (cr_actor r) "import" [] [] PNone PNone with
        | _ :: _, _ => (Raise (SettingsServiceError "validation_failed" "settings import failed validation" 400), c)
        | [], Raise e => (Raise e, c)
        | [], Ok _ => patch_settings (iv_settings iv) r c
        end
    | Raise e => (Raise e, c)
    end.
Proof.
  unfold import_settings. unfold mbind at 1, M_bind at 1. rewrite validate_import_run. destruct (_scope _ _) as [s|e]; [|done].
  cbv zeta. destruct (iv_errors _); [|done]. unfold mbind, M_bind, mlift. by destruct (assert_can_write_settings _ _ _ _ _ _).
Qed.

(** An import is a patch by what its payload validates to. *)
Lemma import_cases payload env r c :
  (exists e, import_settings payload env r c = (Raise e, c))
  \/ (exists patch, import_settings payload env r c = patch_settings patch r c
      /\ (unique (as_dict (dget "settings" payload)) -> unique patch)
      /\ has_settings_permission (stripped (dget "role" (cr_actor r))) "import" = true).
Proof.
  rewrite import_run. destruct (_scope _ _) as [s|e]; [|by left; eexists]. cbv zeta. set (iv := validate_import_payload _ _ _).
  destruct (iv_errors iv) eqn:Er; [|by left; eexists].
  destruct (assert_can_write_settings _ _ _ _ _ _) as [u|e] eqn:As; [|by left; eexists].
  right. exists (iv_settings iv). split; [done|]. split.
  - intros U. unfold iv, validate_import_payload. cbn [iv_settings]. destruct (va_valid _); [by apply normalized_unique | apply unique_nil].
  - unfold assert_can_write_settings in As. apply rbind_inv_ok in As as (u' & As & _). unfold assert_can_read_settings in As. destruct (_ || _); [done|].
    by destruct (has_settings_permission _ _).
Qed.

Inductive settings_step (c c' : Conn) : Prop :=
  | by_patch patch r x : unique patch -> patch_settings patch r c = (x, c') -> settings_step c c'
  | by_rollback target r x : rollback_settings target r c = (x, c') -> settings_step c c'
  | by_import payload env r x : unique (as_dict (dget "settings" payload)) -> import_settings payload env r c = (x, c') -> settings_step c c'
  | by_others : idle c' -> stored c' = stored c -> versions c' = versions c -> settings_step c c'.

Record settings_ok (c : Conn) : Prop := { so_idle : idle c; so_histories : histories (current c) }.

Lemma untouched_ok c c' : settings_ok c -> untouched c c' -> settings_ok c' /\ rows_kept c c'.
Proof. intros [I H] [E I']. split; [split; [done | by rewrite E]|]. unfold rows_kept. by rewrite E. Qed.

Lemma granted_ok action op r c c' res s after :
  settings_ok c -> granted action op r c c' res s after -> valid descriptor after -> unique after -> settings_ok c' /\ rows_kept c c'.
Proof.
  intros [I H] [_ _ _ C I'] V U. split; [split; [done|]; by eapply changed_history | by eapply changed_rows].
Qed.

Lemma patch_step patch r c x c' : settings_ok c -> unique patch -> patch_settings patch r c = (x, c') -> settings_ok c' /\ rows_kept c c'.
Proof.
  intros O U H. destruct x as [res|e]; [|by eapply untouched_ok, patch_raised; [|apply O|]].
  destruct (patch_inv _ _ _ _ _ H) as (V & s & G & A). destruct (so_histories _ O s) as [n N]. destruct (current_history _ _ _ N) as (_ & _ & _ & Uc).
  eapply granted_ok; [done..|]. by apply patched_unique.
Qed.

Lemma step_ok c c' : settings_ok c -> settings_step c c' -> settings_ok c' /\ rows_kept c c'.
Proof.
  intros O [patch r x U H|target r x H|payload env r x U H|I K1 K2].
  - by eapply patch_step.
  - destruct x as [res|e]; [|by eapply untouched_ok, rollback_raised; [|apply O|]].
    destruct (rollback_inv _ _ _ _ _ H) as (_ & s & v & w & _ & L & G). destruct (so_histories _ O s) as [n N].
    assert (exists row, stored c !! (s, v) = Some row) as [row R].
    { apply (hi_stored _ _ _ N), (hi_versions _ _ _ N). by eexists. }
    destruct (hi_agree _ _ _ N _ _ _ R L) as [E _]. rewrite E in G. destruct (hi_valid _ _ _ N _ _ R). by eapply granted_ok.
  - destruct (import_cases payload env r c) as [[e E]|(patch & E & Up & _)].
    + rewrite E in H. injection H as <- <-. by split.
    + rewrite E in H. eapply patch_step; [done| |done]. by apply Up.
  - destruct O as [_ H]. split; [split; [done|]|split; by rewrite ?K1, ?K2].
    intros s. destruct (H s) as [n [A B C D E]]. exists n. by split; rewrite ?K1, ?K2.
Qed.

Lemma steps_ok c c' : settings_ok c -> rtc settings_step c c' -> settings_ok c' /\ rows_kept c c'.
Proof.
  intros O R. revert O. induction R as [c|c c1 c2 S _ IH]; intros O; [done|].
  destruct (step_ok _ _ O S) as [O1 K1]. destruct (IH O1) as [O2 K2]. split; [done|by etransitivity].
Qed.

(** The versions of settings are a history.  Whatever patches, rollbacks and
    imports are made, and however they end, each scope has the versions 1 to n
    without a gap, each in both tables with the same settings and with the
    version before it as its predecessor; all of them pass the descriptor; and
    a version once written is never changed or lost. *)
Theorem settings_history c c' :
  settings_ok c -> rtc settings_step c c' ->
  (forall s, exists n, history (current c') s n /\ cu_version (current_of (current c') s) = n)
  /\ rows_kept c c'.
Proof.
  intros O R. destruct (steps_ok _ _ O R) as [[_ H] K]. split; [|done]. intros s. destruct (H s) as [n N]. exists n. split; [done|].
  by destruct (current_history _ _ _ N).
Qed.

(** ** One change for each version seen *)

Lemma versions_grow c c' s : settings_ok c -> rtc settings_step c c' -> cu_version (current_of (current c) s) <= cu_version (current_of (current c') s).
Proof.
  intros O R. destruct (steps_ok _ _ O R) as [[_ H'] [K _]]. destruct O as [_ H]. destruct (H s) as [n N], (H' s) as [n' N'].
  destruct (current_history _ _ _ N) as (-> & _), (current_history _ _ _ N') as (-> & _).
  destruct (decide (n = 0)) as [->|]; [by apply (hi_count _ _ _ N')|]. pose proof (hi_count _ _ _ N).
  destruct (proj2 (hi_stored _ _ _ N n) ltac:(lia)) as [row L]. apply K in L. pose proof (proj1 (hi_stored _ _ _ N' n) ltac:(by eexists)). lia.
Qed.

Lemma granted_version action op r c c' res s after :
  settings_ok c -> granted action op r c c' res s after ->
  cu_version (current_of (current c') s) = cu_version (current_of (current c) s) + 1 /\ cu_settings (current_of (current c') s) = after.
Proof.
  intros [_ H] G. destruct (H s) as [n N]. destruct (current_history _ _ _ N) as (E & _).
  destruct (cd_stored _ _ _ _ _ _ _ _ (gr_changed _ _ _ _ _ _ _ _ G)) as (row & S & <-). rewrite E in *.
  unfold current_of. pose proof (latest_spec s (stored c')) as L. rewrite S in *. destruct (latest_version _ _) as [[v r']|]; cbn.
  - destruct L as [L M]. specialize (M (n + 1) row (lookup_insert_eq _ _ _)). destruct (decide (v = n + 1)) as [->|Nv].
    + rewrite lookup_insert_eq in L. by injection L as ->.
    + rewrite lookup_insert_ne in L by (intros [= X]; lia). pose proof (proj1 (hi_stored _ _ _ N v) ltac:(by eexists)). lia.
  - specialize (L (n + 1)). by rewrite lookup_insert_eq in L.
Qed.

Lemma change_bumps c c' r s (x : ChangeResult) :
  settings_ok c ->
  (exists patch, unique patch /\ patch_settings patch r c = (Ok x, c')) \/ (exists target, rollback_settings target r c = (Ok x, c')) ->
  _scope (cr_scope r) (cr_scope_key r) = Ok s ->
  cr_expected_version r = Some (cu_version (current_of (current c) s))
  /\ cu_version (current_of (current c') s) = cu_version (current_of (current c) s) + 1.
Proof.
  intros O [(patch & U & H)|(target & H)] Sc.
  - destruct (patch_inv _ _ _ _ _ H) as (_ & s' & G & _). pose proof (gr_scope _ _ _ _ _ _ _ _ G) as Sc'. rewrite Sc in Sc'. injection Sc' as <-.
    split; [by apply (gr_version _ _ _ _ _ _ _ _ G) | by eapply granted_version].
  - destruct (rollback_inv _ _ _ _ _ H) as (_ & s' & v & w & _ & _ & G). pose proof (gr_scope _ _ _ _ _ _ _ _ G) as Sc'. rewrite Sc in Sc'. injection Sc' as <-.
    split; [by apply (gr_version _ _ _ _ _ _ _ _ G) | by eapply granted_version].
Qed.

(** C18. No update is lost.  Of all the changes of a scope made on a version, by
    whoever saw that version, at most one succeeds: after it, and whatever
    happens in between, every patch, rollback and import that expects the same
    version of that scope is refused and changes nothing. *)
Theorem no_lost_update c c1 c2 r r' s (x : ChangeResult) :
  settings_ok c ->
  (exists patch, unique patch /\ patch_settings patch r c = (Ok x, c1)) \/ (exists target, rollback_settings target r c = (Ok x, c1)) ->
  rtc settings_step c1 c2 ->
  _scope (cr_scope r) (cr_scope_key r) = Ok s -> _scope (cr_scope r') (cr_scope_key r') = Ok s ->
  cr_expected_version r' = cr_expected_version r ->
  (forall patch, unique patch -> exists e c3, patch_settings patch r' c2 = (Raise e, c3) /\ current c3 = current c2)
  /\ (forall target, exists e c3, rollback_settings target r' c2 = (Raise e, c3) /\ current c3 = current c2)
  /\ (forall payload env, unique (as_dict (dget "settings" payload)) ->
        exists e c3, import_settings payload env r' c2 = (Raise e, c3) /\ current c3 = current c2).
Proof.
  intros O H R Sc Sc' Ev. destruct (change_bumps _ _ _ _ _ O H Sc) as [E B].
  assert (S1 : settings_step c c1) by (destruct H as [(p & U & H)|(t & H)]; [by eapply by_patch | by eapply by_rollback]).
  destruct (step_ok _ _ O S1) as [O1 _]. destruct (steps_ok _ _ O1 R) as [O2 _]. pose proof (versions_grow _ _ s O1 R) as G.
  assert (Refused : forall patch, unique patch -> exists e c3, patch_settings patch r' c2 = (Raise e, c3) /\ current c3 = current c2).
  { intros patch U. destruct (patch_settings patch r' c2) as [[y|e] c3] eqn:P.
    + exfalso. destruct (change_bumps c2 c3 r' s y O2) as [E2 _]; [left; by eexists|done|]. rewrite Ev, E in E2. injection E2 as E2. lia.
    + exists e, c3. split; [done|]. apply (patch_raised _ _ _ _ _ (so_idle _ O2) P). }
  split_and!; [exact Refused| |intros payload env U; destruct (import_cases payload env r' c2) as [[e ->]|(patch & -> & Up & _)]; auto; by exists e, c2].
  - intros target. destruct (rollback_settings target r' c2) as [[y|e] c3] eqn:P.
    + exfalso. destruct (change_bumps c2 c3 r' s y O2) as [E2 _]; [right; by eexists|done|]. rewrite Ev, E in E2. injection E2 as E2. lia.
    + exists e, c3. split; [done|]. apply (rollback_raised _ _ _ _ _ (so_idle _ O2) P).
Qed.

(** ** What a change does *)

Lemma current_same (d d' : Db) (s : scoped) :
  (forall v, order_management_settings (desk d') !! (s, v) = order_management_settings (desk d) !! (s, v)) ->
  current_of d' s = current_of d s.
Proof.
  intros E. unfold current_of. pose proof (latest_spec s (order_management_settings (desk d))) as L.
  pose proof (latest_spec s (order_management_settings (desk d'))) as L'.
  destruct (latest_version s (order_management_settings (desk d'))) as [[v' r']|], (latest_version s (order_management_settings (desk d))) as [[v r]|]; [..|done].
  - destruct L as [L M], L' as [L' M']. rewrite E in L'. pose proof (M _ _ L'). rewrite <- E in L. pose proof (M' _ _ L).
    assert (v' = v) as -> by lia. rewrite E in L. rewrite L in L'. by injection L' as ->.
  - destruct L' as [L' _]. by rewrite E, L in L'.
  - destruct L as [L _]. by rewrite <- E, L' in L.
Qed.

Lemma granted_others action op r c c' res s after s' :
  granted action op r c c' res s after -> s' <> s -> current_of (current c') s' = current_of (current c) s'.
Proof.
  intros G N. apply current_same. intros v. destruct (cd_stored _ _ _ _ _ _ _ _ (gr_changed _ _ _ _ _ _ _ _ G)) as (row & S & _).
  rewrite S. apply lookup_insert_ne. congruence.
Qed.

(** An event of a new version is enqueued under a request id that the scope has
    not used. *)
Definition announced_once (s : scoped) (version : Z) (settings : dict) (request_id : string) (c c' : Conn) : Prop :=
  announced (settings_event_id s request_id) (current c) = false ->
  exists o, outbox_events (current c') = (outbox_events (current c) ++ [o])%list
    /\ announces s version settings (settings_event_id s request_id) o.

Lemma granted_event action op r c c' res s after :
  granted action op r c c' res s after -> announced_once s (cu_version (current_of (current c) s) + 1) after (cr_request_id r) c c'.
Proof. intros G A. pose proof (cd_event _ _ _ _ _ _ _ _ (gr_changed _ _ _ _ _ _ _ _ G)) as E. by rewrite A in E. Qed.

(** What a change does.  A patch or a rollback either raises, and the
    database is what it was, or makes the next version of its scope and of no
    other.  After a patch every field has the value of the patch, is unset where
    the patch has a null, and is otherwise as it was; after a rollback the
    settings are those of the target version.  The version is announced to the
    nodes with its settings, when the scope has not used the request id. *)
Theorem change_outcome c r :
  settings_ok c ->
  (forall patch, unique patch -> match patch_settings patch r c with
   | (Raise _, c') => current c' = current c
   | (Ok x, c') => let s := ch_scope x in let before := current_of (current c) s in let after := current_of (current c') s in
       cu_version after = cu_version before + 1
       /\ (forall category f, setting category f (cu_settings after)
             = match setting category f patch with
               | Some v => if is_none v then None else Some v
               | None => setting category f (cu_settings before)
               end)
       /\ (forall s', s' <> s -> current_of (current c') s' = current_of (current c) s')
       /\ announced_once s (cu_version after) (cu_settings after) (cr_request_id r) c c'
   end)
  /\ (forall target, match rollback_settings target r c with
      | (Raise _, c') => current c' = current c
      | (Ok x, c') => let s := ch_scope x in let before := current_of (current c) s in let after := current_of (current c') s in
          cu_version after = cu_version before + 1
          /\ (exists v w, target = Some v /\ versions c !! (s, v) = Some w /\ cu_settings after = sv_settings w)
          /\ (forall s', s' <> s -> current_of (current c') s' = current_of (current c) s')
          /\ announced_once s (cu_version after) (cu_settings after) (cr_request_id r) c c'
      end).
Proof.
  intros O. split.
  - intros patch U. destruct (patch_settings patch r c) as [[x|e] c'] eqn:H; [|by apply (patch_raised _ _ _ _ _ (so_idle _ O) H)].
    destruct (patch_inv _ _ _ _ _ H) as (V & s & G & _). destruct (granted_version _ _ _ _ _ _ _ _ O G) as [Ev Es].
    destruct (cd_result _ _ _ _ _ _ _ _ (gr_changed _ _ _ _ _ _ _ _ G)) as (-> & _). cbv zeta. rewrite Ev, Es. split_and!; [done| | |].
    + intros category f. rewrite patched_setting by by apply normalized_unique. by rewrite normalized_setting.
    + intros s' N. by eapply granted_others.
    + by eapply granted_event.
  - intros target. destruct (rollback_settings target r c) as [[x|e] c'] eqn:H; [|by apply (rollback_raised _ _ _ _ _ (so_idle _ O) H)].
    destruct (rollback_inv _ _ _ _ _ H) as (_ & s & v & w & T & L & G). destruct (granted_version _ _ _ _ _ _ _ _ O G) as [Ev Es].
    destruct (cd_result _ _ _ _ _ _ _ _ (gr_changed _ _ _ _ _ _ _ _ G)) as (-> & _). cbv zeta. rewrite Ev, Es. split_and!; [done|by exists v, w| |].
    + intros s' N. by eapply granted_others.
    + by eapply granted_event.
Qed.

(** ** Effective settings *)

Lemma fetch_run account_id instrument_id chain c :
  scope_chain account_id instrument_id = Ok chain ->
  exists layers, fetch_latest_settings_by_scope account_id instrument_id c = (Ok layers, c)
  /\ forall s, top_layer layers s = if decide (s ∈ chain) then cu_settings (current_of (current c) s) else [].
Proof.
  intros Ch. unfold fetch_latest_settings_by_scope, mlift, mbind, M_bind, select. rewrite Ch. cbv beta iota. eexists. split; [done|].
  clear Ch. induction chain as [|s0 chain IH] using rev_ind; intros s.
  - unfold top_layer. cbn. rewrite lookup_empty. by rewrite decide_False by by intros ?%elem_of_nil.
  - rewrite fold_left_app. cbn [fold_left]. unfold top_layer in *. specialize (IH s).
    assert (C0 : cu_settings (current_of (current c) s0)
      = match latest_version s0 (stored c) with Some (_, r) => os_settings r | None => [] end).
    { unfold current_of. by destruct (latest_version s0 (stored c)) as [[v r]|]. }
    assert (Ap : s ∈ (chain ++ [s0])%list <-> s ∈ chain \/ s = s0) by by rewrite elem_of_app, list_elem_of_singleton.
    destruct (decide (s = s0)) as [->|N].
    + rewrite (decide_True (P := s0 ∈ (chain ++ [s0])%list)) by (apply Ap; by right). rewrite C0 in *.
      destruct (latest_version s0 (stored c)) as [[v r]|]; [by rewrite lookup_insert_eq|]. rewrite IH. by destruct (decide (s0 ∈ chain)).
    + transitivity (if decide (s ∈ chain) then cu_settings (current_of (current c) s) else []).
      * rewrite <- IH. destruct (latest_version s0 (stored c)) as [[v r]|]; [by rewrite lookup_insert_ne by congruence|done].
      * destruct (decide (s ∈ chain)) as [I|I]; [by rewrite decide_True by (apply Ap; by left)|].
        rewrite decide_False; [done|]. rewrite Ap. by intros [?|?].
Qed.

Lemma in_file category fields field_name field :
  (category, fields) ∈ categories_of descriptor -> (field_name, field) ∈ as_dict fields -> (category, field_name, as_dict field) ∈ file_fields.
Proof.
  intros I J. unfold file_fields. apply list_elem_of_In, in_flat_map. exists (category, fields). split; [by apply list_elem_of_In|].
  apply in_map_iff. exists (field_name, field). split; [done|]. by apply list_elem_of_In.
Qed.

(** A value of a layer in effect passes the descriptor. *)
Lemma specific_ok layer chain category f v scope :
  (forall s, valid descriptor (layer s)) -> most_specific layer chain category f = Some (v, scope) -> setting_ok descriptor category f v.
Proof.
  intros V. induction chain as [|s chain IH] using rev_ind; [done|]. rewrite most_specific_snoc.
  unfold set_in. destruct (setting category f (layer s)) as [x|] eqn:S; [|done]. destruct (is_none x) eqn:N; [done|].
  intros [= -> _]. unfold setting, dget in S. destruct (dlookup category (layer s)) as [w|] eqn:L; [|done].
  destruct (V s _ _ L) as [_ [->|(raw & -> & R)]]; [done|]. by apply R.
Qed.

Lemma single_valid category f v :
  dmem category (categories_of descriptor) = true -> setting_ok descriptor category f v ->
  va_errors (validate_settings (PDict [(category, PDict [(f, v)])]) descriptor true) = [].
Proof.
  intros K S. assert (V : va_valid (validate_settings (PDict [(category, PDict [(f, v)])]) descriptor true) = true).
  { apply validate_iff. intros c x. cbn. destruct (String.eqb_spec c category) as [->|]; [|done]. intros [= <-]. split; [done|]. right.
    eexists. split; [done|]. intros name y. cbn. destruct (String.eqb_spec name f) as [->|]; [|done]. by intros [= <-]. }
  unfold va_valid in V. by destruct (va_errors _).
Qed.

Lemma category_known category fields : (category, fields) ∈ categories_of descriptor -> dmem category (categories_of descriptor) = true.
Proof.
  intros I. unfold dmem. assert (J : category ∈ map fst (categories_of descriptor)) by (apply list_elem_of_fmap; by exists (category, fields)).
  apply dlookup_keys in J as [x ->]. done.
Qed.

(** What is in effect along a chain of scopes: the value that the most specific
    scope sets, or the default of the file. *)
Definition in_effect (layer : scoped -> dict) (chain : list scoped) (category f : string) : pyval * string :=
  match most_specific layer chain category f with
  | Some x => x
  | None => (_path (default_settings descriptor) (category, f), SYSTEM_SCOPE)
  end.

Definition saved (c : Conn) (s : scoped) : dict := cu_settings (current_of (current c) s).

Lemma saved_ok c s : settings_ok c -> valid descriptor (saved c s) /\ unique (saved c s).
Proof. intros [_ H]. destruct (H s) as [n N]. by destruct (current_history _ _ _ N) as (_ & _ & ?). Qed.

(** C19. The settings in effect.  For an account and an instrument the service
    lists every field of the file, in its order; the value of a field is that
    of the latest version of the most specific scope that sets it, instrument
    before account before global, or else its default; the scope named is
    where it comes from; and every value passes the descriptor. *)
Theorem effective_settings account_id instrument_id chain c :
  settings_ok c -> scope_chain account_id instrument_id = Ok chain ->
  exists out, get_effective account_id instrument_id c = (Ok out, c)
  /\ flat_map (fun k => map (fun f => (fst k, fst f)) (snd k)) out = map fst file_fields
  /\ forall category fields f ef, (category, fields) ∈ out -> (f, ef) ∈ fields ->
       (ef_value ef, ef_source_scope ef) = in_effect (saved c) chain category f
       /\ ef_inherited ef = negb (String.eqb (ef_source_scope ef) (target_scope account_id instrument_id)) /\ ef_errors ef = [].
Proof.
  intros O Ch. destruct (fetch_run _ _ _ c Ch) as (layers & F & T). unfold get_effective. unfold mbind, M_bind. rewrite F.
  unfold mlift, resolve_effective_settings. rewrite Ch. cbn [mbind result_bind].
  destruct (fold_left _ chain _) as [values sources] eqn:Fo. eexists. split; [reflexivity|]. split.
  { unfold file_fields. generalize (categories_of descriptor). intros l. induction l as [|k l IH]; [done|]. cbn [map flat_map fst snd].
    rewrite IH, map_app. f_equal. rewrite !map_map. done. }
  intros category fields f ef I J. apply list_elem_of_fmap in I as ([category' fields'] & [= -> ->] & I).
  apply list_elem_of_fmap in J as ([f' field] & [= -> ->] & J). cbn [fst snd ef_value ef_source_scope ef_inherited ef_errors] in *.
  destruct (file_field _ _ _ (in_file _ _ _ _ I J)) as (D & Ok_ & _).
  assert (L : (setting category' f' values, sources !! (category', f'))
      = match most_specific (saved c) chain category' f' with
        | Some (v, scope) => (Some v, Some scope) | None => (setting category' f' (default_settings descriptor), None) end).
  { change (setting category' f' values, sources !! (category', f')) with (field_at category' f' (values, sources)). rewrite <- Fo, layers_at.
    - rewrite (most_specific_ext (top_layer layers) (saved c)); [done|]. intros s Is. rewrite T. by rewrite decide_True.
    - intros s. rewrite T. destruct (decide _); [by apply saved_ok | apply unique_nil].
    - by eexists. }
  unfold in_effect, _path. cbn [fst snd]. rewrite D. cbn [default from_option id].
  pose proof (specific_ok (saved c) chain category' f') as Sp.
  destruct (most_specific (saved c) chain category' f') as [[v scope]|].
  - pose proof (f_equal fst L) as Lv. pose proof (f_equal snd L) as Ls. cbn [fst snd] in Lv, Ls. rewrite Lv, Ls. cbn [from_option id]. split_and!; [done|done|]. apply single_valid; [by eapply category_known|]. apply (Sp v scope); [|done]. intros s. by apply saved_ok.
  - pose proof (f_equal fst L) as Lv. pose proof (f_equal snd L) as Ls. cbn [fst snd] in Lv, Ls. rewrite Lv, Ls, D. cbn [from_option id]. split_and!; [done|done|]. apply single_valid; [by eapply category_known | done].
Qed.

(** ** Live risk *)

Lemma resolve_field_fst scope k n v r : fst (resolve_field scope k n v r) = merge_field k n v (fst r).
Proof. unfold resolve_field, merge_field. by destruct (_ || _). Qed.

Lemma merge_layer_fst scope s r : fst (_merge_layer scope s r) = merge_layer s (fst r).
Proof.
  unfold _merge_layer, merge_layer. revert r. induction s as [|[k v] s IH]; intros r; [done|]. cbn [fold_left fst snd]. rewrite IH. f_equal.
  destruct v as [| | | | | | |fields]; try done. destruct (dmem k (fst r)); [|done]. revert r. induction fields as [|[n x] fields IHf]; intros r; [done|].
  cbn [fold_left fst snd]. by rewrite IHf, resolve_field_fst.
Qed.

Definition global_chain : list scoped := [(GLOBAL_SCOPE, GLOBAL_SCOPE_KEY)].

(** Over the defaults the global settings are what is in effect without account
    and instrument. *)
Lemma defaults_path (layer : scoped -> dict) category f :
  unique (layer (GLOBAL_SCOPE, GLOBAL_SCOPE_KEY)) -> is_Some (setting category f (default_settings descriptor)) ->
  _path (_with_defaults (layer (GLOBAL_SCOPE, GLOBAL_SCOPE_KEY))) (category, f) = fst (in_effect layer global_chain category f).
Proof.
  intros U [d D]. unfold _with_defaults, _path. cbn [fst snd].
  pose proof (merge_layer_at category f GLOBAL_SCOPE _ (default_settings descriptor, ∅) U) as M. unfold field_at in M.
  rewrite merge_layer_fst in M. cbn [fst snd] in M. apply (f_equal fst) in M. cbn [fst] in M. rewrite M.
  unfold in_effect, _path. cbn [fst snd]. change global_chain with ([] ++ [(GLOBAL_SCOPE, GLOBAL_SCOPE_KEY)])%list.
  rewrite most_specific_snoc. unfold over, set_in. cbn [fst snd]. rewrite D.
  destruct (setting category f (layer _)) as [v|]; [destruct (is_none v)|]; reflexivity.
Qed.

Definition live (v : pyval) : bool := is_text v "live".

(** No risk bound is looser after than before. *)
Definition no_relaxation (before after : string * string -> pyval) : Prop :=
  (forall path, path ∈ RISK_INCREASE_FIELDS -> float_gtb (_number (after path)) (_number (before path)) = false)
  /\ (forall path, path ∈ RISK_DECREASE_FIELDS -> float_gtb (_number (before path)) (_number (after path)) = false)
  /\ ~ (before ("protection", "require_stop") = PBool true /\ after ("protection", "require_stop") = PBool false)
  /\ DISCONNECT_ACTION_RANK (after ("price_monitor", "disconnect_action")) <= DISCONNECT_ACTION_RANK (before ("price_monitor", "disconnect_action")).

Lemma existsb_none {A} (p : A -> bool) l : existsb p l = false -> forall x, x ∈ l -> p x = false.
Proof.
  intros E x I. destruct (p x) eqn:P; [|done]. exfalso. apply list_elem_of_In in I.
  by rewrite (proj2 (existsb_exists p l) (ex_intro _ x (conj I P))) in E.
Qed.

Lemma unconfirmed_spec before after :
  requires_live_risk_confirmation before after = false ->
  let b := _path (_with_defaults before) in let a := _path (_with_defaults after) in
  live (b ("general", "execution_mode")) || live (a ("general", "execution_mode")) = true -> no_relaxation b a.
Proof.
  unfold requires_live_risk_confirmation, live. cbv zeta. intros R L.
  destruct (is_text (_path (_with_defaults after) _) "live"), (is_text (_path (_with_defaults before) _) "live"); cbn [negb andb orb] in *; try done;
    rewrite !orb_false_iff in R; destruct R as [[[R1 R2] R3] R4];
    (split_and!; [by apply existsb_none | by apply existsb_none | | by apply Z.ltb_ge]); intros [E1 E2]; by rewrite E1, E2 in R3.
Qed.

(** The paths that the rule reads are fields of the file. *)
Definition risk_paths : list (string * string) :=
  (("general", "execution_mode") :: ("protection", "require_stop") :: ("price_monitor", "disconnect_action")
   :: RISK_INCREASE_FIELDS ++ RISK_DECREASE_FIELDS)%list.

Lemma risk_paths_known path : path ∈ risk_paths -> is_Some (setting (fst path) (snd path) (default_settings descriptor)).
Proof.
  assert (E : forallb (fun p => match setting (fst p) (snd p) (default_settings descriptor) with Some _ => true | None => false end) risk_paths = true)
    by (vm_compute; reflexivity).
  intros I. apply list_elem_of_In in I. rewrite forallb_forall in E. specialize (E _ I). destruct (setting _ _ _); [by eexists|done].
Qed.

Lemma no_relaxation_ext b b' a a' :
  (forall path, path ∈ risk_paths -> b path = b' path /\ a path = a' path) -> no_relaxation b a -> no_relaxation b' a'.
Proof.
  intros E (I & D & S & R).
  assert (Ei : forall path, path ∈ RISK_INCREASE_FIELDS -> path ∈ risk_paths).
  { intros path J. do 3 right. apply elem_of_app. by left. }
  assert (Ed : forall path, path ∈ RISK_DECREASE_FIELDS -> path ∈ risk_paths).
  { intros path J. do 3 right. apply elem_of_app. by right. }
  destruct (E ("protection", "require_stop")) as [E1 E2]; [right; by left|].
  destruct (E ("price_monitor", "disconnect_action")) as [E3 E4]; [right; right; by left|].
  split_and!.
  - intros path J. destruct (E path (Ei _ J)) as [<- <-]. by apply I.
  - intros path J. destruct (E path (Ed _ J)) as [<- <-]. by apply D.
  - by rewrite <- E1, <- E2.
  - by rewrite <- E3, <- E4.
Qed.

Definition signed (r : ChangeRequest) : bool :=
  match cr_confirm r with PBool true => true | _ => false end && negb (is_empty (stripped (cr_operator_signoff r))).

Lemma allowed_inv actor operation before after confirm signoff user :
  assert_can_write_settings actor operation before after confirm signoff = Ok user ->
  has_settings_permission (us_role user) operation = true /\ us_role user = stripped (dget "role" actor)
  /\ (match confirm with PBool true => true | _ => false end && negb (is_empty (stripped signoff)) = false ->
      requires_live_risk_confirmation before after = false).
Proof.
  unfold assert_can_write_settings. intros H. apply rbind_inv_ok in H as (u & A & H). unfold assert_can_read_settings in A.
  destruct (_ || _); [done|]. destruct (has_settings_permission _ _) eqn:P; [|done]. injection A as <-.
  destruct (requires_live_risk_confirmation before after).
  - destruct (negb _ || _) eqn:E; [done|]. injection H as <-. cbn. split_and!; [done..|]. intros S. apply orb_false_iff in E as [E1 E2].
    rewrite E2 in S. apply negb_false_iff in E1. by rewrite E1 in S.
  - injection H as <-. by split_and!.
Qed.

(** Relaxing live risk takes a confirmation and a signature.  A change of the
    global settings that is made without both, while the mode in effect is live
    before or after it, leaves every risk bound in effect as tight as it was;
    and who patches or rolls back has a role that may. *)
Theorem live_relaxation_signed c c' r (x : ChangeResult) op :
  settings_ok c -> _scope (cr_scope r) (cr_scope_key r) = Ok (GLOBAL_SCOPE, GLOBAL_SCOPE_KEY) ->
  op = "patch" /\ (exists patch, unique patch /\ patch_settings patch r c = (Ok x, c'))
  \/ op = "rollback" /\ (exists target, rollback_settings target r c = (Ok x, c')) ->
  has_settings_permission (stripped (dget "role" (cr_actor r))) op = true
  /\ (signed r = false ->
      let before path := fst (in_effect (saved c) global_chain (fst path) (snd path)) in
      let after path := fst (in_effect (saved c') global_chain (fst path) (snd path)) in
      live (before ("general", "execution_mode")) || live (after ("general", "execution_mode")) = true -> no_relaxation before after).
Proof.
  intros O Sc H.
  assert (G : exists action after, granted action op r c c' x (GLOBAL_SCOPE, GLOBAL_SCOPE_KEY) after /\ settings_ok c').
  { destruct H as [[-> (patch & U & H)]|[-> (target & H)]].
    - destruct (patch_inv _ _ _ _ _ H) as (_ & s & G & _). pose proof (gr_scope _ _ _ _ _ _ _ _ G) as E. rewrite Sc in E. injection E as <-.
      eexists _, _. split; [done|]. by eapply patch_step.
    - destruct (rollback_inv _ _ _ _ _ H) as (_ & s & v & w & _ & _ & G). pose proof (gr_scope _ _ _ _ _ _ _ _ G) as E. rewrite Sc in E. injection E as <-.
      eexists _, _. split; [done|]. eapply step_ok; [done|]. by eapply by_rollback. }
  destruct G as (action & after & G & O'). destruct (gr_allowed _ _ _ _ _ _ _ _ G) as [user A]. apply allowed_inv in A as (P & Ro & A).
  rewrite Ro in P. split; [done|]. intros S. cbv zeta. specialize (A S). destruct (granted_version _ _ _ _ _ _ _ _ O G) as [_ <-].
  assert (E : forall w path, settings_ok w -> path ∈ risk_paths ->
    _path (_with_defaults (saved w (GLOBAL_SCOPE, GLOBAL_SCOPE_KEY))) path = fst (in_effect (saved w) global_chain (fst path) (snd path))).
  { intros w [cat f] Ow I. apply defaults_path; [by apply saved_ok | by apply (risk_paths_known (cat, f))]. }
  intros L. eapply no_relaxation_ext; [|apply (unconfirmed_spec _ _ A)].
  - intros path I. by rewrite <- !E.
  - rewrite <- !E in L; [exact L|..]; done || (by left).
Qed.

(** ** Export and import *)

Lemma keep_field_setting c f k n v cleaned :
  setting c f (keep_field k n v cleaned) = if String.eqb c k && String.eqb f n then Some v else setting c f cleaned.
Proof.
  unfold setting, keep_field, dget. rewrite dlookup_dset. destruct (String.eqb_spec c k) as [->|]; cbn [andb]; [|done].
  cbn [from_option id as_dict]. by rewrite dlookup_dset.
Qed.

Lemma select_fields_setting keep s c f :
  unique s -> setting c f (select_fields keep s) = match setting c f s with Some v => if keep c f then Some v else None | None => None end.
Proof.
  intros [U W]. unfold select_fields.
  assert (In_ : forall k fields cleaned, NoDup (map fst fields) ->
    setting c f (fold_left (fun cleaned q => if keep k (fst q) then keep_field k (fst q) (snd q) cleaned else cleaned) fields cleaned)
    = if String.eqb c k then match dlookup f fields with Some v => if keep c f then Some v else setting c f cleaned | None => setting c f cleaned end
      else setting c f cleaned).
  { intros k. induction fields as [|[n v] fields IH]; intros cleaned N; [by destruct (String.eqb c k)|].
    cbn in N. apply NoDup_cons in N as [D N]. cbn [fold_left fst snd]. rewrite IH by done. cbn [dlookup].
    assert (E : setting c f (if keep k n then keep_field k n v cleaned else cleaned)
      = if keep k n && (String.eqb c k && String.eqb f n) then Some v else setting c f cleaned).
    { destruct (keep k n); cbn [andb]; [apply keep_field_setting | done]. }
    rewrite E. destruct (String.eqb_spec c k) as [->|]; [|by rewrite andb_false_r]. cbn [andb].
    destruct (String.eqb_spec f n) as [->|]; [|by rewrite andb_false_r]. rewrite (dlookup_none _ _ D). by destruct (keep k n). }
  assert (Out : forall s cleaned, NoDup (map fst s) -> (forall category raw, dlookup category s = Some (PDict raw) -> NoDup (map fst raw)) ->
    setting c f (fold_left (fun cleaned p => match snd p with
      | PDict fields => fold_left (fun cleaned q => if keep (fst p) (fst q) then keep_field (fst p) (fst q) (snd q) cleaned else cleaned) fields cleaned
      | _ => cleaned end) s cleaned)
    = match setting c f s with Some v => if keep c f then Some v else setting c f cleaned | None => setting c f cleaned end).
  { clear s U W. induction s as [|[k v] s IH]; intros cleaned U W; [done|]. cbn in U. apply NoDup_cons in U as [D U]. cbn [fold_left fst snd].
    rewrite IH; [|done|].
    - assert (E : setting c f (match v with
        | PDict fields => fold_left (fun cleaned q => if keep k (fst q) then keep_field k (fst q) (snd q) cleaned else cleaned) fields cleaned
        | _ => cleaned end)
        = if String.eqb c k then match dlookup f (as_dict v) with Some x => if keep c f then Some x else setting c f cleaned | None => setting c f cleaned end
          else setting c f cleaned).
      { destruct v as [| | | | | | |fields]; try (by destruct (String.eqb c k)). apply In_, (W k). cbn. by rewrite String.eqb_refl. }
      assert (Sc : setting c f ((k, v) :: s) = if String.eqb c k then dlookup f (as_dict v) else setting c f s).
      { unfold setting, dget. cbn [dlookup]. by destruct (String.eqb c k). }
      rewrite E, Sc. destruct (String.eqb_spec c k) as [->|]; [|done].
      replace (setting k f s) with (@None pyval); [done|]. unfold setting, dget. by rewrite (dlookup_none _ _ D).
    - intros category raw L. apply (W category). cbn. destruct (String.eqb_spec category k) as [->|]; [|done]. by rewrite (dlookup_none _ _ D) in L. }
  rewrite Out by done. by destruct (setting c f s); [destruct (keep c f)|].
Qed.

Lemma known_field category name :
  dmem category (categories_of descriptor) = true -> dmem name (fields_of descriptor category) = true ->
  exists field, (category, name, field) ∈ file_fields.
Proof.
  unfold dmem. destruct (dlookup category (categories_of descriptor)) as [fields|] eqn:K; [|done]. intros _.
  unfold fields_of. rewrite (dget_some _ _ _ K). destruct (dlookup name (as_dict fields)) as [field|] eqn:L; [|done]. intros _.
  exists (as_dict field). apply (in_file category fields name field); by apply dlookup_elem.
Qed.

Lemma fold_preserves {A B} (P : A -> Prop) (f : A -> B -> A) (l : list B) a :
  P a -> (forall a b, P a -> b ∈ l -> P (f a b)) -> P (fold_left f l a).
Proof.
  revert a. induction l as [|b l IH]; intros a H K; [done|]. cbn. apply IH; [apply K; [done|by left]|]. intros a' b' Ha I. apply K; [done|by right].
Qed.

Lemma select_fields_valid keep s : valid descriptor s -> unique s -> valid descriptor (select_fields keep s).
Proof.
  intros V [U W]. apply (fold_preserves (valid descriptor)); [done|]. intros cleaned [k v] Vc I. cbn [fst snd].
  destruct v as [| | | | | | |fields]; try done. apply nodup_dlookup in I; [|done]. destruct (V k _ I) as [K [?|(raw & [= <-] & R)]]; [done|].
  apply (fold_preserves (valid descriptor)); [done|]. clear Vc cleaned. intros cleaned [n x] Vc J. cbn [fst snd]. destruct (keep k n); [|done].
  apply nodup_dlookup in J; [|by apply (W k)]. specialize (R _ _ J). intros c y. unfold keep_field. rewrite dlookup_dset.
  destruct (String.eqb_spec c k) as [->|]; [|apply Vc]. intros [= <-]. split; [done|]. right. eexists. split; [done|].
  intros name z. rewrite dlookup_dset. destruct (String.eqb_spec name n) as [->|]; [by intros [= <-]|].
  unfold dget. destruct (dlookup k cleaned) as [w|] eqn:L; [|done]. destruct (Vc k w L) as [_ [->|(raw & -> & F)]]; [done|]. apply F.
Qed.

(** Nothing of valid settings is held back by an export. *)
Lemma export_complete s category f : valid descriptor s -> unique s -> setting category f (sanitize_export s) = setting category f s.
Proof.
  intros V U. unfold sanitize_export. rewrite select_fields_setting by done. destruct (setting category f s) as [v|] eqn:S; [|done].
  assert (K : negb (secret_name f) && public_field descriptor category f = true).
  { unfold setting, dget in S. destruct (dlookup category s) as [w|] eqn:L; [|done]. destruct (V _ _ L) as [Kc [->|(raw & -> & R)]]; [done|].
    destruct (R f v S) as [Kf _]. destruct (known_field _ _ Kc Kf) as [field I]. destruct (file_field _ _ _ I) as (_ & _ & _ & Se & P).
    by rewrite Se, P. }
  by rewrite K.
Qed.

(** What is exported can be imported.  The export of any scope is a payload
    that passes the validation of an import, whatever the environment, the scope
    and the settings there, and the patch it makes sets every field to what it
    was where it came from. *)
Theorem export_import_roundtrip c scope scope_key environment s :
  settings_ok c -> _scope scope scope_key = Ok s ->
  exists payload, export_settings scope scope_key environment c = (Ok payload, c)
  /\ forall current_environment before, let iv := validate_import_payload payload current_environment before in
       iv_errors iv = [] /\ forall category f, setting category f (iv_settings iv) = setting category f (saved c s).
Proof.
  intros O Sc. destruct (saved_ok c s O) as [V U]. eexists. split.
  { unfold export_settings, mlift, mbind, M_bind. rewrite Sc. cbv beta iota. rewrite get_current_run. reflexivity. }
  intros env before. cbv zeta. unfold validate_import_payload. cbn [iv_errors iv_settings]. fold (saved c s).
  assert (P : as_dict (dget "settings" (export_payload s (cu_version (current_of (current c) s)) (saved c s) environment (clock c)))
    = sanitize_export (saved c s)) by reflexivity.
  rewrite P. pose proof (select_fields_valid _ _ V U : valid descriptor (sanitize_export (saved c s))) as Vs.
  pose proof (proj2 (validate_iff descriptor _) Vs) as E. rewrite E. split.
  - unfold va_valid in E. by destruct (va_errors _).
  - intros category f. rewrite normalized_setting by done. by apply export_complete.
Qed.

(** ** Examples *)

Definition actor_of (role : string) : dict := [("actor_id", PStr (role +:+ "-actor")); ("role", PStr role)].

Definition change (scope : string) (scope_key : option string) (version : Z) (role request_id : string) (confirm signoff : pyval) : ChangeRequest := {|
  cr_scope := scope; cr_scope_key := scope_key; cr_expected_version := Some version; cr_reason := "tuning"; cr_request_id := request_id;
  cr_actor := actor_of role; cr_confirm := confirm; cr_operator_signoff := signoff |}.

Definition one_setting (category field_name : string) (v : pyval) : dict := [(category, PDict [(field_name, v)])].

Lemma one_setting_unique category field_name v : unique (one_setting category field_name v).
Proof.
  split; [apply NoDup_singleton|]. intros c raw. cbn. destruct (String.eqb c category); [|done]. intros [= <-]. apply NoDup_singleton.
Qed.

Definition no_settings : Conn := connect empty_db (seconds 1).

Lemma no_settings_ok : settings_ok no_settings.
Proof. split; [done|]. intros s. exists 0. split; cbn; try done; intros v; rewrite ?lookup_empty; split; try (by intros [? ?]); lia. Qed.

(** Run a change and keep the state it leaves. *)
Definition after_change {A} (m : M Conn A) (c : Conn) : Conn := snd (m c).

(** The global settings go live. *)
Definition go_live : Conn :=
  after_change (patch_settings (one_setting "general" "execution_mode" (PStr "live")) (change "global" None 0 "operator" "req-1" PNone PNone)) no_settings.

Definition shown (c : Conn) (s : scoped) (category f : string) : option pyval := setting category f (saved c s).

Lemma go_live_ok : settings_ok go_live.
Proof.
  destruct (patch_settings (one_setting "general" "execution_mode" (PStr "live")) (change "global" None 0 "operator" "req-1" PNone PNone) no_settings)
    as [x c'] eqn:H.
  assert (E : go_live = c') by (unfold go_live, after_change; by rewrite H). rewrite E.
  exact (proj1 (patch_step _ _ _ _ _ no_settings_ok (one_setting_unique _ _ _) H)).
Qed.

Definition leverage (n : Z) : dict := one_setting "money" "max_leverage" (PInt n).

(** Two operators patch version 1: the second is told of the conflict. *)
Definition first_patch : result ChangeResult * Conn := patch_settings (leverage 1) (change "global" None 1 "operator" "req-2" PNone PNone) go_live.

Definition succeeded (o : result ChangeResult * Conn) : option scoped := match fst o with Ok x => Some (ch_scope x) | Raise _ => None end.

Example no_lost_update_witness :
  exists e c3, patch_settings (leverage 2) (change "global" None 1 "risk_admin" "req-3" (PBool true) (PStr "chief")) (snd first_patch) = (Raise e, c3)
  /\ current c3 = current (snd first_patch).
Proof.
  assert (V : succeeded first_patch = Some (GLOBAL_SCOPE, GLOBAL_SCOPE_KEY)) by (vm_compute; reflexivity).
  destruct first_patch as [[x|e] c1] eqn:H; [|discriminate V]. clear V. cbn [snd].
  refine (proj1 (no_lost_update go_live c1 c1 (change "global" None 1 "operator" "req-2" PNone PNone)
           (change "global" None 1 "risk_admin" "req-3" (PBool true) (PStr "chief")) (GLOBAL_SCOPE, GLOBAL_SCOPE_KEY) x go_live_ok
           (or_introl (ex_intro _ (leverage 1) (conj (one_setting_unique _ _ _) H))) (rtc_refl _ _) _ _ eq_refl) _ (one_setting_unique _ _ _));
    vm_compute; reflexivity.
Defined.

Example settings_history_witness :
  exists n, history (current go_live) (GLOBAL_SCOPE, GLOBAL_SCOPE_KEY) n /\ cu_version (current_of (current go_live) (GLOBAL_SCOPE, GLOBAL_SCOPE_KEY)) = n.
Proof.
  apply (settings_history no_settings go_live no_settings_ok).
  apply rtc_once. eapply by_patch; [apply one_setting_unique|]. unfold go_live, after_change. apply surjective_pairing.
Defined.

Example change_outcome_witness : shown go_live (GLOBAL_SCOPE, GLOBAL_SCOPE_KEY) "general" "execution_mode" = Some (PStr "live").
Proof.
  pose proof (proj1 (change_outcome no_settings (change "global" None 0 "operator" "req-1" PNone PNone) no_settings_ok)
    (one_setting "general" "execution_mode" (PStr "live")) (one_setting_unique _ _ _)) as O.
  assert (V : succeeded (patch_settings (one_setting "general" "execution_mode" (PStr "live"))
                (change "global" None 0 "operator" "req-1" PNone PNone) no_settings) = Some (GLOBAL_SCOPE, GLOBAL_SCOPE_KEY)) by (vm_compute; reflexivity).
  unfold go_live, after_change.
  destruct (patch_settings (one_setting "general" "execution_mode" (PStr "live")) (change "global" None 0 "operator" "req-1" PNone PNone) no_settings)
    as [[x|e] c'] eqn:H; [|discriminate V]. injection V as S.
  cbv zeta in O. rewrite S in O. destruct O as (_ & F & _). cbn [snd]. unfold shown, saved. rewrite F. reflexivity.
Defined.

(** The account has no settings of its own: the mode comes from the global scope
    and the leverage from the file. *)
Example effective_settings_witness :
  exists out, get_effective (Some "acct-a") None go_live = (Ok out, go_live)
  /\ in_effect (saved go_live) [(GLOBAL_SCOPE, GLOBAL_SCOPE_KEY); (ACCOUNT_SCOPE, "acct-a")] "general" "execution_mode" = (PStr "live", "global")
  /\ in_effect (saved go_live) [(GLOBAL_SCOPE, GLOBAL_SCOPE_KEY); (ACCOUNT_SCOPE, "acct-a")] "money" "max_leverage" = (PInt 1, "system_default").
Proof.
  destruct (effective_settings (Some "acct-a") None [(GLOBAL_SCOPE, GLOBAL_SCOPE_KEY); (ACCOUNT_SCOPE, "acct-a")] go_live go_live_ok) as (out & E & _).
  - vm_compute. reflexivity.
  - exists out. split; [exact E|]. split; vm_compute; reflexivity.
Defined.

Example live_relaxation_signed_witness :
  has_settings_permission "operator" "patch" = true
  /\ fst (patch_settings (leverage 5) (change "global" None 1 "operator" "req-2" PNone PNone) go_live)
     = Raise (SettingsPermissionDenied "live risk relaxation requires confirm=true and operator_signoff").
Proof.
  split; [|vm_compute; reflexivity].
  assert (V : succeeded first_patch = Some (GLOBAL_SCOPE, GLOBAL_SCOPE_KEY)) by (vm_compute; reflexivity).
  destruct first_patch as [[x|e] c1] eqn:H; [|discriminate V]. clear V.
  exact (proj1 (live_relaxation_signed go_live c1 (change "global" None 1 "operator" "req-2" PNone PNone) x "patch" go_live_ok eq_refl
    (or_introl (conj eq_refl (ex_intro _ (leverage 1) (conj (one_setting_unique _ _ _) H)))))).
Defined.

Example export_import_roundtrip_witness :
  exists payload, export_settings "global" None "testnet" go_live = (Ok payload, go_live)
  /\ iv_errors (validate_import_payload payload "live" []) = []
  /\ iv_warnings (validate_import_payload payload "live" []) = ["environment_mismatch"].
Proof.
  destruct (export_import_roundtrip go_live "global" None "testnet" (GLOBAL_SCOPE, GLOBAL_SCOPE_KEY) go_live_ok) as (payload & E & I).
  - vm_compute. reflexivity.
  - exists payload. split; [exact E|]. split; [apply I|]. unfold export_settings in E. apply (f_equal fst) in E. vm_compute in E. injection E as <-. vm_compute. reflexivity.
Defined.

(** An account inherits the live mode from the global scope, but the rule looks
    at the settings of the account alone, over the defaults, where the mode is
    shadow: an operator raises its leverage from 1 to 125 with no confirmation. *)
Lemma inherited_live_unsigned :
  let chain := [(GLOBAL_SCOPE, GLOBAL_SCOPE_KEY); (ACCOUNT_SCOPE, "acct-a")] in
  let r := change "account" (Some "acct-a") 0 "operator" "req-2" PNone PNone in
  let '(x, c') := patch_settings (leverage 125) r go_live in
  succeeded (x, c') = Some (ACCOUNT_SCOPE, "acct-a")
  /\ in_effect (saved go_live) chain "general" "execution_mode" = (PStr "live", "global")
  /\ in_effect (saved go_live) chain "money" "max_leverage" = (PInt 1, "system_default")
  /\ in_effect (saved c') chain "general" "execution_mode" = (PStr "live", "global")
  /\ in_effect (saved c') chain "money" "max_leverage" = (PInt 125, "account").
Proof. vm_compute. split_and!; reflexivity. Qed.

(** A second patch under a request id of its scope makes a version that no event
    announces. *)
Lemma reused_request_unannounced :
  let c1 := after_change (patch_settings (leverage 1) (change "global" None 1 "operator" "req-1" PNone PNone)) go_live in
  cu_version (current_of (current c1) (GLOBAL_SCOPE, GLOBAL_SCOPE_KEY)) = 2
  /\ map (fun o => dget "version" (ob_payload o)) (outbox_events (current c1)) = [PInt 1].
Proof. vm_compute. split; reflexivity. Qed.

(** [scope_overridable] is checked to be there and never read. *)
Lemma override_unchecked :
  let r := change "account" (Some "acct-a") 0 "operator" "req-2" PNone PNone in
  dget "scope_overridable" (as_dict (dget "default_account_id" (fields_of descriptor "general"))) = PBool false
  /\ succeeded (patch_settings (one_setting "general" "default_account_id" (PStr "acct-b")) r go_live) = Some (ACCOUNT_SCOPE, "acct-a").
Proof. vm_compute. split; reflexivity. Qed.

Definition settings_event (version : Z) (settings : dict) : dict := [("event_type", PStr "settings.changed");
  ("payload", PDict [("scope", PStr "global"); ("scope_key", PStr "global"); ("version", PInt version); ("settings", PDict settings)])].

(** The consumer does not compare versions: an event delivered late puts the older
    settings back. *)
Lemma late_event_regresses :
  let '(_, n) := (apply_event (settings_event 3 (leverage 1)) ≫= fun _ => apply_event (settings_event 2 (leverage 20))) fresh_consumer in
  sn_effective_version n = Some 2 /\ sn_effective_settings n = leverage 20 /\ sn_findings n = [].
Proof. vm_compute. split_and!; reflexivity. Qed.

(** A change of a field shows in the plan under its apply mode. *)
Example plan_of_live :
  let p := build_apply_plan [] (dupdate (one_setting "general" "execution_mode" (PStr "live")) (leverage 3)) in
  map sc_path (ap_restart_required p) = ["general.execution_mode"] /\ map sc_path (ap_hot_reload p) = ["money.max_leverage"].
Proof. vm_compute. split; reflexivity. Qed.
